(* ===== verification/_CoqProject ===== *)
-Q . S2P
Prelude.v
Memory.v
Effects.v
AlibString.v
StrParser.v
BinaryBuffer.v
ByteBuffer.v
ComDataCheck.v
AlibTime.v
AlibTypes.v
CString.v
RBuff.v
ArrayList.v
ArrayListSpec.v
Heap.v
DListItem.v
DListSeg.v
DList.v
DListSpec.v
StringObject.v
StringObjectSpec.v
TimerEvent.v
TimerEventHandler.v
TimerEventHandlerSpec.v
TimerEventRemove.v
ComDataCheckSpec.v
ListHistory.v
ListHistorySpec.v
MutexObject.v
MutexObjectSpec.v
MemPool.v
MemPoolSpec.v
Posix.v
ServerState.v
ServerSpec.v
FdServer.v
FdServerSpec.v
EpollPack.v
TcpServer.v
TcpServerSpec.v
ClientListener.v
ClientListenerSpec.v
Wire.v
TcpClient.v
TcpClientSpec.v
TcpFunctions.v
FdClient.v
FdClientSpec.v
Stdio.v
AlibFile.v
StdioSpec.v
AlibFileSpec.v
MakeDirSpec.v
ErrorLogger.v
ErrorLoggerSpec.v
Registry.v
ProcWaiter.v
ProcWaiterSpec.v
SignalHandler.v
SignalHandlerSpec.v
ThreadedTimerEvent.v
ThreadedTimerEventSpec.v
AlibProc.v
AlibProcSpec.v
EventServer.v
EventServerSpec.v
Zip.v
ZipStored.v
ZipSpec.v
