(* ===== verification/Prelude.v ===== *)
(** * alib-c: containers, strings, timers and messages of a C utility library

    The library under [src/] is a set of C objects: buffers, lists, strings,
    timers, pools, and servers on top of them.  This development models the
    objects that carry logic of their own and proves what they promise to a
    client, and, where the code leaves the promise, what it does instead.

    ** How C is modelled

    - A run of a function returns a value, reaches undefined behaviour of a
      named kind, or never returns: the type [res] of this file ([Ok], [UB],
      [Diverges]).  Loops whose number of steps is not structural take fuel;
      the fuel is computed from the state (the size of the block or of the
      heap, plus one), running out is [Diverges], and the theorems that state a
      result show that it is enough.
    - [size_t] values are [Z] in [0 .. ULONG_MAX] with wrap-around written out
      ([u64]); [int] and [long] arithmetic that overflows is [UB SignedOverflow];
      conversions are [s32], [s64], [u8] and the like.  A 64-bit Linux target is
      assumed, and its [#ifdef __linux__] branches.
    - [Memory]: a block of memory is the list of its cells, a pointer into it an
      offset, and every access is checked against the bounds.
    - [Effects]: the operations of an object are functions in a state monad [M]
      over [res] with a trace of the calls of the client's free callback and of
      the mutex operations.  [on_obj] is the guard on a NULL object.
    - [Heap]: linked objects live in finite maps from addresses; reading through
      NULL or a freed address is undefined; the client of an allocation passes
      the address [malloc] returns, or [None] when it fails.

    ** Files, components and sources

    - [AlibString]: the copying, searching and matching functions of
      [source/alib_string.c].
    - [BinaryBuffer] ([source/BinaryBuffer.c]): a growing byte buffer.  The
      class [ByteBuffer.ByteBuffer] is the interface its clients use, and
      [BinaryBuffer] is an instance; [CString] ([source/String.c]) builds
      strings on it directly, and [ComDataCheck] ([source/ComDataCheck.c])
      cuts a byte stream into length-prefixed messages against the interface.
    - [AlibTime] ([source/alib_time.c], [source/Timer.c]) and [AlibTypes]
      ([source/alib_types.c], [source/alib_math.c], [source/Endianess.c],
      [includes/flags.h]).
    - [RBuff] ([source/RBuff.c], [source/RBuffIt.c]): the ring buffer and its
      iterator.
    - [ArrayList] ([source/ArrayList.c]) with [ArrayListSpec]; [MemPool]
      ([source/MemPool.c]) on top of it with [MemPoolSpec].
    - [DListItem] ([source/ListItemVal.c], [source/ListItem.c],
      [source/DListItem.c]), the separation rules [DListSeg], [DList]
      ([source/DList.c]) and [DListSpec].
    - [ListHistory] ([source/ListHistoryItem.c], [source/ListHistory.c]) with
      [ListHistorySpec]; [MutexObject] ([source/MutexObject.c]) queues its lock
      requests in a [ListHistory], and [MutexObjectSpec].
    - [StrParser] ([source/StrRef.c], [source/StrParser.c]): references into a
      string and the trimming parser on them.
    - [StringObject] ([source/StringObject.c]): the deprecated string, with
      [StringObjectSpec].
    - [TimerEvent] ([source/TimerEvent.c]): an event with a timer, over any state
      that stores events and timers; [TimerEventHandler]
      ([source/TimerEventHandler.c]) keeps events in a [DList] by their end
      times and rings them from a thread, here a sequence of turns.
      [TimerEventHandlerSpec] shows the order of the list and the turns of the
      thread, [TimerEventRemove] the removal and the freeing of events.

    - [Posix]: the system as the socket components see it, a class of calls and
      a class of laws about open and watched descriptors; [ServerState]
      ([source/server_structs.c], [source/alib_cb_funcs.c]): the state they run
      in; [ServerSpec]: the invariant that says which descriptors and packages
      a server holds.
    - [FdServer] ([source/FdServer.c]) with [FdServerSpec]: the server that
      receives descriptors; the loop of its thread is a sequence of turns, each
      an [epoll_wait] and the handling of what it reports.
    - [EpollPack] ([source/EpollPack.c]) and [TcpServer] ([source/TcpServer.c])
      with [TcpServerSpec]: the TCP server; the loop serves a batch of events at
      a time, and the invariant says which events are still to be served.
    - [ClientListener] ([source/ClientListener.c]) with [ClientListenerSpec]: a
      server for sockets that others accepted; its loop holds a mutex while it
      serves a batch, so the model has the mutex as a flag and an operation that
      takes it twice never returns.
    - [TcpClient] ([source/TcpClient.c]) with [TcpClientSpec]: the object may be
      freed while the caller still has its address; every access checks that.
      [TcpFunctions] ([source/tcp_functions.c], [source/alib_sockets.c]): a
      one-time message.  [Wire]: the bytes each descriptor took, on top of
      [Posix].
    - [FdClient] ([source/FdClient.c]) with [FdClientSpec]: the counterpart of
      [FdServer].

    - [Stdio] with [StdioSpec]: files and the streams of the C library, and
      [AlibFile] ([source/alib_file.c], [source/alib_dir.c]) on them, with
      [AlibFileSpec] (removal of data, sizes, numbered files, listings, names in
      paths) and [MakeDirSpec] (directories with their parents).
    - [ErrorLogger] ([source/ErrorLogger.c]) with [ErrorLoggerSpec]: a file of
      JSON lines on [Stdio], behind a mutex, cut in half when it has grown.
    - [Registry]: an [ArrayList] of callbacks with the loops that call them and
      take them out while they run.  On it, [ProcWaiter]
      ([source/proc_waiter.c]) with [ProcWaiterSpec]: the thread that waits for
      child processes, a state machine whose states are its guard, [wait()] and
      the waits for the condition; and [SignalHandler]
      ([source/signal_handler.c]) with [SignalHandlerSpec], where what [malloc]
      leaves in a [struct sigaction] is an argument.
    - [ThreadedTimerEvent] ([source/ThreadedTimerEvent.c]) with
      [ThreadedTimerEventSpec]: a [TimerEvent] with a thread; the turns of the
      thread are steps, other threads act where its mutex is free.
    - [AlibProc] ([source/alib_proc.c]) with [AlibProcSpec]: the search for
      processes, on [AlibFile] and [Stdio].
    - [EventServer] ([source/EventServer.c]) with [EventServerSpec]: the server
      on libevent, which is a class of calls with the laws the code relies on;
      the loop asks for one occurrence after another and runs its callback.
    - [Zip] ([source/zip.c], [source/ZipFileIter.c]) on [BinaryBuffer] and the
      streams of [Stdio]: the loops are written once, for what a turn does with
      the output of zlib ([chunk_to_buffer], [chunk_to_file]); their fuel counts
      the chunks of input and output.  [ZipStored] is an instance of zlib;
      [ZipSpec] proves the loops once for any sink of output.
    Every operation has the name of its C function; the fields of a record are
    those of the C struct.

    ** What is proved

    - Refinements of an abstract object by any sequence of calls: a multiset of
      items with their ownership ([run_refines_bag], [no_double_free]), a byte
      sequence ([run_refines_bytes]), a text ([run_refines_text]), a queue
      ([run_refines_queue]), a list
      ([run_refines_list]), a bounded history ([run_refines_history]), a parser
      of frames ([receive_parses]), a pool that shares no block
      ([blocks_not_shared]).
    - Round trips: a stream of messages sent is the stream received however the
      bytes are cut ([stream_roundtrip]); what is deflated is inflated to the
      same bytes, in memory and between files, however it falls into chunks
      ([zip_buffer_roundtrip], [zip_file_roundtrip]), but for more than 4 GiB
      ([deflate_btb_counts]) and for streams that are cut short
      ([inflate_btb_truncated]); values set and printed into a string.
    - Files and processes: an error is one more line of the log, which loses its
      older half first ([log_error_spec], [truncate_size_spec]); data is cut out
      of a file ([file_remove_data_at_spec]); directories are made with their
      parents ([create_directory_makes]); an exited process calls what was
      registered for it ([dispatch_calls], [start_register_exit]), and a signal
      what was registered for it ([signal_calls]), if what [sigaction] was given,
      of which the code writes the handler only, happens to allow it
      ([register_then_signal]); the waiting thread ends when it is told to, but
      for one wait that a stop does not reach ([thread_stops]).
    - Invariants: the handler keeps its events in the order of their end times
      ([add_keeps_order], [turn_rings_first]), though the timer of the first one
      is not started ([first_event_not_started]), and the freed ones leave its
      list and their items ([free_removes_event]).
    - Resources: a server that has stopped has closed every descriptor it opened
      and freed every package, for any behaviour of the system and of the
      client's code within the stated laws ([TcpServer_start_releases],
      [FdServer_run_releases]); a listener keeps the packages and descriptors of
      its clients together over a run ([ClientListener_start_keeps]), until a
      client is added that cannot be watched ([failed_add_dangles]) or one is
      added from a callback ([add_in_callback_deadlocks]); a client that is
      deleted has closed its socket ([TcpClient_session_releases],
      [FdClient_listen_releases]); the packages of a server in an event loop
      are all freed ([EventServer_session_frees]).
    - Sending: [TcpClient_send_delivers] and, for what the one-time message does
      instead, [tcp_send_sends_beginnings].
    - Bounds: growth without wrap-around ([calc_and_resize_bounds]), exact time
      arithmetic ([timespec_arith_exact]).
    - Termination and progress: iteration visits the content and stops
      ([visit_all_content]); the receive loop returns at the message
      ([recv_returns]).
    - Equivalence of the thread-safe operations with the plain ones between
      lock and unlock ([tsafe_ok]).
    - Functional behaviour of single operations on all branches (copying,
      matching, searching, insertion and removal with the byte the
      code loses, time arithmetic, classification).
    - Error behaviour: each theorem named [..._crashes], [..._breaks],
      [..._stale], [..._never] and the like states what the code does where
      its contract ends, with a witness that the situation arises.

    ** Bounds and assumptions

    Sizes and counts are assumed small enough not to wrap where a theorem says
    so ([2 ^ 59] items, [2 ^ 62] list elements, [2 ^ 60] seconds); nothing else
    is bounded.  Each property's comment names its conditions, and the theorems
    that show what the code does outside of them.  [memcpy] on overlapping
    blocks, signed overflow, and reads of indeterminate values are undefined.
    Allocators are assumed to return fresh non-NULL addresses or to fail.
    [qsort] is assumed to sort.  The system's calls are parameters with the laws
    of [PosixLaws]; [FdServer_run_releases] also assumes that an open socket can
    be bound and made non-blocking and that one event is reported at a time,
    since the code leaks or closes a wrong descriptor otherwise
    ([mixed_batch_closes_server]); [TcpServer_start_releases] that [epoll_ctl]
    watches every open descriptor ([refused_client_leaks]);
    [EventServer_session_frees] that the port can be bound
    ([refused_port_faults]).  [mkdir] and [stat] are parameters with the laws of
    [FileSystemLaws], which are those of POSIX.  libevent and zlib are
    parameters with the laws of [LibeventLaws] and [ZlibLaws]; [ZipStored] is a
    codec for which the latter hold.

    ** Not modelled

    The servers and clients that are callbacks of [libuv] ([source/UvTcp.c],
    [source/UvTcpServer.c], [source/UvTcpClient.c]), which the build leaves out,
    the transfers that are calls of libcurl, and the iterator over arrays of
    json-c: what these functions do is what those libraries do.  [fd_send] and [fd_recv] are calls of the system.  Printing of
    doubles is a parameter.  Concurrency is modelled as far as a mutex orders
    it: a mutex is a flag and a trace of lock and unlock events, the threads
    are sequences of turns, and what other threads do between them is an
    argument; data races inside an operation are not modelled, and
    [MutexObject] is modelled as one thread sees it. *)
From Stdlib Require Export ZArith Lia.
From stdpp Require Export prelude list numbers.

(** * Results of C code

    A run of a C function returns normally, reaches undefined behaviour, or
    never returns.  [fault] names the kind of undefined behaviour reached. *)
Inductive fault :=
| NullDeref | OutOfBounds | Indeterminate | Dangling | Overlap
| SignedOverflow | DivByZero.

#[export] Instance fault_eq_dec : EqDecision fault.
Proof. solve_decision. Defined.

Inductive res (A : Type) :=
| Ok (a : A)
| UB (f : fault)
| Diverges.
Arguments Ok {A} a.
Arguments UB {A} f.
Arguments Diverges {A}.

#[export] Instance res_ret : MRet res := fun _ a => Ok a.
#[export] Instance res_bind : MBind res := fun _ _ k m =>
  match m with Ok a => k a | UB f => UB f | Diverges => Diverges end.

(** [yields m Q]: [m] returns normally, and its result satisfies [Q]. *)
Definition yields {A} (m : res A) (Q : A -> Prop) : Prop :=
  match m with Ok a => Q a | _ => False end.

Lemma yields_bind {A B} (m : res A) (k : A -> res B) (Q : B -> Prop) :
  yields (mbind k m) Q <-> yields m (fun a => yields (k a) Q).
Proof. by destruct m. Qed.

Lemma yields_mono {A} (m : res A) (P Q : A -> Prop) :
  yields m P -> (forall a, P a -> Q a) -> yields m Q.
Proof. destruct m; naive_solver. Qed.

Lemma yields_elim {A} (m : res A) (Q : A -> Prop) :
  yields m Q -> exists a, m = Ok a /\ Q a.
Proof. destruct m; naive_solver. Qed.

#[export] Instance yields_proper {A} (m : res A) :
  Proper (pointwise_relation A iff ==> iff) (yields m).
Proof. intros P Q HPQ. destruct m; simpl; [apply HPQ | done | done]. Qed.

(** * Loops

    A loop body maps its state to a new state ([inl]) or to the loop's result
    ([inr]).  The fuel bounds the number of iterations; a loop that uses it up
    is reported as [Diverges], and [loop_yields] is the total-correctness rule
    that shows it does not. *)
Section loops.
Context {S R : Type}.

Fixpoint loop (fuel : nat) (body : S -> res (S + R)) (s : S) : res R :=
  match fuel with
  | O => Diverges
  | Datatypes.S n =>
      r ← body s;
      match r with inl s' => loop n body s' | inr v => Ok v end
  end.

Lemma loop_yields (Inv : S -> Prop) (measure : S -> nat) body (Q : R -> Prop) :
  (forall s, Inv s -> yields (body s) (fun r =>
     match r with
     | inl s' => Inv s' /\ (measure s' < measure s)%nat
     | inr v => Q v
     end)) ->
  forall fuel s, Inv s -> (measure s < fuel)%nat -> yields (loop fuel body s) Q.
Proof.
  intros Hbody fuel. induction fuel as [|n IH]; intros s Hs Hm; [lia|].
  specialize (Hbody s Hs). simpl. apply yields_bind.
  eapply yields_mono; [exact Hbody|]. intros [s'|v]; simpl; [|done].
  intros [??]. apply IH; [done|lia].
Qed.

(** Every iteration either keeps the invariant or reaches the fault [f]. *)
Lemma loop_faults (Inv : S -> Prop) (measure : S -> nat) body (f : fault) :
  (forall s, Inv s -> body s = UB f \/
     exists s', body s = Ok (inl s') /\ Inv s' /\ (measure s' < measure s)%nat) ->
  forall fuel s, Inv s -> (measure s < fuel)%nat -> loop fuel body s = UB f.
Proof.
  intros Hbody fuel. induction fuel as [|n IH]; intros s Hs Hm; [lia|].
  simpl. destruct (Hbody s Hs) as [->|(s' & -> & Hs' & ?)]; [done|].
  simpl. apply IH; [done|lia].
Qed.

(** Every iteration keeps the invariant: no fuel is enough. *)
Lemma loop_diverges (Inv : S -> Prop) body :
  (forall s, Inv s -> exists s', body s = Ok (inl s') /\ Inv s') ->
  forall fuel s, Inv s -> loop fuel body s = Diverges.
Proof.
  intros Hbody fuel. induction fuel as [|n IH]; intros s Hs; [done|].
  simpl. destruct (Hbody s Hs) as (s' & -> & Hs'). simpl. by apply IH.
Qed.
End loops.

(** * Machine integers (LP64: [size_t] and [unsigned long] have 64 bits) *)
Declare Scope alib_scope.
Delimit Scope alib_scope with alib.
Open Scope Z_scope.

Definition ULONG_MAX : Z := 2 ^ 64 - 1.
Definition INT32_MAX : Z := 2 ^ 31 - 1.
Definition LONG_MAX : Z := 2 ^ 63 - 1.
Definition LONG_MIN : Z := - 2 ^ 63.

(** Unsigned arithmetic wraps. *)
Definition u64 (z : Z) : Z := z mod 2 ^ 64.
Definition u8 (z : Z) : Z := z mod 2 ^ 8.
(** Conversion to a signed type keeps the value modulo the width. *)
Definition s32 (z : Z) : Z :=
  let m := z mod 2 ^ 32 in if m <? 2 ^ 31 then m else m - 2 ^ 32.
Definition s64 (z : Z) : Z :=
  let m := z mod 2 ^ 64 in if m <? 2 ^ 63 then m else m - 2 ^ 64.
(** Signed arithmetic on [long]: overflow is undefined. *)
Definition slong (z : Z) : res Z :=
  if (LONG_MIN <=? z) && (z <=? LONG_MAX) then Ok z else UB SignedOverflow.

Lemma u64_small z : 0 <= z < 2 ^ 64 -> u64 z = z.
Proof. apply Z.mod_small. Qed.
Lemma u64_range z : 0 <= u64 z < 2 ^ 64.
Proof. apply Z.mod_pos_bound. lia. Qed.
Lemma u64_wrap z : 2 ^ 64 <= z < 2 * 2 ^ 64 -> u64 z = z - 2 ^ 64.
Proof.
  intros. unfold u64. rewrite <- (Z_mod_plus_full z (-1)). apply Z.mod_small. lia.
Qed.
Lemma s32_small z : - 2 ^ 31 <= z < 2 ^ 31 -> s32 z = z.
Proof.
  intros H. unfold s32. destruct (Z.ltb_spec (z mod 2 ^ 32) (2 ^ 31));
    destruct (decide (0 <= z)).
  - apply Z.mod_small. lia.
  - rewrite <- (Z_mod_plus_full z 1), Z.mod_small in * by lia. lia.
  - rewrite Z.mod_small in * by lia. lia.
  - rewrite <- (Z_mod_plus_full z 1), Z.mod_small by lia. lia.
Qed.
Lemma s64_small z : - 2 ^ 63 <= z < 2 ^ 63 -> s64 z = z.
Proof.
  intros H. unfold s64. destruct (Z.ltb_spec (z mod 2 ^ 64) (2 ^ 63));
    destruct (decide (0 <= z)).
  - apply Z.mod_small. lia.
  - rewrite <- (Z_mod_plus_full z 1), Z.mod_small in * by lia. lia.
  - rewrite Z.mod_small in * by lia. lia.
  - rewrite <- (Z_mod_plus_full z 1), Z.mod_small by lia. lia.
Qed.
(** A [long] converted to [size_t] and back. *)
Lemma s64_u64 z : - 2 ^ 63 <= z < 2 ^ 63 -> s64 (u64 z) = z.
Proof.
  intros H. transitivity (s64 z); [|by apply s64_small].
  unfold s64, u64. by rewrite Z.mod_mod by lia.
Qed.
Lemma slong_ok z : LONG_MIN <= z <= LONG_MAX -> slong z = Ok z.
Proof.
  intros [??]. unfold slong.
  by rewrite (proj2 (Z.leb_le _ _)), (proj2 (Z.leb_le _ _)) by done.
Qed.

(** Removes the wrap-around of in-range unsigned arithmetic. *)
Ltac unwrap :=
  repeat match goal with
  | |- context [u64 ?z] =>
      rewrite (u64_small z) by (unfold ULONG_MAX, INT32_MAX in *; lia)
  end.

(** Case analysis on the boolean comparisons of the goal. *)
Ltac case_cmp :=
  match goal with
  | |- context [?a <? ?b] => destruct (Z.ltb_spec a b)
  | |- context [?a <=? ?b] => destruct (Z.leb_spec a b)
  | |- context [?a =? ?b] => destruct (Z.eqb_spec a b)
  | |- context [?a >? ?b] => rewrite (Z.gtb_ltb a b); destruct (Z.ltb_spec b a)
  | |- context [?a >=? ?b] => rewrite (Z.geb_leb a b); destruct (Z.leb_spec b a)
  end.

(** * Error codes ([includes/alib_error.h]) *)
Definition ALIB_DEVICE_NOT_FOUND : Z := -24.
Definition ALIB_STATE_ERR : Z := -23.
Definition ALIB_OVERFLOW : Z := -22.
Definition ALIB_FILE_NOT_FOUND : Z := -21.
Definition ALIB_TCP_RECV_ERR : Z := -20.
Definition ALIB_FILE_FORMAT_ERR : Z := -19.
Definition ALIB_TIMEOUT : Z := -18.
Definition ALIB_BAD_INDEX : Z := -17.
Definition ALIB_INTERNAL_MAX_REACHED : Z := -16.
Definition ALIB_THREAD_ERR : Z := -15.
Definition ALIB_FILE_WRITE_ERR : Z := -14.
Definition ALIB_FILE_READ_ERR : Z := -13.
Definition ALIB_FILE_OPEN_ERR : Z := -12.
Definition ALIB_FILE_ERR : Z := -11.
Definition ALIB_CHECK_ERRNO : Z := -10.
Definition ALIB_OBJ_CORRUPTION : Z := -9.
Definition ALIB_TCP_SEND_ERR : Z := -8.
Definition ALIB_TCP_CONNECT_ERR : Z := -7.
Definition ALIB_FD_ERR : Z := -6.
Definition ALIB_UNKNOWN_ERR : Z := -5.
Definition ALIB_PORT_IN_USE : Z := -4.
Definition ALIB_MUTEX_ERR : Z := -3.
Definition ALIB_MEM_ERR : Z := -2.
Definition ALIB_BAD_ARG : Z := -1.
Definition ALIB_OK : Z := 0.

(** * Pointers to objects

    A possibly-NULL pointer to an object is an [option]; reading through it
    when it is NULL is undefined. *)
Definition deref {A} (p : option A) : res A :=
  match p with Some a => Ok a | None => UB NullDeref end.

(** * List lemmas shared by the components *)
Lemma lookup_drop_to_nat {A} (l : list A) (a b : Z) :
  0 <= a -> 0 <= b -> drop (Z.to_nat a) l !! Z.to_nat b = l !! Z.to_nat (a + b).
Proof. intros. rewrite lookup_drop. f_equal. lia. Qed.

Lemma lookup_Z_is_Some {A} (l : list A) (i : Z) :
  0 <= i < Z.of_nat (length l) -> exists x, l !! Z.to_nat i = Some x.
Proof. intros. apply lookup_lt_is_Some_2. lia. Qed.

Lemma take_take_min {A} (l : list A) n m : take n (take m l) = take (n `min` m) l.
Proof. apply take_take. Qed.

(** * Symbolic execution

    [rstep] performs a bind on a known result, [run] alternates it with the
    case analysis of comparisons, discarding the cases arithmetic excludes. *)
Ltac rstep := cbn [mbind res_bind mret res_ret deref negb andb orb fst snd].
Ltac run := repeat (rstep; case_cmp; try (exfalso; lia)); rstep.
