(* ===== verification/Memory.v ===== *)
(** Blocks of C memory: a block is the list of its cells, a pointer into it is
    an offset, and every access checks the bounds of the block.  The
    components that keep a buffer ([RBuff], [BinaryBuffer]) and the string
    functions ([AlibString]) are built on these accesses. *)
From S2P Require Import Prelude.

Section blocks.
Context {A : Type}.
Implicit Types (b d : list A) (off n : Z).

Definition blen b : Z := Z.of_nat (length b).

(** [p[off]] *)
Definition blk_load b off : res A :=
  if (0 <=? off) && (off <? blen b)
  then match b !! Z.to_nat off with Some x => Ok x | None => UB OutOfBounds end
  else UB OutOfBounds.

(** [p[off] = x] *)
Definition blk_store b off (x : A) : res (list A) :=
  if (0 <=? off) && (off <? blen b)
  then Ok (<[Z.to_nat off := x]> b) else UB OutOfBounds.

(** The [n] cells of [b] from [off]. *)
Definition slice b off n : list A := take (Z.to_nat n) (drop (Z.to_nat off) b).

(** The [n] cells from [off]; an access of no cells reads nothing. *)
Definition blk_read b off n : res (list A) :=
  if n =? 0 then Ok []
  else if (0 <=? off) && (0 <=? n) && (off + n <=? blen b)
  then Ok (slice b off n) else UB OutOfBounds.

(** [b] with the cells from [off] replaced by those of [d]. *)
Definition splice b off d : list A :=
  take (Z.to_nat off) b ++ d ++ drop (Z.to_nat (off + blen d)) b.

(** Writes the cells [d] from [off]. *)
Definition blk_write b off d : res (list A) :=
  if blen d =? 0 then Ok b
  else if (0 <=? off) && (off + blen d <=? blen b)
  then Ok (splice b off d) else UB OutOfBounds.

(** [memcpy(to + t, from + f, n)] between two different blocks. *)
Definition blk_copy (dst : list A) t (src : list A) f n : res (list A) :=
  d ← blk_read src f n; blk_write dst t d.

(** [memcpy] inside one block: the standard leaves overlapping regions
    undefined. *)
Definition blk_memcpy b t f n : res (list A) :=
  if n =? 0 then Ok b
  else if (t <? f + n) && (f <? t + n) then UB Overlap
  else blk_copy b t b f n.

Lemma blen_nil : blen (@nil A) = 0.
Proof. done. Qed.
Lemma blen_cons x b : blen (x :: b) = 1 + blen b.
Proof. unfold blen. simpl. lia. Qed.
Lemma blen_app b d : blen (b ++ d) = blen b + blen d.
Proof. unfold blen. rewrite length_app. lia. Qed.
Lemma blen_nonneg b : 0 <= blen b.
Proof. unfold blen. lia. Qed.

Lemma blk_load_ok b off x :
  0 <= off -> b !! Z.to_nat off = Some x -> blk_load b off = Ok x.
Proof.
  intros H0 Hx. unfold blk_load, blen. pose proof (lookup_lt_Some _ _ _ Hx).
  rewrite (proj2 (Z.leb_le _ _)), (proj2 (Z.ltb_lt _ _)) by lia. by rewrite Hx.
Qed.
Lemma blk_load_oob b off : off < 0 \/ blen b <= off -> blk_load b off = UB OutOfBounds.
Proof. intros H. unfold blk_load. repeat case_cmp; simpl; try done; lia. Qed.
Lemma blk_load_inv b off x :
  blk_load b off = Ok x -> 0 <= off < blen b /\ b !! Z.to_nat off = Some x.
Proof.
  unfold blk_load. repeat case_cmp; simpl; try done.
  destruct (b !! _) eqn:?; naive_solver.
Qed.
Lemma blk_load_app_r b d off :
  blen b <= off -> blk_load (b ++ d) off = blk_load d (off - blen b).
Proof.
  intros H. unfold blk_load. rewrite blen_app. pose proof (blen_nonneg b).
  repeat case_cmp; simpl; try done; try lia.
  rewrite lookup_app_r by (unfold blen in *; lia).
  replace (Z.to_nat off - length b)%nat with (Z.to_nat (off - blen b))
    by (unfold blen; lia). done.
Qed.

Lemma blk_store_ok b off x :
  0 <= off < blen b -> blk_store b off x = Ok (<[Z.to_nat off := x]> b).
Proof. intros. unfold blk_store. repeat case_cmp; simpl; done || lia. Qed.

(** Accesses in the middle of a block given by its two halves. *)
Lemma blk_load_middle b x d : blk_load (b ++ x :: d) (blen b) = Ok x.
Proof.
  apply blk_load_ok; [apply blen_nonneg|]. unfold blen. rewrite Nat2Z.id.
  by apply list_lookup_middle.
Qed.
Lemma blk_store_middle b x d y : blk_store (b ++ x :: d) (blen b) y = Ok (b ++ y :: d).
Proof.
  rewrite blk_store_ok; [|rewrite blen_app, blen_cons; pose proof (blen_nonneg b);
    pose proof (blen_nonneg d); lia].
  unfold blen. rewrite Nat2Z.id. f_equal.
  rewrite insert_app_r_alt by done. by rewrite Nat.sub_diag.
Qed.
Lemma blen_snoc b x : blen (b ++ [x]) = blen b + 1.
Proof. by rewrite blen_app, blen_cons, blen_nil. Qed.

Lemma blk_read_ok b off n :
  0 <= off -> 0 <= n -> off + n <= blen b ->
  blk_read b off n = Ok (slice b off n).
Proof.
  intros. unfold blk_read. repeat case_cmp; simpl; try done; try lia.
  unfold slice. by replace (Z.to_nat n) with 0%nat by lia.
Qed.
Lemma blk_read_oob b off n :
  n <> 0 -> off + n > blen b -> blk_read b off n = UB OutOfBounds.
Proof. intros. unfold blk_read. repeat case_cmp; simpl; done || lia. Qed.

Lemma blen_slice b off n :
  0 <= off -> 0 <= n -> off + n <= blen b -> blen (slice b off n) = n.
Proof. intros. unfold blen, slice in *. rewrite length_take, length_drop. lia. Qed.
Lemma lookup_slice b off n (i : nat) :
  0 <= off ->
  slice b off n !! i = if decide (Z.of_nat i < n) then b !! Z.to_nat (off + Z.of_nat i) else None.
Proof.
  intros. unfold slice. case_decide.
  - rewrite lookup_take_lt, lookup_drop by lia. f_equal. lia.
  - rewrite lookup_take_ge by lia. done.
Qed.
Lemma slice_all b : slice b 0 (blen b) = b.
Proof. unfold slice, blen. simpl. rewrite drop_0. apply firstn_all2. lia. Qed.
Lemma take_blen_app b d : take (Z.to_nat (blen b)) (b ++ d) = b.
Proof. unfold blen. by rewrite Nat2Z.id, take_app_length. Qed.
Lemma slice_prefix b d : slice (b ++ d) 0 (blen b) = b.
Proof. unfold slice, blen. rewrite Nat2Z.id. simpl. by rewrite drop_0, take_app_length. Qed.
Lemma splice_prefix b d e : blen e = blen b -> splice (b ++ d) 0 e = e ++ d.
Proof.
  intros H. unfold splice. rewrite H, Z.add_0_l. unfold blen.
  by rewrite Nat2Z.id, drop_app_length.
Qed.
Lemma slice_zero b off : slice b off 0 = [].
Proof. done. Qed.
Lemma slice_app b off n m :
  0 <= off -> 0 <= n -> 0 <= m ->
  slice b off (n + m) = slice b off n ++ slice b (off + n) m.
Proof.
  intros. unfold slice. rewrite !Z2Nat.inj_add by lia.
  rewrite <- drop_drop. rewrite take_take_drop. done.
Qed.
Lemma slice_slice b off n off' n' :
  0 <= off -> 0 <= off' -> 0 <= n' -> off' + n' <= n ->
  slice (slice b off n) off' n' = slice b (off + off') n'.
Proof.
  intros. apply list_eq. intros i. rewrite !lookup_slice by lia.
  case_decide; [|done]. rewrite decide_True by lia. f_equal. lia.
Qed.

Lemma blk_write_ok b off d :
  0 <= off -> off + blen d <= blen b ->
  blk_write b off d = Ok (splice b off d).
Proof.
  intros. unfold blk_write. repeat case_cmp; simpl; try done; try lia.
  assert (d = []) as ->. { destruct d; [done|]. unfold blen in *. simpl in *. lia. }
  unfold splice. rewrite blen_nil, Z.add_0_r. simpl. by rewrite take_drop.
Qed.

(** The written cells replace those of the range; the others are kept. *)
Lemma lookup_splice b off d (i : nat) :
  0 <= off -> off + blen d <= blen b ->
  splice b off d !! i =
    if decide (off <= Z.of_nat i < off + blen d)
    then d !! (i - Z.to_nat off)%nat else b !! i.
Proof.
  unfold splice, blen. intros H0 H1. destruct (decide (Z.of_nat i < off)).
  - rewrite lookup_app_l by (rewrite length_take; lia).
    rewrite lookup_take_lt by lia. by rewrite decide_False by lia.
  - rewrite lookup_app_r by (rewrite length_take; lia).
    rewrite length_take, Nat.min_l by lia. case_decide.
    + by rewrite lookup_app_l by lia.
    + rewrite lookup_app_r, lookup_drop by lia. f_equal. lia.
Qed.

Lemma lookup_splice_in b off d i :
  0 <= off -> off + blen d <= blen b -> off <= i < off + blen d ->
  splice b off d !! Z.to_nat i = d !! Z.to_nat (i - off).
Proof.
  intros. rewrite lookup_splice by lia. rewrite decide_True by lia. f_equal. lia.
Qed.
Lemma lookup_splice_out b off d i :
  0 <= off -> off + blen d <= blen b -> 0 <= i -> i < off \/ off + blen d <= i ->
  splice b off d !! Z.to_nat i = b !! Z.to_nat i.
Proof. intros. rewrite lookup_splice by lia. by rewrite decide_False by lia. Qed.
Lemma lookup_slice_in b off n i :
  0 <= off -> 0 <= i < n -> slice b off n !! Z.to_nat i = b !! Z.to_nat (off + i).
Proof. intros. rewrite lookup_slice by lia. rewrite decide_True by lia. f_equal. lia. Qed.

Lemma blen_splice b off d :
  0 <= off -> off + blen d <= blen b ->
  blen (splice b off d) = blen b.
Proof.
  unfold splice, blen. intros. rewrite !length_app, length_take, length_drop. lia.
Qed.

Lemma blk_copy_ok dst t src f n :
  0 <= t -> 0 <= f -> 0 <= n -> t + n <= blen dst -> f + n <= blen src ->
  blk_copy dst t src f n =
    Ok (splice dst t (slice src f n)).
Proof.
  intros. unfold blk_copy. rewrite blk_read_ok by lia. simpl.
  rewrite blk_write_ok; rewrite ?blen_slice by lia; done || lia.
Qed.
End blocks.
Arguments blen : simpl never.
