(* ===== verification/Effects.v ===== *)
(** Operations on an object behind a pointer: they read and update its state,
    may fail as [res] says, and perform effects outside the object (calls of
    the client's callbacks, mutex operations), which a trace records. *)
From S2P Require Import Prelude.

(** Client data is known to the library only by its address; 0 is NULL. *)
Notation ptr := Z (only parsing).
Definition NULL : ptr := 0.

Inductive event :=
| EvFree (p : ptr)        (* the client's free callback called on [p] *)
| EvLock | EvUnlock       (* pthread_mutex_lock / unlock *)
| EvMutexInit | EvMutexDestroy
| EvBroadcast            (* pthread_cond_broadcast *)
| EvCall (cb : ptr) (args : list Z).   (* a registered callback called *)

#[export] Instance event_eq_dec : EqDecision event.
Proof. solve_decision. Defined.

Definition M (S A : Type) : Type := S -> res (A * S * list event).

#[export] Instance M_ret {S} : MRet (M S) := fun _ a s => Ok (a, s, []).
#[export] Instance M_bind {S} : MBind (M S) := fun _ _ k m s =>
  '(a, s1, t1) ← m s; '(b, s2, t2) ← k a s1; Ok (b, s2, t1 ++ t2).

Section ops.
Context {S : Type}.
Definition gets {A} (f : S -> A) : M S A := fun s => Ok (f s, s, []).
Definition modify (f : S -> S) : M S unit := fun s => Ok (tt, f s, []).
Definition emit (e : event) : M S unit := fun s => Ok (tt, s, [e]).
Definition emits (t : list event) : M S unit := fun s => Ok (tt, s, t).
Definition lift {A} (m : res A) : M S A := fun s => a ← m; Ok (a, s, []).
Definition when (b : bool) (m : M S unit) : M S unit := if b then m else mret tt.
End ops.

(** A function whose first line is [if(!obj) return(dflt);]. *)
Definition on_obj {S A} (dflt : A) (m : M S A) : M (option S) A := fun o =>
  match o with
  | None => Ok (dflt, None, [])
  | Some s => '(a, s', t) ← m s; Ok (a, Some s', t)
  end.
(** A function that "assumes the object is not null". *)
Definition no_guard {S A} (m : M S A) : M (option S) A := fun o =>
  s ← deref o; '(a, s', t) ← m s; Ok (a, Some s', t).
(** A call on the object at hand. *)
Definition here {S A} (m : M (option S) A) : M S A := fun s =>
  '(a, o, t) ← m (Some s); s' ← deref o; Ok (a, s', t).

Lemma here_on_obj {S A} (d : A) (m : M S A) (s : S) : here (on_obj d m) s = m s.
Proof. unfold here, on_obj. destruct (m s) as [[[??]?]| |]; done. Qed.

Lemma here_Some {S A} (m : M (option S) A) s a s1 t :
  m (Some s) = Ok (a, Some s1, t) -> here m s = Ok (a, s1, t).
Proof. intros H. unfold here. by rewrite H. Qed.

Lemma bind_Ok {S A B} (m : M S A) (k : A -> M S B) s a s1 t1 :
  m s = Ok (a, s1, t1) ->
  mbind k m s = '(b, s2, t2) ← k a s1; Ok (b, s2, t1 ++ t2).
Proof. intros H. unfold mbind, M_bind. by rewrite H. Qed.

(** A step without effects outside the object. *)
Lemma bind_quiet {S A B} (m : M S A) (k : A -> M S B) s a s1 :
  m s = Ok (a, s1, []) -> mbind k m s = k a s1.
Proof.
  intros H. rewrite (bind_Ok _ _ _ _ _ _ H). by destruct (k a s1) as [[[??]?]| |].
Qed.
Lemma bind_gets {S A B} (f : S -> A) (k : A -> M S B) s : mbind k (gets f) s = k (f s) s.
Proof. by apply bind_quiet. Qed.
Lemma bind_modify {S B} (f : S -> S) (k : unit -> M S B) s :
  mbind k (modify f) s = k tt (f s).
Proof. by apply bind_quiet. Qed.

(** A step whose continuation has no effects outside the object. *)
Lemma bind_loud {S A B} (m : M S A) (k : A -> M S B) s a s1 t1 b s2 :
  m s = Ok (a, s1, t1) -> k a s1 = Ok (b, s2, []) -> mbind k m s = Ok (b, s2, t1).
Proof. intros Hm Hk. rewrite (bind_Ok _ _ _ _ _ _ Hm), Hk. cbn. by rewrite app_nil_r. Qed.
Lemma bind_bind {S A B C} (m : M S A) (k : A -> M S B) (h : B -> M S C) s :
  mbind h (mbind k m) s = mbind (fun a => mbind h (k a)) m s.
Proof.
  unfold mbind, M_bind. destruct (m s) as [[[a s1] t1]| |]; [|done..]. cbn [mbind res_bind].
  destruct (k a s1) as [[[b s2] t2]| |]; [|done..]. cbn [mbind res_bind].
  destruct (h b s2) as [[[c s3] t3]| |]; [|done..]. cbn [mbind res_bind]. by rewrite app_assoc.
Qed.
(** A fault ends the run. *)
Lemma bind_UB {S A B} (m : M S A) (k : A -> M S B) s f : m s = UB f -> mbind k m s = UB f.
Proof. intros H. unfold mbind, M_bind. by rewrite H. Qed.

Lemma on_obj_Ok {S A} (d : A) (m : M S A) s a s1 t1 :
  m s = Ok (a, s1, t1) -> on_obj d m (Some s) = Ok (a, Some s1, t1).
Proof. intros H. unfold on_obj. by rewrite H. Qed.

Lemma bind_Diverges {S A B} (m : M S A) (k : A -> M S B) s : m s = Diverges -> mbind k m s = Diverges.
Proof. intros H. unfold mbind, M_bind. by rewrite H. Qed.
Lemma on_obj_Diverges {S A} (d : A) (m : M S A) s : m s = Diverges -> on_obj d m (Some s) = Diverges.
Proof. intros H. unfold on_obj. by rewrite H. Qed.
Lemma on_obj_UB {S A} (d : A) (m : M S A) s f : m s = UB f -> on_obj d m (Some s) = UB f.
Proof. intros H. unfold on_obj. by rewrite H. Qed.

(** Unfolds the monad's operations. *)
Ltac mstep :=
  unfold mbind, M_bind, mret, M_ret, gets, modify, emit, emits, lift, when, on_obj, no_guard in *;
  cbn [mbind res_bind mret res_ret deref app fst snd].

(** * The mutex an object may carry

    [LockedObj] is what the thread-safe wrappers need of an object: whether it
    uses its mutex, and whether the mutex is held. *)
Class LockedObj (S : Type) := {
  uses_mutex : S -> bool;
  held : S -> bool;
  set_held : bool -> S -> S;
  held_set : forall b s, held (set_held b s) = b;
  uses_set : forall b s, uses_mutex (set_held b s) = uses_mutex s;
  set_set : forall b c s, set_held b (set_held c s) = set_held b s;
  set_held_id : forall s, set_held (held s) s = s
}.

Section mutex.
Context {S : Type} `{LockedObj S}.

(** The mutexes are not recursive: locking a held one never returns. *)
Definition mutex_lock : M S unit := fun s =>
  if held s then Diverges else Ok (tt, set_held true s, [EvLock]).
Definition mutex_unlock : M S unit := fun s => Ok (tt, set_held false s, [EvUnlock]).

(** [if(obj->use_mutex){ lock; r = f(obj); unlock; } else r = f(obj);] *)
Definition with_mutex {A} (m : M S A) : M S A :=
  b ← gets uses_mutex;
  if b : bool then mutex_lock;; a ← m; mutex_unlock;; mret a else m.

(** The operation does not look at the mutex. *)
Definition ignores_mutex {A} (m : M S A) : Prop :=
  forall s b a s' t, m s = Ok (a, s', t) ->
    held s' = held s /\ uses_mutex s' = uses_mutex s /\
    m (set_held b s) = Ok (a, set_held b s', t).

(** A bracketed operation has the effect of the operation, between one lock
    and one unlock, and leaves the mutex free. *)
Lemma with_mutex_ok {A} (m : M S A) s a s' t :
  ignores_mutex m -> held s = false -> m s = Ok (a, s', t) ->
  with_mutex m s =
    Ok (a, s', if uses_mutex s then EvLock :: t ++ [EvUnlock] else t).
Proof.
  intros Hi Hh Hm. unfold with_mutex. mstep. destruct (uses_mutex s); cycle 1.
  { rewrite Hm. done. }
  destruct (Hi s true a s' t Hm) as (Hh' & _ & Ht).
  unfold mutex_lock, mutex_unlock. rewrite Hh. cbn. rewrite Ht. cbn.
  rewrite set_set. rewrite Hh in Hh'. rewrite <- Hh', set_held_id. done.
Qed.

Lemma with_mutex_held {A} (m : M S A) s :
  held s = true -> uses_mutex s = true -> with_mutex m s = Diverges.
Proof.
  intros Hh Hu. unfold with_mutex, mutex_lock. mstep. rewrite Hu. mstep. by rewrite Hh.
Qed.
End mutex.

(** ** Operations that ignore the mutex: closure properties *)
Create HintDb mutex discriminated.
Section ignores.
Context {S : Type} `{LockedObj S}.

Lemma ignores_ret {A} (a : A) : ignores_mutex (mret a : M S A).
Proof. intros s b a' s' t. mstep. intros [= <- <- <-]. done. Qed.
Lemma ignores_bind {A B} (m : M S A) (k : A -> M S B) :
  ignores_mutex m -> (forall a, ignores_mutex (k a)) -> ignores_mutex (mbind k m).
Proof.
  intros Hm Hk s b a s' t. mstep.
  destruct (m s) as [[[a1 s1] t1]| |] eqn:E; [|done|done]. cbn.
  destruct (k a1 s1) as [[[a2 s2] t2]| |] eqn:E2; [|done|done]. cbn.
  intros [= <- <- <-].
  destruct (Hm s b a1 s1 t1 E) as (Hh1 & Hu1 & Hm').
  destruct (Hk a1 s1 b a2 s2 t2 E2) as (Hh2 & Hu2 & Hk').
  rewrite Hm'. cbn. rewrite Hk'. repeat split; congruence.
Qed.
Lemma ignores_gets {A} (f : S -> A) :
  (forall b s, f (set_held b s) = f s) -> ignores_mutex (gets f).
Proof. intros Hf s b a s' t. mstep. intros [= <- <- <-]. by rewrite Hf. Qed.
Lemma ignores_modify (f : S -> S) :
  (forall b s, f (set_held b s) = set_held b (f s)) ->
  (forall s, held (f s) = held s) -> (forall s, uses_mutex (f s) = uses_mutex s) ->
  ignores_mutex (modify f).
Proof. intros Hf Hh Hu s b a s' t. mstep. intros [= <- <- <-]. by rewrite Hf. Qed.
Lemma ignores_emit e : ignores_mutex (emit e : M S unit).
Proof. intros s b a s' t. mstep. intros [= <- <- <-]. done. Qed.
Lemma ignores_emits e : ignores_mutex (emits e : M S unit).
Proof. intros s b a s' t. mstep. intros [= <- <- <-]. done. Qed.
Lemma ignores_lift {A} (r : res A) : ignores_mutex (lift r : M S A).
Proof. intros s b a s' t. mstep. destruct r; cbn; [|done|done]. intros [= <- <- <-]. done. Qed.
Lemma ignores_when c (m : M S unit) : ignores_mutex m -> ignores_mutex (when c m).
Proof. intros Hm. destruct c; [done|apply ignores_ret]. Qed.
Lemma ignores_if {A} (c : bool) (m1 m2 : M S A) :
  ignores_mutex m1 -> ignores_mutex m2 -> ignores_mutex (if c then m1 else m2).
Proof. by destruct c. Qed.
Lemma ignores_here {A} (d : A) (m : M S A) :
  ignores_mutex m -> ignores_mutex (here (on_obj d m)).
Proof. intros Hm s b a s' t. rewrite !here_on_obj. apply Hm. Qed.
End ignores.
#[export] Hint Resolve ignores_ret ignores_bind ignores_gets ignores_modify ignores_emit
  ignores_emits ignores_lift ignores_when ignores_if ignores_here : mutex.
