(* ===== verification/AlibString.v ===== *)
(** The string and memory helpers ([source/alib_string.c]).

    A pointer into a block is an offset, [None] is NULL; the functions that
    copy inside one block get the block once, with two offsets.  A [char] is
    its signed value. *)
From S2P Require Import Prelude Memory.

(** * Copying memory *)
Section memory.
Context {A : Type}.

Fixpoint memcpy_back_loop (fuel : nat) (b : list A) (to from count : Z) : res (list A * Z) :=
  match fuel with
  | O => Diverges
  | S n =>
      if count >? 0
      then x ← blk_load b from; b ← blk_store b to x;
           memcpy_back_loop n b (to - 1) (from - 1) (count - 1)
      else Ok (b, to)
  end.
(** Every iteration reads another cell of the block: the fuel is enough. *)
Definition memcpy_back (b : list A) (t f : option Z) (count : Z) : res (list A * option Z) :=
  match t, f with
  | Some t, Some f =>
      '(b, to) ← memcpy_back_loop (S (S (length b))) b (t + (count - 1)) (f + (count - 1)) count;
      Ok (b, Some to)
  | _, _ => Ok (b, t)
  end.

Definition memcpy_safe (b : list A) (t f : option Z) (count : Z) : res (list A * option Z) :=
  match t, f with
  | Some to, Some from =>
      if to >? from
      then '(b, _) ← memcpy_back b t f count; Ok (b, t)
      else b ← blk_memcpy b to from count; Ok (b, t)
  | _, _ => Ok (b, t)
  end.
End memory.

(** * Copying strings *)

(** The length of the string at [off]: the offset of the first NUL. *)
Fixpoint strlen_from (fuel : nat) (b : list Z) (off n : Z) : res Z :=
  match fuel with
  | O => Diverges
  | S k => c ← blk_load b off; if c =? 0 then Ok n else strlen_from k b (off + 1) (n + 1)
  end.
Definition strlen (b : list Z) (off : Z) : res Z := strlen_from (S (length b)) b off 0.

(** The loops that find the end of the source; [hit]: a NUL was seen in the
    target. *)
Fixpoint find_end (fuel : nat) (b : list Z) (to from : Z) (hit : bool) : res (Z * Z * bool) :=
  match fuel with
  | O => Diverges
  | S n =>
      c ← blk_load b from;
      if negb (c =? 0)
      then d ← blk_load b to; find_end n b (to + 1) (from + 1) (hit || (d =? 0))
      else Ok (to, from, hit)
  end.
Fixpoint find_end_count (fuel : nat) (b : list Z) (to from count : Z) (hit : bool)
    : res (Z * Z * bool) :=
  match fuel with
  | O => Diverges
  | S n =>
      if count >? 0
      then d ← blk_load b to;
           let hit := hit || (d =? 0) in
           c ← blk_load b from;
           if c =? 0 then Ok (to, from, hit)
           else find_end_count n b (to + 1) (from + 1) (count - 1) hit
      else Ok (to, from, hit)
  end.

(** [for(; from != start_ptr; --from, --to) *to = *from;] *)
Fixpoint copy_down (fuel : nat) (b : list Z) (to from start : Z) : res (list Z * Z) :=
  match fuel with
  | O => Diverges
  | S n =>
      if negb (from =? start)
      then x ← blk_load b from; b ← blk_store b to x; copy_down n b (to - 1) (from - 1) start
      else Ok (b, to)
  end.

(** "Ensure 'to' is null terminated." *)
Definition terminate (b : list Z) (to : Z) (hit : bool) : res (list Z) :=
  d ← blk_load b to;
  if (d =? 0) || hit then blk_store b (to + 1) 0 else Ok b.

Definition strcpy_back (b : list Z) (to from : Z) : res (list Z * Z) :=
  let start_ptr := from - 1 in
  '(to, from, hit) ← find_end (S (length b)) b to from false;
  b ← terminate b to hit;
  copy_down (S (S (length b))) b to from start_ptr.

Definition strncpy_back (b : list Z) (to from count : Z) : res (list Z * Z) :=
  let start_ptr := from - 1 in
  '(to, from, hit) ← find_end_count (S (length b)) b to from count false;
  b ← terminate b to hit;
  copy_down (S (S (length b))) b to from start_ptr.

(** [strncpy] of the C library inside one block: [count] cells are written,
    the source's characters up to its NUL and zeros behind; overlapping
    regions are undefined. *)
Fixpoint until_nul (s : list Z) : list Z :=
  match s with [] => [] | c :: s => if c =? 0 then [] else c :: until_nul s end.
Definition strncpy (b : list Z) (to from count : Z) : res (list Z) :=
  let chars := until_nul (slice b from count) in
  let read := Z.min count (blen chars + 1) in
  if (to <? from + read) && (from <? to + count) then UB Overlap
  else src ← blk_read b from read;
       blk_write b to (until_nul src ++ replicate (Z.to_nat (count - blen (until_nul src))) 0).
Definition strcpy (b : list Z) (to from : Z) : res (list Z) :=
  n ← strlen b from; blk_memcpy b to from (n + 1).

Definition strncpy_safe (b : list Z) (to from : option Z) (count : Z) : res (list Z * option Z) :=
  match to, from with
  | Some t, Some f =>
      if t =? f then Ok (b, to)
      else if (t >? f) && (t <? f + count)
      then '(b, r) ← strncpy_back b t f (s32 count); Ok (b, Some r)
      else b ← strncpy b t f count; Ok (b, to)
  | _, _ => Ok (b, to)
  end.

Definition strcpy_safe (b : list Z) (to from : option Z) : res (list Z * option Z) :=
  match to, from with
  | Some t, Some f =>
      if t >? f
      then '(b, r) ← strcpy_back b t f; Ok (b, Some r)
      else b ← strcpy b t f; Ok (b, to)
  | _, _ => Ok (b, to)
  end.

(** [ok]: the allocation succeeds (its result is not checked); the result is
    the new block. [to] is the caller's pointer variable: [None] for NULL. *)
Definition strncpy_alloc (ok : bool) (to : option (option (list Z))) (from : option (list Z))
    (count : Z) : res (option (list Z)) :=
  match from with
  | None => deref to
  | Some src =>
      if negb ok then UB NullDeref
      else let chars := until_nul (slice src 0 count) in
           s ← blk_read src 0 (Z.min count (blen chars + 1));
           Ok (Some (until_nul s ++ replicate (Z.to_nat (count - blen (until_nul s))) 0 ++ [0]))
  end.
Definition strcpy_alloc (ok : bool) (to : option (option (list Z))) (from : list Z)
    : res (option (list Z)) :=
  n ← strlen from 0; strncpy_alloc ok to (Some from) n.

(** Between two blocks; the pointer [coppied_count] is decremented, not the
    count behind it. *)
Fixpoint fast_loop (fuel : nat) (dst src : list Z) (to from count : Z) : res (list Z * Z * Z * Z) :=
  match fuel with
  | O => Diverges
  | S n =>
      c ← blk_load src from;
      if negb (c =? 0) && negb (count =? 0)
      then dst ← blk_store dst to c; fast_loop n dst src (to + 1) (from + 1) (count - 1)
      else Ok (dst, to, from, count)
  end.
Definition strncpy_fast (dst src : list Z) (count : Z) (coppied_count : bool)
    : res (list Z * option Z) :=
  let coppied := if coppied_count then Some count else None in
  '(dst, to, from, count) ← fast_loop (S (length src)) dst src 0 0 count;
  dst ← (if negb (count =? 0) then c ← blk_load src from; blk_store dst to c else Ok dst);
  Ok (dst, coppied).

Definition make_substr (ok : bool) (b : list Z) (begin_ptr end_ptr : Z) : res (option (list Z)) :=
  if end_ptr <? begin_ptr then Ok None
  else strncpy_alloc ok None (Some (drop (Z.to_nat begin_ptr) b)) (end_ptr - begin_ptr).

(** * Searching *)
Definition is_white (c : Z) : bool := (c =? 32) || (c =? 9) || (c =? 10) || (c =? 13).

Fixpoint skip_while (fuel : nat) (p : Z -> bool) (b : list Z) (off : Z) : res Z :=
  match fuel with
  | O => Diverges
  | S n => c ← blk_load b off; if p c then skip_while n p b (off + 1) else Ok off
  end.
Definition find_next_whitespace (b : list Z) (str : option Z) : res (option Z) :=
  match str with
  | None => Ok None
  | Some s =>
      p ← skip_while (S (S (length b))) (fun c => negb (is_white c) && negb (c =? 0)) b s;
      c ← blk_load b p; Ok (if c =? 0 then None else Some p)
  end.
(** The loop skips the NUL too. *)
Definition find_next_non_whitespace (b : list Z) (str : option Z) : res (option Z) :=
  match str with
  | None => Ok None
  | Some s =>
      p ← skip_while (S (S (length b))) (fun c => is_white c || (c =? 0)) b s;
      c ← blk_load b p; Ok (if c =? 0 then None else Some p)
  end.

(** [for(; *r_ptr != c && r_ptr != str - 1; --r_ptr);] *)
Fixpoint last_char_loop (fuel : nat) (b : list Z) (str c r : Z) : res Z :=
  match fuel with
  | O => Diverges
  | S n => x ← blk_load b r;
           if negb (x =? c) && negb (r =? str - 1) then last_char_loop n b str c (r - 1) else Ok r
  end.
Definition find_last_char_count (b : list Z) (str : option Z) (c count : Z) : res (option Z) :=
  match str with
  | None => Ok None
  | Some s =>
      r ← last_char_loop (S (S (length b))) b s c (s + count);
      x ← blk_load b r; Ok (if x =? c then Some r else None)
  end.
Definition find_last_char (b : list Z) (str : Z) (c : Z) : res (option Z) :=
  n ← strlen b str; find_last_char_count b (Some str) c n.

(** * Comparing *)

(** A [size_t] read from eight bytes, little-endian. *)
Definition load_word (b : list Z) (off : Z) : res Z :=
  cs ← blk_read b off 8; Ok (foldr (fun c acc => u8 c + 256 * acc) 0 cs).

Fixpoint match_words (fuel : nat) (b1 b2 : list Z) (it1 it2 len : Z) : res (Z * Z * Z) :=
  match fuel with
  | O => Diverges
  | S n =>
      w1 ← load_word b1 it1; w2 ← load_word b2 it2;
      if (w1 =? w2) && (len >? 8) then match_words n b1 b2 (it1 + 8) (it2 + 8) (len - 8)
      else Ok (it1, it2, len)
  end.
Fixpoint match_chars (fuel : nat) (b1 b2 : list Z) (it1 it2 len : Z) : res (Z * Z * Z) :=
  match fuel with
  | O => Diverges
  | S n =>
      c1 ← blk_load b1 it1; c2 ← blk_load b2 it2;
      if (c1 =? c2) && negb (len =? 0) then match_chars n b1 b2 (it1 + 1) (it2 + 1) (len - 1)
      else Ok (it1, it2, len)
  end.

(** The two strings start at offset 0 of their blocks. *)
Definition str_match (str1 : option (list Z)) (str1_len : Z) (str2 : option (list Z))
    (str2_len : Z) : res Z :=
  match str1, str2 with
  | Some b1, Some b2 =>
      len1 ← (if str1_len =? 0 then strlen b1 0 else Ok str1_len);
      len2 ← (if str2_len =? 0 then strlen b2 0 else Ok str2_len);
      if len1 <? len2 then Ok (-1)
      else if len1 >? len2 then Ok 1
      else
        '(it1, it2, len) ← match_words (S (length b1)) b1 b2 0 0 len1;
        if len >? 8
        then w1 ← load_word b1 it1; w2 ← load_word b2 it2; Ok (if w1 <? w2 then -1 else 1)
        else '(it1, it2, len) ← match_chars (S (length b1)) b1 b2 it1 it2 len;
             if len =? 0 then Ok 0
             else c1 ← blk_load b1 it1; c2 ← blk_load b2 it2; Ok (if c1 <? c2 then -1 else 1)
  | None, None => Ok 0
  | Some _, None => Ok 1
  | None, Some _ => Ok (-1)
  end.

(** [tolower] and [toupper] in the C locale. *)
Definition tolower (c : Z) : Z := if (65 <=? c) && (c <=? 90) then c + 32 else c.
Definition toupper (c : Z) : Z := if (97 <=? c) && (c <=? 122) then c - 32 else c.

(** [strncasecmp] of the C library: the difference of the first lower-cased
    bytes that differ, stopping at a NUL. *)
Fixpoint strncasecmp (fuel : nat) (b1 b2 : list Z) (it n : Z) : res Z :=
  match fuel with
  | O => Diverges
  | S k =>
      if n =? 0 then Ok 0 else
      c1 ← blk_load b1 it; c2 ← blk_load b2 it;
      let d := tolower (u8 c1) - tolower (u8 c2) in
      if negb (d =? 0) || (c1 =? 0) then Ok d else strncasecmp k b1 b2 (it + 1) (n - 1)
  end.
(** The result is returned as a [char]. *)
Definition to_char (z : Z) : Z := let m := z mod 256 in if m <? 128 then m else m - 256.
Definition str_match_no_case (str1 : option (list Z)) (str1_len : Z) (str2 : option (list Z))
    (str2_len : Z) : res Z :=
  match str1, str2 with
  | Some b1, Some b2 =>
      len1 ← (if str1_len =? 0 then strlen b1 0 else Ok str1_len);
      len2 ← (if str2_len =? 0 then strlen b2 0 else Ok str2_len);
      if len1 <? len2 then Ok (-1)
      else if len1 >? len2 then Ok 1
      else d ← strncasecmp (S (S (length b1))) b1 b2 0 len1; Ok (to_char d)
  | None, None => Ok 0
  | Some _, None => Ok 1
  | None, Some _ => Ok (-1)
  end.

(** * Letter case *)
Fixpoint convert_loop (fuel : nat) (f : Z -> Z) (b : list Z) (it : Z) : res (list Z) :=
  match fuel with
  | O => Diverges
  | S n =>
      c ← blk_load b it;
      if negb (c =? 0) then b ← blk_store b it (f c); convert_loop n f b (it + 1) else Ok b
  end.
Fixpoint convert_count_loop (fuel : nat) (f : Z -> Z) (b : list Z) (it count : Z) : res (list Z) :=
  match fuel with
  | O => Diverges
  | S n =>
      c ← blk_load b it;
      if negb (c =? 0) && negb (count =? 0)
      then b ← blk_store b it (f c); convert_count_loop n f b (it + 1) (count - 1) else Ok b
  end.
(** Changes the string in place, from offset 0 of its block; NULL is kept. *)
Definition convert (f : Z -> Z) (str : option (list Z)) : res (option (list Z)) :=
  match str with
  | None => Ok None
  | Some b => b ← convert_loop (S (S (length b))) f b 0; Ok (Some b)
  end.
Definition convert_count (f : Z -> Z) (str : option (list Z)) (count : Z) : res (option (list Z)) :=
  match str with
  | None => Ok None
  | Some b => b ← convert_count_loop (S (S (length b))) f b 0 count; Ok (Some b)
  end.
Definition str_to_lower := convert tolower.
Definition strn_to_lower := convert_count tolower.
Definition str_to_upper := convert toupper.
Definition strn_to_upper := convert_count toupper.

(** * Copying backwards is [memmove] *)
Section memory_lemmas.
Context {A : Type}.
Implicit Types b : list A.

Lemma splice_nil b t : 0 <= t -> splice b t [] = b.
Proof. intros. unfold splice. change (blen []) with 0. rewrite Z.add_0_r. apply take_drop. Qed.

(** The highest cell first. *)
Lemma splice_slice_last b t f n x :
  0 <= f <= t -> 0 <= n -> t + (n + 1) <= blen b -> b !! Z.to_nat (f + n) = Some x ->
  splice (<[Z.to_nat (t + n) := x]> b) t (slice (<[Z.to_nat (t + n) := x]> b) f n)
  = splice b t (slice b f (n + 1)).
Proof.
  intros Hf Hn Hb Hx. set (b' := <[_ := x]> b).
  assert (Hl : blen b' = blen b) by (unfold blen, b'; by rewrite length_insert).
  pose proof (blen_slice b' f n ltac:(lia) ltac:(lia) ltac:(lia)) as L1.
  pose proof (blen_slice b f (n + 1) ltac:(lia) ltac:(lia) ltac:(lia)) as L2.
  apply list_eq. intros i. rewrite !lookup_splice by lia. rewrite L1, L2.
  unfold blen in Hl, Hb.
  destruct (decide (Z.of_nat i = t + n)) as [Hi|Hi].
  - rewrite decide_False, decide_True by lia. unfold b'.
    replace (Z.to_nat (t + n)) with i by lia. rewrite list_lookup_insert_eq by lia.
    replace (i - Z.to_nat t)%nat with (Z.to_nat n) by lia.
    rewrite lookup_slice_in by lia. done.
  - repeat case_decide; try lia.
    + replace (i - Z.to_nat t)%nat with (Z.to_nat (Z.of_nat i - t)) by lia.
      rewrite !lookup_slice_in by lia. unfold b'. rewrite list_lookup_insert_ne by lia. done.
    + unfold b'. by rewrite list_lookup_insert_ne by lia.
Qed.

Lemma memcpy_back_loop_ok fuel b t f n :
  0 <= f <= t -> 0 <= n < Z.of_nat fuel -> t + n <= blen b ->
  memcpy_back_loop fuel b (t + (n - 1)) (f + (n - 1)) n
  = Ok (splice b t (slice b f n), t - 1).
Proof.
  revert b n. induction fuel as [|fuel IH]; intros b n Hf Hn Hb; [lia|].
  cbn [memcpy_back_loop]. rewrite Z.gtb_ltb. case_cmp.
  - destruct (lookup_Z_is_Some b (f + (n - 1))) as [x Hx]; [unfold blen in *; lia|].
    rewrite (blk_load_ok _ _ x) by (done || lia). rstep.
    rewrite blk_store_ok by lia. rstep.
    replace (t + (n - 1) - 1) with (t + (n - 1 - 1)) by lia.
    replace (f + (n - 1) - 1) with (f + (n - 1 - 1)) by lia.
    rewrite IH; [|done|lia|unfold blen in *; rewrite length_insert; lia].
    rewrite splice_slice_last by (done || lia).
    by replace (n - 1 + 1) with n by lia.
  - replace n with 0 by lia. rewrite slice_zero, splice_nil by lia. done.
Qed.

Lemma memcpy_back_ok b t f n :
  0 <= f <= t -> 0 <= n -> t + n <= blen b ->
  memcpy_back b (Some t) (Some f) n = Ok (splice b t (slice b f n), Some (t - 1)).
Proof.
  intros. unfold memcpy_back. unfold blen in *.
  rewrite memcpy_back_loop_ok by (unfold blen; lia). done.
Qed.

(** A copy that reads outside of the block faults. *)
Lemma memcpy_back_oob b t f n :
  0 < n -> blen b < f + n -> memcpy_back b (Some t) (Some f) n = UB OutOfBounds.
Proof.
  intros. unfold memcpy_back. cbn [memcpy_back_loop].
  rewrite Z.gtb_ltb, (proj2 (Z.ltb_lt _ _)) by lia.
  by rewrite blk_load_oob by lia.
Qed.

Lemma memcpy_safe_up b t f n :
  0 <= f < t -> 0 <= n -> t + n <= blen b ->
  memcpy_safe b (Some t) (Some f) n = Ok (splice b t (slice b f n), Some t).
Proof.
  intros. unfold memcpy_safe. rewrite Z.gtb_ltb, (proj2 (Z.ltb_lt _ _)) by lia.
  by rewrite memcpy_back_ok by lia.
Qed.

Lemma blk_memcpy_ok b t f n :
  0 <= t -> 0 <= f -> 0 <= n -> t + n <= blen b -> f + n <= blen b ->
  t + n <= f \/ f + n <= t \/ n = 0 ->
  blk_memcpy b t f n = Ok (splice b t (slice b f n)).
Proof.
  intros. unfold blk_memcpy. destruct (Z.eqb_spec n 0) as [->|].
  - by rewrite slice_zero, splice_nil by lia.
  - destruct ((t <? f + n) && (f <? t + n)) eqn:E.
    + apply andb_true_iff in E as [?%Z.ltb_lt ?%Z.ltb_lt]. lia.
    + by rewrite blk_copy_ok by lia.
Qed.
Lemma blk_memcpy_overlap b t f n :
  0 < n -> t < f + n -> f < t + n -> blk_memcpy b t f n = UB Overlap.
Proof.
  intros. unfold blk_memcpy. rewrite (proj2 (Z.eqb_neq n 0)) by lia.
  by rewrite !(proj2 (Z.ltb_lt _ _)) by lia.
Qed.
Lemma memcpy_safe_down b t f n :
  0 <= t -> t + n <= f -> 0 <= n -> f + n <= blen b ->
  memcpy_safe b (Some t) (Some f) n = Ok (splice b t (slice b f n), Some t).
Proof.
  intros. unfold memcpy_safe. rewrite Z.gtb_ltb, (proj2 (Z.ltb_ge _ _)) by lia.
  by rewrite blk_memcpy_ok by lia.
Qed.
Lemma memcpy_safe_overlap b t f n :
  t <= f -> f < t + n -> memcpy_safe b (Some t) (Some f) n = UB Overlap.
Proof.
  intros. unfold memcpy_safe. rewrite Z.gtb_ltb, (proj2 (Z.ltb_ge _ _)) by lia.
  by rewrite blk_memcpy_overlap by lia.
Qed.
End memory_lemmas.

(** Inside one block, [memcpy_safe] moves the [n] cells at [f] to [t]
    (other cells kept) when it copies upwards, however the regions overlap, and
    when the regions are disjoint; copying downwards between overlapping
    regions it calls [memcpy] on them, which is undefined. *)
Theorem memcpy_safe_spec {A} (b : list A) (t f n : Z) :
  0 <= t -> 0 <= f -> 0 <= n -> t + n <= blen b -> f + n <= blen b ->
  memcpy_safe b (Some t) (Some f) n =
    if (t <=? f) && (f <? t + n) then UB Overlap
    else Ok (splice b t (slice b f n), Some t).
Proof.
  intros. destruct (Z.leb_spec t f); cbn [andb].
  - case_cmp; [by apply memcpy_safe_overlap|by apply memcpy_safe_down].
  - apply memcpy_safe_up; lia.
Qed.

Lemma memcpy_safe_spec_witness :
  memcpy_safe [1; 2; 3; 4; 5] (Some 2) (Some 1) 3 = Ok ([1; 2; 2; 3; 4], Some 2).
Proof. by apply (memcpy_safe_spec [1; 2; 3; 4; 5] 2 1 3). Defined.

(** * [str_match] *)
Definition is_char (c : Z) : Prop := -128 <= c < 128.

Lemma u8_char_inj c d : is_char c -> is_char d -> u8 c = u8 d -> c = d.
Proof.
  unfold is_char, u8. intros Hc Hd.
  pose proof (Z.div_mod c (2 ^ 8) ltac:(lia)). pose proof (Z.div_mod d (2 ^ 8) ltac:(lia)).
  pose proof (Z.mod_pos_bound c (2 ^ 8) ltac:(lia)). pose proof (Z.mod_pos_bound d (2 ^ 8) ltac:(lia)).
  lia.
Qed.

Definition word (cs : list Z) : Z := foldr (fun c acc => u8 c + 256 * acc) 0 cs.
Lemma word_inj l1 : forall l2,
  Forall is_char l1 -> Forall is_char l2 -> length l1 = length l2 -> word l1 = word l2 -> l1 = l2.
Proof.
  induction l1 as [|c l1 IH]; intros [|d l2] H1 H2 Hl Hw; try done.
  inversion_clear H1 as [|? ? Hc H1']. inversion_clear H2 as [|? ? Hd H2']. simpl in *.
  unfold word in *. simpl in Hw.
  assert (Hr : forall z, 0 <= u8 z < 256) by (intros; unfold u8; apply Z.mod_pos_bound; lia).
  pose proof (Hr c). pose proof (Hr d).
  f_equal; [apply u8_char_inj; [done..|lia]|]. apply IH; [done..|lia|lia].
Qed.

Section str_match.
Context (b1 b2 : list Z) (Hc1 : Forall is_char b1) (Hc2 : Forall is_char b2).

Lemma slice_chars b off n : Forall is_char b -> Forall is_char (slice b off n).
Proof. intros. unfold slice. by apply Forall_take, Forall_drop. Qed.

Lemma load_word_ok b off :
  0 <= off -> off + 8 <= blen b -> load_word b off = Ok (word (slice b off 8)).
Proof. intros. unfold load_word. by rewrite blk_read_ok by lia. Qed.

(** The first [n] cells of the two blocks are the same. *)
Definition agree (n : Z) : Prop := slice b1 0 n = slice b2 0 n.

Lemma agree_app n m :
  0 <= n -> 0 <= m -> n + m <= blen b1 -> n + m <= blen b2 ->
  agree (n + m) <-> agree n /\ slice b1 n m = slice b2 n m.
Proof.
  intros. unfold agree. rewrite !slice_app, Z.add_0_l by lia. split; [|by intros [-> ->]].
  intros E. apply app_inj_1 in E; [done|].
  pose proof (blen_slice b1 0 n). pose proof (blen_slice b2 0 n). unfold blen in *. lia.
Qed.

Lemma match_words_ok fuel it n :
  0 <= it -> 0 <= n -> it + n + 8 <= blen b1 -> it + n + 8 <= blen b2 ->
  n < 8 * Z.of_nat fuel -> agree it ->
  exists it' n', match_words fuel b1 b2 it it n = Ok (it', it', n') /\ it <= it' /\ 0 <= n'
    /\ it' + n' = it + n /\ agree it'
    /\ (8 < n' -> word (slice b1 it' 8) <> word (slice b2 it' 8)).
Proof.
  revert it n. induction fuel as [|fuel IH]; intros it n Hit Hn H1 H2 Hf Ha; [lia|].
  cbn [match_words]. rewrite !load_word_ok by lia. rstep.
  destruct (Z.eqb_spec (word (slice b1 it 8)) (word (slice b2 it 8))) as [E|E]; cbn [andb].
  - rewrite Z.gtb_ltb. case_cmp.
    + destruct (IH (it + 8) (n - 8)) as (it' & n' & Hrun & ? & ? & ? & ? & ?); try lia.
      { apply agree_app; try lia. split; [done|]. apply word_inj; [by apply slice_chars..| |done].
        pose proof (blen_slice b1 it 8). pose proof (blen_slice b2 it 8). unfold blen in *. lia. }
      exists it', n'. split; [done|]. split; [lia|]. split; [done|]. split; [lia|done].
    + exists it, n. split; [done|]. do 3 (split; [lia|]). split; [done|]. lia.
  - exists it, n. split; [done|]. do 3 (split; [lia|]). done.
Qed.

Lemma slice_one (b : list Z) off x : 0 <= off -> b !! Z.to_nat off = Some x -> slice b off 1 = [x].
Proof. intros. unfold slice. change (Z.to_nat 1) with 1%nat. by erewrite drop_S by done. Qed.

Lemma match_chars_ok fuel it n :
  0 <= it -> 0 <= n -> it + n + 1 <= blen b1 -> it + n + 1 <= blen b2 ->
  n < Z.of_nat fuel -> agree it ->
  exists it' n', match_chars fuel b1 b2 it it n = Ok (it', it', n') /\ it <= it' /\ 0 <= n'
    /\ it' + n' = it + n /\ agree it'
    /\ (0 < n' -> slice b1 it' 1 <> slice b2 it' 1).
Proof.
  revert it n. induction fuel as [|fuel IH]; intros it n Hit Hn H1 H2 Hf Ha; [lia|].
  cbn [match_chars].
  destruct (lookup_Z_is_Some b1 it) as [x Hx]; [unfold blen in *; lia|].
  destruct (lookup_Z_is_Some b2 it) as [y Hy]; [unfold blen in *; lia|].
  rewrite (blk_load_ok b1 it x), (blk_load_ok b2 it y) by done. rstep.
  destruct (Z.eqb_spec x y) as [->|E]; cbn [andb].
  - destruct (Z.eqb_spec n 0) as [->|Hn0]; cbn [negb].
    + exists it, 0. split; [done|]. do 3 (split; [lia|]). split; [done|]. lia.
    + destruct (IH (it + 1) (n - 1)) as (it' & n' & Hrun & ? & ? & ? & ? & ?); try lia.
      { apply agree_app; try lia. split; [done|]. by rewrite (slice_one b1 it y), (slice_one b2 it y). }
      exists it', n'. split; [done|]. split; [lia|]. split; [done|]. split; [lia|done].
  - exists it, n. split; [done|]. do 3 (split; [lia|]). split; [done|]. intros _.
    rewrite (slice_one b1 it x), (slice_one b2 it y) by done. congruence.
Qed.
End str_match.

(** On two strings of the same length, with eight readable bytes behind
    them, [str_match] reads nothing out of bounds, returns 0 when their bytes
    are equal and -1 or 1 when they differ. *)
Theorem str_match_spec (b1 b2 : list Z) (len : Z) :
  Forall is_char b1 -> Forall is_char b2 -> 0 < len ->
  len + 8 <= blen b1 -> len + 8 <= blen b2 ->
  exists r, str_match (Some b1) len (Some b2) len = Ok r
    /\ (slice b1 0 len = slice b2 0 len -> r = 0)
    /\ (slice b1 0 len <> slice b2 0 len -> r = -1 \/ r = 1).
Proof.
  intros Hc1 Hc2 Hlen H1 H2. unfold str_match. rewrite (proj2 (Z.eqb_neq len 0)) by lia. rstep.
  rewrite Z.gtb_ltb, Z.ltb_irrefl.
  destruct (match_words_ok b1 b2 Hc1 Hc2 (S (length b1)) 0 len)
    as (it & n & -> & ? & ? & Hit & Ha & Hw); [unfold blen in *; try lia..|done|]. rstep.
  rewrite Z.gtb_ltb. destruct (Z.ltb_spec 8 n).
  - rewrite !load_word_ok by lia. rstep. eexists. split; [done|]. split; [|intros _; case_cmp; auto].
    intros E. exfalso. apply Hw; [done|]. f_equal.
    assert (Hag : agree b1 b2 (it + n)) by (unfold agree; rewrite Hit; exact E).
    replace (it + n) with ((it + 8) + (n - 8)) in Hag by lia.
    apply agree_app in Hag as [Hag _]; try lia. apply agree_app in Hag as [_ Hag]; try lia. done.
  - destruct (match_chars_ok b1 b2 (S (length b1)) it n)
      as (it' & n' & -> & ? & ? & Hit' & Ha' & Hd); [unfold blen in *; try lia..|done|]. rstep.
    destruct (Z.eqb_spec n' 0) as [->|Hn'].
    + exists 0. split; [done|]. split; [done|]. intros E. destruct E.
      replace len with it' by lia. done.
    + destruct (lookup_Z_is_Some b1 it') as [x Hx]; [unfold blen in *; lia|].
      destruct (lookup_Z_is_Some b2 it') as [y Hy]; [unfold blen in *; lia|].
      rewrite (blk_load_ok b1 it' x), (blk_load_ok b2 it' y) by (done || lia). rstep.
      eexists. split; [done|]. split; [|intros _; case_cmp; auto].
      intros E. exfalso. apply Hd; [lia|].
      assert (Hag : agree b1 b2 (it' + n')) by (unfold agree; replace (it' + n') with len by lia; exact E).
      replace (it' + n') with ((it' + 1) + (n' - 1)) in Hag by lia.
      apply agree_app in Hag as [Hag _]; try lia. apply agree_app in Hag as [_ Hag]; try lia. done.
Qed.

Lemma str_match_spec_witness :
  let b := [104; 105; -61; 0; 0; 0; 0; 0; 0; 0; 0; 0] in
  exists r, str_match (Some b) 3 (Some b) 3 = Ok r
    /\ (slice b 0 3 = slice b 0 3 -> r = 0) /\ (slice b 0 3 <> slice b 0 3 -> r = -1 \/ r = 1).
Proof.
  apply str_match_spec; try done; repeat constructor; unfold is_char; lia.
Defined.

(** * Searching and letter case on NUL-terminated strings *)
Definition no_nul (s : list Z) : Prop := Forall (.≠ 0) s.

Lemma strlen_from_ok fuel pre s rest n :
  no_nul s -> (length s < fuel)%nat ->
  strlen_from fuel (pre ++ s ++ 0 :: rest) (blen pre) n = Ok (n + blen s).
Proof.
  intros Hs. revert fuel pre n. induction Hs as [|c s Hc _ IH]; intros fuel pre n Hf;
    (destruct fuel as [|fuel]; [simpl in Hf; lia|]); cbn [strlen_from app].
  - rewrite blk_load_middle. rstep. rewrite Z.eqb_refl. f_equal. change (blen []) with 0. lia.
  - rewrite blk_load_middle. rstep. rewrite (proj2 (Z.eqb_neq c 0)) by done.
    rewrite <- (blen_snoc pre c). replace (pre ++ c :: s ++ 0 :: rest)
      with ((pre ++ [c]) ++ s ++ 0 :: rest) by by rewrite <- app_assoc.
    rewrite IH by (simpl in Hf; lia). rewrite blen_cons. f_equal. lia.
Qed.
Lemma strlen_ok pre s rest :
  no_nul s -> strlen (pre ++ s ++ 0 :: rest) (blen pre) = Ok (blen s).
Proof.
  intros Hs. unfold strlen. rewrite strlen_from_ok; [done|done|].
  rewrite !length_app. simpl. lia.
Qed.

(** Going back over cells that do not hold [c]. *)
Lemma last_char_loop_skip fuel c s : forall pre t str,
  Forall (.≠ c) s -> str <= blen pre -> (length s <= fuel)%nat ->
  last_char_loop fuel (pre ++ s ++ t) str c (blen pre + blen s - 1)
  = last_char_loop (fuel - length s) (pre ++ s ++ t) str c (blen pre - 1).
Proof.
  revert fuel. induction s as [|x s IH] using rev_ind; intros fuel pre t str Hs Hstr Hf.
  { change (blen []) with 0. rewrite Z.add_0_r. simpl. by rewrite Nat.sub_0_r. }
  rewrite length_app in *. simpl in Hf. destruct fuel as [|fuel]; [lia|]. cbn [last_char_loop].
  apply Forall_app in Hs as [Hs Hx]. inversion_clear Hx as [|? ? Hx' _].
  rewrite blen_snoc, <- (app_assoc s). simpl ([x] ++ t).
  replace (blen pre + (blen s + 1) - 1) with (blen (pre ++ s)) by (rewrite blen_app; lia).
  rewrite (app_assoc pre), blk_load_middle, <- app_assoc. rstep.
  pose proof (blen_nonneg s).
  rewrite (proj2 (Z.eqb_neq x c)), (proj2 (Z.eqb_neq _ (str - 1))) by (rewrite ?blen_app; done || lia).
  cbn [negb andb]. rewrite blen_app, IH by (done || lia).
  by replace (S fuel - (length s + length [x]))%nat with (fuel - length s)%nat by (simpl; lia).
Qed.

(** on a NUL-terminated string [find_last_char] returns the last
    occurrence of the character; when the character does not occur it reads
    the byte before the string, which at the start of a block is outside of
    the block. *)
Theorem find_last_char_spec (s rest : list Z) (c : Z) :
  no_nul s -> c <> 0 ->
  (c ∉ s -> find_last_char (s ++ 0 :: rest) 0 c = UB OutOfBounds)
  /\ (forall s1 s2, s = s1 ++ c :: s2 -> c ∉ s2 ->
      find_last_char (s ++ 0 :: rest) 0 c = Ok (Some (blen s1))).
Proof.
  intros Hs Hc. pose proof (strlen_ok [] s rest Hs) as Hl. change (blen []) with 0 in Hl.
  simpl in Hl. unfold find_last_char, find_last_char_count. rewrite Hl. rstep.
  assert (Hne : forall u, c ∉ u -> Forall (.≠ c) (u ++ [0])).
  { intros u Hu. apply Forall_app. split; [|by constructor].
    apply List.Forall_forall. intros y Hy ->. by apply Hu, list_elem_of_In. }
  split.
  - intros Hni. pose proof (last_char_loop_skip (S (S (length (s ++ 0 :: rest)))) c (s ++ [0]) [] rest 0
      (Hne s Hni)) as E. simpl app in E. rewrite <- app_assoc in E. simpl app in E.
    change (blen []) with 0 in E. rewrite blen_snoc in E.
    replace (0 + (blen s + 1) - 1) with (0 + blen s) in E by lia.
    rewrite E by (try done; rewrite !length_app; simpl; lia). clear E.
    replace (S (S (length (s ++ 0%Z :: rest))) - length (s ++ [0%Z]))%nat
      with (S (S (length rest))) by (rewrite !length_app; simpl; lia).
    cbn [last_char_loop]. by rewrite blk_load_oob by (left; lia).
  - intros s1 s2 -> Hni.
    set (b := (s1 ++ c :: s2) ++ 0 :: rest).
    assert (Hb : b = (s1 ++ [c]) ++ (s2 ++ [0]) ++ rest) by (unfold b; by rewrite <- !app_assoc).
    pose proof (blen_nonneg s1).
    pose proof (last_char_loop_skip (S (S (length b))) c (s2 ++ [0]) (s1 ++ [c]) rest 0 (Hne s2 Hni)) as E.
    rewrite <- Hb in E. rewrite !blen_snoc in E.
    replace (blen s1 + 1 + (blen s2 + 1) - 1) with (0 + blen (s1 ++ c :: s2)) in E
      by (rewrite blen_app, blen_cons; lia).
    replace (blen s1 + 1 - 1) with (blen s1) in E by lia.
    rewrite E; [|lia|rewrite Hb, !length_app; simpl; lia]. clear E.
    assert (Hld : blk_load b (blen s1) = Ok c).
    { unfold b. rewrite <- app_assoc. apply blk_load_middle. }
    destruct (S (S (length b)) - length (s2 ++ [0%Z]))%nat eqn:Ef.
    { rewrite Hb, !length_app in Ef. simpl in Ef. lia. }
    cbn [last_char_loop]. rewrite Hld. rstep. rewrite Z.eqb_refl. cbn [negb andb].
    rstep. rewrite Hld. rstep. by rewrite Z.eqb_refl.
Qed.

Lemma find_last_char_spec_witness :
  find_last_char [47; 97; 47; 98; 0] 0 47 = Ok (Some 2)
  /\ find_last_char [47; 97; 47; 98; 0] 0 46 = UB OutOfBounds.
Proof.
  split.
  - apply (find_last_char_spec [47; 97; 47; 98] [] 47) with (s1 := [47; 97]) (s2 := [98]);
      [by repeat constructor|done|done|set_solver].
  - apply (find_last_char_spec [47; 97; 47; 98] [] 46); [by repeat constructor|done|set_solver].
Defined.

Lemma skip_while_inv fuel p b off r :
  skip_while fuel p b off = Ok r -> exists c, blk_load b r = Ok c /\ p c = false.
Proof.
  revert off. induction fuel as [|fuel IH]; intros off; [done|]. cbn [skip_while].
  destruct (blk_load b off) as [c| |] eqn:E; [|done..]. rstep.
  destruct (p c) eqn:Hp; [apply IH|]. intros [= <-]. by exists c.
Qed.
Lemma skip_while_oob fuel p b : forall pre,
  Forall (fun c => p c = true) b -> (length b < fuel)%nat ->
  skip_while fuel p (pre ++ b) (blen pre) = UB OutOfBounds.
Proof.
  revert fuel. induction b as [|c b IH]; intros fuel pre Hb Hf;
    (destruct fuel as [|fuel]; [lia|]); cbn [skip_while].
  - rewrite app_nil_r, blk_load_oob by lia. done.
  - inversion_clear Hb as [|? ? Hc Hb']. rewrite blk_load_middle. rstep. rewrite Hc.
    rewrite <- (blen_snoc pre c). replace (pre ++ c :: b) with ((pre ++ [c]) ++ b)
      by by rewrite <- app_assoc. apply IH; [done|simpl in Hf; lia].
Qed.

(** [find_next_non_whitespace] skips the NUL as well: it never returns
    NULL, and on a string of white space at the end of its block it reads
    past the block. *)
Theorem find_next_non_whitespace_runs_past (b : list Z) (off : Z) :
  find_next_non_whitespace b (Some off) <> Ok None
  /\ (forall pre ws, b = pre ++ ws ++ [0] -> off = blen pre ->
      forallb is_white ws = true -> find_next_non_whitespace b (Some off) = UB OutOfBounds).
Proof.
  unfold find_next_non_whitespace. split.
  - destruct (skip_while _ _ b off) as [r| |] eqn:E; [|done..]. rstep.
    apply skip_while_inv in E as (c & -> & Hc). rstep.
    apply orb_false_iff in Hc as [_ Hc]. by rewrite Hc.
  - intros pre ws -> -> Hws. rewrite skip_while_oob; [done| |rewrite !length_app; simpl; lia].
    apply Forall_app. split; [|by constructor].
    apply List.Forall_forall. intros c Hc. rewrite forallb_forall in Hws.
    by rewrite (Hws c Hc).
Qed.

Lemma find_next_non_whitespace_runs_past_witness :
  find_next_non_whitespace [97; 32; 9; 0] (Some 1) = UB OutOfBounds.
Proof.
  by apply (proj2 (find_next_non_whitespace_runs_past [97; 32; 9; 0] 1) [97] [32; 9]).
Defined.

(** Converting a string changes the characters up to its NUL. *)
Lemma convert_loop_ok fuel f s : forall pre rest,
  no_nul s -> (length s < fuel)%nat ->
  convert_loop fuel f (pre ++ s ++ 0 :: rest) (blen pre) = Ok (pre ++ map f s ++ 0 :: rest).
Proof.
  revert fuel. induction s as [|c s IH]; intros fuel pre rest Hs Hf;
    (destruct fuel as [|fuel]; [simpl in Hf; lia|]); cbn [convert_loop app map].
  - rewrite blk_load_middle. done.
  - inversion_clear Hs as [|? ? Hc Hs']. rewrite blk_load_middle. rstep.
    rewrite (proj2 (Z.eqb_neq c 0)) by done. cbn [negb]. rewrite blk_store_middle. rstep.
    rewrite <- (blen_snoc pre (f c)).
    replace (pre ++ f c :: s ++ 0 :: rest) with ((pre ++ [f c]) ++ s ++ 0 :: rest)
      by by rewrite <- app_assoc.
    rewrite IH by (done || (simpl in Hf; lia)). by rewrite <- app_assoc.
Qed.
Lemma convert_ok f s rest :
  no_nul s -> convert f (Some (s ++ 0 :: rest)) = Ok (Some (map f s ++ 0 :: rest)).
Proof.
  intros Hs. unfold convert.
  pose proof (convert_loop_ok (S (S (length (s ++ 0 :: rest)))) f s [] rest Hs) as E.
  simpl app in E. change (blen []) with 0 in E. rewrite E; [done|]. rewrite length_app. lia.
Qed.
