(* ===== verification/StrParser.v ===== *)
(** Views of strings, [source/StrRef.c], and the parser over one,
    [source/StrParser.c].  A pointer into the string is an offset into its
    block, [None] is NULL, which compares below every offset; the array of the
    characters to trim is a block of its own. *)
From S2P Require Import Prelude Memory AlibString.
Open Scope Z_scope.

(** * [StrRef.c] *)
Record StrRef := mkStrRef { begin_ : option Z; end_ : option Z }.

Definition StrRef_get_begin (ref : option StrRef) : option Z := r ← ref; begin_ r.
Definition StrRef_get_end (ref : option StrRef) : option Z := r ← ref; end_ r.
Definition StrRef_len (ref : option StrRef) : res Z :=
  match ref with
  | None => Ok 0
  | Some r => e ← deref (end_ r); b ← deref (begin_ r); Ok (u64 (e - b))
  end.
(** [if(!begin || !end || begin > end)] *)
Definition bad_range (b e : option Z) : bool :=
  match b, e with Some b, Some e => b >? e | _, _ => true end.
(** The second result is the referenced object's new value. *)
Definition StrRef_init (ref : option StrRef) (b e : option Z) : Z * option StrRef :=
  match ref with
  | None => (ALIB_BAD_ARG, None)
  | Some r => if bad_range b e then (ALIB_BAD_ARG, Some r) else (ALIB_OK, Some (mkStrRef b e))
  end.
Definition freeStrRef (ref : option StrRef) : option StrRef := None.
Definition delStrRef (ref : option (option StrRef)) : option (option StrRef) :=
  match ref with None => None | Some r => Some (freeStrRef r) end.
(** [ok]: the allocation succeeds; [o]: the contents of the new memory. *)
Definition newStrRef (ok : bool) (o : StrRef) (b e : option Z) : option StrRef :=
  if bad_range b e then None else
  if negb ok then None else
  let '(err, ref) := StrRef_init (Some o) b e in
  if negb (err =? 0) then default None (delStrRef (Some ref)) else ref.
(** [o]: the contents of the local variable. *)
Definition StrRef_from_string (o : StrRef) (b e : option Z) : StrRef :=
  default o (StrRef_init (Some o) b e).2.

(** * [StrParser.c] *)
Record StrParser := mkStrParser { str : StrRef; it : StrRef }.
Definition set_str (r : StrRef) (p : StrParser) : StrParser := mkStrParser r (it p).
Definition set_it (r : StrRef) (p : StrParser) : StrParser := mkStrParser (str p) r.

(** [p < q] *)
Definition ptr_lt (p q : option Z) : bool :=
  match p, q with
  | _, None => false
  | None, Some _ => true
  | Some p, Some q => p <? q
  end.

Definition StrParser_reset (parser : option StrParser) : Z * option StrParser :=
  match parser with
  | None => (ALIB_BAD_ARG, None)
  | Some p => (ALIB_OK, Some (set_it (mkStrRef None (begin_ (str p))) p))
  end.
Definition StrParser_init (parser : option StrParser) (s strEnd : option Z) : Z * option StrParser :=
  match parser with
  | None => (ALIB_BAD_ARG, None)
  | Some p =>
      if bad_range s strEnd then (ALIB_BAD_ARG, Some p)
      else StrParser_reset (Some (set_str (mkStrRef s strEnd) p))
  end.
(** [str + strLen], also for a NULL [str], where the sum has no meaning. *)
Definition StrParser_init_w_size (parser : option StrParser) (s : option Z) (strLen : Z)
    : Z * option StrParser :=
  StrParser_init parser s ((fun b => b + strLen) <$> s).

(** [for(cit = chars; *cit != *strIt && cit != citEnd; ++cit);] *)
Fixpoint find_char (fuel : nat) (chars b : list Z) (cit strIt citEnd : Z) : res Z :=
  match fuel with
  | O => Diverges
  | S k =>
      x ← blk_load chars cit; c ← blk_load b strIt;
      if negb (x =? c) && negb (cit =? citEnd) then find_char k chars b (cit + 1) strIt citEnd
      else Ok cit
  end.
(** [for(strIt = parser->str.begin; strIt < parser->str.end; ++strIt)] *)
Fixpoint trim_begin (fuel : nat) (chars b : list Z) (citEnd strIt strEnd : Z) : res Z :=
  match fuel with
  | O => Diverges
  | S k =>
      if strIt <? strEnd then
        cit ← find_char (S (length chars)) chars b 0 strIt citEnd;
        if cit >=? citEnd then Ok strIt else trim_begin k chars b citEnd (strIt + 1) strEnd
      else Ok strIt
  end.
(** [for(strIt = parser->str.end - 1; strIt > parser->str.begin; --strIt)] *)
Fixpoint trim_end (fuel : nat) (chars b : list Z) (citEnd strIt strBegin : Z) : res Z :=
  match fuel with
  | O => Diverges
  | S k =>
      if strIt >? strBegin then
        cit ← find_char (S (length chars)) chars b 0 strIt citEnd;
        if cit >=? citEnd then Ok strIt else trim_end k chars b citEnd (strIt - 1) strBegin
      else Ok strIt
  end.
(** [b]: the block of the string; [chars]: the array. *)
Definition StrParser_trim (b chars : list Z) (count : Z) (parser : option StrParser)
    : res (Z * option StrParser) :=
  match parser with
  | None => Ok (ALIB_BAD_ARG, None)
  | Some p =>
      citEnd ← (if count =? 0 then strlen chars 0 else Ok count);
      s ← deref (begin_ (str p)); e ← deref (end_ (str p));
      s ← trim_begin (S (length b)) chars b citEnd s e;
      last ← trim_end (S (length b)) chars b citEnd (e - 1) s;
      let p := set_str (mkStrRef (Some s) (Some (last + 1))) p in
      let p := if ptr_lt (begin_ (it p)) (begin_ (str p))
               then default p (StrParser_reset (Some p)).2 else p in
      let p := if ptr_lt (end_ (str p)) (end_ (it p))
               then set_it (mkStrRef (begin_ (it p)) (end_ (str p))) p else p in
      Ok (ALIB_OK, Some p)
  end.
Definition whitespaces : list Z := [32; 9; 13; 10].
Definition StrParser_trim_whitespaces (b : list Z) (parser : option StrParser)
    : res (Z * option StrParser) :=
  match parser with
  | None => Ok (ALIB_BAD_ARG, None)
  | Some _ => StrParser_trim b whitespaces (blen whitespaces) parser
  end.
Definition StrParser_get_str_len (parser : option StrParser) : res Z :=
  match parser with None => Ok 0 | Some p => StrRef_len (Some (str p)) end.
Definition StrParser_get_it_len (parser : option StrParser) : res Z :=
  match parser with
  | None => Ok 0
  | Some p => match begin_ (it p) with None => Ok 0 | Some _ => StrRef_len (Some (it p)) end
  end.

(** * Trimming *)
#[local] Arguments ptr_lt : simpl never.
Implicit Types (cs s pre post : list Z).

(** [s] without the characters of [cs] at its ends. *)
Fixpoint drop_while (f : Z -> bool) s : list Z :=
  match s with [] => [] | c :: s => if f c then drop_while f s else c :: s end.
Definition strip (f : Z -> bool) s : list Z := reverse (drop_while f (reverse (drop_while f s))).
Definition among cs (c : Z) : bool := bool_decide (c ∈ cs).

(** The search in the array [cs ++ rest] ends before [cs] does exactly on a character of [cs]. *)
Lemma find_char_ok cs rest b strIt c fuel : rest <> [] ->
  blk_load b strIt = Ok c -> forall pre post, cs = pre ++ post -> c ∉ pre -> (length post < fuel)%nat ->
  exists cit, find_char fuel (cs ++ rest) b (blen pre) strIt (blen cs) = Ok cit /\
    (cit >=? blen cs) = negb (among cs c).
Proof.
  intros Hr Hc. induction fuel as [|fuel IH]; intros pre post Hcs Hpre Hf; [lia|]. cbn [find_char].
  rewrite Hc. destruct post as [|x post].
  - rewrite app_nil_r in Hcs. subst pre. destruct rest as [|r rest]; [done|].
    rewrite blk_load_middle. rstep. rewrite Z.eqb_refl, andb_false_r. exists (blen cs). split; [done|].
    rewrite Z.geb_leb, Z.leb_refl. unfold among. by rewrite bool_decide_eq_false_2.
  - subst cs. rewrite <- app_assoc. cbn [app]. rewrite blk_load_middle. rstep.
    pose proof (blen_cons x post). pose proof (blen_nonneg post).
    assert (blen (pre ++ x :: post) = blen pre + 1 + blen post) as Hl by (rewrite blen_app; lia).
    rewrite (proj2 (Z.eqb_neq (blen pre) _)) by lia. rewrite andb_true_r.
    destruct (Z.eqb_spec x c) as [->|Hx]; cbn [negb].
    + exists (blen pre). split; [done|]. rewrite Z.geb_leb, (proj2 (Z.leb_gt _ _)) by lia.
      unfold among. rewrite bool_decide_eq_true_2 by set_solver. done.
    + destruct (IH (pre ++ [x]) post) as (cit & E & Hcit); [by rewrite <- app_assoc|set_solver|cbn in Hf; lia|].
      exists cit. rewrite blen_snoc, <- !app_assoc in E. cbn [app] in E. done.
Qed.
(** Nothing follows [cs] in the array: a character that is not in it is compared with what is
    behind the array. *)
Lemma find_char_past cs b strIt c fuel : blk_load b strIt = Ok c ->
  forall pre post, cs = pre ++ post -> c ∉ cs -> (length post < fuel)%nat ->
  find_char fuel cs b (blen pre) strIt (blen cs) = UB OutOfBounds.
Proof.
  intros Hc. induction fuel as [|fuel IH]; intros pre post -> Hn Hf; [lia|]. cbn [find_char].
  destruct post as [|x post].
  - rewrite app_nil_r, (blk_load_oob pre) by lia. done.
  - rewrite blk_load_middle, Hc. rstep. pose proof (blen_cons x post). pose proof (blen_nonneg post).
    assert (blen (pre ++ x :: post) = blen pre + 1 + blen post) as Hl by (rewrite blen_app; lia).
    rewrite (proj2 (Z.eqb_neq (blen pre) _)), (proj2 (Z.eqb_neq x c)) by (set_solver || lia). cbn [negb andb].
    rewrite <- (blen_snoc pre x). rewrite <- (IH (pre ++ [x]) post); [|by rewrite <- app_assoc|done|cbn in Hf; lia].
    done.
Qed.

Lemma drop_while_split f s : exists u, s = u ++ drop_while f s /\ Forall f u.
Proof.
  induction s as [|c s (u & Hs & Hu)]; [by exists []|]. cbn [drop_while]. destruct (f c) eqn:Ef.
  - exists (c :: u). split; [by rewrite Hs at 1|]. constructor; [by rewrite Ef|done].
  - by exists [].
Qed.
Lemma drop_while_head f s c t : drop_while f s = c :: t -> f c = false.
Proof.
  induction s as [|d s IH]; [done|]. cbn [drop_while]. destruct (f d) eqn:Ed; [done|]. by intros [= -> ->].
Qed.
(** The loop from the end, on a string that does not begin with a character to trim. *)
Definition drop_end (f : Z -> bool) s : list Z := reverse (drop_while f (reverse s)).
Lemma drop_end_snoc f s c : drop_end f (s ++ [c]) = if f c then drop_end f s else s ++ [c].
Proof.
  unfold drop_end. rewrite reverse_snoc. cbn [drop_while]. destruct (f c); [done|].
  by rewrite reverse_cons, reverse_involutive.
Qed.
Lemma drop_end_split f s : exists v, s = drop_end f s ++ v /\ Forall f v.
Proof.
  unfold drop_end. destruct (drop_while_split f (reverse s)) as (u & Hs & Hu). exists (reverse u).
  split; [|by apply Forall_reverse]. rewrite <- reverse_app, <- Hs. by rewrite reverse_involutive.
Qed.
Lemma strip_ends f s : strip f s = drop_end f (drop_while f s).
Proof. done. Qed.

Section trim.
Context (cs rest pre post : list Z) (Hrest : rest <> []).
Notation chars := (cs ++ rest).
Notation stop := (blen cs).

Lemma search_at b strIt c : blk_load b strIt = Ok c ->
  exists cit, find_char (S (length chars)) chars b 0 strIt stop = Ok cit /\
    (cit >=? stop) = negb (among cs c).
Proof.
  intros Hc. apply (find_char_ok cs rest b strIt c _ Hrest Hc [] cs); [done|set_solver|].
  rewrite length_app. lia.
Qed.
Lemma trim_begin_ok fuel : forall pre s, (length s < fuel)%nat ->
  trim_begin fuel chars (pre ++ s ++ post) stop (blen pre) (blen pre + blen s)
    = Ok (blen pre + blen s - blen (drop_while (among cs) s)).
Proof.
  clear pre. induction fuel as [|fuel IH]; intros pre s Hf; [lia|]. cbn [trim_begin].
  destruct s as [|c s].
  - cbn [drop_while]. rewrite !blen_nil, (proj2 (Z.ltb_ge _ _)) by lia. f_equal. lia.
  - pose proof (blen_cons c s). pose proof (blen_nonneg s). rewrite (proj2 (Z.ltb_lt _ _)) by lia.
    destruct (search_at (pre ++ c :: s ++ post) (blen pre) c) as (cit & E & Hcit); [by rewrite blk_load_middle|].
    cbn [app]. rewrite E. rstep. rewrite Hcit. cbn [drop_while].
    destruct (among cs c); cbn [negb]; [|f_equal; lia].
    rewrite <- (blen_snoc pre c). replace (pre ++ c :: s ++ post) with ((pre ++ [c]) ++ s ++ post) by (by rewrite <- app_assoc).
    replace (blen pre + blen (c :: s)) with (blen (pre ++ [c]) + blen s) by (rewrite blen_snoc; lia).
    rewrite IH by (cbn in Hf; lia). done.
Qed.
Lemma trim_end_ok fuel : forall s post, (length s < fuel)%nat ->
  (forall c t, s = c :: t -> among cs c = false) ->
  trim_end fuel chars (pre ++ s ++ post) stop (blen pre + blen s - 1) (blen pre)
    = Ok (blen pre + blen (drop_end (among cs) s) - 1).
Proof.
  clear post. induction fuel as [|fuel IH]; intros s post Hf Hh; [lia|]. cbn [trim_end].
  destruct s as [|c s _] using rev_ind.
  - rewrite blen_nil, Z.gtb_ltb, (proj2 (Z.ltb_ge _ _)) by lia. done.
  - rewrite blen_snoc, drop_end_snoc, <- app_assoc. cbn [app].
    replace (blen pre + (blen s + 1) - 1) with (blen pre + blen s) by lia. rewrite Z.gtb_ltb.
    destruct s as [|d s].
    + rewrite (Hh c []) by done. cbn [app]. change (blen [c]) with 1. rewrite blen_nil, Z.add_0_r, Z.ltb_irrefl. f_equal. lia.
    + pose proof (blen_cons d s). pose proof (blen_nonneg s). rewrite (proj2 (Z.ltb_lt _ _)) by lia.
      destruct (search_at (pre ++ (d :: s) ++ c :: post) (blen pre + blen (d :: s)) c) as (cit & E & Hcit).
      { rewrite app_assoc, <- blen_app. by rewrite blk_load_middle. }
      rewrite E. rstep. rewrite Hcit. destruct (among cs c); cbn [negb]; [|rewrite blen_snoc; f_equal; lia].
      rewrite IH; [done| |].
      * rewrite length_app in Hf. cbn [length] in *. lia.
      * intros e t [= <- <-]. by apply (Hh d (s ++ [c])).
Qed.
End trim.

(** The count the caller may give: the number of characters before [rest], or 0 when a NUL ends them. *)
Definition count_of cs rest (count : Z) : Prop :=
  (count = blen cs /\ cs <> []) \/ (count = 0 /\ Forall (fun c => c <> 0) cs /\ exists r, rest = 0 :: r).
Lemma cit_end_ok cs rest count : count_of cs rest count ->
  (if count =? 0 then strlen (cs ++ rest) 0 else Ok count) = Ok (blen cs).
Proof.
  intros [[-> Hne]|(-> & Hnz & r & ->)].
  - rewrite (proj2 (Z.eqb_neq _ _)); [done|]. destruct cs; [done|]. rewrite blen_cons.
    pose proof (blen_nonneg cs). lia.
  - exact (strlen_ok [] cs r Hnz).
Qed.

(** [StrParser_trim] returns for every string and every set of characters that something
    follows in memory: the parser then covers the string without the characters of the set at its
    ends (and nothing else is cut off), and its iterator lies in the part that is left, reset when it
    began before it. *)
Theorem trim_strips cs rest pre s post p count : rest <> [] -> count_of cs rest count ->
  str p = mkStrRef (Some (blen pre)) (Some (blen pre + blen s)) ->
  exists u v p', s = u ++ strip (among cs) s ++ v /\ Forall (among cs) u /\ Forall (among cs) v /\
    StrParser_trim (pre ++ s ++ post) (cs ++ rest) count (Some p) = Ok (ALIB_OK, Some p') /\
    str p' = mkStrRef (Some (blen (pre ++ u))) (Some (blen (pre ++ u ++ strip (among cs) s))) /\
    ptr_lt (end_ (str p')) (end_ (it p')) = false /\
    (it p' = mkStrRef None (Some (blen (pre ++ u))) \/
      begin_ (it p') = begin_ (it p) /\ ptr_lt (begin_ (it p)) (Some (blen (pre ++ u))) = false).
Proof.
  intros Hr Hc Hp. set (f := among cs).
  destruct (drop_while_split f s) as (u & Hs & Hu). set (t := drop_while f s) in *.
  destruct (drop_end_split f t) as (v & Ht & Hv). change (drop_end f t) with (strip f s) in *.
  assert (s = u ++ strip f s ++ v) as Hs' by (by rewrite <- Ht).
  assert (trim_begin (S (length (pre ++ s ++ post))) (cs ++ rest) (pre ++ s ++ post) (blen cs) (blen pre)
            (blen pre + blen s) = Ok (blen (pre ++ u))) as Eb.
  { rewrite trim_begin_ok by (done || rewrite !length_app; lia). fold f t. rewrite Hs at 1. f_equal.
    rewrite !blen_app. lia. }
  assert (trim_end (S (length (pre ++ s ++ post))) (cs ++ rest) (pre ++ s ++ post) (blen cs)
            (blen pre + blen s - 1) (blen (pre ++ u))
    = Ok (blen (pre ++ u ++ strip f s) - 1)) as Ee.
  { assert (pre ++ s ++ post = (pre ++ u) ++ t ++ post) as -> by (rewrite Hs at 1; by rewrite <- !app_assoc).
    replace (blen pre + blen s - 1) with (blen (pre ++ u) + blen t - 1) by (rewrite Hs at 1; rewrite !blen_app; lia).
    rewrite (trim_end_ok cs rest (pre ++ u) Hr); [|rewrite !length_app; lia|by apply drop_while_head].
    fold f. change (drop_end f t) with (strip f s). f_equal. rewrite !blen_app. lia. }
  unfold StrParser_trim. rewrite (cit_end_ok cs rest count Hc), Hp. cbn [begin_ end_ deref]. rstep.
  rewrite Eb. rstep. rewrite Ee. rstep. rewrite Z.sub_add.
  assert (blen (pre ++ u) <= blen (pre ++ u ++ strip f s)) as Hle.
  { rewrite !blen_app. pose proof (blen_nonneg (strip f s)). lia. }
  exists u, v. eexists. split; [done|]. split; [done|]. split; [done|]. split; [reflexivity|].
  cbn [it str set_str begin_ end_]. destruct (ptr_lt (begin_ (it p)) (Some (blen (pre ++ u)))) eqn:El; cbn.
  - assert (ptr_lt (Some (blen (pre ++ u ++ strip f s))) (Some (blen (pre ++ u))) = false) as -> by by apply Z.ltb_ge.
    split; [done|]. split; [by apply Z.ltb_ge|by left].
  - destruct (ptr_lt (Some (blen (pre ++ u ++ strip f s))) (end_ (it p))) eqn:Ei; cbn.
    + split; [done|]. split; [apply Z.ltb_irrefl|]. by right.
    + split; [done|]. split; [done|]. by right.
Qed.
(** ["  a b \n"] in a larger block, the iterator on its third character. *)
Lemma trim_strips_witness : exists u v p',
  [32; 32; 97; 32; 98; 32; 10] = u ++ strip (among [32; 10]) [32; 32; 97; 32; 98; 32; 10] ++ v /\
  Forall (among [32; 10]) u /\ Forall (among [32; 10]) v /\
  StrParser_trim ([7] ++ [32; 32; 97; 32; 98; 32; 10] ++ [0]) ([32; 10] ++ [0]) 0
    (Some (mkStrParser (mkStrRef (Some 1) (Some 8)) (mkStrRef (Some 3) (Some 8)))) = Ok (ALIB_OK, Some p') /\
  str p' = mkStrRef (Some (blen ([7] ++ u)))
    (Some (blen ([7] ++ u ++ strip (among [32; 10]) [32; 32; 97; 32; 98; 32; 10]))) /\
  ptr_lt (end_ (str p')) (end_ (it p')) = false /\
  (it p' = mkStrRef None (Some (blen ([7] ++ u))) \/
    begin_ (it p') = Some 3 /\ ptr_lt (Some 3) (Some (blen ([7] ++ u))) = false).
Proof.
  apply (trim_strips [32; 10] [0] [7] [32; 32; 97; 32; 98; 32; 10] [0]
    (mkStrParser (mkStrRef (Some 1) (Some 8)) (mkStrRef (Some 3) (Some 8))) 0); [done| |done].
  right. split; [done|]. split; [by repeat constructor|by exists []].
Defined.

(** [StrParser_trim_whitespaces] reads behind its four-character array as soon as the string has
    a character that is not whitespace; only a blank string is trimmed. *)
Theorem trim_whitespaces_overreads pre s post p :
  str p = mkStrRef (Some (blen pre)) (Some (blen pre + blen s)) ->
  StrParser_trim_whitespaces (pre ++ s ++ post) (Some p) = UB OutOfBounds <-> ~ Forall (among whitespaces) s.
Proof.
  intros Hp. unfold StrParser_trim_whitespaces, StrParser_trim. rewrite Hp. cbn [begin_ end_ deref Z.eqb blen].
  change (blen whitespaces =? 0) with false. cbn iota. rstep.
  remember (S (length (pre ++ s ++ post))) as fuel eqn:Hf.
  assert (length s < fuel)%nat as Hlt by (rewrite Hf, !length_app; lia).
  enough (trim_begin fuel whitespaces (pre ++ s ++ post) (blen whitespaces) (blen pre) (blen pre + blen s)
    = if decide (Forall (among whitespaces) s) then Ok (blen pre + blen s) else UB OutOfBounds) as ->.
  { case_decide as Hd; rstep; [|done]. split; [|done]. destruct fuel as [|fuel]; [lia|]. cbn [trim_end].
    rewrite Z.gtb_ltb, (proj2 (Z.ltb_ge _ _)) by lia. by rstep. }
  clear Hf Hp. revert pre s Hlt. induction fuel as [|fuel IH]; intros pre s Hlt; [lia|]. cbn [trim_begin].
  destruct s as [|c s].
  - rewrite decide_True by constructor. by rewrite blen_nil, Z.add_0_r, Z.ltb_irrefl.
  - pose proof (blen_cons c s). pose proof (blen_nonneg s). rewrite (proj2 (Z.ltb_lt _ _)) by lia.
    assert (blk_load (pre ++ (c :: s) ++ post) (blen pre) = Ok c) as Hc by apply blk_load_middle.
    destruct (among whitespaces c) eqn:Ec.
    + assert (exists cit, find_char 5 whitespaces (pre ++ (c :: s) ++ post) 0 (blen pre) 4 = Ok cit /\
                (cit >=? 4) = false) as (cit & E & Hcit).
      { unfold among in Ec. apply bool_decide_eq_true in Ec. unfold whitespaces in *. cbn [find_char].
        rewrite Hc. repeat (apply elem_of_cons in Ec as [->|Ec]; [by eexists|]). by apply elem_of_nil in Ec. }
      change (S (length whitespaces)) with 5%nat. change (blen whitespaces) with 4 in *. rewrite E. rstep.
      rewrite Hcit, <- (blen_snoc pre c).
      replace (pre ++ (c :: s) ++ post) with ((pre ++ [c]) ++ s ++ post) by (by rewrite <- app_assoc).
      replace (blen pre + blen (c :: s)) with (blen (pre ++ [c]) + blen s) by (rewrite blen_snoc; lia).
      rewrite IH by (cbn in Hlt; lia). apply decide_ext.
      split; [|by inversion 1]. constructor; [by rewrite Ec|done].
    + rewrite decide_False by (inversion 1 as [|? ? Hx]; by rewrite Ec in Hx).
      assert (c ∉ whitespaces) as Hn by (unfold among in Ec; by apply bool_decide_eq_false in Ec).
      pose proof (find_char_past whitespaces _ _ c 5 Hc [] whitespaces eq_refl Hn ltac:(cbn; lia)) as E.
      change (blen []) with 0 in E. change (S (length whitespaces)) with 5%nat. by rewrite E.
Qed.
Lemma trim_whitespaces_overreads_witness :
  StrParser_trim_whitespaces ([] ++ [32; 97] ++ [0])
    (Some (mkStrParser (mkStrRef (Some 0) (Some 2)) (mkStrRef None (Some 0)))) = UB OutOfBounds
  <-> ~ Forall (among whitespaces) [32; 97].
Proof. by apply (trim_whitespaces_overreads [] [32; 97] [0]). Defined.
