(* ===== verification/BinaryBuffer.v ===== *)
(** The growing byte buffer ([source/BinaryBuffer.c]).

    The internal block is [None] when the pointer is NULL; otherwise it has an
    identity, which changes when [realloc] moves it, and its cells, [None] for
    a byte never written.  [content] is the byte string the buffer holds. *)
From S2P Require Import Prelude Memory Effects AlibString.

Notation cell := (option Z) (only parsing).

Record BinaryBuffer := mkBinaryBuffer {
  buff : option (Z * list cell);
  capacity : Z;
  len : Z;
  min_cap : Z;
  max_expand : Z
}.

Definition set_buff v (b : BinaryBuffer) :=
  mkBinaryBuffer v (capacity b) (len b) (min_cap b) (max_expand b).
Definition set_capacity v (b : BinaryBuffer) :=
  mkBinaryBuffer (buff b) v (len b) (min_cap b) (max_expand b).
Definition set_len v (b : BinaryBuffer) :=
  mkBinaryBuffer (buff b) (capacity b) v (min_cap b) (max_expand b).
Definition set_min_cap v (b : BinaryBuffer) :=
  mkBinaryBuffer (buff b) (capacity b) (len b) v (max_expand b).
Definition set_max_expand v (b : BinaryBuffer) :=
  mkBinaryBuffer (buff b) (capacity b) (len b) (min_cap b) v.

Definition BINARY_BUFFER_DEFAULT_MIN_CAP : Z := 64.
Definition BINARY_BUFFER_DEFUALT_MAX_EXPAND : Z := 1024 * 1024.

(** * Access to the internal block *)

(** [memcpy(buff->buff + off, data, n)] with [data] in another block. *)
Definition write_at (off : Z) (data : list cell) (n : Z) : M BinaryBuffer unit :=
  b ← gets buff;
  if n =? 0 then mret tt
  else '(id, cells) ← lift (deref b);
       cells ← lift (blk_copy cells off data 0 n);
       modify (set_buff (Some (id, cells))).
(** [memcpy(to, buff->buff + off, n)]: the new contents of [to]. *)
Definition read_at (to : list cell) (off n : Z) : M BinaryBuffer (list cell) :=
  b ← gets buff;
  if n =? 0 then mret to
  else '(_, cells) ← lift (deref b); lift (blk_copy to 0 cells off n).
(** A pointer into the block: NULL or the block's identity with an offset.
    Adding to NULL gives no pointer to an object. *)
Definition pointer (off : Z) : M BinaryBuffer (option Z * Z) :=
  b ← gets buff; mret (fst <$> b, off).
(** An operation of [AlibString] on the block, through a pointer computed when
    the block had the identity [id]. *)
Definition on_block (id : option Z) (f : list cell -> res (list cell)) : M BinaryBuffer unit :=
  b ← gets buff;
  '(id', cells) ← lift (deref b);
  i ← lift (deref id);
  if i =? id' then cells ← lift (f cells); modify (set_buff (Some (id', cells)))
  else lift (UB Dangling).

(** * Growth *)

(** [size] is read through a pointer: [None] when it was never initialised. *)
Definition calculate_expansion (b : BinaryBuffer) (size : option Z) : res Z :=
  match size with
  | None => UB Indeterminate
  | Some size =>
      Ok (if size =? 0 then 1
          else let new_size := if size >? max_expand b then u64 (size + max_expand b)
                               else u64 (Z.shiftl size 1) in
               if new_size <? size then ULONG_MAX else new_size)
  end.

(** [alloc]: the identity of the block [realloc] returns, [None] if it fails. *)
Definition BinaryBuffer_hard_resize (alloc : option Z) (new_size : Z)
    : M (option BinaryBuffer) Z :=
  on_obj ALIB_BAD_ARG (
    cap ← gets capacity; b ← gets buff; l ← gets len;
    if cap =? new_size then mret ALIB_OK
    else if new_size =? 0
    then modify (set_buff None);; modify (set_capacity 0);; modify (set_len 0);; mret ALIB_OK
    else match alloc with
         | None => modify (set_buff None);; mret ALIB_MEM_ERR
         | Some id =>
             let old := match b with Some (_, cells) => cells | None => [] end in
             let kept := take (Z.to_nat new_size) old in
             modify (set_buff (Some (id, kept ++ replicate (Z.to_nat (new_size - blen kept)) None)));;
             modify (set_capacity new_size);;
             (if l >? new_size then modify (set_len new_size) else mret tt);;
             mret ALIB_OK
         end).

Definition BinaryBuffer_resize alloc (new_size : Z) : M (option BinaryBuffer) Z :=
  on_obj ALIB_BAD_ARG (
    m ← gets min_cap;
    here (BinaryBuffer_hard_resize alloc (if new_size <? m then m else new_size))).

(** [new_cap] is a local variable that is not initialised. *)
Definition BinaryBuffer_expand alloc : M (option BinaryBuffer) Z :=
  on_obj ALIB_BAD_ARG (
    cap ← gets capacity;
    if cap =? ULONG_MAX then mret ALIB_INTERNAL_MAX_REACHED
    else b ← gets id; new_cap ← lift (calculate_expansion b None);
         here (BinaryBuffer_resize alloc new_cap)).

Definition expand_body (b : BinaryBuffer) (target new_cap : Z) : res (Z + Z) :=
  if new_cap <? target then c ← calculate_expansion b (Some new_cap); Ok (inl c)
  else Ok (inr new_cap).
(** Every iteration adds at least one byte: the fuel is enough. *)
Definition BinaryBuffer_expand_to_target alloc (target : Z) : M (option BinaryBuffer) Z :=
  on_obj ALIB_BAD_ARG (
    b ← gets id;
    new_cap ← lift (loop (S (Z.to_nat (target - capacity b))) (expand_body b target) (capacity b));
    here (BinaryBuffer_resize alloc new_cap)).

(** * Adding data *)
(** [len + data_len > ULONG_MAX] is computed in [size_t]. *)
Definition BinaryBuffer_append alloc (data : option (list cell)) (data_len : Z)
    : M (option BinaryBuffer) Z :=
  on_obj ALIB_BAD_ARG (
    match data with
    | None => mret ALIB_BAD_ARG
    | Some data =>
        l ← gets len; cap ← gets capacity;
        if u64 (l + data_len) >? ULONG_MAX then mret ALIB_INTERNAL_MAX_REACHED else
        let new_data_len := u64 (l + data_len) in
        err ← (if cap <? new_data_len then here (BinaryBuffer_expand_to_target alloc new_data_len)
               else mret ALIB_OK);
        if negb (err =? 0) then mret err
        else write_at l data data_len;; modify (set_len new_data_len);; mret ALIB_OK
    end).

(** The file: whether seeking to the end and back succeeds, the bytes behind
    the current position, and the bytes [fread] delivers. *)
Record file := mkFile {
  seek_end : bool; seek_set : bool; rest : list cell; delivered : list cell
}.
Definition BinaryBuffer_append_file alloc (f : option file) : M (option BinaryBuffer) Z :=
  on_obj ALIB_BAD_ARG (
    match f with
    | None => mret ALIB_BAD_ARG
    | Some f =>
        if negb (seek_end f) then mret ALIB_FILE_ERR else
        let fileLen := blen (rest f) in
        if negb (seek_set f) then mret ALIB_FILE_ERR else
        l ← gets len;
        rval ← here (BinaryBuffer_expand_to_target alloc (u64 (l + fileLen)));
        if negb (rval =? 0) then mret rval else
        write_at l (delivered f) (blen (delivered f));;
        if blen (delivered f) <? fileLen then mret ALIB_FILE_READ_ERR
        else modify (set_len (u64 (l + fileLen)));; mret ALIB_OK
    end).

Definition BinaryBuffer_insert alloc (index : Z) (data : option (list cell)) (data_len : Z)
    : M (option BinaryBuffer) Z :=
  on_obj ALIB_BAD_ARG (
    match data with
    | None => mret ALIB_BAD_ARG
    | Some data =>
        l ← gets len; cap ← gets capacity;
        if index >? l then mret ALIB_BAD_INDEX else
        if u64 (l + data_len) >? ULONG_MAX then mret ALIB_INTERNAL_MAX_REACHED else
        let new_len := u64 (l + data_len) in
        err ← (if cap <? new_len then here (BinaryBuffer_expand_to_target alloc new_len)
               else mret ALIB_OK);
        if negb (err =? 0) then mret err else
        (* memcpy_back returns at once for NULL pointers *)
        '(p, _) ← pointer 0;
        let n := u64 (l - (index + 1)) in
        (if (bool_decide (p = None) && (index =? 0)) || (n =? 0) then mret tt
         else on_block p (fun cells =>
                '(cells, _) ← memcpy_back cells (Some (index + data_len)) (Some index) n; Ok cells));;
        write_at index data data_len;;
        modify (set_len new_len);; mret ALIB_OK
    end).

(** * Removing data *)
Definition BinaryBuffer_clear : M (option BinaryBuffer) unit :=
  on_obj tt (
    b ← gets id;
    if capacity b >? min_cap b then here (BinaryBuffer_hard_resize None 0);; mret tt
    else modify (set_len 0)).
Definition BinaryBuffer_clear_no_resize : M (option BinaryBuffer) unit :=
  on_obj tt (modify (set_len 0)).
Definition BinaryBuffer_shrink_to_fit alloc : M (option BinaryBuffer) unit :=
  no_guard (l ← gets len; here (BinaryBuffer_hard_resize alloc l);; mret tt).

Definition BinaryBuffer_remove (begin_ end_ : Z) : M (option BinaryBuffer) Z :=
  on_obj ALIB_BAD_ARG (
    let '(begin_, end_) := if begin_ >? end_ then (end_, begin_) else (begin_, end_) in
    l ← gets len;
    (if end_ >=? u64 (l - 1) then modify (set_len begin_)
     else '(p, _) ← pointer 0;
          (if u64 (l - end_) =? 0 then mret tt
           else on_block p (fun cells => blk_memcpy cells begin_ end_ (u64 (l - end_))));;
          modify (set_len (u64 (l - (end_ - begin_)))));;
    mret ALIB_OK).

(** * Copying data out *)
Definition BinaryBuffer_copy (to : option (list cell)) (count : Z)
    : M (option BinaryBuffer) (Z * option (list cell)) :=
  on_obj (ALIB_BAD_ARG, to) (
    match to with
    | None => mret (ALIB_BAD_ARG, None)
    | Some t => l ← gets len;
                t ← read_at t 0 (if count <? l then count else l); mret (ALIB_OK, Some t)
    end).

Definition BinaryBuffer_copy_and_drain (to : option (list cell)) (count : Z)
    : M (option BinaryBuffer) (Z * option (list cell)) :=
  on_obj (ALIB_BAD_ARG, to) (
    match to with
    | None => mret (ALIB_BAD_ARG, None)
    | Some t => l ← gets len;
                let count := if count >? l then l else count in
                t ← read_at t 0 count;
                err ← here (BinaryBuffer_remove 0 count); mret (err, Some t)
    end).

Definition BinaryBuffer_copy_block (begin_ end_ : Z) (to : option (list cell)) (count : Z)
    : M (option BinaryBuffer) (Z * option (list cell)) :=
  on_obj (ALIB_BAD_ARG, to) (
    let '(begin_, end_) := if begin_ >? end_ then (end_, begin_) else (begin_, end_) in
    l ← gets len;
    if end_ >=? l then mret (ALIB_BAD_INDEX, to)
    else let end_ := end_ - begin_ in
         let count := if count >? end_ then end_ else count in
         if count =? 0 then mret (ALIB_OK, to)
         else t ← lift (deref to); t ← read_at t begin_ count; mret (ALIB_OK, Some t)).

(** The number of bytes to remove is computed from the unswapped indices. *)
Definition BinaryBuffer_copy_block_and_drain (begin_ end_ : Z) (to : option (list cell)) (count : Z)
    : M (option BinaryBuffer) (Z * option (list cell)) := fun o =>
  match BinaryBuffer_copy_block begin_ end_ to count o with
  | Ok (err, to, o, t) =>
      if negb (err =? 0) then Ok (err, to, o, t)
      else let new_count := u64 (end_ - begin_) in
           let count := if count >? new_count then new_count else count in
           '(err, o, t') ← BinaryBuffer_remove begin_ (u64 (begin_ + count)) o;
           Ok (err, to, o, t ++ t')
  | UB f => UB f
  | Diverges => Diverges
  end.

Definition BinaryBuffer_extract_buffer : M (option BinaryBuffer) (option (Z * list cell)) :=
  on_obj None (
    rval ← gets buff;
    modify (set_buff None);; modify (set_capacity 0);; modify (set_len 0);; mret rval).

(** [fwrite]: the number of bytes the C library reports as written. *)
Definition BinaryBuffer_write_to_file (fwrite : list cell -> Z) : M (option BinaryBuffer) Z :=
  no_guard (
    l ← gets len; b ← gets buff;
    if l =? 0 then mret (fwrite [])
    else '(_, cells) ← lift (deref b); data ← lift (blk_read cells 0 l); mret (fwrite data)).

(** * Replacing data: the pointer [index_ptr] is computed before the block may
    be moved *)
Definition BinaryBuffer_replace alloc (index old_len : Z) (new_data : option (list cell))
    (new_data_len : Z) : M (option BinaryBuffer) Z :=
  on_obj ALIB_BAD_ARG (
    l ← gets len; cap ← gets capacity;
    if index >? l then mret ALIB_BAD_ARG else
    '(p, _) ← pointer index;
    let new_len := u64 (u64 (l + new_data_len) - old_len) in
    err ← (if cap <? new_len then here (BinaryBuffer_expand_to_target alloc new_len)
           else mret ALIB_OK);
    if negb (err =? 0) then mret err else
    let n := u64 (u64 (l - index) - old_len) in
    (if (old_len =? new_data_len) || (n =? 0) then mret tt
     else match p with
          | None => if (index + new_data_len =? 0) || (index + old_len =? 0) then mret tt
                    else lift (UB NullDeref)
          | Some _ => on_block p (fun cells =>
                        '(cells, _) ← memcpy_safe cells (Some (index + new_data_len))
                                        (Some (index + old_len)) n; Ok cells)
          end);;
    (if new_data_len =? 0 then mret tt
     else data ← lift (deref new_data);
          match p with
          | None => lift (UB NullDeref)
          | Some _ => on_block p (fun cells => blk_copy cells index data 0 new_data_len)
          end);;
    modify (set_len (u64 (l + u64 (new_data_len - old_len))));;
    mret ALIB_OK).

(** * Getters and setters: "assumes 'buff' is not null" *)
Definition BinaryBuffer_get_raw_buff : M (option BinaryBuffer) (option (Z * list cell)) :=
  no_guard (gets buff).
Definition BinaryBuffer_get_length : M (option BinaryBuffer) Z := no_guard (gets len).
Definition BinaryBuffer_get_capacity : M (option BinaryBuffer) Z := no_guard (gets capacity).
Definition BinaryBuffer_get_min_capacity : M (option BinaryBuffer) Z := no_guard (gets min_cap).
Definition BinaryBuffer_get_max_expand_size : M (option BinaryBuffer) Z := no_guard (gets max_expand).
Definition BinaryBuffer_set_min_capacity (n : Z) : M (option BinaryBuffer) unit :=
  no_guard (modify (set_min_cap n)).
Definition BinaryBuffer_set_max_expand_size (n : Z) : M (option BinaryBuffer) unit :=
  no_guard (modify (set_max_expand (if negb (n =? 0) then n else ULONG_MAX))).

(** * Construction and destruction *)
Definition delBinaryBuffer (b : option BinaryBuffer) : option BinaryBuffer := None.

(** [ok]: the object can be allocated; [alloc]: the identity of its block. A
    failed allocation of the block deletes the object, and the data is copied
    through the cleared pointer. *)
Definition newBinaryBuffer_ex (ok : bool) (alloc : option Z) (data : option (list cell))
    (data_len start_cap min_cap max_expand : Z) : res (option BinaryBuffer) :=
  if negb ok then Ok None else
  let start_cap := if data_len >? start_cap then data_len else start_cap in
  let start_cap := if min_cap >? start_cap then min_cap else start_cap in
  let max_expand := if negb (max_expand =? 0) then max_expand else ULONG_MAX in
  let mk blk := mkBinaryBuffer blk start_cap data_len min_cap max_expand in
  let b := if negb (start_cap =? 0)
           then match alloc with
                | None => delBinaryBuffer (Some (mk None))
                | Some id => Some (mk (Some (id, replicate (Z.to_nat start_cap) None)))
                end
           else Some (mk None) in
  match data with
  | Some d => if data_len =? 0 then Ok b
              else o ← deref b; '(_, o, _) ← write_at 0 d data_len o; Ok (Some o)
  | None => Ok b
  end.
Definition newBinaryBuffer ok alloc : res (option BinaryBuffer) :=
  newBinaryBuffer_ex ok alloc None 0 0 BINARY_BUFFER_DEFAULT_MIN_CAP
    BINARY_BUFFER_DEFUALT_MAX_EXPAND.

(** * The byte string and the invariant *)
Definition cells (b : BinaryBuffer) : list cell :=
  match buff b with Some (_, c) => c | None => [] end.
Definition content (b : BinaryBuffer) : list cell := take (Z.to_nat (len b)) (cells b).

Record wf (b : BinaryBuffer) : Prop := {
  wf_block : blen (cells b) = capacity b;
  wf_null : buff b = None <-> capacity b = 0;
  wf_len : 0 <= len b <= capacity b;
  wf_capacity : capacity b <= ULONG_MAX;
  wf_limits : 0 <= min_cap b <= ULONG_MAX /\ 0 < max_expand b <= ULONG_MAX
}.
(** The two limits, which only their setters change. *)
Definition same_limits (b b' : BinaryBuffer) : Prop :=
  min_cap b' = min_cap b /\ max_expand b' = max_expand b.

Lemma blen_content b : wf b -> blen (content b) = len b.
Proof. intros []. unfold content, blen in *. rewrite length_take. lia. Qed.

Lemma take_content b n : len b <= n -> take (Z.to_nat n) (content b) = content b.
Proof. intros. unfold content. rewrite take_take. f_equal. lia. Qed.


Lemma hard_resize_ok b id n :
  wf b -> 0 <= n <= ULONG_MAX ->
  exists b', BinaryBuffer_hard_resize (Some id) n (Some b) = Ok (ALIB_OK, Some b', [])
    /\ wf b' /\ same_limits b b' /\ capacity b' = n /\ content b' = take (Z.to_nat n) (content b).
Proof.
  intros Hwf Hn. pose proof Hwf as [Hb Hnull Hl Hc Hlim].
  unfold BinaryBuffer_hard_resize, on_obj. rewrite !bind_gets.
  destruct (Z.eqb_spec (capacity b) n) as [<-|Hne].
  { exists b. split; [done|]. do 3 (split; [done|]). symmetry. apply take_content. lia. }
  destruct (Z.eqb_spec n 0) as [->|Hnz].
  { eexists. split; [done|]. split; [|by split]. split; simpl; lia || done. }
  set (old := match buff b with Some (_, c) => c | None => [] end).
  assert (Ho : old = cells b) by done. rewrite Ho. clearbody old. clear old Ho.
  set (kept := take (Z.to_nat n) (cells b)).
  assert (Hk : blen kept = Z.min n (capacity b)).
  { unfold kept, blen in *. rewrite length_take. lia. }
  rewrite !bind_modify. set (b1 := set_capacity n _).
  exists (set_len (Z.min (len b) n) b1). split.
  { rewrite Z.gtb_ltb. destruct (Z.ltb_spec n (len b)).
    - rewrite bind_modify, Z.min_r by lia. done.
    - rewrite Z.min_l by lia. by destruct b. }
  split; [split; simpl; try lia|split; [done|split; [done|]]].
  - unfold cells. simpl. rewrite blen_app. unfold blen at 2. rewrite length_replicate. lia.
  - split; [done|lia].
  - unfold content, cells at 1. simpl. fold (cells b). rewrite take_take.
    rewrite take_app_le by (unfold blen in *; lia). unfold kept. rewrite take_take. f_equal. lia.
Qed.

Lemma bb_resize_ok b id n :
  wf b -> 0 <= n <= ULONG_MAX ->
  exists b', BinaryBuffer_resize (Some id) n (Some b) = Ok (ALIB_OK, Some b', [])
    /\ wf b' /\ same_limits b b' /\ capacity b' = Z.max n (min_cap b)
    /\ content b' = take (Z.to_nat (Z.max n (min_cap b))) (content b).
Proof.
  intros Hwf Hn. pose proof (wf_limits b Hwf).
  destruct (hard_resize_ok b id (Z.max n (min_cap b)) Hwf) as (b' & E & Hrest); [lia|].
  exists b'. split; [|done]. unfold BinaryBuffer_resize. apply on_obj_Ok. rewrite bind_gets.
  replace (if n <? min_cap b then min_cap b else n) with (Z.max n (min_cap b)) by (case_cmp; lia).
  by apply here_Some.
Qed.

(** ** The expansion loop *)
Lemma calculate_expansion_ok b size :
  wf b -> 0 <= size < ULONG_MAX ->
  exists n, calculate_expansion b (Some size) = Ok n /\ size < n <= ULONG_MAX.
Proof.
  intros Hwf Hs. pose proof (wf_limits b Hwf) as [_ Hm]. unfold ULONG_MAX in *.
  unfold calculate_expansion, ULONG_MAX. eexists. split; [done|]. rewrite Z.shiftl_mul_pow2 by lia.
  destruct (Z.eqb_spec size 0) as [->|]; [lia|]. rewrite Z.gtb_ltb.
  destruct (Z.ltb_spec (max_expand b) size).
  - pose proof (u64_range (size + max_expand b)). case_cmp; [lia|].
    assert (u64 (size + max_expand b) <> size); [|lia].
    destruct (decide (size + max_expand b < 2 ^ 64)); [rewrite u64_small; lia|].
    rewrite u64_wrap by lia. lia.
  - pose proof (u64_range (size * 2 ^ 1)). case_cmp; [lia|].
    assert (u64 (size * 2 ^ 1) <> size); [|lia].
    destruct (decide (size * 2 ^ 1 < 2 ^ 64)); [rewrite u64_small; lia|].
    rewrite u64_wrap by lia. lia.
Qed.

Lemma expand_loop_ok b target :
  wf b -> target <= ULONG_MAX ->
  exists n, loop (S (Z.to_nat (target - capacity b))) (expand_body b target) (capacity b) = Ok n
    /\ capacity b <= n <= ULONG_MAX /\ target <= n.
Proof.
  intros Hwf Ht. pose proof Hwf as [_ _ Hl Hc _]. apply yields_elim.
  apply loop_yields with (Inv := fun c => capacity b <= c <= ULONG_MAX)
    (measure := fun c => Z.to_nat (target - c)); [|lia|lia].
  intros c Hcc. unfold expand_body. case_cmp; [|simpl; lia].
  destruct (calculate_expansion_ok b c Hwf) as (n & -> & Hn); [lia|].
  simpl. lia.
Qed.

Lemma expand_to_target_ok b k target :
  wf b -> 0 <= target <= ULONG_MAX ->
  exists b', BinaryBuffer_expand_to_target (Some k) target (Some b) = Ok (ALIB_OK, Some b', [])
    /\ wf b' /\ same_limits b b' /\ target <= capacity b' /\ content b' = content b
    /\ len b' = len b.
Proof.
  intros Hwf Ht. pose proof Hwf as [_ _ Hl _ _].
  destruct (expand_loop_ok b target Hwf ltac:(lia)) as (n & Hloop & Hn & Htn).
  destruct (bb_resize_ok b k n Hwf) as (b' & E & Hw & Hlim & Hc & Hcont); [lia|].
  assert (Hcc : content b' = content b) by (rewrite Hcont; apply take_content; lia).
  exists b'. split; [|split; [done|split; [done|split; [lia|split; [done|]]]]].
  - unfold BinaryBuffer_expand_to_target. apply on_obj_Ok. rewrite bind_gets.
    change (capacity (id b)) with (capacity b).
    rewrite (bind_quiet _ _ _ n b); [by apply here_Some|].
    unfold lift. change (id b) with b. by rewrite Hloop.
  - rewrite <- (blen_content b'), <- (blen_content b) by done. by rewrite Hcc.
Qed.

(** ** Access to the block *)
Lemma wf_cells b : wf b -> 0 < capacity b -> exists i, buff b = Some (i, cells b).
Proof.
  intros [_ Hn _ _ _] Hc. unfold cells. destruct (buff b) as [[i c]|]; [by exists i|].
  assert (capacity b = 0) by by apply Hn. lia.
Qed.

Definition with_cells (b : BinaryBuffer) (c : list cell) : BinaryBuffer :=
  match buff b with Some (i, _) => set_buff (Some (i, c)) b | None => b end.

Lemma with_cells_wf b c n :
  wf b -> blen c = capacity b -> 0 <= n <= capacity b -> wf (set_len n (with_cells b c)).
Proof.
  intros [Hb Hn Hl Hc Hlim] Hc' Hlen. unfold with_cells.
  destruct (buff b) as [[i c0]|] eqn:E; split; simpl; try done; try lia.
  - split; [done|]. intros Hz. by apply Hn in Hz.
  - rewrite E. tauto.
Qed.
Lemma cells_with_cells b c n : wf b -> blen c = capacity b -> cells (set_len n (with_cells b c)) = c.
Proof.
  intros Hwf Hc. unfold with_cells, cells. destruct (buff b) as [[i c0]|] eqn:E; simpl; [done|].
  rewrite E. pose proof (wf_null b Hwf) as Hn. apply Hn in E. rewrite E in Hc.
  destruct c; [done|]. rewrite blen_cons in Hc. pose proof (blen_nonneg c). lia.
Qed.

Lemma write_at_ok b off data n :
  wf b -> 0 <= off -> 0 <= n -> off + n <= capacity b -> n <= blen data ->
  write_at off data n b = Ok (tt, with_cells b (splice (cells b) off (slice data 0 n)), []).
Proof.
  intros Hwf Ho Hn Hc Hd. unfold write_at. rewrite bind_gets.
  destruct (Z.eqb_spec n 0) as [->|].
  - rewrite slice_zero, splice_nil by lia. unfold with_cells, cells.
    destruct b as [[[i c]|] ? ? ? ?]; done.
  - destruct (wf_cells b Hwf ltac:(lia)) as [i Hi]. unfold with_cells. rewrite Hi.
    rewrite (bind_quiet _ _ _ (i, cells b) b) by done.
    rewrite blk_copy_ok by (rewrite ?(wf_block b Hwf); lia). done.
Qed.

Lemma splice_append (c : list cell) n data :
  0 <= n -> n + blen data <= blen c ->
  take (Z.to_nat (n + blen data)) (splice c n data) = take (Z.to_nat n) c ++ data.
Proof.
  intros Hn Hl. apply list_eq. intros i. unfold blen in *.
  destruct (decide (Z.of_nat i < n + Z.of_nat (length data))).
  - rewrite lookup_take_lt, lookup_splice by (unfold blen; lia). unfold blen. case_decide.
    + rewrite lookup_app_r by (rewrite length_take; lia). f_equal. rewrite length_take. lia.
    + rewrite lookup_app_l, lookup_take_lt by (rewrite ?length_take; lia). done.
  - rewrite lookup_take_ge by lia. symmetry. apply lookup_ge_None.
    rewrite length_app, length_take. lia.
Qed.

(** Making room for a total of [n] bytes, when needed. *)
Lemma make_room_ok b k n :
  wf b -> 0 <= n <= ULONG_MAX ->
  exists b', (if capacity b <? n then here (BinaryBuffer_expand_to_target (Some k) n)
              else mret ALIB_OK) b = Ok (ALIB_OK, b', [])
    /\ wf b' /\ same_limits b b' /\ n <= capacity b' /\ content b' = content b /\ len b' = len b
    /\ (n <= capacity b -> b' = b).
Proof.
  intros Hwf Hn. case_cmp.
  - destruct (expand_to_target_ok b k n Hwf Hn) as (b' & E & ? & ? & ? & ? & ?).
    exists b'. split; [by apply here_Some|]. repeat (split; [done|]). lia.
  - exists b. repeat (split; [done|]). done.
Qed.

(** Appending the first [n] bytes of the caller's array. *)
Lemma append_count_ok b k data n :
  wf b -> 0 <= n <= blen data -> len b + n <= ULONG_MAX ->
  exists b', BinaryBuffer_append (Some k) (Some data) n (Some b) = Ok (ALIB_OK, Some b', [])
    /\ wf b' /\ same_limits b b' /\ content b' = content b ++ slice data 0 n.
Proof.
  intros Hwf Hn Hfit. pose proof (wf_len b Hwf). unfold ULONG_MAX in Hfit.
  destruct (make_room_ok b k (len b + n) Hwf) as (b1 & E & Hw & Hlim & Hc & Hcont & Hlen & _);
    [unfold ULONG_MAX; lia|].
  pose proof (blen_slice data 0 n ltac:(lia) ltac:(lia) ltac:(lia)) as Hsl.
  set (c := splice (cells b1) (len b) (slice data 0 n)).
  assert (Hcl : blen c = capacity b1) by (unfold c; rewrite blen_splice; rewrite ?(wf_block b1 Hw); lia).
  exists (set_len (len b + n) (with_cells b1 c)). split; [|split; [|split]].
  - unfold BinaryBuffer_append. apply on_obj_Ok. rewrite !bind_gets. unwrap.
    rewrite Z.gtb_ltb, (proj2 (Z.ltb_ge _ _)) by (unfold ULONG_MAX; lia).
    rewrite (bind_quiet _ _ _ _ _ E). cbn [negb Z.eqb ALIB_OK].
    rewrite (bind_quiet _ _ _ _ _ (write_at_ok b1 (len b) data n Hw ltac:(lia) ltac:(lia)
      ltac:(lia) ltac:(lia))).
    by rewrite bind_modify.
  - apply with_cells_wf; done || lia.
  - split; [unfold with_cells; destruct (buff b1) as [[? ?]|]; apply Hlim|].
    unfold with_cells; destruct (buff b1) as [[? ?]|]; apply Hlim.
  - unfold content at 1. rewrite cells_with_cells by done. simpl. unfold c.
    rewrite <- Hsl at 1. rewrite splice_append by (rewrite ?(wf_block b1 Hw); lia).
    rewrite <- Hcont. unfold content. by rewrite Hlen.
Qed.

Lemma append_ok b k data :
  wf b -> len b + blen data <= ULONG_MAX ->
  exists b', BinaryBuffer_append (Some k) (Some data) (blen data) (Some b)
      = Ok (ALIB_OK, Some b', [])
    /\ wf b' /\ same_limits b b' /\ content b' = content b ++ data.
Proof.
  intros Hwf Hfit. pose proof (blen_nonneg data).
  destruct (append_count_ok b k data (blen data) Hwf) as (b' & E & Hrest); [lia|done|].
  rewrite slice_all in Hrest. by exists b'.
Qed.

Lemma bb_clear_ok b :
  wf b -> exists b', BinaryBuffer_clear (Some b) = Ok (tt, Some b', [])
    /\ wf b' /\ same_limits b b' /\ content b' = [].
Proof.
  intros Hwf. unfold BinaryBuffer_clear.
  pose proof Hwf as [Hb Hn Hl Hc Hlim]. destruct (capacity b >? min_cap b) eqn:E.
  - destruct (hard_resize_ok b 0 0 Hwf) as (b' & Hr & ? & ? & ? & Hcont); [unfold ULONG_MAX; lia|].
    assert (Hr' : BinaryBuffer_hard_resize None 0 (Some b) = Ok (ALIB_OK, Some b', [])).
    { rewrite <- Hr. unfold BinaryBuffer_hard_resize, on_obj. rewrite !bind_gets. done. }
    exists b'. split; [|done]. apply on_obj_Ok. rewrite bind_gets. unfold id. rewrite E.
    by rewrite (bind_quiet _ _ _ _ _ (here_Some _ _ _ _ _ Hr')).
  - exists (set_len 0 b). split; [|].
    + apply on_obj_Ok. rewrite bind_gets. unfold id. by rewrite E.
    + split; [split; simpl; try done; lia|done].
Qed.

(** * Runs of the operations that keep the bytes in order *)
Inductive op :=
| Append (data : list cell) | Clear | Clear_no_resize | Shrink_to_fit
| Resize (n : Z) | Expand_to_target (n : Z) | Set_min_capacity (n : Z) | Set_max_expand (n : Z).

(** The calls, with the identities of the blocks [realloc] returns; a [void]
    function returns 0. *)
Definition call (k : Z) (o : op) : M (option BinaryBuffer) Z :=
  match o with
  | Append data => BinaryBuffer_append (Some k) (Some data) (blen data)
  | Clear => BinaryBuffer_clear;; mret 0
  | Clear_no_resize => BinaryBuffer_clear_no_resize;; mret 0
  | Shrink_to_fit => BinaryBuffer_shrink_to_fit (Some k);; mret 0
  | Resize n => BinaryBuffer_resize (Some k) n
  | Expand_to_target n => BinaryBuffer_expand_to_target (Some k) n
  | Set_min_capacity n => BinaryBuffer_set_min_capacity n;; mret 0
  | Set_max_expand n => BinaryBuffer_set_max_expand_size n;; mret 0
  end.
Fixpoint run_calls (os : list (Z * op)) : M (option BinaryBuffer) Z :=
  match os with
  | [] => mret 0
  | (k, o) :: os => err ← call k o; if err =? 0 then run_calls os else mret err
  end.

(** The byte string and the minimum capacity after an operation. *)
Definition spec_step (o : op) (s : list cell * Z) : list cell * Z :=
  let '(c, m) := s in
  match o with
  | Append data => (c ++ data, m)
  | Clear | Clear_no_resize => ([], m)
  | Resize n => (take (Z.to_nat (Z.max n m)) c, m)
  | Set_min_capacity n => (c, n)
  | Shrink_to_fit | Expand_to_target _ | Set_max_expand _ => (c, m)
  end.
Definition spec_run (os : list (Z * op)) (s : list cell * Z) : list cell * Z :=
  foldl (fun s ko => spec_step ko.2 s) s os.

Definition size_ok (n : Z) : Prop := 0 <= n <= ULONG_MAX.
Definition admissible (o : op) : Prop :=
  match o with
  | Resize n | Expand_to_target n | Set_min_capacity n | Set_max_expand n => size_ok n
  | _ => True
  end.
Fixpoint appended (os : list (Z * op)) : Z :=
  match os with
  | [] => 0
  | (_, Append data) :: os => blen data + appended os
  | _ :: os => appended os
  end.

Lemma appended_nonneg os : 0 <= appended os.
Proof.
  induction os as [|[k [data| | | | | | | ]] os IH]; simpl; try done; try lia.
  pose proof (blen_nonneg data). lia.
Qed.

Lemma void_ok {A} (m : M (option BinaryBuffer) unit) (a : A) s s1 :
  m s = Ok (tt, s1, []) -> (m;; mret a) s = Ok (a, s1, []).
Proof. intros H. by rewrite (bind_quiet _ _ _ _ _ H). Qed.

Lemma bb_call_ok k o b :
  wf b -> admissible o -> (forall data, o = Append data -> len b + blen data <= ULONG_MAX) ->
  exists b', call k o (Some b) = Ok (0, Some b', []) /\ wf b'
    /\ (content b', min_cap b') = spec_step o (content b, min_cap b).
Proof.
  intros Hwf Ha Hd. pose proof Hwf as [Hb Hn Hl Hc [Hm Hx]].
  destruct o as [data| | | |n|n|n|n]; cbn [call admissible spec_step] in *.
  - destruct (append_ok b k data Hwf (Hd _ eq_refl)) as (b' & E & Hw & [Hm' _] & Hcont).
    exists b'. rewrite Hcont, Hm'. done.
  - destruct (bb_clear_ok b Hwf) as (b' & E & Hw & [Hm' _] & Hcont).
    exists b'. rewrite Hcont, Hm'. split; [by apply void_ok|done].
  - exists (set_len 0 b). split; [done|]. split; [split; simpl; try done; lia|done].
  - destruct (hard_resize_ok b k (len b) Hwf) as (b' & E & Hw & [Hm' _] & _ & Hcont); [lia|].
    exists b'. rewrite take_content in Hcont by lia. rewrite Hcont, Hm'. split; [|done].
    apply void_ok. unfold BinaryBuffer_shrink_to_fit, no_guard. cbn [deref mbind res_bind].
    rewrite bind_gets. by rewrite (bind_quiet _ _ _ _ _ (here_Some _ _ _ _ _ E)).
  - destruct (bb_resize_ok b k n Hwf Ha) as (b' & E & Hw & [Hm' _] & _ & Hcont).
    exists b'. rewrite Hcont, Hm'. done.
  - destruct (expand_to_target_ok b k n Hwf Ha) as (b' & E & Hw & [Hm' _] & _ & Hcont & _).
    exists b'. rewrite Hcont, Hm'. done.
  - exists (set_min_cap n b). split; [done|]. split; [split; simpl; done|done].
  - exists (set_max_expand (if negb (n =? 0) then n else ULONG_MAX) b). split; [done|].
    split; [|done]. unfold size_ok in Ha. split; simpl; try done. split; [done|].
    case_cmp; simpl; unfold ULONG_MAX in *; lia.
Qed.

Lemma spec_step_len o s :
  blen (spec_step o s).1 <= blen s.1 + match o with Append data => blen data | _ => 0 end.
Proof.
  destruct s as [c m]. pose proof (blen_nonneg c).
  destruct o as [data| | | |n|n|n|n]; simpl; rewrite ?blen_app; try lia;
    try (change (blen []) with 0; lia).
  unfold blen. rewrite length_take. lia.
Qed.

(** C9: a run of the operations that keep the order of the bytes returns
    [ALIB_OK] at every call (every allocation succeeding, the lengths fitting
    in [size_t]), terminates, and leaves exactly the bytes appended since the
    last clearing or truncation; the expansion loop reaches its target for
    every expansion limit. *)
Theorem run_refines_bytes (os : list (Z * op)) (b : BinaryBuffer) :
  wf b -> Forall (fun ko => admissible ko.2) os -> len b + appended os <= ULONG_MAX ->
  exists b', run_calls os (Some b) = Ok (ALIB_OK, Some b', []) /\ wf b'
    /\ (content b', min_cap b') = spec_run os (content b, min_cap b).
Proof.
  revert b. induction os as [|[k o] os IH]; intros b Hwf Hadm Hfit; [by exists b|].
  inversion_clear Hadm as [|? ? Ho Hos]. simpl in Ho. pose proof (appended_nonneg os).
  destruct (bb_call_ok k o b Hwf Ho) as (b1 & E & Hw1 & Hs1).
  { intros data ->. simpl in Hfit. lia. }
  assert (Hlen : len b1 <= len b + match o with Append data => blen data | _ => 0 end).
  { rewrite <- (blen_content b1), <- (blen_content b) by done.
    replace (content b1) with (spec_step o (content b, min_cap b)).1 by by rewrite <- Hs1.
    apply (spec_step_len o (content b, min_cap b)). }
  destruct (IH b1 Hw1 Hos) as (b2 & E2 & Hw2 & Hs2).
  { revert Hfit. simpl. destruct o; lia. }
  exists b2. cbn [run_calls]. rewrite (bind_quiet _ _ _ _ _ E). split; [exact E2|].
  split; [done|]. rewrite Hs2, Hs1. done.
Qed.

Lemma run_refines_bytes_witness :
  let b := mkBinaryBuffer None 0 0 2 4 in
  exists b', run_calls [(1, Append [Some 7; Some 8; Some 9]); (2, Append [Some 5]); (3, Resize 2);
                        (4, Set_max_expand 1); (5, Append [Some 1; Some 2; Some 3])] (Some b)
      = Ok (ALIB_OK, Some b', []) /\ wf b'
    /\ (content b', min_cap b') = ([Some 7; Some 8; Some 1; Some 2; Some 3], 2).
Proof.
  apply (run_refines_bytes
    [(1, Append [Some 7; Some 8; Some 9]); (2, Append [Some 5]); (3, Resize 2);
     (4, Set_max_expand 1); (5, Append [Some 1; Some 2; Some 3])] (mkBinaryBuffer None 0 0 2 4)).
  - split; simpl; unfold ULONG_MAX; try done; unfold blen; simpl; lia.
  - repeat constructor; unfold size_ok, ULONG_MAX; simpl; lia.
  - apply Z.leb_le. by vm_compute.
Defined.

(** * Removing, inserting, replacing *)

(** An operation of the block on a well-formed buffer. *)
Lemma on_block_ok b i f c :
  wf b -> buff b = Some (i, cells b) -> f (cells b) = Ok c ->
  on_block (Some i) f b = Ok (tt, with_cells b c, []).
Proof.
  intros Hwf Hi Hf. unfold on_block. rewrite bind_gets, Hi.
  rewrite (bind_quiet _ _ _ (i, cells b) b) by done.
  rewrite (bind_quiet _ _ _ i b) by done. rewrite Z.eqb_refl, Hf.
  unfold with_cells. by rewrite Hi.
Qed.
Lemma pointer_ok b i off : buff b = Some (i, cells b) -> pointer off b = Ok ((Some i, off), b, []).
Proof. intros Hi. unfold pointer. rewrite bind_gets, Hi. done. Qed.
Lemma on_block_fault b i f e :
  buff b = Some (i, cells b) -> f (cells b) = UB e -> on_block (Some i) f b = UB e.
Proof.
  intros Hi Hf. unfold on_block. rewrite bind_gets, Hi.
  rewrite (bind_quiet _ _ _ (i, cells b) b) by done.
  rewrite (bind_quiet _ _ _ i b) by done. by rewrite Z.eqb_refl, Hf.
Qed.

Lemma content_with_cells b c n :
  wf b -> blen c = capacity b -> content (set_len n (with_cells b c)) = take (Z.to_nat n) c.
Proof. intros. unfold content. rewrite cells_with_cells by done. done. Qed.

Lemma slice_content b off n :
  wf b -> 0 <= off -> 0 <= n -> off + n <= len b -> slice (cells b) off n = slice (content b) off n.
Proof.
  intros Hwf ???. apply list_eq. intros i. rewrite !lookup_slice by lia. case_decide; [|done].
  unfold content. by rewrite lookup_take_lt by lia.
Qed.

(** The three ways [BinaryBuffer_remove] can go. *)
Lemma remove_tail b x y :
  wf b -> 0 <= x <= y -> x <= len b -> 0 < len b -> len b - 1 <= y ->
  BinaryBuffer_remove x y (Some b) = Ok (ALIB_OK, Some (set_len x b), [])
  /\ content (set_len x b) = take (Z.to_nat x) (content b).
Proof.
  intros Hwf Hxy Hx Hl0 Hy. pose proof Hwf as [Hb _ Hl Hc _]. unfold ULONG_MAX in *.
  unfold BinaryBuffer_remove. rewrite (Z.gtb_ltb x y), (proj2 (Z.ltb_ge y x)) by lia.
  split.
  - apply on_obj_Ok. rewrite bind_gets. unwrap. rewrite Z.geb_leb, (proj2 (Z.leb_le _ _)) by lia.
      by rewrite bind_modify.
  - unfold content, cells. simpl. rewrite take_take. f_equal. lia.
Qed.
Lemma remove_middle b x y :
  wf b -> 0 <= x <= y -> x <= len b -> 0 < len b -> y < len b - 1 -> len b - y <= y - x ->
  exists b', BinaryBuffer_remove x y (Some b) = Ok (ALIB_OK, Some b', []) /\ wf b'
    /\ content b' = take (Z.to_nat x) (content b) ++ drop (Z.to_nat y) (content b).
Proof.
  intros Hwf Hxy Hx Hl0 Hy Hd. pose proof Hwf as [Hb _ Hl Hc _]. unfold ULONG_MAX in *.
  unfold BinaryBuffer_remove. rewrite (Z.gtb_ltb x y), (proj2 (Z.ltb_ge y x)) by lia.
  destruct (wf_cells b Hwf ltac:(lia)) as [i Hi].
    assert (Hm : blk_memcpy (cells b) x y (len b - y)
                 = Ok (splice (cells b) x (slice (cells b) y (len b - y)))).
    { apply blk_memcpy_ok; lia. }
    set (c := splice _ _ _) in Hm.
    pose proof (blen_slice (cells b) y (len b - y)) as Hsl.
    assert (Hcl : blen c = capacity b) by (unfold c; rewrite blen_splice; lia).
    exists (set_len (len b - (y - x)) (with_cells b c)). split; [|split; [by apply with_cells_wf; try lia|]].
  - apply on_obj_Ok. rewrite bind_gets. unwrap. rewrite Z.geb_leb, (proj2 (Z.leb_gt _ _)) by lia.
      rewrite bind_bind, (bind_quiet _ _ _ _ _ (pointer_ok b i 0 Hi)).
      rewrite (proj2 (Z.eqb_neq _ 0)) by lia.
      by rewrite bind_bind, (bind_quiet _ _ _ _ _ (on_block_ok b i _ c Hwf Hi Hm)), bind_modify.
  - rewrite content_with_cells by done. unfold c.
      replace (len b - (y - x)) with (x + blen (slice (cells b) y (len b - y))) by lia.
      rewrite splice_append by lia. unfold content at 1. rewrite take_take, Nat.min_l by lia. f_equal.
      rewrite slice_content by (done || lia). unfold slice. apply firstn_all2.
      pose proof (blen_content b Hwf). unfold blen in *. rewrite length_drop. lia.
Qed.
Lemma remove_overlap b x y :
  wf b -> 0 <= x <= y -> x <= len b -> 0 < len b -> y < len b - 1 -> y - x < len b - y ->
  BinaryBuffer_remove x y (Some b) = UB Overlap.
Proof.
  intros Hwf Hxy Hx Hl0 Hy Hd. pose proof Hwf as [Hb _ Hl Hc _]. unfold ULONG_MAX in *.
  unfold BinaryBuffer_remove. rewrite (Z.gtb_ltb x y), (proj2 (Z.ltb_ge y x)) by lia.
  destruct (wf_cells b Hwf ltac:(lia)) as [i Hi].
    unfold on_obj. rewrite bind_gets. unwrap. rewrite Z.geb_leb, (proj2 (Z.leb_gt _ _)) by lia.
    rewrite bind_bind, (bind_quiet _ _ _ _ _ (pointer_ok b i 0 Hi)).
    rewrite (proj2 (Z.eqb_neq _ 0)), bind_bind by lia.
    rewrite (bind_UB _ _ _ Overlap); [done|]. apply (on_block_fault b i); [done|].
    apply blk_memcpy_overlap; lia.
Qed.

(** What [BinaryBuffer_remove] does with an ordered range inside the
    buffer: a range that ends at the last byte or behind it cuts the buffer at
    its beginning (a range that ends just before the last byte loses the last
    byte too); a range at least as long as the bytes behind it is removed; a
    shorter one makes [memcpy] copy between overlapping regions. *)
Theorem remove_spec (b : BinaryBuffer) (x y : Z) :
  wf b -> 0 <= x <= y -> x <= len b -> 0 < len b ->
  (len b - 1 <= y ->
     BinaryBuffer_remove x y (Some b) = Ok (ALIB_OK, Some (set_len x b), [])
     /\ content (set_len x b) = take (Z.to_nat x) (content b))
  /\ (y < len b - 1 -> len b - y <= y - x ->
      exists b', BinaryBuffer_remove x y (Some b) = Ok (ALIB_OK, Some b', []) /\ wf b'
        /\ content b' = take (Z.to_nat x) (content b) ++ drop (Z.to_nat y) (content b))
  /\ (y < len b - 1 -> y - x < len b - y -> BinaryBuffer_remove x y (Some b) = UB Overlap).
Proof.
  intros Hwf Hxy Hx Hl0. split; [|split]; intros.
  - by apply remove_tail.
  - by apply remove_middle.
  - by apply remove_overlap.
Qed.

Lemma remove_spec_witness :
  let b := mkBinaryBuffer (Some (1, [Some 1; Some 2; Some 3; Some 4; Some 5])) 5 5 0 8 in
  BinaryBuffer_remove 1 4 (Some b) = Ok (ALIB_OK, Some (set_len 1 b), [])
  /\ BinaryBuffer_remove 0 1 (Some b) = UB Overlap
  /\ exists b', BinaryBuffer_remove 0 3 (Some b) = Ok (ALIB_OK, Some b', []) /\ wf b'
       /\ content b' = [Some 4; Some 5].
Proof.
  assert (Hwf : wf (mkBinaryBuffer (Some (1, [Some 1; Some 2; Some 3; Some 4; Some 5])) 5 5 0 8)).
  { split; simpl; unfold ULONG_MAX; try done; unfold blen; simpl; lia. }
  split; [|split].
  - by apply (remove_spec _ 1 4 Hwf).
  - by apply (remove_spec _ 0 1 Hwf).
  - by apply (remove_spec _ 0 3 Hwf).
Defined.

(** [BinaryBuffer_copy_and_drain] (a call reading the first [n] bytes and
    removing them, the way the buffer is consumed as a stream) faults whenever
    more bytes stay behind than are drained, and drains the last byte, without
    copying it, when exactly one byte should stay. *)
Theorem copy_and_drain_spec (b : BinaryBuffer) (to : list cell) (n : Z) :
  wf b -> 0 < n < len b -> n <= blen to ->
  (n < len b - n -> n < len b - 1 ->
     BinaryBuffer_copy_and_drain (Some to) n (Some b) = UB Overlap)
  /\ (len b - n <= n -> n < len b - 1 ->
      exists b', BinaryBuffer_copy_and_drain (Some to) n (Some b)
          = Ok ((ALIB_OK, Some (splice to 0 (slice (content b) 0 n))), Some b', [])
        /\ content b' = drop (Z.to_nat n) (content b))
  /\ (n = len b - 1 ->
      exists b', BinaryBuffer_copy_and_drain (Some to) n (Some b)
          = Ok ((ALIB_OK, Some (splice to 0 (slice (content b) 0 n))), Some b', [])
        /\ content b' = []).
Proof.
  intros Hwf Hn Hto. pose proof Hwf as [Hb _ Hl _ _].
  destruct (wf_cells b Hwf ltac:(lia)) as [i Hi].
  assert (Hread : read_at to 0 n b = Ok (splice to 0 (slice (content b) 0 n), b, [])).
  { unfold read_at. rewrite bind_gets, Hi, (proj2 (Z.eqb_neq n 0)) by lia.
    rewrite (bind_quiet _ _ _ (i, cells b) b) by done.
    rewrite blk_copy_ok by lia. by rewrite slice_content by (done || lia). }
  assert (Hgo : forall r s, BinaryBuffer_remove 0 n (Some b) = Ok (r, Some s, []) ->
    BinaryBuffer_copy_and_drain (Some to) n (Some b)
    = Ok ((r, Some (splice to 0 (slice (content b) 0 n))), Some s, [])).
  { intros r s Hr. unfold BinaryBuffer_copy_and_drain. apply on_obj_Ok.
    rewrite bind_gets, Z.gtb_ltb, (proj2 (Z.ltb_ge _ _)) by lia.
    rewrite (bind_quiet _ _ _ _ _ Hread). by rewrite (bind_quiet _ _ _ _ _ (here_Some _ _ _ _ _ Hr)). }
  split; [|split].
  - intros H1 H2. unfold BinaryBuffer_copy_and_drain, on_obj.
    rewrite bind_gets, Z.gtb_ltb, (proj2 (Z.ltb_ge _ _)) by lia.
    rewrite (bind_quiet _ _ _ _ _ Hread). rewrite (bind_UB _ _ _ Overlap); [done|].
    unfold here. rewrite (remove_overlap b 0 n) by (done || lia). done.
  - intros H1 H2. destruct (remove_middle b 0 n) as (b' & E & _ & Hc); [done|lia..|].
    exists b'. split; [by apply Hgo|]. done.
  - intros ->. destruct (remove_tail b 0 (len b - 1)) as [E Hc]; [done|lia..|].
    eexists. split; [by apply Hgo|]. done.
Qed.

Lemma copy_and_drain_spec_witness :
  let b := mkBinaryBuffer (Some (1, [Some 1; Some 2; Some 3; Some 4; Some 5])) 5 5 0 8 in
  let to := [None; None; None; None] in
  BinaryBuffer_copy_and_drain (Some to) 2 (Some b) = UB Overlap
  /\ (exists b', BinaryBuffer_copy_and_drain (Some to) 3 (Some b)
        = Ok ((ALIB_OK, Some [Some 1; Some 2; Some 3; None]), Some b', []) /\ content b' = [Some 4; Some 5])
  /\ (exists b', BinaryBuffer_copy_and_drain (Some to) 4 (Some b)
        = Ok ((ALIB_OK, Some [Some 1; Some 2; Some 3; Some 4]), Some b', []) /\ content b' = []).
Proof.
  assert (Hwf : wf (mkBinaryBuffer (Some (1, [Some 1; Some 2; Some 3; Some 4; Some 5])) 5 5 0 8)).
  { split; simpl; unfold ULONG_MAX; try done; unfold blen; simpl; lia. }
  split; [|split].
  - by apply (copy_and_drain_spec _ [None; None; None; None] 2 Hwf).
  - by apply (copy_and_drain_spec _ [None; None; None; None] 3 Hwf).
  - by apply (copy_and_drain_spec _ [None; None; None; None] 4 Hwf).
Defined.

(** ** A gap in the middle: the cells behind [at_] moved up by [n] *)
Lemma splice_gap (c : list cell) at_ n m data :
  0 <= at_ -> 0 <= m -> blen data = n -> at_ + n + m <= blen c ->
  take (Z.to_nat (at_ + n + m))
    (splice (splice c (at_ + n) (slice c at_ m)) at_ data)
  = take (Z.to_nat at_) c ++ data ++ slice c at_ m.
Proof.
  intros Ha Hm Hd Hc. pose proof (blen_nonneg data).
  pose proof (blen_slice c at_ m ltac:(lia) ltac:(lia) ltac:(lia)) as Hs.
  set (c' := splice c (at_ + n) (slice c at_ m)).
  assert (Hc' : blen c' = blen c) by (unfold c'; rewrite blen_splice; lia).
  apply list_eq. intros i. unfold blen in *. rewrite !lookup_app.
  rewrite length_take. rewrite Nat.min_l by lia.
  destruct (decide (Z.of_nat i < at_ + n + m)).
  2: { rewrite lookup_take_ge by lia. symmetry.
       rewrite (lookup_take_ge c) by lia. rewrite !lookup_ge_None_2; [done|lia..]. }
  rewrite (lookup_take_lt (splice c' at_ data)) by lia. rewrite lookup_splice by (unfold blen; lia).
  case_decide as Hin.
  - rewrite (lookup_take_ge c) by lia. unfold blen in Hin.
    destruct (data !! (i - Z.to_nat at_)%nat) eqn:E; [done|]. apply lookup_ge_None in E. lia.
  - unfold blen in Hin. unfold c'. rewrite lookup_splice by (unfold blen; lia). unfold blen. case_decide.
    + rewrite (lookup_take_ge c) by lia. rewrite (lookup_ge_None_2 data) by lia. f_equal. lia.
    + rewrite lookup_take_lt by lia.
      destruct (c !! i) eqn:E; [done|]. apply lookup_ge_None in E. lia.
Qed.

Lemma take_S_cells (c : list cell) n :
  0 <= n < blen c -> exists x, c !! Z.to_nat n = Some x
    /\ take (Z.to_nat (n + 1)) c = take (Z.to_nat n) c ++ [x].
Proof.
  intros Hn. destruct (lookup_Z_is_Some c n) as [x Hx]; [unfold blen in *; lia|].
  exists x. split; [done|]. replace (Z.to_nat (n + 1)) with (S (Z.to_nat n)) by lia. by apply take_S_r.
Qed.

Lemma insert_middle b k index data :
  wf b -> 0 <= index < len b -> len b + blen data <= ULONG_MAX ->
  exists b' x, BinaryBuffer_insert (Some k) index (Some data) (blen data) (Some b)
      = Ok (ALIB_OK, Some b', []) /\ wf b'
    /\ content b' = take (Z.to_nat index) (content b) ++ data
                    ++ slice (content b) index (len b - 1 - index) ++ [x]
    /\ (len b + blen data <= capacity b ->
        cells b !! Z.to_nat (len b + blen data - 1) = Some x \/ data = []).
Proof.
  intros Hwf Hi Hfit. pose proof (blen_nonneg data). pose proof (wf_len b Hwf).
  unfold ULONG_MAX in Hfit. set (n := blen data) in *.
  destruct (make_room_ok b k (len b + n) Hwf) as (b1 & E & Hw & _ & Hc & Hcont & Hlen & Hsame);
    [unfold ULONG_MAX; lia|].
  destruct (wf_cells b1 Hw ltac:(lia)) as [i Hi1]. pose proof Hw as [Hb1 _ Hl1 _ _].
  set (c1 := splice (cells b1) (index + n) (slice (cells b1) index (len b - 1 - index))).
  assert (Hc1 : blen c1 = capacity b1) by (unfold c1; rewrite blen_splice; rewrite ?blen_slice; lia).
  assert (Hback : (p ← memcpy_back (cells b1) (Some (index + n)) (Some index) (len b - 1 - index);
                   let '(c, _) := p in Ok c) = Ok c1).
  { rewrite memcpy_back_ok by lia. done. }
  set (b2 := set_len (len b) (with_cells b1 c1)).
  assert (Hb2 : with_cells b1 c1 = b2).
  { unfold b2, with_cells. rewrite Hi1. unfold set_len, set_buff. simpl. by rewrite Hlen. }
  assert (Hw2 : wf b2) by (apply with_cells_wf; done || lia).
  set (c2 := splice c1 index data).
  assert (Hcap2 : capacity b2 = capacity b1) by (unfold b2, with_cells; by rewrite Hi1).
  assert (Hcells2 : cells b2 = c1) by by apply cells_with_cells.
  assert (Hc2 : blen c2 = capacity b2) by (unfold c2; rewrite blen_splice; lia).
  destruct (take_S_cells c2 (len b + n - 1)) as (x & Hx & Htake); [lia|].
  exists (set_len (len b + n) (with_cells b2 c2)), x.
  split; [|split; [apply with_cells_wf; done || lia|split]].
  - unfold BinaryBuffer_insert. apply on_obj_Ok. rewrite !bind_gets. unwrap.
    rewrite Z.gtb_ltb, (proj2 (Z.ltb_ge _ _)) by lia.
    rewrite Z.gtb_ltb, (proj2 (Z.ltb_ge _ _)) by (unfold ULONG_MAX; lia).
    rewrite (bind_quiet _ _ _ _ _ E). cbn [negb Z.eqb ALIB_OK].
    rewrite (bind_quiet _ _ _ _ _ (pointer_ok b1 i 0 Hi1)).
    replace (len b - (index + 1)) with (len b - 1 - index) by lia.
    rewrite (bind_quiet _ _ _ tt b2); cycle 1.
    { rewrite bool_decide_eq_false_2 by done. cbn [andb orb].
      destruct (Z.eqb_spec (len b - 1 - index) 0) as [e|].
      - rewrite <- Hb2. unfold c1. rewrite e, slice_zero, splice_nil by lia.
        unfold with_cells. rewrite Hi1. unfold set_buff, mret, M_ret. rewrite <- Hi1. by destruct b1.
      - rewrite <- Hb2. apply on_block_ok; [done..|]. exact Hback. }
    rewrite (bind_quiet _ _ _ _ _ (write_at_ok b2 index data n Hw2 ltac:(lia) ltac:(lia)
      ltac:(lia) ltac:(lia))).
    unfold n. rewrite slice_all, Hcells2, bind_modify. done.
  - rewrite content_with_cells by done. replace (len b + n) with (len b + n - 1 + 1) by lia.
    rewrite Htake. replace (len b + n - 1) with (index + n + (len b - 1 - index)) by lia.
    unfold c2, c1. rewrite splice_gap by (done || lia).
    rewrite <- !app_assoc. f_equal.
    + rewrite <- Hcont. unfold content. rewrite take_take. f_equal. lia.
    + rewrite slice_content by (done || lia). by rewrite Hcont.
  - intros Hroom. specialize (Hsame Hroom). subst b1. destruct (decide (n = 0)) as [Hn|Hn].
    + right. unfold n in Hn. destruct data; [done|]. rewrite blen_cons in Hn.
      pose proof (blen_nonneg data). lia.
    + left. rewrite <- Hx. unfold c2. fold n. symmetry.
      destruct (decide (len b + n - 1 < index + n)).
      * lia.
      * rewrite lookup_splice_out by (fold n; lia). unfold c1.
        pose proof (blen_slice (cells b) index (len b - 1 - index)).
        rewrite lookup_splice_out by lia. done.
Qed.

(** Inserting behind the last byte moves [SIZE_MAX] bytes. *)
Lemma insert_end b k data :
  wf b -> 0 < len b -> len b + blen data <= ULONG_MAX ->
  BinaryBuffer_insert (Some k) (len b) (Some data) (blen data) (Some b) = UB OutOfBounds.
Proof.
  intros Hwf Hl Hfit. pose proof (blen_nonneg data). unfold ULONG_MAX in Hfit.
  destruct (make_room_ok b k (len b + blen data) Hwf) as (b1 & E & Hw & _ & Hc & _);
    [unfold ULONG_MAX; lia|].
  destruct (wf_cells b1 Hw ltac:(lia)) as [i Hi1]. pose proof Hw as [Hb1 _ _ Hcm _].
  unfold BinaryBuffer_insert, on_obj. rewrite !bind_gets. unwrap.
  rewrite Z.gtb_ltb, Z.ltb_irrefl.
  rewrite Z.gtb_ltb, (proj2 (Z.ltb_ge _ _)) by (unfold ULONG_MAX; lia).
  rewrite (bind_quiet _ _ _ _ _ E). cbn [negb Z.eqb ALIB_OK].
  rewrite (bind_quiet _ _ _ _ _ (pointer_ok b1 i 0 Hi1)).
  rewrite bool_decide_eq_false_2 by done. cbn [andb orb].
  assert (Hn : u64 (len b - (len b + 1)) = 2 ^ 64 - 1).
  { replace (len b - (len b + 1)) with (-1) by lia. done. }
  rewrite Hn, (proj2 (Z.eqb_neq _ 0)) by lia.
  rewrite (bind_UB _ _ _ OutOfBounds); [done|]. apply (on_block_fault b1 i); [done|].
  rewrite memcpy_back_oob; [done|lia|]. unfold ULONG_MAX in Hcm. lia.
Qed.

(** [BinaryBuffer_insert] at an index inside the buffer moves all but the
    last byte behind the index up: the new bytes are in their place, and the
    last byte of the result is not the old last byte but whatever its cell
    held before; inserting behind the last byte ("all bytes at and after this
    index" being none) accesses memory outside of the block; an index outside
    of the buffer is refused without a change. *)
Theorem insert_spec (b : BinaryBuffer) (k index : Z) (data : list cell) :
  wf b -> 0 <= index -> len b + blen data <= ULONG_MAX ->
  (index < len b ->
     exists b' x, BinaryBuffer_insert (Some k) index (Some data) (blen data) (Some b)
        = Ok (ALIB_OK, Some b', []) /\ wf b'
     /\ content b' = take (Z.to_nat index) (content b) ++ data
                     ++ slice (content b) index (len b - 1 - index) ++ [x]
     /\ (len b + blen data <= capacity b ->
         cells b !! Z.to_nat (len b + blen data - 1) = Some x \/ data = []))
  /\ (index = len b -> 0 < len b ->
      BinaryBuffer_insert (Some k) index (Some data) (blen data) (Some b) = UB OutOfBounds)
  /\ (len b < index ->
      BinaryBuffer_insert (Some k) index (Some data) (blen data) (Some b)
      = Ok (ALIB_BAD_INDEX, Some b, [])).
Proof.
  intros Hwf Hi Hfit. split; [|split].
  - intros. by apply insert_middle.
  - intros -> ?. by apply insert_end.
  - intros. unfold BinaryBuffer_insert. apply on_obj_Ok. rewrite !bind_gets.
    by rewrite Z.gtb_ltb, (proj2 (Z.ltb_lt _ _)) by lia.
Qed.

Lemma insert_spec_witness :
  let b := mkBinaryBuffer (Some (1, [Some 1; Some 2; Some 3; None; Some 9])) 5 3 0 8 in
  exists b' x, BinaryBuffer_insert (Some 1) 1 (Some [Some 7]) 1 (Some b) = Ok (ALIB_OK, Some b', [])
    /\ wf b' /\ content b' = [Some 1; Some 7; Some 2] ++ [x]
    /\ (4 <= 5 -> None = x \/ [Some 7] = []).
Proof.
  assert (Hwf : wf (mkBinaryBuffer (Some (1, [Some 1; Some 2; Some 3; None; Some 9])) 5 3 0 8)).
  { split; simpl; unfold ULONG_MAX; try done; unfold blen; simpl; lia. }
  destruct (proj1 (insert_spec _ 1 1 [Some 7] Hwf ltac:(lia) ltac:(apply Z.leb_le; by vm_compute))
              ltac:(simpl; lia)) as (b' & x & E & Hw & Hc & Hx).
  exists b', x. split; [exact E|]. split; [done|]. split; [exact Hc|].
  intros H. destruct (Hx H) as [Hx'|?]; [left; by injection Hx'|by right].
Defined.

(** [BinaryBuffer_expand] reads its uninitialised local variable whenever
    it does more than report the maximum. *)
Theorem expand_indeterminate (alloc : option Z) (b : BinaryBuffer) :
  BinaryBuffer_expand alloc (Some b) =
    if capacity b =? ULONG_MAX then Ok (ALIB_INTERNAL_MAX_REACHED, Some b, [])
    else UB Indeterminate.
Proof.
  unfold BinaryBuffer_expand, on_obj. rewrite bind_gets.
  destruct (capacity b =? ULONG_MAX); [done|]. rewrite bind_gets. done.
Qed.

(** When [realloc] fails, the buffer pointer is lost and the capacity
    stays: the error is reported, but the next append that fits the old
    capacity writes through NULL (the header promises that nothing is modified
    when an error occurs). *)
Theorem failed_realloc_breaks (b : BinaryBuffer) (data more : list cell) (k : option Z) :
  wf b -> capacity b < len b + blen data <= ULONG_MAX -> 0 < blen more ->
  len b + blen more <= capacity b ->
  exists b', BinaryBuffer_append None (Some data) (blen data) (Some b)
      = Ok (ALIB_MEM_ERR, Some b', [])
    /\ BinaryBuffer_append k (Some more) (blen more) (Some b') = UB NullDeref.
Proof.
  intros Hwf Hd Hm Hfit. pose proof Hwf as [Hb Hn Hl Hc [Hmin _]]. unfold ULONG_MAX in *.
  destruct (expand_loop_ok b (len b + blen data) Hwf) as (n & Hloop & Hn1 & Hn2);
    [unfold ULONG_MAX; lia|].
  exists (set_buff None b). split.
  - unfold BinaryBuffer_append. apply on_obj_Ok. rewrite !bind_gets. unwrap.
    rewrite Z.gtb_ltb, (proj2 (Z.ltb_ge _ _)) by (unfold ULONG_MAX; lia).
    rewrite (proj2 (Z.ltb_lt _ _)) by lia.
    rewrite (bind_quiet _ _ _ ALIB_MEM_ERR (set_buff None b)); [done|].
    unfold BinaryBuffer_expand_to_target. rewrite here_on_obj, bind_gets. change (id b) with b.
    rewrite (bind_quiet _ _ _ n b) by (unfold lift; by rewrite Hloop).
    unfold BinaryBuffer_resize. rewrite here_on_obj, bind_gets.
    unfold BinaryBuffer_hard_resize. rewrite here_on_obj, !bind_gets.
    rewrite (proj2 (Z.eqb_neq _ _)) by (case_cmp; lia).
    rewrite (proj2 (Z.eqb_neq _ 0)) by (case_cmp; lia). done.
  - unfold BinaryBuffer_append, on_obj. rewrite !bind_gets.
    change (len (set_buff None b)) with (len b). change (capacity (set_buff None b)) with (capacity b).
    unwrap. rewrite Z.gtb_ltb, (proj2 (Z.ltb_ge _ _)) by (unfold ULONG_MAX; lia).
    rewrite (proj2 (Z.ltb_ge (capacity b) _)) by lia.
    rewrite (bind_quiet _ _ _ ALIB_OK (set_buff None b)) by done. cbn [negb Z.eqb ALIB_OK].
    rewrite (bind_UB _ _ _ NullDeref); [done|]. unfold write_at. rewrite bind_gets.
    by rewrite (proj2 (Z.eqb_neq _ 0)) by lia.
Qed.

Lemma failed_realloc_breaks_witness :
  let b := mkBinaryBuffer (Some (1, [None; None])) 2 0 0 8 in
  exists b', BinaryBuffer_append None (Some [Some 1; Some 2; Some 3]) 3 (Some b)
      = Ok (ALIB_MEM_ERR, Some b', [])
    /\ BinaryBuffer_append (Some 2) (Some [Some 1]) 1 (Some b') = UB NullDeref.
Proof.
  apply (failed_realloc_breaks (mkBinaryBuffer (Some (1, [None; None])) 2 0 0 8)
           [Some 1; Some 2; Some 3] [Some 1]); simpl; unfold ULONG_MAX, blen; simpl; try lia.
  split; simpl; unfold ULONG_MAX; try done; unfold blen; simpl; lia.
Defined.

(** ** Replacing *)

(** The cells after a replacement inside the capacity. *)
Lemma splice_replace (c : list cell) index old m data :
  0 <= index -> 0 <= old -> 0 <= m -> index + old + m <= blen c -> index + blen data + m <= blen c ->
  take (Z.to_nat (index + blen data + m))
    (splice (splice c (index + blen data) (slice c (index + old) m)) index data)
  = take (Z.to_nat index) c ++ data ++ slice c (index + old) m.
Proof.
  intros Hi Ho Hm H1 H2. pose proof (blen_nonneg data).
  pose proof (blen_slice c (index + old) m ltac:(lia) ltac:(lia) ltac:(lia)) as Hs.
  set (c' := splice c (index + blen data) (slice c (index + old) m)).
  assert (Hc' : blen c' = blen c) by (unfold c'; rewrite blen_splice; lia).
  replace (index + blen data + m) with (index + blen (data ++ slice c (index + old) m))
    by (rewrite blen_app; lia).
  apply list_eq. intros i. unfold blen in *. rewrite length_app in *.
  destruct (decide (Z.of_nat i < index + Z.of_nat (length data + length (slice c (index + old) m)))).
  2: { rewrite lookup_take_ge by lia. symmetry. apply lookup_ge_None.
       rewrite !length_app, length_take. lia. }
  rewrite lookup_take_lt, lookup_splice by (unfold blen; lia). unfold blen. case_decide as Hin.
  - rewrite lookup_app_r by (rewrite length_take; lia). rewrite length_take, Nat.min_l by lia.
    rewrite lookup_app_l by lia. done.
  - unfold c'. rewrite lookup_splice by (unfold blen; lia). unfold blen. case_decide.
    + rewrite lookup_app_r by (rewrite length_take; lia). rewrite length_take, Nat.min_l by lia.
      rewrite lookup_app_r by lia. f_equal. lia.
    + rewrite lookup_app_l, lookup_take_lt by (rewrite ?length_take; lia). done.
Qed.

(** The first copy of a replacement. *)
Lemma replace_move b i index old n m :
  wf b -> buff b = Some (i, cells b) -> 0 <= index -> 0 <= old -> 0 <= n -> 0 <= m ->
  index + old + m <= capacity b -> index + n + m <= capacity b ->
  old < n \/ index + n + m <= index + old \/ m = 0 \/ old = n ->
  (if (old =? n) || (m =? 0) then mret tt
   else on_block (Some i) (fun cells =>
          '(cells, _) ← memcpy_safe cells (Some (index + n)) (Some (index + old)) m; Ok cells)) b
  = Ok (tt, with_cells b (splice (cells b) (index + n) (slice (cells b) (index + old) m)), []).
Proof.
  intros Hwf Hi Hx Ho Hn Hm H1 H2 Hd. pose proof (wf_block b Hwf) as Hb.
  pose proof (blen_slice (cells b) (index + old) m ltac:(lia) ltac:(lia) ltac:(lia)) as Hs.
  assert (Hid : forall d, d = cells b -> with_cells b d = b).
  { intros d ->. unfold with_cells. rewrite Hi. unfold set_buff. rewrite <- Hi. by destruct b. }
  destruct (Z.eqb_spec old n) as [->|Hne]; cbn [orb].
  { rewrite Hid; [done|]. apply list_eq. intros j. rewrite lookup_splice by lia. case_decide; [|done].
    replace (j - Z.to_nat (index + n))%nat with (Z.to_nat (Z.of_nat j - (index + n))) by lia.
    rewrite lookup_slice_in by lia. f_equal. lia. }
  destruct (Z.eqb_spec m 0) as [->|Hnz].
  { rewrite Hid; [done|]. by rewrite slice_zero, splice_nil by lia. }
  apply on_block_ok; [done..|].
  destruct (decide (old < n)).
  - by rewrite memcpy_safe_up by lia.
  - by rewrite memcpy_safe_down by lia.
Qed.

Lemma replace_in_place b k index old data :
  wf b -> 0 < capacity b -> 0 <= index -> 0 <= old -> index + old <= len b ->
  len b + blen data - old <= capacity b -> len b + blen data <= ULONG_MAX ->
  old <= blen data \/ len b - index - old <= old - blen data ->
  exists b', BinaryBuffer_replace k index old (Some data) (blen data) (Some b)
      = Ok (ALIB_OK, Some b', []) /\ wf b'
    /\ content b' = take (Z.to_nat index) (content b) ++ data
                    ++ drop (Z.to_nat (index + old)) (content b).
Proof.
  intros Hwf Hc0 Hi Ho Hil Hcap Hfit Hd. pose proof (blen_nonneg data).
  pose proof Hwf as [Hb _ Hl Hc _]. unfold ULONG_MAX in *.
  destruct (wf_cells b Hwf Hc0) as [i Hbi]. set (n := blen data) in *.
  set (m := len b - index - old). set (c1 := splice (cells b) (index + n) (slice (cells b) (index + old) m)).
  pose proof (blen_slice (cells b) (index + old) m) as Hs.
  assert (Hc1 : blen c1 = capacity b) by (unfold c1; rewrite blen_splice; lia).
  pose proof (replace_move b i index old n m Hwf Hbi ltac:(lia) ltac:(lia) ltac:(lia) ltac:(lia)
    ltac:(lia) ltac:(lia) ltac:(lia)) as Hmove. fold c1 in Hmove.
  set (b1 := with_cells b c1) in *.
  assert (Hb1 : b1 = set_len (len b) b1) by (unfold b1, with_cells; rewrite Hbi; done).
  assert (Hw1 : wf b1) by (rewrite Hb1; apply with_cells_wf; done || lia).
  assert (Hcells1 : cells b1 = c1) by (rewrite Hb1; by apply cells_with_cells).
  assert (Hbi1 : buff b1 = Some (i, cells b1)) by (unfold b1, with_cells; by rewrite Hbi).
  assert (Hcap1 : capacity b1 = capacity b) by (unfold b1, with_cells; by rewrite Hbi).
  set (c2 := splice c1 index data).
  assert (Hc2 : blen c2 = capacity b1) by (unfold c2; rewrite blen_splice; fold n; lia).
  assert (Hlast : (if n =? 0 then mret tt
     else data0 ← lift (deref (Some data)); on_block (Some i) (fun cells => blk_copy cells index data0 0 n)) b1
     = Ok (tt, with_cells b1 c2, [])).
  { destruct (Z.eqb_spec n 0) as [e|].
    - assert (data = []) as Hdata by (destruct data; [done|]; unfold n in e; rewrite blen_cons in e;
        pose proof (blen_nonneg data); lia).
      unfold c2. rewrite Hdata, splice_nil by lia. unfold with_cells. rewrite Hbi1.
      unfold set_buff. rewrite <- Hcells1, <- Hbi1. by destruct b1.
    - rewrite (bind_quiet _ _ _ data b1) by done. apply on_block_ok; [done..|].
      rewrite Hcells1, blk_copy_ok by (fold n; lia). unfold n. by rewrite slice_all. }
  exists (set_len (len b + n - old) (with_cells b1 c2)). split; [|split; [apply with_cells_wf; done || lia|]].
  - unfold BinaryBuffer_replace. apply on_obj_Ok. rewrite !bind_gets.
    rewrite Z.gtb_ltb, (proj2 (Z.ltb_ge _ _)) by lia.
    rewrite (bind_quiet _ _ _ _ _ (pointer_ok b i index Hbi)).
    rewrite (u64_small (len b + n)), (u64_small (len b + n - old)) by lia.
    rewrite (proj2 (Z.ltb_ge (capacity b) _)) by lia.
    rewrite (bind_quiet _ _ _ ALIB_OK b) by done. cbn [negb Z.eqb ALIB_OK].
    rewrite (u64_small (len b - index)), (u64_small (len b - index - old)) by lia. fold m.
    rewrite (bind_quiet _ _ _ _ _ Hmove), (bind_quiet _ _ _ _ _ Hlast), bind_modify.
    unfold mret, M_ret. do 4 f_equal.
    destruct (decide (old <= n)).
    + rewrite (u64_small (n - old)), u64_small by lia. lia.
    + assert (u64 (n - old) = n - old + 2 ^ 64) as ->.
      { unfold u64. rewrite <- (Z_mod_plus_full _ 1), Z.mod_small; lia. }
      rewrite u64_wrap by lia. lia.
  - rewrite content_with_cells by done. replace (len b + n - old) with (index + n + m) by lia.
    unfold c2, c1. unfold n. rewrite splice_replace by (fold n; lia).
    f_equal; [unfold content; rewrite take_take; f_equal; lia|]. f_equal.
    rewrite slice_content by (done || lia). unfold slice. apply firstn_all2.
    pose proof (blen_content b Hwf). unfold blen in *. rewrite length_drop. lia.
Qed.

Lemma on_block_dangling b i j f : buff b = Some (j, cells b) -> i <> j -> on_block (Some i) f b = UB Dangling.
Proof.
  intros Hj Hne. unfold on_block. rewrite bind_gets, Hj.
  rewrite (bind_quiet _ _ _ (j, cells b) b) by done.
  rewrite (bind_quiet _ _ _ i b) by done. by rewrite (proj2 (Z.eqb_neq _ _)).
Qed.

(** Expanding past the capacity leaves the block [realloc] returned. *)
Lemma expand_moves b k target :
  wf b -> capacity b < target <= ULONG_MAX ->
  exists b', BinaryBuffer_expand_to_target (Some k) target (Some b) = Ok (ALIB_OK, Some b', [])
    /\ buff b' = Some (k, cells b').
Proof.
  intros Hwf Ht. pose proof Hwf as [_ _ Hl _ _].
  destruct (expand_loop_ok b target Hwf ltac:(lia)) as (n & Hloop & Hn & Htn).
  eexists. split.
  - unfold BinaryBuffer_expand_to_target. apply on_obj_Ok. rewrite bind_gets. change (id b) with b.
    rewrite (bind_quiet _ _ _ n b) by (unfold lift; by rewrite Hloop).
    unfold BinaryBuffer_resize. rewrite here_on_obj, bind_gets.
    unfold BinaryBuffer_hard_resize. rewrite here_on_obj, !bind_gets.
    rewrite (proj2 (Z.eqb_neq _ _)) by (case_cmp; lia).
    rewrite (proj2 (Z.eqb_neq _ 0)) by (case_cmp; lia).
    rewrite !bind_modify. rewrite Z.gtb_ltb, (proj2 (Z.ltb_ge _ _)) by (case_cmp; lia). done.
  - done.
Qed.

(** [BinaryBuffer_replace] keeps the bytes around the range when the result
    fits the capacity (and, shrinking, the bytes behind the range are not
    longer than the gap); when the block has to move, the pointer computed
    before the move is used after it. *)
Theorem replace_spec (b : BinaryBuffer) (k index old : Z) (data : list cell) :
  wf b -> 0 < capacity b -> 0 <= index -> 0 <= old -> index + old <= len b ->
  len b + blen data <= ULONG_MAX ->
  (len b + blen data - old <= capacity b ->
   old <= blen data \/ len b - index - old <= old - blen data ->
   exists b', BinaryBuffer_replace (Some k) index old (Some data) (blen data) (Some b)
       = Ok (ALIB_OK, Some b', []) /\ wf b'
     /\ content b' = take (Z.to_nat index) (content b) ++ data
                     ++ drop (Z.to_nat (index + old)) (content b))
  /\ (capacity b < len b + blen data - old -> (forall c, buff b <> Some (k, c)) ->
      BinaryBuffer_replace (Some k) index old (Some data) (blen data) (Some b) = UB Dangling).
Proof.
  intros Hwf Hc0 Hi Ho Hil Hfit. split; [intros; by apply replace_in_place|].
  intros Hbig Hmove. pose proof (blen_nonneg data). pose proof Hwf as [Hb _ Hl Hc _].
  unfold ULONG_MAX in *. destruct (wf_cells b Hwf Hc0) as [i Hbi].
  destruct (expand_moves b k (len b + blen data - old) Hwf) as (b' & E & Hb'); [unfold ULONG_MAX; lia|].
  assert (Hne : i <> k) by (intros ->; by apply (Hmove (cells b))).
  unfold BinaryBuffer_replace, on_obj. rewrite !bind_gets.
  rewrite Z.gtb_ltb, (proj2 (Z.ltb_ge _ _)) by lia.
  rewrite (bind_quiet _ _ _ _ _ (pointer_ok b i index Hbi)).
  rewrite (u64_small (len b + blen data)), (u64_small (len b + blen data - old)) by lia.
  rewrite (proj2 (Z.ltb_lt (capacity b) _)) by lia.
  rewrite (bind_quiet _ _ _ _ _ (here_Some _ _ _ _ _ E)). cbn [negb Z.eqb ALIB_OK].
  destruct ((old =? blen data) || _).
  - rewrite (bind_quiet _ _ _ tt b') by done. rewrite (proj2 (Z.eqb_neq (blen data) 0)) by lia.
    rewrite bind_bind, (bind_quiet _ _ _ data b') by done.
    rewrite (bind_UB _ _ _ Dangling); [done|]. by apply on_block_dangling with k.
  - rewrite (bind_UB _ _ _ Dangling); [done|]. by apply on_block_dangling with k.
Qed.

Lemma replace_spec_witness :
  let b := mkBinaryBuffer (Some (1, [Some 1; Some 2; Some 3; Some 4; None])) 5 4 0 8 in
  (exists b', BinaryBuffer_replace (Some 2) 1 1 (Some [Some 7; Some 8]) 2 (Some b)
      = Ok (ALIB_OK, Some b', []) /\ wf b'
      /\ content b' = [Some 1; Some 7; Some 8; Some 3; Some 4])
  /\ BinaryBuffer_replace (Some 2) 1 1 (Some [Some 7; Some 8; Some 9]) 3 (Some b) = UB Dangling.
Proof.
  assert (Hwf : wf (mkBinaryBuffer (Some (1, [Some 1; Some 2; Some 3; Some 4; None])) 5 4 0 8)).
  { split; simpl; unfold ULONG_MAX; try done; unfold blen; simpl; lia. }
  split.
  - apply (replace_spec _ 2 1 1 [Some 7; Some 8] Hwf); simpl; unfold ULONG_MAX, blen; simpl; lia.
  - apply (replace_spec _ 2 1 1 [Some 7; Some 8; Some 9] Hwf); simpl; unfold ULONG_MAX, blen; simpl;
      try lia. intros c [=].
Defined.
