(* ===== verification/ByteBuffer.v ===== *)
(** What a growing byte buffer promises to its clients: the operations
    [ComDataCheck] uses, and their laws in terms of the bytes held.
    [BinaryBuffer] is the implementation, and its lemmas discharge the laws. *)
From S2P Require Import Prelude Memory Effects BinaryBuffer.

Class ByteBuffer (B : Type) := {
  bb_append : option Z -> option (list cell) -> Z -> M (option B) Z;
  bb_remove : Z -> Z -> M (option B) Z;
  bb_clear : M (option B) unit;
  bb_clear_no_resize : M (option B) unit;
  bb_extract_buffer : M (option B) (option (Z * list cell));
  bb_get_raw_buff : M (option B) (option (Z * list cell));
  bb_get_length : M (option B) Z;

  valid : B -> Prop;
  bytes : B -> list cell;

  bytes_bound : forall b, valid b -> blen (bytes b) <= ULONG_MAX;
  length_law : forall b, valid b -> bb_get_length (Some b) = Ok (blen (bytes b), Some b, []);
  raw_any_law : forall b, valid b -> exists r, bb_get_raw_buff (Some b) = Ok (r, Some b, []);
  raw_law : forall b, valid b -> bytes b <> [] -> exists i rest,
    bb_get_raw_buff (Some b) = Ok (Some (i, bytes b ++ rest), Some b, []);
  append_law : forall b k data n, valid b -> 0 <= n <= blen data -> blen (bytes b) + n <= ULONG_MAX ->
    exists b', bb_append (Some k) (Some data) n (Some b) = Ok (ALIB_OK, Some b', [])
      /\ valid b' /\ bytes b' = bytes b ++ slice data 0 n;
  append_null_law : forall b k n, bb_append k None n (Some b) = Ok (ALIB_BAD_ARG, Some b, []);
  remove_tail_law : forall b x, valid b -> 0 <= x <= blen (bytes b) -> bytes b <> [] ->
    exists b', bb_remove x (blen (bytes b)) (Some b) = Ok (ALIB_OK, Some b', [])
      /\ valid b' /\ bytes b' = take (Z.to_nat x) (bytes b);
  clear_law : forall b, valid b -> exists b',
    bb_clear (Some b) = Ok (tt, Some b', []) /\ valid b' /\ bytes b' = [];
  clear_no_resize_law : forall b, valid b -> exists b',
    bb_clear_no_resize (Some b) = Ok (tt, Some b', []) /\ valid b' /\ bytes b' = [];
  extract_law : forall b, valid b -> bytes b <> [] -> exists b' i rest,
    bb_extract_buffer (Some b) = Ok (Some (i, bytes b ++ rest), Some b', [])
      /\ valid b' /\ bytes b' = []
}.

Lemma raw_block b : wf b -> content b <> [] ->
  exists i, buff b = Some (i, content b ++ drop (Z.to_nat (len b)) (cells b)).
Proof.
  intros Hw Hne. destruct (wf_cells b Hw) as [i Hi].
  - pose proof (wf_len b Hw). pose proof (blen_content b Hw) as Hb.
    destruct (content b); [done|]. rewrite blen_cons in Hb. pose proof (blen_nonneg l). lia.
  - exists i. rewrite Hi. unfold content. by rewrite take_drop.
Qed.

#[export, refine] Instance binary_buffer : ByteBuffer BinaryBuffer := {|
  bb_append := BinaryBuffer_append; bb_remove := BinaryBuffer_remove;
  bb_clear := BinaryBuffer_clear; bb_clear_no_resize := BinaryBuffer_clear_no_resize;
  bb_extract_buffer := BinaryBuffer_extract_buffer;
  bb_get_raw_buff := BinaryBuffer_get_raw_buff; bb_get_length := BinaryBuffer_get_length;
  valid := wf; bytes := content |}.
Proof.
  - intros b Hw. rewrite blen_content by done. pose proof (wf_len b Hw). pose proof (wf_capacity b Hw). lia.
  - intros b Hw. by rewrite blen_content by done.
  - intros b _. by eexists.
  - intros b Hw Hne. destruct (raw_block b Hw Hne) as [i Hi]. eexists i, _.
    unfold BinaryBuffer_get_raw_buff. mstep. by rewrite Hi.
  - intros b k data n Hw Hn Hfit. rewrite blen_content in Hfit by done.
    destruct (append_count_ok b k data n Hw Hn Hfit) as (b' & ? & ? & _ & ?). by exists b'.
  - done.
  - intros b x Hw Hx Hne. rewrite blen_content in * by done.
    assert (0 < len b).
    { rewrite <- (blen_content b Hw). destruct (content b); [done|]. rewrite blen_cons.
      pose proof (blen_nonneg l). lia. }
    destruct (remove_tail b x (len b) Hw) as [E Hc]; [lia..|].
    exists (set_len x b). split; [done|split; [|done]].
    destruct Hw as [H1 H2 H3 H4 H5]. split; simpl; done || lia.
  - intros b Hw. destruct (bb_clear_ok b Hw) as (b' & ? & ? & _ & ?). by exists b'.
  - intros b Hw. exists (set_len 0 b). split; [done|split; [|done]].
    destruct Hw as [H1 H2 H3 H4 H5]. split; simpl; done || lia.
  - intros b Hw Hne. destruct (raw_block b Hw Hne) as [i Hi].
    exists (set_len 0 (set_capacity 0 (set_buff None b))), i, (drop (Z.to_nat (len b)) (cells b)).
    split; [unfold BinaryBuffer_extract_buffer; mstep; by rewrite Hi|split; [|done]].
    destruct Hw as [H1 H2 H3 H4 H5]. split; simpl; unfold ULONG_MAX; done || lia.
Defined.
