(* ===== verification/ComDataCheck.v ===== *)
(** Message framing, [source/ComDataCheck.c]: a message is sent as its length,
    four bytes in network order, followed by its bytes, and is put together
    again from the chunks that [recv] delivers.  The buffers are used through
    the [ByteBuffer] interface.  [ks] gives the outcome of each allocation an
    append may make, by the depth of the call and the place in the code. *)
From S2P Require Import Prelude Memory Effects BinaryBuffer ByteBuffer.

Inductive ComDataCheck_RVal := CDC_LEN_ERR | CDC_COMPLETE | CDC_WAITING | CDC_DATA_REMAINING.
Definition code (r : ComDataCheck_RVal) : Z :=
  match r with
  | CDC_LEN_ERR => ALIB_OBJ_CORRUPTION | CDC_COMPLETE => 0
  | CDC_WAITING => 1 | CDC_DATA_REMAINING => 2
  end.
Definition DEFAULT_INPUT_BUFF_SIZE : Z := 64 * 1024.

(** Conversion to the signed type [char]. *)
Definition s8 (z : Z) : Z := let m := z mod 2 ^ 8 in if m <? 2 ^ 7 then m else m - 2 ^ 8.

Inductive site := Unread | Header | Data | Keep.
Notation allocs := (nat -> site -> option Z).

(** The 32-bit value whose bytes in memory, in network order, are [a b c d]. *)
Definition be32 (a b c d : Z) : Z := ((a * 256 + b) * 256 + c) * 256 + d.
(** [ntohl] of the [int32_t] at a pointer, as an [int32_t]. *)
Definition load_be32 (p : list cell) : res Z :=
  c ← blk_read p 0 4;
  match c with
  | [Some a; Some b; Some c; Some d] => Ok (s32 (be32 a b c d))
  | _ => UB Indeterminate
  end.
(** The bytes of [htonl(v)]. *)
Definition store_be32 (v : Z) : list cell :=
  Some <$> [v / 2 ^ 24 mod 256; v / 2 ^ 16 mod 256; v / 2 ^ 8 mod 256; v mod 256].

Section object.
Context {B : Type} `{ByteBuffer B}.

Record ComDataCheck := mkCDC {
  data_len : Z; buff : option B; unread_buff : option B; input : Z;
  extended_data : ptr; free_extended_data : bool }.
Definition set_data_len n (c : ComDataCheck) :=
  mkCDC n (buff c) (unread_buff c) (input c) (extended_data c) (free_extended_data c).
Definition set_buff b (c : ComDataCheck) :=
  mkCDC (data_len c) b (unread_buff c) (input c) (extended_data c) (free_extended_data c).
Definition set_unread b (c : ComDataCheck) :=
  mkCDC (data_len c) (buff c) b (input c) (extended_data c) (free_extended_data c).
Definition set_input i (c : ComDataCheck) :=
  mkCDC (data_len c) (buff c) (unread_buff c) i (extended_data c) (free_extended_data c).
Definition set_extended p f (c : ComDataCheck) :=
  mkCDC (data_len c) (buff c) (unread_buff c) (input c) p f.

(** A call on one of the object's buffers. *)
Definition on_buff {A} (m : M (option B) A) : M ComDataCheck A := fun c =>
  '(a, b, t) ← m (buff c); Ok (a, set_buff b c, t).
Definition on_unread {A} (m : M (option B) A) : M ComDataCheck A := fun c =>
  '(a, b, t) ← m (unread_buff c); Ok (a, set_unread b c, t).

(** [buff_len < data_len] compares in [size_t]. *)
Definition ComDataCheck_check (k : option Z) : M (option ComDataCheck) Z :=
  on_obj ALIB_BAD_ARG (
    i ← gets input;
    if i =? 0 then mret (code CDC_COMPLETE) else
    buff_len ← on_buff bb_get_length; n ← gets data_len;
    if buff_len <? u64 n then mret (code CDC_WAITING)
    else if buff_len =? u64 n then mret (code CDC_COMPLETE)
    else raw ← on_buff bb_get_raw_buff; '(_, c) ← lift (deref raw);
         on_unread (bb_append k (Some (drop (Z.to_nat (u64 n)) c)) (u64 (buff_len - u64 n)));;
         on_buff (bb_remove (u64 n) buff_len);;
         mret (code CDC_DATA_REMAINING)).

(** The part of [ComDataCheck_append] after the unread data was dealt with. *)
Definition append_input (k : site -> option Z) (data : list cell) (len : Z) : M ComDataCheck Z :=
  n ← gets data_len;
  if n =? 0 then
    held ← on_buff bb_get_length;
    if 4 <? u64 (len + held) then
      (if negb (held =? 0) then
         let data_len_diff := s8 (4 - held) in
         err ← on_buff (bb_append (k Header) (Some data) (u64 data_len_diff));
         if negb (err =? 0) then mret err else
         raw ← on_buff bb_get_raw_buff; '(_, c) ← lift (deref raw);
         v ← lift (load_be32 c); modify (set_data_len v);;
         on_buff bb_clear_no_resize;;
         err ← on_buff (bb_append (k Data) (Some (drop (Z.to_nat data_len_diff) data))
                          (u64 (len - data_len_diff)));
         if negb (err =? 0) then mret err else here (ComDataCheck_check (k Unread))
       else
         v ← lift (load_be32 data); modify (set_data_len v);;
         err ← on_buff (bb_append (k Data) (Some (drop 4 data)) (u64 (len - 4)));
         if negb (err =? 0) then mret err else here (ComDataCheck_check (k Unread)))
    else
      err ← on_buff (bb_append (k Data) (Some data) len);
      mret (if negb (err =? 0) then err else code CDC_WAITING)
  else
    err ← on_buff (bb_append (k Data) (Some data) len);
    if negb (err =? 0) then mret err else here (ComDataCheck_check (k Unread)).
Definition append_output (k : site -> option Z) (data : list cell) (len : Z) : M ComDataCheck Z :=
  err ← on_buff (bb_append (k Data) (Some data) len);
  if negb (err =? 0) then mret err else
  n ← on_buff bb_get_length;
  if n >? INT32_MAX then mret ALIB_INTERNAL_MAX_REACHED
  else modify (set_data_len (s32 n));; mret (code CDC_COMPLETE).

(** [ComDataCheck_process_buffered_data] passes the extracted buffer to
    [ComDataCheck_append], which has no unread data left then; so the two
    functions nest at most twice, and the fuel bounds the nesting. *)
Definition process_with (append : option (list cell) -> Z -> M (option ComDataCheck) Z)
    : M (option ComDataCheck) Z :=
  o ← on_obj None (
        n ← on_unread bb_get_length; raw ← on_unread bb_extract_buffer; mret (Some (snd <$> raw, n)));
  match o with None => mret ALIB_BAD_ARG | Some (raw, n) => append raw n end.
Fixpoint append_at (depth : nat) (ks : allocs) (data : option (list cell)) (len : Z)
    : M (option ComDataCheck) Z :=
  match depth with
  | O => lift Diverges
  | S d => on_obj ALIB_BAD_ARG (
      pending ← on_unread bb_get_length;
      done ← (if negb (pending =? 0) then
                err ← here (process_with (append_at d ks));
                if (err =? code CDC_COMPLETE) || (err =? code CDC_DATA_REMAINING) then
                  on_unread (bb_append (ks d Keep) data len);;
                  mret (Some (if negb (len =? 0) then code CDC_DATA_REMAINING else err))
                else mret None
              else mret None);
      match done with
      | Some r => mret r
      | None =>
          match data with
          | None => here (ComDataCheck_check (ks d Unread))
          | Some bytes =>
              if len =? 0 then here (ComDataCheck_check (ks d Unread)) else
              i ← gets input;
              if negb (i =? 0) then append_input (ks d) bytes len
              else append_output (ks d) bytes len
          end
      end)
  end.
Definition ComDataCheck_append : allocs -> option (list cell) -> Z -> M (option ComDataCheck) Z :=
  append_at 2.
Definition ComDataCheck_process_buffered_data (ks : allocs) : M (option ComDataCheck) Z :=
  process_with (ComDataCheck_append ks).

Definition ComDataCheck_clear : M (option ComDataCheck) unit :=
  on_obj tt (modify (set_data_len 0);; on_buff bb_clear).

(** [send] gives the result of each call of [send(2)]; the second result of the
    function are the bytes passed to the calls made. *)
Definition ComDataCheck_send (send : list cell -> Z) (sock : Z)
    : M (option ComDataCheck) (Z * list (list cell)) :=
  on_obj (ALIB_BAD_ARG, []) (
    if sock <=? 0 then mret (ALIB_BAD_ARG, []) else
    n ← on_buff bb_get_length;
    let header := store_be32 (s32 n mod 2 ^ 32) in
    if negb (send header =? 4) then mret (ALIB_FILE_WRITE_ERR, [header]) else
    raw ← on_buff bb_get_raw_buff;
    data ← (if n =? 0 then mret [] else '(_, c) ← lift (deref raw); lift (blk_read c 0 n));
    if negb (u64 (send data) =? n) then mret (ALIB_FILE_WRITE_ERR, [header; data])
    else mret (ALIB_OK, [header; data])).

(** [recvs]: for each call of [recv(2)] its result and the bytes it stores at
    the beginning of the buffer; [recv_len] is a [size_t]. *)
Definition input_buffer (received : list cell) : list cell :=
  received ++ replicate (Z.to_nat (DEFAULT_INPUT_BUFF_SIZE - blen received)) None.
Fixpoint recv_loop (ks : nat -> allocs) (recvs : list (Z * list cell)) (rval : option Z)
    : M (option ComDataCheck) Z :=
  match recvs with
  | [] => lift Diverges
  | (n, received) :: recvs =>
      if u64 n =? 0 then
        lift (match rval with Some r => Ok r | None => UB Indeterminate end)
      else
        r ← ComDataCheck_append (ks (length recvs)) (Some (input_buffer received)) (u64 n);
        if r =? code CDC_WAITING then recv_loop ks recvs (Some r) else mret r
  end.
Definition ComDataCheck_recv (ks : nat -> allocs) (recvs : list (Z * list cell)) (sock : Z)
    : M (option ComDataCheck) Z := fun o =>
  match o with
  | None => Ok (ALIB_BAD_ARG, None, [])
  | Some c => if (sock <=? 0) || (input c =? 0) then Ok (ALIB_BAD_ARG, o, [])
              else recv_loop ks recvs None o
  end.
(** [set_timeout]: whether [set_sock_recv_timeout] reports an error. *)
Definition ComDataCheck_recv_timeout (ks : nat -> allocs) (recvs : list (Z * list cell))
    (set_timeout : bool) (sock : Z) : M (option ComDataCheck) Z :=
  if set_timeout then mret ALIB_FILE_ERR else
  err ← ComDataCheck_recv ks recvs sock;
  mret (if err =? code CDC_WAITING then ALIB_TIMEOUT else err).

Definition ComDataCheck_get_buffer : M (option ComDataCheck) (option B) := no_guard (gets buff).
Definition ComDataCheck_get_expected_len : M (option ComDataCheck) Z := no_guard (gets data_len).
Definition ComDataCheck_get_extended_data : M (option ComDataCheck) ptr :=
  no_guard (gets extended_data).
Definition ComDataCheck_set_mode (input_ : Z) : M (option ComDataCheck) unit :=
  on_obj tt (
    i ← gets input;
    if i =? input_ then mret tt else
    modify (set_input input_);;
    if negb (input_ =? 0) then modify (set_data_len 0)
    else n ← on_buff bb_get_length; modify (set_data_len (s32 n))).
Definition drop_extended : M ComDataCheck unit :=
  p ← gets extended_data; f ← gets free_extended_data;
  when (negb (p =? NULL) && f) (emit (EvFree p)).
Definition ComDataCheck_set_extended_data (p : ptr) (f : bool) : M (option ComDataCheck) unit :=
  on_obj tt (drop_extended;; modify (set_extended p f)).

(** The buffers are deleted; the trace has the call of the free callback. *)
Definition freeComDataCheck (o : option ComDataCheck) : res (list event) :=
  match o with
  | None => Ok []
  | Some c => '(_, _, t) ← drop_extended c; Ok t
  end.
Definition delComDataCheck (o : option (option ComDataCheck))
    : res (option (option ComDataCheck) * list event) :=
  match o with None => Ok (None, []) | Some c => t ← freeComDataCheck c; Ok (Some None, t) end.
(** [b1], [b2]: what the two calls of [newBinaryBuffer] return. *)
Definition newComDataCheck (ok : bool) (b1 b2 : option B) (input_ : Z) : res (option ComDataCheck) :=
  if negb ok then Ok None else
  let c := Some (mkCDC 0 b1 b2 input_ NULL false) in
  match b1, b2 with
  | Some _, Some _ => Ok c
  | _, _ => '(o, _) ← delComDataCheck (Some c); deref o
  end.
End object.
Arguments ComDataCheck : clear implicits.
