(* ===== verification/AlibTime.v ===== *)
(** Time values ([source/alib_time.c]) and the timer on top of them
    ([source/Timer.c]).

    A [timespec] stands for its total number of nanoseconds ([total]).  The
    clock readings of the timer are arguments, [None] for a failed
    [clock_gettime]. *)
From S2P Require Import Prelude.

Record timespec := mkTimespec { tv_sec : Z; tv_nsec : Z }.

#[export] Instance timespec_eq_dec : EqDecision timespec.
Proof. solve_decision. Defined.

Definition NANOS_PER_SECOND : Z := 1000 * (1000 * 1000).

(** * [alib_time.c] *)
Definition timespec_fix_values_fast (t : timespec) : res timespec :=
  '(sec, nsec) ← (if (tv_nsec t >? NANOS_PER_SECOND) || (tv_nsec t <? - NANOS_PER_SECOND)
                  then s ← slong (tv_sec t + Z.quot (tv_nsec t) NANOS_PER_SECOND);
                       Ok (s, Z.rem (tv_nsec t) NANOS_PER_SECOND)
                  else Ok (tv_sec t, tv_nsec t));
  if (nsec <? 0) && (sec >? 0)
  then s ← slong (sec - 1); n ← slong (nsec + NANOS_PER_SECOND); Ok (mkTimespec s n)
  else if (nsec >? 0) && (sec <? 0)
  then s ← slong (sec + 1); n ← slong (nsec - NANOS_PER_SECOND); Ok (mkTimespec s n)
  else Ok (mkTimespec sec nsec).

Definition timespec_fix_values (t : timespec) : res (Z * timespec) :=
  t ← timespec_fix_values_fast t;
  if ((tv_sec t <? 0) && (tv_nsec t >? 0)) || ((tv_sec t >? 0) && (tv_nsec t <? 0))
  then Ok (ALIB_OBJ_CORRUPTION, t) else Ok (ALIB_OK, t).

Definition timespec_cmp_fast (a b : timespec) : Z :=
  if tv_sec a >? tv_sec b then 1
  else if tv_sec a =? tv_sec b
  then if tv_nsec a >? tv_nsec b then 1 else if tv_nsec a =? tv_nsec b then 0 else -1
  else -1.

Definition timespec_cmp (a b : timespec) : res Z :=
  '(_, a) ← timespec_fix_values a; '(_, b) ← timespec_fix_values b; Ok (timespec_cmp_fast a b).

(** The new contents of [diff]; it may alias an operand, whose members are
    read before the same member is written. *)
Definition timespec_subtract (a b : timespec) : res timespec :=
  s ← slong (tv_sec a - tv_sec b); n ← slong (tv_nsec a - tv_nsec b);
  timespec_fix_values_fast (mkTimespec s n).
Definition timespec_add (a b : timespec) : res timespec :=
  s ← slong (tv_sec a + tv_sec b); n ← slong (tv_nsec a + tv_nsec b);
  timespec_fix_values_fast (mkTimespec s n).
Definition timespec_init (sec nsec : Z) : res (Z * timespec) :=
  timespec_fix_values (mkTimespec sec nsec).

(** * [Timer.c] *)
Record Timer := mkTimer { rang : Z; run_time : timespec; end_time : timespec }.

Definition Timer_begin (clock : option timespec) (t : option Timer) : res (option Timer) :=
  match t with
  | None => Ok None
  | Some t =>
      let now := default (end_time t) clock in
      e ← timespec_add (run_time t) now; Ok (Some (mkTimer 0 (run_time t) e))
  end.

Definition Timer_begin_before (clock : option timespec) (interval : option timespec)
    (t : option Timer) : res (option Timer) :=
  match t with
  | None => Ok None
  | Some _ =>
      t ← Timer_begin clock t; t ← deref t; i ← deref interval;
      e ← timespec_subtract (end_time t) i; Ok (Some (mkTimer (rang t) (run_time t) e))
  end.

(** [rTime], [oTime]: whether the caller asks for them; the values written to
    them ([None] when nothing is written). *)
Definition Timer_get_time_status (clock : option timespec) (rTime oTime : bool) (t : option Timer)
    : res (Z * option timespec * option timespec * option Timer) :=
  match t with
  | None => Ok (ALIB_BAD_ARG, None, None, None)
  | Some t =>
      match clock with
      | None => Ok (ALIB_CHECK_ERRNO, None, None, Some t)
      | Some now =>
          d ← timespec_subtract (end_time t) now;
          '(_, d) ← timespec_fix_values d;
          let zero := mkTimespec 0 0 in
          if (tv_nsec d <=? 0) && (tv_sec d <=? 0)
          then s ← slong (- tv_sec d); n ← slong (- tv_nsec d);
               Ok (ALIB_OK, if rTime then Some zero else None,
                   if oTime then Some (mkTimespec s n) else None,
                   Some (mkTimer 1 (run_time t) (end_time t)))
          else if (tv_sec d >=? 0) && (tv_nsec d >=? 0)
          then Ok (ALIB_OK, if rTime then Some d else None, if oTime then Some zero else None, Some t)
          else Ok (ALIB_UNKNOWN_ERR, None, None, Some t)
      end
  end.

Definition Timer_check (clock : option timespec) (t : option Timer) : res (Z * option Timer) :=
  match t with
  | None => Ok (ALIB_BAD_ARG, None)
  | Some tm =>
      if negb (rang tm =? 0) then Ok (rang tm, t)
      else '(err, _, _, t) ← Timer_get_time_status clock false false t;
           if negb (err =? 0) then Ok (err, t)
           else tm ← deref t; Ok (rang tm, t)
  end.

Definition Timer_get_end_time (t : option Timer) : res timespec := t ← deref t; Ok (end_time t).
(** [mono], [real]: the readings of the two clocks. *)
Definition Timer_get_end_time_real_time (mono real : timespec) (t : option Timer) : res timespec :=
  match t with
  | None => Ok (mkTimespec 0 0)
  | Some t => d ← timespec_subtract (end_time t) mono; timespec_add real d
  end.
Definition Timer_get_run_time (t : option Timer) : res timespec := t ← deref t; Ok (run_time t).
Definition Timer_get_rung_state (t : option Timer) : res Z := t ← deref t; Ok (rang t).

Definition Timer_set_run_time (runtime_sec runtime_nsec : Z) (t : option Timer) : res (option Timer) :=
  t ← deref t;
  '(_, r) ← timespec_init (s64 runtime_sec) (s64 runtime_nsec);
  Ok (Some (mkTimer (rang t) r (end_time t))).

(** [ok]: the allocation succeeds; [o]: the memory it returns. *)
Definition newTimer (ok : bool) (o : Timer) (runtime_sec runtime_nsec : Z) : res (option Timer) :=
  if (runtime_sec =? 0) && (runtime_nsec =? 0) then Ok None
  else if negb ok then Ok None
  else t ← Timer_set_run_time runtime_sec runtime_nsec (Some o);
       t ← deref t; Ok (Some (mkTimer 1 (run_time t) (mkTimespec 0 0))).
Definition delTimer (t : option (option Timer)) : option (option Timer) :=
  match t with None => None | Some _ => Some None end.

(** * Total nanoseconds *)
Definition total (t : timespec) : Z := tv_sec t * NANOS_PER_SECOND + tv_nsec t.

(** Seconds and nanoseconds of the same sign, less than a second of the
    latter: the one representation of a total. *)
Definition fixed (t : timespec) : Prop :=
  - NANOS_PER_SECOND < tv_nsec t < NANOS_PER_SECOND
  /\ (0 < tv_sec t -> 0 <= tv_nsec t) /\ (tv_sec t < 0 -> tv_nsec t <= 0).

(** Values whose sums and differences stay in [long]. *)
Definition moderate (t : timespec) : Prop :=
  - 2 ^ 60 <= tv_sec t <= 2 ^ 60 /\ - 2 ^ 60 <= tv_nsec t <= 2 ^ 60.

Lemma fixed_compare a b :
  fixed a -> fixed b ->
  timespec_cmp_fast a b = match total a ?= total b with Gt => 1 | Eq => 0 | Lt => -1 end.
Proof.
  unfold fixed, total, timespec_cmp_fast, NANOS_PER_SECOND. intros (?&?&?) (?&?&?).
  destruct (Z.compare_spec (tv_sec a * (1000 * (1000 * 1000)) + tv_nsec a)
              (tv_sec b * (1000 * (1000 * 1000)) + tv_nsec b));
    repeat (case_cmp; try lia).
Qed.

(** The general bound on what [timespec_fix_values_fast] returns. *)
Lemma fix_fast_ok t :
  - 2 ^ 62 <= tv_sec t <= 2 ^ 62 -> - 2 ^ 62 <= tv_nsec t <= 2 ^ 62 ->
  exists t', timespec_fix_values_fast t = Ok t' /\ total t' = total t
    /\ - NANOS_PER_SECOND <= tv_nsec t' <= NANOS_PER_SECOND
    /\ (0 < tv_sec t' -> 0 <= tv_nsec t') /\ (tv_sec t' < 0 -> tv_nsec t' <= 0)
    /\ (tv_nsec t <> NANOS_PER_SECOND -> tv_nsec t <> - NANOS_PER_SECOND -> fixed t')
    /\ - 2 ^ 63 < tv_sec t' < 2 ^ 63.
Proof.
  intros Hs Hn. unfold timespec_fix_values_fast, total, fixed.
  set (N := NANOS_PER_SECOND). assert (HN : N = 1000000000) by done. clearbody N. subst N.
  pose proof (Z.quot_rem' (tv_nsec t) 1000000000) as Hq.
  pose proof (Z.rem_bound_abs (tv_nsec t) 1000000000 ltac:(lia)) as Hr.
  pose proof (Z.rem_sign_mul (tv_nsec t) 1000000000 ltac:(lia)) as Hsg.
  set (q := Z.quot _ _) in *. set (r := Z.rem _ _) in *. clearbody q r.
  destruct ((tv_nsec t >? 1000000000) || (tv_nsec t <? - 1000000000)) eqn:E.
  - assert (Hbig : 1000000000 < tv_nsec t \/ tv_nsec t < - 1000000000).
    { apply orb_true_iff in E as [E|E]; [rewrite Z.gtb_ltb in E|]; apply Z.ltb_lt in E; lia. }
    assert (Hq2 : - 2 ^ 34 <= q <= 2 ^ 34) by lia.
    assert (Hrs : 0 <= r \/ tv_nsec t < 0) by nia. assert (Hrs' : r <= 0 \/ 0 < tv_nsec t) by nia.
    rewrite slong_ok by (unfold LONG_MIN, LONG_MAX; lia). rstep.
    run; rewrite ?slong_ok by (unfold LONG_MIN, LONG_MAX; lia); rstep;
      eexists; (split; [done|]); simpl; lia.
  - apply orb_false_iff in E as [E1 E2]. rewrite Z.gtb_ltb in E1.
    apply Z.ltb_ge in E1. apply Z.ltb_ge in E2. rstep.
    run; rewrite ?slong_ok by (unfold LONG_MIN, LONG_MAX; lia); rstep;
      eexists; (split; [done|]); simpl; lia.
Qed.

Lemma fix_values_ok t :
  - 2 ^ 62 <= tv_sec t <= 2 ^ 62 -> - 2 ^ 62 <= tv_nsec t <= 2 ^ 62 ->
  exists t', timespec_fix_values t = Ok (ALIB_OK, t') /\ timespec_fix_values_fast t = Ok t'
    /\ total t' = total t
    /\ (tv_nsec t <> NANOS_PER_SECOND -> tv_nsec t <> - NANOS_PER_SECOND -> fixed t').
Proof.
  intros Hs Hn. destruct (fix_fast_ok t Hs Hn) as (t' & E & Ht & Hb & H1 & H2 & Hf & _).
  exists t'. split; [|done]. unfold timespec_fix_values. rewrite E. rstep.
  by run.
Qed.

(** [timespec_cmp] orders two values by their total time, when no
    nanosecond member is exactly a second; that value is not normalised (the
    guard is strict), and one second given as [0s + 1000000000ns] compares less
    than [1s + 0ns]. *)
Theorem timespec_cmp_spec (a b : timespec) :
  moderate a -> moderate b ->
  Z.abs (tv_nsec a) <> NANOS_PER_SECOND -> Z.abs (tv_nsec b) <> NANOS_PER_SECOND ->
  timespec_cmp a b = Ok (match total a ?= total b with Gt => 1 | Eq => 0 | Lt => -1 end)
  /\ timespec_cmp (mkTimespec 0 NANOS_PER_SECOND) (mkTimespec 1 0) = Ok (-1)
  /\ total (mkTimespec 0 NANOS_PER_SECOND) = total (mkTimespec 1 0).
Proof.
  intros [Ha1 Ha2] [Hb1 Hb2] Ha Hb. split; [|done].
  destruct (fix_values_ok a) as (a' & Ea & _ & Ta & Fa); [lia..|].
  destruct (fix_values_ok b) as (b' & Eb & _ & Tb & Fb); [lia..|].
  unfold timespec_cmp. rewrite Ea, Eb. rstep. rewrite <- Ta, <- Tb, fixed_compare; [done|..].
  - apply Fa; unfold NANOS_PER_SECOND in *; lia.
  - apply Fb; unfold NANOS_PER_SECOND in *; lia.
Qed.
Lemma timespec_cmp_spec_witness :
  timespec_cmp (mkTimespec 3 (-2500000000)) (mkTimespec 0 400000000) = Ok 1
  /\ timespec_cmp (mkTimespec 0 NANOS_PER_SECOND) (mkTimespec 1 0) = Ok (-1)
  /\ total (mkTimespec 0 NANOS_PER_SECOND) = total (mkTimespec 1 0).
Proof.
  apply (timespec_cmp_spec (mkTimespec 3 (-2500000000)) (mkTimespec 0 400000000));
    unfold moderate, NANOS_PER_SECOND; simpl; lia.
Defined.

Lemma subtract_ok a b :
  moderate a -> moderate b ->
  exists d, timespec_subtract a b = Ok d /\ total d = total a - total b
    /\ - NANOS_PER_SECOND <= tv_nsec d <= NANOS_PER_SECOND
    /\ (0 < tv_sec d -> 0 <= tv_nsec d) /\ (tv_sec d < 0 -> tv_nsec d <= 0).
Proof.
  intros [Ha1 Ha2] [Hb1 Hb2].
  destruct (fix_fast_ok (mkTimespec (tv_sec a - tv_sec b) (tv_nsec a - tv_nsec b)))
    as (d & E & Hd & H1 & H2 & H3 & _); [simpl; lia..|].
  exists d. unfold timespec_subtract. rewrite !slong_ok by (unfold LONG_MIN, LONG_MAX; lia).
  split; [exact E|]. split; [|done]. rewrite Hd. unfold total. simpl. lia.
Qed.
Lemma add_ts_ok a b :
  moderate a -> moderate b ->
  exists d, timespec_add a b = Ok d /\ total d = total a + total b
    /\ - NANOS_PER_SECOND <= tv_nsec d <= NANOS_PER_SECOND
    /\ (0 < tv_sec d -> 0 <= tv_nsec d) /\ (tv_sec d < 0 -> tv_nsec d <= 0).
Proof.
  intros [Ha1 Ha2] [Hb1 Hb2].
  destruct (fix_fast_ok (mkTimespec (tv_sec a + tv_sec b) (tv_nsec a + tv_nsec b)))
    as (d & E & Hd & H1 & H2 & H3 & _); [simpl; lia..|].
  exists d. unfold timespec_add. rewrite !slong_ok by (unfold LONG_MIN, LONG_MAX; lia).
  split; [exact E|]. split; [|done]. rewrite Hd. unfold total. simpl. lia.
Qed.

Lemma same_sign x y : (0 < x -> 0 <= y) -> (x < 0 -> y <= 0) -> 0 <= x * y.
Proof. intros. destruct (Z.lt_trichotomy x 0) as [|[->|]]; nia. Qed.

(** Adding and subtracting times is exact on the totals, never overflows
    for moderate values, and the result mixes no signs. *)
Theorem timespec_arith_exact (a b : timespec) :
  moderate a -> moderate b ->
  exists s d, timespec_add a b = Ok s /\ timespec_subtract a b = Ok d
    /\ total s = total a + total b /\ total d = total a - total b
    /\ Z.abs (tv_nsec s) <= NANOS_PER_SECOND /\ 0 <= tv_sec s * tv_nsec s
    /\ Z.abs (tv_nsec d) <= NANOS_PER_SECOND /\ 0 <= tv_sec d * tv_nsec d.
Proof.
  intros Ha Hb. destruct (add_ts_ok a b Ha Hb) as (s & Es & Hs & Hs1 & Hs2 & Hs3).
  destruct (subtract_ok a b Ha Hb) as (d & Ed & Hd & Hd1 & Hd2 & Hd3).
  exists s, d. do 4 (split; [done|]).
  repeat split; try (apply Z.abs_le; lia); by apply same_sign.
Qed.
Lemma timespec_arith_exact_witness :
  exists s d, timespec_add (mkTimespec 1 999999999) (mkTimespec (-3) 7) = Ok s
    /\ timespec_subtract (mkTimespec 1 999999999) (mkTimespec (-3) 7) = Ok d
    /\ total s = total (mkTimespec 1 999999999) + total (mkTimespec (-3) 7)
    /\ total d = total (mkTimespec 1 999999999) - total (mkTimespec (-3) 7)
    /\ Z.abs (tv_nsec s) <= NANOS_PER_SECOND /\ 0 <= tv_sec s * tv_nsec s
    /\ Z.abs (tv_nsec d) <= NANOS_PER_SECOND /\ 0 <= tv_sec d * tv_nsec d.
Proof. apply timespec_arith_exact; unfold moderate; simpl; lia. Defined.

(** * The timer rings at its end time, and stays rung *)

(** One reading of the time status. *)
Lemma time_status_ok t now r o :
  moderate (end_time t) -> moderate now ->
  let left := total (end_time t) - total now in
  exists rT oT, Timer_get_time_status (Some now) r o (Some t)
      = Ok (ALIB_OK, if r then Some rT else None, if o then Some oT else None,
            Some (mkTimer (if left <=? 0 then 1 else rang t) (run_time t) (end_time t)))
    /\ total rT = Z.max 0 left /\ total oT = Z.max 0 (- left)
    /\ (left <= 0 -> rT = mkTimespec 0 0 /\ Z.abs (tv_nsec oT) <= NANOS_PER_SECOND).
Proof.
  intros He Hn left. destruct (subtract_ok (end_time t) now He Hn) as (d & E & Hd & H1 & H2 & H3).
  assert (Hsec : - 2 ^ 62 <= tv_sec d <= 2 ^ 62).
  { unfold total, moderate, NANOS_PER_SECOND in *. lia. }
  assert (Hnsec : - 2 ^ 62 <= tv_nsec d <= 2 ^ 62) by (unfold NANOS_PER_SECOND in *; lia).
  destruct (fix_values_ok d Hsec Hnsec) as (d' & Ed' & Ef & Hd' & _).
  destruct (fix_fast_ok d Hsec Hnsec) as (d2 & Ef2 & _ & B1 & B2 & B3 & _ & B4).
  assert (d2 = d') as -> by congruence.
  unfold Timer_get_time_status. rewrite E. rstep. rewrite Ed'. rstep.
  assert (Hleft : total d' = left) by (unfold left; lia).
  unfold total, NANOS_PER_SECOND in Hleft, B1. clear E Ed' Ef Ef2 Hd Hd'.
  destruct ((tv_nsec d' <=? 0) && (tv_sec d' <=? 0)) eqn:C.
  - apply andb_true_iff in C as [C1%Z.leb_le C2%Z.leb_le].
    rewrite !slong_ok by (unfold LONG_MIN, LONG_MAX; lia). rstep.
    rewrite (proj2 (Z.leb_le left 0)) by lia.
    eexists (mkTimespec 0 0), (mkTimespec _ _). split; [done|].
    unfold total, NANOS_PER_SECOND in *. simpl. split; [lia|]. split; [lia|]. split; [done|]. lia.
  - assert (Hpos : 0 < left).
    { apply andb_false_iff in C as [C%Z.leb_gt|C%Z.leb_gt]; lia. }
    rewrite !Z.geb_leb, (proj2 (Z.leb_le 0 (tv_sec d'))), (proj2 (Z.leb_le 0 (tv_nsec d'))) by lia. cbn [andb].
    rewrite (proj2 (Z.leb_gt left 0)) by lia.
    exists d', (mkTimespec 0 0). split; [by destruct t|].
    unfold total, NANOS_PER_SECOND. simpl. lia.
Qed.

(** Restarting a timer [i] before the present moment. *)
Definition modest (t : timespec) : Prop :=
  - 2 ^ 55 <= tv_sec t <= 2 ^ 55 /\ - 2 ^ 55 <= tv_nsec t <= 2 ^ 55.
Lemma modest_moderate t : modest t -> moderate t.
Proof. unfold modest, moderate. lia. Qed.
Lemma begin_before_ok t now i :
  modest (run_time t) -> modest now -> moderate i ->
  exists e, Timer_begin_before (Some now) (Some i) (Some t) = Ok (Some (mkTimer 0 (run_time t) e))
    /\ total e = total (run_time t) + total now - total i /\ Z.abs (tv_nsec e) <= NANOS_PER_SECOND.
Proof.
  intros Hr Hn Hi. unfold Timer_begin_before, Timer_begin. cbn [default from_option]. unfold id.
  destruct (add_ts_ok (run_time t) now) as (s & Es & Hs & B & _); [by apply modest_moderate..|].
  rewrite Es. rstep.
  destruct (subtract_ok s i) as (d & Ed & Hd & Hb & _); [|done|].
  { unfold modest, moderate, total, NANOS_PER_SECOND in *. lia. }
  cbn [end_time]. rewrite Ed. rstep. eexists. split; [done|]. lia.
Qed.

(** The results of checking the timer at the successive clock readings. *)
Fixpoint checks (nows : list timespec) (t : option Timer) : res (list Z) :=
  match nows with
  | [] => Ok []
  | now :: nows => '(r, t) ← Timer_check (Some now) t; rs ← checks nows t; Ok (r :: rs)
  end.
(** Whether one of the readings up to each one reached the end. *)
Fixpoint rung_at (end_ : Z) (rung : bool) (nows : list timespec) : list Z :=
  match nows with
  | [] => []
  | now :: nows =>
      let rung := rung || (end_ <=? total now) in
      (if rung then 1 else 0) :: rung_at end_ rung nows
  end.

Lemma checks_ok nows : forall t,
  moderate (end_time t) -> Forall moderate nows -> rang t = 0 \/ rang t = 1 ->
  checks nows (Some t) = Ok (rung_at (total (end_time t)) (rang t =? 1) nows).
Proof.
  induction nows as [|now nows IH]; intros t He Hn Hr; [done|].
  inversion_clear Hn as [|? ? Hnow Hnows]. cbn [checks rung_at]. unfold Timer_check.
  destruct Hr as [Hr|Hr]; rewrite Hr; cbn [Z.eqb negb orb].
  - destruct (time_status_ok t now false false He Hnow) as (rT & oT & -> & _). rstep.
    cbn [ALIB_OK Z.eqb negb]. rstep. cbn [rang]. rewrite Hr.
    replace (total (end_time t) - total now <=? 0) with (total (end_time t) <=? total now)
      by (repeat case_cmp; lia || done).
    destruct (total (end_time t) <=? total now) eqn:Ec; rewrite IH; cbn [rang end_time];
      auto; rstep; done.
  - rstep. rewrite IH by auto. rstep. by rewrite Hr.
Qed.

(** A timer begun at time [start] answers every check with 0 until a clock
    reading reaches [start] plus its run time, and with 1 from then on (also
    when a later reading is earlier); no check fails. *)
Theorem timer_rings (t : Timer) (start : timespec) (nows : list timespec) :
  - 2 ^ 58 <= tv_sec (run_time t) <= 2 ^ 58 -> - 2 ^ 58 <= tv_nsec (run_time t) <= 2 ^ 58 ->
  - 2 ^ 58 <= tv_sec start <= 2 ^ 58 -> - 2 ^ 58 <= tv_nsec start <= 2 ^ 58 ->
  Forall moderate nows ->
  exists t', Timer_begin (Some start) (Some t) = Ok (Some t')
    /\ total (end_time t') = total (run_time t) + total start
    /\ checks nows (Some t') = Ok (rung_at (total (run_time t) + total start) false nows).
Proof.
  intros Hr1 Hr2 Hs1 Hs2 Hn. unfold Timer_begin. cbn [default].
  destruct (add_ts_ok (run_time t) start) as (e & E & He & B & S1 & S2);
    [unfold moderate; lia..|].
  unfold from_option, id. rewrite E. rstep. eexists. split; [done|]. split; [done|].
  rewrite checks_ok; [cbn; by rewrite He| |done|by left].
  unfold moderate, total, NANOS_PER_SECOND in *. cbn [end_time]. lia.
Qed.
Lemma timer_rings_witness :
  exists t', Timer_begin (Some (mkTimespec 10 0))
               (Some (mkTimer 1 (mkTimespec 2 500000000) (mkTimespec 0 0))) = Ok (Some t')
    /\ total (end_time t') = total (mkTimespec 2 500000000) + total (mkTimespec 10 0)
    /\ checks [mkTimespec 11 0; mkTimespec 12 500000000; mkTimespec 11 0] (Some t') = Ok [0; 1; 1].
Proof.
  apply (timer_rings (mkTimer 1 (mkTimespec 2 500000000) (mkTimespec 0 0)) (mkTimespec 10 0)
           [mkTimespec 11 0; mkTimespec 12 500000000; mkTimespec 11 0]); simpl; try lia.
  repeat constructor; simpl; lia.
Defined.
