(* ===== verification/AlibTypes.v ===== *)
(** The classification of strings ([source/alib_types.c]), the wrapper
    package, the primality test ([source/alib_math.c]), the byte order helpers
    ([source/Endianess.c]) and the flag macros ([includes/flags.h]). *)
From Stdlib Require Import Znumtheory.
From S2P Require Import Prelude Memory Effects AlibString.

(** * Classifying strings *)
Definition is_whitespace (c : Z) : Z :=
  if (c =? 32) || (c =? 10) || (c =? 9) || (c =? 13) then 1 else 0.

Definition white (c : Z) : bool := negb (is_whitespace c =? 0).
Definition digit (c : Z) : bool := negb ((c <? 48) || (c >? 57)).

(** The loop over the token, which [is_int] and [is_double] share but for the
    flag [dot_found]; [dot]: the loop has that flag. *)
Fixpoint token_loop (fuel : nat) (dot : bool) (b : list Z) (str : Z) (dot_found : bool) (r_val : Z)
    : res Z :=
  match fuel with
  | O => Diverges
  | S n =>
      c ← blk_load b str;
      if negb (c =? 0) && negb (white c)
      then let dot_found := if dot && negb dot_found && (c =? 46) then true else dot_found in
           if (c <? 48) || (c >? 57) then Ok 0 else token_loop n dot b (str + 1) dot_found 1
      else Ok r_val
  end.

Definition is_int (b : list Z) (str : Z) : res Z :=
  str ← skip_while (S (S (length b))) white b str;
  token_loop (S (S (length b))) false b str false 0.
Definition is_double (b : list Z) (str : Z) : res Z :=
  str ← skip_while (S (S (length b))) white b str;
  token_loop (S (S (length b))) true b str false 0.

Fixpoint skip_while_n (fuel : nat) (b : list Z) (str len : Z) : res (Z * Z) :=
  match fuel with
  | O => Diverges
  | S n =>
      if len >? 0
      then c ← blk_load b str; if white c then skip_while_n n b (str + 1) (len - 1) else Ok (str, len)
      else Ok (str, len)
  end.
(** [nul]: the loop also stops at a NUL ([is_double_n]). *)
Fixpoint token_loop_n (fuel : nat) (nul : bool) (b : list Z) (str len : Z) (r_val : Z) : res Z :=
  match fuel with
  | O => Diverges
  | S n =>
      if len >? 0
      then c ← blk_load b str;
           if negb (nul && (c =? 0)) && negb (white c)
           then if (c <? 48) || (c >? 57) then Ok 0 else token_loop_n n nul b (str + 1) (len - 1) 1
           else Ok r_val
      else Ok r_val
  end.
Definition is_int_n (b : list Z) (str len : Z) : res Z :=
  '(str, len) ← skip_while_n (S (S (length b))) b str len;
  token_loop_n (S (S (length b))) false b str len 0.
Definition is_double_n (b : list Z) (str len : Z) : res Z :=
  '(str, len) ← skip_while_n (S (S (length b))) b str len;
  token_loop_n (S (S (length b))) true b str len 0.

Definition TRUE_STRING : list Z := [116; 114; 117; 101; 0].
Definition TRUE_STRING_LEN : Z := 4.
Definition FALSE_STRING : list Z := [102; 97; 108; 115; 101; 0].
Definition FALSE_STRING_LEN : Z := 5.

(** [strncasecmp(str, lit, n)], the string at offset [str] of its block. *)
Fixpoint strncasecmp_at (fuel : nat) (b lit : list Z) (str it n : Z) : res Z :=
  match fuel with
  | O => Diverges
  | S k =>
      if n =? 0 then Ok 0 else
      c1 ← blk_load b str; c2 ← blk_load lit it;
      let d := tolower (u8 c1) - tolower (u8 c2) in
      if negb (d =? 0) || (c1 =? 0) then Ok d
      else strncasecmp_at k b lit (str + 1) (it + 1) (n - 1)
  end.

Definition is_bool_n (b : list Z) (str str_len : Z) : res Z :=
  str ← skip_while (S (S (length b))) white b str;
  if str_len <? TRUE_STRING_LEN then Ok 0 else
  t ← strncasecmp_at 6 b TRUE_STRING str 0 TRUE_STRING_LEN;
  w ← (if t =? 0 then c ← blk_load b (str + str_len); Ok (white c) else Ok false);
  if w : bool then Ok 1 else
  f ← strncasecmp_at 6 b FALSE_STRING str 0 FALSE_STRING_LEN;
  w ← (if f =? 0 then c ← blk_load b (str + str_len); Ok (white c) else Ok false);
  Ok (if w : bool then 1 else 0).
Definition is_bool (b : list Z) (str : Z) : res Z := n ← strlen b str; is_bool_n b str n.

Inductive string_type :=
| STRING_TYPE_INT | STRING_TYPE_DOUBLE | STRING_TYPE_BOOL | STRING_TYPE_STRING.

Definition get_string_type (b : list Z) (str : Z) : res string_type :=
  i ← is_int b str;
  if negb (i =? 0) then Ok STRING_TYPE_INT else
  d ← is_double b str;
  if negb (d =? 0) then Ok STRING_TYPE_DOUBLE else
  o ← is_bool b str;
  Ok (if negb (o =? 0) then STRING_TYPE_BOOL else STRING_TYPE_STRING).
Definition get_string_type_n (b : list Z) (str len : Z) : res string_type :=
  i ← is_int_n b str len;
  if negb (i =? 0) then Ok STRING_TYPE_INT else
  d ← is_double_n b str (u64 len);
  if negb (d =? 0) then Ok STRING_TYPE_DOUBLE else
  o ← is_bool_n b str (u64 len);
  Ok (if negb (o =? 0) then STRING_TYPE_BOOL else STRING_TYPE_STRING).

(** * The wrapper package *)
Record wrapper_package := mkPackage { parent : ptr; data : ptr; free_data : bool }.
Definition new_wrapper_package (ok : bool) (parent data : ptr) (free_data_cb : bool)
    : option wrapper_package :=
  if ok then Some (mkPackage parent data free_data_cb) else None.
Definition free_wrapper_package (p : option wrapper_package) : list event :=
  match p with
  | None => []
  | Some p => if negb (data p =? NULL) && free_data p then [EvFree (data p)] else []
  end.
Definition del_wrapper_package (p : option (option wrapper_package))
    : option (option wrapper_package) * list event :=
  match p with None => (None, []) | Some p => (Some None, free_wrapper_package p) end.

(** * [alib_math.c] *)
Fixpoint prime_loop (fuel : nat) (x i halfX : Z) : res Z :=
  match fuel with
  | O => Diverges
  | S n => if i <? halfX then if Z.rem x i =? 0 then Ok 0 else prime_loop n x (i + 1) halfX
           else Ok 1
  end.
Definition isPrime (x : Z) : res Z :=
  let halfX := Z.quot x 2 in
  let halfX := if halfX <? 0 then halfX * -1 else halfX in
  let halfX := halfX + 1 in
  prime_loop (S (Z.to_nat halfX)) x 2 halfX.

(** * [Endianess.c] *)
Inductive ENDIAN_TYPE := ENDIAN_UNKNOWN | ENDIAN_BIG | ENDIAN_LITTLE.
(** [dynamic]: compiled with [DYNAMIC_ENDIANESS]; [low]: the first byte of the
    two-byte 1. The second component is the new value of the global. *)
Definition check_endianess (dynamic : bool) (low : Z) (e : ENDIAN_TYPE) : ENDIAN_TYPE * ENDIAN_TYPE :=
  let e := match dynamic, e with
           | true, ENDIAN_UNKNOWN => if low =? 1 then ENDIAN_LITTLE else ENDIAN_BIG
           | _, _ => e
           end in (e, e).

(** Both iterators are incremented. *)
Definition flip_body (s : list Z * Z * Z) : res ((list Z * Z * Z) + list Z) :=
  let '(b, it_begin, it_end) := s in
  if it_begin <? it_end
  then holder ← blk_load b it_begin;
       e ← blk_load b it_end;
       b ← blk_store b it_begin e;
       b ← blk_store b it_end holder;
       Ok (inl (b, it_begin + 1, it_end + 1))
  else Ok (inr b).
Definition flip_endianess (itm : list Z) (size : Z) : res (list Z) :=
  loop (S (S (length itm))) flip_body (itm, 0, size - 1).

(** * [flags.h] *)
Definition flag_raise (flag_pole flag : Z) : Z := Z.lor flag_pole flag.
Definition flag_lower (flag_pole flag : Z) : Z := Z.land flag_pole (u64 (Z.lnot flag)).
Definition flag_clear (flag_pole : Z) : Z := 0.

(** * The token of a string *)
Fixpoint drop_white (s : list Z) : list Z :=
  match s with [] => [] | c :: s' => if white c then drop_white s' else s end.
Fixpoint token (s : list Z) : list Z :=
  match s with [] => [] | c :: s' => if white c then [] else c :: token s' end.
(** The first token is a number without sign or point. *)
Definition int_string (s : list Z) : bool :=
  match token (drop_white s) with [] => false | t => forallb digit t end.

Lemma drop_white_split s : exists ws, s = ws ++ drop_white s /\ Forall (fun c => white c = true) ws.
Proof.
  induction s as [|c s (ws & E & Hws)]; [by exists []|]. simpl. destruct (white c) eqn:Hc.
  - exists (c :: ws). simpl. rewrite <- E. auto.
  - exists []. auto.
Qed.

Lemma skip_white_ok fuel pre ws s :
  Forall (fun c => white c = true) ws -> (length ws < fuel)%nat ->
  match s with [] => False | c :: _ => white c = false end ->
  skip_while fuel white (pre ++ ws ++ s) (blen pre) = Ok (blen (pre ++ ws)).
Proof.
  intros Hws. revert fuel pre. induction Hws as [|c ws Hc _ IH]; intros fuel pre Hf Hs;
    (destruct fuel as [|fuel]; [simpl in Hf; lia|]); cbn [skip_while app].
  - destruct s as [|c s]; [done|]. rewrite blk_load_middle. rstep. by rewrite Hs, app_nil_r.
  - rewrite blk_load_middle. rstep. rewrite Hc.
    rewrite <- (blen_snoc pre c). replace (pre ++ c :: ws ++ s) with ((pre ++ [c]) ++ ws ++ s)
      by by rewrite <- app_assoc.
    rewrite IH by (done || (simpl in Hf; lia)). by rewrite <- app_assoc.
Qed.

Lemma token_loop_ok fuel dot pre s rest df r :
  no_nul s -> (length s < fuel)%nat ->
  token_loop fuel dot (pre ++ s ++ 0 :: rest) (blen pre) df r
  = Ok (match token s with [] => r | t => if forallb digit t then 1 else 0 end).
Proof.
  intros Hs. revert fuel pre df r. induction Hs as [|c s Hc _ IH]; intros fuel pre df r Hf;
    (destruct fuel as [|fuel]; [simpl in Hf; lia|]); cbn [token_loop app token].
  - rewrite blk_load_middle. done.
  - rewrite blk_load_middle. rstep. rewrite (proj2 (Z.eqb_neq c 0)) by done. cbn [negb andb].
    destruct (white c); cbn [negb]; [done|]. cbn [forallb]. unfold digit at 1.
    destruct ((c <? 48) || (c >? 57)); cbn [negb andb]; [done|].
    rewrite <- (blen_snoc pre c). replace (pre ++ c :: s ++ 0 :: rest)
      with ((pre ++ [c]) ++ s ++ 0 :: rest) by by rewrite <- app_assoc.
    rewrite IH by (simpl in Hf; lia). by destruct (token s).
Qed.

Lemma skip_white_string s rest :
  no_nul s ->
  exists ws, s = ws ++ drop_white s
    /\ skip_while (S (S (length (s ++ 0%Z :: rest)))) white (s ++ 0 :: rest) 0 = Ok (blen ws).
Proof.
  intros Hs. destruct (drop_white_split s) as (ws & E & Hws). exists ws. split; [done|].
  pose proof (skip_white_ok (S (S (length (s ++ 0%Z :: rest)))) [] ws (drop_white s ++ 0 :: rest) Hws) as H.
  simpl app in H. rewrite app_assoc, <- E in H. apply H.
  - rewrite E, !length_app. lia.
  - assert (G : forall u, match drop_white u ++ 0 :: rest with [] => False | c :: _ => white c = false end).
    { induction u as [|c u IH]; [done|]. simpl. destruct (white c) eqn:Hc; done. }
    apply G.
Qed.

Lemma token_classifier dot s rest :
  no_nul s ->
  (str ← skip_while (S (S (length (s ++ 0%Z :: rest)))) white (s ++ 0 :: rest) 0;
   token_loop (S (S (length (s ++ 0%Z :: rest)))) dot (s ++ 0 :: rest) str false 0)
  = Ok (if int_string s then 1 else 0).
Proof.
  intros Hs. destruct (skip_white_string s rest Hs) as (ws & E & ->). rstep.
  assert (Hd : no_nul (drop_white s)) by (unfold no_nul in *; rewrite E in Hs; by apply Forall_app in Hs as [_ ?]).
  pose proof (token_loop_ok (S (S (length (s ++ 0%Z :: rest)))) dot ws (drop_white s) rest false 0 Hd) as H.
  rewrite app_assoc, <- E in H. rewrite H.
  - unfold int_string. by destruct (token (drop_white s)).
  - rewrite E at 2. rewrite !length_app. lia.
Qed.

(** On a NUL-terminated string [is_int] answers whether its first token is
    a sequence of digits, and [is_double] answers the same question: a decimal
    point is recorded and then rejected.  [get_string_type] therefore never
    answers DOUBLE, and never BOOL on a string that ends its block: the
    character that [is_bool] compares with white space is the NUL or lies
    behind the block. *)
Theorem string_type_spec (s rest : list Z) :
  no_nul s ->
  is_int (s ++ 0 :: rest) 0 = Ok (if int_string s then 1 else 0)
  /\ is_double (s ++ 0 :: rest) 0 = Ok (if int_string s then 1 else 0)
  /\ (int_string s = true -> get_string_type (s ++ 0 :: rest) 0 = Ok STRING_TYPE_INT)
  /\ get_string_type (s ++ 0 :: rest) 0 <> Ok STRING_TYPE_DOUBLE
  /\ get_string_type (s ++ [0]) 0 <> Ok STRING_TYPE_BOOL.
Proof.
  intros Hs.
  assert (Hi : forall r, is_int (s ++ 0 :: r) 0 = Ok (if int_string s then 1 else 0))
    by (intros r; by apply token_classifier).
  assert (Hd : forall r, is_double (s ++ 0 :: r) 0 = Ok (if int_string s then 1 else 0))
    by (intros r; by apply token_classifier).
  split; [done|]. split; [done|]. unfold get_string_type. rewrite !Hi, !Hd.
  destruct (int_string s); rstep; cbn [Z.eqb negb]; [done|]. rstep. cbn [Z.eqb negb].
  split; [done|]. split.
  - destruct (is_bool (s ++ 0 :: rest) 0) as [o| |]; rstep; [|done..]. by destruct (o =? 0).
  - destruct (is_bool (s ++ [0]) 0) as [o| |] eqn:E; rstep; [|done..].
    destruct (Z.eqb_spec o 0); [done|]. intros _. revert E.
    unfold is_bool. pose proof (strlen_ok [] s [] Hs) as Hl. simpl in Hl. change (blen []) with 0 in Hl.
    rewrite Hl. rstep. unfold is_bool_n.
    destruct (skip_white_string s [] Hs) as (ws & Ews & ->). rstep.
    destruct (_ <? _); [by intros [= <-]|].
    assert (Hw : forall t, (if t =? 0 then c ← blk_load (s ++ [0]) (blen ws + blen s); Ok (white c) else Ok false)
                 <> Ok true).
    { intros t. destruct (t =? 0); [|done]. destruct (blk_load _ _) as [c| |] eqn:Ec; [|done..].
      rstep. pose proof (blen_nonneg ws). apply blk_load_inv in Ec as [Hb Hc].
      rewrite blen_snoc in Hb. rewrite lookup_app_r in Hc by (unfold blen; lia).
      replace (Z.to_nat (blen ws + blen s) - length s)%nat with 0%nat in Hc by (unfold blen in *; lia).
      injection Hc as <-. done. }
    destruct (strncasecmp_at 6 _ TRUE_STRING _ _ _) as [t| |]; [|done..]. rstep.
    specialize (Hw t) as Ht. destruct (if t =? 0 then _ else _) as [[]| |]; [done| |done..]. rstep.
    destruct (strncasecmp_at 6 _ FALSE_STRING _ _ _) as [f| |]; [|done..]. rstep.
    specialize (Hw f) as Hf. destruct (if f =? 0 then _ else _) as [[]| |]; [done| |done..]. rstep.
    by intros [= <-].
Qed.

Lemma string_type_spec_witness :
  is_int ([32; 52; 50; 32; 120] ++ [0]) 0 = Ok 1 /\ is_double ([49; 46; 53] ++ [0]) 0 = Ok 0
  /\ get_string_type ([116; 114; 117; 101] ++ [0]) 0 <> Ok STRING_TYPE_BOOL.
Proof.
  split; [|split].
  - apply (string_type_spec [32; 52; 50; 32; 120] []). by repeat constructor.
  - apply (string_type_spec [49; 46; 53] []). by repeat constructor.
  - apply (string_type_spec [116; 114; 117; 101] []). by repeat constructor.
Defined.

(** * Primality *)
Lemma prime_loop_ok fuel x h i :
  2 <= i -> (Z.to_nat (h - i) < fuel)%nat -> 0 < x ->
  exists r, prime_loop fuel x i h = Ok r
    /\ (r = 1 /\ (forall d, i <= d < h -> ~ (d | x)) \/ r = 0 /\ exists d, i <= d < h /\ (d | x)).
Proof.
  intros Hi Hf Hx. revert i Hi Hf. induction fuel as [|fuel IH]; intros i Hi Hf; [lia|].
  cbn [prime_loop]. case_cmp; [|exists 1; split; [done|]; left; split; [done|lia]].
  destruct (Z.eqb_spec (Z.rem x i) 0) as [E|E].
  - exists 0. split; [done|]. right. split; [done|]. exists i. split; [lia|].
    apply Z.rem_divide in E; [done|lia].
  - destruct (IH (i + 1)) as (r & -> & Hr); [lia..|]. exists r. split; [done|].
    destruct Hr as [[-> Hno]|[-> (d & Hd & Hdiv)]]; [left|right].
    + split; [done|]. intros d Hd Hdiv. destruct (decide (d = i)) as [->|].
      * apply E. apply Z.rem_divide; [lia|done].
      * apply (Hno d); [lia|done].
    + split; [done|]. exists d. split; [lia|done].
Qed.

(** [isPrime] answers 1 exactly for the primes among the numbers from 2
    on, and terminates; it also answers 1 for -1, 0 and 1. *)
Theorem isPrime_spec (x : Z) :
  -1 <= x < 2 ^ 63 ->
  exists r, isPrime x = Ok r /\ (2 <= x -> (r = 1 <-> prime x)) /\ (x < 2 -> r = 1)
    /\ (r = 0 \/ r = 1).
Proof.
  intros Hx. unfold isPrime. destruct (decide (x < 2)) as [Hlt|Hge].
  { assert (x = -1 \/ x = 0 \/ x = 1) as [->|[->| ->]] by lia; exists 1;
      (split; [reflexivity|]); (split; [lia|]); auto. }
  rewrite Z.quot_div_nonneg by lia. rewrite (proj2 (Z.ltb_ge _ 0)) by (apply Z.div_pos; lia).
  pose proof (Z.div_mod x 2 ltac:(lia)) as Hdm. pose proof (Z.mod_pos_bound x 2 ltac:(lia)).
  destruct (prime_loop_ok (S (Z.to_nat (x / 2 + 1))) x (x / 2 + 1) 2) as (r & E & Hr); [lia..|].
  exists r. split; [done|]. split; [|split; [lia|naive_solver]]. intros _. rewrite <- prime_alt.
  destruct Hr as [[-> Hno]|[-> (d & Hd & Hdiv)]].
  - split; [|done]. intros _. split; [lia|]. intros n Hn Hdiv. pose proof Hdiv as [q Hq].
    assert (1 < q) by nia.
    destruct (decide (n < x / 2 + 1)); [by apply (Hno n); [lia|]|]. nia.
  - split; [done|]. intros [_ Hp]. exfalso. by apply (Hp d); [lia|].
Qed.
Lemma isPrime_spec_witness :
  exists r, isPrime 91 = Ok r /\ (2 <= 91 -> (r = 1 <-> prime 91)) /\ (91 < 2 -> r = 1) /\ (r = 0 \/ r = 1).
Proof. apply isPrime_spec. lia. Defined.

(** * Byte order *)

(** [flip_endianess] moves both iterators forwards: on any value of more
    than one byte it never meets its end and runs out of the block. *)
Theorem flip_endianess_overruns (itm : list Z) (size : Z) :
  1 < size < 256 -> size <= blen itm -> flip_endianess itm size = UB OutOfBounds.
Proof.
  intros Hs Hb. unfold flip_endianess.
  apply (loop_faults
    (fun s => blen s.1.1 = blen itm /\ 0 <= s.1.2 /\ s.2 = s.1.2 + (size - 1) /\ s.2 <= blen itm)
    (fun s => Z.to_nat (blen itm - s.1.2))).
  - intros [[b x] y] (Hl & Hx & Hy & Hle). simpl in *. subst y. unfold flip_body.
    rewrite (proj2 (Z.ltb_lt _ _)) by lia.
    destruct (lookup_Z_is_Some b x) as [v Hv]; [unfold blen in *; lia|].
    rewrite (blk_load_ok b x v) by done. rstep.
    destruct (decide (x + (size - 1) < blen itm)).
    + destruct (lookup_Z_is_Some b (x + (size - 1))) as [w Hw]; [unfold blen in *; lia|].
      rewrite (blk_load_ok b (x + (size - 1)) w) by (done || lia). rstep.
      rewrite blk_store_ok by lia. rstep.
      rewrite blk_store_ok by (unfold blen in *; rewrite length_insert; lia). rstep.
      right. eexists. split; [done|]. simpl. unfold blen in *. rewrite !length_insert. lia.
    + left. by rewrite blk_load_oob by lia.
  - simpl. lia.
  - simpl. unfold blen in *. lia.
Qed.
Lemma flip_endianess_overruns_witness : flip_endianess [1; 2] 2 = UB OutOfBounds.
Proof. apply flip_endianess_overruns; [lia|done]. Defined.

(** Raising and lowering set and clear exactly the bits of the flag. *)
Lemma flag_raise_bit p f i : Z.testbit (flag_raise p f) i = Z.testbit p i || Z.testbit f i.
Proof. apply Z.lor_spec. Qed.
Lemma flag_lower_bit p f i :
  0 <= i < 64 -> Z.testbit (flag_lower p f) i = Z.testbit p i && negb (Z.testbit f i).
Proof.
  intros Hi. unfold flag_lower, u64. rewrite Z.land_spec, Z.mod_pow2_bits_low by lia.
  by rewrite Z.lnot_spec by lia.
Qed.
