(* ===== verification/CString.v ===== *)
(** The string object ([source/String.c]), a [BinaryBuffer] with a NUL behind
    the characters.

    The operations run on the [BinaryBuffer] the object inherits from; a
    character array is the list of the cells of its block.  [print_dec] is what
    [sprintf] writes for [%lld] and [%llu]; the floating-point variants are not
    modelled. *)
From S2P Require Import Prelude Memory Effects AlibString AlibTypes BinaryBuffer.

Definition String := BinaryBuffer.

(** * C strings in cells *)

(** [p[off]], which must have been written. *)
Definition cell_load (c : list cell) (off : Z) : res Z :=
  x ← blk_load c off; match x with Some v => Ok v | None => UB Indeterminate end.

(** The characters from [off] up to the NUL. *)
Fixpoint c_string_from (fuel : nat) (c : list cell) (off : Z) : res (list Z) :=
  match fuel with
  | O => Diverges
  | S n => x ← cell_load c off;
           if x =? 0 then Ok [] else s ← c_string_from n c (off + 1); Ok (x :: s)
  end.
Definition c_string (c : list cell) (off : Z) : res (list Z) :=
  c_string_from (S (length c)) c off.
Definition c_strlen (c : list cell) : res Z := s ← c_string c 0; Ok (blen s).

Fixpoint is_prefix (p s : list Z) : bool :=
  match p, s with
  | [], _ => true
  | x :: p, y :: s => (x =? y) && is_prefix p s
  | _, [] => false
  end.
(** The offset of the first occurrence of [p] in [s], counted from [n]. *)
Fixpoint find_sub (p s : list Z) (n : Z) : option Z :=
  if is_prefix p s then Some n
  else match s with [] => None | _ :: s => find_sub p s (n + 1) end.
(** [strstr] from the offset [off] of the block. *)
Definition strstr (c : list cell) (off : Z) (p : list Z) : res (option Z) :=
  s ← c_string c off; Ok (find_sub p s off).

(** * Access to the object's block *)
Definition block_cells : M String (list cell) :=
  b ← gets buff; '(_, c) ← lift (deref b); mret c.
(** [str->base.buff[off] = v] *)
Definition store_at (off v : Z) : M String unit :=
  b ← gets buff; '(i, c) ← lift (deref b);
  c ← lift (blk_store c off (Some v)); modify (set_buff (Some (i, c))).

Definition NUL_STRING : list cell := [Some 0].

(** * Clearing and setting *)

(** "If we still have memory allocated, then we simply put a null terminator
    at the beginning of the buffer." *)
Definition empty_string : M String unit :=
  b ← gets buff;
  match b with Some _ => store_at 0 0;; modify (set_len 1) | None => mret tt end.
Definition String_clear : M (option String) unit :=
  on_obj tt (here BinaryBuffer_clear;; empty_string).
Definition String_clear_no_free : M (option String) unit :=
  on_obj tt (here BinaryBuffer_clear_no_resize;; empty_string).

(** [k1], [k2]: the outcomes of the allocations of the two appends. *)
Definition String_set_count (k1 k2 : option Z) (str_val : option (list cell)) (count : Z)
    : M (option String) Z :=
  on_obj ALIB_BAD_ARG (
    here BinaryBuffer_clear;;
    here (BinaryBuffer_append k1 str_val count);;
    here (BinaryBuffer_append k2 (Some NUL_STRING) 1);;
    mret ALIB_OK).
Definition String_set k1 k2 (str_val : option (list cell)) : M (option String) Z :=
  match str_val with
  | None => String_clear;; mret ALIB_OK
  | Some v => n ← lift (c_strlen v); String_set_count k1 k2 str_val n
  end.

(** * Appending *)
Definition String_append_count k1 k2 (str_to_append : option (list cell)) (count : Z)
    : M (option String) Z :=
  on_obj ALIB_BAD_ARG (
    match str_to_append with
    | None => mret ALIB_BAD_ARG
    | Some _ =>
        l ← gets len;
        if l >? 1 then here (BinaryBuffer_insert k1 (l - 1) str_to_append count)
        else err ← here (BinaryBuffer_append k1 str_to_append count);
             if negb (err =? 0) then mret err
             else here (BinaryBuffer_append k2 (Some NUL_STRING) 1)
    end).
(** [strlen] reads through the pointer before it is checked. *)
Definition String_append k1 k2 (s : option (list cell)) : M (option String) Z :=
  v ← lift (deref s); n ← lift (c_strlen v); String_append_count k1 k2 s n.
Definition String_append_string k1 k2 (from : option String) : M (option String) Z :=
  match from with
  | None => mret ALIB_BAD_ARG
  | Some f => String_append k1 k2 (snd <$> buff f)
  end.
Definition String_append_char k1 k2 (c : Z) : M (option String) Z :=
  String_append_count k1 k2 (Some [Some c]) 1.

(** Decimal digits, least significant last; 20 digits hold every 64-bit
    value. *)
Fixpoint digits (fuel : nat) (n : Z) : list Z :=
  match fuel with
  | O => []
  | S k => if n <? 10 then [48 + n] else digits k (n / 10) ++ [48 + n mod 10]
  end.
Definition print_dec (n : Z) : list Z :=
  if n <? 0 then 45 :: digits 20 (- n) else digits 20 n.
Definition LLONG_MAX_CHAR_LEN : Z := 20.
Definition ULLONG_MAX_CHAR_LEN : Z := 20.
(** [sprintf] into a local array of [size] characters. *)
Definition sprintf_dec (size n : Z) : res (list cell) :=
  let s := print_dec n ++ [0] in
  if blen s <=? size then Ok (Some <$> s) else UB OutOfBounds.

Definition String_append_int k1 k2 (val : Z) : M (option String) Z :=
  s ← lift (sprintf_dec (LLONG_MAX_CHAR_LEN + 1) val); String_append k1 k2 (Some s).
Definition String_append_uint k1 k2 (val : Z) : M (option String) Z :=
  s ← lift (sprintf_dec (ULLONG_MAX_CHAR_LEN + 1) val); String_append k1 k2 (Some s).
Definition TRUE_STRING_UPPER : list Z := [84; 82; 85; 69; 0].
Definition FALSE_STRING_UPPER : list Z := [70; 65; 76; 83; 69; 0].
Definition bool_literal (val : Z) (upper : bool) : list cell * Z :=
  if negb (val =? 0)
  then (Some <$> (if upper then TRUE_STRING_UPPER else TRUE_STRING), TRUE_STRING_LEN)
  else (Some <$> (if upper then FALSE_STRING_UPPER else FALSE_STRING), FALSE_STRING_LEN).
Definition String_append_bool k1 k2 (val : Z) (upper : bool) : M (option String) Z :=
  let '(s, n) := bool_literal val upper in String_append_count k1 k2 (Some s) n.
Definition String_append_file k1 k2 (f : option file) : M (option String) Z :=
  on_obj ALIB_BAD_ARG (
    l ← gets len;
    (if l >? 0 then modify (set_len (l - 1)) else mret tt);;
    err ← here (BinaryBuffer_append_file k1 f);
    err' ← here (BinaryBuffer_append k2 (Some NUL_STRING) 1);
    mret (if err =? 0 then err' else err)).

(** * Inserting *)
Definition String_insert_count k1 (val : option (list cell)) (index count : Z)
    : M (option String) Z :=
  on_obj ALIB_BAD_ARG (
    err ← here (BinaryBuffer_insert k1 index val count);
    if negb (err =? 0) then mret err
    else l ← gets len; store_at l 0;; mret ALIB_OK).
Definition String_insert k1 (val : option (list cell)) (index : Z) : M (option String) Z :=
  match val with
  | Some v => n ← lift (c_strlen v); String_insert_count k1 val index n
  | None => mret ALIB_BAD_ARG
  end.
(** The count includes the inserted string's NUL. *)
Definition String_insert_string k1 (val : option String) (index : Z) : M (option String) Z :=
  match val with
  | None => mret ALIB_BAD_ARG
  | Some v => String_insert_count k1 (snd <$> buff v) index (len v)
  end.
Definition String_insert_int k1 (val index : Z) : M (option String) Z :=
  s ← lift (sprintf_dec (LLONG_MAX_CHAR_LEN + 1) val); String_insert k1 (Some s) index.
Definition String_insert_uint k1 (val index : Z) : M (option String) Z :=
  s ← lift (sprintf_dec (ULLONG_MAX_CHAR_LEN + 1) val); String_insert k1 (Some s) index.
Definition String_insert_bool k1 (val index : Z) (upper : bool) : M (option String) Z :=
  let '(s, n) := bool_literal val upper in String_insert_count k1 (Some s) index n.

(** * Copying *)
Definition String_copy_string k1 (from : option String) : M (option String) Z :=
  on_obj ALIB_BAD_ARG (
    match from with
    | None => mret ALIB_BAD_ARG
    | Some f =>
        here String_clear;;
        modify (set_max_expand (max_expand f));; modify (set_min_cap (min_cap f));;
        here (BinaryBuffer_resize k1 (capacity f));;
        (if len f =? 0 then mret tt
         else '(_, c) ← lift (deref (buff f)); write_at 0 c (len f));;
        modify (set_len (len f));; mret ALIB_OK
    end).

(** * Letter case *)
Fixpoint convert_cells (fuel : nat) (f : Z -> Z) (c : list cell) (it : Z) : res (list cell) :=
  match fuel with
  | O => Diverges
  | S n => x ← cell_load c it;
           if negb (x =? 0) then c ← blk_store c it (Some (f x)); convert_cells n f c (it + 1)
           else Ok c
  end.
Definition String_convert (f : Z -> Z) : M (option String) unit :=
  on_obj tt (
    b ← gets buff;
    match b with
    | None => mret tt
    | Some (i, c) => c ← lift (convert_cells (S (S (length c))) f c 0); modify (set_buff (Some (i, c)))
    end).
Definition String_to_lower := String_convert tolower.
Definition String_to_upper := String_convert toupper.

(** * Removing and replacing *)
Definition String_shrink_to_fit k1 : M (option String) Z :=
  on_obj ALIB_BAD_ARG (here (BinaryBuffer_shrink_to_fit k1);; mret ALIB_OK).

Definition String_get_length : M (option String) Z :=
  no_guard (l ← gets len; mret (if negb (l =? 0) then l - 1 else 0)).

Definition String_remove (begin_ end_ : Z) : M (option String) Z :=
  on_obj ALIB_BAD_ARG (
    let '(begin_, end_) := if begin_ >? end_ then (end_, begin_) else (begin_, end_) in
    n ← here String_get_length; l ← gets len;
    if begin_ >=? n then mret ALIB_OK
    else let end_ := if end_ >=? l then l - 1 else end_ in
         here (BinaryBuffer_remove begin_ end_)).

(** The loop searches again from the position of the removed occurrence; the
    fuel bounds the number of occurrences. *)
Fixpoint remove_loop (fuel : nat) (sub : list Z) (p : option Z) : M String unit :=
  match fuel with
  | O => lift Diverges
  | S n =>
      match p with
      | None => mret tt
      | Some p => here (String_remove p (p + blen sub));;
                  c ← block_cells; p ← lift (strstr c p sub); remove_loop n sub p
      end
  end.
Definition String_remove_substring (fuel : nat) (substring : option (list cell))
    : M (option String) Z :=
  on_obj ALIB_BAD_ARG (
    match substring with
    | None => mret ALIB_BAD_ARG
    | Some v => sub ← lift (c_string v 0);
                c ← block_cells; p ← lift (strstr c 0 sub);
                remove_loop fuel sub p;; mret ALIB_OK
    end).

Definition String_replace_count k1 (index char_replace_count : Z) (substring : option (list cell))
    (count : Z) : M (option String) Z :=
  on_obj ALIB_BAD_ARG (
    l ← gets len;
    match substring with
    | None => mret ALIB_BAD_ARG
    | Some _ =>
        if index >=? l then mret ALIB_BAD_ARG else
        let char_replace_count := if char_replace_count <? 0 then s32 count else char_replace_count in
        err ← here (BinaryBuffer_replace k1 index (u64 char_replace_count) substring count);
        if negb (err =? 0) then mret err
        else l ← gets len; store_at l 0;; mret ALIB_OK
    end).
(** The [long] count is passed on as an [int]. *)
Definition String_replace k1 (index char_replace_count : Z) (substring : option (list cell))
    : M (option String) Z :=
  match substring with
  | None => mret ALIB_BAD_ARG
  | Some v => n ← lift (c_strlen v);
              String_replace_count k1 index (s32 char_replace_count) substring n
  end.

(** The next search starts behind the old occurrence's place, whatever the
    length of the new one. *)
Fixpoint replace_loop (fuel : nat) k1 (sub : list Z) (newstr : list cell) (newlen : Z) (p : option Z)
    : M String Z :=
  match fuel with
  | O => lift Diverges
  | S n =>
      match p with
      | None => mret ALIB_OK
      | Some p =>
          let index := p + blen sub in
          err ← here (BinaryBuffer_replace k1 p (blen sub) (Some newstr) newlen);
          if negb (err =? 0) then mret err
          else c ← block_cells; p ← lift (strstr c index sub); replace_loop n k1 sub newstr newlen p
      end
  end.
Definition String_replace_substrings (fuel : nat) k1 (substring newstr : option (list cell))
    (newstr_len : Z) : M (option String) Z :=
  on_obj ALIB_BAD_ARG (
    match substring, newstr with
    | Some v, Some w =>
        sub ← lift (c_string v 0);
        newstr_len ← (if negb (newstr_len =? 0) then mret newstr_len else lift (c_strlen w));
        c ← block_cells; p ← lift (strstr c 0 sub);
        replace_loop fuel k1 sub w newstr_len p
    | _, _ => mret ALIB_BAD_ARG
    end).

(** * Searching *)

(** The offsets of the occurrences, each search behind the last one. *)
Fixpoint occurrences (fuel : nat) (c : list cell) (sub : list Z) (it : Z) : res (list Z) :=
  match fuel with
  | O => Diverges
  | S n => p ← strstr c it sub;
           match p with
           | None => Ok []
           | Some p => ps ← occurrences n c sub (p + blen sub); Ok (p :: ps)
           end
  end.
Definition String_count_substrings (fuel : nat) (substring : option (list cell))
    : M (option String) Z :=
  on_obj ALIB_BAD_ARG (
    match substring with
    | None => mret ALIB_BAD_ARG
    | Some v => sub ← lift (c_string v 0); c ← block_cells;
                ps ← lift (occurrences fuel c sub 0); mret (blen ps)
    end).
(** The result is an allocated array of pointers into the block, NULL behind
    the last one. *)
Definition String_get_substring_ptrs (fuel : nat) (ok : bool) (substring : option (list cell))
    : M (option String) (option (list (option Z))) :=
  on_obj None (
    match substring with
    | None => mret None
    | Some v => sub ← lift (c_string v 0);
                if negb ok then mret None
                else c ← block_cells; ps ← lift (occurrences fuel c sub 0);
                     mret (Some ((Some <$> ps) ++ [None]))
    end).

(** * Getters, construction *)
Definition String_extract_c_string : M (option String) (option (Z * list cell)) :=
  on_obj None (here BinaryBuffer_extract_buffer).
Definition String_get_c_string : M (option String) (option (Z * list cell)) := no_guard (gets buff).
Definition String_get_capacity : M (option String) Z := no_guard (gets capacity).
(** [ptr]: an offset into the object's block. *)
Definition String_get_index (ptr : Z) : M (option String) Z :=
  no_guard (l ← gets len; mret (if (ptr >? 0) && (ptr <? l) then ptr else ALIB_BAD_ARG)).

Definition newString (ok : bool) (k : option Z) : res (option String) := newBinaryBuffer ok k.
(** The length of the copy is not set. *)
Definition newString_copy (ok : bool) (k k1 : option Z) (str : option String) : res (option String) :=
  new_str ← newString ok k;
  match new_str with
  | None => Ok None
  | Some n =>
      s ← deref str;
      let n := set_min_cap (min_cap s) (set_max_expand (max_expand s) n) in
      '(_, o, _) ← BinaryBuffer_resize k1 (capacity s) (Some n);
      n ← deref o;
      if len s =? 0 then Ok (Some n)
      else '(_, c) ← deref (buff s); '(_, n, _) ← write_at 0 c (len s) n; Ok (Some n)
  end.
Definition delString (s : option String) : option String := delBinaryBuffer s.
Definition newString_ex (ok : bool) (k k1 k2 : option Z) (str : list cell) (l : Z)
    : res (option String) :=
  rval ← newString ok k;
  l ← (if negb (l =? 0) then Ok l else c_strlen str);
  '(err, rval, _) ← String_append_count k1 k2 (Some str) l rval;
  Ok (if negb (err =? 0) then delString rval else rval).

(** * C strings in the object *)
Lemma c_string_from_ok fuel pre s rest :
  no_nul s -> (length s < fuel)%nat ->
  c_string_from fuel (pre ++ (Some <$> s) ++ Some 0 :: rest) (blen pre) = Ok s.
Proof.
  intros Hs. revert fuel pre. induction Hs as [|x s Hx _ IH]; intros fuel pre Hf;
    (destruct fuel as [|fuel]; [simpl in Hf; lia|]); cbn [c_string_from fmap list_fmap app];
    unfold cell_load; rewrite blk_load_middle; rstep; [done|].
  rewrite (proj2 (Z.eqb_neq x 0)) by done. rewrite <- (blen_snoc pre (Some x)).
  replace (pre ++ Some x :: (Some <$> s) ++ Some 0 :: rest)
    with ((pre ++ [Some x]) ++ (Some <$> s) ++ Some 0 :: rest) by by rewrite <- app_assoc.
  by rewrite IH by (simpl in Hf; lia).
Qed.
Lemma c_string_ok s rest : no_nul s -> c_string ((Some <$> s) ++ Some 0 :: rest) 0 = Ok s.
Proof.
  intros Hs. apply (c_string_from_ok _ []); [done|]. rewrite length_app, length_fmap. simpl. lia.
Qed.
(** Reading reaches a cell that was never written. *)
Lemma c_string_indeterminate fuel pre s rest :
  no_nul s -> (length s < fuel)%nat ->
  c_string_from fuel (pre ++ (Some <$> s) ++ None :: rest) (blen pre) = UB Indeterminate.
Proof.
  intros Hs. revert fuel pre. induction Hs as [|x s Hx _ IH]; intros fuel pre Hf;
    (destruct fuel as [|fuel]; [simpl in Hf; lia|]); cbn [c_string_from fmap list_fmap app];
    unfold cell_load; rewrite blk_load_middle; rstep; [done|].
  rewrite (proj2 (Z.eqb_neq x 0)) by done. rewrite <- (blen_snoc pre (Some x)).
  replace (pre ++ Some x :: (Some <$> s) ++ None :: rest)
    with ((pre ++ [Some x]) ++ (Some <$> s) ++ None :: rest) by by rewrite <- app_assoc.
  by rewrite IH by (simpl in Hf; lia).
Qed.

Lemma cells_content b : cells b = content b ++ drop (Z.to_nat (len b)) (cells b).
Proof. unfold content. by rewrite take_drop. Qed.

(** The object holds the string [s] and its NUL. *)
Definition holds (b : String) (s : list Z) : Prop :=
  wf b /\ no_nul s /\ content b = (Some <$> s) ++ [Some 0].

Lemma holds_c_string b s : holds b s -> c_string (cells b) 0 = Ok s.
Proof.
  intros (Hw & Hs & Hc). rewrite cells_content, Hc, <- app_assoc. by apply c_string_ok.
Qed.
Lemma blen_fmap (s : list Z) : blen (Some <$> s) = blen s.
Proof. unfold blen. by rewrite length_fmap. Qed.
Lemma holds_len b s : holds b s -> len b = blen s + 1.
Proof. intros (Hw & _ & Hc). rewrite <- (blen_content b Hw), Hc, blen_snoc, blen_fmap. done. Qed.

(** [String_set] with a C string leaves an object whose block starts with
    that string and its NUL: reading it back gives the string set. *)
Theorem String_set_roundtrip (b : String) (k1 k2 : Z) (s : list Z) (rest : list cell) :
  wf b -> no_nul s -> blen s + 1 <= ULONG_MAX ->
  exists b', String_set (Some k1) (Some k2) (Some ((Some <$> s) ++ Some 0 :: rest)) (Some b)
      = Ok (ALIB_OK, Some b', []) /\ holds b' s /\ c_string (cells b') 0 = Ok s.
Proof.
  intros Hwf Hs Hfit.
  destruct (bb_clear_ok b Hwf) as (b0 & E0 & Hw0 & _ & Hc0).
  assert (Hl0 : len b0 = 0) by (rewrite <- (blen_content b0 Hw0), Hc0; done).
  destruct (append_count_ok b0 k1 ((Some <$> s) ++ Some 0 :: rest) (blen s) Hw0)
    as (b1 & E1 & Hw1 & _ & Hc1); [|lia|].
  { rewrite blen_app, blen_fmap. pose proof (blen_nonneg (Some 0 :: rest)). pose proof (blen_nonneg s). lia. }
  rewrite Hc0, <- (blen_fmap s), slice_prefix in Hc1. simpl in Hc1.
  assert (Hl1 : len b1 = blen s) by (rewrite <- (blen_content b1 Hw1), Hc1; apply blen_fmap).
  destruct (append_ok b1 k2 NUL_STRING Hw1) as (b2 & E2 & Hw2 & _ & Hc2).
  { change (blen NUL_STRING) with 1. lia. }
  rewrite Hc1 in Hc2. assert (Hh : holds b2 s) by done.
  exists b2. split; [|split; [done|by apply holds_c_string]].
  unfold String_set, c_strlen. rewrite (c_string_ok s rest Hs). cbn [lift mbind res_bind].
  rewrite (bind_quiet _ _ _ (blen s) (Some b)) by done. 
  unfold String_set_count. apply on_obj_Ok.
  rewrite (bind_quiet _ _ _ _ _ (here_Some _ _ _ _ _ E0)), (bind_quiet _ _ _ _ _ (here_Some _ _ _ _ _ E1)).
  change (blen NUL_STRING) with 1 in E2.
  by rewrite (bind_quiet _ _ _ _ _ (here_Some _ _ _ _ _ E2)).
Qed.

Lemma String_set_roundtrip_witness :
  let b := mkBinaryBuffer (Some (1, [Some 7; None])) 2 1 0 8 in
  exists b', String_set (Some 2) (Some 3) (Some ((Some <$> [104; 105]) ++ [Some 0])) (Some b)
      = Ok (ALIB_OK, Some b', []) /\ holds b' [104; 105] /\ c_string (cells b') 0 = Ok [104; 105].
Proof.
  apply (String_set_roundtrip (mkBinaryBuffer (Some (1, [Some 7; None])) 2 1 0 8) 2 3 [104; 105] []).
  - split; simpl; unfold ULONG_MAX; try done; unfold blen; simpl; lia.
  - by repeat constructor.
  - apply Z.leb_le. by vm_compute.
Defined.

(** Appending to a non-empty string overwrites its NUL and does not write
    a new one: behind the appended characters stands whatever the next cell
    held, and when that cell was never written, reading the string reads it. *)
Theorem String_append_loses_nul (b : String) (k1 : Z) (k2 : option Z) (s t : list Z) (v : cell) :
  holds b s -> s <> [] -> no_nul t -> t <> [] -> blen s + 1 + blen t <= capacity b ->
  cells b !! Z.to_nat (blen s + blen t) = Some v ->
  exists b', String_append_count (Some k1) k2 (Some (Some <$> t)) (blen t) (Some b)
      = Ok (ALIB_OK, Some b', [])
    /\ content b' = (Some <$> s) ++ (Some <$> t) ++ [v]
    /\ (v = None -> c_string (cells b') 0 = UB Indeterminate).
Proof.
  intros Hh Hs Ht Htn Hcap Hv. pose proof (holds_len b s Hh) as Hl. destruct Hh as (Hw & Hns & Hc).
  pose proof (wf_capacity b Hw). pose proof (blen_nonneg t).
  assert (Hpos : 0 < blen s).
  { destruct s; [done|]. rewrite blen_cons. pose proof (blen_nonneg s). lia. }
  destruct (insert_middle b k1 (len b - 1) (Some <$> t) Hw) as (b' & x & E & Hw' & Hcont & Hx);
    rewrite ?blen_fmap; [lia..|].
  rewrite blen_fmap in E, Hx.
  destruct Hx as [Hx|Hx]; [lia| |by destruct t].
  replace (len b + blen t - 1) with (blen s + blen t) in Hx by lia.
  assert (x = v) as -> by congruence.
  assert (Hcont' : content b' = (Some <$> s) ++ (Some <$> t) ++ [v]).
  { rewrite Hcont. replace (len b - 1 - (len b - 1)) with 0 by lia. rewrite slice_zero, Hc.
    replace (len b - 1) with (blen (Some <$> s)) by (rewrite blen_fmap; lia).
    rewrite take_blen_app. done. }
  exists b'. split; [|split; [done|]].
  - unfold String_append_count. apply on_obj_Ok. rewrite bind_gets, Z.gtb_ltb.
    rewrite (proj2 (Z.ltb_lt _ _)) by lia. by apply here_Some.
  - intros ->. rewrite cells_content, Hcont'.
    replace (((Some <$> s) ++ (Some <$> t) ++ [None]) ++ drop (Z.to_nat (len b')) (cells b'))
      with ([] ++ (Some <$> (s ++ t)) ++ None :: drop (Z.to_nat (len b')) (cells b'))
      by (rewrite fmap_app, <- !app_assoc; done).
    apply c_string_indeterminate; [by apply Forall_app|].
    rewrite app_nil_l, (length_app (Some <$> _)), length_fmap. lia.
Qed.
Lemma String_append_loses_nul_witness :
  let b := mkBinaryBuffer (Some (1, [Some 97; Some 98; Some 0; None; None; None])) 6 3 6 8 in
  exists b', String_append_count (Some 1) None (Some [Some 99; Some 100]) 2 (Some b)
      = Ok (ALIB_OK, Some b', [])
    /\ content b' = [Some 97; Some 98; Some 99; Some 100; None]
    /\ (None = @None Z -> c_string (cells b') 0 = UB Indeterminate).
Proof.
  apply (String_append_loses_nul
    (mkBinaryBuffer (Some (1, [Some 97; Some 98; Some 0; None; None; None])) 6 3 6 8) 1 None
    [97; 98] [99; 100] None); try done.
  - split; [|split; [by repeat constructor|done]].
    split; simpl; unfold ULONG_MAX; try done; unfold blen; simpl; lia.
  - by repeat constructor.
Defined.

(** Appending to an object whose length is at most 1 goes behind the block's
    content, with a NUL. *)
Lemma append_with_nul (b : String) (k1 k2 : Z) (t : list Z) (rest : list cell) :
  wf b -> len b <= 1 -> len b + blen t + 1 <= ULONG_MAX ->
  exists b', String_append_count (Some k1) (Some k2) (Some ((Some <$> t) ++ rest)) (blen t) (Some b)
      = Ok (ALIB_OK, Some b', [])
    /\ wf b' /\ content b' = content b ++ (Some <$> t) ++ [Some 0].
Proof.
  intros Hw Hl Hfit. pose proof (blen_nonneg t). pose proof (blen_nonneg rest).
  destruct (append_count_ok b k1 ((Some <$> t) ++ rest) (blen t) Hw) as (b1 & E1 & Hw1 & _ & Hc1);
    rewrite ?blen_app, ?blen_fmap; [lia..|].
  replace (slice _ 0 (blen t)) with (Some <$> t) in Hc1
    by (by rewrite <- (blen_fmap t), slice_prefix).
  assert (Hl1 : len b1 = len b + blen t).
  { rewrite <- (blen_content b1 Hw1), Hc1, blen_app, blen_fmap, (blen_content b Hw). done. }
  destruct (append_ok b1 k2 NUL_STRING Hw1) as (b2 & E2 & Hw2 & _ & Hc2).
  { change (blen NUL_STRING) with 1. lia. }
  exists b2. split; [|split; [done|by rewrite Hc2, Hc1, <- app_assoc]].
  unfold String_append_count. apply on_obj_Ok.
  rewrite bind_gets, Z.gtb_ltb, (proj2 (Z.ltb_ge _ _)) by lia.
  rewrite (bind_quiet _ _ _ _ _ (here_Some _ _ _ _ _ E1)). cbn [negb Z.eqb ALIB_OK].
  change (blen NUL_STRING) with 1 in E2. by apply here_Some.
Qed.

(** after [String_clear] keeps the block (or [String_clear_no_free]), the
    length 1 makes the next append go behind the NUL: the object then reads as
    the empty string, whatever was appended. *)
Theorem String_append_after_clear (b : String) (k1 k2 : Z) (t : list Z) :
  wf b -> 0 < capacity b <= min_cap b -> 0 < blen t -> blen t + 2 <= ULONG_MAX ->
  exists b', (String_clear;; String_append_count (Some k1) (Some k2) (Some (Some <$> t)) (blen t))
               (Some b) = Ok (ALIB_OK, Some b', [])
    /\ content b' = Some 0 :: (Some <$> t) ++ [Some 0] /\ c_string (cells b') 0 = Ok [].
Proof.
  intros Hw [Hc0 Hmin] Ht Hfit. destruct (wf_cells b Hw Hc0) as [i Hi].
  pose proof (wf_block b Hw) as Hb. destruct (cells b) as [|x c] eqn:Ec.
  { change (blen []) with 0 in Hb. lia. }
  assert (Hw0 : wf (set_len 0 b)).
  { destruct Hw as [H1 H2 H3 H4 H5]. split; simpl; done || lia. }
  set (b0 := set_len 1 (with_cells (set_len 0 b) (Some 0 :: c))).
  assert (Hlen0 : blen (Some 0 :: c) = capacity (set_len 0 b)) by (simpl; rewrite <- Hb, !blen_cons; done).
  assert (Hwb0 : wf b0) by (apply with_cells_wf; simpl; done || lia).
  assert (Hcont0 : content b0 = [Some 0]) by (unfold b0; by rewrite content_with_cells by done).
  assert (Hclear : String_clear (Some b) = Ok (tt, Some b0, [])).
  { unfold String_clear. apply on_obj_Ok.
    rewrite (bind_quiet _ _ _ tt (set_len 0 b)); cycle 1.
    { apply here_Some. unfold BinaryBuffer_clear. apply on_obj_Ok. rewrite bind_gets.
      unfold id. rewrite Z.gtb_ltb, (proj2 (Z.ltb_ge _ _)) by lia. done. }
    unfold empty_string. rewrite bind_gets. unfold b0, with_cells. simpl. rewrite Hi.
    rewrite (bind_quiet _ _ _ tt (set_buff (Some (i, Some 0 :: c)) (set_len 0 b))); [done|].
    unfold store_at. rewrite bind_gets. simpl. rewrite Hi.
    rewrite (bind_quiet _ _ _ (i, x :: c) (set_len 0 b)) by done.
    assert (blk_store (x :: c) 0 (Some 0) = Ok (Some 0 :: c)) as Hst.
    { rewrite blk_store_ok; [done|]. rewrite Hb. simpl in Hc0. lia. }
    unfold lift at 1. rewrite (bind_quiet _ _ _ (Some 0 :: c) (set_len 0 b)); [done|]. by rewrite Hst. }
  assert (Hl0 : len b0 = 1) by (rewrite <- (blen_content b0 Hwb0), Hcont0; done).
  destruct (append_with_nul b0 k1 k2 t [] Hwb0) as (b2 & E & Hw2 & Hc2); [lia..|].
  rewrite app_nil_r in E. rewrite Hcont0 in Hc2. exists b2. split; [|split].
  - by rewrite (bind_quiet _ _ _ _ _ Hclear).
  - done.
  - by rewrite cells_content, Hc2.
Qed.
Lemma String_append_after_clear_witness :
  let b := mkBinaryBuffer (Some (1, [Some 97; Some 98; Some 0; None])) 4 3 6 8 in
  exists b', (String_clear;; String_append_count (Some 1) (Some 2) (Some [Some 120; Some 121]) 2)
               (Some b) = Ok (ALIB_OK, Some b', [])
    /\ content b' = [Some 0; Some 120; Some 121; Some 0] /\ c_string (cells b') 0 = Ok [].
Proof.
  apply (String_append_after_clear
    (mkBinaryBuffer (Some (1, [Some 97; Some 98; Some 0; None])) 4 3 6 8) 1 2 [120; 121]).
  - split; simpl; unfold ULONG_MAX; try done; unfold blen; simpl; lia.
  - simpl. lia.
  - by vm_compute.
  - apply Z.leb_le. by vm_compute.
Defined.

(** * Printing integers *)
Definition dec_digits (a : Z) (s : list Z) : Z := foldl (fun a c => 10 * a + (c - 48)) a s.
Definition dec_value (s : list Z) : Z :=
  match s with c :: r => if c =? 45 then - dec_digits 0 r else dec_digits 0 s | [] => 0 end.

Lemma digits_spec fuel n :
  0 <= n < 10 ^ Z.of_nat fuel ->
  dec_digits 0 (digits fuel n) = n /\ Forall (fun c => 48 <= c < 58) (digits fuel n)
  /\ (length (digits fuel n) <= fuel)%nat.
Proof.
  revert n. induction fuel as [|fuel IH]; intros n Hn; [split; [simpl; lia|done]|].
  cbn [digits]. case_cmp.
  { split; [unfold dec_digits; simpl; lia|split; [by repeat constructor; lia|simpl; lia]]. }
  rewrite Nat2Z.inj_succ, Z.pow_succ_r in Hn by lia.
  pose proof (Z.div_mod n 10 ltac:(lia)). pose proof (Z.mod_pos_bound n 10 ltac:(lia)).
  destruct (IH (n / 10)) as (Hv & Hd & Hl).
  { split; [apply Z.div_pos; lia|apply Z.div_lt_upper_bound; lia]. }
  split; [|split].
  - unfold dec_digits in *. rewrite foldl_app. simpl. rewrite Hv. lia.
  - apply Forall_app. split; [done|]. by repeat constructor; lia.
  - rewrite length_app. simpl. lia.
Qed.
(** 19 digits and a sign are enough for a 64-bit signed value, 20 digits for
    an unsigned one. *)
Lemma print_dec_spec n :
  LONG_MIN <= n <= ULONG_MAX ->
  dec_value (print_dec n) = n /\ no_nul (print_dec n) /\ blen (print_dec n) <= 20.
Proof.
  unfold LONG_MIN, ULONG_MAX, print_dec, no_nul, blen. intros Hn.
  assert (Hnz : forall s, Forall (fun c => 48 <= c < 58) s -> Forall (fun c => c <> 0) s).
  { intros s. apply Forall_impl. simpl. lia. }
  case_cmp.
  - assert (Heq : digits 20 (- n) = digits 19 (- n)).
    { assert (He : forall f m, 0 <= m < 10 ^ Z.of_nat f -> (0 < f)%nat -> digits (S f) m = digits f m).
      { induction f as [|f IH]; intros m Hm Hf; [lia|].
        rewrite Nat2Z.inj_succ, Z.pow_succ_r in Hm by lia.
        change (digits (S (S f)) m) with (if m <? 10 then [48 + m] else digits (S f) (m / 10) ++ [48 + m mod 10]).
        change (digits (S f) m) with (if m <? 10 then [48 + m] else digits f (m / 10) ++ [48 + m mod 10]).
        case_cmp; [done|]. destruct f as [|f]; [simpl in Hm; lia|].
        rewrite IH; [done| |lia]. split; [apply Z.div_pos; lia|apply Z.div_lt_upper_bound; lia]. }
      apply He; [|lia]. change (10 ^ Z.of_nat 19) with 10000000000000000000. lia. }
    rewrite Heq. destruct (digits_spec 19 (- n)) as (Hv & Hd & Hl).
    { change (10 ^ Z.of_nat 19) with 10000000000000000000. lia. }
    generalize dependent (digits 19 (- n)). intros d _ Hv Hd Hl.
    split; [|split]; [simpl; lia|constructor; [done|auto]|simpl length; lia].
  - destruct (digits_spec 20 n) as (Hv & Hd & Hl).
    { change (10 ^ Z.of_nat 20) with 100000000000000000000. lia. }
    split; [|split]; [|by auto|lia].
    destruct (digits 20 n) as [|c r] eqn:E; [done|]. cbn [dec_value].
    inversion Hd; subst. by rewrite (proj2 (Z.eqb_neq _ _)) by lia.
Qed.

(** [String_append_int] on a string whose length is 0 never overflows its
    local array, whatever the 64-bit value, and leaves the decimal notation of
    the value, from which the value can be read back. *)
Theorem String_append_int_spec (b : String) (k1 k2 n : Z) :
  wf b -> len b = 0 -> LONG_MIN <= n <= LONG_MAX ->
  exists b' s, String_append_int (Some k1) (Some k2) n (Some b) = Ok (ALIB_OK, Some b', [])
    /\ holds b' s /\ c_string (cells b') 0 = Ok s /\ dec_value s = n /\ blen s <= LLONG_MAX_CHAR_LEN.
Proof.
  intros Hw Hl Hn. destruct (print_dec_spec n) as (Hv & Hs & Hlen).
  { unfold LONG_MAX, ULONG_MAX in *. lia. }
  pose proof (blen_nonneg (print_dec n)).
  destruct (append_with_nul b k1 k2 (print_dec n) [Some 0] Hw) as (b' & E & Hw' & Hc);
    [lia|unfold ULONG_MAX; lia|].
  assert (Hc0 : content b = []).
  { destruct (content b) eqn:Ec; [done|]. pose proof (blen_content b Hw) as Hb.
    rewrite Ec, blen_cons in Hb. pose proof (blen_nonneg l). lia. }
  rewrite Hc0 in Hc. assert (Hh : holds b' (print_dec n)) by done.
  exists b', (print_dec n). split; [|split; [done|split; [by apply holds_c_string|done]]].
  unfold String_append_int, sprintf_dec. rewrite blen_snoc, (proj2 (Z.leb_le _ _))
    by (unfold LLONG_MAX_CHAR_LEN; lia).
  rewrite (bind_quiet _ _ _ (Some <$> (print_dec n ++ [0])) (Some b)) by done.
  rewrite fmap_app. unfold String_append.
  rewrite (bind_quiet _ _ _ ((Some <$> print_dec n) ++ (Some <$> [0])) (Some b)) by done.
  unfold c_strlen. rewrite (bind_quiet _ _ _ (blen (print_dec n)) (Some b)); [done|].
  unfold lift. change (Some <$> [0]) with [Some 0]. by rewrite (c_string_ok _ [] Hs).
Qed.
Lemma String_append_int_spec_witness :
  let b := mkBinaryBuffer None 0 0 0 8 in
  exists b' s, String_append_int (Some 1) (Some 2) (-42) (Some b) = Ok (ALIB_OK, Some b', [])
    /\ holds b' s /\ c_string (cells b') 0 = Ok s /\ dec_value s = -42 /\ blen s <= 20.
Proof.
  apply (String_append_int_spec (mkBinaryBuffer None 0 0 0 8) 1 2 (-42)); [|done|].
  - split; simpl; unfold ULONG_MAX; try done; unfold blen; simpl; lia.
  - unfold LONG_MIN, LONG_MAX. lia.
Defined.
