(* ===== verification/RBuff.v ===== *)
(** The rotational byte buffer ([source/RBuff.c]) and its iterator
    ([source/RBuffIt.c]).

    The record [RBuff] is the C structure with the pointers [buffEnd],
    [itBegin] and [itEnd] as offsets from [buff]; [content] is the queue of
    bytes it stands for.  The operations are shown to refine a bounded queue
    that drops its oldest bytes ([Spec.push], [Spec.pop]). *)
From S2P Require Import Prelude Memory.

(** * The C structure and its operations *)
Record RBuff := mkRBuff {
  buff : list Z;
  buffEnd : Z;
  itBegin : Z;
  itEnd : Z;
  count : Z;
  flags : Z
}.

Definition rbuffOwnedBuff : Z := 1.
Definition rbuffNoOverwrite : Z := 2.

Definition set_itBegin (v : Z) (r : RBuff) : RBuff :=
  mkRBuff (buff r) (buffEnd r) v (itEnd r) (count r) (flags r).
Definition set_itEnd (v : Z) (r : RBuff) : RBuff :=
  mkRBuff (buff r) (buffEnd r) (itBegin r) v (count r) (flags r).
Definition set_count (v : Z) (r : RBuff) : RBuff :=
  mkRBuff (buff r) (buffEnd r) (itBegin r) (itEnd r) v (flags r).
Definition set_buff (v : list Z) (r : RBuff) : RBuff :=
  mkRBuff v (buffEnd r) (itBegin r) (itEnd r) (count r) (flags r).

Definition _endItToBuffEnd (rbuff : option RBuff) : Z :=
  match rbuff with
  | None => 0
  | Some r =>
      if itEnd r <? itBegin r then u64 (itBegin r - itEnd r)
      else u64 (buffEnd r - itEnd r)
  end.

Definition _beginItToBuffEnd (rbuff : option RBuff) : Z :=
  match rbuff with
  | None => 0
  | Some r =>
      if itBegin r <? itEnd r then u64 (itEnd r - itBegin r)
      else u64 (buffEnd r - itBegin r)
  end.

Definition RBuff_get_size (rbuff : option RBuff) : Z :=
  match rbuff with None => 0 | Some r => u64 (buffEnd r) end.

(** No NULL check in the source. *)
Definition RBuff_get_count (rbuff : option RBuff) : res Z :=
  r ← deref rbuff; Ok (count r).

Definition RBuff_get_remaining (rbuff : option RBuff) : res Z :=
  match rbuff with
  | None => Ok 0
  | Some r => c ← RBuff_get_count rbuff; Ok (u64 (RBuff_get_size rbuff - c))
  end.

(** The new value of the iterator [it] of [r]. *)
Definition _incrementIt (r : RBuff) (it cnt : Z) : res Z :=
  let buffSize := RBuff_get_size (Some r) in
  cnt ← (if cnt >? buffSize
         then if buffSize =? 0 then UB DivByZero else Ok (cnt mod buffSize)
         else Ok cnt);
  let it := it + cnt in
  Ok (if it >=? buffEnd r then it - buffSize else it).

Definition RBuff_increment_it (rbuff : option RBuff) (cnt : Z) : res (option RBuff) :=
  match rbuff with
  | None => Ok None
  | Some r =>
      if cnt =? 0 then Ok rbuff else
      let buffSize := RBuff_get_size rbuff in
      r ← (if u64 (count r + cnt) >? buffSize
           then b ← _incrementIt r (itBegin r) cnt;
                Ok (set_count buffSize (set_itBegin b r))
           else Ok (set_count (u64 (count r + cnt)) r));
      e ← _incrementIt r (itEnd r) cnt;
      Ok (Some (set_itEnd e r))
  end.

(** Returns the number of bytes copied and the destination ([None] when the
    caller passed NULL). *)
Definition RBuff_copy (rbuff : option RBuff) (dst : option (list Z)) (cnt : Z)
    : res (Z * option (list Z)) :=
  match rbuff with
  | None => Ok (0, dst)
  | Some r =>
      if cnt =? 0 then Ok (0, dst) else
      rbuffCount ← RBuff_get_count rbuff;
      let cnt := if cnt >? rbuffCount then rbuffCount else cnt in
      let copyCount := _beginItToBuffEnd rbuff in
      '(dst, off, it, cnt, total) ←
        (if copyCount <? cnt
         then dst' ← match dst with
                     | Some d => d' ← blk_copy d 0 (buff r) (itBegin r) copyCount;
                                 Ok (Some d')
                     | None => Ok None
                     end;
              Ok (dst', copyCount, 0, u64 (cnt - copyCount), copyCount)
         else Ok (dst, 0, itBegin r, cnt, 0));
      dst ← match dst with
            | Some d => d' ← blk_copy d off (buff r) it cnt; Ok (Some d')
            | None => Ok None
            end;
      Ok (u64 (total + cnt), dst)
  end.

(** [RBuff_copy] reads [rbuff] first; the iterator update ignores NULL, and
    [rbuff->count -= rval] does not. *)
Definition RBuff_popoff (rbuff : option RBuff) (dst : option (list Z)) (cnt : Z)
    : res (Z * option (list Z) * option RBuff) :=
  '(rval, dst) ← RBuff_copy rbuff dst cnt;
  r ← deref rbuff;
  b ← _incrementIt r (itBegin r) rval;
  let r := set_itBegin b r in
  Ok (rval, dst, Some (set_count (u64 (count r - rval)) r)).

Definition RBuff_popoff_byte (rbuff : option RBuff) : res (Z * option RBuff) :=
  match rbuff with
  | None => Ok (ALIB_BAD_ARG, None)
  | Some r =>
      c ← RBuff_get_count rbuff;
      if c =? 0 then Ok (ALIB_BAD_ARG, rbuff) else
      rval ← blk_load (buff r) (itBegin r);
      b ← _incrementIt r (itBegin r) 1;
      let r := set_itBegin b r in
      Ok (rval, Some (set_count (u64 (count r - 1)) r))
  end.

(** The two copies at the end of [RBuff_pushback]: the source [src] from
    offset [soff], [cnt] bytes, into the buffer at [itEnd].  [totalCount] is an
    [int32_t]. *)
Definition RBuff_push_copies (r : RBuff) (src : list Z) (soff cnt : Z)
    : res (Z * RBuff) :=
  let copyCount := _endItToBuffEnd (Some r) in
  '(r, soff, cnt, copyCount, totalCount) ←
    (if cnt >? copyCount
     then b ← blk_copy (buff r) (itEnd r) src soff copyCount;
          Ok (set_itEnd 0 (set_buff b r), soff + copyCount, u64 (cnt - copyCount),
              u64 (cnt - copyCount), s32 copyCount)
     else Ok (r, soff, cnt, copyCount, 0));
  let copyCount := if copyCount >? cnt then cnt else copyCount in
  b ← blk_copy (buff r) (itEnd r) src soff copyCount;
  let r := set_itEnd (itEnd r + copyCount) (set_buff b r) in
  Ok (s32 (totalCount + copyCount), r).

(** "Pop items off if there are too many": the buffer and the number of bytes
    to store. *)
Definition RBuff_make_room (r : RBuff) (cnt : Z) : res (RBuff * Z) :=
  let buffSize := RBuff_get_size (Some r) in
  buffCount ← RBuff_get_count (Some r);
  if u64 (cnt + buffCount) >? buffSize
  then if negb (Z.land (flags r) rbuffNoOverwrite =? 0)
       then Ok (r, u64 (buffSize - buffCount))
       else '(_, _, r') ← RBuff_popoff (Some r) None (u64 (u64 (cnt + buffCount) - buffSize));
            r' ← deref r'; Ok (r', cnt)
  else Ok (r, cnt).

Definition RBuff_pushback (rbuff : option RBuff) (src : option (list Z)) (cnt : Z)
    : res (Z * option RBuff) :=
  match rbuff, src with
  | Some r, Some src =>
      if cnt =? 0 then Ok (0, rbuff) else
      let buffSize := RBuff_get_size rbuff in
      let '(soff, cnt) :=
        if cnt >? buffSize then (cnt - buffSize, buffSize) else (0, cnt) in
      '(r, cnt) ← RBuff_make_room r cnt;
      '(totalCount, r) ← RBuff_push_copies r src soff cnt;
      let c := u64 (count r + totalCount) in
      let c := if c >? buffSize then buffSize else c in
      Ok (u64 totalCount, Some (set_count c r))
  | _, _ => Ok (0, rbuff)
  end.

Definition RBuff_pushback_byte (rbuff : option RBuff) (byte : Z) : res (Z * option RBuff) :=
  RBuff_pushback rbuff (Some [byte]) 1.

(** [b] is the memory the caller passes, [buffSize] the size it states. *)
Definition RBuff_init (rbuff : option RBuff) (b : option (list Z)) (buffSize fl : Z)
    : Z * option RBuff :=
  match rbuff, b with
  | Some _, Some b =>
      if buffSize =? 0 then (ALIB_BAD_ARG, rbuff)
      else (ALIB_OK, Some (mkRBuff b buffSize 0 0 0 fl))
  | _, _ => (ALIB_BAD_ARG, rbuff)
  end.

Definition RBuff_reset (rbuff : option RBuff) : option RBuff :=
  match rbuff with
  | None => None
  | Some r => (RBuff_init rbuff (Some (buff r)) (RBuff_get_size rbuff) (flags r)).2
  end.

(** The two allocations of [newRBuff] may fail; [b] is the (uninitialised)
    memory a successful [malloc(buffSize)] returns, [o] the object. *)
Definition newRBuff (buffSize : Z) (b : option (list Z)) (o : option RBuff)
    : option RBuff :=
  if buffSize =? 0 then None
  else match b, o with
       | Some b, Some o =>
           match RBuff_init (Some o) (Some b) buffSize rbuffOwnedBuff with
           | (err, r) => if err =? 0 then r else None
           end
       | _, _ => None
       end.

(** Whether the object's buffer is freed with it; [delRBuff] also clears the
    caller's pointer (the second component). *)
Definition freeRBuff (rbuff : option RBuff) : bool :=
  match rbuff with
  | None => false
  | Some r => negb (Z.land (flags r) rbuffOwnedBuff =? 0)
  end.
Definition delRBuff (rbuff : option (option RBuff)) : bool * option (option RBuff) :=
  match rbuff with
  | None => (false, None)
  | Some r => (freeRBuff r, Some None)
  end.

(** * The queue the buffer stands for *)
Module Spec.
(** Appends [data]; when more than [cap] bytes result, the oldest go. *)
Definition push (cap : Z) (q data : list Z) : list Z :=
  drop (Z.to_nat (blen (q ++ data) - cap)) (q ++ data).
(** Appends what fits of the last [cap] bytes of [data]. *)
Definition push_fit (cap : Z) (q data : list Z) : list Z :=
  let n := Z.min (blen data) cap in
  q ++ slice data (blen data - n) (Z.min n (cap - blen q)).
(** Removes the oldest [n] bytes, and returns them. *)
Definition pop (n : Z) (q : list Z) : list Z * list Z :=
  (take (Z.to_nat n) q, drop (Z.to_nat n) q).
End Spec.

(** The bytes stored, oldest first: a slice of the doubled array. *)
Definition content (r : RBuff) : list Z :=
  slice (buff r ++ buff r) (itBegin r) (count r).

Record wf (r : RBuff) : Prop := {
  wf_block : blen (buff r) = buffEnd r;
  wf_size : 0 < buffEnd r < 2 ^ 63;
  wf_begin : 0 <= itBegin r < buffEnd r;
  wf_end : 0 <= itEnd r <= buffEnd r;
  wf_count : 0 <= count r <= buffEnd r;
  wf_iters : itEnd r = itBegin r + count r
             \/ itEnd r = itBegin r + count r - buffEnd r
             \/ itBegin r = 0 /\ count r = 0 /\ itEnd r = buffEnd r
}.

Lemma lookup_content r (i : nat) :
  blen (buff r) = buffEnd r -> 0 <= itBegin r ->
  content r !! i =
    if decide (Z.of_nat i < count r) then
      if decide (itBegin r + Z.of_nat i < buffEnd r)
      then buff r !! Z.to_nat (itBegin r + Z.of_nat i)
      else buff r !! Z.to_nat (itBegin r + Z.of_nat i - buffEnd r)
    else None.
Proof.
  intros Hb H0. unfold content. rewrite lookup_slice by done.
  unfold blen in Hb. case_decide; [|done]. case_decide.
  - rewrite lookup_app_l by lia. done.
  - rewrite lookup_app_r by lia. f_equal. lia.
Qed.

Lemma blen_queue r : wf r -> blen (content r) = count r.
Proof.
  intros []. unfold content. apply blen_slice; rewrite ?blen_app; lia.
Qed.

Lemma incrementIt_ok r it cnt :
  0 < buffEnd r < 2 ^ 63 -> 0 <= it <= buffEnd r -> 0 <= cnt <= buffEnd r ->
  _incrementIt r it cnt =
    Ok (if it + cnt >=? buffEnd r then it + cnt - buffEnd r else it + cnt).
Proof.
  intros ???. unfold _incrementIt, RBuff_get_size. unwrap.
  by run.
Qed.

(** Overwrites the start of the caller's buffer, when there is one. *)
Definition fill_dst (dst : option (list Z)) (d : list Z) : option (list Z) :=
  (fun b => d ++ drop (length d) b) <$> dst.

(** A prefix of the content is one or two slices of the array. *)
Lemma content_prefix r n :
  wf r -> 0 <= n <= count r ->
  take (Z.to_nat n) (content r) =
    if itBegin r + n <=? buffEnd r then slice (buff r) (itBegin r) n
    else slice (buff r) (itBegin r) (buffEnd r - itBegin r)
         ++ slice (buff r) 0 (n - (buffEnd r - itBegin r)).
Proof.
  intros [] ?. apply list_eq. intros i.
  assert (take (Z.to_nat n) (content r) !! i =
          if decide (Z.of_nat i < n) then content r !! i else None) as ->.
  { case_decide; [rewrite lookup_take_lt by lia|rewrite lookup_take_ge by lia]; done. }
  rewrite lookup_content by (done || lia).
  case_cmp.
  - rewrite lookup_slice by lia. repeat (case_decide; try done; try lia).
  - rewrite lookup_app, lookup_slice by lia.
    repeat (case_decide; try done; try lia).
    + destruct (buff r !! _) eqn:E; [done|]. apply lookup_ge_None in E.
      unfold blen in *. lia.
    + rewrite lookup_slice by lia. pose proof (blen_slice (buff r) (itBegin r) (buffEnd r - itBegin r)) as L.
      unfold blen in L at 2. rewrite decide_True by (unfold blen in *; lia).
      f_equal. unfold blen in *. lia.
    + rewrite lookup_slice by lia. pose proof (blen_slice (buff r) (itBegin r) (buffEnd r - itBegin r)) as L.
      unfold blen in L at 2. by rewrite decide_False by (unfold blen in *; lia).
Qed.

Lemma beginItToBuffEnd_ok r :
  wf r ->
  _beginItToBuffEnd (Some r) =
    if itBegin r <? itEnd r then itEnd r - itBegin r else buffEnd r - itBegin r.
Proof.
  intros []. cbn [_beginItToBuffEnd]. case_cmp; apply u64_small; lia.
Qed.

Lemma blk_copy_into_prefix (d0 d src : list Z) f n :
  0 <= f -> 0 <= n -> f + n <= blen src -> blen d0 + n <= blen d ->
  blk_copy (d0 ++ drop (length d0) d) (blen d0) src f n =
    Ok ((d0 ++ slice src f n) ++ drop (length (d0 ++ slice src f n)) d).
Proof.
  intros. pose proof (blen_nonneg d0). pose proof (blen_slice src f n).
  assert (blen (drop (length d0) d) = blen d - blen d0).
  { unfold blen in *. rewrite length_drop. lia. }
  rewrite blk_copy_ok by (rewrite ?blen_app; lia).
  f_equal. unfold splice. rewrite blen_slice by lia.
  unfold blen in *. rewrite Nat2Z.id, take_app_length.
  rewrite length_app, <- app_assoc. do 2 f_equal.
  rewrite drop_app_ge by lia. rewrite drop_drop. f_equal. lia.
Qed.

Lemma RBuff_copy_ok r dst n :
  wf r -> 0 <= n ->
  (forall d, dst = Some d -> Z.min n (count r) <= blen d) ->
  RBuff_copy (Some r) dst n =
    Ok (Z.min n (count r), fill_dst dst (take (Z.to_nat n) (content r))).
Proof.
  intros Hwf Hn Hd. pose proof Hwf as [].
  assert (take (Z.to_nat n) (content r) = take (Z.to_nat (Z.min n (count r))) (content r)) as ->.
  { pose proof (blen_queue r Hwf). destruct (decide (n <= count r)).
    - do 2 f_equal. lia.
    - rewrite !firstn_all2; unfold blen in *; lia || done. }
  rewrite content_prefix by (done || lia).
  unfold RBuff_copy. rewrite beginItToBuffEnd_ok by done.
  destruct (Z.eqb_spec n 0) as [->|].
  { rewrite (Z.min_l 0) by lia. rewrite Z.add_0_r. case_cmp; [|lia]. by destruct dst. }
  simpl. set (k := Z.min n (count r)) in *.
  replace (if n >? count r then count r else n) with k by (unfold k; case_cmp; lia).
  set (c := if itBegin r <? itEnd r then _ else _).
  assert (Hc : 0 < c /\ (c < k <-> buffEnd r < itBegin r + k) /\
               (c < k -> c = buffEnd r - itBegin r)).
  { subst c. case_cmp; lia. }
  clearbody c. destruct Hc as (Hc0 & Hc1 & Hc2).
  destruct (Z.leb_spec (itBegin r + k) (buffEnd r)) as [Hle|Hgt].
  - replace (c <? k) with false by (symmetry; apply Z.ltb_ge; lia). rstep.
    destruct dst as [d|]; [|by rstep; unwrap].
    specialize (Hd d eq_refl).
    rewrite (blk_copy_into_prefix [] d) by (rewrite ?blen_nil; lia).
    rstep. by unwrap.
  - replace (c <? k) with true by (symmetry; apply Z.ltb_lt; lia). rewrite Hc2 by lia.
    destruct dst as [d|]; cycle 1.
    { rstep. unwrap. do 2 f_equal. lia. }
    specialize (Hd d eq_refl).
    rewrite (blk_copy_into_prefix [] d) by (rewrite ?blen_nil; lia). rstep. simpl app.
    set (d0 := slice (buff r) (itBegin r) _).
    assert (Hd0 : blen d0 = buffEnd r - itBegin r) by (apply blen_slice; lia).
    unwrap. rewrite <- Hd0.
    rewrite blk_copy_into_prefix by lia.
    rstep. unwrap. do 2 f_equal. lia.
Qed.

(** Moving [itBegin] over the [k] oldest bytes removes them. *)
Definition advance (r : RBuff) (k : Z) : RBuff :=
  set_count (count r - k)
    (set_itBegin (if itBegin r + k >=? buffEnd r then itBegin r + k - buffEnd r
                  else itBegin r + k) r).

Lemma advance_wf r k : wf r -> 0 <= k <= count r -> wf (advance r k).
Proof. intros [] ?. split; simpl; try lia; try done; case_cmp; lia. Qed.

Lemma advance_content r k :
  wf r -> 0 <= k <= count r -> content (advance r k) = drop (Z.to_nat k) (content r).
Proof.
  intros Hwf ?. pose proof (advance_wf r k Hwf ltac:(lia)) as Hwf'.
  pose proof Hwf as []. pose proof Hwf' as [].
  apply list_eq. intros i. rewrite lookup_drop, !lookup_content by (done || lia).
  unfold advance in *. simpl in *. revert wf_begin1.
  case_cmp; intros; repeat (case_decide; try lia; try done); f_equal; lia.
Qed.

Lemma RBuff_popoff_ok r dst n :
  wf r -> 0 <= n ->
  (forall d, dst = Some d -> Z.min n (count r) <= blen d) ->
  RBuff_popoff (Some r) dst n =
    Ok (Z.min n (count r), fill_dst dst (take (Z.to_nat n) (content r)),
        Some (advance r (Z.min n (count r)))).
Proof.
  intros Hwf ??. unfold RBuff_popoff. rewrite RBuff_copy_ok by done. rstep.
  pose proof Hwf as []. rewrite incrementIt_ok by lia. rstep.
  unfold advance. simpl. by unwrap.
Qed.

Lemma drop_min_content r n :
  wf r -> 0 <= n ->
  drop (Z.to_nat (Z.min n (count r))) (content r) = drop (Z.to_nat n) (content r).
Proof.
  intros Hwf ?. pose proof (blen_queue r Hwf). destruct (decide (n <= count r)).
  - do 2 f_equal. lia.
  - rewrite !drop_ge; unfold blen in *; lia || done.
Qed.

(** The cell of the [i]-th byte after [itBegin]. *)
Definition cell_at (r : RBuff) (i : Z) : nat :=
  Z.to_nat (if itBegin r + i <? buffEnd r then itBegin r + i
            else itBegin r + i - buffEnd r).

(** A buffer whose old cells are kept and whose next cells hold [d]. *)
Lemma content_extend r r' (d : list Z) :
  wf r -> blen (buff r') = buffEnd r' -> buffEnd r' = buffEnd r ->
  itBegin r' = itBegin r -> count r' = count r + blen d ->
  (forall i, 0 <= i < count r -> buff r' !! cell_at r i = buff r !! cell_at r i) ->
  (forall j, 0 <= j < blen d ->
     buff r' !! cell_at r (count r + j) = d !! Z.to_nat j) ->
  content r' = content r ++ d.
Proof.
  intros Hwf Hb He Hi Hc Hold Hnew. pose proof (blen_queue r Hwf) as Hl.
  pose proof Hwf as []. pose proof (blen_nonneg d).
  apply list_eq. intros i. rewrite lookup_app.
  rewrite !lookup_content by (done || lia). rewrite Hi, He, Hc.
  specialize (Hold (Z.of_nat i)). specialize (Hnew (Z.of_nat i - count r)).
  unfold cell_at in *. replace (count r + (Z.of_nat i - count r)) with (Z.of_nat i) in Hnew by lia.
  destruct (decide (Z.of_nat i < count r)).
  - rewrite decide_True by lia. specialize (Hold ltac:(lia)). revert Hold.
    case_cmp; case_decide; try lia; intros ->;
      (destruct (buff r !! _) eqn:E; [done|apply lookup_ge_None in E; unfold blen in *; lia]).
  - replace (i - length (content r))%nat with (Z.to_nat (Z.of_nat i - count r))
      by (unfold blen in Hl; lia).
    case_decide.
    + specialize (Hnew ltac:(lia)). revert Hnew. case_cmp; case_decide; try lia; done.
    + symmetry. apply lookup_ge_None. unfold blen in *. lia.
Qed.

Lemma endItToBuffEnd_ok r :
  wf r ->
  _endItToBuffEnd (Some r) =
    if itEnd r <? itBegin r then itBegin r - itEnd r else buffEnd r - itEnd r.
Proof. intros []. cbn [_endItToBuffEnd]. case_cmp; apply u64_small; lia. Qed.

(** What the two copies of a push leave in the buffer. *)
Lemma push_copies_ok r src soff cnt :
  wf r -> buffEnd r <= INT32_MAX -> 0 <= soff -> 0 <= cnt <= buffEnd r - count r ->
  soff + cnt <= blen src ->
  exists r', RBuff_push_copies r src soff cnt = Ok (cnt, r')
    /\ count r' = count r /\ buffEnd r' = buffEnd r /\ flags r' = flags r
    /\ itBegin r' = itBegin r
    /\ wf (set_count (count r + cnt) r')
    /\ content (set_count (count r + cnt) r') = content r ++ slice src soff cnt.
Proof.
  intros Hwf Hmax Hs Hcnt Hsrc. unfold RBuff_push_copies, INT32_MAX in *.
  rewrite endItToBuffEnd_ok by done. pose proof Hwf as [].
  set (c := if itEnd r <? itBegin r then _ else _).
  assert (Hc : 0 <= c /\ itEnd r + c <= buffEnd r /\
               (itEnd r < itBegin r -> c = itBegin r - itEnd r) /\
               (cnt > c -> itBegin r <= itEnd r /\ c = buffEnd r - itEnd r)).
  { subst c. case_cmp; lia. }
  clearbody c. destruct Hc as (? & ? & ? & Hc).
  pose proof (blen_slice src soff cnt Hs) as L1.
  pose proof (blen_slice src soff c Hs) as L2.
  pose proof (blen_slice src (soff + c) (cnt - c)) as L3.
  destruct (Z.gtb_spec cnt c).
  - unwrap. rewrite blk_copy_ok by lia. rstep. cbn [buff set_itEnd set_buff itEnd].
    rewrite Z.gtb_ltb, Z.ltb_irrefl.
    pose proof (blen_splice (buff r) (itEnd r) (slice src soff c)) as L4.
    rewrite blk_copy_ok by lia. rstep. rewrite (s32_small c), s32_small by lia.
    eexists. split; [repeat f_equal; lia|]. repeat (split; [done|]).
    pose proof (blen_splice (splice (buff r) (itEnd r) (slice src soff c)) 0
                  (slice src (soff + c) (cnt - c))) as L5.
    split; [split; simpl; lia|].
    eapply content_extend; simpl; try done; try lia; unfold cell_at; intros i ?.
    + case_cmp; rewrite !lookup_splice_out by lia; done.
    + destruct (decide (i < c)).
      * case_cmp; [|lia]. rewrite lookup_splice_out, lookup_splice_in by lia.
        rewrite !lookup_slice_in by lia. f_equal. lia.
      * case_cmp; rewrite lookup_splice_in by lia;
          rewrite !lookup_slice_in by lia; f_equal; lia.
  - rstep. replace (if c >? cnt then cnt else c) with cnt by (case_cmp; lia).
    rewrite blk_copy_ok by lia. rstep. rewrite s32_small by lia.
    eexists. split; [done|]. repeat (split; [done|]).
    pose proof (blen_splice (buff r) (itEnd r) (slice src soff cnt)) as L4.
    split; [split; simpl; lia|].
    eapply content_extend; simpl; try done; try lia; unfold cell_at; intros i ?.
    + case_cmp; rewrite lookup_splice_out by lia; done.
    + case_cmp; rewrite lookup_splice_in by lia; f_equal; lia.
Qed.

(** Making room keeps the newest bytes that fit, or (without overwriting)
    accepts only as many bytes as fit. *)
Lemma make_room_overwrite r n :
  wf r -> 0 <= n <= buffEnd r -> Z.land (flags r) rbuffNoOverwrite = 0 ->
  exists r2, RBuff_make_room r n = Ok (r2, n) /\ wf r2
    /\ content r2 = drop (Z.to_nat (n + count r - buffEnd r)) (content r)
    /\ count r2 = Z.min (count r) (buffEnd r - n)
    /\ buffEnd r2 = buffEnd r /\ flags r2 = flags r.
Proof.
  intros Hwf Hn Hfl. pose proof Hwf as [].
  unfold RBuff_make_room, RBuff_get_count, RBuff_get_size. rstep. unwrap.
  rewrite Hfl, Z.gtb_ltb. destruct (Z.ltb_spec (buffEnd r) (n + count r)).
  - rstep. unwrap. rewrite RBuff_popoff_ok by (done || lia). rstep.
    eexists. split; [done|]. split; [apply advance_wf; done || lia|].
    rewrite advance_content by (done || lia). rewrite Z.min_l by lia.
    repeat split; simpl; lia.
  - rewrite Z2Nat.nonpos, drop_0 by lia.
    eexists. split; [done|]. repeat split; done || lia.
Qed.

Lemma make_room_keep r n :
  wf r -> 0 <= n <= buffEnd r -> Z.land (flags r) rbuffNoOverwrite <> 0 ->
  RBuff_make_room r n = Ok (r, Z.min n (buffEnd r - count r)).
Proof.
  intros Hwf Hn Hfl. pose proof Hwf as [].
  unfold RBuff_make_room, RBuff_get_count, RBuff_get_size. rstep. unwrap.
  rewrite (proj2 (Z.eqb_neq _ 0) Hfl). rstep. case_cmp; do 2 f_equal; lia.
Qed.

(** [RBuff_pushback] once the room is made. *)
Lemma pushback_after_room r r2 data n n2 :
  wf r -> buffEnd r <= INT32_MAX -> 0 < blen data < 2 ^ 63 ->
  n = Z.min (blen data) (buffEnd r) -> 0 <= n2 <= n ->
  RBuff_make_room r n = Ok (r2, n2) -> wf r2 -> buffEnd r2 = buffEnd r ->
  flags r2 = flags r -> n2 <= buffEnd r - count r2 ->
  exists r1, RBuff_pushback (Some r) (Some data) (blen data) = Ok (n2, Some r1)
    /\ wf r1 /\ flags r1 = flags r /\ buffEnd r1 = buffEnd r
    /\ content r1 = content r2 ++ slice data (blen data - n) n2.
Proof.
  intros Hwf Hmax Hlen Hn Hn2 Hroom Hwf2 He2 Hf2 Hfit. pose proof Hwf as []. pose proof Hwf2 as [].
  unfold RBuff_pushback, RBuff_get_size, INT32_MAX in *. unwrap.
  destruct (Z.eqb_spec (blen data) 0) as [|Hnz]; [lia|]. rstep.
  replace (if blen data >? buffEnd r then _ else _) with (blen data - n, n)
    by (subst n; case_cmp; f_equal; lia).
  rewrite Hroom. rstep.
  destruct (push_copies_ok r2 data (blen data - n) n2) as (r3 & -> & H1 & H2 & H3 & H4 & H5 & H6);
    [done|unfold INT32_MAX; lia|lia|lia|lia|].
  rstep. rewrite H1. unwrap.
  replace (if count r2 + n2 >? buffEnd r then buffEnd r else count r2 + n2)
    with (count r2 + n2) by (case_cmp; lia).
  eexists. split; [done|]. split; [done|]. repeat split; simpl; congruence.
Qed.

(** ** The operations refine the queue *)

(** A push with overwriting: the queue takes the new bytes, the oldest go. *)
Lemma RBuff_pushback_refines (r : RBuff) (data : list Z) :
  wf r -> buffEnd r <= INT32_MAX -> Z.land (flags r) rbuffNoOverwrite = 0 ->
  0 < blen data < 2 ^ 63 ->
  exists r1, RBuff_pushback (Some r) (Some data) (blen data)
      = Ok (Z.min (blen data) (buffEnd r), Some r1)
    /\ wf r1 /\ flags r1 = flags r /\ buffEnd r1 = buffEnd r
    /\ content r1 = Spec.push (buffEnd r) (content r) data.
Proof.
  intros Hwf Hmax Hfl Hlen. pose proof Hwf as []. pose proof (blen_queue r Hwf) as Hcl.
  destruct (make_room_overwrite r (Z.min (blen data) (buffEnd r)))
    as (r2 & Hroom & Hwf2 & Hc2 & Hn2 & He2 & Hf2); [done|lia|done|].
  set (n := Z.min (blen data) (buffEnd r)) in *.
  destruct (pushback_after_room r r2 data n n) as (r1 & -> & ? & ? & ? & Hc1);
    try done; try lia.
  eexists. split; [done|]. repeat (split; [done|]).
  rewrite Hc1, Hc2. unfold Spec.push, slice. rewrite blen_app, Hcl, drop_app.
  subst n. rewrite firstn_all2 by (rewrite length_drop; unfold blen in *; lia).
  f_equal; [|f_equal; unfold blen in *; lia].
  destruct (decide (blen data <= buffEnd r)); [do 2 f_equal; lia|].
  rewrite !drop_ge by (unfold blen in *; lia). done.
Qed.

(** Without overwriting, the stored bytes are kept and as many of the last
    [buffEnd] bytes as fit are added. *)
Lemma RBuff_pushback_keeps (r : RBuff) (data : list Z) :
  wf r -> buffEnd r <= INT32_MAX -> Z.land (flags r) rbuffNoOverwrite <> 0 ->
  0 < blen data < 2 ^ 63 ->
  let n := Z.min (blen data) (buffEnd r) in
  let k := Z.min n (buffEnd r - count r) in
  exists r1, RBuff_pushback (Some r) (Some data) (blen data) = Ok (k, Some r1)
    /\ wf r1 /\ flags r1 = flags r /\ buffEnd r1 = buffEnd r
    /\ content r1 = content r ++ slice data (blen data - n) k.
Proof.
  intros Hwf Hmax Hfl Hlen n k. pose proof Hwf as [].
  apply pushback_after_room; try done; try lia.
  apply make_room_keep; done || lia.
Qed.

(** A pop returns and removes the oldest bytes. *)
Lemma RBuff_popoff_refines (r : RBuff) (dst : list Z) (n : Z) :
  wf r -> 0 <= n -> Z.min n (count r) <= blen dst ->
  let '(out, rest) := Spec.pop n (content r) in
  exists r1, RBuff_popoff (Some r) (Some dst) n
      = Ok (blen out, Some (out ++ drop (length out) dst), Some r1)
    /\ wf r1 /\ content r1 = rest.
Proof.
  intros Hwf Hn Hd. unfold Spec.pop. pose proof (blen_queue r Hwf) as Hc. pose proof Hwf as [].
  rewrite RBuff_popoff_ok by (done || naive_solver).
  exists (advance r (Z.min n (count r))).
  split; [|split; [apply advance_wf; done || lia|]].
  - replace (blen (take _ _)) with (Z.min n (count r)); [done|].
    unfold blen in *. rewrite length_take. lia.
  - rewrite advance_content by (done || lia). by apply drop_min_content.
Qed.

(** [RBuff_popoff_byte] is the pop of one byte; it fails exactly when the
    buffer is empty. *)
Lemma RBuff_popoff_byte_refines (r : RBuff) :
  wf r ->
  RBuff_popoff_byte (Some r) =
    Ok match content r with
       | [] => (ALIB_BAD_ARG, Some r)
       | b :: _ => (b, Some (advance r 1))
       end.
Proof.
  intros Hwf. pose proof Hwf as []. pose proof (blen_queue r Hwf) as Hc.
  unfold RBuff_popoff_byte, RBuff_get_count. rstep.
  destruct (content r) as [|b q] eqn:E.
  - rewrite blen_nil in Hc. by rewrite <- Hc.
  - rewrite blen_cons in Hc. pose proof (blen_nonneg q).
    rewrite (proj2 (Z.eqb_neq _ 0)) by lia.
    assert (content r !! 0%nat = Some b) as Hb by by rewrite E.
    rewrite lookup_content in Hb by (done || lia). rewrite decide_True in Hb by lia.
    rewrite decide_True in Hb by lia. rewrite Z.add_0_r in Hb.
    rewrite (blk_load_ok _ _ b) by (done || lia). rstep.
    rewrite incrementIt_ok by lia. rstep. unfold advance. simpl. by unwrap.
Qed.

(** [RBuff_increment_it] within the free space only moves the end. *)
Lemma RBuff_increment_it_fits (r : RBuff) (n : Z) :
  wf r -> 0 < n <= buffEnd r - count r ->
  exists r1, RBuff_increment_it (Some r) n = Ok (Some r1)
    /\ wf r1 /\ count r1 = count r + n /\ itBegin r1 = itBegin r /\ buff r1 = buff r.
Proof.
  intros Hwf Hn. pose proof Hwf as [].
  unfold RBuff_increment_it, RBuff_get_size. unwrap.
  rewrite (proj2 (Z.eqb_neq n 0)) by lia.
  replace (count r + n >? buffEnd r) with false by (symmetry; rewrite Z.gtb_ltb; apply Z.ltb_ge; lia).
  rstep. rewrite incrementIt_ok by (simpl; lia). rstep.
  eexists. split; [done|]. split; [|done].
  split; simpl; try done; try lia; case_cmp; lia.
Qed.

(** * The iterator ([RBuffIt]) *)
Module It.
(** The iterator points to the shared buffer, passed here as [r], and holds
    the pointer [it] into it ([None] is NULL). *)
Record RBuffIt := mkRBuffIt { it : option Z }.

(** Returns whether a recovery took place. *)
Definition _recover (r : RBuff) (p : option RBuffIt) : Z * option RBuffIt :=
  match p with
  | None => (0, None)
  | Some i =>
      (* NULL compares below every pointer into the buffer. *)
      let lt_begin := match it i with None => true | Some a => a <? itBegin r end in
      let gt_end := match it i with None => false | Some a => a >? itEnd r end in
      if itBegin r >? itEnd r
      then if lt_begin && gt_end then (1, Some (mkRBuffIt None)) else (0, p)
      else if lt_begin || gt_end then (1, Some (mkRBuffIt None)) else (0, p)
  end.

Definition RBuffIt_get_index (r : RBuff) (p : option RBuffIt) : Z :=
  match p with
  | Some (mkRBuffIt (Some a)) =>
      if a <? itBegin r then s32 (u64 (buffEnd r - itBegin r + a))
      else s32 (u64 (a - itBegin r))
  | _ => -1
  end.

Definition RBuffIt_next (r : RBuff) (p : option RBuffIt) : Z * option RBuffIt :=
  match p with
  | None => (0, None)
  | Some (mkRBuffIt None) =>
      if count r =? 0 then (0, p) else (1, Some (mkRBuffIt (Some (itBegin r))))
  | Some (mkRBuffIt (Some a)) =>
      let a := a + 1 in
      let a := if a >=? buffEnd r then 0 else a in
      if a =? itEnd r then (0, Some (mkRBuffIt None))
      else (1, Some (mkRBuffIt (Some a)))
  end.

Definition RBuffIt_prev (r : RBuff) (p : option RBuffIt) : Z * option RBuffIt :=
  match p with
  | None => (0, None)
  | Some (mkRBuffIt None) =>
      if count r =? 0 then (0, p) else (1, Some (mkRBuffIt (Some (itEnd r))))
  | Some (mkRBuffIt (Some a)) =>
      if a =? itBegin r then (0, Some (mkRBuffIt None))
      else let a := a - 1 in
           (1, Some (mkRBuffIt (Some (if a <? 0 then buffEnd r - 1 else a))))
  end.

Definition RBuffIt_reset (p : option RBuffIt) : option RBuffIt :=
  match p with None => None | Some _ => Some (mkRBuffIt None) end.

Definition newRBuffIt (ok : bool) (r : option RBuff) : option RBuffIt :=
  match r with
  | None => None
  | Some _ => if ok then Some (mkRBuffIt None) else None
  end.
(** [delRBuffIt] frees the iterator and clears the caller's pointer. *)
Definition delRBuffIt (p : option (option RBuffIt)) : option (option RBuffIt) :=
  match p with None => None | Some _ => Some None end.

Definition RBuffIt_init (p : option RBuffIt) (r : option RBuff) : Z * option RBuffIt :=
  match p, r with
  | Some _, Some _ => (ALIB_OK, Some (mkRBuffIt None))
  | _, _ => (ALIB_BAD_ARG, p)
  end.

(** The client loop [while(RBuffIt_next(it)) use the byte at it->it], which
    the iterator is for: one iteration of it, and the loop. *)
Definition visit (r : RBuff) (s : option RBuffIt * list Z)
    : res ((option RBuffIt * list Z) + list Z) :=
  let '(p, acc) := s in
  let '(more, p) := RBuffIt_next r p in
  if more =? 0 then Ok (inr acc)
  else i ← deref p;
       a ← deref (it i);
       b ← blk_load (buff r) a;
       Ok (inl (p, acc ++ [b])).
Definition visit_all (fuel : nat) (r : RBuff) : res (list Z) :=
  loop fuel (visit r) (Some (mkRBuffIt None), []).

(** The loop's states: [k] bytes visited, the iterator on the last one. *)
Definition visited (r : RBuff) (s : option RBuffIt * list Z) : Prop :=
  exists k, 0 <= k <= count r /\ s.2 = take (Z.to_nat k) (content r) /\
    s.1 = Some (mkRBuffIt (if k =? 0 then None else Some (Z.of_nat (cell_at r (k - 1))))).

Lemma content_lookup_cell r k :
  wf r -> 0 <= k < count r ->
  exists b, content r !! Z.to_nat k = Some b /\ buff r !! cell_at r k = Some b
    /\ take (Z.to_nat (k + 1)) (content r) = take (Z.to_nat k) (content r) ++ [b].
Proof.
  intros Hwf Hk. pose proof (blen_queue r Hwf) as Hl. pose proof Hwf as [].
  destruct (lookup_Z_is_Some (content r) k) as [b Hb]; [unfold blen in *; lia|].
  exists b. split; [done|]. split.
  - rewrite lookup_content in Hb by (done || lia). rewrite Z2Nat.id in Hb by lia.
    rewrite decide_True in Hb by lia. revert Hb. unfold cell_at.
    case_cmp; case_decide; lia || done.
  - rewrite Z2Nat.inj_add, Nat.add_1_r by lia. by apply take_S_r.
Qed.

(** One step of the loop visits the next byte or stops after the last. *)
Lemma visit_step r s :
  wf r -> itEnd r < buffEnd r -> visited r s ->
  yields (visit r s) (fun o =>
    match o with
    | inl s' => visited r s' /\ (length (content r) - length s'.2 < length (content r) - length s.2)%nat
    | inr bs => bs = content r
    end).
Proof.
  intros Hwf He (k & Hk & Hacc & Hp). destruct s as [p acc]. simpl in *. subst.
  pose proof (blen_queue r Hwf) as Hl. pose proof Hwf as [].
  assert (Hstop : k = count r -> take (Z.to_nat k) (content r) = content r).
  { intros ->. apply take_ge. unfold blen in *. lia. }
  destruct (decide (k = count r)) as [->|Hlt].
  - unfold visit, RBuffIt_next. destruct (Z.eqb_spec (count r) 0); [simpl; by rewrite Hstop|].
    replace (if _ >=? buffEnd r then 0 else _) with (itEnd r); cycle 1.
    { unfold cell_at. repeat case_cmp; lia. }
    rewrite Z.eqb_refl. simpl. by rewrite Hstop.
  - destruct (content_lookup_cell r k) as (b & Hb & Hcell & Htake); [done|lia|].
    assert (Hnext : RBuffIt_next r (Some (mkRBuffIt
              (if k =? 0 then None else Some (Z.of_nat (cell_at r (k - 1)))))) =
            (1, Some (mkRBuffIt (Some (Z.of_nat (cell_at r k)))))).
    { unfold RBuffIt_next, cell_at. destruct (Z.eqb_spec k 0) as [->|].
      - rewrite (proj2 (Z.eqb_neq _ 0)) by lia. do 4 f_equal. case_cmp; lia.
      - match goal with |- context [if ?x >=? buffEnd r then 0 else _] =>
          replace (if x >=? buffEnd r then 0 else x)
            with (Z.of_nat (Z.to_nat (if itBegin r + k <? buffEnd r then itBegin r + k
                                      else itBegin r + k - buffEnd r)))
            by (repeat case_cmp; lia) end.
        rewrite (proj2 (Z.eqb_neq _ (itEnd r))) by (case_cmp; lia). done. }
    unfold visit. rewrite Hnext. simpl (1 =? 0). rstep. cbn [it]. rstep.
    rewrite (blk_load_ok _ _ b) by (rewrite ?Nat2Z.id; done || lia). simpl.
    split; [|rewrite length_app, !length_take; simpl; unfold blen in *; lia].
    exists (k + 1). split; [lia|]. split; [done|]. simpl.
    rewrite (proj2 (Z.eqb_neq _ 0)) by lia. by replace (k + 1 - 1) with k by lia.
Qed.

(** C11: iterating with [RBuffIt_next] from the reset state visits the stored
    bytes, oldest first, and stops: [count] steps and the one that finds the
    end (the buffer's end iterator being inside the block). *)
Theorem visit_all_content r fuel :
  wf r -> itEnd r < buffEnd r -> (length (content r) < fuel)%nat ->
  visit_all fuel r = Ok (content r).
Proof.
  intros Hwf He Hfuel.
  assert (Hy : yields (visit_all fuel r) (fun bs => bs = content r)).
  { apply loop_yields with (Inv := visited r)
      (measure := fun s => (length (content r) - length s.2)%nat).
    - intros s Hs. by apply visit_step.
    - exists 0. split; [|done]. pose proof Hwf as []. lia.
    - simpl. lia. }
  apply yields_elim in Hy as (? & -> & ->). done.
Qed.

Lemma visit_all_content_witness :
  visit_all 4 (mkRBuff [13; 10; 11; 12] 4 1 0 3 1) = Ok [10; 11; 12].
Proof. apply (visit_all_content (mkRBuff [13; 10; 11; 12] 4 1 0 3 1)); [|done|simpl; lia].
  split; simpl; unfold blen; simpl; lia.
Defined.

(** When the end iterator sits at the end of the block the loop never
    stops: the wrapped iterator is compared with the unwrapped end. *)
Theorem visit_all_diverges r fuel :
  wf r -> itEnd r = buffEnd r -> 0 < count r -> visit_all fuel r = Diverges.
Proof.
  intros Hwf He Hc. pose proof Hwf as [].
  apply (loop_diverges (fun s => exists a, s.1 = Some (mkRBuffIt a) /\
           (forall x, a = Some x -> 0 <= x < buffEnd r))).
  2: { exists None. done. }
  intros [p acc] (a & Hp & Ha). simpl in Hp. subst. unfold visit.
  assert (Hn : exists y, RBuffIt_next r (Some (mkRBuffIt a)) = (1, Some (mkRBuffIt (Some y)))
               /\ 0 <= y < buffEnd r).
  { unfold RBuffIt_next. destruct a as [x|].
    - specialize (Ha x eq_refl). rewrite (proj2 (Z.eqb_neq _ (itEnd r))) by (case_cmp; lia).
      eexists. split; [done|]. case_cmp; lia.
    - rewrite (proj2 (Z.eqb_neq _ 0)) by lia. eexists. split; [done|]. lia. }
  destruct Hn as (y & -> & Hy). simpl (1 =? 0). rstep. cbn [it]. rstep.
  destruct (lookup_Z_is_Some (buff r) y) as [b Hb]; [unfold blen in *; lia|].
  rewrite (blk_load_ok _ _ b) by (done || lia). rstep.
  eexists. split; [done|]. exists (Some y). naive_solver.
Qed.

Lemma visit_all_diverges_witness :
  visit_all 1000 (mkRBuff [10; 11; 12; 13] 4 0 4 4 1) = Diverges.
Proof. apply visit_all_diverges; [|done|done].
  split; simpl; unfold blen; simpl; lia.
Defined.
End It.

(** [RBuff_increment_it] past the free space moves the first byte by the whole
    increment instead of the bytes lost: the iterators no longer agree with
    the count. *)
Theorem RBuff_increment_it_overfull (r : RBuff) (n : Z) :
  wf r -> 0 < count r < buffEnd r -> n <= buffEnd r -> buffEnd r < count r + n ->
  exists r1, RBuff_increment_it (Some r) n = Ok (Some r1) /\ ~ wf r1.
Proof.
  intros Hwf Hc Hn Hover. pose proof Hwf as [].
  unfold RBuff_increment_it, RBuff_get_size. unwrap.
  rewrite (proj2 (Z.eqb_neq n 0)) by lia.
  replace (count r + n >? buffEnd r) with true by (symmetry; rewrite Z.gtb_ltb; apply Z.ltb_lt; lia).
  rstep. rewrite incrementIt_ok by lia. rstep. rewrite incrementIt_ok by (simpl; lia). rstep.
  eexists. split; [done|]. intros [_ _ _ _ _ W]. simpl in W. revert W.
  repeat case_cmp; lia.
Qed.

Lemma RBuff_increment_it_overfull_witness :
  exists r1, RBuff_increment_it (Some (mkRBuff [10; 11; 12; 13] 4 0 3 3 1)) 2 = Ok (Some r1) /\ ~ wf r1.
Proof.
  apply RBuff_increment_it_overfull; simpl; try lia.
  split; simpl; unfold blen; simpl; lia.
Defined.

(** ** Runs of pushes and pops *)
Inductive op := Push (data : list Z) | Pop (n : Z) | PopByte.

(** A call, with what the client gets: the returned number and the bytes. *)
Definition call (o : op) (r : RBuff) : res (Z * list Z * RBuff) :=
  match o with
  | Push data => '(n, r') ← RBuff_pushback (Some r) (Some data) (blen data);
                 r' ← deref r'; Ok (n, [], r')
  | Pop n => '(k, dst, r') ← RBuff_popoff (Some r) (Some (replicate (Z.to_nat n) 0)) n;
             r' ← deref r'; d ← deref dst; Ok (k, take (Z.to_nat k) d, r')
  | PopByte => '(b, r') ← RBuff_popoff_byte (Some r); r' ← deref r'; Ok (b, [], r')
  end.

(** The same call on the queue of a buffer of [cap] bytes. *)
Definition spec_call (cap : Z) (overwrite : bool) (o : op) (q : list Z) : Z * list Z * list Z :=
  match o with
  | Push data =>
      if overwrite then (Z.min (blen data) cap, [], Spec.push cap q data)
      else (Z.min (Z.min (blen data) cap) (cap - blen q), [], Spec.push_fit cap q data)
  | Pop n => let '(out, rest) := Spec.pop n q in (blen out, out, rest)
  | PopByte => match q with [] => (ALIB_BAD_ARG, [], []) | b :: q => (b, [], q) end
  end.

Fixpoint run_ops (os : list op) (r : RBuff) : res (list (Z * list Z) * RBuff) :=
  match os with
  | [] => Ok ([], r)
  | o :: os => '(n, out, r) ← call o r; '(outs, r) ← run_ops os r; Ok ((n, out) :: outs, r)
  end.
Fixpoint spec_run (cap : Z) (ov : bool) (os : list op) (q : list Z) : list (Z * list Z) * list Z :=
  match os with
  | [] => ([], q)
  | o :: os => let '(n, out, q) := spec_call cap ov o q in
               let '(outs, q) := spec_run cap ov os q in ((n, out) :: outs, q)
  end.

Definition admissible (o : op) : Prop :=
  match o with Push data => blen data < 2 ^ 63 | Pop n => 0 <= n | PopByte => True end.
Definition overwrites (r : RBuff) : bool := Z.land (flags r) rbuffNoOverwrite =? 0.

Lemma push_refines r data :
  wf r -> buffEnd r <= INT32_MAX -> blen data < 2 ^ 63 ->
  let '(n, _, q) := spec_call (buffEnd r) (overwrites r) (Push data) (content r) in
  exists r1, RBuff_pushback (Some r) (Some data) (blen data) = Ok (n, Some r1)
    /\ wf r1 /\ flags r1 = flags r /\ buffEnd r1 = buffEnd r /\ content r1 = q.
Proof.
  intros Hwf Hmax Hd. pose proof (blen_queue r Hwf) as Hc. pose proof Hwf as [].
  cbn [spec_call]. unfold overwrites. pose proof (blen_nonneg data).
  destruct (decide (blen data = 0)) as [Hz|Hz].
  - assert (data = []) as -> by (destruct data; [done|]; rewrite blen_cons in Hz; pose proof (blen_nonneg data); lia).
    destruct (_ =? 0); exists r; (split; [|repeat (split; [done|])]).
    + unfold RBuff_pushback. change (blen []) with 0. cbn. do 3 f_equal. lia.
    + unfold Spec.push. rewrite app_nil_r, Hc, Z2Nat.nonpos by lia. by rewrite drop_0.
    + unfold RBuff_pushback. change (blen []) with 0. cbn. do 3 f_equal. lia.
    + unfold Spec.push_fit. change (blen []) with 0. rewrite (Z.min_l 0) by lia.
      rewrite Z.min_l by lia. by rewrite slice_zero, app_nil_r.
  - destruct (Z.eqb_spec (Z.land (flags r) rbuffNoOverwrite) 0).
    + by apply RBuff_pushback_refines; try lia.
    + rewrite Hc. unfold Spec.push_fit. rewrite Hc. apply RBuff_pushback_keeps; try done; lia.
Qed.

Lemma rbuff_call_refines r o :
  wf r -> buffEnd r <= INT32_MAX -> admissible o ->
  let '(n, out, q) := spec_call (buffEnd r) (overwrites r) o (content r) in
  exists r1, call o r = Ok (n, out, r1)
    /\ wf r1 /\ flags r1 = flags r /\ buffEnd r1 = buffEnd r /\ content r1 = q.
Proof.
  intros Hwf Hmax Ha. pose proof (blen_queue r Hwf) as Hc. pose proof Hwf as [].
  destruct o as [data|n|]; cbn [admissible call] in *.
  - pose proof (push_refines r data Hwf Hmax Ha) as Hp. revert Hp.
    destruct (spec_call _ _ _ _) as [[n out] q] eqn:E. intros (r1 & -> & ?). exists r1.
    assert (out = []) as -> by (revert E; cbn; destruct (overwrites r); by intros [=]).
    done.
  - cbn [spec_call Spec.pop]. rewrite RBuff_popoff_ok; [|done..|]; cycle 1.
    { intros d [= <-]. unfold blen. rewrite length_replicate. lia. }
    exists (advance r (Z.min n (count r))). rstep. cbn [fill_dst fmap option_fmap option_map deref].
    assert (Hl : blen (take (Z.to_nat n) (content r)) = Z.min n (count r)).
    { unfold blen in *. rewrite length_take. lia. }
    rstep. split; [by rewrite <- Hl, take_blen_app|]. split; [apply advance_wf; done || lia|]. do 2 (split; [done|]).
    rewrite advance_content by (done || lia). by apply drop_min_content.
  - rewrite RBuff_popoff_byte_refines by done. cbn [spec_call].
    destruct (content r) as [|b q] eqn:E; rstep.
    + by exists r.
    + rewrite blen_cons in Hc. pose proof (blen_nonneg q).
      exists (advance r 1). split; [done|]. split; [apply advance_wf; done || lia|].
      do 2 (split; [done|]). rewrite advance_content, E by (done || lia). done.
Qed.

(** C8: every sequence of [RBuff_pushback], [RBuff_popoff] and
    [RBuff_popoff_byte] calls behaves as on a bounded queue of bytes: same
    returned numbers, same bytes, and the buffer stays well-formed with the
    queue's content.  With overwriting a push drops the oldest bytes; without,
    it stores what fits.  The size is bounded by the [int32_t] counter of the
    push. *)
Theorem run_refines_queue (os : list op) (r : RBuff) :
  wf r -> buffEnd r <= INT32_MAX -> Forall admissible os ->
  exists r1, run_ops os r = Ok ((spec_run (buffEnd r) (overwrites r) os (content r)).1, r1)
    /\ wf r1 /\ content r1 = (spec_run (buffEnd r) (overwrites r) os (content r)).2.
Proof.
  revert r. induction os as [|o os IH]; intros r Hwf Hmax Hadm; [by exists r|].
  inversion_clear Hadm as [|? ? Ho Hos]. pose proof (rbuff_call_refines r o Hwf Hmax Ho) as Hc.
  cbn [run_ops spec_run]. destruct (spec_call _ _ _ _) as [[n out] q].
  destruct Hc as (r1 & -> & Hw1 & Hf & He & Hq).
  destruct (IH r1 Hw1) as (r2 & E & Hw2 & Hc2); [by rewrite He|done|].
  assert (Hov : overwrites r1 = overwrites r) by (unfold overwrites; by rewrite Hf).
  rewrite He, Hov, Hq in E, Hc2. exists r2. rstep. rewrite E.
  destruct (spec_run _ _ os q) as [outs q2]. done.
Qed.

Lemma run_refines_queue_witness :
  let r := mkRBuff [0; 0; 0; 0] 4 0 0 0 1 in
  let os := [Push [1; 2; 3]; PopByte; Push [4; 5; 6]; Pop 2] in
  exists r1, run_ops os r = Ok ([(3, []); (1, []); (3, []); (2, [3; 4])], r1)
    /\ wf r1 /\ content r1 = [5; 6].
Proof.
  apply (run_refines_queue [Push [1; 2; 3]; PopByte; Push [4; 5; 6]; Pop 2]
           (mkRBuff [0; 0; 0; 0] 4 0 0 0 1)); [|done|].
  - split; simpl; unfold blen; simpl; lia.
  - repeat constructor; done.
Defined.
