(* ===== verification/ArrayList.v ===== *)
(** The array of item pointers ([source/ArrayList.c]).

    [ArrayList] is the C structure; the array is [None] when the [list]
    pointer is NULL, and holds the address of each item, 0 for an empty slot.
    [items] is the collection it stands for, in array order. *)
From S2P Require Import Prelude Memory Effects.

Record ArrayList := mkArrayList {
  list : option (list ptr);
  count : Z;
  capacity : Z;
  max_cap : Z;
  free_item : bool;     (* whether a free callback was given *)
  use_mutex : bool;
  mutex_held : bool
}.

Definition set_list v (l : ArrayList) :=
  mkArrayList v (count l) (capacity l) (max_cap l) (free_item l) (use_mutex l) (mutex_held l).
Definition set_count v (l : ArrayList) :=
  mkArrayList (list l) v (capacity l) (max_cap l) (free_item l) (use_mutex l) (mutex_held l).
Definition set_capacity v (l : ArrayList) :=
  mkArrayList (list l) (count l) v (max_cap l) (free_item l) (use_mutex l) (mutex_held l).
Definition set_use_mutex v (l : ArrayList) :=
  mkArrayList (list l) (count l) (capacity l) (max_cap l) (free_item l) v (mutex_held l).
Definition set_mutex_held v (l : ArrayList) :=
  mkArrayList (list l) (count l) (capacity l) (max_cap l) (free_item l) (use_mutex l) v.

#[export] Instance ArrayList_locked : LockedObj ArrayList := {|
  uses_mutex := use_mutex; held := mutex_held; set_held := set_mutex_held;
  held_set := fun _ _ => eq_refl; uses_set := fun _ _ => eq_refl;
  set_set := fun _ _ _ => eq_refl; set_held_id := ltac:(by intros [])
|}.

(** * Slots *)
Definition slot_load (i : Z) : M ArrayList ptr :=
  l ← gets list; cells ← lift (deref l); lift (blk_load cells i).
Definition slot_store (i : Z) (v : ptr) : M ArrayList unit :=
  l ← gets list; cells ← lift (deref l); cells ← lift (blk_store cells i v);
  modify (set_list (Some cells)).
Definition incr_count : M ArrayList unit := modify (fun l => set_count (u64 (count l + 1)) l).
Definition decr_count : M ArrayList unit := modify (fun l => set_count (u64 (count l - 1)) l).

(** The loops [for(i = 0; i < capacity; ++i) if(p(list[i])) ...] that stop at
    the first slot satisfying [p]. *)
Fixpoint scan (p : ptr -> bool) (fuel : nat) (cells : option (Datatypes.list ptr))
    (cap i : Z) : res (option Z) :=
  match fuel with
  | O => Diverges
  | S n =>
      if i <? cap
      then l ← deref cells; v ← blk_load l i;
           if p v then Ok (Some i) else scan p n cells cap (i + 1)
      else Ok None
  end.

(** [scan] from the first slot; the fuel is one more than the slots. *)
Definition scan_list (p : ptr -> bool) : M ArrayList (option Z) :=
  l ← gets id; lift (scan p (S (Z.to_nat (capacity l))) (list l) (capacity l) 0).

(** * Protected functions *)
Definition ArrayList_remove_by_ptr_no_free (item : option Z) : M (option ArrayList) unit :=
  on_obj tt (match item with
             | None => mret tt
             | Some i => slot_store i NULL;; decr_count
             end).

Definition ArrayList_remove_by_ptr (item : option Z) : M (option ArrayList) unit :=
  on_obj tt (match item with
             | None => mret tt
             | Some i =>
                 item_holder ← slot_load i;
                 slot_store i NULL;;
                 decr_count;;
                 f ← gets free_item;
                 when f (emit (EvFree item_holder))
             end).

(** * Resizing *)

(** Shrinking: the first [newcap] items are copied to the new array. *)
Fixpoint copy_items (fuel : nat) (cells : Datatypes.list ptr)
    (temp : option (Datatypes.list ptr)) (cnt newcap i it : Z)
    : res (option (Datatypes.list ptr) * Z) :=
  match fuel with
  | O => Diverges
  | S n =>
      if (i <? cnt) && (i <? newcap)
      then v ← blk_load cells it;
           if negb (v =? NULL)
           then t ← deref temp; t ← blk_store t i v;
                copy_items n cells (Some t) cnt newcap (i + 1) (it + 1)
           else copy_items n cells temp cnt newcap i (it + 1)
      else Ok (temp, it)
  end.

(** Items that do not fit are removed, with the free callback. *)
Fixpoint truncate_items (fuel : nat) (newcap it : Z) : M ArrayList unit :=
  match fuel with
  | O => lift Diverges
  | S n =>
      c ← gets count;
      if newcap <? c
      then v ← slot_load it;
           when (negb (v =? NULL)) (here (ArrayList_remove_by_ptr (Some it)));;
           truncate_items n newcap (it + 1)
      else mret tt
  end.

(** [ok]: whether the allocation succeeds (its result is not checked). *)
Definition calloc (ok : bool) (n : Z) : option (Datatypes.list ptr) :=
  if ok then Some (replicate (Z.to_nat n) NULL) else None.

(** [realloc] to [newcap] pointers: the size in bytes wraps; the new cells
    hold no value until the [memset] writes them. *)
Definition realloc_zero (ok : bool) (cells : Datatypes.list ptr) (cap newcap : Z)
    : res (Datatypes.list ptr) :=
  let n := u64 (8 * newcap) / 8 in
  if ok
  then if (newcap <=? n) && (cap <=? blen cells)
       then Ok (take (Z.to_nat cap) cells ++ replicate (Z.to_nat (newcap - cap)) NULL)
       else UB OutOfBounds
  else UB NullDeref.

Definition ArrayList_resize (ok : bool) (newcap : Z) : M (option ArrayList) Z :=
  on_obj 0 (
    cap ← gets capacity; ls ← gets list; mx ← gets max_cap; cnt ← gets count;
    if newcap =? cap then mret newcap else
    newcap ← match ls with
      | None =>
          let newcap := if newcap >? mx then mx else newcap in
          modify (set_list (calloc ok newcap));; mret newcap
      | Some cells =>
          if newcap >? 0
          then if newcap <? cap
               then '(temp, it) ← lift (copy_items (S (length cells)) cells
                                          (calloc ok newcap) cnt newcap 0 0);
                    truncate_items (S (length cells)) newcap it;;
                    modify (set_list temp);; mret newcap
               else cells ← lift (realloc_zero ok cells cap newcap);
                    modify (set_list (Some cells));; mret newcap
          else modify (set_list None);; modify (set_count 0);; mret newcap
      end;
    modify (set_capacity newcap);;
    gets capacity).

Definition ArrayList_shrink (ok : bool) : M (option ArrayList) Z :=
  on_obj 0 (c ← gets count; here (ArrayList_resize ok c)).

Definition ArrayList_expand (ok : bool) : M (option ArrayList) Z :=
  on_obj 0 (
    cap ← gets capacity; mx ← gets max_cap;
    (if cap =? 0 then here (ArrayList_resize ok 1);; mret tt
     else if cap <? mx
     then if u64 (mx - cap) <? cap
          then here (ArrayList_resize ok mx);; mret tt
          else here (ArrayList_resize ok (u64 (cap * 2)));; mret tt
     else mret tt);;
    gets capacity).

(** * Public functions *)
Definition ArrayList_add (ok : bool) (item : ptr) : M (option ArrayList) Z :=
  on_obj 0 (
    if item =? NULL then mret 0 else
    cnt ← gets count; cap ← gets capacity; mx ← gets max_cap;
    if cnt <? cap
    then i ← scan_list (fun v => v =? NULL);
         match i with
         | Some i => slot_store i item;; incr_count;; mret 1
         | None => mret 0
         end
    else if cap =? mx then mret 0
    else here (ArrayList_expand ok);;
         c ← gets count;
         slot_store c item;; incr_count;; mret 1).

Definition ArrayList_remove_no_free (item : ptr) : M (option ArrayList) unit :=
  on_obj tt (
    if item =? NULL then mret tt else
    i ← scan_list (fun v => v =? item);
    match i with
    | Some i => here (ArrayList_remove_by_ptr_no_free (Some i))
    | None => mret tt
    end).

Definition ArrayList_remove (item : ptr) : M (option ArrayList) unit :=
  on_obj tt (
    if item =? NULL then mret tt else
    i ← scan_list (fun v => v =? item);
    match i with
    | Some i => here (ArrayList_remove_by_ptr (Some i))
    | None => mret tt
    end).

Definition ArrayList_get_first_item : M (option ArrayList) ptr :=
  on_obj NULL (
    i ← scan_list (fun v => negb (v =? NULL));
    match i with Some i => slot_load i | None => mret NULL end).

(** The scan counts the items left; [cmp] is the client's comparison with the
    value searched for (0: equal). *)
Fixpoint find_value (cmp : ptr -> Z) (fuel : nat) (val_count it : Z) : M ArrayList ptr :=
  match fuel with
  | O => lift Diverges
  | S n =>
      if val_count >? 0
      then v ← slot_load it;
           if v =? NULL then find_value cmp n val_count (it + 1)
           else if cmp v =? 0 then mret v
           else find_value cmp n (val_count - 1) (it + 1)
      else mret NULL
  end.
(** The fuel covers the slots of the array: the next access is out of it. *)
Definition array_fuel (l : ArrayList) : nat :=
  match list l with Some cells => S (S (length cells)) | None => 2 end.
Definition ArrayList_find_item_by_value (cmp : option (ptr -> Z)) : M (option ArrayList) ptr :=
  on_obj NULL (
    match cmp with
    | None => mret NULL
    | Some cmp => n ← gets array_fuel; c ← gets count; find_value cmp n c 0
    end).

(** [same p]: whether the bytes at [p] equal the data searched for. *)
Fixpoint contains_from (same : ptr -> bool) (fuel : nat) (it stop : Z) : M ArrayList Z :=
  match fuel with
  | O => lift Diverges
  | S n =>
      if it <? stop
      then v ← slot_load it;
           if negb (v =? NULL) && same v then mret 1 else contains_from same n (it + 1) stop
      else mret 0
  end.
Definition ArrayList_contains (same : option (ptr -> bool)) : M (option ArrayList) Z :=
  on_obj 0 (
    match same with
    | None => mret 0
    | Some same => n ← gets array_fuel; c ← gets count; contains_from same n 0 c
    end).

Fixpoint clear_from (fuel : nat) (it : Z) : M ArrayList unit :=
  match fuel with
  | O => lift Diverges
  | S n =>
      c ← gets count;
      if c >? 0
      then v ← slot_load it;
           (if negb (v =? NULL)
            then f ← gets free_item; when f (emit (EvFree v));; slot_store it NULL;; decr_count
            else mret tt);;
           clear_from n (it + 1)
      else mret tt
  end.
Definition ArrayList_clear : M (option ArrayList) unit :=
  on_obj tt (n ← gets array_fuel; clear_from n 0).

(** * Sifting and sorting *)

(** [for(; end != it && !*end; --end);] *)
Fixpoint sift_end (fuel : nat) (it stop : Z) : M ArrayList Z :=
  match fuel with
  | O => lift Diverges
  | S n =>
      if negb (stop =? it)
      then v ← slot_load stop;
           if v =? NULL then sift_end n it (stop - 1) else mret stop
      else mret stop
  end.

Fixpoint sift_from (fuel : nat) (it stop : Z) : M ArrayList Z :=
  match fuel with
  | O => lift Diverges
  | S n =>
      c ← gets count;
      if it <? c
      then v ← slot_load it;
           if v =? NULL
           then f ← gets array_fuel;
                stop ← sift_end f it stop;
                if stop =? it
                then modify (set_count it);; mret ALIB_OBJ_CORRUPTION
                else x ← slot_load stop;
                     slot_store it x;; slot_store stop NULL;;
                     sift_from n (it + 1) stop
           else sift_from n (it + 1) stop
      else mret ALIB_OK
  end.

Definition ArrayList_sift : M (option ArrayList) Z :=
  on_obj ALIB_BAD_ARG (
    c ← gets count; cap ← gets capacity;
    if c =? 0 then mret ALIB_OK
    else n ← gets array_fuel; sift_from n 0 (cap - 1)).

(** [qsort] of the first [count] slots with the client's comparison; the
    sorting function is the C library's. *)
Definition ArrayList_sort (qsort : Datatypes.list ptr -> Datatypes.list ptr)
    (cmp_given : bool) : M (option ArrayList) Z :=
  on_obj ALIB_BAD_ARG (
    if negb cmp_given then mret ALIB_BAD_ARG else
    r_code ← here ArrayList_sift;
    c ← gets count; ls ← gets list;
    match ls with
    | None => if c =? 0 then mret r_code else lift (UB NullDeref)
    | Some cells =>
        first ← lift (blk_read cells 0 c);
        cells ← lift (blk_write cells 0 (qsort first));
        modify (set_list (Some cells));; mret r_code
    end).

(** * Getters, setters *)
Definition ArrayList_extract_array : M (option ArrayList) (option (Datatypes.list ptr)) :=
  on_obj None (
    rval ← gets list;
    modify (set_capacity 0);; modify (set_count 0);; modify (set_list None);;
    mret rval).

Definition ArrayList_get_count : M (option ArrayList) Z := no_guard (gets count).
Definition ArrayList_get_capacity : M (option ArrayList) Z := no_guard (gets capacity).
Definition ArrayList_get_max_capacity : M (option ArrayList) Z := no_guard (gets max_cap).
Definition ArrayList_get_array_ptr : M (option ArrayList) (option (Datatypes.list ptr)) :=
  no_guard (gets list).

Fixpoint by_index_from (fuel : nat) (cells : option (Datatypes.list ptr)) (cap v_index i : Z)
    : res ptr :=
  match fuel with
  | O => Diverges
  | S n =>
      if i <? cap
      then l ← deref cells; v ← blk_load l i;
           if negb (v =? NULL)
           then if v_index =? 0 then Ok v else by_index_from n cells cap (v_index - 1) (i + 1)
           else by_index_from n cells cap v_index (i + 1)
      else Ok NULL
  end.
Definition ArrayList_get_by_index (v_index : Z) : M (option ArrayList) ptr :=
  on_obj NULL (
    l ← gets id;
    if v_index >=? count l then mret NULL
    else lift (by_index_from (S (Z.to_nat (capacity l))) (list l) (capacity l) v_index 0)).

(** [array_count] is compared with the capacity but never advanced. *)
Fixpoint item_index_from (fuel : nat) (item : ptr) (array_count array_index it : Z)
    : M ArrayList Z :=
  match fuel with
  | O => lift Diverges
  | S n =>
      l ← gets id;
      if (array_count <? capacity l) && (array_index <? count l)
      then v ← slot_load it;
           if negb (v =? NULL)
           then if v =? item then mret (s64 array_index)
                else item_index_from n item array_count (array_index + 1) (it + 1)
           else item_index_from n item array_count array_index (it + 1)
      else mret (-1)
  end.
Definition ArrayList_get_item_index (item : ptr) : M (option ArrayList) Z :=
  on_obj ALIB_BAD_ARG (
    if item =? NULL then mret ALIB_BAD_ARG
    else n ← gets array_fuel; item_index_from n item 0 0 0).

(** The setter writes [capacity], not [max_cap]. *)
Definition ArrayList_set_max_cap (max_cap : Z) : M (option ArrayList) unit :=
  no_guard (
    let max_cap := if max_cap =? 0 then ULONG_MAX else max_cap in
    modify (set_capacity max_cap)).

(** * Thread-safe functions *)
Definition ArrayList_remove_by_ptr_tsafe (item : option Z) : M (option ArrayList) unit :=
  on_obj tt (match item with
             | None => mret tt
             | Some _ => with_mutex (here (ArrayList_remove_by_ptr item))
             end).
Definition ArrayList_remove_by_ptr_no_free_tsafe (item : option Z) : M (option ArrayList) unit :=
  on_obj tt (match item with
             | None => mret tt
             | Some _ => with_mutex (here (ArrayList_remove_by_ptr_no_free item))
             end).
Definition ArrayList_lock : M (option ArrayList) unit :=
  no_guard (u ← gets use_mutex; when u mutex_lock).
Definition ArrayList_unlock : M (option ArrayList) unit :=
  no_guard (u ← gets use_mutex; when u mutex_unlock).
Definition ArrayList_add_tsafe ok item : M (option ArrayList) Z :=
  on_obj 0 (with_mutex (here (ArrayList_add ok item))).
Definition ArrayList_remove_tsafe item : M (option ArrayList) unit :=
  on_obj tt (with_mutex (here (ArrayList_remove item))).
Definition ArrayList_remove_no_free_tsafe item : M (option ArrayList) unit :=
  on_obj tt (if item =? NULL then mret tt
             else with_mutex (here (ArrayList_remove_no_free item))).
Definition ArrayList_find_item_by_value_tsafe cmp : M (option ArrayList) ptr :=
  on_obj NULL (with_mutex (here (ArrayList_find_item_by_value cmp))).
Definition ArrayList_clear_tsafe : M (option ArrayList) unit :=
  on_obj tt (with_mutex (here ArrayList_clear)).
Definition ArrayList_resize_tsafe ok newcap : M (option ArrayList) Z :=
  on_obj 0 (with_mutex (here (ArrayList_resize ok newcap))).
(** The count is read before the lock is taken. *)
Definition ArrayList_shrink_tsafe ok : M (option ArrayList) Z :=
  on_obj 0 (c ← gets count; here (ArrayList_resize_tsafe ok c)).
Definition ArrayList_sift_tsafe : M (option ArrayList) Z :=
  on_obj ALIB_BAD_ARG (with_mutex (here ArrayList_sift)).
Definition ArrayList_sort_tsafe qsort cmp : M (option ArrayList) Z :=
  on_obj ALIB_BAD_ARG (with_mutex (here (ArrayList_sort qsort cmp))).
Definition ArrayList_extract_array_tsafe : M (option ArrayList) (option (Datatypes.list ptr)) :=
  on_obj None (with_mutex (here ArrayList_extract_array)).
Definition ArrayList_get_first_item_tsafe : M (option ArrayList) ptr :=
  on_obj NULL (with_mutex (here ArrayList_get_first_item)).
Definition ArrayList_get_by_index_tsafe index : M (option ArrayList) ptr :=
  on_obj NULL (with_mutex (here (ArrayList_get_by_index index))).
Definition ArrayList_get_item_index_tsafe item : M (option ArrayList) Z :=
  on_obj ALIB_BAD_ARG (with_mutex (here (ArrayList_get_item_index item))).
Definition ArrayList_use_mutex (um : bool) : M (option ArrayList) unit :=
  on_obj tt (
    u ← gets use_mutex;
    if Bool.eqb u um then mret tt
    else modify (set_use_mutex um);;
         if um then modify (set_mutex_held false);; emit EvMutexInit
         else emit EvMutexDestroy).

(** * Construction and destruction *)
Definition delArrayList : M (option ArrayList) unit := fun o =>
  match o with
  | None => Ok (tt, None, [])
  | Some l =>
      '(_, l, t) ← ArrayList_clear o;
      l ← deref l;
      Ok (tt, None, t ++ if use_mutex l then [EvMutexDestroy] else [])
  end.

(** [ok_obj], [ok_list]: whether the two allocations succeed. *)
Definition newArrayList_ex (ok_obj ok_list : bool) (free_item : bool)
    (start_capacity max_capacity : Z) (use_mutex : bool)
    : res (option ArrayList * Datatypes.list event) :=
  let max_capacity := if max_capacity =? 0 then ULONG_MAX else max_capacity in
  if max_capacity <? start_capacity then Ok (None, [])
  else if negb ok_obj then Ok (None, [])
  else
    let t := if use_mutex then [EvMutexInit] else [] in
    let ls := if start_capacity =? 0 then None else calloc ok_list start_capacity in
    let l := mkArrayList ls 0 start_capacity max_capacity free_item use_mutex false in
    match ls with
    | None => if negb (start_capacity =? 0)
              then '(_, o, t') ← delArrayList (Some l); Ok (o, t ++ t')
              else Ok (Some l, t)
    | Some _ => Ok (Some l, t)
    end.

Definition newArrayList (ok_obj ok_list : bool) (free_item : bool) :=
  newArrayList_ex ok_obj ok_list free_item 4 0 true.

(** * The collection and the invariant *)
Definition items_of (cells : Datatypes.list ptr) : Datatypes.list ptr := filter (.≠ NULL) cells.
Definition slots (l : ArrayList) : Datatypes.list ptr := default [] (list l).
Definition items (l : ArrayList) : Datatypes.list ptr := items_of (slots l).

Record wf (l : ArrayList) : Prop := {
  wf_slots : blen (slots l) = capacity l;
  wf_null : list l = None <-> capacity l = 0;
  wf_count : count l = blen (items l);
  wf_max : 0 <= capacity l <= max_cap l /\ 0 < max_cap l <= ULONG_MAX
}.

(** A list in a given state of its array and count. *)
Definition st (l : ArrayList) (cells : Datatypes.list ptr) (c : Z) : ArrayList :=
  set_count c (set_list (Some cells) l).

Lemma items_of_app a b : items_of (a ++ b) = items_of a ++ items_of b.
Proof. apply list.filter_app. Qed.
Lemma items_of_cons v cells :
  items_of (v :: cells) = if v =? NULL then items_of cells else v :: items_of cells.
Proof.
  unfold items_of. destruct (Z.eqb_spec v NULL) as [->|Hv].
  - by rewrite filter_cons_False by naive_solver.
  - by rewrite filter_cons_True.
Qed.
Lemma items_of_null n : items_of (replicate n NULL) = [].
Proof. induction n as [|n IH]; [done|]. simpl. by rewrite items_of_cons. Qed.
Lemma items_of_ids cells : items_of (items_of cells) = items_of cells.
Proof.
  induction cells as [|v cells IH]; [done|]. rewrite items_of_cons.
  destruct (Z.eqb_spec v NULL); [done|]. rewrite items_of_cons, IH.
  by destruct (Z.eqb_spec v NULL).
Qed.
Lemma items_of_full cells : Forall (.≠ NULL) cells -> items_of cells = cells.
Proof.
  induction 1 as [|v cells Hv _ IH]; [done|]. rewrite items_of_cons, IH.
  by destruct (Z.eqb_spec v NULL).
Qed.
Lemma items_of_nonnull cells : Forall (.≠ NULL) (items_of cells).
Proof.
  induction cells as [|v cells IH]; [constructor|]. rewrite items_of_cons.
  destruct (Z.eqb_spec v NULL); [done|by constructor].
Qed.
Lemma items_of_len cells : blen (items_of cells) <= blen cells.
Proof.
  induction cells as [|v cells IH]; [done|]. rewrite items_of_cons, blen_cons.
  case_cmp; rewrite ?blen_cons; lia.
Qed.
Lemma items_of_full_inv cells :
  blen (items_of cells) = blen cells -> Forall (.≠ NULL) cells.
Proof.
  induction cells as [|v cells IH]; [done|]. rewrite items_of_cons, blen_cons.
  pose proof (items_of_len cells). destruct (Z.eqb_spec v NULL); [lia|].
  rewrite blen_cons. intros. constructor; [done|]. apply IH. lia.
Qed.

(** ** The slot accesses *)
Section slot_lemmas.
Context (l : ArrayList).
Lemma slot_load_middle a v b c :
  slot_load (blen a) (st l (a ++ v :: b) c) = Ok (v, st l (a ++ v :: b) c, []).
Proof. unfold slot_load. mstep. simpl. by rewrite blk_load_middle. Qed.
Lemma slot_store_middle a v b c x :
  slot_store (blen a) x (st l (a ++ v :: b) c) = Ok (tt, st l (a ++ x :: b) c, []).
Proof. unfold slot_store. mstep. simpl. by rewrite blk_store_middle. Qed.
End slot_lemmas.

(** ** States *)
Lemma st_id l cells : list l = Some cells -> l = st l cells (count l).
Proof. destruct l. simpl. by intros ->. Qed.

Lemma wf_cases l :
  wf l ->
  (list l = None /\ capacity l = 0 /\ count l = 0) \/
  (exists cells, list l = Some cells /\ slots l = cells /\ blen cells = capacity l
     /\ 0 < capacity l /\ count l = blen (items_of cells)).
Proof.
  intros [Hs Hn Hc Hm]. unfold items, slots in *. destruct (list l) as [cells|] eqn:E; simpl in *.
  - right. exists cells. repeat split; try done. pose proof (blen_nonneg cells).
    destruct (decide (capacity l = 0)) as [e|]; [|lia]. apply Hn in e. done.
  - left. repeat split; [by apply Hn|done].
Qed.

Lemma set_count_st l cells c c' : set_count c' (st l cells c) = st l cells c'.
Proof. done. Qed.

(** The invariant of a state with an array. *)
Lemma st_wf l cells c :
  blen cells = capacity l -> 0 < capacity l <= max_cap l -> max_cap l <= ULONG_MAX ->
  c = blen (items_of cells) -> wf (st l cells c).
Proof.
  intros H1 H2 H3 ->. split; simpl; try done; try lia.
  split; [done|intros; lia].
Qed.

Lemma count_range l : wf l -> 0 <= count l <= capacity l.
Proof.
  intros [Hs _ Hc _]. rewrite Hc, <- Hs. split; [apply blen_nonneg|apply items_of_len].
Qed.

(** The scanning loops stop at the first slot that satisfies the test. *)
Lemma scan_split p fuel pre cells cap :
  blen (pre ++ cells) = cap -> (length cells < fuel)%nat ->
  (exists a v b, cells = a ++ v :: b /\ Forall (fun u => p u = false) a /\ p v = true
     /\ scan p fuel (Some (pre ++ cells)) cap (blen pre) = Ok (Some (blen (pre ++ a))))
  \/ (Forall (fun u => p u = false) cells
      /\ scan p fuel (Some (pre ++ cells)) cap (blen pre) = Ok None).
Proof.
  revert fuel pre. induction cells as [|v cells IH]; intros fuel pre Hcap Hf;
    (destruct fuel as [|fuel]; [simpl in Hf; lia|]); cbn [scan].
  - right. split; [constructor|]. rewrite app_nil_r in Hcap. case_cmp; [lia|done].
  - rewrite blen_app, blen_cons in Hcap. pose proof (blen_nonneg cells).
    rewrite (proj2 (Z.ltb_lt _ _)) by lia. rstep. rewrite blk_load_middle. rstep.
    destruct (p v) eqn:Hp.
    + left. exists [], v, cells. rewrite app_nil_r. repeat split; done || constructor.
    + rewrite <- (blen_snoc pre v). replace (pre ++ v :: cells) with ((pre ++ [v]) ++ cells)
        by by rewrite <- app_assoc.
      destruct (IH fuel (pre ++ [v])) as [(a & u & b & -> & Ha & Hu & ->)|[Ha ->]].
      * rewrite !blen_app, blen_cons, blen_nil. lia.
      * simpl in Hf. lia.
      * left. exists (v :: a), u, b. rewrite <- app_assoc. repeat split; done || by constructor.
      * right. split; [by constructor|done].
Qed.

Lemma scan_list_cases p l cells c :
  blen cells = capacity l ->
  (exists a v b, cells = a ++ v :: b /\ Forall (fun u => p u = false) a /\ p v = true
     /\ scan_list p (st l cells c) = Ok (Some (blen a), st l cells c, []))
  \/ (Forall (fun u => p u = false) cells
      /\ scan_list p (st l cells c) = Ok (None, st l cells c, [])).
Proof.
  intros Hc. unfold scan_list. mstep. simpl.
  destruct (scan_split p (S (Z.to_nat (capacity l))) [] cells (capacity l))
    as [(a & v & b & ? & ? & ? & Hs)|[? Hs]]; [done|unfold blen in Hc; lia|..];
    simpl in Hs; rewrite blen_nil in Hs; rewrite Hs.
  - left. by exists a, v, b.
  - by right.
Qed.

Lemma scan_list_none p l : list l = None -> capacity l = 0 -> scan_list p l = Ok (None, l, []).
Proof. intros H1 H2. unfold scan_list. mstep. simpl. by rewrite H1, H2. Qed.

(** ** Adding *)
Lemma realloc_zero_ok cells cap newcap :
  blen cells = cap -> cap <= newcap <= 2 ^ 60 ->
  realloc_zero true cells cap newcap =
    Ok (cells ++ replicate (Z.to_nat (newcap - cap)) NULL).
Proof.
  intros Hb Hn. unfold realloc_zero. pose proof (blen_nonneg cells). unwrap.
  rewrite Z.mul_comm, Z.div_mul by lia. case_cmp; [|lia]. case_cmp; [|lia]. simpl.
  unfold blen in Hb. by rewrite firstn_all2 by lia.
Qed.

Lemma resize_grow l newcap :
  wf l -> capacity l < newcap <= max_cap l -> newcap <= 2 ^ 60 ->
  ArrayList_resize true newcap (Some l) =
    Ok (newcap, Some (set_capacity newcap
          (st l (slots l ++ replicate (Z.to_nat (newcap - capacity l)) NULL) (count l))), []).
Proof.
  intros Hwf Hn Hb. pose proof Hwf as [_ _ _ Hm].
  unfold ArrayList_resize. apply on_obj_Ok. mstep.
  rewrite (proj2 (Z.eqb_neq _ _)) by lia.
  destruct (wf_cases l Hwf) as [(Hl & Hc & Hc0)|(cells & Hl & Hs & Hb' & Hc & Hct)].
  - unfold slots. rewrite Hl, Hc, Z.sub_0_r. cbn [default app].
    rewrite Z.gtb_ltb. rewrite (proj2 (Z.ltb_ge _ _)) by lia. cbn. done.
  - rewrite Hs, Hl. rewrite Z.gtb_ltb, (proj2 (Z.ltb_lt _ _)), (proj2 (Z.ltb_ge _ _)) by lia.
    rewrite realloc_zero_ok by lia. cbn. done.
Qed.

(** The capacity after an expansion. *)
Definition next_cap (l : ArrayList) : Z :=
  if capacity l =? 0 then 1 else Z.min (2 * capacity l) (max_cap l).

Lemma expand_grow l :
  wf l -> capacity l < max_cap l -> capacity l <= 2 ^ 59 ->
  ArrayList_expand true (Some l) =
    Ok (next_cap l, Some (set_capacity (next_cap l)
          (st l (slots l ++ replicate (Z.to_nat (next_cap l - capacity l)) NULL) (count l))), []).
Proof.
  intros Hwf Hm Hb. pose proof Hwf as [_ _ _ [Hc Hx]]. unfold ULONG_MAX in *.
  assert (Hg : capacity l < next_cap l <= max_cap l /\ next_cap l <= 2 ^ 60).
  { unfold next_cap. case_cmp; lia. }
  pose proof (resize_grow l (next_cap l) Hwf ltac:(lia) ltac:(lia)) as Hr.
  assert (Hh : here (ArrayList_resize true (next_cap l)) l = Ok (next_cap l, set_capacity (next_cap l)
     (st l (slots l ++ replicate (Z.to_nat (next_cap l - capacity l)) NULL) (count l)), [])).
  { unfold here. rewrite Hr. done. }
  unfold ArrayList_expand. apply on_obj_Ok. mstep.
  assert (Hb2 : (if capacity l =? 0 then here (ArrayList_resize true 1)
          else if u64 (max_cap l - capacity l) <? capacity l
               then here (ArrayList_resize true (max_cap l))
               else here (ArrayList_resize true (u64 (capacity l * 2))))
         = here (ArrayList_resize true (next_cap l))).
  { unfold next_cap. destruct (Z.eqb_spec (capacity l) 0); [done|]. unwrap. case_cmp; do 2 f_equal; lia. }
  rewrite <- Hb2 in Hh. revert Hh.
  destruct (capacity l =? 0); [|rewrite (proj2 (Z.ltb_lt (capacity l) (max_cap l))) by lia;
    destruct (u64 _ <? _)]; intros ->; done.
Qed.

(** One run of the monad from a known result. *)
Ltac mrun H := rewrite H; cbn [mbind res_bind app fst snd].

Lemma add_free_slot l item :
  wf l -> item <> NULL -> count l < capacity l ->
  exists cells', ArrayList_add true item (Some l)
      = Ok (1, Some (st l cells' (count l + 1)), [])
    /\ wf (st l cells' (count l + 1)) /\ items_of cells' ≡ₚ item :: items l.
Proof.
  intros Hwf Hi Hlt. pose proof (count_range l Hwf). pose proof Hwf as [_ _ _ [Hm Hx]].
  unfold ULONG_MAX in *.
  destruct (wf_cases l Hwf) as [(?&?&?)|(cells & Hl & Hs & Hb & Hc & Hct)]; [lia|].
  unfold ArrayList_add. rewrite (proj2 (Z.eqb_neq item NULL)) by done.
  destruct (scan_list_cases (fun v => v =? NULL) l cells (count l) Hb)
    as [(a & v & b & -> & Ha & Hv & Hscan)|[Hall _]]; cycle 1.
  { exfalso. rewrite items_of_full in Hct; [lia|].
    eapply Forall_impl; [|exact Hall]. intros u Hu. simpl in Hu. by apply Z.eqb_neq. }
  apply Z.eqb_eq in Hv as ->. rewrite <- (st_id l _ Hl) in Hscan.
  pose proof (slot_store_middle l a NULL b (count l) item) as Hst. rewrite <- (st_id l _ Hl) in Hst.
  exists (a ++ item :: b). split; [|split].
  - apply on_obj_Ok. unfold incr_count. mstep.
    rewrite (proj2 (Z.ltb_lt _ _)) by lia. mrun Hscan. mrun Hst. simpl. by unwrap.
  - rewrite blen_app, blen_cons in Hb. apply st_wf; [|lia|unfold ULONG_MAX; lia|].
    { rewrite blen_app, blen_cons. lia. }
    rewrite items_of_app, items_of_cons in Hct. rewrite items_of_app, items_of_cons.
    rewrite (proj2 (Z.eqb_neq item NULL)) by done.
    simpl in Hct. rewrite blen_app in Hct. rewrite blen_app, blen_cons. lia.
  - unfold items. rewrite Hs, !items_of_app, !items_of_cons.
    rewrite (proj2 (Z.eqb_neq item NULL)) by done. simpl. by rewrite <- Permutation_middle.
Qed.

Lemma add_expand l item :
  wf l -> item <> NULL -> count l = capacity l -> capacity l < max_cap l ->
  capacity l <= 2 ^ 59 ->
  exists l', ArrayList_add true item (Some l) = Ok (1, Some l', [])
    /\ wf l' /\ items l' = items l ++ [item]
    /\ count l' = count l + 1 /\ capacity l' = next_cap l.
Proof.
  intros Hwf Hi Hfull Hlt Hb. pose proof Hwf as [Hs _ Hc [Hm Hx]]. unfold ULONG_MAX in *.
  pose proof (expand_grow l Hwf Hlt Hb) as He.
  assert (Hg : capacity l < next_cap l <= max_cap l /\ next_cap l <= 2 ^ 60).
  { unfold next_cap. case_cmp; lia. }
  set (k := Z.to_nat (next_cap l - capacity l)) in *.
  assert (Hk : replicate k NULL = NULL :: replicate (pred k) NULL).
  { destruct k eqn:E; [lia|done]. }
  rewrite Hk in He.
  set (l1 := set_capacity (next_cap l) (st l (slots l ++ NULL :: replicate (pred k) NULL) (count l))) in *.
  assert (Hh : here (ArrayList_expand true) l = Ok (next_cap l, l1, [])).
  { unfold here. by rewrite He. }
  pose proof (slot_store_middle (set_capacity (next_cap l) l) (slots l) NULL
                (replicate (pred k) NULL) (count l) item) as Hst.
  assert (Hcap : blen (slots l) = count l) by lia. rewrite Hcap in Hst.
  assert (Hfl : items l = slots l).
  { apply items_of_full, items_of_full_inv. fold (items l). lia. }
  eexists. split.
  - unfold ArrayList_add. apply on_obj_Ok. rewrite (proj2 (Z.eqb_neq item NULL)) by done.
    unfold incr_count. mstep.
    rewrite (proj2 (Z.ltb_ge _ _)), (proj2 (Z.eqb_neq (capacity l) _)) by lia.
    mrun Hh. change (count l1) with (count l).
    change l1 with (st (set_capacity (next_cap l) l) (slots l ++ NULL :: replicate (pred k) NULL) (count l)).
    mrun Hst. done.
  - simpl. unwrap.
    assert (Hitems : items_of (slots l ++ item :: replicate (pred k) NULL) = items l ++ [item]).
    { rewrite items_of_app, items_of_cons, (proj2 (Z.eqb_neq item NULL)), items_of_null by done.
      done. }
    split; [|done]. apply (st_wf (set_capacity (next_cap l) l)); simpl; try (unfold ULONG_MAX; lia).
    + rewrite blen_app, blen_cons. unfold blen at 2. rewrite length_replicate. lia.
    + rewrite Hitems, blen_snoc. lia.
Qed.

(** ** Removing *)
Lemma remove_by_ptr_middle l a v b c :
  0 < c < 2 ^ 64 ->
  here (ArrayList_remove_by_ptr (Some (blen a))) (st l (a ++ v :: b) c)
    = Ok (tt, st l (a ++ NULL :: b) (c - 1), if free_item l then [EvFree v] else []).
Proof.
  intros Hc. unfold ArrayList_remove_by_ptr. rewrite here_on_obj. mstep.
  mrun (slot_load_middle l a v b c). mrun (slot_store_middle l a v b c NULL).
  unfold decr_count. mstep. simpl. unwrap. by destruct (free_item l).
Qed.

Lemma remove_by_ptr_no_free_middle l a v b c :
  0 < c < 2 ^ 64 ->
  here (ArrayList_remove_by_ptr_no_free (Some (blen a))) (st l (a ++ v :: b) c)
    = Ok (tt, st l (a ++ NULL :: b) (c - 1), []).
Proof.
  intros Hc. unfold ArrayList_remove_by_ptr_no_free. rewrite here_on_obj. mstep.
  mrun (slot_store_middle l a v b c NULL). unfold decr_count. mstep. simpl. by unwrap.
Qed.

Lemma wf_remove l a v b :
  wf l -> list l = Some (a ++ v :: b) -> v <> NULL ->
  wf (st l (a ++ NULL :: b) (count l - 1)) /\ 0 < count l.
Proof.
  intros [Hs Hn Hc [Hm Hx]] Hl Hv. unfold slots, items, slots in *. rewrite Hl in *. simpl in *.
  rewrite blen_app, blen_cons, items_of_app, items_of_cons in *.
  rewrite (proj2 (Z.eqb_neq v NULL)) in Hc by done. rewrite blen_app, blen_cons in Hc.
  pose proof (blen_nonneg a). pose proof (blen_nonneg b).
  pose proof (blen_nonneg (items_of a)). pose proof (blen_nonneg (items_of b)).
  split; [|lia]. apply st_wf; try lia.
  - rewrite blen_app, blen_cons. lia.
  - rewrite items_of_app, items_of_cons, blen_app. simpl. lia.
Qed.

(** The first occurrence of [x] is taken out of [xs]. *)
Fixpoint remove_first (x : ptr) (xs : Datatypes.list ptr) : Datatypes.list ptr :=
  match xs with
  | [] => []
  | y :: xs => if y =? x then xs else y :: remove_first x xs
  end.

Lemma remove_first_middle x a b :
  x <> NULL -> Forall (fun u => (u =? x) = false) a ->
  remove_first x (items_of (a ++ x :: b)) = items_of (a ++ NULL :: b).
Proof.
  intros Hx Ha. rewrite !items_of_app, !items_of_cons. rewrite (proj2 (Z.eqb_neq x NULL)) by done.
  simpl. induction Ha as [|u a Hu _ IH].
  - simpl. by rewrite Z.eqb_refl.
  - rewrite !items_of_cons. destruct (u =? NULL); [done|]. simpl. by rewrite Hu, IH.
Qed.
Lemma remove_first_absent x xs : Forall (fun u => (u =? x) = false) xs -> remove_first x xs = xs.
Proof. induction 1 as [|u xs Hu _ IH]; [done|]. simpl. by rewrite Hu, IH. Qed.
Lemma Forall_items (P : ptr -> Prop) cells : Forall P cells -> Forall P (items_of cells).
Proof.
  induction 1 as [|u cells Hu _ IH]; [done|]. rewrite items_of_cons. case_cmp; [done|by constructor].
Qed.

(** Removing takes out the first occurrence, calls the free callback on it,
    and does nothing when the item is not there. *)
Lemma remove_cases l item :
  wf l -> item <> NULL ->
  (item ∈ items l /\ exists a b, list l = Some (a ++ item :: b)
     /\ items_of (a ++ NULL :: b) = remove_first item (items l)
     /\ scan_list (fun v => v =? item) l = Ok (Some (blen a), l, []))
  \/ (item ∉ items l /\ remove_first item (items l) = items l
     /\ scan_list (fun v => v =? item) l = Ok (None, l, [])).
Proof.
  rewrite !list_elem_of_In. intros Hwf Hi. unfold items.
  destruct (wf_cases l Hwf) as [(Hl & Hc & _)|(cells & Hl & -> & Hb & Hc & Hct)].
  { right. unfold slots. rewrite Hl. repeat split; [by intros []|by apply scan_list_none]. }
  destruct (scan_list_cases (fun v => v =? item) l cells (count l) Hb)
    as [(a & v & b & -> & Ha & Hv & Hscan)|[Hall Hscan]];
    rewrite <- (st_id l _ Hl) in Hscan.
  - apply Z.eqb_eq in Hv as ->. left. split.
    + rewrite items_of_app, items_of_cons, (proj2 (Z.eqb_neq item NULL)) by done.
      apply in_or_app. right. by left.
    + exists a, b. split; [done|]. split; [by rewrite remove_first_middle|done].
  - right. split; [|split; [by apply remove_first_absent, Forall_items|done]].
    intros Hin. pose proof (Forall_items _ _ Hall) as Hall'.
    rewrite List.Forall_forall in Hall'.
    specialize (Hall' _ Hin). simpl in Hall'. by rewrite Z.eqb_refl in Hall'.
Qed.

(** ** Clearing *)
Lemma items_of_nil_inv cells : items_of cells = [] -> cells = replicate (length cells) NULL.
Proof.
  induction cells as [|v cells IH]; [done|]. rewrite items_of_cons.
  destruct (Z.eqb_spec v NULL) as [->|]; [|done]. intros H. simpl. by rewrite <- IH.
Qed.

Lemma clear_from_ok l z cells fuel :
  blen (items_of cells) < 2 ^ 64 -> (length cells < fuel)%nat ->
  clear_from fuel (blen z) (st l (z ++ cells) (blen (items_of cells)))
    = Ok (tt, st l (z ++ replicate (length cells) NULL) 0,
          if free_item l then EvFree <$> items_of cells else []).
Proof.
  revert z fuel. induction cells as [|v cells IH]; intros z fuel Hb Hf;
    (destruct fuel as [|fuel]; [simpl in Hf; lia|]); cbn [clear_from].
  { mstep. simpl. by destruct (free_item l). }
  destruct (decide (items_of (v :: cells) = [])) as [E|E].
  { rewrite <- (items_of_nil_inv _ E), E. mstep. simpl. by destruct (free_item l). }
  assert (Hpos : 0 < blen (items_of (v :: cells))).
  { destruct (items_of (v :: cells)); [done|]. rewrite blen_cons. pose proof (blen_nonneg l0). lia. }
  pose proof (slot_load_middle l z v cells (blen (items_of (v :: cells)))) as Hld.
  pose proof (slot_store_middle l z v cells (blen (items_of (v :: cells))) NULL) as Hst.
  assert (Hz : forall x, z ++ x :: cells = (z ++ [x]) ++ cells) by (intros; by rewrite <- app_assoc).
  specialize (IH (z ++ [NULL]) fuel). rewrite blen_snoc in IH.
  rewrite items_of_cons in *. revert Hpos Hld Hst Hb E.
  destruct (Z.eqb_spec v NULL) as [->|Hv]; intros Hpos Hld Hst Hb E.
  - mstep. simpl. rewrite Z.gtb_ltb, (proj2 (Z.ltb_lt _ _)) by lia. rewrite Hld. simpl.
    rewrite Hz, IH by (simpl in Hf; lia). simpl. rewrite <- app_assoc.
    by destruct (free_item l).
  - mstep. simpl. rewrite Hld. simpl.
    rewrite (proj2 (Z.eqb_neq v NULL)) by done. rewrite blen_cons in *.
    pose proof (blen_nonneg (items_of cells)).
    unfold decr_count, mret, M_ret in *. simpl.
    change (free_item (st _ _ _)) with (free_item l).
    destruct (free_item l) eqn:Ef; simpl; rewrite Hst; simpl; unwrap;
      rewrite set_count_st, Z.add_simpl_l, Hz; rewrite IH by (simpl in Hf; lia); simpl; rewrite <- app_assoc; done.
Qed.

(** ** Shrinking *)
Definition freed (l : ArrayList) (xs : Datatypes.list ptr) : Datatypes.list event :=
  if free_item l then EvFree <$> xs else [].
Lemma freed_app l xs ys : freed l (xs ++ ys) = freed l xs ++ freed l ys.
Proof. unfold freed. destruct (free_item l); [apply fmap_app|done]. Qed.

(** The copy loop copies the items one after the other until the new array is
    full or there are no more items; it stops behind the last one copied. *)
Lemma copy_items_ok fuel pre cells newcap :
  (length cells < fuel)%nat -> blen (items_of pre) <= newcap ->
  let cnt := blen (items_of (pre ++ cells)) in
  exists pre' cells', pre ++ cells = pre' ++ cells'
    /\ blen (items_of pre') = Z.min cnt newcap
    /\ copy_items fuel (pre ++ cells)
         (Some (items_of pre ++ replicate (Z.to_nat (newcap - blen (items_of pre))) NULL))
         cnt newcap (blen (items_of pre)) (blen pre)
       = Ok (Some (items_of pre' ++ replicate (Z.to_nat (newcap - blen (items_of pre'))) NULL),
             blen pre').
Proof.
  revert fuel pre. induction cells as [|v cells IH]; intros fuel pre Hf Hle cnt;
    (destruct fuel as [|fuel]; [simpl in Hf; lia|]); cbn [copy_items]; subst cnt.
  { exists pre, []. rewrite app_nil_r. split; [done|]. split; [lia|].
    rewrite Z.ltb_irrefl. done. }
  assert (Hz : pre ++ v :: cells = (pre ++ [v]) ++ cells) by by rewrite <- app_assoc.
  destruct ((blen (items_of pre) <? blen (items_of (pre ++ v :: cells)))
            && (blen (items_of pre) <? newcap)) eqn:Hc; cycle 1.
  { exists pre, (v :: cells). split; [done|]. split; [|done].
    pose proof (blen_nonneg (items_of (v :: cells))).
    revert Hc. rewrite items_of_app, blen_app. repeat case_cmp; simpl; lia || done. }
  apply andb_true_iff in Hc as [_ Hlt%Z.ltb_lt].
  rewrite blk_load_middle. rstep. rewrite Hz.
  destruct (IH fuel (pre ++ [v])) as (pre' & cells' & H1 & H2 & H3);
    [simpl in Hf; lia| |].
  { rewrite items_of_app, items_of_cons. change (items_of []) with (@nil Z).
    case_cmp; rewrite ?app_nil_r, ?blen_snoc; lia. }
  exists pre', cells'. split; [done|]. split; [done|]. rewrite <- H3.
  rewrite (items_of_app pre [v]), (items_of_cons v []). change (items_of []) with (@nil Z). destruct (Z.eqb_spec v NULL) as [->|Hv]; simpl negb; cbn match.
  - rewrite app_nil_r, !blen_snoc. done.
  - rstep.
    replace (Z.to_nat (newcap - blen (items_of pre)))
      with (S (Z.to_nat (newcap - blen (items_of pre ++ [v])))) by (rewrite blen_snoc; lia).
    simpl (replicate (S _) _). rewrite blk_store_middle. rstep.
    rewrite !blen_snoc, <- (app_assoc (items_of pre)). done.
Qed.

Lemma truncate_items_ok l fuel pre cells newcap :
  (length cells < fuel)%nat -> newcap = blen (items_of pre) ->
  0 <= newcap -> newcap + blen (items_of cells) < 2 ^ 64 ->
  exists cells', truncate_items fuel newcap (blen pre)
      (st l (pre ++ cells) (newcap + blen (items_of cells)))
    = Ok (tt, st l (pre ++ cells') newcap, freed l (items_of cells)).
Proof.
  intros Hf -> H0 Hb.
  assert (G : forall p, exists cells',
    truncate_items fuel (blen (items_of pre)) (blen (pre ++ p))
      (st l ((pre ++ p) ++ cells) (blen (items_of pre) + blen (items_of cells)))
    = Ok (tt, st l (pre ++ cells') (blen (items_of pre)), freed l (items_of cells))).
  2: { specialize (G []). by rewrite app_nil_r in G. }
  clear H0. revert fuel Hf. induction cells as [|v cells IH]; intros fuel Hf p;
    (destruct fuel as [|fuel]; [simpl in Hf; lia|]); cbn [truncate_items].
  { exists p. rewrite app_nil_r, Z.add_0_r. mstep. simpl. rewrite Z.ltb_irrefl.
    unfold freed. by destruct (free_item l). }
  pose proof (blen_nonneg (items_of cells)).
  pose proof (slot_load_middle l (pre ++ p) v cells
    (blen (items_of pre) + blen (items_of (v :: cells)))) as Hld.
  assert (Hz : forall x, (pre ++ p) ++ x :: cells = (pre ++ (p ++ [x])) ++ cells)
    by (intros; by rewrite <- !app_assoc).
  rewrite items_of_cons in *. destruct (Z.eqb_spec v NULL) as [->|Hv].
  - destruct (IH ltac:(lia) fuel ltac:(simpl in Hf; lia) (p ++ [NULL])) as [cells' E].
    exists cells'. mstep. simpl. destruct (Z.ltb_spec (blen (items_of pre))
      (blen (items_of pre) + blen (items_of cells))).
    + rewrite Hld. simpl. rewrite Hz, <- (blen_snoc (pre ++ p) NULL), <- app_assoc, E. done.
    + destruct fuel as [|fuel]; [simpl in Hf; lia|]. cbn [truncate_items] in E. revert E. mstep. simpl.
      rewrite (proj2 (Z.ltb_ge _ _)) by lia. intros E. rewrite Hz. done.
  - rewrite blen_cons in *. pose proof (blen_nonneg (items_of pre)).
    destruct (IH ltac:(lia) fuel ltac:(simpl in Hf; lia) (p ++ [NULL])) as [cells' E].
    exists cells'. mstep. simpl. rewrite (proj2 (Z.ltb_lt _ _)) by lia. rewrite Hld. simpl.
    rewrite (proj2 (Z.eqb_neq v NULL)) by done. simpl.
    rewrite remove_by_ptr_middle by lia. simpl.
    replace (blen (items_of pre) + (1 + blen (items_of cells)) - 1)
      with (blen (items_of pre) + blen (items_of cells)) by lia.
    rewrite Hz, <- (blen_snoc (pre ++ p) NULL), <- app_assoc, E. simpl.
    unfold freed. by destruct (free_item l).
Qed.

(** Shrinking keeps the first items and frees the others. *)
Lemma resize_shrink l newcap :
  wf l -> 0 < newcap < capacity l ->
  exists cells', ArrayList_resize true newcap (Some l) =
      Ok (newcap, Some (set_capacity newcap (st l cells' (Z.min (count l) newcap))),
          freed l (drop (Z.to_nat newcap) (items l)))
    /\ blen cells' = newcap /\ items_of cells' = take (Z.to_nat newcap) (items l).
Proof.
  intros Hwf Hn. pose proof Hwf as [_ _ _ [Hm Hx]]. unfold ULONG_MAX in *.
  pose proof (count_range l Hwf).
  destruct (wf_cases l Hwf) as [(?&?&?)|(cells & Hl & Hs & Hb & Hc & Hct)]; [lia|].
  unfold items. rewrite Hs.
  destruct (copy_items_ok (S (length cells)) [] cells newcap) as (pre & rest & Heq & Hpre & Hcopy);
    [lia|change (blen (items_of [])) with 0; lia|].
  simpl in Heq. change (blen (items_of [])) with 0 in Hcopy. change (blen []) with 0 in Hcopy.
  simpl app in Hcopy. rewrite Z.sub_0_r in Hcopy. simpl app in Hpre. rewrite <- Hct in Hpre, Hcopy.
  assert (Hit : take (Z.to_nat newcap) (items_of cells) = items_of pre /\
                drop (Z.to_nat newcap) (items_of cells) = items_of rest).
  { rewrite Heq, items_of_app. rewrite Heq, items_of_app, blen_app in Hct.
    pose proof (blen_nonneg (items_of rest)). unfold blen in *.
    destruct (decide (newcap <= count l)).
    - rewrite take_app_length', drop_app_length' by lia. done.
    - assert (items_of rest = []) as -> by (apply nil_length_inv; lia).
      rewrite app_nil_r. rewrite firstn_all2, drop_ge by lia. done. }
  destruct Hit as [-> ->].
  assert (Htr : exists s', truncate_items (S (length cells)) newcap (blen pre) l
            = Ok (tt, s', freed l (items_of rest)) /\ s' = st l (slots s') (Z.min (count l) newcap)).
  { destruct (decide (newcap < count l)) as [Hlt|Hge].
    - destruct (truncate_items_ok l (S (length cells)) pre rest newcap) as [cells' E].
      + rewrite Heq, length_app. lia.
      + lia.
      + lia.
      + rewrite Heq, items_of_app, blen_app in Hct. lia.
      + rewrite <- Heq in E. replace (newcap + blen (items_of rest)) with (count l) in E
          by (rewrite Heq, items_of_app, blen_app in Hct; lia).
        rewrite <- (st_id l cells Hl) in E. eexists. split; [exact E|].
        rewrite Z.min_r by lia. done.
    - exists l. split.
      + assert (items_of rest = []) as ->.
        { rewrite Heq, items_of_app, blen_app in Hct. unfold blen in *. apply nil_length_inv. lia. }
        cbn [truncate_items]. mstep. simpl. rewrite (proj2 (Z.ltb_ge _ _)) by lia.
        unfold freed. by destruct (free_item l).
      + rewrite Z.min_l by lia. unfold slots. rewrite Hl. simpl. by apply st_id. }
  destruct Htr as (s' & Htr & Hs').
  exists (items_of pre ++ replicate (Z.to_nat (newcap - blen (items_of pre))) NULL).
  split; [|split].
  - unfold ArrayList_resize. apply on_obj_Ok. mstep. rewrite Hl.
    rewrite (proj2 (Z.eqb_neq _ _)) by lia.
    rewrite Z.gtb_ltb, !(proj2 (Z.ltb_lt _ _)) by lia. unfold calloc. mrun Hcopy. mrun Htr.
    simpl. rewrite Hs'. rewrite !app_nil_r. done.
  - rewrite blen_app. unfold blen at 2. rewrite length_replicate. lia.
  - rewrite items_of_app, items_of_ids, items_of_null, app_nil_r. done.
Qed.

(** ** Sifting *)

(** The inner loop stops at the last item behind [it], or at [it]. *)
Lemma sift_end_cases l a m z c fuel :
  (length m < fuel)%nat ->
  let s := st l (a ++ NULL :: m ++ z) c in
  (items_of m = [] /\ sift_end fuel (blen a) (blen a + blen m) s = Ok (blen a, s, []))
  \/ (exists m1 v k, m = m1 ++ v :: replicate k NULL /\ v <> NULL
      /\ sift_end fuel (blen a) (blen a + blen m) s = Ok (blen a + blen m1 + 1, s, [])).
Proof.
  revert z fuel. induction m as [|v m IH] using rev_ind; intros z fuel Hf s;
    (destruct fuel as [|fuel]; [lia|]); cbn [sift_end].
  { left. split; [done|]. change (blen []) with 0. rewrite Z.add_0_r, Z.eqb_refl. done. }
  rewrite length_app in Hf. simpl in Hf. pose proof (blen_nonneg m).
  rewrite blen_snoc. rewrite (proj2 (Z.eqb_neq _ _)) by lia. cbn [negb].
  assert (Hs : s = st l ((a ++ NULL :: m) ++ v :: z) c).
  { subst s. by rewrite <- !app_assoc. }
  assert (Hld : slot_load (blen a + (blen m + 1)) s = Ok (v, s, [])).
  { rewrite Hs. replace (blen a + (blen m + 1)) with (blen (a ++ NULL :: m))
      by (rewrite blen_app, blen_cons; lia). apply slot_load_middle. }
  rewrite (bind_Ok _ _ _ _ _ _ Hld). destruct (Z.eqb_spec v NULL) as [->|Hv].
  - destruct (IH (NULL :: z) fuel ltac:(lia)) as [[Hi E]|(m1 & w & k & Hm & Hw & E)].
    + left. split; [by rewrite items_of_app, Hi|].
      replace (blen a + (blen m + 1) - 1) with (blen a + blen m) by lia.
      subst s. rewrite <- app_assoc. simpl in E |- *. rewrite E. done.
    + right. exists m1, w, (S k). split; [|split; [done|]].
      * rewrite Hm, <- app_assoc. simpl. by rewrite <- replicate_cons_app.
      * replace (blen a + (blen m + 1) - 1) with (blen a + blen m) by lia.
        subst s. rewrite <- app_assoc. simpl in E |- *. rewrite E. done.
  - right. exists m, v, 0%nat. split; [done|]. split; [done|].
    mstep. simpl. by rewrite Z.add_assoc.
Qed.

Lemma sift_from_ok l : forall fuel a rest z,
  (length rest < fuel)%nat -> Forall (.≠ NULL) a -> items_of z = [] ->
  let c := blen (items_of (a ++ rest ++ z)) in
  exists xs n, sift_from fuel (blen a) (blen a + blen rest - 1) (st l (a ++ rest ++ z) c)
      = Ok (ALIB_OK, st l (xs ++ replicate n NULL) c, [])
    /\ xs ≡ₚ items_of (a ++ rest ++ z)
    /\ blen (xs ++ replicate n NULL) = blen (a ++ rest ++ z).
Proof.
  induction fuel as [|fuel IH]; intros a rest z Hf Ha Hz c; [lia|]. cbn [sift_from].
  assert (Hc : c = blen a + blen (items_of rest)).
  { subst c. by rewrite !items_of_app, (items_of_full a Ha), Hz, app_nil_r, blen_app. }
  destruct (decide (items_of rest = [])) as [E|E].
  { exists a, (length (rest ++ z)). mstep. simpl. rewrite E in Hc. rewrite Hc.
    change (blen []) with 0. rewrite Z.add_0_r, Z.ltb_irrefl.
    rewrite <- items_of_nil_inv by (by rewrite items_of_app, E, Hz).
    split; [done|]. split; [|done]. by rewrite !items_of_app, E, Hz, app_nil_r, items_of_full. }
  assert (Hpos : 0 < blen (items_of rest)).
  { destruct (items_of rest); [done|]. rewrite blen_cons. pose proof (blen_nonneg l0). lia. }
  destruct rest as [|v rest]; [done|]. simpl in Hf.
  pose proof (slot_load_middle l a v (rest ++ z) c) as Hld.
  rewrite bind_gets. cbn [app]. rewrite (proj2 (Z.ltb_lt _ _)) by (change (count (st _ _ c)) with c; lia).
  rewrite (bind_quiet _ _ _ _ _ Hld). destruct (Z.eqb_spec v NULL) as [->|Hv].
  - rewrite items_of_cons in E, Hpos. simpl in E, Hpos.
    destruct (sift_end_cases l a rest z c (S (S (length (a ++ NULL :: rest ++ z)))))
      as [[Hi _]|(m1 & w & k & -> & Hw & Hse)].
    { rewrite !length_app. simpl. rewrite length_app. lia. }
    { done. }
    rewrite bind_gets. change (array_fuel (st l ?x c)) with (S (S (length x))). rewrite blen_cons.
    replace (blen a + (1 + blen (m1 ++ w :: replicate k NULL)) - 1)
      with (blen a + blen (m1 ++ w :: replicate k NULL)) by lia.
    rewrite (bind_quiet _ _ _ _ _ Hse). pose proof (blen_nonneg m1).
    rewrite (proj2 (Z.eqb_neq _ _)) by lia.
    set (t := replicate k NULL ++ z).
    assert (H1 : a ++ NULL :: (m1 ++ w :: replicate k NULL) ++ z = (a ++ NULL :: m1) ++ w :: t).
    { subst t. by rewrite <- !app_assoc. }
    assert (H2 : (a ++ NULL :: m1) ++ w :: t = a ++ NULL :: (m1 ++ w :: t)) by by rewrite <- app_assoc.
    assert (H3 : a ++ w :: (m1 ++ w :: t) = (a ++ w :: m1) ++ w :: t) by by rewrite <- app_assoc.
    assert (Hi : blen a + blen m1 + 1 = blen (a ++ NULL :: m1)) by (rewrite blen_app, blen_cons; lia).
    assert (Hi' : blen a + blen m1 + 1 = blen (a ++ w :: m1)) by (rewrite blen_app, blen_cons; lia).
    rewrite H1, Hi, (bind_quiet _ _ _ _ _ (slot_load_middle l _ w t c)).
    rewrite H2, (bind_quiet _ _ _ _ _ (slot_store_middle l a NULL _ c w)).
    rewrite <- Hi, Hi', H3, (bind_quiet _ _ _ _ _ (slot_store_middle l _ w t c NULL)).
    destruct (IH (a ++ [w]) (m1 ++ [NULL]) t) as (xs & n & Hrun & Hperm & Hlen).
    { rewrite !length_app in *. simpl in *. lia. }
    { apply Forall_app. split; [done|]. by repeat constructor. }
    { subst t. by rewrite items_of_app, items_of_null, Hz. }
    assert (H4 : (a ++ [w]) ++ (m1 ++ [NULL]) ++ t = (a ++ w :: m1) ++ NULL :: t)
      by by rewrite <- !app_assoc.
    assert (Hp : items_of ((a ++ w :: m1) ++ NULL :: t) ≡ₚ items_of ((a ++ NULL :: m1) ++ w :: t)).
    { rewrite !items_of_app, !items_of_cons. rewrite (proj2 (Z.eqb_neq w NULL)) by done. simpl.
      rewrite <- !app_assoc. apply Permutation_app_head. simpl.
      by rewrite <- Permutation_middle. }
    rewrite H4, !blen_snoc in Hrun.
    replace (blen (items_of ((a ++ w :: m1) ++ NULL :: t))) with c in Hrun; cycle 1.
    { subst c. unfold blen. by rewrite Hp, <- H1. }
    replace (blen (a ++ w :: m1)) with (blen a + 1 + (blen m1 + 1) - 1)
      by (rewrite blen_app, blen_cons; lia).
    rewrite Hrun. exists xs, n. split; [done|]. split; [by rewrite Hperm, H4, Hp, H2|].
    rewrite Hlen, H4, <- H2. rewrite !blen_app, !blen_cons. lia.
  - destruct (IH (a ++ [v]) rest z) as (xs & n & Hrun & Hperm & Hlen).
    { lia. } { apply Forall_app. split; [done|]. by repeat constructor. } { done. }
    assert (H1 : (a ++ [v]) ++ rest ++ z = a ++ v :: rest ++ z) by by rewrite <- app_assoc.
    rewrite H1 in *. rewrite blen_snoc in Hrun. subst c. simpl. rewrite blen_cons.
    replace (blen a + (1 + blen rest) - 1) with (blen a + 1 + blen rest - 1) by lia.
    rewrite Hrun. exists xs, n. done.
Qed.

(** Sifting succeeds, keeps the items and moves them to the front. *)
Lemma sift_ok l :
  wf l ->
  exists l', ArrayList_sift (Some l) = Ok (ALIB_OK, Some l', [])
    /\ wf l' /\ capacity l' = capacity l /\ max_cap l' = max_cap l
    /\ free_item l' = free_item l
    /\ exists xs n, slots l' = xs ++ replicate n NULL /\ items l' = xs /\ xs ≡ₚ items l.
Proof.
  intros Hwf. pose proof Hwf as [_ _ _ [Hm Hx]].
  destruct (wf_cases l Hwf) as [(Hl & Hc & Hc0)|(cells & Hl & Hs & Hb & Hc & Hct)].
  { exists l. split.
    - unfold ArrayList_sift. apply on_obj_Ok. mstep. rewrite Hc0. done.
    - repeat (split; [done|]). exists [], 0%nat. unfold items, slots. rewrite Hl. done. }
  destruct (Z.eqb_spec (count l) 0) as [E|E].
  { exists l. split.
    - unfold ArrayList_sift. apply on_obj_Ok. mstep. by rewrite E.
    - repeat (split; [done|]). unfold items. rewrite Hs.
      assert (items_of cells = []) as Hn.
      { destruct (items_of cells); [done|]. rewrite blen_cons in Hct. pose proof (blen_nonneg l0). lia. }
      exists [], (length cells). rewrite Hn. split; [by apply items_of_nil_inv|done]. }
  destruct (sift_from_ok l (S (S (length cells))) [] cells []) as (xs & n & Hrun & Hperm & Hlen);
    [lia|constructor|done|].
  simpl in Hrun, Hperm, Hlen. rewrite app_nil_r in *. change (blen []) with 0 in Hrun.
  rewrite Z.add_0_l, <- Hct, Hb in Hrun. rewrite <- (st_id l cells Hl) in Hrun.
  assert (Hfull : items_of xs = xs).
  { apply items_of_full. rewrite Hperm. apply items_of_nonnull. }
  exists (st l (xs ++ replicate n NULL) (count l)). split; [|split; [|do 3 (split; [done|])]].
  - unfold ArrayList_sift. apply on_obj_Ok. rewrite !bind_gets, (proj2 (Z.eqb_neq _ _)) by done.
    rewrite bind_gets. unfold array_fuel. rewrite Hl. exact Hrun.
  - apply st_wf; try lia. rewrite items_of_app, items_of_null, app_nil_r, Hfull, Hct.
    unfold blen. f_equal. symmetry. by apply Permutation_length.
  - exists xs, n. unfold items. rewrite Hs. change (slots (st l ?x _)) with x.
    rewrite items_of_app, items_of_null, app_nil_r, Hfull. done.
Qed.
