(* ===== verification/ArrayListSpec.v ===== *)
(** What the array list promises: the refinement of its operations to a bag of
    items, the invariant along every sequence of operations of a client, and
    the functional behaviour of the searches and of sorting. *)
From stdpp Require Import sorting.
From S2P Require Import Prelude Memory Effects ArrayList.


(** * Removal, clearing and resizing on a well-formed list *)
Section functional.
Context (l : ArrayList) (Hwf : wf l).

Lemma add_ok item :
  max_cap l <= 2 ^ 59 ->
  exists l', ArrayList_add true item (Some l) =
      Ok (if (item =? NULL) || (max_cap l <=? blen (items l)) then 0 else 1, Some l', [])
    /\ wf l' /\ max_cap l' = max_cap l /\ free_item l' = free_item l
    /\ if (item =? NULL) || (max_cap l <=? blen (items l)) then l' = l
       else items l' ≡ₚ item :: items l.
Proof.
  intros Hmax. pose proof (count_range l Hwf). pose proof Hwf as [Hs _ Hc [Hm Hx]].
  rewrite <- Hc. destruct (Z.eqb_spec item NULL) as [->|Hi].
  { exists l. done. }
  cbn [orb]. destruct (decide (count l < capacity l)) as [Hlt|Hge].
  - rewrite (proj2 (Z.leb_gt _ _)) by lia.
    destruct (add_free_slot l item Hwf Hi Hlt) as (cells & -> & Hw & Hp). by eexists.
  - destruct (Z.leb_spec (max_cap l) (count l)) as [Hfull|Hroom].
    + exists l. split; [|done]. unfold ArrayList_add. apply on_obj_Ok.
      rewrite (proj2 (Z.eqb_neq item NULL)), !bind_gets by done.
      rewrite (proj2 (Z.ltb_ge _ _)) by lia. by rewrite (proj2 (Z.eqb_eq _ _)) by lia.
    + destruct (add_expand l item Hwf Hi) as (l' & E & Hw & Hit & _ & _); try lia.
      exists l'. split; [done|]. split; [done|].
      assert (Hkeep : max_cap l' = max_cap l /\ free_item l' = free_item l).
      { revert E. unfold ArrayList_add, on_obj.
        rewrite (proj2 (Z.eqb_neq item NULL)), !bind_gets by done.
        rewrite (proj2 (Z.ltb_ge _ _)), (proj2 (Z.eqb_neq _ _)) by lia.
        rewrite (bind_quiet _ _ _ _ _ (here_Some _ _ _ _ _ (expand_grow l Hwf ltac:(lia) ltac:(lia)))).
        unfold slot_store, incr_count. mstep. simpl.
        destruct (blk_store _ _ _); [|done|done]. simpl. by intros [= <-]. }
      destruct Hkeep as [-> ->]. rewrite Hit. repeat split.
      by rewrite Permutation_app_comm.
Qed.

Lemma remove_ok item :
  exists l', ArrayList_remove item (Some l) =
      Ok (tt, Some l', if decide (item <> NULL /\ item ∈ items l) then freed l [item] else [])
    /\ ArrayList_remove_no_free item (Some l) = Ok (tt, Some l', [])
    /\ wf l' /\ max_cap l' = max_cap l /\ free_item l' = free_item l
    /\ items l' = if item =? NULL then items l else remove_first item (items l).
Proof.
  destruct (Z.eqb_spec item NULL) as [->|Hi].
  { exists l. rewrite decide_False by naive_solver. done. }
  unfold ArrayList_remove, ArrayList_remove_no_free. rewrite (proj2 (Z.eqb_neq item NULL)) by done.
  destruct (remove_cases l item Hwf Hi) as [(Hin & a & b & Hl & Hrf & Hscan)|(Hni & Hrf & Hscan)].
  - pose proof (wf_remove l a item b Hwf Hl Hi) as [Hw Hpos].
    pose proof (count_range l Hwf). pose proof Hwf as [_ _ _ [Hm Hx]]. unfold ULONG_MAX in *.
    exists (st l (a ++ NULL :: b) (count l - 1)). rewrite decide_True by done.
    split; [|split; [|done]]; apply on_obj_Ok; rewrite (bind_quiet _ _ _ _ _ Hscan);
      rewrite (st_id l _ Hl) at 1.
    + rewrite remove_by_ptr_middle by lia. unfold freed. by destruct (free_item l).
    + by rewrite remove_by_ptr_no_free_middle by lia.
  - exists l. rewrite decide_False by naive_solver. rewrite Hrf.
    split; [|split; [|done]]; apply on_obj_Ok; by rewrite (bind_quiet _ _ _ _ _ Hscan).
Qed.

Lemma clear_ok :
  exists l', ArrayList_clear (Some l) = Ok (tt, Some l', freed l (items l))
    /\ wf l' /\ max_cap l' = max_cap l /\ free_item l' = free_item l /\ items l' = []
    /\ capacity l' = capacity l.
Proof.
  pose proof Hwf as [_ _ _ [Hm Hx]]. unfold ULONG_MAX in *.
  destruct (wf_cases l Hwf) as [(Hl & Hc & Hct)|(cells & Hl & Hs & Hb & Hc & Hct)].
  - exists l. assert (items l = []) as -> by (unfold items, slots; by rewrite Hl).
    split; [|done]. unfold ArrayList_clear. apply on_obj_Ok. rewrite bind_gets.
    unfold array_fuel. rewrite Hl. cbn [clear_from]. rewrite bind_gets, Hct.
    unfold freed. by destruct (free_item l).
  - exists (st l (replicate (length cells) NULL) 0).
    pose proof (count_range l Hwf). unfold items. rewrite Hs.
    split; [|split; [|split; [done|split; [done|split; [apply items_of_null|done]]]]].
    + unfold ArrayList_clear. apply on_obj_Ok. rewrite bind_gets. unfold array_fuel. rewrite Hl.
      pose proof (clear_from_ok l [] cells (S (S (length cells))) ltac:(lia) ltac:(lia)) as E.
      simpl app in E. rewrite <- Hct, <- (st_id l cells Hl) in E. exact E.
    + apply st_wf; try (unfold ULONG_MAX; lia).
      * unfold blen in *. by rewrite length_replicate.
      * by rewrite items_of_null.
Qed.

Lemma resize_ok newcap :
  0 <= newcap <= max_cap l -> max_cap l <= 2 ^ 59 ->
  exists l' t, ArrayList_resize true newcap (Some l) = Ok (newcap, Some l', t)
    /\ wf l' /\ max_cap l' = max_cap l /\ free_item l' = free_item l /\ capacity l' = newcap
    /\ items l' = take (Z.to_nat newcap) (items l)
    /\ t = if newcap =? 0 then [] else freed l (drop (Z.to_nat newcap) (items l)).
Proof.
  intros Hn Hmax. pose proof Hwf as [Hs Hnull Hct [Hm Hx]]. pose proof (count_range l Hwf) as Hcr.
  assert (Hfit : capacity l <= newcap ->
    take (Z.to_nat newcap) (items l) = items l /\ drop (Z.to_nat newcap) (items l) = []).
  { intros. unfold blen in *. rewrite take_ge, drop_ge by lia. done. }
  destruct (Z.lt_trichotomy newcap (capacity l)) as [Hlt|[Heq|Hgt]].
  - destruct (Z.eqb_spec newcap 0) as [->|Hnz].
    + exists (set_capacity 0 (set_count 0 (set_list None l))), []. split; [|].
      * unfold ArrayList_resize. apply on_obj_Ok. rewrite !bind_gets.
        rewrite (proj2 (Z.eqb_neq _ _)) by lia.
        destruct (list l) as [cells|] eqn:E; [done|]. rewrite (proj1 Hnull eq_refl) in Hlt. lia.
      * repeat split; simpl; try done; lia.
    + destruct (resize_shrink l newcap Hwf ltac:(lia)) as (cells & -> & Hb & Hi).
      eexists _, _. split; [done|]. split; [|done].
      apply (st_wf (set_capacity newcap l)); simpl; try lia.
      rewrite Hi. unfold blen in *. rewrite length_take. lia.
  - exists l, []. destruct Hfit as [-> ->]; [lia|]. split; [|].
    + unfold ArrayList_resize. apply on_obj_Ok. rewrite !bind_gets.
      by rewrite (proj2 (Z.eqb_eq _ _)).
    + do 5 (split; [done|]). unfold freed. by destruct (free_item l), (newcap =? 0).
  - eexists _, []. split; [apply resize_grow; done || lia|]. destruct Hfit as [-> ->]; [lia|].
    set (k := Z.to_nat (newcap - capacity l)).
    assert (Hit : items_of (slots l ++ replicate k NULL) = items l)
      by by rewrite items_of_app, items_of_null, app_nil_r.
    split; [|].
    + apply (st_wf (set_capacity newcap l)); simpl; try lia.
      * rewrite blen_app, Hs. unfold blen. rewrite length_replicate. lia.
      * by rewrite Hit.
    + do 3 (split; [done|]). split; [exact Hit|].
      unfold freed. rewrite (proj2 (Z.eqb_neq _ _)) by lia. by destruct (free_item l).
Qed.

Lemma expand_ok :
  max_cap l <= 2 ^ 59 ->
  exists l' c, ArrayList_expand true (Some l) = Ok (c, Some l', []) /\ 0 < c <= max_cap l
    /\ wf l' /\ max_cap l' = max_cap l /\ free_item l' = free_item l /\ items l' = items l.
Proof.
  intros Hmax. pose proof Hwf as [Hs _ Hct [Hm Hx]]. pose proof (count_range l Hwf).
  destruct (decide (capacity l < max_cap l)) as [Hlt|Hge].
  - assert (Hg : capacity l < next_cap l <= max_cap l) by (unfold next_cap; case_cmp; lia).
    destruct (resize_ok (next_cap l)) as (l' & t & E & Hw & H1 & H2 & _ & Hi & _); [lia|lia|].
    rewrite resize_grow in E by (done || lia). injection E as <- _.
    eexists _, _. rewrite expand_grow by (done || lia). split; [done|]. split; [lia|].
    do 3 (split; [done|]). etrans; [exact Hi|].
    unfold blen in *. by rewrite take_ge by lia.
  - exists l, (capacity l). split; [|split; [lia|done]].
    unfold ArrayList_expand. apply on_obj_Ok. rewrite !bind_gets.
    rewrite (proj2 (Z.eqb_neq _ _)), (proj2 (Z.ltb_ge _ _)) by lia. done.
Qed.
End functional.

(** * The bag of items *)
Module Bag.
Inductive op :=
| Add (p : ptr) | Remove (p : ptr) | Remove_no_free (p : ptr)
| Clear | Sift | Shrink | Expand | Resize (n : Z).

(** The calls, every allocation successful; a [void] function returns 0. *)
Definition call (o : op) : M (option ArrayList) Z :=
  match o with
  | Add p => ArrayList_add true p
  | Remove p => ArrayList_remove p;; mret 0
  | Remove_no_free p => ArrayList_remove_no_free p;; mret 0
  | Clear => ArrayList_clear;; mret 0
  | Sift => ArrayList_sift
  | Shrink => ArrayList_shrink true
  | Expand => ArrayList_expand true
  | Resize n => ArrayList_resize true n
  end.

(** A client stays below the maximum capacity when it resizes. *)
Definition admissible (max : Z) (o : op) : Prop :=
  match o with Resize n => 0 <= n <= max | _ => True end.

(** The state of the specification is the multiset of items, given by a
    list; a step has a result, a new multiset and the items it frees.  The
    returned capacities are left open. *)
Inductive step (max : Z) : op -> Datatypes.list ptr -> Z -> Datatypes.list ptr
                           -> Datatypes.list ptr -> Prop :=
| step_add p xs ys : p <> NULL -> blen xs < max -> ys ≡ₚ p :: xs -> step max (Add p) xs 1 ys []
| step_add_fail p xs : p = NULL \/ max <= blen xs -> step max (Add p) xs 0 xs []
| step_remove p xs ys : p <> NULL -> xs ≡ₚ p :: ys -> step max (Remove p) xs 0 ys [p]
| step_remove_absent p xs : p = NULL \/ p ∉ xs -> step max (Remove p) xs 0 xs []
| step_take p xs ys : p <> NULL -> xs ≡ₚ p :: ys -> step max (Remove_no_free p) xs 0 ys []
| step_take_absent p xs : p = NULL \/ p ∉ xs -> step max (Remove_no_free p) xs 0 xs []
| step_clear xs : step max Clear xs 0 [] xs
| step_sift xs ys : ys ≡ₚ xs -> step max Sift xs ALIB_OK ys []
| step_shrink xs : step max Shrink xs (blen xs) xs []
| step_expand xs c : 0 < c <= max -> step max Expand xs c xs []
| step_resize n xs ys zs :
    0 < n -> xs = ys ++ zs -> blen ys = Z.min n (blen xs) -> step max (Resize n) xs n ys zs
| step_drop xs : step max (Resize 0) xs 0 [] [].

Definition events (free : bool) (xs : Datatypes.list ptr) : Datatypes.list event :=
  if free then EvFree <$> xs else [].

(** A client's run: the calls one after the other. *)
Fixpoint run (os : Datatypes.list op) : M (option ArrayList) (Datatypes.list Z) :=
  match os with
  | [] => mret []
  | o :: os => r ← call o; rs ← run os; mret (r :: rs)
  end.

Inductive steps (max : Z) : Datatypes.list op -> Datatypes.list ptr -> Datatypes.list Z
                            -> Datatypes.list ptr -> Datatypes.list ptr -> Prop :=
| steps_nil xs : steps max [] xs [] xs []
| steps_cons o os xs r ys f rs zs g :
    step max o xs r ys f -> steps max os ys rs zs g ->
    steps max (o :: os) xs (r :: rs) zs (f ++ g).
End Bag.

Lemma remove_first_perm x xs : x ∈ xs -> xs ≡ₚ x :: remove_first x xs.
Proof.
  induction xs as [|y xs IH]; simpl; [by intros ?%not_elem_of_nil|].
  intros Hin. destruct (Z.eqb_spec y x) as [->|Hne]; [done|].
  apply elem_of_cons in Hin as [->|Hin]; [done|].
  rewrite (IH Hin) at 1. apply Permutation_swap.
Qed.
Lemma remove_first_notin x xs : x ∉ xs -> remove_first x xs = xs.
Proof.
  induction xs as [|y xs IH]; [done|]. intros Hni. simpl.
  destruct (Z.eqb_spec y x) as [->|]; [set_solver|]. rewrite IH; set_solver.
Qed.

Lemma on_obj_void {A} (m : M (option ArrayList) unit) (a : A) s s1 t :
  m s = Ok (tt, s1, t) -> (m;; mret a) s = Ok (a, s1, t).
Proof. intros H. mstep. rewrite H. simpl. by rewrite app_nil_r. Qed.

(** One call refines one step of the bag. *)
Lemma call_refines l o :
  wf l -> max_cap l <= 2 ^ 59 -> Bag.admissible (max_cap l) o ->
  exists l' r f, Bag.call o (Some l) = Ok (r, Some l', Bag.events (free_item l) f)
    /\ Bag.step (max_cap l) o (items l) r (items l') f
    /\ wf l' /\ max_cap l' = max_cap l /\ free_item l' = free_item l.
Proof.
  intros Hwf Hmax Hadm. pose proof (count_range l Hwf). pose proof Hwf as [Hs _ Hct [Hm Hx]].
  assert (Hn : Bag.events (free_item l) [] = []) by (unfold Bag.events; by destruct (free_item l)).
  destruct o as [p|p|p| | | | |n]; cbn [Bag.call Bag.admissible] in *.
  - destruct (add_ok l Hwf p Hmax) as (l' & -> & Hw & H1 & H2 & Hp).
    exists l', (if (p =? NULL) || (max_cap l <=? blen (items l)) then 0 else 1), [].
    rewrite Hn. split; [done|]. split; [|done]. revert Hp.
    destruct (Z.eqb_spec p NULL), (Z.leb_spec (max_cap l) (blen (items l))); cbn [orb].
    1-3: intros ->; constructor; auto.
    intros Hp. by constructor.
  - destruct (remove_ok l Hwf p) as (l' & E & _ & Hw & H1 & H2 & Hi).
    apply (on_obj_void _ 0) in E. exists l'. rewrite Hi. destruct (Z.eqb_spec p NULL) as [->|Hp].
    + rewrite decide_False in E by naive_solver. exists 0, []. rewrite Hn, E.
      split; [done|]. split; [|done]. constructor. by left.
    + case_decide as Hin.
      * exists 0, [p]. rewrite E. split; [done|]. split; [|done].
        constructor; [done|]. apply remove_first_perm, Hin.
      * exists 0, []. rewrite E, Hn. split; [done|]. split; [|done].
        assert (p ∉ items l) by naive_solver. rewrite remove_first_notin by done. constructor. by right.
  - destruct (remove_ok l Hwf p) as (l' & _ & E & Hw & H1 & H2 & Hi).
    apply (on_obj_void _ 0) in E. exists l', 0, []. rewrite E, Hn, Hi. split; [done|]. split; [|done].
    destruct (Z.eqb_spec p NULL) as [->|Hp]; [apply Bag.step_take_absent; by left|].
    destruct (decide (p ∈ items l)).
    + apply Bag.step_take; [done|]. by apply remove_first_perm.
    + rewrite remove_first_notin by done. apply Bag.step_take_absent. by right.
  - destruct (clear_ok l Hwf) as (l' & E & Hw & H1 & H2 & Hi & _).
    apply (on_obj_void _ 0) in E. exists l', 0, (items l). rewrite E, Hi. split; [done|].
    split; [constructor|done].
  - destruct (sift_ok l Hwf) as (l' & E & Hw & _ & H1 & H2 & xs & n & _ & Hi & Hp).
    exists l', ALIB_OK, []. rewrite E, Hn, Hi. split; [done|]. split; [by constructor|done].
  - destruct (resize_ok l Hwf (count l)) as (l' & t & E & Hw & H1 & H2 & _ & Hi & ->); [lia|lia|].
    exists l', (count l), [].
    assert (take (Z.to_nat (count l)) (items l) = items l /\
            drop (Z.to_nat (count l)) (items l) = []) as [Ht Hd].
    { rewrite Hct. unfold blen. by rewrite take_ge, drop_ge by lia. }
    rewrite Ht in Hi. rewrite Hd in E. rewrite Hn, Hi. split; [|split; [|done]].
    + unfold ArrayList_shrink. apply on_obj_Ok. rewrite bind_gets. apply here_Some.
      rewrite E. unfold freed. by destruct (count l =? 0), (free_item l).
    + rewrite Hct. constructor.
  - destruct (expand_ok l Hwf Hmax) as (l' & c & E & Hc & Hw & H1 & H2 & Hi).
    exists l', c, []. rewrite E, Hn, Hi. split; [done|]. split; [by constructor|done].
  - destruct (resize_ok l Hwf n) as (l' & t & E & Hw & H1 & H2 & _ & Hi & ->); [lia|lia|].
    rewrite E. destruct (Z.eqb_spec n 0) as [->|Hnz].
    + exists l', 0, []. rewrite Hn, Hi. split; [done|]. split; [apply Bag.step_drop|done].
    + exists l', n, (drop (Z.to_nat n) (items l)). rewrite Hi. split; [done|]. split; [|done].
      constructor; [lia|by rewrite take_drop|]. unfold blen in *. rewrite length_take. lia.
Qed.

Lemma events_app b xs ys : Bag.events b xs ++ Bag.events b ys = Bag.events b (xs ++ ys).
Proof. unfold Bag.events. destruct b; [by rewrite fmap_app|done]. Qed.

(** A run of admissible calls never faults, keeps the invariant and refines
    the steps of the bag. *)
Lemma run_steps os : forall l,
  wf l -> max_cap l <= 2 ^ 59 -> Forall (Bag.admissible (max_cap l)) os ->
  exists l' rs f, Bag.run os (Some l) = Ok (rs, Some l', Bag.events (free_item l) f)
    /\ Bag.steps (max_cap l) os (items l) rs (items l') f
    /\ wf l' /\ max_cap l' = max_cap l.
Proof.
  induction os as [|o os IH]; intros l Hwf Hmax Hadm.
  { exists l, [], []. split; [|split; [constructor|done]].
    unfold Bag.events. by destruct (free_item l). }
  inversion_clear Hadm as [|? ? Ho Hos].
  destruct (call_refines l o Hwf Hmax Ho) as (l1 & r & f & E & Hstep & Hw1 & Hm1 & Hf1).
  destruct (IH l1 Hw1) as (l2 & rs & g & E2 & Hsteps & Hw2 & Hm2); [by rewrite Hm1..|].
  exists l2, (r :: rs), (f ++ g). cbn [Bag.run]. rewrite (bind_Ok _ _ _ _ _ _ E).
  rewrite (bind_Ok _ _ _ _ _ _ E2). simpl. rewrite app_nil_r, Hf1, events_app.
  split; [done|]. split; [|split; [done|congruence]].
  rewrite Hm1 in Hsteps. econstructor; done.
Qed.

(** The list [newArrayList_ex] makes. *)
Lemma new_list_ok free start max um :
  0 <= start <= max -> 0 < max <= ULONG_MAX ->
  exists l, newArrayList_ex true true free start max um
      = Ok (Some l, if um then [EvMutexInit] else [])
    /\ wf l /\ items l = [] /\ max_cap l = max /\ free_item l = free /\ mutex_held l = false.
Proof.
  intros Hs Hm. unfold newArrayList_ex.
  rewrite (proj2 (Z.eqb_neq max 0)), (proj2 (Z.ltb_ge max start)) by lia. cbn [negb].
  destruct (Z.eqb_spec start 0) as [->|Hnz]; cbn [negb calloc].
  - eexists. split; [done|]. split; [|done]. split; simpl; lia || done.
  - eexists. split; [done|]. split; [|split; [apply items_of_null|done]].
    split; simpl.
    + unfold slots, blen. simpl. rewrite length_replicate. lia.
    + split; [done|lia].
    + change (0 = blen (items_of (replicate (Z.to_nat start) NULL))). by rewrite items_of_null.
    + lia.
Qed.

(** ** What the runs add and free *)
Fixpoint adds (os : Datatypes.list Bag.op) : Datatypes.list ptr :=
  match os with
  | [] => []
  | Bag.Add p :: os => p :: adds os
  | _ :: os => adds os
  end.

Lemma step_conserves max o xs r ys f :
  Bag.step max o xs r ys f -> f ++ ys ⊆+ adds [o] ++ xs.
Proof.
  destruct 1 as [p xs ys _ _ ->|p xs _|p xs ys _ ->|p xs _|p xs ys _ ->|p xs _|xs|xs ys ->
                |xs|xs c _|n xs ys zs _ -> _|xs]; simpl;
    rewrite ?app_nil_r; try done.
  - by apply submseteq_cons.
  - by apply submseteq_cons.
  - by rewrite Permutation_app_comm.
  - apply submseteq_nil_l.
Qed.

Lemma steps_conserve max os xs rs ys f :
  Bag.steps max os xs rs ys f -> f ++ ys ⊆+ adds os ++ xs.
Proof.
  induction 1 as [xs|o os xs r ys f rs zs g Hstep _ IH]; [done|].
  apply step_conserves in Hstep.
  rewrite <- app_assoc. etrans; [apply submseteq_app; [reflexivity|exact IH]|].
  rewrite app_assoc, (Permutation_app_comm f), <- app_assoc.
  etrans; [apply submseteq_app; [reflexivity|exact Hstep]|].
  rewrite app_assoc, (Permutation_app_comm (adds os)).
  destruct o; done.
Qed.

Lemma NoDup_submseteq_mono {A} (xs ys : Datatypes.list A) : xs ⊆+ ys -> NoDup ys -> NoDup xs.
Proof.
  intros (zs & ->)%submseteq_Permutation Hnd. by apply list.NoDup_app in Hnd as [? _].
Qed.

(** ** Sequences of calls on a new list *)

(** C3: when every allocation succeeds and the maximum is at most 2^59: from [newArrayList_ex], every sequence
    of calls in which no resize asks for more than the maximum returns normally (no fault, no endless loop),
    performs exactly the steps of the bag with the capacity [max] (same results, same items), calls the free
    callback on exactly the items the bag frees, and leaves a well-formed list. The bag frees the items that a
    smaller capacity cuts off, which is what the code does and not what the comment at ArrayList.h:95 says; and
    the code does not hold a list that has an array to its maximum (ArrayList.c:316), which is why the larger
    resizes are left out. *)
Theorem run_refines_bag (os : Datatypes.list Bag.op) (free um : bool) (start max : Z) :
  0 <= start <= max -> 0 < max <= 2 ^ 59 -> Forall (Bag.admissible max) os ->
  exists l l' rs f,
    newArrayList_ex true true free start max um = Ok (Some l, if um then [EvMutexInit] else [])
    /\ Bag.run os (Some l) = Ok (rs, Some l', Bag.events free f)
    /\ Bag.steps max os [] rs (items l') f /\ wf l'.
Proof.
  intros Hs Hm Hadm.
  destruct (new_list_ok free start max um) as (l & Hnew & Hw & Hi & Hmax & Hf & _);
    [lia|unfold ULONG_MAX; lia|].
  destruct (run_steps os l Hw) as (l' & rs & f & Hrun & Hsteps & Hw' & _);
    [lia|by rewrite Hmax|].
  rewrite Hi, Hmax in Hsteps. rewrite Hf in Hrun. by exists l, l', rs, f.
Qed.

Lemma run_refines_bag_witness :
  exists l l' rs f,
    newArrayList_ex true true true 2 3 false = Ok (Some l, [])
    /\ Bag.run [Bag.Add 8; Bag.Add 16; Bag.Add 24; Bag.Add 32; Bag.Remove 16; Bag.Shrink] (Some l)
       = Ok (rs, Some l', Bag.events true f)
    /\ Bag.steps 3 [Bag.Add 8; Bag.Add 16; Bag.Add 24; Bag.Add 32; Bag.Remove 16; Bag.Shrink]
         [] rs (items l') f /\ wf l'.
Proof.
  apply (run_refines_bag _ true false 2 3); [lia|lia|]. repeat constructor.
Defined.

(** C4: a client that adds distinct items gets each of them freed at most
    once, and never an item that is still in the list. *)
Theorem no_double_free (os : Datatypes.list Bag.op) (start max : Z) (um : bool) :
  0 <= start <= max -> 0 < max <= 2 ^ 59 -> Forall (Bag.admissible max) os ->
  NoDup (adds os) ->
  exists l l' rs freed_items,
    newArrayList_ex true true true start max um = Ok (Some l, if um then [EvMutexInit] else [])
    /\ Bag.run os (Some l) = Ok (rs, Some l', EvFree <$> freed_items)
    /\ NoDup (freed_items ++ items l') /\ (freed_items ++ items l') ⊆ adds os.
Proof.
  intros Hs Hm Hadm Hnd.
  destruct (new_list_ok true start max um) as (l & Hnew & Hw & Hi & Hmax & Hf & _);
    [lia|unfold ULONG_MAX; lia|].
  destruct (run_steps os l Hw) as (l' & rs & f & Hrun & Hsteps & _);
    [lia|by rewrite Hmax|].
  rewrite Hi in Hsteps. rewrite Hf in Hrun. apply steps_conserve in Hsteps.
  rewrite app_nil_r in Hsteps. exists l, l', rs, f. split; [done|]. split; [done|]. split.
  - by eapply NoDup_submseteq_mono.
  - intros x Hx. by eapply elem_of_submseteq.
Qed.

Lemma no_double_free_witness :
  exists l l' rs freed_items,
    newArrayList_ex true true true 0 8 true = Ok (Some l, [EvMutexInit])
    /\ Bag.run [Bag.Add 8; Bag.Add 16; Bag.Remove 16; Bag.Clear] (Some l)
       = Ok (rs, Some l', EvFree <$> freed_items)
    /\ NoDup (freed_items ++ items l') /\ (freed_items ++ items l') ⊆ [8; 16].
Proof.
  apply (no_double_free [Bag.Add 8; Bag.Add 16; Bag.Remove 16; Bag.Clear] 0 8 true);
    [lia|lia|repeat constructor|]. simpl. apply (bool_decide_unpack _). by vm_compute.
Defined.

(** A scan for a free slot with a capacity above the size of a full array. *)
Lemma scan_overrun cells n :
  Forall (.≠ NULL) cells -> blen cells < n ->
  scan (fun v => v =? NULL) (S (Z.to_nat n)) (Some cells) n 0 = UB OutOfBounds.
Proof.
  intros Hnn Hn.
  assert (G : forall fuel pre post, cells = pre ++ post -> (length post < fuel)%nat ->
    scan (fun v => v =? NULL) fuel (Some cells) n (blen pre) = UB OutOfBounds).
  { intros fuel pre post. revert fuel pre.
    induction post as [|v post IH]; intros fuel pre -> Hf;
      (destruct fuel as [|fuel]; [lia|]); cbn [scan].
    - rewrite app_nil_r in *. rewrite (proj2 (Z.ltb_lt _ _)) by lia. rstep.
      by rewrite blk_load_oob by (right; lia).
    - rewrite blen_app, blen_cons in Hn. pose proof (blen_nonneg post).
      rewrite (proj2 (Z.ltb_lt _ _)) by lia. rstep. rewrite blk_load_middle. rstep.
      apply Forall_app in Hnn as [_ Hv]. inversion_clear Hv.
      rewrite (proj2 (Z.eqb_neq v NULL)) by done.
      rewrite <- (blen_snoc pre v). apply IH; [by rewrite <- app_assoc|simpl in Hf; lia]. }
  apply (G _ [] cells); [done|]. unfold blen in Hn. lia.
Qed.

(** The list has an array and no free slot. *)
Definition full (l : ArrayList) : Prop := 0 < capacity l /\ count l = capacity l.

(** [ArrayList_set_max_cap] writes the capacity: after it, adding to a
    full list accesses memory outside of the array. *)
Theorem set_max_cap_breaks (l : ArrayList) (item n : Z) :
  wf l -> full l -> capacity l < n <= ULONG_MAX -> item <> NULL ->
  (ArrayList_set_max_cap n;; ArrayList_add true item) (Some l) = UB OutOfBounds.
Proof.
  intros Hwf [Hc Hfull] Hn Hi.
  destruct (wf_cases l Hwf) as [(?&?&?)|(cells & Hl & Hcells & Hb & _ & Hct')]; [lia|].
  unfold ArrayList_set_max_cap. rewrite (proj2 (Z.eqb_neq n 0)) by lia.
  rewrite (bind_quiet _ _ _ tt (Some (set_capacity n l))) by done.
  unfold ArrayList_add, on_obj. rewrite (proj2 (Z.eqb_neq item NULL)), !bind_gets by done.
  change (count (set_capacity n l)) with (count l). change (capacity (set_capacity n l)) with n.
  rewrite (proj2 (Z.ltb_lt _ _)) by lia.
  unfold scan_list. unfold mbind at 2, M_bind at 1. rewrite bind_gets.
  change (list (id (set_capacity n l))) with (list l). rewrite Hl.
  change (capacity (id (set_capacity n l))) with n. unfold lift.
  rewrite scan_overrun; [done|apply items_of_full_inv; lia|lia].
Qed.

Lemma set_max_cap_breaks_witness :
  (ArrayList_set_max_cap 3;; ArrayList_add true 24)
    (Some (mkArrayList (Some [8; 16]) 2 2 5 false false false)) = UB OutOfBounds.
Proof.
  by apply set_max_cap_breaks.
Defined.

(** ** Searching *)

(** The index of the first occurrence of [x], counted from [n]; -1 if none. *)
Fixpoint index_of (x : ptr) (n : Z) (xs : Datatypes.list ptr) : Z :=
  match xs with
  | [] => -1
  | y :: xs => if y =? x then n else index_of x (n + 1) xs
  end.

Lemma by_index_from_ok pre cells n fuel :
  0 <= n -> (length cells < fuel)%nat ->
  by_index_from fuel (Some (pre ++ cells)) (blen (pre ++ cells)) n (blen pre)
  = Ok (default NULL (items_of cells !! Z.to_nat n)).
Proof.
  revert pre n fuel. induction cells as [|v cells IH]; intros pre n fuel Hn Hf;
    (destruct fuel as [|fuel]; [simpl in Hf; lia|]); cbn [by_index_from].
  { rewrite app_nil_r, Z.ltb_irrefl. done. }
  rewrite blen_app, blen_cons. pose proof (blen_nonneg cells). simpl in Hf.
  rewrite (proj2 (Z.ltb_lt _ _)) by lia. rstep. rewrite blk_load_middle. rstep.
  rewrite items_of_cons. specialize (IH (pre ++ [v])).
  rewrite <- (app_assoc pre [v]), blen_snoc in IH. cbn [app] in IH.
  rewrite blen_app, blen_cons in IH.
  destruct (Z.eqb_spec v NULL) as [->|]; cbn [negb]; [by rewrite IH by lia|].
  destruct (Z.eqb_spec n 0) as [->|]; [done|]. rewrite IH by lia.
  replace (Z.to_nat n) with (S (Z.to_nat (n - 1))) by lia. done.
Qed.

Section searches.
Context (l : ArrayList).

Lemma find_value_ok cmp pre cells c fuel :
  (length cells < fuel)%nat ->
  find_value cmp fuel (blen (items_of cells)) (blen pre) (st l (pre ++ cells) c)
  = Ok (default NULL (head (filter (fun p => cmp p = 0) (items_of cells))), st l (pre ++ cells) c, []).
Proof.
  revert pre fuel. induction cells as [|v cells IH]; intros pre fuel Hf;
    (destruct fuel as [|fuel]; [simpl in Hf; lia|]); cbn [find_value]; [done|].
  simpl in Hf. specialize (IH (pre ++ [v]) fuel ltac:(lia)).
  rewrite <- (app_assoc pre [v]), blen_snoc in IH. cbn [app] in IH.
  pose proof (blen_nonneg (items_of cells)).
  rewrite items_of_cons. destruct (Z.eqb_spec v NULL) as [->|Hv].
  - rewrite Z.gtb_ltb. case_cmp.
    + by rewrite (bind_quiet _ _ _ _ _ (slot_load_middle l pre NULL cells c)).
    + destruct (items_of cells); [done|]. rewrite blen_cons in *. pose proof (blen_nonneg l0). lia.
  - rewrite blen_cons, Z.gtb_ltb, (proj2 (Z.ltb_lt _ _)) by lia.
    rewrite (bind_quiet _ _ _ _ _ (slot_load_middle l pre v cells c)).
    rewrite (proj2 (Z.eqb_neq v NULL)) by done. destruct (Z.eqb_spec (cmp v) 0) as [E|E].
    + by rewrite filter_cons_True.
    + rewrite filter_cons_False by done. rewrite Z.add_simpl_l. done.
Qed.

Lemma item_index_ok item pre cells n c fuel :
  (length cells < fuel)%nat -> 0 < capacity l -> n = blen (items_of pre) ->
  c = blen (items_of (pre ++ cells)) -> c < 2 ^ 63 ->
  item_index_from fuel item 0 n (blen pre) (st l (pre ++ cells) c)
  = Ok (index_of item n (items_of cells), st l (pre ++ cells) c, []).
Proof.
  intros Hf Hcap. revert pre n fuel Hf. induction cells as [|v cells IH];
    intros pre n fuel Hf Hn Hc Hb; (destruct fuel as [|fuel]; [simpl in Hf; lia|]);
    cbn [item_index_from]; rewrite bind_gets; cbn [id].
  { rewrite app_nil_r in *. change (count (st l pre c)) with c.
    rewrite (proj2 (Z.ltb_ge n c)) by lia. rewrite andb_false_r. done. }
  change (count (st l _ c)) with c. change (capacity (st l _ c)) with (capacity l).
  rewrite (proj2 (Z.ltb_lt 0 (capacity l))) by done. cbn [andb].
  simpl in Hf. pose proof (blen_nonneg (items_of cells)). pose proof (blen_nonneg (items_of pre)).
  rewrite items_of_app, items_of_cons, blen_app in Hc.
  assert (Hc' : c = blen (items_of ((pre ++ [v]) ++ cells))).
  { rewrite <- app_assoc, items_of_app, blen_app. simpl app. by rewrite items_of_cons. }
  specialize (IH (pre ++ [v])).
  rewrite <- (app_assoc pre [v]), blen_snoc in *. cbn [app] in *.
  rewrite items_of_app in IH. rewrite (items_of_cons v []) in IH. change (items_of []) with (@nil Z) in IH.
  rewrite items_of_cons in *. destruct (Z.eqb_spec v NULL) as [->|Hv].
  - rewrite app_nil_r in IH. case_cmp.
    + rewrite (bind_quiet _ _ _ _ _ (slot_load_middle l pre NULL cells c)).
      apply IH; [lia|done..].
    + destruct (items_of cells); [done|]. rewrite blen_cons in *. pose proof (blen_nonneg l0). lia.
  - rewrite blen_cons in Hc. rewrite (proj2 (Z.ltb_lt n c)) by lia.
    rewrite (bind_quiet _ _ _ _ _ (slot_load_middle l pre v cells c)).
    rewrite (proj2 (Z.eqb_neq v NULL)) by done. cbn [negb index_of].
    destruct (Z.eqb_spec v item); [by rewrite s64_small by lia|].
    apply IH; [lia|rewrite blen_snoc; lia|done..].
Qed.
End searches.

Lemma items_of_all_null cells :
  Forall (fun u => negb (u =? NULL) = false) cells -> items_of cells = [].
Proof.
  induction 1 as [|u cells Hu _ IH]; [done|]. rewrite items_of_cons.
  by apply negb_false_iff in Hu as ->.
Qed.

Lemma first_item_ok l :
  wf l -> ArrayList_get_first_item (Some l) = Ok (default NULL (head (items l)), Some l, []).
Proof.
  intros Hwf. unfold ArrayList_get_first_item. apply on_obj_Ok. unfold items.
  destruct (wf_cases l Hwf) as [(Hl & Hc & _)|(cells & Hl & -> & Hb & _)].
  { rewrite (bind_quiet _ _ _ _ _ (scan_list_none _ l Hl Hc)). unfold slots. by rewrite Hl. }
  destruct (scan_list_cases (fun v => negb (v =? NULL)) l cells (count l) Hb)
    as [(a & v & b & -> & Ha & Hv & Hscan)|[Hall Hscan]];
    rewrite <- (st_id l _ Hl) in Hscan; rewrite (bind_quiet _ _ _ _ _ Hscan).
  - pose proof (slot_load_middle l a v b (count l)) as Hld. rewrite <- (st_id l _ Hl) in Hld.
    rewrite Hld, items_of_app, items_of_cons, (items_of_all_null a Ha).
    by apply negb_true_iff in Hv as ->.
  - by rewrite items_of_all_null.
Qed.

Lemma find_item_ok (l : ArrayList) (cmp : ptr -> Z) : wf l ->
  ArrayList_find_item_by_value (Some cmp) (Some l)
  = Ok (default NULL (head (filter (fun p => cmp p = 0) (items l))), Some l, []).
Proof.
  intros Hwf. unfold ArrayList_find_item_by_value. apply on_obj_Ok. rewrite !bind_gets. unfold array_fuel.
  destruct (wf_cases l Hwf) as [(Hl&Hc&Hc0)|(cells & Hl & Hcells & Hb & Hpos & Hc)].
  - unfold items, slots. rewrite Hl. by rewrite Hc0.
  - rewrite Hl. unfold items. rewrite Hcells.
    pose proof (find_value_ok l cmp [] cells (count l) (S (S (length cells)))) as E.
    simpl app in E. rewrite <- Hc, <- (st_id l cells Hl) in E. apply E. lia.
Qed.

(** The read-only searches agree with the sequence of items: the item at
    an index, the index of an item, the first item, and the first item whose
    value compares equal. *)
Theorem searches_ok (l : ArrayList) (i : Z) (item : ptr) (cmp : ptr -> Z) :
  wf l -> capacity l < 2 ^ 63 -> 0 <= i -> item <> NULL ->
  ArrayList_get_by_index i (Some l) = Ok (default NULL (items l !! Z.to_nat i), Some l, [])
  /\ ArrayList_get_item_index item (Some l) = Ok (index_of item 0 (items l), Some l, [])
  /\ ArrayList_get_first_item (Some l) = Ok (default NULL (head (items l)), Some l, [])
  /\ ArrayList_find_item_by_value (Some cmp) (Some l)
     = Ok (default NULL (head (filter (fun p => cmp p = 0) (items l))), Some l, []).
Proof.
  intros Hwf Hcap Hi Hitem. pose proof (count_range l Hwf).
  pose proof Hwf as [Hs _ Hct _]. split; [|split; [|split; [by apply first_item_ok|]]].
  - unfold ArrayList_get_by_index. apply on_obj_Ok. rewrite bind_gets. cbn [id].
    rewrite Z.geb_leb. case_cmp.
    + rewrite lookup_ge_None_2; [done|]. unfold blen in *. lia.
    + destruct (wf_cases l Hwf) as [(?&?&?)|(cells & Hl & Hcells & Hb & _)]; [lia|].
      rewrite Hl. unfold items. rewrite Hcells, <- Hb.
      pose proof (by_index_from_ok [] cells i (S (Z.to_nat (blen cells))) Hi) as E.
      simpl app in E. unfold lift. change (blen []) with 0 in E. rewrite E; [done|].
      unfold blen. lia.
  - unfold ArrayList_get_item_index. apply on_obj_Ok.
    rewrite (proj2 (Z.eqb_neq item NULL)), bind_gets by done. unfold array_fuel.
    destruct (wf_cases l Hwf) as [(Hl&Hc&Hc0)|(cells & Hl & Hcells & Hb & Hpos & Hc)].
    + unfold items, slots. rewrite Hl. cbn [item_index_from]. rewrite bind_gets. cbn [id].
      by rewrite Hc, Hc0.
    + rewrite Hl. unfold items. rewrite Hcells.
      pose proof (item_index_ok l item [] cells 0 (count l) (S (S (length cells)))) as E.
      simpl app in E. rewrite <- (st_id l cells Hl) in E. apply E; lia || done.
  - by apply find_item_ok.
Qed.

Lemma searches_ok_witness :
  let l := mkArrayList (Some [0; 8; 0; 16]) 2 4 4 false false false in
  ArrayList_get_by_index 1 (Some l) = Ok (16, Some l, [])
  /\ ArrayList_get_item_index 16 (Some l) = Ok (1, Some l, [])
  /\ ArrayList_get_first_item (Some l) = Ok (8, Some l, [])
  /\ ArrayList_find_item_by_value (Some (fun p => p - 16)) (Some l) = Ok (16, Some l, []).
Proof.
  apply (searches_ok (mkArrayList (Some [0; 8; 0; 16]) 2 4 4 false false false) 1 16
           (fun p => p - 16)); done.
Defined.

(** ** Sorting *)

(** Items at the front of the array, free slots behind. *)
Definition packed (xs : Datatypes.list ptr) (n : nat) : Datatypes.list ptr :=
  xs ++ replicate n NULL.

(** With a [qsort] that permutes its argument, sorting puts the items in
    the order it gives them at the front of the array, the free slots behind,
    and keeps the list well-formed. *)
Theorem sort_ok (l : ArrayList) (qsort : Datatypes.list ptr -> Datatypes.list ptr) :
  wf l -> (forall xs, qsort xs ≡ₚ xs) ->
  exists l' xs n, ArrayList_sort qsort true (Some l) = Ok (ALIB_OK, Some l', [])
    /\ wf l' /\ xs ≡ₚ items l /\ items l' = qsort xs /\ slots l' = packed (qsort xs) n.
Proof.
  intros Hwf Hq. destruct (sift_ok l Hwf) as (l1 & E & Hw & _ & _ & _ & xs & n & Hsl & Hi & Hp).
  unfold packed.
  pose proof (wf_count l1 Hw) as Hc. rewrite Hi in Hc. pose proof (Hq xs) as Hqx.
  assert (Hlen : blen (qsort xs) = blen xs) by (unfold blen; by rewrite Hqx).
  assert (Hnn : items_of (qsort xs) = qsort xs).
  { apply items_of_full. rewrite Hqx, <- Hi. apply items_of_nonnull. }
  destruct (wf_cases l1 Hw) as [(Hl & _ & Hc0)|(cells & Hl & Hcells & Hb & Hpos & Hct)].
  - exists l1, xs, n. unfold slots in Hsl. rewrite Hl in Hsl.
    symmetry in Hsl. apply app_nil in Hsl as [-> Hn].
    assert (qsort [] = []) as -> by by apply Permutation_nil.
    split; [|split; [done|split; [done|split; [done|]]]].
    + unfold ArrayList_sort. apply on_obj_Ok. cbn [negb].
      rewrite (bind_quiet _ _ _ _ _ (here_Some _ _ _ _ _ E)), !bind_gets, Hl, Hc0. done.
    + unfold slots. by rewrite Hl, Hn.
  - rewrite Hsl in Hcells. subst cells.
    exists (st l1 (qsort xs ++ replicate n NULL) (count l1)), xs, n.
    assert (Hs' : items_of (qsort xs ++ replicate n NULL) = qsort xs)
      by by rewrite items_of_app, items_of_null, app_nil_r.
    pose proof (wf_max l1 Hw). rewrite blen_app in Hb. pose proof (blen_nonneg xs).
    pose proof (blen_nonneg (replicate n NULL)).
    split; [|split; [|split; [done|split; [exact Hs'|done]]]].
    + unfold ArrayList_sort. apply on_obj_Ok. cbn [negb].
      rewrite (bind_quiet _ _ _ _ _ (here_Some _ _ _ _ _ E)), !bind_gets, Hl, Hc.
      rewrite blk_read_ok, slice_prefix by (rewrite ?blen_app; lia).
      unfold lift at 1. rewrite (bind_quiet _ _ _ xs l1) by done.
      rewrite blk_write_ok, splice_prefix by (rewrite ?blen_app; lia).
      unfold lift, st. rewrite <- Hc. by destruct l1.
    + apply st_wf; rewrite ?blen_app; try lia. rewrite Hs'. lia.
Qed.

Lemma sort_ok_witness :
  let l := mkArrayList (Some [16; 0; 8]) 2 3 4 false false false in
  exists l' xs n, ArrayList_sort (fun xs => merge_sort Z.le xs) true (Some l) = Ok (ALIB_OK, Some l', [])
    /\ wf l' /\ xs ≡ₚ items l /\ items l' = merge_sort Z.le xs
    /\ slots l' = packed (merge_sort Z.le xs) n.
Proof.
  apply (sort_ok (mkArrayList (Some [16; 0; 8]) 2 3 4 false false false)); [done|].
  intros xs. apply merge_sort_Permutation.
Defined.

(** ** The thread-safe operations *)
Section ignores.
Lemma ignores_slot_load i : ignores_mutex (slot_load i).
Proof. unfold slot_load. auto with mutex. Qed.
Lemma ignores_slot_store i v : ignores_mutex (slot_store i v).
Proof. unfold slot_store. auto 10 with mutex. Qed.
Lemma ignores_incr : ignores_mutex incr_count.
Proof. by apply ignores_modify. Qed.
Lemma ignores_decr : ignores_mutex decr_count.
Proof. by apply ignores_modify. Qed.
Lemma ignores_set_list v : ignores_mutex (modify (set_list v)).
Proof. by apply ignores_modify. Qed.
Lemma ignores_set_count v : ignores_mutex (modify (set_count v)).
Proof. by apply ignores_modify. Qed.
Lemma ignores_set_capacity v : ignores_mutex (modify (set_capacity v)).
Proof. by apply ignores_modify. Qed.
Lemma ignores_scan p : ignores_mutex (scan_list p).
Proof.
  intros s b a s' t. unfold scan_list. mstep. unfold id. cbn [capacity list set_held ArrayList_locked set_mutex_held].
  destruct (scan p _ (list s) _ _); cbn; [|discriminate..]. by intros [= <- <- <-].
Qed.
End ignores.
#[export] Hint Resolve ignores_slot_load ignores_slot_store ignores_incr ignores_decr
  ignores_set_list ignores_set_count ignores_set_capacity ignores_scan : mutex.

Lemma ignores_remove_by_ptr i : ignores_mutex (here (ArrayList_remove_by_ptr i)).
Proof. unfold ArrayList_remove_by_ptr. apply ignores_here. destruct i; auto 10 with mutex. Qed.
Lemma ignores_remove_by_ptr_no_free i : ignores_mutex (here (ArrayList_remove_by_ptr_no_free i)).
Proof. unfold ArrayList_remove_by_ptr_no_free. apply ignores_here. destruct i; auto 10 with mutex. Qed.
#[export] Hint Resolve ignores_remove_by_ptr ignores_remove_by_ptr_no_free : mutex.

Lemma ignores_truncate n newcap it : ignores_mutex (truncate_items n newcap it).
Proof. revert it. induction n as [|n IH]; intros it; cbn [truncate_items]; auto 20 with mutex. Qed.
Lemma ignores_clear_from n it : ignores_mutex (clear_from n it).
Proof. revert it. induction n as [|n IH]; intros it; cbn [clear_from]; auto 20 with mutex. Qed.
Lemma ignores_sift_end n it stop : ignores_mutex (sift_end n it stop).
Proof. revert stop. induction n as [|n IH]; intros it'; cbn [sift_end]; auto 20 with mutex. Qed.
#[export] Hint Resolve ignores_truncate ignores_clear_from ignores_sift_end : mutex.
Lemma ignores_sift_from n it stop : ignores_mutex (sift_from n it stop).
Proof.
  revert it stop. induction n as [|n IH]; intros it stop; cbn [sift_from]; auto 20 with mutex.
Qed.
#[export] Hint Resolve ignores_sift_from : mutex.

Lemma ignores_resize ok n : ignores_mutex (here (ArrayList_resize ok n)).
Proof.
  unfold ArrayList_resize. apply ignores_here.
  do 4 (apply ignores_bind; [by apply ignores_gets|intros ?]).
  apply ignores_if; [auto with mutex|]. apply ignores_bind; [|auto with mutex].
  destruct a0; [|auto with mutex]. do 2 (apply ignores_if; [|auto with mutex]).
  apply ignores_bind; [auto with mutex|]. intros [??]. auto with mutex.
Qed.
#[export] Hint Resolve ignores_resize : mutex.

(** The thread-safe variants of the calls ([ArrayList_expand] has none). *)
Definition call_tsafe (o : Bag.op) : M (option ArrayList) Z :=
  match o with
  | Bag.Add p => ArrayList_add_tsafe true p
  | Bag.Remove p => ArrayList_remove_tsafe p;; mret 0
  | Bag.Remove_no_free p => ArrayList_remove_no_free_tsafe p;; mret 0
  | Bag.Clear => ArrayList_clear_tsafe;; mret 0
  | Bag.Sift => ArrayList_sift_tsafe
  | Bag.Shrink => ArrayList_shrink_tsafe true
  | Bag.Expand => ArrayList_expand true
  | Bag.Resize n => ArrayList_resize_tsafe true n
  end.

Definition bracket (l : ArrayList) (t : Datatypes.list event) : Datatypes.list event :=
  if use_mutex l then EvLock :: t ++ [EvUnlock] else t.

Lemma tsafe_bracket {A} (d : A) (m : M (option ArrayList) A) l a l' t :
  ignores_mutex (here m) -> mutex_held l = false -> m (Some l) = Ok (a, Some l', t) ->
  on_obj d (with_mutex (here m)) (Some l) = Ok (a, Some l', bracket l t).
Proof.
  intros Hi Hh Hm. apply on_obj_Ok.
  exact (with_mutex_ok (here m) l a l' t Hi Hh (here_Some _ _ _ _ _ Hm)).
Qed.

Lemma ignores_find_value cmp n : forall c it, ignores_mutex (find_value cmp n c it).
Proof.
  induction n as [|n IH]; intros c it; cbn [find_value]; [apply ignores_lift|].
  apply ignores_if; [|apply ignores_ret]. apply ignores_bind; [apply ignores_slot_load|]. intros v.
  apply ignores_if; [apply IH|]. apply ignores_if; [apply ignores_ret|apply IH].
Qed.
Lemma ignores_find cmp : ignores_mutex (here (ArrayList_find_item_by_value cmp)).
Proof.
  unfold ArrayList_find_item_by_value. apply ignores_here. destruct cmp; [|apply ignores_ret].
  apply ignores_bind; [by apply ignores_gets|]. intros f. apply ignores_bind; [by apply ignores_gets|]. intros c.
  apply ignores_find_value.
Qed.
Lemma ignores_add ok p : ignores_mutex (here (ArrayList_add ok p)).
Proof.
  unfold ArrayList_add, ArrayList_expand. apply ignores_here.
  repeat first [solve [auto with mutex] | apply ignores_if | apply ignores_bind; [|intros ?]
               | apply ignores_here | case_match].
Qed.
Lemma ignores_remove p : ignores_mutex (here (ArrayList_remove p)).
Proof.
  unfold ArrayList_remove. apply ignores_here.
  apply ignores_if; [|apply ignores_bind; [|intros []]]; auto with mutex.
Qed.
Lemma ignores_remove_no_free p : ignores_mutex (here (ArrayList_remove_no_free p)).
Proof.
  unfold ArrayList_remove_no_free. apply ignores_here.
  apply ignores_if; [|apply ignores_bind; [|intros []]]; auto with mutex.
Qed.
Lemma ignores_clear : ignores_mutex (here ArrayList_clear).
Proof.
  unfold ArrayList_clear. apply ignores_here. auto with mutex.
Qed.
Lemma ignores_sift : ignores_mutex (here ArrayList_sift).
Proof. unfold ArrayList_sift. apply ignores_here. auto 20 with mutex. Qed.


