(* ===== verification/Heap.v ===== *)
(** Heaps of linked objects: objects of a type live in a finite map from their
    addresses, address 0 is NULL, and reading or writing through NULL or
    through the address of a freed object is undefined.  A program state that
    keeps such a map is an instance of [Store]; the linked containers
    ([DListItem], [DList], [ListHistory]) are written with these accesses. *)
From stdpp Require Export gmap.
From S2P Require Import Prelude Effects.

Class Store (S A : Type) := {
  objs : S -> gmap Z A;
  put : gmap Z A -> S -> S;
  objs_put : forall m s, objs (put m s) = m;
  put_put : forall m m' s, put m (put m' s) = put m s;
  put_objs : forall s, put (objs s) s = s
}.

Section store.
Context {S A : Type} `{Store S A}.
Implicit Types (p : ptr) (s : S) (a : A).

(** [*p] *)
Definition load p : M S A := fun s =>
  if p =? NULL then UB NullDeref
  else match objs s !! p with Some a => Ok (a, s, []) | None => UB Dangling end.
(** [p->field = v], for the update [f] of the field. *)
Definition update p (f : A -> A) : M S unit :=
  a ← load p; modify (fun s => put (<[p := f a]> (objs s)) s).
(** [malloc] and the initialisation of the object; [k] is the address the
    allocator returns, [None] when it fails. *)
Definition alloc (k : option ptr) a : M S ptr :=
  match k with
  | None => mret NULL
  | Some p => modify (fun s => put (<[p := a]> (objs s)) s);; mret p
  end.
(** [free(p)] *)
Definition release p : M S unit :=
  load p;; modify (fun s => put (delete p (objs s)) s).

(** The allocator may return [p]. *)
Definition fresh_at s p : Prop := p <> NULL /\ objs s !! p = None.

Lemma load_ok p s a : p <> NULL -> objs s !! p = Some a -> load p s = Ok (a, s, []).
Proof. intros Hp Ha. unfold load. rewrite (proj2 (Z.eqb_neq _ _)), Ha by done. done. Qed.
Lemma load_null s : load NULL s = UB NullDeref.
Proof. done. Qed.
Lemma load_dangling p s : p <> NULL -> objs s !! p = None -> load p s = UB Dangling.
Proof. intros Hp Ha. unfold load. rewrite (proj2 (Z.eqb_neq _ _)), Ha by done. done. Qed.
Lemma update_ok p f s a :
  p <> NULL -> objs s !! p = Some a -> update p f s = Ok (tt, put (<[p := f a]> (objs s)) s, []).
Proof. intros Hp Ha. unfold update. by rewrite (bind_quiet _ _ _ _ _ (load_ok p s a Hp Ha)). Qed.
Lemma release_ok p s a :
  p <> NULL -> objs s !! p = Some a -> release p s = Ok (tt, put (delete p (objs s)) s, []).
Proof. intros Hp Ha. unfold release. by rewrite (bind_quiet _ _ _ _ _ (load_ok p s a Hp Ha)). Qed.

Section bind.
Context {B : Type}.
Lemma bind_load p (k : A -> M S B) s a :
  p <> NULL -> objs s !! p = Some a -> mbind k (load p) s = k a s.
Proof. intros. by apply bind_quiet, load_ok. Qed.
Lemma bind_update p f (k : unit -> M S B) s a :
  p <> NULL -> objs s !! p = Some a ->
  mbind k (update p f) s = k tt (put (<[p := f a]> (objs s)) s).
Proof. intros. by apply bind_quiet, update_ok. Qed.
Lemma bind_alloc p a (k : ptr -> M S B) s :
  mbind k (alloc (Some p) a) s = k p (put (<[p := a]> (objs s)) s).
Proof. by apply bind_quiet. Qed.
Lemma bind_load_null (k : A -> M S B) s : mbind k (load NULL) s = UB NullDeref.
Proof. done. Qed.
End bind.
End store.

(** A pointer walk [p = step p] visits at most the objects of the heap unless
    it never ends; [walk_fuel] is one more than their number. *)
Definition walk_fuel {S A} `{Store S A} (s : S) : nat := Datatypes.S (size (objs s)).

Lemma NoDup_in_size {A} (m : gmap Z A) (l : list Z) :
  NoDup l -> (forall x, x ∈ l -> is_Some (m !! x)) -> (length l <= size m)%nat.
Proof.
  intros Hnd Hin. rewrite <- (size_list_to_set (C := gset Z) l Hnd), <- size_dom.
  apply subseteq_size. intros x Hx. apply elem_of_dom, Hin. by apply elem_of_list_to_set in Hx.
Qed.

Lemma bind_mret {S A B} (a : A) (k : A -> M S B) (s : S) : mbind k (mret a) s = k a s.
Proof. by apply bind_quiet. Qed.
Lemma bind_lift {S A B} (r : res A) (a : A) (k : A -> M S B) (s : S) :
  r = Ok a -> mbind k (lift r) s = k a s.
Proof. intros ->. by apply bind_quiet. Qed.
Lemma bind_lift_UB {S A B} (f : fault) (k : A -> M S B) (s : S) :
  mbind k (lift (UB f)) s = UB f.
Proof. done. Qed.
