(* ===== verification/DListItem.v ===== *)
(** Doubly linked list items: [source/ListItemVal.c], [source/ListItem.c] and
    [source/DListItem.c].  The items, the reference counted values they point
    to and the [DList] objects ([DList]) live in one heap.  A [DListItem]
    starts with a [ListItem], so the functions of [ListItem.c] are modelled at
    the address of a [DListItem].  An argument that is a pointer to a pointer
    is an [option ptr] ([None] is NULL), and the function returns its new
    value with its result. *)
From S2P Require Import Prelude Effects Heap.
Open Scope Z_scope.

(** * The heap *)
Record ListItemVal := mkListItemVal { value : ptr; free_value_cb : bool; ref_count : Z }.
Record ListItem := mkListItem { val : ptr; parent : ptr; removed : bool }.
Record DListItem := mkDListItem { base : ListItem; next : ptr; prev : ptr }.
(** [DList_private.h]; [items_ready_for_removal] is [None] until it is first
    written. *)
Record DList := mkDList {
  begin_ : ptr; end_ : ptr; count : Z; items_ready_for_removal : option bool }.

Record heap := mkHeap {
  items : gmap Z DListItem; vals : gmap Z ListItemVal; lists : gmap Z DList }.
Definition set_items (m : gmap Z DListItem) (h : heap) : heap := mkHeap m (vals h) (lists h).
Definition set_vals (m : gmap Z ListItemVal) (h : heap) : heap := mkHeap (items h) m (lists h).
Definition set_lists (m : gmap Z DList) (h : heap) : heap := mkHeap (items h) (vals h) m.
#[export] Instance items_store : Store heap DListItem := {|
  objs := items; put := set_items;
  objs_put _ _ := eq_refl; put_put _ _ _ := eq_refl;
  put_objs h := match h with mkHeap _ _ _ => eq_refl end |}.
#[export] Instance vals_store : Store heap ListItemVal := {|
  objs := vals; put := set_vals;
  objs_put _ _ := eq_refl; put_put _ _ _ := eq_refl;
  put_objs h := match h with mkHeap _ _ _ => eq_refl end |}.
#[export] Instance lists_store : Store heap DList := {|
  objs := lists; put := set_lists;
  objs_put _ _ := eq_refl; put_put _ _ _ := eq_refl;
  put_objs h := match h with mkHeap _ _ _ => eq_refl end |}.

Definition set_ref_count (n : Z) (v : ListItemVal) := mkListItemVal (value v) (free_value_cb v) n.
Definition set_base (b : ListItem) (i : DListItem) := mkDListItem b (next i) (prev i).
Definition set_next (p : ptr) (i : DListItem) := mkDListItem (base i) p (prev i).
Definition set_prev (p : ptr) (i : DListItem) := mkDListItem (base i) (next i) p.
Definition set_val (p : ptr) (b : ListItem) := mkListItem p (parent b) (removed b).
Definition set_parent (p : ptr) (b : ListItem) := mkListItem (val b) p (removed b).
Definition set_removed (r : bool) (b : ListItem) := mkListItem (val b) (parent b) r.

Definition load_item : ptr -> M heap DListItem := load.
Definition load_val : ptr -> M heap ListItemVal := load.
Definition store_item : ptr -> (DListItem -> DListItem) -> M heap unit := update.
Definition store_val : ptr -> (ListItemVal -> ListItemVal) -> M heap unit := update.
Definition free_item : ptr -> M heap unit := release (A := DListItem).
Definition free_val_object : ptr -> M heap unit := release (A := ListItemVal).
Definition next_of (p : ptr) : M heap ptr := i ← load_item p; mret (next i).
Definition prev_of (p : ptr) : M heap ptr := i ← load_item p; mret (prev i).
Definition parent_of (p : ptr) : M heap ptr := i ← load_item p; mret (parent (base i)).

(** * [ListItemVal.c] *)
Definition ListItemVal_ref (liv : ptr) : M heap ptr :=
  if liv =? NULL then mret NULL else
  v ← load_val liv;
  if ref_count v =? 0 then mret NULL
  else store_val liv (set_ref_count (u64 (ref_count v + 1)));; mret liv.
Definition ListItemVal_get_value (liv : ptr) : M heap ptr := v ← load_val liv; mret (value v).
Definition newListItemVal (k : option ptr) (v : ptr) (free_val_cb : bool) : M heap ptr :=
  alloc k (mkListItemVal v free_val_cb 1).
(** Calls the free callback on the value and frees the object. *)
Definition free_val (liv : ptr) : M heap unit :=
  v ← load_val liv;
  when (free_value_cb v && negb (value v =? NULL)) (emit (EvFree (value v)));;
  free_val_object liv.
(** [liv]: the pointer behind the double pointer. *)
Definition delListItemVal (liv : option ptr) : M heap (option ptr) :=
  match liv with
  | None => mret None
  | Some p =>
      if p =? NULL then mret liv else
      v ← load_val p;
      (if ref_count v =? 0 then mret tt
       else store_val p (set_ref_count (ref_count v - 1));;
            when (ref_count v - 1 =? 0) (free_val p));;
      mret (Some NULL)
  end.
Definition delListItemVal_complete (liv : option ptr) : M heap (option ptr) :=
  match liv with
  | None => mret None
  | Some p =>
      if p =? NULL then mret liv else
      store_val p (set_ref_count 0);; free_val p;; mret (Some NULL)
  end.

(** * [ListItem.c], on the items of doubly linked lists *)
Definition initListItem (item_val : ptr) : ListItem := mkListItem item_val NULL false.
Definition ListItem_get_val (item : ptr) : M heap ptr :=
  i ← load_item item; v ← load_val (val (base i)); mret (value v).
Definition ListItem_get_val_ref (item : ptr) : M heap ptr :=
  i ← load_item item; ListItemVal_ref (val (base i)).
Definition ListItem_is_removed (item : ptr) : M heap bool :=
  i ← load_item item; mret (removed (base i)).
Definition ListItem_mark_for_removal (item : ptr) : M heap unit :=
  store_item item (fun i => set_base (set_removed true (base i)) i).
Definition ListItem_extract_value (item : ptr) : M heap ptr :=
  if item =? NULL then mret NULL else
  i ← load_item item;
  store_item item (fun i => set_base (set_val NULL (base i)) i);;
  ListItem_mark_for_removal item;;
  mret (val (base i)).
(** The value's reference is dropped and the object is freed. *)
Definition delListItem (item : option ptr) : M heap (option ptr) :=
  match item with
  | None => mret None
  | Some p =>
      if p =? NULL then mret item else
      i ← load_item p;
      v ← delListItemVal (Some (val (base i)));
      match v with
      | Some v => store_item p (fun i => set_base (set_val v (base i)) i)
      | None => mret tt
      end;;
      free_item p;; mret (Some NULL)
  end.

(** * Walks of [DListItem.c] *)

(** [while(list->prev) list = list->prev;] *)
Fixpoint walk_prev (fuel : nat) (list : ptr) : M heap ptr :=
  match fuel with
  | O => lift Diverges
  | S k => p ← prev_of list; if p =? NULL then mret list else walk_prev k p
  end.
Fixpoint walk_next (fuel : nat) (list : ptr) : M heap ptr :=
  match fuel with
  | O => lift Diverges
  | S k => p ← next_of list; if p =? NULL then mret list else walk_next k p
  end.
Definition item_fuel : M heap nat := gets (walk_fuel (A := DListItem)).

Definition DListItem_get_first_item (list : ptr) : M heap ptr :=
  if list =? NULL then mret NULL else fuel ← item_fuel; walk_prev fuel list.
Definition DListItem_get_last_item (list : ptr) : M heap ptr :=
  if list =? NULL then mret NULL else fuel ← item_fuel; walk_next fuel list.
Definition DListItem_get_next_item (list : ptr) : M heap ptr := next_of list.
Definition DListItem_get_prev_item (list : ptr) : M heap ptr := prev_of list.
Definition DListItem_get_value (item : ptr) : M heap ptr :=
  i ← load_item item; v ← load_val (val (base i)); mret (value v).
Definition DListItem_get_value_object (item : ptr) : M heap ptr :=
  i ← load_item item; mret (val (base i)).

(** [for(; index > 0 && list->next; list = list->next, --index);] *)
Fixpoint step_next (index : nat) (list : ptr) : M heap (ptr * nat) :=
  match index with
  | O => mret (list, O)
  | S k => p ← next_of list; if p =? NULL then mret (list, index) else step_next k p
  end.
Fixpoint step_prev (index : nat) (list : ptr) : M heap (ptr * nat) :=
  match index with
  | O => mret (list, O)
  | S k => p ← prev_of list; if p =? NULL then mret (list, index) else step_prev k p
  end.
(** The second result is what is stored in [*index_exceeds], [None] when
    nothing is. *)
Definition DListItem_get (list : ptr) (index : Z) : M heap (ptr * option Z) :=
  if list =? NULL then mret (NULL, None) else
  fuel ← item_fuel; first ← walk_prev fuel list;
  '(p, rest) ← step_next (Z.to_nat index) first;
  mret (p, Some (Z.of_nat rest)).
Definition DListItem_get_by_relative_index (list : ptr) (index : Z) : M heap (ptr * option Z) :=
  if list =? NULL then mret (NULL, None) else
  if index >? 0 then '(p, rest) ← step_next (Z.to_nat index) list; mret (p, Some (Z.of_nat rest))
  else '(p, rest) ← step_prev (Z.to_nat (- index)) list; mret (p, Some (- Z.of_nat rest)).
(** The value of a local variable, indeterminate until it is written. *)
Definition written (v : option Z) : res Z :=
  match v with Some z => Ok z | None => UB Indeterminate end.

(** [for(; it && it->base.val->value != v; it = it->prev);] *)
Fixpoint find_prev (fuel : nat) (it v : ptr) : M heap ptr :=
  match fuel with
  | O => lift Diverges
  | S k => if it =? NULL then mret NULL else
           w ← DListItem_get_value it;
           if w =? v then mret it else p ← prev_of it; find_prev k p v
  end.
Fixpoint find_next (fuel : nat) (it v : ptr) : M heap ptr :=
  match fuel with
  | O => lift Diverges
  | S k => if it =? NULL then mret NULL else
           w ← DListItem_get_value it;
           if w =? v then mret it else p ← next_of it; find_next k p v
  end.
Definition DListItem_get_by_value (list v : ptr) : M heap ptr :=
  if list =? NULL then mret NULL else
  fuel ← item_fuel; it ← find_prev (S fuel) list v;
  if negb (it =? NULL) then mret it
  else n ← next_of list; find_next (S fuel) n v.

(** [for(; it; it = it->prev, ++count);] *)
Fixpoint count_prev (fuel : nat) (it : ptr) (n : Z) : M heap Z :=
  match fuel with
  | O => lift Diverges
  | S k => if it =? NULL then mret n else p ← prev_of it; count_prev k p (u64 (n + 1))
  end.
Fixpoint count_next (fuel : nat) (it : ptr) (n : Z) : M heap Z :=
  match fuel with
  | O => lift Diverges
  | S k => if it =? NULL then mret n else p ← next_of it; count_next k p (u64 (n + 1))
  end.
Definition DListItem_count (list : ptr) : M heap Z :=
  if list =? NULL then mret 0 else
  fuel ← item_fuel; p ← prev_of list;
  n ← count_prev (S fuel) p 0; count_next (S fuel) list n.

(** [for(; begin != list; begin = begin->next, ++index);] with an [int]. *)
Fixpoint index_from (fuel : nat) (it list : ptr) (index : Z) : M heap Z :=
  match fuel with
  | O => lift Diverges
  | S k => if it =? list then mret index else
           p ← next_of it;
           if index <? INT32_MAX then index_from k p list (index + 1) else lift (UB SignedOverflow)
  end.
Definition DListItem_index (list : ptr) : M heap Z :=
  if list =? NULL then mret ALIB_BAD_ARG else
  first ← DListItem_get_first_item list;
  fuel ← item_fuel; index_from fuel first list 0.

(** [while(list){ list->base.parent = parent; list = list->next; }] *)
Fixpoint parents_from (fuel : nat) (it par : ptr) : M heap unit :=
  match fuel with
  | O => lift Diverges
  | S k => if it =? NULL then mret tt else
           store_item it (fun i => set_base (set_parent par (base i)) i);;
           p ← next_of it; parents_from k p par
  end.
Definition DListItem_set_list_parent (list par : ptr) : M heap Z :=
  if list =? NULL then mret ALIB_BAD_ARG else
  q ← parent_of list;
  if q =? par then mret ALIB_OK else
  first ← DListItem_get_first_item list;
  fuel ← item_fuel; parents_from (S fuel) first par;; mret ALIB_OK.

(** * Insertion *)

(** [if(p) p->next = q;] and [if(p) p->prev = q;] *)
Definition set_next_if (p q : ptr) : M heap unit :=
  if p =? NULL then mret tt else store_item p (set_next q).
Definition set_prev_if (p q : ptr) : M heap unit :=
  if p =? NULL then mret tt else store_item p (set_prev q).

(** The guards all four functions share: [new_item] is NULL or has a parent. *)
Definition rejected (new_item : ptr) : M heap bool :=
  if new_item =? NULL then mret true else q ← parent_of new_item; mret (negb (q =? NULL)).

Definition DListItem_insert_after (list new_item : ptr) : M heap ptr :=
  if list =? NULL then DListItem_get_first_item new_item else
  r ← rejected new_item;
  if r : bool then mret list else
  new_item_end ← DListItem_get_last_item new_item;
  new_item ← DListItem_get_first_item new_item;
  par ← parent_of list; DListItem_set_list_parent new_item par;;
  n ← next_of list;
  store_item new_item_end (set_next n);;
  set_prev_if n new_item_end;;
  store_item new_item (set_prev list);;
  store_item list (set_next new_item);;
  mret new_item.
(** The item before [list] is written through without a check. *)
Definition DListItem_insert_before (list new_item : ptr) : M heap ptr :=
  if list =? NULL then DListItem_get_first_item new_item else
  r ← rejected new_item;
  if r : bool then mret list else
  new_item_end ← DListItem_get_last_item new_item;
  new_item ← DListItem_get_first_item new_item;
  par ← parent_of list; DListItem_set_list_parent new_item par;;
  store_item new_item_end (set_next list);;
  p ← prev_of list; store_item new_item (set_prev p);;
  store_item list (set_prev new_item_end);;
  p ← prev_of new_item; store_item p (set_next new_item);;
  mret new_item.
Definition DListItem_push_back (list new_item : ptr) : M heap ptr :=
  if list =? NULL then DListItem_get_first_item new_item else
  r ← rejected new_item;
  if r : bool then mret list else
  list ← DListItem_get_last_item list;
  new_item ← DListItem_get_first_item new_item;
  par ← parent_of list; DListItem_set_list_parent new_item par;;
  store_item list (set_next new_item);;
  store_item new_item (set_prev list);;
  mret new_item.
Definition DListItem_push_forward (list new_item : ptr) : M heap ptr :=
  if list =? NULL then DListItem_get_first_item new_item else
  r ← rejected new_item;
  if r : bool then mret list else
  new_item_end ← DListItem_get_last_item new_item;
  new_item ← DListItem_get_first_item new_item;
  par ← parent_of list; DListItem_set_list_parent new_item par;;
  list ← DListItem_get_first_item list;
  store_item list (set_prev new_item_end);;
  store_item new_item_end (set_next list);;
  mret new_item.

(** * Moving *)

(** [if(from->prev) from->prev->next = last->next;
     if(last->next) last->next->prev = from->prev;] *)
Definition unlink (from last : ptr) : M heap unit :=
  p ← prev_of from; (if p =? NULL then mret tt else n ← next_of last; store_item p (set_next n));;
  n ← next_of last; (if n =? NULL then mret tt else p ← prev_of from; store_item n (set_prev p)).
(** [from->prev = to; last->next = to->next; to->next = from;
     if(last->next) last->next->prev = last;], for [from] = [last]. *)
Definition link_after (from to : ptr) : M heap unit :=
  store_item from (set_prev to);;
  n ← next_of to; store_item from (set_next n);;
  store_item to (set_next from);;
  n ← next_of from; set_prev_if n from.
(** [from->prev = to->prev; last->next = to; to->prev = last;
     if(from->prev) from->prev->next = from;] *)
Definition link_before (from last to : ptr) : M heap unit :=
  p ← prev_of to; store_item from (set_prev p);;
  store_item last (set_next to);;
  store_item to (set_prev last);;
  p ← prev_of from; set_next_if p from.

Definition DListItem_move (list : ptr) (from_index to_index : Z) : M heap Z :=
  if list =? NULL then mret ALIB_BAD_ARG else
  if from_index =? to_index then mret (s64 from_index) else
  if from_index <? to_index then
    '(from, e) ← DListItem_get list from_index; exceeded ← lift (written e);
    if negb (s64 exceeded =? 0) then mret ALIB_BAD_INDEX else
    '(to, e) ← DListItem_get_by_relative_index from (s64 (u64 (to_index - from_index)));
    exceeded ← lift (written e);
    if negb (from =? to) then
      unlink from from;; link_after from to;; mret (s64 (u64 (to_index - exceeded)))
    else mret (s64 from_index)
  else
    '(to, e) ← DListItem_get list to_index; exceeded ← lift (written e);
    if negb (s64 exceeded =? 0) then mret ALIB_BAD_INDEX else
    '(from, e) ← DListItem_get_by_relative_index to (s64 (u64 (from_index - to_index)));
    exceeded ← lift (written e);
    if negb (exceeded =? 0) then mret ALIB_BAD_INDEX else
    if negb (from =? to) then
      unlink from from;; link_before from from to;; mret (s64 to_index)
    else mret (s64 from_index).

Definition DListItem_move_count (list : ptr) (from_index to_index count : Z) : M heap Z :=
  if list =? NULL then mret ALIB_BAD_ARG else
  if from_index <? to_index then
    '(from, e) ← DListItem_get list from_index; exceeded ← lift (written e);
    if negb (s64 exceeded =? 0) then mret ALIB_BAD_INDEX else
    '(from_end, e) ← DListItem_get_by_relative_index from (s64 (u64 (count - 1)));
    exceeded ← lift (written e);
    if negb (exceeded =? 0) then mret (s64 from_index) else
    n ← next_of from_end;
    if n =? NULL then mret (s64 from_index) else
    '(to, e) ← DListItem_get_by_relative_index from_end (s64 (u64 (to_index - from_index)));
    exceeded ← lift (written e);
    unlink from from_end;; link_before from from_end to;;
    mret (s64 (if negb (exceeded =? 0) then u64 (to_index - exceeded) else to_index))
  else
    '(to, e) ← DListItem_get list to_index; exceeded ← lift (written e);
    if negb (s64 exceeded =? 0) then mret ALIB_BAD_INDEX else
    '(from, e) ← DListItem_get_by_relative_index to (s64 (u64 (from_index - to_index)));
    exceeded ← lift (written e);
    if negb (exceeded =? 0) then mret ALIB_BAD_INDEX else
    '(from_end, _) ← DListItem_get_by_relative_index from (s64 (u64 (count - 1)));
    unlink from from_end;; link_before from from_end to;;
    mret (s64 to_index).

(** * Extraction, construction, destruction *)
Definition DListItem_pull_out (item : option ptr) : M heap (ptr * option ptr) :=
  match item with
  | None => mret (NULL, None)
  | Some pulled_item =>
      if pulled_item =? NULL then mret (NULL, item) else
      i ← load_item pulled_item;
      let adjacent := if negb (prev i =? NULL) then prev i else next i in
      set_prev_if (next i) (prev i);;
      p ← prev_of pulled_item;
      (if p =? NULL then mret tt else n ← next_of pulled_item; store_item p (set_next n));;
      store_item pulled_item (set_next NULL);;
      store_item pulled_item (set_prev NULL);;
      DListItem_set_list_parent pulled_item NULL;;
      mret (pulled_item, Some adjacent)
  end.
Definition DListItem_pull_out_count (item : option ptr) (count : Z) : M heap (ptr * option ptr) :=
  match item with
  | None => mret (NULL, None)
  | Some pulled_item_begin =>
      if (pulled_item_begin =? NULL) || (count =? 0) then mret (NULL, item) else
      '(pulled_item_end, _) ← DListItem_get_by_relative_index pulled_item_begin (s64 (u64 (count - 1)));
      p ← prev_of pulled_item_begin; n ← next_of pulled_item_end;
      let adjacent := if negb (p =? NULL) then p else n in
      unlink pulled_item_begin pulled_item_end;;
      store_item pulled_item_begin (set_prev NULL);;
      store_item pulled_item_end (set_next NULL);;
      DListItem_set_list_parent pulled_item_begin NULL;;
      mret (pulled_item_begin, Some adjacent)
  end.

(** [k], [kv]: the addresses the allocations of the item and of its value
    return. *)
Definition newDListItem (k kv : option ptr) (item_value : ptr) (free_value_cb : bool)
    (old_list : option ptr) : M heap (ptr * option ptr) :=
  match k with
  | None => mret (NULL, old_list)
  | Some list =>
      v ← newListItemVal kv item_value free_value_cb;
      alloc k (mkDListItem (initListItem v) NULL NULL);;
      match old_list with
      | Some old =>
          if old =? NULL then mret (list, Some list) else
          store_item list (set_prev old);;
          n ← next_of old; store_item list (set_next n);;
          set_prev_if n list;;
          store_item old (set_next list);;
          mret (list, Some list)
      | None => mret (list, None)
      end
  end.
Definition delDListItem (list_item : option ptr) : M heap (option ptr) :=
  match list_item with
  | None => mret None
  | Some del_item =>
      if del_item =? NULL then mret list_item else
      i ← load_item del_item;
      let adjacent := if negb (prev i =? NULL) then prev i else next i in
      unlink del_item del_item;;
      delListItem (Some del_item);;
      mret (Some adjacent)
  end.
(** The loop of [delDListItem_all]. *)
Fixpoint del_all_from (fuel : nat) (it : ptr) : M heap ptr :=
  match fuel with
  | O => lift Diverges
  | S k => if it =? NULL then mret NULL else
           o ← delDListItem (Some it); p ← lift (deref o); del_all_from k p
  end.
Definition delDListItem_all (list_item : option ptr) : M heap (option ptr) :=
  it ← lift (deref list_item); fuel ← item_fuel; p ← del_all_from (S fuel) it; mret (Some p).
