(* ===== verification/DListSeg.v ===== *)
(** A small separation logic for the items of [DListItem]: a [chain] is a run
    of linked items with the pointers that leave it at both ends, and
    [segs m cs] says that the heap of items [m] holds the chains [cs] at
    distinct addresses.  Each access and each walk of [DListItem.c] has a rule
    about one chain; the other chains of the list are its frame. *)
From S2P Require Import Prelude Effects Heap DListItem.
Open Scope Z_scope.

Record item := mkItem { addr : ptr; obj : ptr; mark : bool }.
Record chain := Chain { c_par : ptr; c_prev : ptr; c_items : list item; c_next : ptr }.
Implicit Types (x : item) (xs ys : list item) (c : chain) (cs T : list chain)
  (m : gmap Z DListItem) (h : heap).

Notation addrs xs := (addr <$> xs).
(** The address of the first item, or of what follows an empty chain. *)
Definition first (xs : list item) (n : ptr) : ptr :=
  match xs with x :: _ => addr x | [] => n end.
Fixpoint last (p : ptr) (xs : list item) : ptr :=
  match xs with [] => p | x :: xs => last (addr x) xs end.

Definition node (par : ptr) (x : item) (p n : ptr) : DListItem :=
  mkDListItem (mkListItem (obj x) par (mark x)) n p.
Fixpoint seg (m : gmap Z DListItem) (par p : ptr) (xs : list item) (n : ptr) : Prop :=
  match xs with
  | [] => True
  | x :: xs => addr x <> NULL /\ m !! addr x = Some (node par x p (first xs n))
               /\ seg m par (addr x) xs n
  end.
Definition holds_chain (m : gmap Z DListItem) (c : chain) : Prop :=
  seg m (c_par c) (c_prev c) (c_items c) (c_next c).
Definition all_addrs (cs : list chain) : list ptr := cs ≫= (fun c => addrs (c_items c)).
Definition segs (m : gmap Z DListItem) (cs : list chain) : Prop :=
  Forall (holds_chain m) cs /\ NoDup (all_addrs cs).

(** * Chains *)
Lemma first_app xs ys n : first (xs ++ ys) n = first xs (first ys n).
Proof. by destruct xs. Qed.
Lemma last_app p xs ys : last p (xs ++ ys) = last (last p xs) ys.
Proof. revert p. induction xs; intros p; simpl; done. Qed.
Lemma last_in p xs : xs <> [] -> last p xs ∈ addrs xs.
Proof.
  destruct xs as [|x xs]; [done|]. intros _. simpl. revert x.
  induction xs as [|y xs IH]; intros x; simpl; [set_solver|]. specialize (IH y). set_solver.
Qed.
Lemma first_in xs n : xs <> [] -> first xs n ∈ addrs xs.
Proof. destruct xs; [done|]. intros _. simpl. set_solver. Qed.
Lemma last_nonempty p q xs : xs <> [] -> last p xs = last q xs.
Proof. by destruct xs. Qed.
Lemma first_nonempty n n' xs : xs <> [] -> first xs n = first xs n'.
Proof. by destruct xs. Qed.

Lemma seg_app m par p xs ys n :
  seg m par p (xs ++ ys) n <-> seg m par p xs (first ys n) /\ seg m par (last p xs) ys n.
Proof.
  revert p. induction xs as [|x xs IH]; intros p; simpl; [naive_solver|].
  rewrite IH, first_app. naive_solver.
Qed.
Lemma seg_frame m m' par p xs n :
  (forall a, a ∈ addrs xs -> m' !! a = m !! a) -> seg m par p xs n -> seg m' par p xs n.
Proof.
  revert p. induction xs as [|x xs IH]; intros p Hm; simpl; [done|].
  intros (? & Hx & Hs). split; [done|]. split; [rewrite Hm; [done|set_solver]|].
  apply IH; [|done]. set_solver.
Qed.
Lemma seg_nonnull m par p xs n a : seg m par p xs n -> a ∈ addrs xs -> a <> NULL.
Proof.
  revert p. induction xs as [|x xs IH]; intros p; simpl; [set_solver|].
  intros (? & _ & Hs) [->|?]%elem_of_cons; [done|]. by eapply IH.
Qed.
Lemma seg_lookup m par p xs n a : seg m par p xs n -> a ∈ addrs xs -> is_Some (m !! a).
Proof.
  revert p. induction xs as [|x xs IH]; intros p; simpl; [set_solver|].
  intros (_ & Hx & Hs) [->|?]%elem_of_cons; [by rewrite Hx|]. by eapply IH.
Qed.

(** * Sets of chains *)
Lemma all_addrs_cons c cs : all_addrs (c :: cs) = addrs (c_items c) ++ all_addrs cs.
Proof. done. Qed.
Lemma segs_cons m c cs :
  segs m (c :: cs) <-> holds_chain m c /\ NoDup (addrs (c_items c))
    /\ (forall a, a ∈ addrs (c_items c) -> a ∉ all_addrs cs) /\ segs m cs.
Proof. unfold segs. rewrite Forall_cons, all_addrs_cons, NoDup_app. naive_solver. Qed.
Lemma segs_nil m : segs m [].
Proof. split; constructor. Qed.
#[export] Instance all_addrs_perm : Proper ((≡ₚ) ==> (≡ₚ)) all_addrs.
Proof. intros cs cs' Hp. unfold all_addrs. by rewrite Hp. Qed.
#[export] Instance segs_perm m : Proper ((≡ₚ) ==> iff) (segs m).
Proof. intros cs cs' Hp. unfold segs. by rewrite Hp. Qed.
Lemma segs_swap m c c' cs : segs m (c :: c' :: cs) -> segs m (c' :: c :: cs).
Proof. by rewrite Permutation_swap. Qed.
Lemma segs_rot m c c' c'' cs : segs m (c :: c' :: c'' :: cs) -> segs m (c'' :: c :: c' :: cs).
Proof. intros H. apply segs_swap. by rewrite (Permutation_swap c' c''). Qed.
Lemma segs_frame m m' cs :
  (forall a, a ∈ all_addrs cs -> m' !! a = m !! a) -> segs m cs -> segs m' cs.
Proof.
  induction cs as [|c cs IH]; intros Hm; [intros; apply segs_nil|].
  rewrite !segs_cons, all_addrs_cons in *. intros (? & ? & ? & ?).
  split; [|split; [done|split; [done|apply IH; [set_solver|done]]]].
  eapply seg_frame; [|done]. set_solver.
Qed.

(** A new item is a chain of its own. *)
Lemma segs_fresh m a x cs :
  a <> NULL -> m !! a = None -> addr x = a -> segs m cs ->
  segs (<[a := node NULL x NULL NULL]> m) (Chain NULL NULL [x] NULL :: cs).
Proof.
  intros Ha Hm <- Hs. assert (Hnin : addr x ∉ all_addrs cs).
  { intros Hin. destruct Hs as [Hs _]. unfold all_addrs in Hin.
    apply list_elem_of_bind in Hin as (c & Hc & Hin). rewrite Forall_forall in Hs.
    specialize (Hs c Hin). unfold holds_chain in Hs.
    destruct (seg_lookup _ _ _ _ _ _ Hs Hc). congruence. }
  apply segs_cons. split; [|split; [|split]].
  - split; [done|]. simpl. by rewrite lookup_insert_eq.
  - apply NoDup_singleton.
  - simpl. intros b [->|Hb]%elem_of_cons; [done|set_solver].
  - eapply segs_frame; [|done]. intros b Hb. apply lookup_insert_ne. by intros <-.
Qed.

(** Two adjacent chains are one chain. *)
Lemma segs_join m par p xs ys n cs :
  segs m (Chain par p (xs ++ ys) n :: cs) <->
  segs m (Chain par p xs (first ys n) :: Chain par (last p xs) ys n :: cs).
Proof.
  rewrite !segs_cons, !all_addrs_cons. unfold holds_chain. simpl.
  rewrite seg_app, fmap_app, NoDup_app. set_solver.
Qed.
(** An empty chain says nothing. *)
Lemma segs_empty m par p n cs : segs m (Chain par p [] n :: cs) <-> segs m cs.
Proof. rewrite segs_cons. simpl. split; [naive_solver|]. intros.
  split; [done|]. split; [apply NoDup_nil_2|]. split; [set_solver|done]. Qed.

(** * Accesses at the ends of a chain *)
Lemma segs_lookup_last m par p xs n q cs :
  segs m (Chain par p xs n :: cs) -> xs <> [] ->
  last q xs <> NULL /\ exists x pp, last q xs = addr x /\ m !! last q xs = Some (node par x pp n).
Proof.
  intros [Hs _]%segs_cons Hne. unfold holds_chain in Hs. simpl in Hs.
  destruct xs as [|x xs _] using rev_ind; [done|].
  rewrite last_app. apply seg_app in Hs as [_ (? & Hx & _)]. simpl in *. eauto.
Qed.
Lemma segs_lookup_first m par p xs n q cs :
  segs m (Chain par p xs n :: cs) -> xs <> [] ->
  first xs q <> NULL /\ exists x nn, first xs q = addr x /\ m !! first xs q = Some (node par x p nn).
Proof.
  intros [Hs _]%segs_cons Hne. unfold holds_chain in Hs. destruct xs as [|x xs]; [done|].
  simpl in *. destruct Hs as (? & ? & _). eauto.
Qed.

(** Writing the [next] of the last item, or the [prev] of the first. *)
Lemma segs_set_next m par p xs n q v cs x pp :
  segs m (Chain par p xs n :: cs) -> xs <> [] -> m !! last q xs = Some (node par x pp n) ->
  segs (<[last q xs := node par x pp v]> m) (Chain par p xs v :: cs).
Proof.
  intros Hs Hne Hx. pose proof (last_in q xs Hne) as Hin.
  apply segs_cons in Hs as (Hs & Hnd & Hd & Hcs). apply segs_cons. simpl in *.
  split; [|split; [done|split; [done|]]]; cycle 1.
  { eapply segs_frame; [|done]. intros a Ha. apply lookup_insert_ne. intros <-. by eapply Hd. }
  unfold holds_chain in *. simpl in *. destruct xs as [|y xs _] using rev_ind; [done|].
  rewrite last_app in *. simpl in *. rewrite fmap_app in Hnd. apply NoDup_app in Hnd as (_ & Hnd & _).
  apply seg_app in Hs as [Hs (Hy & Hly & _)]. apply seg_app. split.
  - eapply seg_frame; [|done]. intros a Ha. apply lookup_insert_ne. intros <-.
    apply (Hnd (addr y)); [done|]. set_solver.
  - simpl. rewrite lookup_insert_eq. rewrite Hly in Hx. injection Hx as Ho Hm Hp.
    split; [done|]. split; [|done]. unfold node. by rewrite Ho, Hm, Hp.
Qed.
Lemma segs_set_prev m par p xs n q v cs x nn :
  segs m (Chain par p xs n :: cs) -> xs <> [] -> m !! first xs q = Some (node par x p nn) ->
  segs (<[first xs q := node par x v nn]> m) (Chain par v xs n :: cs).
Proof.
  intros Hs Hne Hx. pose proof (first_in xs q Hne) as Hin.
  apply segs_cons in Hs as (Hs & Hnd & Hd & Hcs). apply segs_cons. simpl in *.
  split; [|split; [done|split; [done|]]]; cycle 1.
  { eapply segs_frame; [|done]. intros a Ha. apply lookup_insert_ne. intros <-. by eapply Hd. }
  unfold holds_chain in *. destruct xs as [|y xs]; [done|]. simpl in *.
  destruct Hs as (Hy & Hly & Hs). apply NoDup_cons in Hnd as [Hnin _].
  rewrite lookup_insert_eq. split; [done|]. split.
  - rewrite Hly in Hx. injection Hx as Ho Hm Hn. unfold node. by rewrite Ho, Hm, Hn.
  - eapply seg_frame; [|done]. intros a Ha. apply lookup_insert_ne. by intros <-.
Qed.

Lemma store_item_ok p f i h :
  p <> NULL -> items h !! p = Some i ->
  store_item p f h = Ok (tt, set_items (<[p := f i]> (items h)) h, []).
Proof. exact (update_ok (A := DListItem) p f h i). Qed.

Section typed.
Context {B : Type} (h : heap) (p : ptr) (Hp : p <> NULL).
Lemma bind_load_item i (k : DListItem -> M heap B) :
  items h !! p = Some i -> mbind k (load_item p) h = k i h.
Proof. exact (bind_load (A := DListItem) p k h i Hp). Qed.
Lemma bind_load_val v (k : ListItemVal -> M heap B) :
  vals h !! p = Some v -> mbind k (load_val p) h = k v h.
Proof. exact (bind_load (A := ListItemVal) p k h v Hp). Qed.
Lemma bind_store_val v f (k : unit -> M heap B) :
  vals h !! p = Some v -> mbind k (store_val p f) h = k tt (set_vals (<[p := f v]> (vals h)) h).
Proof. exact (bind_update (A := ListItemVal) p f k h v Hp). Qed.
Lemma free_item_ok i :
  items h !! p = Some i -> free_item p h = Ok (tt, set_items (delete p (items h)) h, []).
Proof. exact (release_ok (A := DListItem) p h i Hp). Qed.
Lemma free_val_object_ok v :
  vals h !! p = Some v -> free_val_object p h = Ok (tt, set_vals (delete p (vals h)) h, []).
Proof. exact (release_ok (A := ListItemVal) p h v Hp). Qed.
End typed.

Section accesses.
Context (h : heap) (par p : ptr) (xs : list item) (n : ptr) (cs : list chain).
Hypothesis Hs : segs (items h) (Chain par p xs n :: cs).

Lemma next_last q : xs <> [] -> next_of (last q xs) h = Ok (n, h, []).
Proof.
  intros Hne. destruct (segs_lookup_last _ _ _ _ _ q _ Hs Hne) as (? & x & pp & _ & Hx).
  unfold next_of, load_item. by erewrite bind_load by done.
Qed.
Lemma prev_first q : xs <> [] -> prev_of (first xs q) h = Ok (p, h, []).
Proof.
  intros Hne. destruct (segs_lookup_first _ _ _ _ _ q _ Hs Hne) as (? & x & pp & _ & Hx).
  unfold prev_of, load_item. by erewrite bind_load by done.
Qed.
Lemma parent_first q : xs <> [] -> parent_of (first xs q) h = Ok (par, h, []).
Proof.
  intros Hne. destruct (segs_lookup_first _ _ _ _ _ q _ Hs Hne) as (? & x & pp & _ & Hx).
  unfold parent_of, load_item. by erewrite bind_load by done.
Qed.
Lemma parent_last q : xs <> [] -> parent_of (last q xs) h = Ok (par, h, []).
Proof.
  intros Hne. destruct (segs_lookup_last _ _ _ _ _ q _ Hs Hne) as (? & x & pp & _ & Hx).
  unfold parent_of, load_item. by erewrite bind_load by done.
Qed.
Lemma store_next q v : xs <> [] ->
  exists m', store_item (last q xs) (set_next v) h = Ok (tt, set_items m' h, [])
    /\ segs m' (Chain par p xs v :: cs).
Proof.
  intros Hne. destruct (segs_lookup_last _ _ _ _ _ q _ Hs Hne) as (? & x & pp & _ & Hx).
  eexists. split; [by apply store_item_ok|]. by eapply segs_set_next.
Qed.
Lemma store_prev q v : xs <> [] ->
  exists m', store_item (first xs q) (set_prev v) h = Ok (tt, set_items m' h, [])
    /\ segs m' (Chain par v xs n :: cs).
Proof.
  intros Hne. destruct (segs_lookup_first _ _ _ _ _ q _ Hs Hne) as (? & x & pp & _ & Hx).
  eexists. split; [by apply store_item_ok|]. by eapply segs_set_prev.
Qed.
(** The checked writes, which an empty chain at the list's end skips. *)
Lemma store_next_if v :
  exists m', set_next_if (last NULL xs) v h = Ok (tt, set_items m' h, [])
    /\ segs m' (Chain par p xs v :: cs).
Proof.
  unfold set_next_if. destruct (decide (xs = [])) as [->|Hne].
  - exists (items h). split; [by destruct h|]. by rewrite segs_empty in *.
  - destruct (segs_lookup_last _ _ _ _ _ NULL _ Hs Hne) as [? _].
    rewrite (proj2 (Z.eqb_neq _ _)) by done. by apply store_next.
Qed.
Lemma store_prev_if v :
  exists m', set_prev_if (first xs NULL) v h = Ok (tt, set_items m' h, [])
    /\ segs m' (Chain par v xs n :: cs).
Proof.
  unfold set_prev_if. destruct (decide (xs = [])) as [->|Hne].
  - exists (items h). split; [by destruct h|]. by rewrite segs_empty in *.
  - destruct (segs_lookup_first _ _ _ _ _ NULL _ Hs Hne) as [? _].
    rewrite (proj2 (Z.eqb_neq _ _)) by done. by apply store_prev.
Qed.
End accesses.

(** * Walks over a whole list *)

(** The address at index [i], NULL past the end. *)
Definition at_ (xs : list item) (i : nat) : ptr :=
  match xs !! i with Some x => addr x | None => NULL end.
Definition before (p : ptr) (xs : list item) (i : nat) : ptr :=
  match i with O => p | S j => at_ xs j end.

Lemma seg_node m par p xs i x :
  seg m par p xs NULL -> xs !! i = Some x ->
  addr x <> NULL /\ m !! addr x = Some (node par x (before p xs i) (at_ xs (S i))).
Proof.
  revert p i. induction xs as [|y xs IH]; intros p i; [done|]. simpl.
  intros (Hy & Hl & Hs). destruct i as [|i]; simpl.
  - intros [= ->]. split; [done|]. rewrite Hl. by destruct xs.
  - intros Hx. destruct (IH _ _ Hs Hx) as [? ->]. split; [done|]. by destruct i.
Qed.
Lemma at_lookup xs i x : xs !! i = Some x -> at_ xs i = addr x.
Proof. unfold at_. by intros ->. Qed.
Lemma at_first xs : at_ xs 0 = first xs NULL.
Proof. by destruct xs. Qed.
Lemma at_last xs : at_ xs (length xs - 1) = last NULL xs.
Proof.
  destruct xs as [|x xs _] using rev_ind; [done|]. rewrite last_app. simpl.
  apply at_lookup. rewrite length_app. simpl. rewrite lookup_app_r by lia.
  by replace (length xs + 1 - 1 - length xs)%nat with 0%nat by lia.
Qed.
Lemma at_past xs i : (length xs <= i)%nat -> at_ xs i = NULL.
Proof. intros H. unfold at_. by rewrite lookup_ge_None_2. Qed.

Lemma segs_size m c cs : segs m (c :: cs) -> (length (c_items c) <= size m)%nat.
Proof.
  intros (Hs & Hnd & _)%segs_cons. rewrite <- (length_fmap addr). apply NoDup_in_size; [done|].
  intros a Ha. by eapply seg_lookup.
Qed.

Section walks.
Context (h : heap) (par : ptr) (xs : list item) (cs : list chain).
Hypothesis Hs : segs (items h) (Chain par NULL xs NULL :: cs).
Implicit Types (i k fuel : nat).

Lemma node_at i x : xs !! i = Some x ->
  addr x <> NULL /\ items h !! addr x = Some (node par x (before NULL xs i) (at_ xs (S i))).
Proof. apply segs_cons in Hs as [? _]. by apply seg_node. Qed.
Lemma at_nonnull i : (i < length xs)%nat -> at_ xs i <> NULL.
Proof. intros [x Hx]%lookup_lt_is_Some. rewrite (at_lookup _ _ _ Hx). by apply (node_at i). Qed.
Lemma at_null i : (i < length xs)%nat -> (at_ xs i =? NULL) = false.
Proof. intros. by apply Z.eqb_neq, at_nonnull. Qed.
Lemma at_inj i j : (i < length xs)%nat -> (j < length xs)%nat -> at_ xs i = at_ xs j -> i = j.
Proof.
  intros [x Hx]%lookup_lt_is_Some [y Hy]%lookup_lt_is_Some.
  rewrite (at_lookup _ _ _ Hx), (at_lookup _ _ _ Hy). intros Ha.
  apply segs_cons in Hs as (_ & Hnd & _). simpl in Hnd.
  eapply (NoDup_lookup (addrs xs)); [done|by rewrite list_lookup_fmap, Hx|].
  by rewrite list_lookup_fmap, Hy, Ha.
Qed.
Lemma before_null i : (i <= length xs)%nat -> (before NULL xs i =? NULL) = (i =? 0)%nat.
Proof. destruct i; simpl; [done|]. intros. apply at_null. lia. Qed.

Lemma next_at i : (i < length xs)%nat -> next_of (at_ xs i) h = Ok (at_ xs (S i), h, []).
Proof.
  intros [x Hx]%lookup_lt_is_Some. rewrite (at_lookup _ _ _ Hx).
  destruct (node_at i x Hx). unfold next_of, load_item. by erewrite bind_load by done.
Qed.
Lemma prev_at i : (i < length xs)%nat -> prev_of (at_ xs i) h = Ok (before NULL xs i, h, []).
Proof.
  intros [x Hx]%lookup_lt_is_Some. rewrite (at_lookup _ _ _ Hx).
  destruct (node_at i x Hx). unfold prev_of, load_item. by erewrite bind_load by done.
Qed.
Lemma parent_at i : (i < length xs)%nat -> parent_of (at_ xs i) h = Ok (par, h, []).
Proof.
  intros [x Hx]%lookup_lt_is_Some. rewrite (at_lookup _ _ _ Hx).
  destruct (node_at i x Hx). unfold parent_of, load_item. by erewrite bind_load by done.
Qed.

Lemma walk_prev_ok i fuel : (i < length xs)%nat -> (i < fuel)%nat ->
  walk_prev fuel (at_ xs i) h = Ok (at_ xs 0, h, []).
Proof.
  revert i. induction fuel as [|fuel IH]; intros i Hi Hf; [lia|]. simpl.
  rewrite (bind_quiet _ _ _ _ _ (prev_at i Hi)), before_null by lia.
  destruct i as [|i]; simpl; [done|]. apply IH; lia.
Qed.
Lemma walk_next_ok i fuel : (i < length xs)%nat -> (length xs - i <= fuel)%nat ->
  walk_next fuel (at_ xs i) h = Ok (at_ xs (length xs - 1), h, []).
Proof.
  revert i. induction fuel as [|fuel IH]; intros i Hi Hf; [lia|]. simpl.
  rewrite (bind_quiet _ _ _ _ _ (next_at i Hi)).
  destruct (decide (S i = length xs)) as [E|].
  - rewrite (at_past xs (S i)) by lia. simpl. by replace (length xs - 1)%nat with i by lia.
  - rewrite at_null by lia. apply IH; lia.
Qed.
Lemma fuel_ok : (length xs < walk_fuel (A := DListItem) h)%nat.
Proof. pose proof (segs_size _ _ _ Hs). simpl in *. unfold walk_fuel. simpl. lia. Qed.

Lemma dlist_first_item_ok i : (i < length xs)%nat ->
  DListItem_get_first_item (at_ xs i) h = Ok (at_ xs 0, h, []).
Proof.
  intros. unfold DListItem_get_first_item. rewrite at_null by done.
  unfold item_fuel. rewrite bind_gets. pose proof fuel_ok. apply walk_prev_ok; [done|lia].
Qed.
Lemma dlist_last_item_ok i : (i < length xs)%nat ->
  DListItem_get_last_item (at_ xs i) h = Ok (at_ xs (length xs - 1), h, []).
Proof.
  intros. unfold DListItem_get_last_item. rewrite at_null by done.
  unfold item_fuel. rewrite bind_gets. pose proof fuel_ok. apply walk_next_ok; [done|lia].
Qed.

Lemma step_next_ok k i : (i < length xs)%nat ->
  step_next k (at_ xs i) h =
    Ok ((at_ xs (Nat.min (i + k) (length xs - 1)), (k - (length xs - 1 - i))%nat), h, []).
Proof.
  revert i. induction k as [|k IH]; intros i Hi; cbn [step_next].
  - by rewrite Nat.min_l, Nat.add_0_r by lia.
  - rewrite (bind_quiet _ _ _ _ _ (next_at i Hi)). destruct (decide (S i = length xs)).
    + rewrite at_past by lia. simpl. rewrite Nat.min_r by lia.
      replace (length xs - 1)%nat with i by lia. by rewrite Nat.sub_diag.
    + rewrite at_null, IH by lia. replace (S i + k)%nat with (i + S k)%nat by lia.
      by replace (S k - (length xs - 1 - i))%nat with (k - (length xs - 1 - S i))%nat by lia.
Qed.
Lemma step_prev_ok k i : (i < length xs)%nat ->
  step_prev k (at_ xs i) h = Ok ((at_ xs (i - k), (k - i)%nat), h, []).
Proof.
  revert i. induction k as [|k IH]; intros i Hi; cbn [step_prev].
  - by rewrite Nat.sub_0_r.
  - rewrite (bind_quiet _ _ _ _ _ (prev_at i Hi)), before_null by lia.
    destruct i as [|i]; simpl; [done|]. by rewrite IH by lia.
Qed.

(** [DListItem_get]: the item at the index, or the last one and by how much
    the index exceeds it. *)
Lemma get_ok i (index : Z) : (i < length xs)%nat -> 0 <= index ->
  DListItem_get (at_ xs i) index h =
    Ok ((at_ xs (Z.to_nat (Z.min index (Z.of_nat (length xs) - 1))),
         Some (Z.max 0 (index - (Z.of_nat (length xs) - 1)))), h, []).
Proof.
  intros Hi Hix. unfold DListItem_get. rewrite at_null by done. unfold item_fuel. rewrite bind_gets.
  pose proof fuel_ok. rewrite (bind_quiet _ _ _ _ _ (walk_prev_ok i (walk_fuel (A := DListItem) h) Hi ltac:(lia))).
  rewrite (bind_quiet _ _ _ _ _ (step_next_ok (Z.to_nat index) 0 ltac:(lia))). cbv beta iota.
  unfold mret, M_ret. repeat f_equal; lia.
Qed.
Lemma relative_ok i (index : Z) : (i < length xs)%nat ->
  DListItem_get_by_relative_index (at_ xs i) index h =
    Ok ((at_ xs (Z.to_nat (Z.min (Z.max 0 (Z.of_nat i + index)) (Z.of_nat (length xs) - 1))),
         Some (if index >? 0 then Z.max 0 (Z.of_nat i + index - (Z.of_nat (length xs) - 1))
               else Z.min 0 (Z.of_nat i + index))), h, []).
Proof.
  intros Hi. unfold DListItem_get_by_relative_index. rewrite at_null by done.
  rewrite Z.gtb_ltb. case_cmp.
  - rewrite (bind_quiet _ _ _ _ _ (step_next_ok _ i Hi)). cbv beta iota.
    unfold mret, M_ret. repeat f_equal; lia.
  - rewrite (bind_quiet _ _ _ _ _ (step_prev_ok _ i Hi)). cbv beta iota.
    unfold mret, M_ret. repeat f_equal; lia.
Qed.

Lemma count_prev_ok fuel i (n : Z) : (i < fuel)%nat -> (i <= length xs)%nat ->
  0 <= n -> n + Z.of_nat i < 2 ^ 64 ->
  count_prev fuel (before NULL xs i) n h = Ok (n + Z.of_nat i, h, []).
Proof.
  revert i n. induction fuel as [|fuel IH]; intros i n Hf Hi Hn Hb; [lia|]. simpl.
  rewrite before_null by done. destruct i as [|i]; simpl.
  - by rewrite Z.add_0_r.
  - rewrite (bind_quiet _ _ _ _ _ (prev_at i ltac:(lia))), u64_small by lia.
    rewrite IH by lia. by replace (n + 1 + Z.of_nat i) with (n + Z.of_nat (S i)) by lia.
Qed.
Lemma count_next_ok fuel i (n : Z) : (length xs - i < fuel)%nat -> (i <= length xs)%nat ->
  0 <= n -> n + Z.of_nat (length xs - i) < 2 ^ 64 ->
  count_next fuel (at_ xs i) n h = Ok (n + Z.of_nat (length xs - i), h, []).
Proof.
  revert i n. induction fuel as [|fuel IH]; intros i n Hf Hi Hn Hb; [lia|]. simpl.
  destruct (decide (i = length xs)) as [->|].
  - rewrite at_past by lia. simpl. by rewrite Nat.sub_diag, Z.add_0_r.
  - rewrite at_null by lia. rewrite (bind_quiet _ _ _ _ _ (next_at i ltac:(lia))), u64_small by lia.
    rewrite IH by lia.
    by replace (n + 1 + Z.of_nat (length xs - S i)) with (n + Z.of_nat (length xs - i)) by lia.
Qed.
Lemma count_ok i : (i < length xs)%nat -> Z.of_nat (length xs) < 2 ^ 64 ->
  DListItem_count (at_ xs i) h = Ok (Z.of_nat (length xs), h, []).
Proof.
  intros Hi Hb. unfold DListItem_count. rewrite at_null by done. unfold item_fuel. rewrite bind_gets.
  pose proof fuel_ok. rewrite (bind_quiet _ _ _ _ _ (prev_at i Hi)).
  rewrite (bind_quiet _ _ _ _ _ (count_prev_ok (S (walk_fuel (A := DListItem) h)) i 0 ltac:(lia) ltac:(lia) ltac:(lia) ltac:(lia))).
  rewrite count_next_ok by lia. by replace (0 + Z.of_nat i + Z.of_nat (length xs - i))
    with (Z.of_nat (length xs)) by lia.
Qed.
Lemma index_from_ok fuel i j : (i <= j < length xs)%nat -> (j - i < fuel)%nat ->
  Z.of_nat j <= INT32_MAX ->
  index_from fuel (at_ xs i) (at_ xs j) (Z.of_nat i) h = Ok (Z.of_nat j, h, []).
Proof.
  revert i. induction fuel as [|fuel IH]; intros i Hij Hf Hb; [lia|]. cbn [index_from].
  destruct (decide (i = j)) as [->|]; [by rewrite Z.eqb_refl|].
  rewrite (proj2 (Z.eqb_neq _ _)) by (intros ?%at_inj; lia).
  rewrite (bind_quiet _ _ _ _ _ (next_at i ltac:(lia))), (proj2 (Z.ltb_lt _ _)) by lia.
  replace (Z.of_nat i + 1) with (Z.of_nat (S i)) by lia. apply IH; lia.
Qed.
Lemma index_ok i : (i < length xs)%nat -> Z.of_nat i <= INT32_MAX ->
  DListItem_index (at_ xs i) h = Ok (Z.of_nat i, h, []).
Proof.
  intros Hi Hb. unfold DListItem_index. rewrite at_null by done.
  rewrite (bind_quiet _ _ _ _ _ (dlist_first_item_ok i Hi)). unfold item_fuel. rewrite bind_gets.
  pose proof fuel_ok. apply (index_from_ok _ 0 i); lia.
Qed.
End walks.

(** * Rules of the operations

    [rd] performs a read described by a rule, [wr] a write, whose rule gives
    the new items [m] and the chains [S] they hold. *)
Ltac rd H := rewrite (bind_quiet _ _ _ _ _ H); cbv beta iota.
Tactic Notation "wr" constr(H) "as" ident(m) ident(S) :=
  let E := fresh "E" in
  destruct H as (m & E & S); rewrite (bind_quiet _ _ _ _ _ E); clear E.

Lemma first_null xs m par p n cs :
  segs m (Chain par p xs n :: cs) -> xs <> [] -> (first xs NULL =? NULL) = false.
Proof. intros Hs Hne. apply Z.eqb_neq. by destruct (segs_lookup_first _ _ _ _ _ NULL _ Hs Hne). Qed.
Lemma last_null xs m par p n cs :
  segs m (Chain par p xs n :: cs) -> xs <> [] -> (last NULL xs =? NULL) = false.
Proof. intros Hs Hne. apply Z.eqb_neq. by destruct (segs_lookup_last _ _ _ _ _ NULL _ Hs Hne). Qed.

(** A list of three parts, the middle one first. *)
Lemma segs_split3 m par A F B cs :
  F <> [] ->
  segs m (Chain par NULL (A ++ F ++ B) NULL :: cs) <->
  segs m (Chain par (last NULL A) F (first B NULL) :: Chain par NULL A (first F NULL)
    :: Chain par (last NULL F) B NULL :: cs).
Proof.
  intros HF. rewrite segs_join, first_app, Permutation_swap, segs_join, (first_nonempty _ NULL F HF),
    (last_nonempty _ NULL F HF). by rewrite (Permutation_swap (Chain par NULL A _)).
Qed.

Section ops.
Context (h : heap) (par : ptr).
Implicit Types (A F B : list item).

Lemma store_parent p x n q cs :
  segs (items h) (Chain par p [x] n :: cs) ->
  exists m, store_item (addr x) (fun i => set_base (set_parent q (base i)) i) h = Ok (tt, set_items m h, [])
    /\ segs m (Chain q p [x] n :: cs).
Proof.
  intros Hs. destruct (segs_lookup_first _ _ _ _ _ NULL _ Hs ltac:(done)) as (Hn & y & nn & _ & Hx).
  simpl in Hn, Hx. eexists. split; [by apply store_item_ok|].
  apply segs_cons in Hs as (Hc & Hnd & Hd & Hcs). apply segs_cons. simpl in *.
  destruct Hc as (_ & Hc & _). simpl in Hc. rewrite Hc in Hx. injection Hx as Ho Hm Hnn.
  split; [|split; [done|split; [done|]]].
  - unfold holds_chain. simpl. rewrite lookup_insert_eq. unfold node. by rewrite Ho, Hm, Hnn.
  - eapply segs_frame; [|done]. intros a Ha. apply lookup_insert_ne. intros <-. eapply Hd; [|done]. set_solver.
Qed.

Lemma unlink_ok A F B cs :
  F <> [] -> segs (items h) (Chain par NULL (A ++ F ++ B) NULL :: cs) ->
  exists m, unlink (first F NULL) (last NULL F) h = Ok (tt, set_items m h, [])
    /\ segs m (Chain par (last NULL A) F (first B NULL) :: Chain par NULL (A ++ B) NULL :: cs).
Proof.
  intros HF Hs. apply segs_split3 in Hs; [|done]. unfold unlink.
  rd (prev_first _ _ _ _ _ _ Hs NULL HF).
  assert (exists m1, (if last NULL A =? NULL then mret tt
      else n ← next_of (last NULL F); store_item (last NULL A) (set_next n)) h = Ok (tt, set_items m1 h, [])
    /\ segs m1 (Chain par (last NULL A) F (first B NULL) :: Chain par NULL A (first B NULL)
      :: Chain par (last NULL F) B NULL :: cs)) as (m1 & E1 & S1).
  { apply segs_swap in Hs.
    destruct (store_next_if h _ _ _ _ _ Hs (first B NULL)) as (m1 & E1 & S1).
    exists m1. split; [|by apply segs_swap]. rewrite <- E1. unfold set_next_if.
    case_match; [done|]. apply segs_swap in Hs. by rd (next_last _ _ _ _ _ _ Hs NULL HF). }
  rewrite (bind_quiet _ _ _ _ _ E1). rd (next_last (set_items m1 h) _ _ _ _ _ S1 NULL HF).
  assert (S1' := segs_rot _ _ _ _ _ S1).
  destruct (store_prev_if (set_items m1 h) _ _ _ _ _ S1' (last NULL A)) as (m2 & E2 & S2).
  exists m2. split.
  - change (set_items m2 h) with (set_items m2 (set_items m1 h)). rewrite <- E2. unfold set_prev_if.
    destruct (first B NULL =? NULL); [done|]. by rd (prev_first (set_items m1 h) _ _ _ _ _ S1 NULL HF).
  - apply segs_swap. rewrite segs_join. by apply segs_rot.
Qed.
(** A detached chain is put before the item [to]. *)
Lemma link_before_ok q F n A B cs :
  F <> [] -> B <> [] ->
  segs (items h) (Chain par q F n :: Chain par NULL (A ++ B) NULL :: cs) ->
  exists m, link_before (first F NULL) (last NULL F) (first B NULL) h = Ok (tt, set_items m h, [])
    /\ segs m (Chain par NULL (A ++ F ++ B) NULL :: cs).
Proof.
  intros HF HB Hs. apply segs_swap in Hs. rewrite segs_join in Hs. unfold link_before.
  assert (Hb := segs_swap _ _ _ _ Hs).
  rd (prev_first _ _ _ _ _ _ Hb NULL HB). apply segs_rot in Hs.
  wr (store_prev h _ _ _ _ _ Hs NULL (last NULL A) HF) as m1 S1.
  wr (store_next (set_items m1 h) _ _ _ _ _ S1 NULL (first B NULL) HF) as m2 S2.
  apply segs_rot in S2.
  wr (store_prev (set_items m2 (set_items m1 h)) _ _ _ _ _ S2 NULL (last NULL F) HB) as m3 S3.
  assert (S3' := segs_swap _ _ _ _ S3).
  rd (prev_first (set_items m3 h) _ _ _ _ _ S3' NULL HF).
  apply segs_rot in S3.
  destruct (store_next_if (set_items m3 h) _ _ _ _ _ S3 (first F NULL)) as (m4 & E4 & S4).
  exists m4. split; [exact E4|]. apply segs_split3; [done|].
  by apply segs_rot.
Qed.
(** A detached item is put after the item [to]. *)
Lemma link_after_ok q x n A B cs :
  A <> [] ->
  segs (items h) (Chain par q [x] n :: Chain par NULL (A ++ B) NULL :: cs) ->
  exists m, link_after (addr x) (last NULL A) h = Ok (tt, set_items m h, [])
    /\ segs m (Chain par NULL (A ++ [x] ++ B) NULL :: cs).
Proof.
  intros HA Hs. apply segs_swap in Hs. rewrite segs_join in Hs. unfold link_after.
  apply segs_rot in Hs.
  wr (store_prev h _ _ _ _ _ Hs NULL (last NULL A) ltac:(done)) as m1 S1.
  assert (S1' := segs_swap _ _ _ _ S1).
  rd (next_last (set_items m1 h) _ _ _ _ _ S1' NULL HA).
  wr (store_next (set_items m1 h) _ _ _ _ _ S1 NULL (first B NULL) ltac:(done)) as m2 S2.
  apply segs_swap in S2.
  wr (store_next (set_items m2 (set_items m1 h)) _ _ _ _ _ S2 NULL (addr x) HA) as m3 S3.
  assert (S3' := segs_swap _ _ _ _ S3).
  rd (next_last (set_items m3 h) _ _ _ _ _ S3' NULL ltac:(done)).
  apply segs_rot in S3.
  destruct (store_prev_if (set_items m3 h) _ _ _ _ _ S3 (addr x)) as (m4 & E4 & S4).
  exists m4. split; [exact E4|]. apply segs_split3; [done|]. simpl.
  by apply segs_rot, segs_swap.
Qed.
End ops.

Lemma first_at xs : first xs NULL = at_ xs 0.
Proof. by rewrite at_first. Qed.
Lemma at_app_r A B i : at_ (A ++ B) (length A + i) = at_ B i.
Proof. unfold at_. by rewrite lookup_app_r, Nat.add_comm, Nat.add_sub by lia. Qed.
Lemma first_at_app A B : first B NULL = at_ (A ++ B) (length A).
Proof. by rewrite <- (Nat.add_0_r (length A)), at_app_r, at_first. Qed.
Lemma last_at_app A B : A <> [] -> last NULL A = at_ (A ++ B) (length A - 1).
Proof.
  intros HA. rewrite <- at_last. unfold at_. rewrite lookup_app_l; [done|].
  destruct A; [done|simpl; lia].
Qed.
Lemma nonempty_length xs : xs <> [] <-> (0 < length xs)%nat.
Proof. destruct xs; simpl; split; try done; lia. Qed.

Section ends.
Context (h : heap) (par : ptr) (xs : list item) (cs : list chain).
Hypothesis Hs : segs (items h) (Chain par NULL xs NULL :: cs).
Hypothesis Hne : xs <> [].
Lemma first_of i : (i < length xs)%nat ->
  DListItem_get_first_item (at_ xs i) h = Ok (first xs NULL, h, []).
Proof. rewrite <- at_first. by eapply dlist_first_item_ok. Qed.
Lemma last_of i : (i < length xs)%nat ->
  DListItem_get_last_item (at_ xs i) h = Ok (last NULL xs, h, []).
Proof. rewrite <- at_last. by eapply dlist_last_item_ok. Qed.
Lemma last_of_first : DListItem_get_last_item (first xs NULL) h = Ok (last NULL xs, h, []).
Proof. rewrite <- at_first. apply last_of. by apply nonempty_length. Qed.
Lemma first_of_last : DListItem_get_first_item (last NULL xs) h = Ok (first xs NULL, h, []).
Proof. apply nonempty_length in Hne. rewrite <- at_last. apply first_of. lia. Qed.
Lemma last_of_last : DListItem_get_last_item (last NULL xs) h = Ok (last NULL xs, h, []).
Proof. apply nonempty_length in Hne. rewrite <- at_last at 1. apply last_of. lia. Qed.
End ends.

Section ops2.
Context (h : heap) (par : ptr).
Implicit Types (A F B : list item).

Lemma parents_from_ok q B : forall h A cs fuel,
  segs (items h) (Chain q NULL A (first B NULL) :: Chain par (last NULL A) B NULL :: cs) ->
  (length B < fuel)%nat ->
  exists m, parents_from fuel (first B NULL) q h = Ok (tt, set_items m h, [])
    /\ segs m (Chain q NULL (A ++ B) NULL :: cs).
Proof.
  clear h. induction B as [|x B IH]; intros h A cs [|fuel] Hs Hf; simpl in Hf; try lia.
  { exists (items h). split; [by destruct h|]. rewrite app_nil_r.
    by rewrite Permutation_swap, segs_empty in Hs. }
  assert (Hsw := segs_swap _ _ _ _ Hs). rewrite (segs_join _ _ _ [x] B) in Hsw. cbn [first parents_from].
  assert (Hx := first_null [x] _ _ _ _ _ Hsw ltac:(done)). simpl in Hx. rewrite Hx.
  wr (store_parent h _ _ _ _ q _ Hsw) as m1 S1.
  rd (next_last (set_items m1 h) _ _ _ _ _ S1 NULL ltac:(done) : next_of (addr x) _ = _).
  apply segs_rot in S1. 
  destruct (IH (set_items m1 h) (A ++ [x]) cs fuel) as (m2 & E2 & S2); [|lia|].
  - rewrite last_app. rewrite segs_join. simpl. exact S1.
  - exists m2. split; [exact E2|]. by rewrite <- app_assoc in S2.
Qed.
Lemma set_list_parent_ok q xs i cs :
  segs (items h) (Chain par NULL xs NULL :: cs) -> (i < length xs)%nat ->
  exists m, DListItem_set_list_parent (at_ xs i) q h = Ok (ALIB_OK, set_items m h, [])
    /\ segs m (Chain q NULL xs NULL :: cs).
Proof.
  intros Hs Hi. unfold DListItem_set_list_parent. rewrite (at_null _ _ _ _ Hs) by done.
  rd (parent_at _ _ _ _ Hs i Hi). destruct (Z.eqb_spec par q) as [->|_].
  { exists (items h). split; [by destruct h|done]. }
  rd (first_of _ _ _ _ Hs i Hi). unfold item_fuel. rewrite bind_gets.
  pose proof (fuel_ok _ _ _ _ Hs).
  destruct (parents_from_ok q xs h [] cs (S (walk_fuel (A := DListItem) h))) as (m & E & S).
  - by rewrite segs_empty.
  - lia.
  - exists m. split; [|done]. by rewrite (bind_quiet _ _ _ _ _ E).
Qed.

Lemma rejected_false ys cs i :
  segs (items h) (Chain NULL NULL ys NULL :: cs) -> (i < length ys)%nat ->
  rejected (at_ ys i) h = Ok (false, h, []).
Proof.
  intros Hs Hi. unfold rejected. rewrite (at_null _ _ _ _ Hs) by done.
  by rd (parent_at _ _ _ _ Hs i Hi).
Qed.

End ops2.

Section insertion.
Context (h : heap) (par : ptr).
Implicit Types (A F B : list item).

(** [DListItem_insert_after]: a detached list is spliced in behind the item. *)
Lemma insert_after_ok A B ys j cs :
  A <> [] -> (j < length ys)%nat ->
  segs (items h) (Chain par NULL (A ++ B) NULL :: Chain NULL NULL ys NULL :: cs) ->
  exists m, DListItem_insert_after (last NULL A) (at_ ys j) h = Ok (first ys NULL, set_items m h, [])
    /\ segs m (Chain par NULL (A ++ ys ++ B) NULL :: cs).
Proof.
  intros HA Hj Hs. assert (Hys : ys <> []) by (apply nonempty_length; lia).
  unfold DListItem_insert_after. assert (Hsw := segs_swap _ _ _ _ Hs).
  assert (Hj0 := Hs). rewrite segs_join in Hj0. rewrite (last_null _ _ _ _ _ _ Hj0 HA).
  rd (rejected_false _ _ _ j Hsw Hj).
  rd (last_of _ _ _ _ Hsw j Hj). rd (first_of _ _ _ _ Hsw j Hj).
  rd (parent_last _ _ _ _ _ _ Hj0 NULL HA). rewrite first_at.
  wr (set_list_parent_ok h NULL par ys 0 _ Hsw ltac:(lia)) as m1 S1.
  assert (S1' := segs_swap _ _ _ _ S1). rewrite segs_join in S1'.
  rd (next_last (set_items m1 h) _ _ _ _ _ S1' NULL HA).
  wr (store_next (set_items m1 h) _ _ _ _ _ S1 NULL (first B NULL) Hys) as m2 S2.
  rewrite Permutation_swap, segs_join in S2. apply segs_swap in S2.
  wr (store_prev_if (set_items m2 h) _ _ _ _ _ S2 (last NULL ys)) as m3 S3.
  apply segs_rot in S3. rewrite <- first_at.
  wr (store_prev (set_items m3 h) _ _ _ _ _ S3 NULL (last NULL A) Hys) as m4 S4.
  apply segs_rot in S4.
  wr (store_next (set_items m4 h) _ _ _ _ _ S4 NULL (first ys NULL) HA) as m5 S5.
  exists m5. split; [done|]. apply segs_split3; [done|]. by apply segs_rot, segs_swap, segs_rot.
Qed.

(** [DListItem_insert_before], of an item that is not the first one. *)
Lemma insert_before_ok A B ys j cs :
  A <> [] -> B <> [] -> (j < length ys)%nat ->
  segs (items h) (Chain par NULL (A ++ B) NULL :: Chain NULL NULL ys NULL :: cs) ->
  exists m, DListItem_insert_before (first B NULL) (at_ ys j) h = Ok (first ys NULL, set_items m h, [])
    /\ segs m (Chain par NULL (A ++ ys ++ B) NULL :: cs).
Proof.
  intros HA HB Hj Hs. assert (Hys : ys <> []) by (apply nonempty_length; lia).
  unfold DListItem_insert_before. assert (Hsw := segs_swap _ _ _ _ Hs).
  assert (Hj0 := Hs). rewrite segs_join, Permutation_swap in Hj0.
  rewrite (first_null _ _ _ _ _ _ Hj0 HB).
  rd (rejected_false _ _ _ j Hsw Hj).
  rd (last_of _ _ _ _ Hsw j Hj). rd (first_of _ _ _ _ Hsw j Hj).
  rd (parent_first _ _ _ _ _ _ Hj0 NULL HB). rewrite first_at.
  wr (set_list_parent_ok h NULL par ys 0 _ Hsw ltac:(lia)) as m1 S1.
  wr (store_next (set_items m1 h) _ _ _ _ _ S1 NULL (first B NULL) Hys) as m2 S2.
  rewrite Permutation_swap, segs_join in S2. apply segs_swap in S2.
  rd (prev_first (set_items m2 h) _ _ _ _ _ S2 NULL HB). apply segs_rot in S2. rewrite <- first_at.
  wr (store_prev (set_items m2 h) _ _ _ _ _ S2 NULL (last NULL A) Hys) as m3 S3.
  apply segs_swap in S3.
  wr (store_prev (set_items m3 h) _ _ _ _ _ S3 NULL (last NULL ys) HB) as m4 S4.
  assert (S4' := segs_swap _ _ _ _ S4).
  rd (prev_first (set_items m4 h) _ _ _ _ _ S4' NULL Hys).
  apply segs_rot in S4.
  wr (store_next (set_items m4 h) _ _ _ _ _ S4 NULL (first ys NULL) HA) as m5 S5.
  exists m5. split; [done|]. apply segs_split3; [done|]. by apply segs_rot.
Qed.
(** In front of the first item, the item before it is NULL. *)
Lemma insert_before_first xs ys j cs :
  xs <> [] -> (j < length ys)%nat ->
  segs (items h) (Chain par NULL xs NULL :: Chain NULL NULL ys NULL :: cs) ->
  DListItem_insert_before (first xs NULL) (at_ ys j) h = UB NullDeref.
Proof.
  intros HB Hj Hs. assert (Hys : ys <> []) by (apply nonempty_length; lia).
  unfold DListItem_insert_before. assert (Hsw := segs_swap _ _ _ _ Hs).
  rewrite (first_null _ _ _ _ _ _ Hs HB).
  rd (rejected_false _ _ _ j Hsw Hj).
  rd (last_of _ _ _ _ Hsw j Hj). rd (first_of _ _ _ _ Hsw j Hj).
  rd (parent_first _ _ _ _ _ _ Hs NULL HB). rewrite first_at.
  wr (set_list_parent_ok h NULL par ys 0 _ Hsw ltac:(lia)) as m1 S1.
  wr (store_next (set_items m1 h) _ _ _ _ _ S1 NULL (first xs NULL) Hys) as m2 S2.
  apply segs_swap in S2.
  rd (prev_first (set_items m2 h) _ _ _ _ _ S2 NULL HB). apply segs_swap in S2. rewrite <- first_at.
  wr (store_prev (set_items m2 h) _ _ _ _ _ S2 NULL NULL Hys) as m3 S3.
  apply segs_swap in S3.
  wr (store_prev (set_items m3 h) _ _ _ _ _ S3 NULL (last NULL ys) HB) as m4 S4.
  apply segs_swap in S4.
  by rd (prev_first (set_items m4 h) _ _ _ _ _ S4 NULL Hys).
Qed.

Lemma push_back_ok xs i ys j cs :
  (i < length xs)%nat -> (j < length ys)%nat ->
  segs (items h) (Chain par NULL xs NULL :: Chain NULL NULL ys NULL :: cs) ->
  exists m, DListItem_push_back (at_ xs i) (at_ ys j) h = Ok (first ys NULL, set_items m h, [])
    /\ segs m (Chain par NULL (xs ++ ys) NULL :: cs).
Proof.
  intros Hi Hj Hs. assert (Hxs : xs <> []) by (apply nonempty_length; lia).
  assert (Hys : ys <> []) by (apply nonempty_length; lia).
  unfold DListItem_push_back. assert (Hsw := segs_swap _ _ _ _ Hs).
  rewrite (at_null _ _ _ _ Hs) by done. rd (rejected_false _ _ _ j Hsw Hj).
  rd (last_of _ _ _ _ Hs i Hi). rd (first_of _ _ _ _ Hsw j Hj).
  rd (parent_last _ _ _ _ _ _ Hs NULL Hxs). rewrite first_at.
  wr (set_list_parent_ok h NULL par ys 0 _ Hsw ltac:(lia)) as m1 S1.
  apply segs_swap in S1. rewrite <- first_at.
  wr (store_next (set_items m1 h) _ _ _ _ _ S1 NULL (first ys NULL) Hxs) as m2 S2.
  apply segs_swap in S2.
  wr (store_prev (set_items m2 h) _ _ _ _ _ S2 NULL (last NULL xs) Hys) as m3 S3.
  exists m3. split; [done|]. rewrite segs_join. by apply segs_swap.
Qed.
Lemma push_forward_ok xs i ys j cs :
  (i < length xs)%nat -> (j < length ys)%nat ->
  segs (items h) (Chain par NULL xs NULL :: Chain NULL NULL ys NULL :: cs) ->
  exists m, DListItem_push_forward (at_ xs i) (at_ ys j) h = Ok (first ys NULL, set_items m h, [])
    /\ segs m (Chain par NULL (ys ++ xs) NULL :: cs).
Proof.
  intros Hi Hj Hs. assert (Hxs : xs <> []) by (apply nonempty_length; lia).
  assert (Hys : ys <> []) by (apply nonempty_length; lia).
  unfold DListItem_push_forward. assert (Hsw := segs_swap _ _ _ _ Hs).
  rewrite (at_null _ _ _ _ Hs) by done. rd (rejected_false _ _ _ j Hsw Hj).
  rd (last_of _ _ _ _ Hsw j Hj). rd (first_of _ _ _ _ Hsw j Hj).
  rd (parent_at _ _ _ _ Hs i Hi). rewrite first_at.
  wr (set_list_parent_ok h NULL par ys 0 _ Hsw ltac:(lia)) as m1 S1.
  apply segs_swap in S1. rd (first_of (set_items m1 h) _ _ _ S1 i Hi). rewrite <- first_at.
  wr (store_prev (set_items m1 h) _ _ _ _ _ S1 NULL (last NULL ys) Hxs) as m2 S2.
  apply segs_swap in S2.
  wr (store_next (set_items m2 h) _ _ _ _ _ S2 NULL (first xs NULL) Hys) as m3 S3.
  exists m3. split; [done|]. by rewrite segs_join.
Qed.
End insertion.

(** * Extraction *)

(** The adjacent item an extraction leaves its pointer at. *)
Definition neighbour (A B : list item) : ptr :=
  if negb (last NULL A =? NULL) then last NULL A else first B NULL.

Section extraction.
Context (h : heap) (par : ptr).
Implicit Types (A F B : list item).

Lemma node_middle A x B cs :
  segs (items h) (Chain par NULL (A ++ [x] ++ B) NULL :: cs) ->
  addr x <> NULL /\ items h !! addr x = Some (node par x (last NULL A) (first B NULL)).
Proof.
  intros [Hs _]%segs_cons. unfold holds_chain in Hs. simpl in Hs.
  apply seg_app in Hs as [_ (? & ? & _)]. done.
Qed.
Lemma item_null A x B cs :
  segs (items h) (Chain par NULL (A ++ [x] ++ B) NULL :: cs) -> (addr x =? NULL) = false.
Proof. intros Hs. apply Z.eqb_neq. by apply node_middle in Hs as [? _]. Qed.

Lemma pull_out_ok A x B cs :
  segs (items h) (Chain par NULL (A ++ [x] ++ B) NULL :: cs) ->
  exists m, DListItem_pull_out (Some (addr x)) h = Ok ((addr x, Some (neighbour A B)), set_items m h, [])
    /\ segs m (Chain NULL NULL [x] NULL :: Chain par NULL (A ++ B) NULL :: cs).
Proof.
  intros Hs. unfold DListItem_pull_out. rewrite (item_null _ _ _ _ Hs).
  destruct (node_middle _ _ _ _ Hs) as [Hx Hl].
  unfold load_item. erewrite bind_load by done. cbn [node prev next].
  apply segs_split3 in Hs; [|done]. simpl in Hs. apply segs_rot in Hs.
  wr (store_prev_if h _ _ _ _ _ Hs (last NULL A)) as m1 S1. apply segs_swap in S1.
  rd (prev_first (set_items m1 h) _ _ _ _ _ S1 NULL ltac:(done) : prev_of (addr x) _ = _).
  assert (exists m2, (if last NULL A =? NULL then mret tt
      else n ← next_of (addr x); store_item (last NULL A) (set_next n)) (set_items m1 h)
        = Ok (tt, set_items m2 h, [])
    /\ segs m2 (Chain par (last NULL A) [x] (first B NULL) :: Chain par NULL A (first B NULL)
      :: Chain par (last NULL A) B NULL :: cs)) as (m2 & E2 & S2).
  { assert (Hr := segs_rot _ _ _ _ _ S1).
    destruct (store_next_if (set_items m1 h) _ _ _ _ _ Hr (first B NULL)) as (m2 & E2 & S2).
    exists m2. split; [|by apply segs_swap].
    change (set_items m2 h) with (set_items m2 (set_items m1 h)). rewrite <- E2.
    unfold set_next_if. destruct (last NULL A =? NULL); [done|].
    by rd (next_last (set_items m1 h) _ _ _ _ _ S1 NULL ltac:(done) : next_of (addr x) _ = _). }
  rewrite (bind_quiet _ _ _ _ _ E2).
  wr (store_next (set_items m2 h) _ _ _ _ _ S2 NULL NULL ltac:(done)) as m3 S3.
  wr (store_prev (set_items m3 h) _ _ _ _ _ S3 NULL NULL ltac:(done)) as m4 S4.
  wr (set_list_parent_ok (set_items m4 h) par NULL [x] 0 _ S4 ltac:(simpl; lia)) as m5 S5.
  exists m5. split; [done|]. apply segs_swap. rewrite segs_join. by apply segs_rot, segs_rot.
Qed.

(** [count] items from [F]'s first one, or as many as there are. *)
Lemma pull_out_count_ok A F B (n : Z) cs :
  F <> [] -> 0 < n < 2 ^ 63 ->
  Z.of_nat (length F) = Z.min n (Z.of_nat (length F + length B)) ->
  segs (items h) (Chain par NULL (A ++ F ++ B) NULL :: cs) ->
  exists m, DListItem_pull_out_count (Some (first F NULL)) n h
      = Ok ((first F NULL, Some (neighbour A B)), set_items m h, [])
    /\ segs m (Chain NULL NULL F NULL :: Chain par NULL (A ++ B) NULL :: cs).
Proof.
  intros HF Hn Hlen Hs. unfold DListItem_pull_out_count.
  assert (H3 := Hs). apply segs_split3 in H3; [|done].
  rewrite (first_null _ _ _ _ _ _ H3 HF), (proj2 (Z.eqb_neq n 0)) by lia. cbn [orb].
  apply nonempty_length in HF as Hpos.
  assert (Hlast : DListItem_get_by_relative_index (first F NULL) (s64 (u64 (n - 1))) h
    = Ok ((last NULL F, Some (Z.max 0 (n - Z.of_nat (length F + length B)))), h, [])).
  { rewrite u64_small, s64_small by lia.
    replace (first F NULL) with (at_ (A ++ F ++ B) (length A))
      by (rewrite <- first_at_app, first_app; by destruct F).
    rewrite (relative_ok _ _ _ _ Hs) by (rewrite !length_app; lia).
    replace (last NULL F) with (at_ (A ++ F ++ B) (length A + (length F - 1)))
      by (rewrite at_app_r; symmetry; by apply last_at_app).
    rewrite !length_app, Z.gtb_ltb. case_cmp; do 3 f_equal; f_equal; f_equal; lia. }
  rd Hlast. rd (prev_first _ _ _ _ _ _ H3 NULL HF). rd (next_last _ _ _ _ _ _ H3 NULL HF).
  wr (unlink_ok h par A F B cs HF Hs) as m1 S1.
  wr (store_prev (set_items m1 h) _ _ _ _ _ S1 NULL NULL HF) as m2 S2.
  wr (store_next (set_items m2 h) _ _ _ _ _ S2 NULL NULL HF) as m3 S3. rewrite first_at.
  wr (set_list_parent_ok (set_items m3 h) par NULL F 0 _ S3 Hpos) as m4 S4.
  exists m4. done.
Qed.

(** The value of a deleted item loses a reference. *)
Definition drop_val (p : ptr) (m : gmap Z ListItemVal) : gmap Z ListItemVal * list event :=
  if p =? NULL then (m, []) else
  match m !! p with
  | Some v =>
      if ref_count v =? 0 then (m, [])
      else if ref_count v =? 1
      then (delete p m, if free_value_cb v && negb (value v =? NULL) then [EvFree (value v)] else [])
      else (<[p := set_ref_count (ref_count v - 1) v]> m, [])
  | None => (m, [])
  end.
Lemma free_val_ok p v :
  p <> NULL -> vals h !! p = Some v ->
  free_val p h = Ok (tt, set_vals (delete p (vals h)) h,
    if free_value_cb v && negb (value v =? NULL) then [EvFree (value v)] else []).
Proof.
  intros Hn Hv. unfold free_val. rewrite (bind_load_val _ _ Hn v _ Hv).
  destruct (free_value_cb v && negb (value v =? NULL)); unfold when.
  - rewrite (bind_Ok _ _ _ tt h [EvFree (value v)]) by done. by rewrite (free_val_object_ok _ _ Hn v Hv).
  - by rewrite bind_mret, (free_val_object_ok _ _ Hn v Hv).
Qed.
End extraction.

Lemma delListItemVal_ok h p :
  p = NULL \/ is_Some (vals h !! p) ->
  delListItemVal (Some p) h =
    Ok (Some NULL, set_vals (drop_val p (vals h)).1 h, (drop_val p (vals h)).2).
Proof.
  intros Hp. unfold delListItemVal, drop_val. destruct (Z.eqb_spec p NULL) as [->|Hn].
  { by destruct h. }
  destruct Hp as [?|[v Hv]]; [done|]. rewrite Hv, (bind_load_val _ _ Hn v _ Hv).
  destruct (ref_count v =? 0) eqn:E0; [rewrite bind_mret; by destruct h|].
  rewrite bind_bind, (bind_store_val _ _ Hn v _ _ Hv).
  destruct (Z.eqb_spec (ref_count v) 1) as [E1|E1].
  - rewrite E1. cbn [Z.sub Z.add Z.opp Z.pos_sub Z.eqb when].
    set (v1 := set_ref_count _ v).
    erewrite bind_Ok; [|apply free_val_ok; [done|simpl; apply lookup_insert_eq]].
    cbn [v1 set_ref_count free_value_cb value vals set_vals]. unfold set_vals. simpl.
    by rewrite delete_insert_eq, app_nil_r.
  - by rewrite (proj2 (Z.eqb_neq (ref_count v - 1) 0)) by lia.
Qed.

(** [delDListItem]: the item and its reference to its value are gone. *)
Lemma segs_forget m m' par p x n cs :
  segs m (Chain par p [x] n :: cs) -> (forall a, a <> addr x -> m' !! a = m !! a) -> segs m' cs.
Proof.
  intros (_ & _ & Hd & Hs)%segs_cons Hm. eapply segs_frame; [|done].
  intros a Ha. apply Hm. intros ->. eapply Hd; [|done]. simpl. set_solver.
Qed.
Lemma delListItem_ok h par p x n cs :
  segs (items h) (Chain par p [x] n :: cs) -> obj x = NULL \/ is_Some (vals h !! obj x) ->
  exists m, delListItem (Some (addr x)) h =
      Ok (Some NULL, mkHeap m (drop_val (obj x) (vals h)).1 (lists h), (drop_val (obj x) (vals h)).2)
    /\ segs m cs.
Proof.
  intros Hs Hv. destruct (segs_lookup_first _ _ _ _ _ NULL _ Hs ltac:(done)) as (Hn & y & nn & Hy & Hx).
  simpl in Hn, Hx, Hy. assert (Hobj : obj y = obj x).
  { apply segs_cons in Hs as ((_ & Hc & _) & _). simpl in Hc. rewrite Hc in Hx. by injection Hx. }
  unfold delListItem. rewrite (proj2 (Z.eqb_neq _ _)) by done.
  rewrite (bind_load_item _ _ Hn _ _ Hx). cbn [node base val]. rewrite Hobj.
  erewrite bind_Ok by by apply delListItemVal_ok.
  erewrite bind_quiet by (eapply store_item_ok; [done|exact Hx]).
  erewrite bind_quiet by (eapply free_item_ok; [done|apply lookup_insert_eq]).
  cbn [mbind res_bind mret M_ret set_items set_vals items vals lists]. rewrite app_nil_r.
  eexists. split; [done|]. eapply segs_forget; [done|].
  intros a Ha. by rewrite lookup_delete_ne, lookup_insert_ne by done.
Qed.
Lemma delDListItem_ok h par A x B cs :
  segs (items h) (Chain par NULL (A ++ [x] ++ B) NULL :: cs) ->
  obj x = NULL \/ is_Some (vals h !! obj x) ->
  exists m, delDListItem (Some (addr x)) h =
      Ok (Some (neighbour A B), mkHeap m (drop_val (obj x) (vals h)).1 (lists h),
          (drop_val (obj x) (vals h)).2)
    /\ segs m (Chain par NULL (A ++ B) NULL :: cs).
Proof.
  intros Hs Hv. unfold delDListItem. rewrite (item_null _ _ _ _ _ _ Hs).
  destruct (node_middle _ _ _ _ _ _ Hs) as [Hx Hl]. rewrite (bind_load_item _ _ Hx _ _ Hl).
  wr (unlink_ok h par A [x] B cs ltac:(done) Hs : exists m, unlink (addr x) (addr x) h = _ /\ _) as m1 S1.
  destruct (delListItem_ok (set_items m1 h) par _ x _ _ S1 Hv) as (m2 & E2 & S2).
  exists m2. split; [|done]. erewrite bind_Ok by exact E2. simpl. by rewrite app_nil_r.
Qed.

(** Every item of a list is deleted, from its first one. *)
Fixpoint drop_vals (xs : list item) (m : gmap Z ListItemVal) : gmap Z ListItemVal * list event :=
  match xs with
  | [] => (m, [])
  | x :: xs => let '(m1, t1) := drop_val (obj x) m in
               let '(m2, t2) := drop_vals xs m1 in (m2, t1 ++ t2)
  end.
Definition all_vals (xs : list item) (m : gmap Z ListItemVal) : Prop :=
  Forall (fun x => obj x = NULL \/ is_Some (m !! obj x)) xs /\ NoDup (obj <$> xs).
Lemma drop_val_other p q (m : gmap Z ListItemVal) : p <> q -> (drop_val p m).1 !! q = m !! q.
Proof.
  intros Hpq. unfold drop_val. repeat case_match; simpl; try done;
    by rewrite ?lookup_delete_ne, ?lookup_insert_ne by done.
Qed.
Lemma del_all_from_ok fuel par xs : forall h cs,
  segs (items h) (Chain par NULL xs NULL :: cs) -> all_vals xs (vals h) -> (length xs < fuel)%nat ->
  exists m, del_all_from fuel (first xs NULL) h =
      Ok (NULL, mkHeap m (drop_vals xs (vals h)).1 (lists h), (drop_vals xs (vals h)).2)
    /\ segs m cs.
Proof.
  revert xs. induction fuel as [|fuel IH]; intros xs h cs Hs [Hv Hnd] Hf; [lia|].
  destruct xs as [|x xs].
  { exists (items h). split; [by destruct h|]. by rewrite segs_empty in Hs. }
  cbn [first del_all_from]. rewrite (item_null h par [] x xs cs Hs).
  apply Forall_cons in Hv as [Hx Hv]. apply NoDup_cons in Hnd as [Hnin Hnd].
  destruct (delDListItem_ok h par [] x xs cs Hs Hx) as (m1 & E1 & S1).
  erewrite bind_Ok by exact E1. change (neighbour [] xs) with (first xs NULL).
  destruct (IH xs (mkHeap m1 (drop_val (obj x) (vals h)).1 (lists h)) cs S1) as (m2 & E2 & S2).
  - split; [|done]. apply Forall_forall. intros y Hy. rewrite Forall_forall in Hv.
    destruct (Hv y Hy) as [?|Hsome]; [by left|]. right. simpl.
    rewrite drop_val_other; [done|]. intros Heq. apply Hnin. rewrite Heq. by apply list_elem_of_fmap_2.
  - simpl in Hf. lia.
  - exists m2. split; [|done]. erewrite bind_lift by done. rewrite E2. simpl.
    destruct (drop_val (obj x) (vals h)) as [v1 t1]. simpl.
    destruct (drop_vals xs v1) as [v2 t2]. done.
Qed.

(** * Moving an item *)

(** [xs] with the item at index [i] moved to index [j]. *)
Definition move_to {X} (i j : nat) (xs : list X) : list X :=
  match xs !! i with
  | Some x => let ys := take i xs ++ drop (S i) xs in take j ys ++ x :: drop j ys
  | None => xs
  end.
Lemma move_to_fmap {X Y} (f : X -> Y) (i j : nat) (xs : list X) :
  f <$> move_to i j xs = move_to i j (f <$> xs).
Proof.
  unfold move_to. rewrite list_lookup_fmap. destruct (xs !! i); simpl; [|done].
  by rewrite fmap_app, fmap_cons, fmap_take, fmap_drop, fmap_app, fmap_take, fmap_drop.
Qed.
Lemma move_to_middle {X} (A : list X) (x : X) (B : list X) (j : nat) :
  move_to (length A) j (A ++ x :: B) = take j (A ++ B) ++ x :: drop j (A ++ B).
Proof.
  unfold move_to. rewrite list_lookup_middle by done.
  rewrite take_app_length, drop_app_ge by lia.
  by replace (S (length A) - length A)%nat with 1%nat by lia.
Qed.
Lemma move_to_id {X} (i : nat) (xs : list X) : move_to i i xs = xs.
Proof.
  destruct (xs !! i) as [x|] eqn:E; [|unfold move_to; by rewrite E].
  pose proof (lookup_lt_Some _ _ _ E). rewrite <- (take_drop_middle xs i x E).
  replace i with (length (take i xs)) at 1 2 by (rewrite length_take; lia).
  by rewrite move_to_middle, take_app_length, drop_app_length.
Qed.

Section move.
Context (h : heap) (par : ptr) (xs : list item) (cs : list chain).
Hypothesis Hs : segs (items h) (Chain par NULL xs NULL :: cs).
Hypothesis Hsize : Z.of_nat (length xs) < 2 ^ 62.

(** The pointer updates of both directions. *)
Lemma relink_after A x B D :
  xs = A ++ [x] ++ B ++ D -> B <> [] ->
  exists m, (unlink (addr x) (addr x);; link_after (addr x) (last NULL B)) h
      = Ok (tt, set_items m h, [])
    /\ segs m (Chain par NULL (A ++ B ++ [x] ++ D) NULL :: cs).
Proof.
  intros -> HB.
  wr (unlink_ok h par A [x] (B ++ D) cs ltac:(done) Hs : exists m, unlink (addr x) (addr x) h = _ /\ _) as m1 S1.
  rewrite app_assoc in S1.
  destruct (link_after_ok (set_items m1 h) par _ x _ (A ++ B) D _ ltac:(by destruct A, B) S1)
    as (m2 & E2 & S2).
  rewrite last_app in E2. rewrite (last_nonempty _ NULL B HB) in E2.
  exists m2. split; [exact E2|]. by rewrite <- app_assoc in S2.
Qed.
Lemma relink_before A B x D :
  xs = A ++ B ++ [x] ++ D -> B <> [] ->
  exists m, (unlink (addr x) (addr x);; link_before (addr x) (addr x) (first B NULL)) h
      = Ok (tt, set_items m h, [])
    /\ segs m (Chain par NULL (A ++ [x] ++ B ++ D) NULL :: cs).
Proof.
  intros Hxs HB. assert (Hs' := Hs). rewrite Hxs, (app_assoc A B) in Hs'.
  wr (unlink_ok h par (A ++ B) [x] D cs ltac:(done) Hs' : exists m, unlink (addr x) (addr x) h = _ /\ _) as m1 S1.
  rewrite <- app_assoc in S1.
  destruct (link_before_ok (set_items m1 h) par _ [x] _ A (B ++ D) _ ltac:(done) ltac:(by destruct B) S1)
    as (m2 & E2 & S2).
  exists m2. split; [|done]. rewrite first_app, (first_nonempty _ NULL B HB) in E2. exact E2.
Qed.

(** [DListItem_move] from an existing index: the item ends at the index asked
    for, or at the end of the list if the index is past it. *)
Lemma move_up_ok q (i j : Z) :
  (q < length xs)%nat -> 0 <= i < Z.of_nat (length xs) -> i < j < 2 ^ 62 ->
  let j' := Z.min j (Z.of_nat (length xs) - 1) in
  exists m, DListItem_move (at_ xs q) i j h = Ok (j', set_items m h, [])
    /\ segs m (Chain par NULL (move_to (Z.to_nat i) (Z.to_nat j') xs) NULL :: cs).
Proof.
  intros Hq Hi Hij j'. unfold DListItem_move.
  rewrite (at_null _ _ _ _ Hs), (proj2 (Z.eqb_neq _ _)), (proj2 (Z.ltb_lt _ _)) by lia.
  rd (get_ok _ _ _ _ Hs q i Hq ltac:(lia)). erewrite bind_lift by done.
  rewrite (Z.max_l 0) by lia. change (negb (s64 0 =? 0)) with false. cbv iota.
  rewrite Z.min_l, s64_u64 by lia.
  rd (relative_ok _ _ _ _ Hs (Z.to_nat i) (j - i) ltac:(lia)). erewrite bind_lift by done.
  rewrite Z2Nat.id by lia. replace (i + (j - i)) with j by lia. rewrite (Z.max_r 0 j) by lia.
  fold j'. rewrite Z.gtb_ltb, (proj2 (Z.ltb_lt 0 (j - i))) by lia.
  destruct (Z.eqb_spec (at_ xs (Z.to_nat i)) (at_ xs (Z.to_nat j'))) as [Heq|Hne]; simpl.
  - apply (at_inj _ _ _ _ Hs) in Heq; [|lia..]. exists (items h).
    rewrite <- Heq, move_to_id, s64_small by lia. split; [|done].
    replace j' with i by lia. by destruct h.
  - assert (Hlt : i < j'). { assert (i <> j') by naive_solver. lia. }
    destruct (lookup_lt_is_Some_2 xs (Z.to_nat i)) as [x Hx]; [lia|].
    set (B := take (Z.to_nat j' - Z.to_nat i) (drop (S (Z.to_nat i)) xs)).
    set (D := drop (S (Z.to_nat j')) xs). set (A := take (Z.to_nat i) xs).
    assert (HA : length A = Z.to_nat i) by (unfold A; rewrite length_take; lia).
    assert (HB : length B = (Z.to_nat j' - Z.to_nat i)%nat)
      by (unfold B; rewrite length_take, length_drop; lia).
    assert (Hxs : xs = A ++ [x] ++ B ++ D).
    { rewrite <- (take_drop_middle xs _ x Hx) at 1. unfold A, B, D. simpl. do 2 f_equal.
      rewrite <- (take_drop (Z.to_nat j' - Z.to_nat i) (drop (S (Z.to_nat i)) xs)) at 1.
      rewrite drop_drop. repeat f_equal. lia. }
    assert (HBn : B <> []) by (apply nonempty_length; lia).
    destruct (relink_after A x B D Hxs HBn) as (m & E & S).
    exists m. split.
    + rewrite (at_lookup _ _ _ Hx).
      replace (at_ xs (Z.to_nat j')) with (last NULL B); cycle 1.
      { rewrite Hxs at 1. rewrite (app_assoc A), (app_assoc (A ++ [x])).
        replace (Z.to_nat j') with (length ((A ++ [x]) ++ B) - 1)%nat
          by (rewrite !length_app; simpl; lia).
        rewrite <- last_at_app by (by destruct A). rewrite last_app. by apply last_nonempty. }
      rewrite <- (bind_bind _ (fun _ => _)). rewrite (bind_quiet _ _ _ _ _ E).
      rewrite u64_small, s64_small by lia. unfold mret, M_ret. f_equal. f_equal. f_equal. lia.
    + rewrite <- HA. rewrite Hxs at 1. simpl. rewrite move_to_middle, app_assoc.
      replace (Z.to_nat j') with (length (A ++ B)) by (rewrite length_app; lia).
      by rewrite take_app_length, drop_app_length, <- app_assoc.
Qed.
Lemma move_down_ok q (i j : Z) :
  (q < length xs)%nat -> 0 <= i < Z.of_nat (length xs) -> 0 <= j < i ->
  exists m, DListItem_move (at_ xs q) i j h = Ok (j, set_items m h, [])
    /\ segs m (Chain par NULL (move_to (Z.to_nat i) (Z.to_nat j) xs) NULL :: cs).
Proof.
  intros Hq Hi Hij. unfold DListItem_move.
  rewrite (at_null _ _ _ _ Hs), (proj2 (Z.eqb_neq _ _)), (proj2 (Z.ltb_ge _ _)) by lia.
  rd (get_ok _ _ _ _ Hs q j Hq ltac:(lia)). erewrite bind_lift by done.
  rewrite (Z.max_l 0) by lia. change (negb (s64 0 =? 0)) with false. cbv iota.
  rewrite Z.min_l, s64_u64 by lia.
  rd (relative_ok _ _ _ _ Hs (Z.to_nat j) (i - j) ltac:(lia)). erewrite bind_lift by done.
  rewrite Z2Nat.id by lia. replace (j + (i - j)) with i by lia. rewrite (Z.max_r 0 i) by lia.
  rewrite Z.gtb_ltb, (proj2 (Z.ltb_lt 0 (i - j))), (Z.max_l 0), Z.min_l by lia. cbn [Z.eqb negb].
  rewrite (proj2 (Z.eqb_neq (at_ xs (Z.to_nat i)) _))
    by (intros ?%(at_inj _ _ _ _ Hs); lia). cbn [negb].
  destruct (lookup_lt_is_Some_2 xs (Z.to_nat i)) as [x Hx]; [lia|].
  set (A := take (Z.to_nat j) xs). set (B := take (Z.to_nat i - Z.to_nat j) (drop (Z.to_nat j) xs)).
  set (D := drop (S (Z.to_nat i)) xs).
  assert (HA : length A = Z.to_nat j) by (unfold A; rewrite length_take; lia).
  assert (HB : length B = (Z.to_nat i - Z.to_nat j)%nat)
    by (unfold B; rewrite length_take, length_drop; lia).
  assert (Hxs : xs = A ++ B ++ [x] ++ D).
  { rewrite <- (take_drop_middle xs _ x Hx) at 1. unfold A, B, D. simpl. rewrite app_assoc. f_equal.
    rewrite take_take_drop. f_equal. lia. }
  assert (HBn : B <> []) by (apply nonempty_length; lia).
  destruct (relink_before A B x D Hxs HBn) as (m & E & S).
  exists m. split.
  - rewrite (at_lookup _ _ _ Hx).
    replace (at_ xs (Z.to_nat j)) with (first B NULL); cycle 1.
    { rewrite Hxs at 1. rewrite <- HA, <- first_at_app, first_app. by apply first_nonempty. }
    rewrite <- (bind_bind _ (fun _ => _)). rewrite (bind_quiet _ _ _ _ _ E).
    by rewrite s64_small by lia.
  - rewrite Hxs at 1. rewrite app_assoc. simpl.
    replace (Z.to_nat i) with (length (A ++ B)) by (rewrite length_app; lia).
    rewrite move_to_middle, <- HA. by rewrite <- app_assoc, take_app_length, drop_app_length.
Qed.
(** An index past the end is refused. *)
Lemma move_bad_ok q (i j : Z) :
  (q < length xs)%nat -> Z.of_nat (length xs) <= i < 2 ^ 62 -> 0 <= j < 2 ^ 62 -> i <> j ->
  DListItem_move (at_ xs q) i j h = Ok (ALIB_BAD_INDEX, h, []).
Proof.
  intros Hq Hi Hj Hij. unfold DListItem_move.
  rewrite (at_null _ _ _ _ Hs), (proj2 (Z.eqb_neq i j)) by lia. destruct (Z.ltb_spec i j).
  - rd (get_ok _ _ _ _ Hs q i Hq ltac:(lia)). erewrite bind_lift by done.
    by rewrite s64_small, (proj2 (Z.eqb_neq _ 0)) by lia.
  - rd (get_ok _ _ _ _ Hs q j Hq ltac:(lia)). erewrite bind_lift by done.
    rewrite s64_small by lia. case_cmp; simpl; [|done].
    rewrite Z.min_l, s64_u64 by lia.
    rd (relative_ok _ _ _ _ Hs (Z.to_nat j) (i - j) ltac:(lia)). erewrite bind_lift by done.
    by rewrite Z.gtb_ltb, (proj2 (Z.ltb_lt 0 (i - j))), (proj2 (Z.eqb_neq _ 0)) by lia.
Qed.
End move.
