(* ===== verification/DList.v ===== *)
(** The doubly linked list object, [source/DList.c]: a [DList] keeps the
    addresses of the first and last [DListItem] and their number.  The
    functions take the address of the [DList] in the heap of [DListItem]; a
    [DListItem]'s parent is compared with that address.  The theorems relate
    runs of the operations to operations on a list of values. *)
From S2P Require Import Prelude Effects Heap DListItem DListSeg.
Open Scope Z_scope.

Definition load_list : ptr -> M heap DList := load.
Definition store_list : ptr -> (DList -> DList) -> M heap unit := update.
Definition set_begin (p : ptr) (l : DList) := mkDList p (end_ l) (count l) (items_ready_for_removal l).
Definition set_end (p : ptr) (l : DList) := mkDList (begin_ l) p (count l) (items_ready_for_removal l).
Definition set_count (n : Z) (l : DList) := mkDList (begin_ l) (end_ l) n (items_ready_for_removal l).
Definition set_items_ready (l : DList) := mkDList (begin_ l) (end_ l) (count l) (Some true).

(** [if(!list->begin->base.parent) DListItem_set_list_parent(list->begin, list);] *)
Definition adopt (list : ptr) : M heap unit :=
  l ← load_list list; q ← parent_of (begin_ l);
  if q =? NULL then DListItem_set_list_parent (begin_ l) list;; mret tt else mret tt.
(** [!item || item->base.parent] *)
Definition not_free (item : ptr) : M heap bool :=
  if item =? NULL then mret true else q ← parent_of item; mret (negb (q =? NULL)).

Definition DList_push_back (list item : ptr) : M heap Z :=
  if list =? NULL then mret ALIB_BAD_ARG else
  bad ← not_free item;
  if bad : bool then mret ALIB_BAD_ARG else
  item_len ← DListItem_count item;
  l ← load_list list; e ← DListItem_push_back (end_ l) item;
  store_list list (set_end e);;
  store_list list (set_count (u64 (count l + item_len)));;
  (if begin_ l =? NULL then store_list list (set_begin e) else mret tt);;
  e ← DListItem_get_last_item e; store_list list (set_end e);;
  adopt list;; mret ALIB_OK.
Definition DList_push_forward (list item : ptr) : M heap Z :=
  if list =? NULL then mret ALIB_BAD_ARG else
  bad ← not_free item;
  if bad : bool then mret ALIB_BAD_ARG else
  item_len ← DListItem_count item;
  l ← load_list list; b ← DListItem_push_forward (begin_ l) item;
  store_list list (set_begin b);;
  store_list list (set_count (u64 (count l + item_len)));;
  (if end_ l =? NULL then e ← DListItem_get_last_item b; store_list list (set_end e) else mret tt);;
  adopt list;; mret ALIB_OK.

(** The signed offset [index - (list->count - 1)] from the list's end. *)
Definition from_end (l : DList) (index : Z) : Z := s64 (u64 (index - u64 (count l - 1))).

Definition DList_insert (list : ptr) (index : Z) (item : ptr) : M heap Z :=
  if list =? NULL then mret ALIB_BAD_ARG else
  bad ← not_free item;
  if bad : bool then mret ALIB_BAD_ARG else
  item_count ← DListItem_count item;
  l ← load_list list;
  (if begin_ l =? NULL then
     b ← DListItem_get_first_item item; store_list list (set_begin b);;
     e ← DListItem_get_last_item item; store_list list (set_end e)
   else if index >=? count l then
     DListItem_insert_after (end_ l) item;;
     e ← DListItem_get_last_item (end_ l); store_list list (set_end e)
   else if index <? count l / 2 then
     '(p, _) ← DListItem_get_by_relative_index (begin_ l) (s64 index);
     DListItem_insert_before p item;; mret tt
   else
     '(p, _) ← DListItem_get_by_relative_index (end_ l) (from_end l index);
     DListItem_insert_before p item;; mret tt);;
  adopt list;;
  l ← load_list list; store_list list (set_count (u64 (count l + item_count)));; mret ALIB_OK.

Definition DList_insert_after (list curItm newItm : ptr) : M heap Z :=
  if (list =? NULL) || (curItm =? NULL) then mret ALIB_BAD_ARG else
  q ← parent_of curItm;
  if negb (q =? list) || (newItm =? NULL) then mret ALIB_BAD_ARG else
  q ← parent_of newItm;
  if q =? NULL then mret ALIB_BAD_ARG else
  r ← DListItem_insert_after curItm newItm;
  if r =? curItm then mret ALIB_UNKNOWN_ERR else
  l ← load_list list;
  (if end_ l =? NULL then e ← DListItem_get_last_item newItm; store_list list (set_end e)
   else n ← next_of (end_ l);
        if negb (n =? NULL) then e ← DListItem_get_last_item newItm; store_list list (set_end e)
        else mret tt);;
  (if begin_ l =? NULL then b ← DListItem_get_first_item newItm; store_list list (set_begin b)
   else mret tt);;
  store_list list (fun l => set_count (u64 (count l + 1)) l);; mret ALIB_OK.
Definition DList_insert_before (list curItm newItm : ptr) : M heap Z :=
  if (list =? NULL) || (curItm =? NULL) then mret ALIB_BAD_ARG else
  q ← parent_of curItm;
  if negb (q =? list) || (newItm =? NULL) then mret ALIB_BAD_ARG else
  q ← parent_of newItm;
  if negb (q =? NULL) then mret ALIB_BAD_ARG else
  r ← DListItem_insert_before curItm newItm;
  if r =? curItm then mret ALIB_UNKNOWN_ERR else
  l ← load_list list;
  (if begin_ l =? NULL then b ← DListItem_get_first_item newItm; store_list list (set_begin b)
   else p ← prev_of (begin_ l);
        if negb (p =? NULL) then b ← DListItem_get_first_item newItm; store_list list (set_begin b)
        else mret tt);;
  (if end_ l =? NULL then e ← DListItem_get_last_item newItm; store_list list (set_end e)
   else mret tt);;
  store_list list (fun l => set_count (u64 (count l + 1)) l);; mret ALIB_OK.

(** * Moving *)
Definition DList_move (list : ptr) (from_index to_index : Z) : M heap Z :=
  if list =? NULL then mret ALIB_BAD_ARG else
  l ← load_list list;
  if (from_index =? to_index) || (count l =? 1) then mret (s64 from_index) else
  (if from_index =? 0 then n ← next_of (begin_ l); store_list list (set_begin n) else mret tt);;
  (if from_index =? u64 (count l - 1) then p ← prev_of (end_ l); store_list list (set_end p)
   else mret tt);;
  l ← load_list list;
  r ← DListItem_move (begin_ l) from_index to_index;
  (if to_index =? 0 then b ← DListItem_get_first_item (begin_ l); store_list list (set_begin b)
   else if to_index >=? count l then
     e ← DListItem_get_last_item (end_ l); store_list list (set_end e)
   else mret tt);;
  mret (s64 (u64 r)).
Definition DList_move_count (list : ptr) (from_index to_index count : Z) : M heap Z :=
  if list =? NULL then mret ALIB_BAD_ARG else
  l ← load_list list;
  r ← DListItem_move_count (begin_ l) from_index to_index count;
  b ← DListItem_get_first_item (begin_ l); store_list list (set_begin b);;
  e ← DListItem_get_last_item (end_ l); store_list list (set_end e);;
  mret (s64 (u64 r)).

(** * Removal *)

(** [delDListItem(&list->begin)] and [delDListItem(&list->end)]. *)
Definition del_begin (list : ptr) : M heap unit :=
  l ← load_list list; o ← delDListItem (Some (begin_ l)); p ← lift (deref o);
  store_list list (set_begin p);;
  when (p =? NULL) (store_list list (set_end NULL)).
Definition del_end (list : ptr) : M heap unit :=
  l ← load_list list; o ← delDListItem (Some (end_ l)); p ← lift (deref o);
  store_list list (set_end p).
(** The item at an index that is neither the first nor the last one. *)
Definition inner_item (l : DList) (index : Z) : M heap ptr :=
  '(p, _) ← (if index <? count l / 2
             then DListItem_get_by_relative_index (begin_ l) (s64 index)
             else DListItem_get_by_relative_index (end_ l) (from_end l index));
  mret p.
Definition decr_count (list : ptr) : M heap unit :=
  store_list list (fun l => set_count (u64 (count l - 1)) l).

Definition DList_remove (list : ptr) (index : Z) : M heap Z :=
  if list =? NULL then mret ALIB_BAD_ARG else
  l ← load_list list;
  if index >=? count l then mret ALIB_BAD_ARG else
  (if index =? 0 then del_begin list
   else if index =? count l - 1 then del_end list
   else p ← inner_item l index; delDListItem (Some p);; mret tt);;
  decr_count list;; mret ALIB_OK.

Definition DList_get (list : ptr) (index : Z) : M heap ptr :=
  if list =? NULL then mret NULL else
  l ← load_list list;
  if index >=? count l then mret NULL else
  if index =? 0 then mret (begin_ l) else inner_item l index.
Definition DList_remove_lsafe (list : ptr) (index : Z) : M heap Z :=
  if list =? NULL then mret ALIB_BAD_ARG else
  l ← load_list list;
  if index >=? count l then mret ALIB_BAD_ARG else
  li ← DList_get list index;
  if li =? NULL then mret ALIB_BAD_INDEX else
  ListItem_mark_for_removal li;; store_list list set_items_ready;; mret ALIB_OK.

Definition DList_pull_out (list : ptr) (index : Z) : M heap ptr :=
  if list =? NULL then mret NULL else
  l ← load_list list;
  if index >=? count l then mret NULL else
  rval ← (if index =? 0 then
            '(r, o) ← DListItem_pull_out (Some (begin_ l)); p ← lift (deref o);
            store_list list (set_begin p);;
            when (p =? NULL) (store_list list (set_end NULL));; mret r
          else if index =? count l - 1 then
            '(r, o) ← DListItem_pull_out (Some (end_ l)); p ← lift (deref o);
            store_list list (set_end p);; mret r
          else p ← inner_item l index; '(r, _) ← DListItem_pull_out (Some p); mret r);
  decr_count list;; mret rval.
Definition DList_pull_out_count (list : ptr) (index count_ : Z) : M heap ptr :=
  if list =? NULL then mret NULL else
  l ← load_list list;
  rval ← (if index =? 0 then
            '(r, o) ← DListItem_pull_out_count (Some (begin_ l)) count_; p ← lift (deref o);
            store_list list (set_begin p);;
            when (p =? NULL) (store_list list (set_end NULL));; mret r
          else if index =? u64 (count l - 1) then
            '(r, o) ← DListItem_pull_out_count (Some (end_ l)) count_; p ← lift (deref o);
            store_list list (set_end p);; mret r
          else
            p ← inner_item l index;
            (if u64 (index + count_) =? count l then q ← prev_of p; store_list list (set_end q)
             else mret tt);;
            '(r, _) ← DListItem_pull_out_count (Some p) count_; mret r);
  n ← DListItem_count rval;
  store_list list (fun l => set_count (u64 (count l - n)) l);; mret rval.

Definition DList_remove_count (list : ptr) (index count_ : Z) : M heap Z :=
  if list =? NULL then mret ALIB_BAD_ARG else
  l ← load_list list;
  if index >=? count l then mret ALIB_BAD_ARG else
  remove_list ← DList_pull_out_count list index count_;
  delDListItem_all (Some remove_list);; mret ALIB_OK.
(** [for(; count && item; --count, item = item->next) mark(item);] *)
Fixpoint mark_from (n : nat) (it : ptr) : M heap unit :=
  match n with
  | O => mret tt
  | S k => if it =? NULL then mret tt else
           ListItem_mark_for_removal it;; p ← next_of it; mark_from k p
  end.
Definition DList_remove_count_lsafe (list : ptr) (index count_ : Z) : M heap Z :=
  if list =? NULL then mret ALIB_BAD_ARG else
  l ← load_list list;
  if index >=? count l then mret ALIB_BAD_ARG else
  it ← DList_get list index;
  if it =? NULL then mret ALIB_BAD_INDEX else
  mark_from (Z.to_nat count_) it;; store_list list set_items_ready;; mret ALIB_OK.
(** [item] is read without a check. *)
Definition DList_remove_item (list item : ptr) : M heap Z :=
  if list =? NULL then mret ALIB_BAD_ARG else
  q ← parent_of item;
  if negb (q =? list) then mret ALIB_BAD_ARG else
  l ← load_list list;
  (if item =? begin_ l then del_begin list
   else if item =? end_ l then del_end list
   else delDListItem (Some item);; mret tt);;
  decr_count list;; mret ALIB_OK.
Definition DList_remove_item_lsafe (list item : ptr) : M heap Z :=
  if list =? NULL then mret ALIB_BAD_ARG else
  q ← parent_of item;
  if negb (q =? list) then mret ALIB_BAD_ARG else
  ListItem_mark_for_removal item;; store_list list set_items_ready;; mret ALIB_OK.
Definition DList_remove_item_count (list item : ptr) (count_ : Z) : M heap Z :=
  i ← DListItem_index item; DList_remove_count list (u64 i) count_.
Definition DList_remove_item_count_lsafe (list item : ptr) (count_ : Z) : M heap Z :=
  i ← DListItem_index item; DList_remove_count_lsafe list (u64 i) count_.

(** The loop steps to the next item before it removes the one behind it. *)
Fixpoint remove_marked_from (fuel : nat) (list iter : ptr) : M heap unit :=
  match fuel with
  | O => lift Diverges
  | S k =>
      if iter =? NULL then mret tt else
      i ← load_item iter;
      if removed (base i) then
        p ← prev_of (next i); DList_remove_item list p;; remove_marked_from k list (next i)
      else remove_marked_from k list (next i)
  end.
Definition DList_remove_marked_items (list : ptr) : M heap unit :=
  if list =? NULL then mret tt else
  l ← load_list list;
  match items_ready_for_removal l with
  | None => lift (UB Indeterminate)
  | Some false => mret tt
  | Some true => fuel ← item_fuel; remove_marked_from (S fuel) list (begin_ l)
  end.

(** * Getters, lifecycle *)
Definition DList_get_count (list : ptr) : M heap Z :=
  if list =? NULL then mret 0 else l ← load_list list; mret (count l).
Definition DList_get_begin (list : ptr) : M heap ptr := l ← load_list list; mret (begin_ l).
Definition DList_get_end (list : ptr) : M heap ptr :=
  if list =? NULL then mret NULL else l ← load_list list; mret (end_ l).
Definition DList_get_by_value (list v : ptr) : M heap ptr :=
  if list =? NULL then mret NULL else l ← load_list list; DListItem_get_by_value (begin_ l) v.

Definition newDList (k : option ptr) : M heap ptr := alloc k (mkDList NULL NULL 0 None).
Definition delDList (list : option ptr) : M heap (option ptr) :=
  match list with
  | None => mret None
  | Some p =>
      if p =? NULL then mret list else
      l ← load_list p; o ← delDListItem_all (Some (begin_ l)); b ← lift (deref o);
      store_list p (set_begin b);; release (A := DList) p;; mret (Some NULL)
  end.

(** * The object and its chain *)
Definition put_list (self : ptr) (l : DList) (h : heap) : heap :=
  set_lists (<[self := l]> (lists h)) h.
(** The [DList] of the items [xs]. *)
Definition summary (xs : list item) (fl : option bool) : DList :=
  mkDList (first xs NULL) (last NULL xs) (Z.of_nat (length xs)) fl.

Section object.
Context {B : Type} (self : ptr) (Hself : self <> NULL) (l : DList) (h : heap).
Lemma bind_load_list (k : DList -> M heap B) :
  mbind k (load_list self) (put_list self l h) = k l (put_list self l h).
Proof. apply (bind_load (A := DList) self k (put_list self l h) l Hself). apply lookup_insert_eq. Qed.
Lemma bind_store_list f (k : unit -> M heap B) :
  mbind k (store_list self f) (put_list self l h) = k tt (put_list self (f l) h).
Proof.
  etransitivity.
  - apply (bind_update (A := DList) self f k (put_list self l h) l Hself). apply lookup_insert_eq.
  - f_equal. unfold put_list. simpl. unfold set_lists. simpl. by rewrite insert_insert_eq.
Qed.
End object.
Lemma store_list_ok self l h f : self <> NULL ->
  store_list self f (put_list self l h) = Ok (tt, put_list self (f l) h, []).
Proof.
  intros Hself. etransitivity.
  - apply (update_ok (A := DList) self f (put_list self l h) l Hself). apply lookup_insert_eq.
  - do 3 f_equal. unfold put_list. simpl. unfold set_lists. simpl. by rewrite insert_insert_eq.
Qed.
Lemma put_list_id self l h : lists h !! self = Some l -> put_list self l h = h.
Proof. intros Hl. unfold put_list. rewrite insert_id by done. by destruct h. Qed.
Lemma set_items_put_list self l m h : set_items m (put_list self l h) = put_list self l (set_items m h).
Proof. done. Qed.
Lemma set_items_items h : set_items (items h) h = h.
Proof. by destruct h. Qed.
Lemma set_items_twice m m' h : set_items m (set_items m' h) = set_items m h.
Proof. done. Qed.

Lemma set_end_summary e xs fl :
  set_end e (summary xs fl) = mkDList (first xs NULL) e (Z.of_nat (length xs)) fl.
Proof. done. Qed.

(** Reads and writes of the object [self], whose address is not NULL. *)
Ltac ld := match goal with
  | H : _ <> NULL |- context [load_list] => rewrite (bind_load_list _ H); cbn [summary begin_ end_ count]
  end.
Ltac st := match goal with
  | H : _ <> NULL |- context [store_list] =>
      rewrite (bind_store_list _ H); cbn [begin_ end_ count set_begin set_end set_count summary]
  end.
Ltac whole := rewrite ?set_items_put_list, ?set_items_twice, ?set_items_items.

(** A step described by a rule about the chains [H]. *)
Tactic Notation "rule" constr(lem) constr(H) :=
  erewrite bind_quiet;
  [|eapply lem; [exact H|..]; first [done | lia | rewrite ?length_app; simpl; lia]]; cbv beta iota.

Section operations.
Context (self : ptr) (Hself : self <> NULL) (fl : option bool).
Implicit Types (h : heap).

Lemma self_null : (self =? NULL) = false.
Proof. by apply Z.eqb_neq. Qed.

Lemma adopt_ok h q xs cs l :
  xs <> [] -> (q = NULL \/ q = self) -> begin_ l = first xs NULL ->
  segs (items h) (Chain q NULL xs NULL :: cs) ->
  exists m, adopt self (put_list self l h) = Ok (tt, put_list self l (set_items m h), [])
    /\ segs m (Chain self NULL xs NULL :: cs).
Proof.
  intros Hxs Hq Hb Hs. unfold adopt. ld. rewrite Hb.
  rd (parent_first (put_list self l h) _ _ _ _ _ Hs NULL Hxs).
  destruct Hq as [->| ->].
  - cbn [Z.eqb NULL]. rewrite first_at.
    wr (set_list_parent_ok (put_list self l h) NULL self xs 0 cs Hs ltac:(by apply nonempty_length)) as m S.
    by exists m.
  - rewrite self_null. exists (items h). by rewrite set_items_items.
Qed.
Lemma not_free_false h ys i cs :
  segs (items h) (Chain NULL NULL ys NULL :: cs) -> (i < length ys)%nat ->
  not_free (at_ ys i) h = Ok (false, h, []).
Proof. exact (rejected_false h ys cs i). Qed.

Lemma push_back_dlist h xs ys j cs :
  (j < length ys)%nat -> Z.of_nat (length xs + length ys) < 2 ^ 64 ->
  segs (items h) (Chain self NULL xs NULL :: Chain NULL NULL ys NULL :: cs) ->
  exists m, DList_push_back self (at_ ys j) (put_list self (summary xs fl) h)
      = Ok (ALIB_OK, put_list self (summary (xs ++ ys) fl) (set_items m h), [])
    /\ segs m (Chain self NULL (xs ++ ys) NULL :: cs).
Proof.
  intros Hj Hsz Hs. assert (Hys : ys <> []) by (apply nonempty_length; lia).
  assert (Hsw := segs_swap _ _ _ _ Hs). unfold DList_push_back. rewrite self_null.
  rule not_free_false Hsw. rule count_ok Hsw. ld. destruct (decide (xs = [])) as [->|Hxs].
  - cbn [summary first last app length begin_ end_ count] in *.
    unfold DListItem_push_back. cbn [Z.eqb NULL]. rewrite segs_empty in Hs.
    rule first_of Hsw. st. st. cbn [Z.eqb NULL]. st.
    rule last_of_first Hs. st.
    destruct (adopt_ok h NULL ys cs (summary ys fl) Hys (or_introl eq_refl) eq_refl Hs) as (m & E & S).
    rewrite u64_small by lia. rewrite (bind_quiet _ _ _ _ _ E). by exists m.
  - apply nonempty_length in Hxs as Hx0.
    destruct (push_back_ok (put_list self (summary xs fl) h) self xs (length xs - 1) ys j cs
      ltac:(lia) Hj Hs) as (m1 & E1 & S1).
    rewrite at_last in E1. cbn [summary begin_ end_ count]. rewrite (bind_quiet _ _ _ _ _ E1). whole.
    st. st. rewrite (first_null _ _ _ _ _ _ Hs Hxs), bind_mret.
    replace (first ys NULL) with (at_ (xs ++ ys) (length xs)) by (symmetry; apply first_at_app).
    rule last_of S1. st.
    destruct (adopt_ok (set_items m1 h) self (xs ++ ys) cs (summary (xs ++ ys) fl))
      as (m & E & S); [by destruct xs|by right|done|done|].
    exists m. split; [|done].
    assert (Hf : first (xs ++ ys) NULL = first xs NULL) by (rewrite first_app; by apply first_nonempty).
    unfold summary in *. rewrite Hf, length_app, Nat2Z.inj_add in *. rewrite u64_small by lia.
    by rewrite (bind_quiet _ _ _ _ _ E).
Qed.

Lemma push_forward_dlist h xs ys j cs :
  (j < length ys)%nat -> Z.of_nat (length xs + length ys) < 2 ^ 64 ->
  segs (items h) (Chain self NULL xs NULL :: Chain NULL NULL ys NULL :: cs) ->
  exists m, DList_push_forward self (at_ ys j) (put_list self (summary xs fl) h)
      = Ok (ALIB_OK, put_list self (summary (ys ++ xs) fl) (set_items m h), [])
    /\ segs m (Chain self NULL (ys ++ xs) NULL :: cs).
Proof.
  intros Hj Hsz Hs. assert (Hys : ys <> []) by (apply nonempty_length; lia).
  assert (Hsw := segs_swap _ _ _ _ Hs). unfold DList_push_forward. rewrite self_null.
  rule not_free_false Hsw. rule count_ok Hsw. ld. destruct (decide (xs = [])) as [->|Hxs].
  - cbn [summary first last app length begin_ end_ count] in *. rewrite app_nil_r.
    unfold DListItem_push_forward. cbn [Z.eqb NULL]. rewrite segs_empty in Hs.
    rule first_of Hsw. st. st. cbn [Z.eqb NULL]. rewrite bind_bind.
    rule last_of_first Hs. st.
    destruct (adopt_ok h NULL ys cs (summary ys fl) Hys (or_introl eq_refl) eq_refl Hs) as (m & E & S).
    rewrite u64_small by lia. rewrite (bind_quiet _ _ _ _ _ E). by exists m.
  - apply nonempty_length in Hxs as Hx0.
    destruct (push_forward_ok (put_list self (summary xs fl) h) self xs 0 ys j cs
      Hx0 Hj Hs) as (m1 & E1 & S1).
    rewrite at_first in E1. cbn [summary begin_ end_ count]. rewrite (bind_quiet _ _ _ _ _ E1). whole.
    st. st. rewrite (last_null _ _ _ _ _ _ Hs Hxs), bind_mret.
    destruct (adopt_ok (set_items m1 h) self (ys ++ xs) cs (summary (ys ++ xs) fl))
      as (m & E & S); [by destruct ys|by right|done|done|].
    exists m. split; [|done].
    assert (Hf : first (ys ++ xs) NULL = first ys NULL) by (rewrite first_app; by apply first_nonempty).
    assert (Hl : last NULL (ys ++ xs) = last NULL xs) by (rewrite last_app; by apply last_nonempty).
    unfold summary in *. rewrite Hf, Hl, length_app, Nat2Z.inj_add in *. rewrite u64_small by lia.
    rewrite (Z.add_comm (Z.of_nat (length xs))). by rewrite (bind_quiet _ _ _ _ _ E).
Qed.

(** The item at an index, found from either end. *)
Section position.
Context (h : heap) (xs : list item) (cs : list chain).
Hypothesis Hs : segs (items h) (Chain self NULL xs NULL :: cs).
Hypothesis Hsize : Z.of_nat (length xs) < 2 ^ 62.
Lemma pos_ok (i n index len : Z) :
  i + n = index -> 0 <= index < len -> Z.to_nat (Z.min (Z.max 0 (i + n)) (len - 1)) = Z.to_nat index.
Proof. lia. Qed.
Lemma front_ok (index : Z) : 0 <= index < Z.of_nat (length xs) ->
  exists e, DListItem_get_by_relative_index (first xs NULL) (s64 index) h
    = Ok ((at_ xs (Z.to_nat index), e), h, []).
Proof.
  intros Hi. rewrite s64_small, first_at by lia. eexists.
  by rewrite (relative_ok _ _ _ _ Hs), (pos_ok _ _ index) by lia.
Qed.
Lemma back_ok (index : Z) : 0 <= index < Z.of_nat (length xs) ->
  exists e, DListItem_get_by_relative_index (last NULL xs) (from_end (summary xs fl) index) h
    = Ok ((at_ xs (Z.to_nat index), e), h, []).
Proof.
  intros Hi. rewrite <- at_last. eexists. rewrite (relative_ok _ _ _ _ Hs) by lia.
  assert (Hfe : from_end (summary xs fl) index = index - (Z.of_nat (length xs) - 1)); [|by rewrite Hfe, (pos_ok _ _ index) by lia].
  unfold from_end, summary. cbn [count]. rewrite (u64_small (_ - 1)) by lia.
  apply s64_u64. lia.
Qed.
Lemma inner_ok (index : Z) : 0 <= index < Z.of_nat (length xs) ->
  inner_item (summary xs fl) index h = Ok (at_ xs (Z.to_nat index), h, []).
Proof.
  intros Hi. unfold inner_item. cbn [summary count begin_ end_].
  destruct (index <? Z.of_nat (length xs) / 2).
  - destruct (front_ok index Hi) as [e E]. by rewrite (bind_quiet _ _ _ _ _ E).
  - destruct (back_ok index Hi) as [e E]. by rewrite (bind_quiet _ _ _ _ _ E).
Qed.
End position.

Lemma get_dlist h xs cs (index : Z) :
  segs (items h) (Chain self NULL xs NULL :: cs) -> Z.of_nat (length xs) < 2 ^ 62 ->
  0 <= index -> DList_get self index (put_list self (summary xs fl) h)
    = Ok (at_ xs (Z.to_nat index), put_list self (summary xs fl) h, []).
Proof.
  intros Hs Hsz Hi. unfold DList_get. rewrite self_null. ld. rewrite Z.geb_leb. case_cmp.
  { by rewrite at_past by lia. }
  destruct (Z.eqb_spec index 0) as [->|]; [by rewrite at_first|].
  by apply (inner_ok (put_list self (summary xs fl) h) xs cs).
Qed.

(** The item at an index that is not the first one is inserted before. *)
Lemma insert_before_index h xs ys j (index : Z) cs :
  0 < index < Z.of_nat (length xs) -> (j < length ys)%nat ->
  segs (items h) (Chain self NULL xs NULL :: Chain NULL NULL ys NULL :: cs) ->
  let xs' := take (Z.to_nat index) xs ++ ys ++ drop (Z.to_nat index) xs in
  exists m, DListItem_insert_before (at_ xs (Z.to_nat index)) (at_ ys j) h
      = Ok (first ys NULL, set_items m h, [])
    /\ segs m (Chain self NULL xs' NULL :: cs) /\ last NULL xs = last NULL xs'.
Proof.
  intros Hi Hj Hs xs'. set (A := take (Z.to_nat index) xs). set (D := drop (Z.to_nat index) xs).
  assert (HA : length A = Z.to_nat index) by (unfold A; rewrite length_take; lia).
  assert (HD : length D = (length xs - Z.to_nat index)%nat) by (unfold D; by rewrite length_drop).
  assert (Hxs' : xs = A ++ D) by (unfold A, D; by rewrite take_drop).
  assert (A <> []) by (apply nonempty_length; lia). assert (D <> []) by (apply nonempty_length; lia).
  rewrite Hxs' in Hs.
  destruct (insert_before_ok h self A D ys j cs) as (m & E & S); [done..|].
  exists m. split; [|split; [done|]].
  - rewrite <- E. f_equal. rewrite Hxs', <- HA. symmetry. apply first_at_app.
  - unfold xs'. fold A D. rewrite Hxs', !last_app. by apply last_nonempty.
Qed.
(** The last statements of [DList_insert]. *)
Lemma adopt_and_count h xs (e : ptr) (n k : Z) cs :
  xs <> [] -> e = last NULL xs -> n + k = Z.of_nat (length xs) -> Z.of_nat (length xs) < 2 ^ 62 ->
  segs (items h) (Chain self NULL xs NULL :: cs) ->
  exists m, (adopt self;; l ← load_list self; store_list self (set_count (u64 (count l + k)));;
      mret ALIB_OK) (put_list self (mkDList (first xs NULL) e n fl) h)
    = Ok (ALIB_OK, put_list self (summary xs fl) (set_items m h), [])
    /\ segs m (Chain self NULL xs NULL :: cs).
Proof.
  intros Hxs -> Hn Hsz Hs.
  destruct (adopt_ok h self xs cs (mkDList (first xs NULL) (last NULL xs) n fl)
    Hxs (or_intror eq_refl) eq_refl Hs) as (m & E & S).
  exists m. split; [|done]. rewrite (bind_quiet _ _ _ _ _ E). ld. st. by rewrite Hn, u64_small by lia.
Qed.

(** [DList_insert], where the code does not go through NULL. *)
Lemma insert_dlist h xs ys j (index : Z) cs :
  0 <= index -> (xs = [] \/ 0 < index) ->
  (j < length ys)%nat -> Z.of_nat (length xs + length ys) < 2 ^ 62 ->
  segs (items h) (Chain self NULL xs NULL :: Chain NULL NULL ys NULL :: cs) ->
  let xs' := take (Z.to_nat index) xs ++ ys ++ drop (Z.to_nat index) xs in
  exists m, DList_insert self index (at_ ys j) (put_list self (summary xs fl) h)
      = Ok (ALIB_OK, put_list self (summary xs' fl) (set_items m h), [])
    /\ segs m (Chain self NULL xs' NULL :: cs).
Proof.
  intros Hi0 Hi Hj Hsz Hs xs'. assert (Hys : ys <> []) by (apply nonempty_length; lia).
  assert (Hsw := segs_swap _ _ _ _ Hs). unfold DList_insert. rewrite self_null.
  rule not_free_false Hsw. rule count_ok Hsw. ld. rewrite Z.geb_leb.
  destruct (decide (xs = [])) as [->|Hxs]; [|destruct Hi as [?|Hi]; [done|]].
  - unfold xs'. rewrite take_nil, drop_nil, app_nil_r. cbn [first last app length Z.eqb NULL] in *.
    rewrite segs_empty in Hs. rewrite !bind_bind.
    rule first_of Hs. rewrite !bind_bind. st. rewrite bind_bind. rule last_of Hs. st.
    destruct (adopt_ok h NULL ys cs (mkDList (first ys NULL) (last NULL ys) 0 fl)
      Hys (or_introl eq_refl) eq_refl Hs) as (m & E & S).
    rewrite (bind_quiet _ _ _ _ _ E). ld. st. rewrite u64_small by lia. by exists m.
  - rewrite (first_null _ _ _ _ _ _ Hs Hxs). apply nonempty_length in Hxs as Hx0.
    assert (Hx' : xs' <> []) by (unfold xs'; destruct (take _ xs), ys; done).
    assert (Hlen : Z.of_nat (length xs') = Z.of_nat (length xs) + Z.of_nat (length ys))
      by (unfold xs'; rewrite !length_app, length_take, length_drop; lia).
    assert (Hf : first xs NULL = first xs' NULL).
    { unfold xs'. rewrite first_app. destruct xs; [done|]. destruct (Z.to_nat index) eqn:?; [lia|done]. }
    assert (Hins := insert_before_index (put_list self (summary xs fl) h) xs ys j index cs).
    cbv zeta in Hins. fold xs' in Hins. rewrite Hf.
    destruct (Z.leb_spec (Z.of_nat (length xs)) index);
      [|destruct (Z.ltb_spec index (Z.of_nat (length xs) / 2))]; rewrite bind_bind.
    + destruct (insert_after_ok (put_list self (summary xs fl) h) self xs [] ys j cs
        Hxs Hj) as (m1 & E1 & S1); [by rewrite app_nil_r|].
      rewrite (bind_quiet _ _ _ _ _ E1). whole. rewrite bind_bind.
      replace (last NULL xs) with (at_ (xs ++ ys ++ []) (length xs - 1)) by (symmetry; by apply last_at_app).
      rule last_of S1. st. unfold xs' in *. rewrite take_ge, drop_ge in * by lia.
      rewrite set_end_summary, Hf.
      by apply (adopt_and_count (set_items m1 h)); try lia.
    + destruct (front_ok (put_list self (summary xs fl) h) xs _ Hs ltac:(lia) index ltac:(lia)) as [e Hfr].
      rewrite <- Hf, (bind_quiet _ _ _ _ _ Hfr). cbv beta iota. rewrite bind_bind.
      destruct Hins as (m1 & E1 & S1 & Hl); [lia|done|done|]. rewrite (bind_quiet _ _ _ _ _ E1). whole.
      rewrite bind_mret. unfold summary at 1. rewrite Hf. by apply (adopt_and_count (set_items m1 h)); try lia.
    + destruct (back_ok (put_list self (summary xs fl) h) xs _ Hs ltac:(lia) index ltac:(lia)) as [e Hba].
      rewrite (bind_quiet _ _ _ _ _ Hba). cbv beta iota. rewrite bind_bind.
      destruct Hins as (m1 & E1 & S1 & Hl); [lia|done|done|]. rewrite (bind_quiet _ _ _ _ _ E1). whole.
      rewrite bind_mret. unfold summary at 1. rewrite Hf. by apply (adopt_and_count (set_items m1 h)); try lia.
Qed.

(** * Removal *)
Lemma at_middle A x B : at_ (A ++ [x] ++ B) (length A) = addr x.
Proof. apply at_lookup. by apply list_lookup_middle. Qed.
Lemma last_snoc A x : last NULL (A ++ [x]) = addr x.
Proof. by rewrite last_app. Qed.

(** The object after a deletion, before its count is decremented. *)
Definition stale_count (A B : list item) : DList :=
  mkDList (first (A ++ B) NULL) (last NULL (A ++ B)) (Z.of_nat (length (A ++ B)) + 1) fl.

Section removal.
Context (h : heap) (A : list item) (x : item) (B : list item) (cs : list chain).
Hypothesis Hsize : Z.of_nat (length (A ++ [x] ++ B)) < 2 ^ 62.
Hypothesis Hs : segs (items h) (Chain self NULL (A ++ [x] ++ B) NULL :: cs).
Hypothesis Hv : obj x = NULL \/ is_Some (vals h !! obj x).
Notation xs := (A ++ [x] ++ B).
(** The rest of the heap after the deletion, and the calls of the free
    callback. *)
Notation after m := (mkHeap m (drop_val (obj x) (vals h)).1 (lists h)).
Notation ev := (drop_val (obj x) (vals h)).2.

Lemma del_item_ok l : exists m,
  delDListItem (Some (addr x)) (put_list self l h)
    = Ok (Some (neighbour A B), put_list self l (after m), ev)
  /\ segs m (Chain self NULL (A ++ B) NULL :: cs).
Proof. exact (delDListItem_ok (put_list self l h) self A x B cs Hs Hv). Qed.

Lemma count_xs : Z.of_nat (length xs) = Z.of_nat (length (A ++ B)) + 1.
Proof. rewrite !length_app. simpl. lia. Qed.
Lemma del_begin_ok :
  A = [] -> exists m, del_begin self (put_list self (summary xs fl) h)
    = Ok (tt, put_list self (stale_count A B) (after m), ev)
  /\ segs m (Chain self NULL (A ++ B) NULL :: cs).
Proof.
  intros HA. destruct (del_item_ok (summary xs fl)) as (m & E & S). exists m. split; [|done].
  pose proof count_xs as Hc. unfold del_begin. ld. rewrite HA in *. cbn [app] in *.
  eapply bind_loud; [exact E|].
  change (neighbour [] B) with (first B NULL). erewrite bind_lift by done. st.
  unfold stale_count, when. cbn [app] in *. rewrite <- Hc.
  destruct (decide (B = [])) as [->|HB]; [cbn [first Z.eqb NULL]; by rewrite store_list_ok|].
  rewrite (first_null _ _ _ _ _ _ S HB). unfold summary, set_begin. simpl.
  by rewrite (last_nonempty (addr x) NULL B HB).
Qed.
Lemma del_end_ok :
  A <> [] -> B = [] -> exists m, del_end self (put_list self (summary xs fl) h)
    = Ok (tt, put_list self (stale_count A B) (after m), ev)
  /\ segs m (Chain self NULL (A ++ B) NULL :: cs).
Proof.
  intros HA HB. destruct (del_item_ok (summary xs fl)) as (m & E & S). exists m. split; [|done].
  pose proof count_xs as Hc. unfold del_end. ld. rewrite HB in *. rewrite app_nil_r in *.
  rewrite last_snoc. eapply bind_loud; [exact E|].
  unfold neighbour. rewrite (last_null _ _ _ _ _ _ S HA). erewrite bind_lift by done.
  rewrite store_list_ok by done. unfold stale_count. rewrite !app_nil_r in *. rewrite <- Hc.
  unfold summary, set_end. simpl. by rewrite first_app, (first_nonempty _ NULL A HA).
Qed.
Lemma del_inner_ok :
  A <> [] -> B <> [] -> exists m, (delDListItem (Some (addr x));; mret tt) (put_list self (summary xs fl) h)
    = Ok (tt, put_list self (stale_count A B) (after m), ev)
  /\ segs m (Chain self NULL (A ++ B) NULL :: cs).
Proof.
  intros HA HB. destruct (del_item_ok (summary xs fl)) as (m & E & S). exists m. split; [|done].
  eapply bind_loud; [exact E|]. unfold stale_count, summary, mret, M_ret.
  rewrite count_xs. replace (first xs NULL) with (first (A ++ B) NULL) by (by destruct A).
  by replace (last NULL xs) with (last NULL (A ++ B)) by (rewrite !last_app; by destruct B).
Qed.
Lemma decr_count_ok h' :
  (decr_count self;; mret ALIB_OK) (put_list self (stale_count A B) h')
    = Ok (ALIB_OK, put_list self (summary (A ++ B) fl) h', []).
Proof.
  unfold decr_count. st. unfold stale_count, set_count. cbn [count begin_ end_].
  rewrite u64_small; [|rewrite count_xs in Hsize; lia].
  unfold summary. simpl. by rewrite Z.add_simpl_r.
Qed.

(** [DList_remove]: the item at the index and its reference to its value go. *)
Lemma remove_dlist : exists m,
  DList_remove self (Z.of_nat (length A)) (put_list self (summary xs fl) h)
    = Ok (ALIB_OK, put_list self (summary (A ++ B) fl) (after m), ev)
  /\ segs m (Chain self NULL (A ++ B) NULL :: cs).
Proof.
  unfold DList_remove. rewrite self_null. ld. rewrite Z.geb_leb.
  assert (Hlen : length xs = (length A + 1 + length B)%nat) by (rewrite !length_app; simpl; lia).
  rewrite (proj2 (Z.leb_gt _ _)) by lia.
  destruct (Z.eqb_spec (Z.of_nat (length A)) 0); [|destruct (Z.eqb_spec (Z.of_nat (length A))
    (Z.of_nat (length xs) - 1))].
  - destruct del_begin_ok as (m & E & S); [destruct A; [done|simpl in *; lia]|].
    exists m. split; [|done]. eapply bind_loud; [exact E|]. apply decr_count_ok.
  - destruct del_end_ok as (m & E & S); [apply nonempty_length; lia|destruct B; [done|simpl in *; lia]|].
    exists m. split; [|done]. eapply bind_loud; [exact E|]. apply decr_count_ok.
  - destruct del_inner_ok as (m & E & S); [apply nonempty_length; lia..|].
    exists m. split; [|done]. rewrite bind_bind.
    rewrite (bind_quiet _ _ _ _ _ (inner_ok (put_list self (summary xs fl) h) xs cs Hs Hsize
      (Z.of_nat (length A)) ltac:(lia))).
    rewrite Nat2Z.id, at_middle. eapply bind_loud; [exact E|]. apply decr_count_ok.
Qed.
(** [DList_remove_item], of an item of the list. *)
Lemma remove_item_dlist : exists m,
  DList_remove_item self (addr x) (put_list self (summary xs fl) h)
    = Ok (ALIB_OK, put_list self (summary (A ++ B) fl) (after m), ev)
  /\ segs m (Chain self NULL (A ++ B) NULL :: cs).
Proof.
  unfold DList_remove_item. rewrite self_null.
  assert (Hpar : parent_of (addr x) (put_list self (summary xs fl) h)
    = Ok (self, put_list self (summary xs fl) h, [])).
  { rewrite <- (at_middle A x B). apply (parent_at (put_list self (summary xs fl) h) _ _ _ Hs).
    rewrite length_app. simpl. lia. }
  rewrite (bind_quiet _ _ _ _ _ Hpar), Z.eqb_refl. cbn [negb]. ld.
  replace (addr x =? first xs NULL) with (at_ xs (length A) =? at_ xs 0)
    by (by rewrite at_middle, at_first).
  replace (addr x =? last NULL xs) with (at_ xs (length A) =? at_ xs (length xs - 1))
    by (by rewrite at_middle, at_last).
  assert (Hlen : length xs = (length A + 1 + length B)%nat) by (rewrite !length_app; simpl; lia).
  destruct (Z.eqb_spec (at_ xs (length A)) (at_ xs 0)) as [H0|H0];
    [|destruct (Z.eqb_spec (at_ xs (length A)) (at_ xs (length xs - 1))) as [H1|H1]].
  - apply (at_inj _ _ _ _ Hs) in H0; [|lia..].
    destruct del_begin_ok as (m & E & S); [by destruct A|].
    exists m. split; [|done]. eapply bind_loud; [exact E|]. apply decr_count_ok.
  - apply (at_inj _ _ _ _ Hs) in H1; [|lia..].
    assert (length A <> 0%nat) by (intros Hz; apply H0; by rewrite Hz).
    destruct del_end_ok as (m & E & S); [apply nonempty_length; lia|destruct B; [done|simpl in *; lia]|].
    exists m. split; [|done]. eapply bind_loud; [exact E|]. apply decr_count_ok.
  - destruct del_inner_ok as (m & E & S).
    + intros HA. apply H0. by rewrite HA.
    + intros HB. apply H1. f_equal. rewrite HB in *. simpl in *. lia.
    + exists m. split; [|done]. eapply bind_loud; [exact E|]. apply decr_count_ok.
Qed.
End removal.

(** * Moving *)
Lemma at_rem (xs : list item) (i k : nat) : (i < length xs)%nat ->
  at_ (take i xs ++ drop (S i) xs) k = at_ xs (if decide (k < i)%nat then k else S k).
Proof.
  intros Hi. unfold at_. case_decide.
  - by rewrite lookup_app_l, lookup_take_lt by (rewrite ?length_take; lia).
  - rewrite lookup_app_r, lookup_drop, length_take by (rewrite ?length_take; lia).
    by replace (S i + (k - i `min` length xs))%nat with (S k) by lia.
Qed.
Lemma at_ins (ys : list item) x (j k : nat) : (j <= length ys)%nat ->
  at_ (take j ys ++ x :: drop j ys) k =
    if decide (k < j)%nat then at_ ys k else if decide (k = j) then addr x else at_ ys (k - 1).
Proof.
  intros Hj. unfold at_. case_decide.
  - by rewrite lookup_app_l, lookup_take_lt by (rewrite ?length_take; lia).
  - rewrite lookup_app_r by (rewrite ?length_take; lia). rewrite length_take, Nat.min_l by lia.
    case_decide as E; [by rewrite E, Nat.sub_diag|].
    destruct (k - j)%nat as [|d] eqn:Ed; [lia|]. simpl. rewrite lookup_drop.
    by replace (j + d)%nat with (k - 1)%nat by lia.
Qed.

Section moving.
Context (h : heap) (xs : list item) (cs : list chain) (i j : Z).
Hypothesis Hs : segs (items h) (Chain self NULL xs NULL :: cs).
Hypothesis Hsize : Z.of_nat (length xs) < 2 ^ 62.
Hypothesis Hi : 0 <= i < Z.of_nat (length xs).
Hypothesis Hj : 0 <= j < 2 ^ 62.
Hypothesis Hij : i <> j.
Hypothesis Htwo : (2 <= length xs)%nat.
#[local] Notation n := (length xs).
#[local] Notation j' := (Z.min j (Z.of_nat n - 1)).
#[local] Notation xs' := (move_to (Z.to_nat i) (Z.to_nat j') xs).
(** The ends of the list without the moved item, where [DList_move] puts its
    pointers. *)
#[local] Notation b := (at_ xs (if decide (i = 0) then 1 else 0)).
#[local] Notation e := (at_ xs (if decide (i = Z.of_nat n - 1) then n - 2 else n - 1)).

Lemma moved_length : length xs' = n.
Proof.
  unfold move_to. destruct (lookup_lt_is_Some_2 xs (Z.to_nat i)) as [x ->]; [lia|].
  rewrite length_app, length_take. cbn [length]. rewrite length_drop, !length_app, length_take, length_drop.
  lia.
Qed.
Lemma moved_at (k : nat) : exists x,
  at_ xs' k = if decide (k < Z.to_nat j')%nat then at_ xs (if decide (k < Z.to_nat i)%nat then k else S k)
    else if decide (k = Z.to_nat j') then addr x
    else at_ xs (if decide (k - 1 < Z.to_nat i)%nat then k - 1 else S (k - 1)).
Proof.
  unfold move_to. destruct (lookup_lt_is_Some_2 xs (Z.to_nat i)) as [x ->]; [lia|].
  exists x. rewrite at_ins, !at_rem; [done|lia..|].
  rewrite length_app, length_take, length_drop. lia.
Qed.
Lemma moved_first : 0 < j -> first xs' NULL = b.
Proof.
  intros H. rewrite first_at. destruct (moved_at (0)) as [x Hx]. rewrite Hx.
  rewrite decide_True by lia. destruct (decide (i = 0)); [by rewrite decide_False by lia|].
  by rewrite decide_True by lia.
Qed.
Lemma moved_first_inv : j = 0 -> b = at_ xs' 1.
Proof.
  intros Hj0. destruct (moved_at 1) as [x Hx]. rewrite Hx.
  by rewrite decide_False, decide_False, decide_False, decide_True by lia.
Qed.
Lemma moved_last : j < Z.of_nat n - 1 -> last NULL xs' = e.
Proof.
  intros H. rewrite <- at_last, moved_length. destruct (moved_at (n - 1)) as [x Hx]. rewrite Hx.
  rewrite decide_False, decide_False by lia.
  destruct (decide (i = _)); [rewrite decide_True by lia; f_equal; lia|].
  rewrite decide_False by lia. f_equal. lia.
Qed.
Lemma moved_last_inv : Z.of_nat n <= j -> e = at_ xs' (n - 2).
Proof.
  intros H. destruct (moved_at (n - 2)) as [x Hx]. rewrite Hx.
  destruct (decide (i = _)); [by rewrite decide_True, decide_True by lia|].
  rewrite decide_True, decide_False by lia. f_equal. lia.
Qed.

(** The pointers once [DList_move] has stepped them off the moved item. *)
Definition stepped : DList := mkDList b e (Z.of_nat n) fl.
Lemma step_ends {X} (k : unit -> M heap X) :
  (_ ← (if i =? 0 then p ← next_of (begin_ (summary xs fl)); store_list self (set_begin p) else mret tt);
   _ ← (if i =? u64 (Z.of_nat n - 1) then p ← prev_of (end_ (summary xs fl)); store_list self (set_end p)
        else mret tt); k tt) (put_list self (summary xs fl) h)
  = k tt (put_list self stepped h).
Proof.
  cbn [summary begin_ end_]. rewrite first_at, <- at_last, u64_small by lia. unfold stepped.
  destruct (Z.eqb_spec i 0) as [H0|H0]; rewrite ?bind_bind, ?bind_mret.
  - rule next_at Hs. st. rewrite (proj2 (Z.eqb_neq i _)) by lia. rewrite bind_mret.
    by rewrite decide_True, decide_False, at_last by lia.
  - rewrite decide_False by lia.
    destruct (Z.eqb_spec i (Z.of_nat n - 1)); rewrite ?bind_bind, ?bind_mret.
    + rule prev_at Hs. st. rewrite decide_True by lia.
      replace (n - 1)%nat with (S (n - 2)) by lia. unfold summary, set_end. simpl. by rewrite at_first.
    + by rewrite decide_False, at_first, at_last by lia.
Qed.

(** [DList_move] of an existing item, to an index that is not the last one. *)
Lemma move_dlist :
  j <> Z.of_nat n - 1 ->
  exists m, DList_move self i j (put_list self (summary xs fl) h)
      = Ok (j', put_list self (summary xs' fl) (set_items m h), [])
    /\ segs m (Chain self NULL xs' NULL :: cs).
Proof.
  intros Hlast.
  assert (Hmv : exists m, DListItem_move b i j (put_list self stepped h)
      = Ok (j', set_items m (put_list self stepped h), [])
    /\ segs m (Chain self NULL xs' NULL :: cs)).
  { assert ((if decide (i = 0%Z) then 1 else 0) < n)%nat by (case_decide; lia).
    destruct (decide (i < j)); [by apply move_up_ok; auto with lia|].
    rewrite Z.min_l by lia. by apply move_down_ok; auto with lia. }
  destruct Hmv as (m & E & S). exists m. split; [|done].
  unfold DList_move. rewrite self_null. ld.
  rewrite (proj2 (Z.eqb_neq i j)), (proj2 (Z.eqb_neq (Z.of_nat _) 1)) by lia. cbn [orb].
  rewrite (step_ends (fun _ => _)). ld. cbn [stepped begin_ end_ count].
  rewrite (bind_quiet _ _ _ _ _ E). whole.
  assert (Hr : s64 (u64 j') = j') by (apply s64_u64; lia). rewrite Hr.
  assert (Hn : length xs' = n) by apply moved_length.
  destruct (Z.eqb_spec j 0) as [Hj0|Hj0]; [|rewrite Z.geb_leb; destruct (Z.leb_spec (Z.of_nat n) j)].
  - rewrite bind_bind, (moved_first_inv Hj0). rule first_of S. st.
    unfold summary, set_begin, mret, M_ret. cbn [stepped end_ count items_ready_for_removal].
    by rewrite Hn, moved_last by lia.
  - rewrite bind_bind, (moved_last_inv ltac:(done)). rule last_of S. st.
    unfold summary, set_end, mret, M_ret. cbn [stepped begin_ count items_ready_for_removal].
    by rewrite Hn, moved_first by lia.
  - rewrite bind_mret. unfold stepped, summary, mret, M_ret.
    by rewrite Hn, moved_first, moved_last by lia.
Qed.
End moving.

(** A move from an index past the end. *)
Lemma move_refused h xs cs (i j : Z) :
  segs (items h) (Chain self NULL xs NULL :: cs) ->
  Z.of_nat (length xs) <= i < 2 ^ 62 -> 0 <= j < 2 ^ 62 -> i <> j ->
  Z.of_nat (length xs) <> 1 -> (0 < Z.of_nat (length xs) \/ 0 < i) ->
  DList_move self i j (put_list self (summary xs fl) h)
  = Ok (if Z.of_nat (length xs) =? 0 then ALIB_BAD_ARG else ALIB_BAD_INDEX,
        put_list self (summary xs fl) h, []).
Proof.
  intros Hs Hi Hj Hij Hn Hne. unfold DList_move. rewrite self_null. ld.
  rewrite (proj2 (Z.eqb_neq i j)), (proj2 (Z.eqb_neq (Z.of_nat _) 1)), (proj2 (Z.eqb_neq i 0)) by lia.
  cbn [orb]. rewrite bind_mret.
  assert (Hw : (i =? u64 (Z.of_nat (length xs) - 1)) = false).
  { apply Z.eqb_neq. destruct (decide (xs = [])) as [->|Hx%nonempty_length].
    - change (u64 _) with (2 ^ 64 - 1). lia.
    - rewrite u64_small by lia. lia. }
  rewrite Hw, bind_mret. ld. rewrite Z.geb_leb.
  assert (Hput : forall p, p = first xs NULL -> put_list self (set_begin p (summary xs fl)) h
    = put_list self (summary xs fl) h) by (intros p ->; done).
  assert (Hput' : forall p, p = last NULL xs -> put_list self (set_end p (summary xs fl)) h
    = put_list self (summary xs fl) h) by (intros p ->; done).
  destruct (decide (xs = [])) as [->|Hxs].
  - unfold DListItem_move. cbn [first last Z.eqb NULL]. rewrite bind_mret.
    destruct (Z.eqb_spec j 0); [|rewrite (proj2 (Z.leb_le _ _)) by (simpl; lia)]; rewrite bind_bind;
      cbn [DListItem_get_first_item DListItem_get_last_item Z.eqb NULL]; rewrite bind_mret; st;
      by rewrite ?Hput, ?Hput' by done.
  - apply nonempty_length in Hxs as Hx0. rewrite (proj2 (Z.eqb_neq (Z.of_nat _) 0)) by lia.
    assert (E : DListItem_move (first xs NULL) i j (put_list self (summary xs fl) h)
      = Ok (ALIB_BAD_INDEX, put_list self (summary xs fl) h, [])).
    { rewrite first_at. by apply (move_bad_ok (put_list self (summary xs fl) h) self xs cs Hs); lia. }
    rewrite (bind_quiet _ _ _ _ _ E).
    destruct (Z.eqb_spec j 0); [|destruct (Z.leb_spec (Z.of_nat (length xs)) j)].
    + rewrite bind_bind, first_at. rule first_of Hs. st. by rewrite Hput by done.
    + rewrite bind_bind, <- at_last. rule last_of Hs. st. by rewrite Hput' by done.
    + done.
Qed.

(** [DList_insert] in front of the first item. *)
Lemma insert_first_crash h xs ys j cs :
  xs <> [] -> (j < length ys)%nat -> Z.of_nat (length xs) < 2 ^ 62 -> Z.of_nat (length ys) < 2 ^ 64 ->
  segs (items h) (Chain self NULL xs NULL :: Chain NULL NULL ys NULL :: cs) ->
  DList_insert self 0 (at_ ys j) (put_list self (summary xs fl) h) = UB NullDeref.
Proof.
  intros Hxs Hj Hsz Hsz' Hs. assert (Hsw := segs_swap _ _ _ _ Hs). apply nonempty_length in Hxs as Hx0.
  unfold DList_insert. rewrite self_null. rule not_free_false Hsw. rule count_ok Hsw. ld.
  rewrite (first_null _ _ _ _ _ _ Hs Hxs), Z.geb_leb, (proj2 (Z.leb_gt _ _)) by lia. apply bind_UB.
  assert (Hcrash := insert_before_first (put_list self (summary xs fl) h) self xs ys j cs Hxs Hj Hs).
  rewrite first_at in Hcrash. destruct (0 <? Z.of_nat (length xs) / 2).
  - destruct (front_ok (put_list self (summary xs fl) h) xs _ Hs ltac:(lia) 0 ltac:(lia)) as [e E].
    rewrite (bind_quiet _ _ _ _ _ E). by apply bind_UB.
  - destruct (back_ok (put_list self (summary xs fl) h) xs _ Hs ltac:(lia) 0 ltac:(lia)) as [e E].
    rewrite (bind_quiet _ _ _ _ _ E). by apply bind_UB.
Qed.

(** [DList_move] of an item that is not the last one, to the last index. *)
Lemma move_last_dlist h xs cs (i : Z) :
  segs (items h) (Chain self NULL xs NULL :: cs) -> Z.of_nat (length xs) < 2 ^ 62 ->
  0 <= i < Z.of_nat (length xs) - 1 ->
  let xs' := move_to (Z.to_nat i) (length xs - 1) xs in
  exists m, DList_move self i (Z.of_nat (length xs) - 1) (put_list self (summary xs fl) h)
      = Ok (Z.of_nat (length xs) - 1,
            put_list self (mkDList (first xs' NULL) (at_ xs' (length xs - 2)) (Z.of_nat (length xs)) fl)
              (set_items m h), [])
    /\ segs m (Chain self NULL xs' NULL :: cs).
Proof.
  intros Hs Hsz Hi xs'.
  assert (Hlt : ((if decide (i = 0%Z) then 1 else 0) < length xs)%nat) by (case_decide; lia).
  assert (Hmin : Z.min (Z.of_nat (length xs) - 1) (Z.of_nat (length xs) - 1) = Z.of_nat (length xs) - 1) by lia.
  assert (Hnat : Z.to_nat (Z.of_nat (length xs) - 1) = (length xs - 1)%nat) by lia.
  assert (Hf := moved_first xs i (Z.of_nat (length xs) - 1) ltac:(lia) ltac:(lia) ltac:(lia) ltac:(lia) ltac:(lia)).
  destruct (moved_at xs i (Z.of_nat (length xs) - 1) ltac:(lia) ltac:(lia) ltac:(lia) ltac:(lia)
    (length xs - 2)) as [x He].
  destruct (move_up_ok (put_list self (stepped xs i) h) self xs cs Hs Hsz _ i (Z.of_nat (length xs) - 1) Hlt)
    as (m & E & Sm); [lia..|].
  rewrite Hmin, Hnat in *. fold xs' in Hf, He, Sm.
  rewrite decide_True, decide_False in He by lia. replace (S (length xs - 2)) with (length xs - 1)%nat in He by lia.
  exists m. split; [|done]. unfold DList_move. rewrite self_null. ld.
  rewrite (proj2 (Z.eqb_neq i _)), (proj2 (Z.eqb_neq (Z.of_nat _) 1)) by lia. cbn [orb].
  rewrite (step_ends h xs cs i (Z.of_nat (length xs) - 1) Hs ltac:(lia) ltac:(lia) ltac:(lia) ltac:(lia)
    ltac:(lia) (fun _ => _)). ld. cbn [stepped begin_ end_ count].
  rewrite (bind_quiet _ _ _ _ _ E). whole.
  rewrite (proj2 (Z.eqb_neq (Z.of_nat (length xs) - 1) 0)), Z.geb_leb by lia.
  assert (Hgt : (Z.of_nat (length xs) <=? Z.of_nat (length xs) - 1) = false) by (apply Z.leb_gt; lia).
  assert (Hw : s64 (u64 (Z.of_nat (length xs) - 1)) = Z.of_nat (length xs) - 1) by (apply s64_u64; lia).
  rewrite Hgt, bind_mret, Hw.
  rewrite He, Hf. unfold stepped.
  by rewrite (decide_False (P := i = Z.of_nat (length xs) - 1)) by lia.
Qed.
End operations.

(** * Where the code leaves its contract *)

(** [DList_insert_after] never inserts: it refuses an item without a
    parent, and [DListItem_insert_after] refuses one that has a parent.
    Whatever the arguments, it changes nothing and reports an error. *)
Theorem DList_insert_after_never (self curItm newItm : ptr) (h h' : heap) (r : Z) (t : list event) :
  DList_insert_after self curItm newItm h = Ok (r, h', t) ->
  (r = ALIB_BAD_ARG \/ r = ALIB_UNKNOWN_ERR) /\ h' = h /\ t = [].
Proof.
  assert (Hload : forall X p (k : DListItem -> M heap X) (R : res (X * heap * list event)),
    mbind k (load_item p) h = R -> (exists f, R = UB f) \/ (exists i, items h !! p = Some i
      /\ p <> NULL /\ k i h = R)).
  { intros X p k R <-. destruct (decide (p = NULL)) as [->|Hp]; [left; eexists; by apply bind_UB|].
    destruct (items h !! p) as [i|] eqn:E.
    - right. exists i. split; [done|split; [done|]]. symmetry. by apply bind_load_item.
    - left. eexists. apply bind_UB. by apply (load_dangling (A := DListItem) p h Hp). }
  unfold DList_insert_after. destruct ((self =? NULL) || (curItm =? NULL)) eqn:E0;
    [intros [= <- <- <-]; naive_solver|].
  apply orb_false_iff in E0 as [Hs Hc].
  unfold parent_of. rewrite bind_bind. intros [[f [=]]|(i & Hi & _ & H)]%Hload.
  rewrite bind_mret in H. destruct (negb (parent (base i) =? self) || (newItm =? NULL)) eqn:E1;
    [injection H as <- <- <-; naive_solver|].
  apply orb_false_iff in E1 as [_ Hn].
  rewrite bind_bind in H. apply Hload in H as [[f [=]]|(n & Hni & Hnn & H)]. rewrite bind_mret in H.
  destruct (Z.eqb_spec (parent (base n)) NULL) as [Hp|Hp]; [injection H as <- <- <-; naive_solver|].
  erewrite bind_quiet in H.
  - rewrite Z.eqb_refl in H. injection H as <- <- <-. naive_solver.
  - unfold DListItem_insert_after, rejected, parent_of. rewrite Hc, Hn, !bind_bind.
    rewrite (bind_load_item _ _ Hnn _ _ Hni), bind_mret, bind_mret.
    by rewrite (proj2 (Z.eqb_neq _ _)) by done.
Qed.
(** A list with the items 2 and 3, and the free item 4. *)
Definition two_items_heap : heap := mkHeap
  {[ 2 := mkDListItem (mkListItem 12 1 false) 3 NULL; 3 := mkDListItem (mkListItem 13 1 false) NULL 2;
     4 := mkDListItem (mkListItem 14 NULL false) NULL NULL ]}
  {[ 12 := mkListItemVal 22 true 1; 13 := mkListItemVal 23 true 1; 14 := mkListItemVal 24 true 1 ]}
  {[ 1 := mkDList 2 3 2 (Some true) ]}.
Definition two_items (b1 b2 : bool) : list item := [mkItem 2 12 b1; mkItem 3 13 b2].
Lemma DList_insert_after_never_witness :
  DList_insert_after 1 2 4 two_items_heap = Ok (ALIB_BAD_ARG, two_items_heap, [])
  /\ (ALIB_BAD_ARG = ALIB_BAD_ARG \/ ALIB_BAD_ARG = ALIB_UNKNOWN_ERR)
     /\ two_items_heap = two_items_heap /\ @nil event = [].
Proof.
  assert (E : DList_insert_after 1 2 4 two_items_heap = Ok (ALIB_BAD_ARG, two_items_heap, []))
    by (vm_compute; reflexivity).
  split; [exact E|]. exact (DList_insert_after_never 1 2 4 two_items_heap two_items_heap ALIB_BAD_ARG [] E).
Defined.

(** A move to the last index reorders the items but leaves the list's
    [end] at an item that is no longer the last one. *)
Theorem move_to_last_stale (cs : list chain) (self : ptr) (xs : list item) (fl : option bool)
    (i : Z) (h : heap) :
  self <> NULL -> lists h !! self = Some (summary xs fl) ->
  segs (items h) (Chain self NULL xs NULL :: cs) -> Z.of_nat (length xs) < 2 ^ 62 ->
  0 <= i < Z.of_nat (length xs) - 1 ->
  let xs' := move_to (Z.to_nat i) (length xs - 1) xs in
  exists h', DList_move self i (Z.of_nat (length xs) - 1) h
      = Ok (Z.of_nat (length xs) - 1, h', [])
    /\ segs (items h') (Chain self NULL xs' NULL :: cs)
    /\ exists p q, DList_get_end self h' = Ok (p, h', []) /\ next_of p h' = Ok (q, h', []) /\ q <> NULL.
Proof.
  intros Hself Hl Hs Hsz Hi xs'. rewrite <- (put_list_id _ _ _ Hl).
  destruct (move_last_dlist self Hself fl h xs cs i Hs Hsz Hi) as (m & E & S). fold xs' in E, S.
  assert (Hlen : length xs' = length xs).
  { unfold xs', move_to. destruct (xs !! Z.to_nat i) eqn:Hx; [|done].
    rewrite length_app. cbn [length]. rewrite length_take, length_drop, length_app, length_take, length_drop.
    lia. }
  eexists. split; [exact E|]. split; [exact S|].
  exists (at_ xs' (length xs - 2)), (at_ xs' (Datatypes.S (length xs - 2))). split; [|split].
  - unfold DList_get_end. rewrite (proj2 (Z.eqb_neq _ _)) by done. by rewrite (bind_load_list _ Hself).
  - apply (next_at (put_list self _ (set_items m h)) _ _ _ S). lia.
  - apply (at_nonnull (set_items m h) _ _ _ S). lia.
Qed.
Lemma two_items_segs b1 b2 :
  segs (items (mkHeap {[ 2 := node 1 (mkItem 2 12 b1) NULL 3; 3 := node 1 (mkItem 3 13 b2) 2 NULL ]} ∅ ∅))
    [Chain 1 NULL (two_items b1 b2) NULL].
Proof.
  split; [|vm_compute; repeat (constructor; [set_solver|]); constructor].
  repeat constructor; destruct b1, b2; vm_compute; done.
Qed.
Lemma move_to_last_stale_witness :
  exists h', DList_move 1 0 1 (mkHeap {[ 2 := node 1 (mkItem 2 12 false) NULL 3;
      3 := node 1 (mkItem 3 13 false) 2 NULL ]} ∅ {[ 1 := mkDList 2 3 2 None ]}) = Ok (1, h', [])
    /\ segs (items h') [Chain 1 NULL [mkItem 3 13 false; mkItem 2 12 false] NULL]
    /\ exists p q, DList_get_end 1 h' = Ok (p, h', []) /\ next_of p h' = Ok (q, h', []) /\ q <> NULL.
Proof.
  apply (move_to_last_stale [] 1 (two_items false false) None 0
    (mkHeap {[ 2 := node 1 (mkItem 2 12 false) NULL 3; 3 := node 1 (mkItem 3 13 false) 2 NULL ]} ∅
      {[ 1 := mkDList 2 3 2 None ]})).
  - done.
  - done.
  - apply (two_items_segs false false).
  - simpl. lia.
  - simpl. lia.
Defined.

(** pulling out more items than the list has after an inner index returns
    the items found, as documented, but leaves the list's [end] at the last of
    the pulled items, which no longer belong to the list. *)
Theorem pull_out_count_stale (cs : list chain) (self : ptr) (A F : list item) (fl : option bool)
    (n : Z) (h : heap) :
  self <> NULL -> lists h !! self = Some (summary (A ++ F) fl) ->
  segs (items h) (Chain self NULL (A ++ F) NULL :: cs) -> Z.of_nat (length (A ++ F)) < 2 ^ 62 ->
  A <> [] -> (1 < length F)%nat -> Z.of_nat (length F) < n < 2 ^ 62 ->
  exists h', DList_pull_out_count self (Z.of_nat (length A)) n h = Ok (first F NULL, h', [])
    /\ segs (items h') (Chain NULL NULL F NULL :: Chain self NULL A NULL :: cs)
    /\ DList_get_end self h' = Ok (last NULL F, h', [])
    /\ DList_get_count self h' = Ok (Z.of_nat (length A), h', []).
Proof.
  intros Hself Hl Hs Hsz HA HF Hn. rewrite <- (put_list_id _ _ _ Hl).
  assert (HFn : F <> []) by (apply nonempty_length; lia). apply nonempty_length in HA as HA0.
  rewrite length_app in Hsz. set (h0 := put_list self (summary (A ++ F) fl) h).
  assert (Hs' : segs (items h0) (Chain self NULL (A ++ F ++ []) NULL :: cs)) by (by rewrite app_nil_r).
  destruct (pull_out_count_ok h0 self A F [] n cs HFn) as (m & E & S); [lia|simpl; lia|done|].
  rewrite app_nil_r in S. unfold DList_pull_out_count. rewrite (proj2 (Z.eqb_neq _ _)) by done.
  unfold h0 at 1. rewrite (bind_load_list _ Hself). cbn [summary count begin_ end_].
  rewrite length_app, u64_small, u64_small by lia.
  rewrite (proj2 (Z.eqb_neq _ 0)), (proj2 (Z.eqb_neq _ (_ - 1))), (proj2 (Z.eqb_neq (_ + n) _)) by lia.
  fold h0. eexists. split.
  - rewrite !bind_bind.
    assert (Hin := inner_ok self fl h0 (A ++ F) cs Hs ltac:(rewrite length_app; lia) (Z.of_nat (length A))
      ltac:(rewrite length_app; lia)).
    rewrite (bind_quiet _ _ _ _ _ Hin), !bind_bind, bind_mret, bind_bind, Nat2Z.id, <- first_at_app.
    rewrite (bind_quiet _ _ _ _ _ E). cbv beta iota. rewrite bind_mret, first_at.
    rewrite (bind_quiet _ _ _ _ _ (count_ok (set_items m h0) _ _ _ S 0 ltac:(lia) ltac:(lia))).
    unfold h0. rewrite set_items_put_list, (bind_store_list _ Hself). done.
  - split; [exact S|]. unfold DList_get_end, DList_get_count. rewrite (proj2 (Z.eqb_neq _ _)) by done.
    rewrite !(bind_load_list _ Hself). unfold set_count. cbn [summary count end_].
    rewrite length_app, u64_small, last_app, (last_nonempty _ NULL F HFn) by lia.
    split; [done|]. by replace (Z.of_nat (length A + length F) - Z.of_nat (length F)) with (Z.of_nat (length A)) by lia.
Qed.
Definition three_heap : heap := mkHeap
  {[ 2 := node 1 (mkItem 2 12 false) NULL 3; 3 := node 1 (mkItem 3 13 false) 2 4;
     4 := node 1 (mkItem 4 14 false) 3 NULL ]} ∅ {[ 1 := mkDList 2 4 3 None ]}.
Lemma pull_out_count_stale_witness :
  exists h', DList_pull_out_count 1 1 9 three_heap = Ok (3, h', [])
    /\ segs (items h') [Chain NULL NULL [mkItem 3 13 false; mkItem 4 14 false] NULL;
                        Chain 1 NULL [mkItem 2 12 false] NULL]
    /\ DList_get_end 1 h' = Ok (4, h', []) /\ DList_get_count 1 h' = Ok (1, h', []).
Proof.
  apply (pull_out_count_stale [] 1 [mkItem 2 12 false] [mkItem 3 13 false; mkItem 4 14 false] None 9
    three_heap); [done|done| |simpl; lia|done|simpl; lia|simpl; lia].
  split; [|vm_compute; repeat (constructor; [set_solver|]); constructor].
  repeat constructor; vm_compute; done.
Defined.
