(* ===== verification/DListSpec.v ===== *)
(** What [DList] promises: a list of values with insertion, removal and moving
    by index, whose elements are freed exactly when they are removed.  The
    client allocates the items with [newDListItem]; the allocator is a
    parameter of which only the freshness of its addresses is known.  The
    second part states what the code does where it leaves that contract. *)
From S2P Require Import Prelude Effects Heap DListItem DListSeg DList.
Open Scope Z_scope.

(** A value and whether it has a free callback. *)
Notation elem := (ptr * bool)%type.
Definition freed_elem (e : elem) : list event :=
  if snd e && negb (fst e =? NULL) then [EvFree (fst e)] else [].

Inductive op :=
| OpPushBack (e : elem) | OpPushForward (e : elem) | OpInsert (index : Z) (e : elem)
| OpRemove (index : Z) | OpMove (from to : Z) | OpGet (index : Z) | OpCount.
Inductive out := OutCode (r : Z) | OutValue (v : option ptr) | OutCount (n : Z).

Section client.
Context (fresh_item fresh_val : heap -> ptr).

Definition item_for (e : elem) : M heap ptr :=
  k ← gets fresh_item; kv ← gets fresh_val;
  '(p, _) ← newDListItem (Some k) (Some kv) (fst e) (snd e) None; mret p.
Definition call (self : ptr) (o : op) : M heap out :=
  match o with
  | OpPushBack e => p ← item_for e; r ← DList_push_back self p; mret (OutCode r)
  | OpPushForward e => p ← item_for e; r ← DList_push_forward self p; mret (OutCode r)
  | OpInsert i e => p ← item_for e; r ← DList_insert self i p; mret (OutCode r)
  | OpRemove i => r ← DList_remove self i; mret (OutCode r)
  | OpMove i j => r ← DList_move self i j; mret (OutCode r)
  | OpGet i =>
      p ← DList_get self i;
      if p =? NULL then mret (OutValue None) else v ← DListItem_get_value p; mret (OutValue (Some v))
  | OpCount => n ← DList_get_count self; mret (OutCount n)
  end.
Fixpoint run (self : ptr) (ops : list op) : M heap (list out) :=
  match ops with
  | [] => mret []
  | o :: ops => r ← call self o; rs ← run self ops; mret (r :: rs)
  end.
End client.

(** * The specification *)
Definition size (vs : list elem) : Z := Z.of_nat (length vs).
Definition spec_step (vs : list elem) (o : op) : list elem * out * list event :=
  match o with
  | OpPushBack e => (vs ++ [e], OutCode ALIB_OK, [])
  | OpPushForward e => (e :: vs, OutCode ALIB_OK, [])
  | OpInsert i e => (take (Z.to_nat i) vs ++ e :: drop (Z.to_nat i) vs, OutCode ALIB_OK, [])
  | OpRemove i =>
      match vs !! Z.to_nat i with
      | Some e => (take (Z.to_nat i) vs ++ drop (S (Z.to_nat i)) vs, OutCode ALIB_OK, freed_elem e)
      | None => (vs, OutCode ALIB_BAD_ARG, [])
      end
  | OpMove i j =>
      if (i =? j) || (size vs =? 1) then (vs, OutCode i, [])
      else if size vs <=? i then (vs, OutCode (if size vs =? 0 then ALIB_BAD_ARG else ALIB_BAD_INDEX), [])
      else let j' := Z.min j (size vs - 1) in
           (move_to (Z.to_nat i) (Z.to_nat j') vs, OutCode j', [])
  | OpGet i => (vs, OutValue (fst <$> vs !! Z.to_nat i), [])
  | OpCount => (vs, OutCount (size vs), [])
  end.
Fixpoint spec_run (vs : list elem) (ops : list op) : list elem * list out * list event :=
  match ops with
  | [] => (vs, [], [])
  | o :: ops =>
      let '(vs1, r, t) := spec_step vs o in
      let '(vs2, rs, ts) := spec_run vs1 ops in (vs2, r :: rs, t ++ ts)
  end.
(** What the code asks of a call: nothing is inserted in front of a first
    item, nothing is moved to the last index, or from the first index of an
    empty list; the list stays smaller than [2 ^ 62]. *)
Definition index_ok (i : Z) : Prop := 0 <= i < 2 ^ 62.
Definition admissible (vs : list elem) (o : op) : Prop :=
  match o with
  | OpPushBack _ | OpPushForward _ => size vs + 1 < 2 ^ 62
  | OpInsert i _ => size vs + 1 < 2 ^ 62 /\ index_ok i /\ (vs = [] \/ 0 < i)
  | OpRemove i | OpGet i => index_ok i
  | OpMove i j => index_ok i /\ index_ok j /\ (i = j \/ size vs = 1 \/
      ((0 < size vs \/ 0 < i) /\ j <> size vs - 1))
  | OpCount => True
  end.
Fixpoint all_admissible (vs : list elem) (ops : list op) : Prop :=
  match ops with
  | [] => True
  | o :: ops => admissible vs o /\ all_admissible (spec_step vs o).1.1 ops
  end.

(** * Representation

    [cs] are other chains of the heap, which the operations do not touch. *)
Definition owns (m : gmap Z ListItemVal) (x : item) (e : elem) : Prop :=
  obj x <> NULL /\ m !! obj x = Some (mkListItemVal (fst e) (snd e) 1).
Record repr (cs : list chain) (self : ptr) (vs : list elem) (h : heap) : Prop := {
  repr_self : self <> NULL;
  repr_size : size vs < 2 ^ 62;
  repr_items : exists xs fl,
    lists h !! self = Some (summary xs fl)
    /\ segs (items h) (Chain self NULL xs NULL :: cs)
    /\ Forall2 (owns (vals h)) xs vs /\ NoDup (obj <$> xs) }.

Lemma owns_frame (m m' : gmap Z ListItemVal) xs vs :
  (forall x, x ∈ xs -> m' !! obj x = m !! obj x) -> Forall2 (owns m) xs vs -> Forall2 (owns m') xs vs.
Proof.
  intros Hm HF. induction HF as [|x e xs vs [Hn He] _ IH]; constructor.
  - split; [done|]. rewrite Hm; [done|]. set_solver.
  - apply IH. intros y Hy. apply Hm. set_solver.
Qed.
Lemma repr_intro cs self vs xs fl m v l :
  self <> NULL -> size vs < 2 ^ 62 -> segs m (Chain self NULL xs NULL :: cs) ->
  Forall2 (owns v) xs vs -> NoDup (obj <$> xs) ->
  repr cs self vs (put_list self (summary xs fl) (mkHeap m v l)).
Proof.
  intros. split; [done..|]. exists xs, fl. split; [|done]. simpl. apply lookup_insert_eq.
Qed.

(** * The client's allocations *)
Section refinement.
Context (fresh_item fresh_val : heap -> ptr).
Hypothesis fresh_item_ok : forall h, fresh_at (A := DListItem) h (fresh_item h).
Hypothesis fresh_val_ok : forall h, fresh_at (A := ListItemVal) h (fresh_val h).

(** [newDListItem] gives a free item that owns the value. *)
Lemma item_for_ok h e xs vs cs :
  segs (items h) cs -> Forall2 (owns (vals h)) xs vs -> NoDup (obj <$> xs) ->
  exists x m v, item_for fresh_item fresh_val e h = Ok (addr x, mkHeap m v (lists h), [])
    /\ segs m (Chain NULL NULL [x] NULL :: cs)
    /\ Forall2 (owns v) xs vs /\ owns v x e /\ obj x ∉ obj <$> xs.
Proof.
  intros Hs Ho Hnd. destruct (fresh_item_ok h) as [Ha Hfa], (fresh_val_ok h) as [Hb Hfb].
  set (x := mkItem (fresh_item h) (fresh_val h) false).
  assert (Hnin : obj x ∉ obj <$> xs).
  { intros (y & Hy & Hin)%list_elem_of_fmap_1. apply list_elem_of_lookup_1 in Hin as [i Hi].
    destruct (Forall2_lookup_l _ _ _ _ _ Ho Hi) as (e' & _ & _ & Hl). simpl in Hfb, Hy. congruence. }
  exists x, (<[addr x := node NULL x NULL NULL]> (items h)),
    (<[obj x := mkListItemVal (fst e) (snd e) 1]> (vals h)).
  split; [done|]. split; [by apply segs_fresh|]. split; [|split; [|done]].
  - eapply owns_frame; [|done]. intros y Hy. apply lookup_insert_ne. intros Heq. apply Hnin.
    rewrite Heq. by apply list_elem_of_fmap_2.
  - split; [done|]. apply lookup_insert_eq.
Qed.

(** ** One call *)
Section step.
Context (cs : list chain) (self : ptr) (vs : list elem).
(** The call has the outcome of the specification. *)
Definition implements (o : op) (h : heap) : Prop :=
  exists h', call fresh_item fresh_val self o h
      = Ok ((spec_step vs o).1.2, h', (spec_step vs o).2)
    /\ repr cs self (spec_step vs o).1.1 h'.

(** The three insertions, given their rule. *)
Lemma insertion_ok (ins : ptr -> M heap Z) (o : op) e vs' h :
  (forall h, call fresh_item fresh_val self o h
    = (p ← item_for fresh_item fresh_val e; r ← ins p; mret (OutCode r)) h) ->
  spec_step vs o = (vs', OutCode ALIB_OK, []) -> size vs' < 2 ^ 62 ->
  (forall xs x, length xs = length vs -> exists xs',
     (forall v, Forall2 (owns v) xs vs -> owns v x e -> Forall2 (owns v) xs' vs')
     /\ xs' ≡ₚ x :: xs
     /\ (forall fl h, segs (items h) (Chain self NULL xs NULL :: Chain NULL NULL [x] NULL :: cs) ->
         exists m, ins (addr x) (put_list self (summary xs fl) h)
             = Ok (ALIB_OK, put_list self (summary xs' fl) (set_items m h), [])
           /\ segs m (Chain self NULL xs' NULL :: cs))) ->
  repr cs self vs h -> implements o h.
Proof.
  intros Hcall Hspec Hsz Hins [Hself _ (xs & fl & Hl & Hs & Ho & Hnd)].
  destruct (item_for_ok h e xs vs _ Hs Ho Hnd) as (x & m & v & E & S & Ho' & Hx & Hnin).
  destruct (Hins xs x (Forall2_length _ _ _ Ho)) as (xs' & Hxs' & Hp & Hrule).
  destruct (Hrule fl (mkHeap m v (lists h)) (segs_swap _ _ _ _ S)) as (m' & E' & S').
  rewrite put_list_id in E' by done.
  unfold implements. rewrite Hspec, Hcall. eexists. split.
  - rewrite (bind_quiet _ _ _ _ _ E), (bind_quiet _ _ _ _ _ E'). done.
  - apply repr_intro; [done|done|done|by apply Hxs'|]. rewrite Hp. by apply NoDup_cons.
Qed.

Lemma push_back_call e h : size vs + 1 < 2 ^ 62 -> repr cs self vs h -> implements (OpPushBack e) h.
Proof.
  intros Hsz Hr. eapply (insertion_ok (DList_push_back self)); [done|done| |intros xs x Hlen|done].
  - unfold size in *. rewrite length_app. simpl. lia.
  - exists (xs ++ [x]). split; [|split].
    + intros v Ho Hx. apply Forall2_app; [done|]. by constructor.
    + by rewrite Permutation_app_comm.
    + intros fl h' Hs. unfold size in Hsz.
      apply (push_back_dlist self (repr_self _ _ _ _ Hr) fl h' xs [x] 0); simpl; [lia..|done].
Qed.
Lemma push_forward_call e h : size vs + 1 < 2 ^ 62 -> repr cs self vs h -> implements (OpPushForward e) h.
Proof.
  intros Hsz Hr. eapply (insertion_ok (DList_push_forward self)); [done|done| |intros xs x Hlen|done].
  - unfold size in *. simpl. lia.
  - exists (x :: xs). split; [|split].
    + intros v Ho Hx. by constructor.
    + done.
    + intros fl h' Hs. unfold size in Hsz.
      apply (push_forward_dlist self (repr_self _ _ _ _ Hr) fl h' xs [x] 0); simpl; [lia..|done].
Qed.
Lemma insert_call i e h : admissible vs (OpInsert i e) -> repr cs self vs h -> implements (OpInsert i e) h.
Proof.
  intros (Hsz & [Hi _] & Hpos) Hr.
  eapply (insertion_ok (DList_insert self i)); [done|done| |intros xs x Hlen|done].
  - unfold size in *. rewrite length_app. cbn [length]. rewrite length_take, length_drop. lia.
  - exists (take (Z.to_nat i) xs ++ [x] ++ drop (Z.to_nat i) xs). split; [|split].
    + intros v Ho Hx. apply Forall2_app; [by apply Forall2_take|]. simpl.
      constructor; [done|]. by apply Forall2_drop.
    + simpl. by rewrite <- Permutation_middle, take_drop.
    + intros fl h' Hs. unfold size in Hsz.
      apply (insert_dlist self (repr_self _ _ _ _ Hr) fl h' xs [x] 0); simpl; [done| |lia..|done].
      destruct Hpos as [->|?]; [left; by apply nil_length_inv|by right].
Qed.

Lemma remove_call i h : index_ok i -> repr cs self vs h -> implements (OpRemove i) h.
Proof.
  intros [Hi _] [Hself Hsz (xs & fl & Hl & Hs & Ho & Hnd)].
  pose proof (Forall2_length _ _ _ Ho) as Hlen. unfold size in Hsz.
  unfold implements. cbn [call spec_step]. rewrite <- (put_list_id _ _ _ Hl).
  destruct (vs !! Z.to_nat i) as [e|] eqn:Ev; cycle 1.
  { exists (put_list self (summary xs fl) h). apply lookup_ge_None_1 in Ev. split.
    - erewrite bind_quiet; [done|]. unfold DList_remove. rewrite (proj2 (Z.eqb_neq _ _)) by done.
      rewrite (bind_load_list _ Hself). cbn [summary count]. by rewrite Z.geb_leb, (proj2 (Z.leb_le _ _)) by lia.
    - apply repr_intro; done. }
  destruct (Forall2_lookup_r _ _ _ _ _ Ho Ev) as (x & Hx & Hn & He).
  pose proof (lookup_lt_Some _ _ _ Hx).
  set (A := take (Z.to_nat i) xs). set (B := drop (S (Z.to_nat i)) xs).
  assert (Hxs : xs = A ++ [x] ++ B) by (symmetry; by apply take_drop_middle).
  assert (HA : Z.of_nat (length A) = i) by (unfold A; rewrite length_take; lia).
  rewrite Hxs in Hs, Hnd.
  destruct (remove_dlist self Hself fl h A x B cs) as (m & E & S); [rewrite <- Hxs; lia|done|by right|].
  rewrite HA, <- Hxs in E.
  assert (Hdrop : drop_val (obj x) (vals h) = (delete (obj x) (vals h), freed_elem e)).
  { unfold drop_val. by rewrite (proj2 (Z.eqb_neq _ _)), He by done. }
  rewrite Hdrop in E. eexists. split; [by eapply bind_loud; [exact E|]|].
  rewrite fmap_app, fmap_app, NoDup_app in Hnd. destruct Hnd as (HndA & HdA & HndB).
  apply NoDup_cons in HndB as [HxB HndB].
  apply repr_intro; [done| |done| |].
  - unfold size. simpl. rewrite length_app, length_take, length_drop. lia.
  - apply (owns_frame (vals h)).
    + intros y Hy. apply lookup_delete_ne. intros Heq.
      apply elem_of_app in Hy as [Hy|Hy]; apply (list_elem_of_fmap_2 obj) in Hy; rewrite <- Heq in Hy.
      * by apply (HdA (obj x) Hy), elem_of_cons; left.
      * done.
    + apply Forall2_app; [by apply Forall2_take|by apply Forall2_drop].
  - rewrite fmap_app. apply NoDup_app. split; [done|split; [|done]].
    intros o Ho' Hin. apply (HdA o Ho'). by apply elem_of_cons; right.
Qed.

Lemma Forall2_move_to {X Y} (R : X -> Y -> Prop) (i j : nat) l k :
  Forall2 R l k -> Forall2 R (move_to i j l) (move_to i j k).
Proof.
  intros HR. unfold move_to. destruct (l !! i) as [x|] eqn:Ex.
  - destruct (Forall2_lookup_l _ _ _ _ _ HR Ex) as (y & -> & Hxy).
    assert (Hd : Forall2 R (take i l ++ drop (S i) l) (take i k ++ drop (S i) k))
      by (apply Forall2_app; [by apply Forall2_take|by apply Forall2_drop]).
    apply Forall2_app; [by apply Forall2_take|]. constructor; [done|by apply Forall2_drop].
  - destruct (k !! i) as [y|] eqn:Ey; [|done].
    destruct (Forall2_lookup_r _ _ _ _ _ HR Ey) as (x & Hx & _). congruence.
Qed.
Lemma move_to_obj i j xs : NoDup (obj <$> xs) -> NoDup (obj <$> move_to i j xs).
Proof.
  intros Hnd. rewrite move_to_fmap. unfold move_to. destruct ((obj <$> xs) !! i) as [o|] eqn:E; [|done].
  rewrite <- Permutation_middle, take_drop, Permutation_middle.
  by rewrite (take_drop_middle _ _ _ E).
Qed.
Lemma move_call i j h : admissible vs (OpMove i j) -> repr cs self vs h -> implements (OpMove i j) h.
Proof.
  intros ([Hi Hi'] & [Hj Hj'] & Hij) Hr. pose proof Hr as [Hself Hsz (xs & fl & Hl & Hs & Ho & Hnd)].
  pose proof (Forall2_length _ _ _ Ho) as Hlen. unfold implements. cbn [call spec_step].
  unfold size in *. rewrite <- Hlen in *.
  assert (Hkeep : forall r, DList_move self i j h = Ok (r, h, []) ->
    exists h', (r ← DList_move self i j; mret (OutCode r)) h = Ok (OutCode r, h', []) /\ repr cs self vs h').
  { intros r E. exists h. split; [|done]. by rewrite (bind_quiet _ _ _ _ _ E). }
  assert (Hstart : forall X (k : DList -> M heap X), mbind k (load_list self) h = k (summary xs fl) h).
  { intros X k. rewrite <- (put_list_id _ _ _ Hl). by rewrite (bind_load_list _ Hself). }
  destruct ((i =? j) || (Z.of_nat (length xs) =? 1)) eqn:Esame.
  { apply Hkeep. unfold DList_move. rewrite (proj2 (Z.eqb_neq _ _)), Hstart by done.
    cbn [summary count]. rewrite Esame. by rewrite s64_small by lia. }
  apply orb_false_iff in Esame as [Eij%Z.eqb_neq E1%Z.eqb_neq].
  destruct Hij as [?|[?|[Hne Hlast]]]; [lia..|].
  rewrite <- (put_list_id _ _ _ Hl) in *.
  destruct (Z.leb_spec (Z.of_nat (length xs)) i) as [Hge|Hlt].
  - assert (Hmv : DList_move self i j (put_list self (summary xs fl) h)
      = Ok (if Z.of_nat (length xs) =? 0 then ALIB_BAD_ARG else ALIB_BAD_INDEX,
            put_list self (summary xs fl) h, [])); [|by apply Hkeep].
    apply (move_refused self Hself fl h xs cs); done || lia.
  - destruct (move_dlist self Hself fl h xs cs i j Hs) as (m & E & S); [lia..|].
    eexists. split; [by rewrite (bind_quiet _ _ _ _ _ E)|]. apply repr_intro; [done| |done| |].
    + cbn [fst]. unfold move_to, size. destruct (vs !! Z.to_nat i); [|lia]. rewrite length_app. cbn [length].
      rewrite length_take, length_drop, length_app, length_take, length_drop. lia.
    + by apply Forall2_move_to.
    + by apply move_to_obj.
Qed.
Lemma get_call i h : index_ok i -> repr cs self vs h -> implements (OpGet i) h.
Proof.
  intros [Hi _] Hr. pose proof Hr as [Hself Hsz (xs & fl & Hl & Hs & Ho & Hnd)].
  pose proof (Forall2_length _ _ _ Ho) as Hlen. unfold size in Hsz.
  assert (E : DList_get self i h = Ok (at_ xs (Z.to_nat i), h, [])).
  { rewrite <- (put_list_id _ _ _ Hl). apply (get_dlist self Hself fl h xs cs); done || lia. }
  exists h. split; [|done]. cbn [call spec_step]. rewrite (bind_quiet _ _ _ _ _ E). simpl.
  destruct (vs !! Z.to_nat i) as [e|] eqn:Ev; simpl.
  - destruct (Forall2_lookup_r _ _ _ _ _ Ho Ev) as (x & Hx & Hn & He).
    rewrite (at_lookup _ _ _ Hx). destruct (node_at _ _ _ _ Hs _ _ Hx) as [Ha Hnode].
    rewrite (proj2 (Z.eqb_neq _ _)) by done. erewrite bind_quiet; [done|].
    unfold DListItem_get_value. rewrite (bind_load_item _ _ Ha _ _ Hnode). simpl.
    by rewrite (bind_load_val _ _ Hn _ _ He).
  - apply lookup_ge_None_1 in Ev. by rewrite at_past by lia.
Qed.
Lemma count_call h : repr cs self vs h -> implements OpCount h.
Proof.
  intros Hr. pose proof Hr as [Hself Hsz (xs & fl & Hl & Hs & Ho & Hnd)].
  exists h. split; [|done]. cbn [call spec_step]. unfold size.
  rewrite <- (Forall2_length _ _ _ Ho), <- (put_list_id _ _ _ Hl). erewrite bind_quiet; [done|].
  unfold DList_get_count. rewrite (proj2 (Z.eqb_neq _ _)) by done. by rewrite (bind_load_list _ Hself).
Qed.

Lemma call_ok o h : admissible vs o -> repr cs self vs h -> implements o h.
Proof.
  destruct o; intros Ha Hr.
  - by apply push_back_call.
  - by apply push_forward_call.
  - by apply insert_call.
  - by apply remove_call.
  - by apply move_call.
  - by apply get_call.
  - by apply count_call.
Qed.
End step.

(** C5: any sequence of admissible insertions, removals, moves and lookups through a [DList], with items from
    [newDListItem], whose allocations succeed, returns normally, and gives the results, the calls of the free
    callbacks and the final list that the same operations give on a plain list of values; the other lists of the
    heap are untouched. Admissible means: the list stays shorter than 2^62 and indices are from 0 to below 2^62;
    nothing is inserted at index 0 of a list with items; and an item is moved to its own place, or in a list of
    one item, or to an index that is not the last, from an index other than 0 if the list is empty. The calls
    left out crash or leave the list with a stale end. *)
Theorem run_refines_list (cs : list chain) (self : ptr) (vs : list elem) (ops : list op) (h : heap) :
  repr cs self vs h -> all_admissible vs ops ->
  exists h', run fresh_item fresh_val self ops h
      = Ok ((spec_run vs ops).1.2, h', (spec_run vs ops).2)
    /\ repr cs self (spec_run vs ops).1.1 h'.
Proof.
  revert vs h. induction ops as [|o ops IH]; intros vs h Hr Ha; [by exists h|].
  destruct Ha as [Ho Ha]. destruct (call_ok cs self vs o h Ho Hr) as (h1 & E1 & Hr1).
  destruct (IH _ h1 Hr1 Ha) as (h2 & E2 & Hr2). cbn [run spec_run].
  destruct (spec_step vs o) as [[vs1 r] t]. simpl in *.
  destruct (spec_run vs1 ops) as [[vs2 rs] ts]. simpl in *.
  exists h2. split; [|done]. rewrite (bind_Ok _ _ _ _ _ _ E1), (bind_Ok _ _ _ _ _ _ E2). cbn.
  by rewrite app_nil_r.
Qed.
End refinement.

(** An allocator, for the witnesses. *)
Definition next_item (h : heap) : ptr := fresh (dom (items h) ∪ {[NULL]}).
Definition next_val (h : heap) : ptr := fresh (dom (vals h) ∪ {[NULL]}).
Lemma next_item_fresh h : fresh_at (A := DListItem) h (next_item h).
Proof.
  unfold fresh_at, next_item. pose proof (is_fresh (dom (items h) ∪ {[NULL]})) as Hf. split.
  - intros E. rewrite E in Hf. set_solver.
  - apply not_elem_of_dom. simpl. set_solver.
Qed.
Lemma next_val_fresh h : fresh_at (A := ListItemVal) h (next_val h).
Proof.
  unfold fresh_at, next_val. pose proof (is_fresh (dom (vals h) ∪ {[NULL]})) as Hf. split.
  - intros E. rewrite E in Hf. set_solver.
  - apply not_elem_of_dom. simpl. set_solver.
Qed.
Definition empty_list_heap : heap := mkHeap ∅ ∅ {[ 1 := mkDList NULL NULL 0 None ]}.
Lemma empty_list_repr : repr [] 1 [] empty_list_heap.
Proof.
  split; [done|done|]. exists [], None. split; [done|]. split; [by rewrite segs_empty; apply segs_nil|].
  split; [done|apply NoDup_nil_2].
Qed.
Lemma run_refines_list_witness :
  exists h', run next_item next_val 1
      [OpPushBack (11, true); OpPushForward (12, true); OpInsert 1 (13, false); OpMove 2 0;
       OpRemove 1; OpGet 0; OpGet 7; OpCount] empty_list_heap
    = Ok ([OutCode 0; OutCode 0; OutCode 0; OutCode 0; OutCode 0; OutValue (Some 11);
           OutValue None; OutCount 2], h', [EvFree 12])
    /\ repr [] 1 [(11, true); (13, false)] h'.
Proof.
  apply (run_refines_list next_item next_val next_item_fresh next_val_fresh [] 1 []
    [OpPushBack (11, true); OpPushForward (12, true); OpInsert 1 (13, false); OpMove 2 0;
     OpRemove 1; OpGet 0; OpGet 7; OpCount] empty_list_heap empty_list_repr).
  simpl. unfold index_ok, size. simpl. lia.
Defined.

(** * Outside the contract *)
Lemma two_items_repr : repr [Chain NULL NULL [mkItem 4 14 false] NULL] 1 [(22, true); (23, true)] two_items_heap.
Proof.
  split; [done|done|]. exists (two_items false false), (Some true). split; [done|]. split; [|split].
  - split; [|vm_compute; repeat (constructor; [set_solver|]); constructor].
    repeat constructor; vm_compute; done.
  - repeat constructor; vm_compute; done.
  - vm_compute. repeat (constructor; [set_solver|]). constructor.
Qed.

(** inserting at index 0 of a list that has items writes through the NULL
    [prev] of the first item, although the index is in range. *)
Theorem insert_front_crashes (fresh_item fresh_val : heap -> ptr) (cs : list chain) (self : ptr)
    (vs : list elem) (e : elem) (h : heap) :
  (forall h, fresh_at (A := DListItem) h (fresh_item h)) ->
  (forall h, fresh_at (A := ListItemVal) h (fresh_val h)) ->
  repr cs self vs h -> vs <> [] ->
  call fresh_item fresh_val self (OpInsert 0 e) h = UB NullDeref.
Proof.
  intros Hfi Hfv [Hself Hsz (xs & fl & Hl & Hs & Ho & Hnd)] Hvs.
  pose proof (Forall2_length _ _ _ Ho) as Hlen. unfold size in Hsz. rewrite <- Hlen in Hsz.
  assert (Hxs : xs <> []) by (intros ->; by destruct vs).
  destruct (item_for_ok _ _ Hfi Hfv h e xs vs _ Hs Ho Hnd) as (x & m & v & E & S & _).
  cbn [call]. rewrite (bind_quiet _ _ _ _ _ E). apply bind_UB.
  rewrite <- (put_list_id self (summary xs fl) (mkHeap m v (lists h))) by done.
  apply (insert_first_crash self Hself fl (mkHeap m v (lists h)) xs [x] 0 cs); [done|simpl; lia|lia|simpl; lia|].
  by apply segs_swap.
Qed.
Lemma insert_front_crashes_witness :
  call next_item next_val 1 (OpInsert 0 (7, true)) two_items_heap = UB NullDeref.
Proof.
  apply (insert_front_crashes next_item next_val _ 1 _ (7, true) two_items_heap
    next_item_fresh next_val_fresh two_items_repr). done.
Defined.


(** * Sweeping the marked items *)
Definition unmarked (xs : list item) : list item := filter (fun x => mark x = false) xs.
Fixpoint kept (xs : list item) (vs : list elem) : list elem :=
  match xs, vs with
  | x :: xs, e :: vs => if mark x then kept xs vs else e :: kept xs vs
  | _, _ => []
  end.
Fixpoint swept (xs : list item) (vs : list elem) : list event :=
  match xs, vs with
  | x :: xs, e :: vs => if mark x then freed_elem e ++ swept xs vs else swept xs vs
  | _, _ => []
  end.
Fixpoint ends_marked (xs : list item) : bool :=
  match xs with [] => false | [x] => mark x | _ :: xs => ends_marked xs end.

(** The items of a list own its values, each its own. *)
Definition owned (m : gmap Z ListItemVal) (xs : list item) (vs : list elem) : Prop :=
  Forall2 (owns m) xs vs /\ NoDup (obj <$> xs).
Lemma owned_remove m A x B vA e vB :
  Forall2 (owns m) A vA -> owned m (A ++ x :: B) (vA ++ e :: vB) ->
  drop_val (obj x) m = (delete (obj x) m, freed_elem e)
  /\ owned (delete (obj x) m) (A ++ B) (vA ++ vB).
Proof.
  intros HA [Ho Hnd]. apply Forall2_app_inv in Ho as [_ Ho]; [|by eapply Forall2_length].
  apply Forall2_cons_1 in Ho as [[Hn He] HB]. split.
  { unfold drop_val. by rewrite (proj2 (Z.eqb_neq _ _)), He by done. }
  rewrite fmap_app, fmap_cons, NoDup_app, NoDup_cons in Hnd.
  destruct Hnd as (HndA & HdA & HxB & HndB). split.
  - apply (owns_frame m); [|by apply Forall2_app]. intros y Hy. apply lookup_delete_ne. intros Heq.
    apply elem_of_app in Hy as [Hy|Hy]; apply (list_elem_of_fmap_2 obj) in Hy; rewrite <- Heq in Hy.
    + by apply (HdA (obj x) Hy), elem_of_cons; left.
    + done.
  - rewrite fmap_app. apply NoDup_app. split; [done|split; [|done]].
    intros o Ho Hin. apply (HdA o Ho). by apply elem_of_cons; right.
Qed.

Section sweep.
Context (self : ptr) (Hself : self <> NULL) (fl : option bool) (cs : list chain).

Lemma sweep_ok fuel : forall R A vA vR h,
  (length R < fuel)%nat -> Z.of_nat (length (A ++ R)) < 2 ^ 62 ->
  segs (items h) (Chain self NULL (A ++ R) NULL :: cs) ->
  Forall2 (owns (vals h)) A vA -> owned (vals h) (A ++ R) (vA ++ vR) ->
  let h0 := put_list self (summary (A ++ R) fl) h in
  if ends_marked R then remove_marked_from fuel self (first R NULL) h0 = UB NullDeref
  else exists m v, remove_marked_from fuel self (first R NULL) h0
      = Ok (tt, put_list self (summary (A ++ unmarked R) fl) (mkHeap m v (lists h)), swept R vR)
    /\ segs m (Chain self NULL (A ++ unmarked R) NULL :: cs)
    /\ owned v (A ++ unmarked R) (vA ++ kept R vR).
Proof.
  induction fuel as [|fuel IH]; intros R A vA vR h Hf Hsz Hs HA Ho h0; [lia|].
  destruct R as [|x R]; cbn [ends_marked first remove_marked_from].
  { exists (items h), (vals h). cbn [Z.eqb NULL]. unfold unmarked. rewrite filter_nil.
    assert (vR = []) as ->; [|split; [unfold h0; by destruct h|done]].
    destruct Ho as [Ho _]. apply Forall2_app_inv in Ho as [_ Ho]; [|by eapply Forall2_length].
    by apply Forall2_nil_inv_l in Ho. }
  destruct (node_middle _ _ _ _ _ _ Hs) as [Hx Hnode].
  rewrite (proj2 (Z.eqb_neq _ _)) by done.
  rewrite (bind_load_item h0 _ Hx _ _ Hnode). cbn [node base removed next].
  destruct vR as [|e vR].
  { destruct Ho as [Ho _]. apply Forall2_length in Ho. apply Forall2_length in HA.
    rewrite !length_app in Ho. simpl in Ho. lia. }
  destruct (mark x) eqn:Hmark.
  - destruct R as [|y R].
    { by apply bind_UB. }
    cbn [first].
    assert (Hprev : prev_of (addr y) h0 = Ok (addr x, h0, [])).
    { assert (Hs' := Hs). change (x :: y :: R) with ([x] ++ [y] ++ R) in Hs'.
      rewrite (app_assoc A [x]) in Hs'.
      destruct (node_middle h0 _ _ y R _ Hs') as [Hy Hny]. unfold prev_of.
      rewrite (bind_load_item _ _ Hy _ _ Hny). cbn [node prev]. by rewrite last_app. }
    rewrite (bind_quiet _ _ _ _ _ Hprev).
    destruct (owned_remove _ _ _ _ _ _ _ HA Ho) as [Hdrop Ho'].
    destruct (remove_item_dlist self Hself fl h A x (y :: R) cs Hsz Hs) as (m & E & S).
    { right. destruct Ho as [Ho _]. apply Forall2_app_inv in Ho as [_ Ho]; [|by eapply Forall2_length].
      apply Forall2_cons_1 in Ho as [[_ He] _]. by rewrite He. }
    rewrite Hdrop in E. cbn [fst snd] in E.
    assert (HA' : Forall2 (owns (delete (obj x) (vals h))) A vA).
    { destruct Ho' as [Ho' _]. apply Forall2_app_inv in Ho' as [? _]; [done|by eapply Forall2_length]. }
    specialize (IH (y :: R) A vA vR (mkHeap m (delete (obj x) (vals h)) (lists h))
      ltac:(simpl in *; lia) ltac:(rewrite length_app in *; simpl in *; lia) S HA' Ho').
    cbv zeta in IH. cbn [first lists] in IH.
    unfold unmarked. rewrite filter_cons_False by congruence. fold (unmarked (y :: R)).
    cbn [swept kept]. rewrite Hmark. destruct (ends_marked (y :: R)).
    + rewrite (bind_Ok _ _ _ _ _ _ E). unfold h0 in *. by rewrite IH.
    + destruct IH as (m' & v' & E' & S' & Ho''). exists m', v'. split; [|done].
      rewrite (bind_Ok _ _ _ _ _ _ E), E'. done.
  - replace (match R with [] => false | _ :: _ => ends_marked R end) with (ends_marked R)
      by (by destruct R).
    specialize (IH R (A ++ [x]) (vA ++ [e]) vR h).
    rewrite <- !app_assoc in IH. cbn [app] in IH.
    unfold unmarked. rewrite filter_cons_True by done. fold (unmarked R). cbn [swept kept]. rewrite Hmark.
    apply IH; [simpl in Hf; lia|done|done| |done].
    destruct Ho as [Ho _]. apply Forall2_app_inv in Ho as [_ Ho]; [|by eapply Forall2_length].
    apply Forall2_cons_1 in Ho as [Hxe _]. apply Forall2_app; [done|by constructor].
Qed.
End sweep.

(** C16: [DList_remove_marked_items] removes exactly the marked items, in order,
    and frees their values, unless the last item is marked: then the loop has
    stepped to NULL and reads its [prev]. *)
Theorem remove_marked_items_spec (cs : list chain) (self : ptr) (xs : list item) (vs : list elem)
    (h : heap) :
  self <> NULL -> lists h !! self = Some (summary xs (Some true)) ->
  segs (items h) (Chain self NULL xs NULL :: cs) -> Z.of_nat (length xs) < 2 ^ 62 ->
  owned (vals h) xs vs ->
  if ends_marked xs then DList_remove_marked_items self h = UB NullDeref
  else exists h', DList_remove_marked_items self h = Ok (tt, h', swept xs vs)
    /\ repr cs self (kept xs vs) h'.
Proof.
  intros Hself Hl Hs Hsz Ho.
  assert (Hsweep := sweep_ok self Hself (Some true) cs (S (walk_fuel (A := DListItem) h)) xs [] [] vs h
    ltac:(pose proof (fuel_ok h self xs cs Hs); lia) Hsz Hs ltac:(done) Ho).
  cbv zeta in Hsweep. rewrite put_list_id in Hsweep by done.
  assert (E0 : DList_remove_marked_items self h
    = remove_marked_from (S (walk_fuel (A := DListItem) h)) self (first xs NULL) h).
  { unfold DList_remove_marked_items. rewrite (proj2 (Z.eqb_neq _ _)) by done.
    rewrite <- (put_list_id _ _ _ Hl) at 1. rewrite (bind_load_list _ Hself).
    cbn [summary items_ready_for_removal begin_]. unfold item_fuel.
    by rewrite bind_gets, (put_list_id _ _ _ Hl). }
  rewrite E0. destruct (ends_marked xs); [done|].
  destruct Hsweep as (m & v & E & S & Ho' & Hnd). eexists. split; [exact E|].
  apply repr_intro; [done| |done|done|done]. unfold size. simpl in Ho'.
  rewrite <- (Forall2_length _ _ _ Ho'). unfold unmarked.
  pose proof (length_filter (fun x => mark x = false) xs). lia.
Qed.
Definition marked_heap (b1 b2 : bool) : heap := mkHeap
  {[ 2 := node 1 (mkItem 2 12 b1) NULL 3; 3 := node 1 (mkItem 3 13 b2) 2 NULL ]}
  {[ 12 := mkListItemVal 22 true 1; 13 := mkListItemVal 23 true 1 ]}
  {[ 1 := mkDList 2 3 2 (Some true) ]}.
Lemma remove_marked_items_spec_witness :
  (exists h', DList_remove_marked_items 1 (marked_heap true false) = Ok (tt, h', [EvFree 22])
    /\ repr [] 1 [(23, true)] h')
  /\ DList_remove_marked_items 1 (marked_heap false true) = UB NullDeref.
Proof.
  assert (Ho : forall b1 b2, owned (vals (marked_heap b1 b2)) (two_items b1 b2) [(22, true); (23, true)]).
  { intros b1 b2. split; [repeat constructor; vm_compute; done|].
    vm_compute. repeat (constructor; [set_solver|]). constructor. }
  split.
  - exact (remove_marked_items_spec [] 1 (two_items true false) [(22, true); (23, true)]
      (marked_heap true false) ltac:(done) eq_refl (two_items_segs true false) ltac:(simpl; lia) (Ho _ _)).
  - exact (remove_marked_items_spec [] 1 (two_items false true) [(22, true); (23, true)]
      (marked_heap false true) ltac:(done) eq_refl (two_items_segs false true) ltac:(simpl; lia) (Ho _ _)).
Defined.
