(* ===== verification/StringObject.v ===== *)
(** The deprecated string object, [source/StringObject.c]: a NUL-terminated
    array that grows by doubling.  The array is a block of bytes; what [realloc]
    adds to it has arbitrary contents.  [k] is the outcome of an operation's
    [realloc]: [None] when it fails, and otherwise the bytes behind the kept
    ones.  A failed [realloc] leaves the object without an array. *)
From S2P Require Import Prelude Memory Effects AlibTypes AlibString CString.
Open Scope Z_scope.

Definition u32 (z : Z) : Z := z mod 2 ^ 32.
Record StringObject := mkStringObject {
  str : option (list Z); length_ : Z; capacity : Z; min_mem : Z }.
Definition set_str (b : option (list Z)) (s : StringObject) := mkStringObject b (length_ s) (capacity s) (min_mem s).
Definition set_length (n : Z) (s : StringObject) := mkStringObject (str s) n (capacity s) (min_mem s).
Definition set_capacity (n : Z) (s : StringObject) := mkStringObject (str s) (length_ s) n (min_mem s).

(** The array at hand, and its replacement. *)
Definition chars : M StringObject (list Z) := b ← gets str; lift (deref b).
Definition set_chars (r : list Z -> res (list Z)) : M StringObject unit :=
  c ← chars; c ← lift (r c); modify (set_str (Some c)).
(** [strcpy] and [strncpy] from another array. *)
Definition strcpy_to (t : Z) (s : list Z) (c : list Z) : res (list Z) :=
  n ← strlen s 0; blk_copy c t s 0 (n + 1).
Definition strncpy_to (t : Z) (s : list Z) (count : Z) (c : list Z) : res (list Z) :=
  let read := Z.min count (blen (until_nul (slice s 0 count)) + 1) in
  d ← blk_read s 0 read;
  blk_write c t (until_nul d ++ replicate (Z.to_nat (count - blen (until_nul d))) 0).

(** * Memory *)
Definition realloc_str (k : option (list Z)) (b : option (list Z)) (size : Z) : option (list Z) :=
  match k with
  | None => None
  | Some added => Some (resize (Z.to_nat size) 0 (default [] b ++ added))
  end.
Definition StringObject_resize (k : option (list Z)) (size : Z) : M (option StringObject) Z :=
  on_obj ALIB_BAD_ARG (
    old ← gets str;
    if size =? 0 then
      modify (set_str (realloc_str k old 1));; b ← gets str;
      match b with
      | None => mret ALIB_MEM_ERR
      | Some _ => set_chars (fun c => blk_store c 0 0);; modify (set_capacity 1);; modify (set_length 0);;
                  mret ALIB_OK
      end
    else
      modify (set_capacity size);; modify (set_str (realloc_str k old size));; b ← gets str;
      match b with
      | None => mret ALIB_MEM_ERR
      | Some _ => (match old with Some _ => mret tt | None => set_chars (fun c => blk_store c 0 0) end);;
                  mret ALIB_OK
      end).
Definition StringObject_clear (k : option (list Z)) : M (option StringObject) unit :=
  on_obj tt (
    b ← gets str; c ← gets capacity; m ← gets min_mem;
    if match b with Some _ => true | None => false end && (c >? m) then here (StringObject_resize k 0);; mret tt
    else set_chars (fun c => blk_store c 0 0);; modify (set_length 0)).
Definition StringObject_clear_no_free : M (option StringObject) unit :=
  on_obj tt (set_chars (fun c => blk_store c 0 0);; modify (set_length 0)).

(** At most [2 ^ n] steps. *)
Fixpoint iter_until {A B} (n : nat) (f : A -> A + B) (a : A) : A + B :=
  match n with
  | O => f a
  | S n => match iter_until n f a with inl a => iter_until n f a | inr b => inr b end
  end.
(** One turn of [while(str->capacity < min_size)]. *)
Definition grow_step (min_mem min_size capacity : Z) : Z + Z :=
  if capacity <? min_size then
    inl (if capacity =? 0 then (if min_size <? min_mem then min_mem else min_size)
         else if capacity <? 64 * 1024 then u32 (capacity * 2)
         else u32 (capacity + 32 * 1024))
  else inr capacity.
Definition grow (min_mem min_size capacity : Z) : res Z :=
  match iter_until 33 (grow_step min_mem min_size) capacity with inl _ => Diverges | inr c => Ok c end.
(** "If the current size is way too big". *)
Definition too_big (min_size capacity : Z) : bool :=
  (min_size <? capacity) &&
  (((min_size <? 1024) && (u32 (min_size * 4) <? capacity)) || (u32 (min_size + 4 * 1024) <? capacity)).
Definition StringObject_calc_and_resize (k : option (list Z)) (min_size : Z) : M (option StringObject) Z :=
  on_obj ALIB_BAD_ARG (
    (if min_size =? 0 then here (StringObject_clear k) else
     c ← gets capacity;
     if too_big min_size c then here (StringObject_resize k min_size);; mret tt else
     m ← gets min_mem; c ← lift (grow m min_size c); modify (set_capacity c);;
     here (StringObject_resize k c);; mret tt);;
    mret ALIB_OK).

(** * Setting *)
Definition StringObject_set (k : option (list Z)) (str_value : option (list Z)) : M (option StringObject) Z :=
  on_obj ALIB_BAD_ARG (
    match str_value with
    | None => here (StringObject_clear k);; mret ALIB_OK
    | Some s =>
        n ← lift (strlen s 0); let n_str_len := u32 n in
        l ← gets length_; m ← gets min_mem;
        r ← (if (n_str_len >? l) || (u32 (l - n_str_len) >? u32 (m * 4))
             then here (StringObject_calc_and_resize k (u32 (n_str_len + 1))) else mret ALIB_OK);
        if negb (r =? ALIB_OK) then mret r else
        set_chars (strcpy_to 0 s);; modify (set_length n_str_len);; mret ALIB_OK
    end).
Definition StringObject_set_count (k : option (list Z)) (str_value : option (list Z)) (count : Z)
    : M (option StringObject) Z :=
  on_obj ALIB_BAD_ARG (
    if match str_value with None => count >? 0 | Some _ => false end then mret ALIB_BAD_ARG else
    if count =? 0 then here (StringObject_clear k);; mret ALIB_OK else
    s ← lift (deref str_value); c ← lift (blk_load s count);
    let n_str_len := if negb (c =? 0) then u32 (count + 1) else count in
    l ← gets length_; m ← gets min_mem;
    r ← (if (n_str_len >? l) || (u32 (l - n_str_len) >? u32 (m * 4))
         then here (StringObject_calc_and_resize k n_str_len) else mret ALIB_OK);
    if negb (r =? ALIB_OK) then mret r else
    set_chars (strncpy_to 0 s count);; set_chars (fun c => blk_store c n_str_len 0);;
    modify (set_length n_str_len);; mret ALIB_OK).

(** * Appending *)
Definition StringObject_append (k : option (list Z)) (str_to_append : option (list Z)) : M (option StringObject) Z :=
  on_obj ALIB_BAD_ARG (
    match str_to_append with
    | None => mret ALIB_BAD_ARG
    | Some s =>
        l ← gets length_; n ← lift (strlen s 0); let t_len := s32 (l + n + 1) in
        r ← here (StringObject_calc_and_resize k (u32 t_len));
        if negb (r =? ALIB_OK) then mret r else
        l ← gets length_; set_chars (strcpy_to l s);; modify (set_length (u32 (t_len - 1)));; mret ALIB_OK
    end).
Definition StringObject_append_count (k : option (list Z)) (str_to_append : option (list Z)) (count : Z)
    : M (option StringObject) Z :=
  on_obj ALIB_BAD_ARG (
    match str_to_append with
    | None => mret ALIB_BAD_ARG
    | Some s =>
        if count =? 0 then mret ALIB_OK else
        l ← gets length_; c ← lift (blk_load s (count - 1));
        let t_len := if negb (c =? 0) then u32 (l + count + 1) else u32 (l + count) in
        r ← here (StringObject_calc_and_resize k t_len);
        if negb (r =? ALIB_OK) then mret r else
        l ← gets length_; set_chars (strncpy_to l s count);;
        n ← lift (strlen s 0); let calc_len := u32 n in
        (if calc_len <? count then modify (set_length (u32 (l + calc_len)))
         else modify (set_length (u32 (t_len - 1)));;
              set_chars (fun c => blk_store c (u32 (t_len - 1)) 0));;
        mret ALIB_OK
    end).
(** The character is an array of one. *)
Definition StringObject_append_char (k : option (list Z)) (c : Z) : M (option StringObject) Z :=
  on_obj ALIB_BAD_ARG (here (StringObject_append_count k (Some [c]) 1)).
(** [sprintf] of an integer to an array of [size] bytes. *)
Definition sprintf_int (size n : Z) : res (list Z) :=
  if blen (print_dec n) + 1 <=? size then Ok (print_dec n ++ [0]) else UB OutOfBounds.
Definition StringObject_append_int (k : option (list Z)) (val : Z) : M (option StringObject) Z := fun o =>
  s ← sprintf_int (LLONG_MAX_CHAR_LEN + 1) val; StringObject_append k (Some s) o.
Definition StringObject_append_uint (k : option (list Z)) (val : Z) : M (option StringObject) Z := fun o =>
  s ← sprintf_int (ULLONG_MAX_CHAR_LEN + 1) val; StringObject_append k (Some s) o.
Definition bool_text (val : Z) : list Z :=
  if negb (val =? 0) then [116; 114; 117; 101; 0] else [102; 97; 108; 115; 101; 0].
Definition StringObject_append_bool (k : option (list Z)) (val : Z) : M (option StringObject) Z :=
  StringObject_append k (Some (bool_text val)).

(** * Inserting *)

(** [for(;*val_it != '\0' && val_real_size < val_len; ++val_it, ++val_real_size);] *)
Fixpoint real_size (fuel : nat) (val : list Z) (n val_len : Z) : res Z :=
  match fuel with
  | O => Diverges
  | S k => c ← blk_load val n;
           if negb (c =? 0) && (n <? val_len) then real_size k val (n + 1) val_len else Ok n
  end.
(** [val]: None for NULL. *)
Definition StringObject_insert_count (k : option (list Z)) (val : option (list Z)) (index val_len : Z)
    : M (option StringObject) Z := fun o =>
  s ← deref val; n ← real_size (S (length s)) s 0 val_len;
  let val_len := if n <? val_len then n else val_len in
  no_guard (
    l ← gets length_;
    err ← here (StringObject_calc_and_resize k (u32 (l + val_len + 1)));
    if negb (err =? 0) then mret err else
    l ← gets length_;
    set_chars (fun c => '(c, _) ← strncpy_back c (index + val_len) index (s32 (u32 (l - index))); Ok c);;
    set_chars (strncpy_to index s val_len);;
    modify (set_length (u32 (l + val_len)));;
    set_chars (fun c => blk_store c (u32 (l + val_len)) 0);; mret err) o.
Definition StringObject_insert (k : option (list Z)) (val : option (list Z)) (index : Z)
    : M (option StringObject) Z := fun o =>
  s ← deref val; n ← strlen s 0; StringObject_insert_count k val index (u32 n) o.
Definition StringObject_insert_int (k : option (list Z)) (val index : Z) : M (option StringObject) Z := fun o =>
  s ← sprintf_int (LLONG_MAX_CHAR_LEN + 1) val; StringObject_insert k (Some s) index o.
Definition StringObject_insert_uint (k : option (list Z)) (val index : Z) : M (option StringObject) Z := fun o =>
  s ← sprintf_int (ULLONG_MAX_CHAR_LEN + 1) val; StringObject_insert k (Some s) index o.
Definition StringObject_insert_bool (k : option (list Z)) (val index : Z) : M (option StringObject) Z :=
  StringObject_insert k (Some (bool_text val)) index.

(** * Letter case *)
(** The loops over the characters are the one of [str_to_lower]. *)
Definition StringObject_to_lower : M (option StringObject) unit :=
  on_obj tt (set_chars (fun c => convert_loop (S (length c)) tolower c 0)).
Definition StringObject_to_upper : M (option StringObject) unit :=
  on_obj tt (set_chars (fun c => convert_loop (S (length c)) toupper c 0)).
(** The copying loop, and the terminator it ends with. *)
Fixpoint convert_copy (fuel : nat) (f : Z -> Z) (c r : list Z) (it : Z) : res (list Z) :=
  match fuel with
  | O => Diverges
  | S k => x ← blk_load c it;
           if negb (x =? 0) then r ← blk_store r it (f x); convert_copy k f c r (it + 1)
           else blk_store r it x
  end.
(** [r]: the new array, [None] when [malloc] fails, which is not checked. *)
Definition copy_with (f : Z -> Z) (r : option (list Z)) : M (option StringObject) (option (list Z)) :=
  on_obj None (
    l ← gets length_; c ← chars;
    r ← lift (deref r); r ← lift (convert_copy (S (length c)) f c (resize (Z.to_nat (u32 (l + 1))) 0 r) 0);
    mret (Some r)).
Definition StringObject_to_lower_copy := copy_with tolower.
Definition StringObject_to_upper_copy := copy_with toupper.

(** * Shrinking, extracting, construction *)
Definition StringObject_shrink_to_fit (k : option (list Z)) : M (option StringObject) Z :=
  on_obj ALIB_BAD_ARG (l ← gets length_; here (StringObject_resize k (u32 (l + 1)))).
Definition StringObject_extract_c_string (k : option (list Z)) : M (option StringObject) (option (list Z)) :=
  on_obj None (
    r_str ← gets str; modify (set_str None);; modify (set_length 0);;
    m ← gets min_mem; e ← here (StringObject_resize k m);
    if negb (e =? 0) then modify (set_str r_str);; mret None else mret r_str).
(** [ok1], [ok2]: the outcomes of the two allocations. *)
Definition newStringObject (ok1 ok2 : bool) : option StringObject :=
  if ok1 && ok2 then Some (mkStringObject (Some [0]) 0 1 64) else None.
(** The pointer after the deletion; [str]: the double pointer, [None] for NULL. *)
Definition delStringObject (str : option (option StringObject)) : option (option StringObject) :=
  match str with None => None | Some _ => Some None end.

(** * Replacing *)

(** [for(..; j < substr_len && *c_it == *substr_ptr; ++j, --i, ++c_it, ++substr_ptr);] *)
Fixpoint match_len (fuel : nat) (c sub : list Z) (c_it j substr_len : Z) : res Z :=
  match fuel with
  | O => Diverges
  | S k =>
      if j <? substr_len then
        x ← blk_load c (c_it + j); y ← blk_load sub j;
        if x =? y then match_len k c sub c_it (j + 1) substr_len else Ok j
      else Ok j
  end.
(** The loop that fills [r_str], the object of the monad; [n] counts the calls on it, [ks] are the
    outcomes of their allocations. *)
Fixpoint replace_scan (fuel : nat) (ks : nat -> option (list Z)) (n : nat) (c sub : list Z)
    (newstr : option (list Z)) (substr_len i c_it ibegin substr_counter : Z) : M StringObject unit :=
  match fuel with
  | O => lift Diverges
  | S k =>
      if i >? 0 then
        x ← lift (blk_load c c_it); y ← lift (blk_load sub 0);
        if x =? y then
          j ← lift (match_len (S (length sub)) c sub c_it 0 substr_len);
          if j =? substr_len then
            here (StringObject_append_count (ks n) (Some (drop (Z.to_nat ibegin) c)) substr_counter);;
            match newstr with
            | Some _ => here (StringObject_append (ks (S n)) newstr);; mret tt
            | None => mret tt
            end;;
            replace_scan k ks (S (S n)) c sub newstr substr_len (i - j) (c_it + j) (c_it + j) 0
          else replace_scan k ks n c sub newstr substr_len (i - j) (c_it + j) ibegin (substr_counter + j)
        else replace_scan k ks n c sub newstr substr_len (i - 1) (c_it + 1) ibegin (substr_counter + 1)
      else
        when (negb (substr_counter =? 0))
          (here (StringObject_append_count (ks n) (Some (drop (Z.to_nat ibegin) c)) substr_counter);; mret tt)
  end.
(** [kn]: the outcomes of the two allocations of [r_str]; [kx]: of the extraction. *)
Definition StringObject_replace_substrings (kn : bool * bool) (ks : nat -> option (list Z))
    (kx : option (list Z)) (substring newstr : option (list Z)) : M (option StringObject) unit :=
  no_guard (
    i ← gets length_; b ← gets str;
    match b, substring, newStringObject kn.1 kn.2 with
    | Some c, Some sub, Some r =>
        substr_len ← lift (strlen sub 0);
        '(_, r, _) ← lift (replace_scan (S (Z.to_nat (s32 i))) ks 0 c sub newstr (s32 substr_len) (s32 i) 0 0 0 r);
        modify (set_capacity (capacity r));; modify (set_length (length_ r));;
        '(x, _, _) ← lift (StringObject_extract_c_string kx (Some r)); modify (set_str x)
    | _, _, _ => mret tt
    end).
