(* ===== verification/StringObjectSpec.v ===== *)
(** What the deprecated string object promises: its array grows by doubling and
    always reaches the size asked for, and a sequence of operations on an object
    behaves like the same operations on its text, as long as allocations
    succeed.  The operations that write or read past an array are stated as
    such. *)
From S2P Require Import Prelude Memory Effects Heap AlibTypes AlibString CString StringObject.
Open Scope Z_scope.

(** * Growth *)
Fixpoint nsteps {A B} (m : nat) (f : A -> A + B) (a : A) : A + B :=
  match m with
  | O => inl a
  | S m => match f a with inl a => nsteps m f a | inr b => inr b end
  end.
Lemma nsteps_add {A B} (f : A -> A + B) m1 m2 : forall a,
  nsteps (m1 + m2) f a = match nsteps m1 f a with inl a => nsteps m2 f a | inr b => inr b end.
Proof. induction m1 as [|m1 IH]; intros a; cbn; [done|]. destruct (f a); [apply IH|done]. Qed.
Lemma iter_until_nsteps {A B} (f : A -> A + B) n : forall a, iter_until n f a = nsteps (2 ^ n) f a.
Proof.
  induction n as [|n IH]; intros a; cbn [iter_until].
  - cbn. by destruct (f a).
  - rewrite IH, Nat.pow_succ_r', Nat.mul_succ_l, Nat.mul_1_l, nsteps_add.
    destruct (nsteps (2 ^ n) f a); [apply IH|done].
Qed.

Lemma grow_steps min_mem min_size m : forall c,
  0 < c < 2 ^ 32 -> 0 <= min_size <= 2 ^ 32 - 2 ^ 15 -> Z.max 0 (min_size - c) < Z.of_nat m ->
  exists c', nsteps m (grow_step min_mem min_size) c = inr c' /\ min_size <= c' < 2 ^ 32 /\ 0 < c' /\
    (min_size <= c -> c' = c) /\ (c < min_size -> c' < Z.max (2 * min_size) (min_size + 32 * 1024)).
Proof.
  induction m as [|m IH]; intros c Hc Hm Hd; [lia|].
  cbn [nsteps]. unfold grow_step at 1. destruct (Z.ltb_spec c min_size) as [Hlt|Hge]; [|exists c; repeat split; lia].
  rewrite (proj2 (Z.eqb_neq c 0)) by lia.
  assert (exists c1, (if c <? 64 * 1024 then u32 (c * 2) else u32 (c + 32 * 1024)) = c1 /\
    c < c1 < 2 ^ 32 /\ c1 < Z.max (2 * min_size) (min_size + 32 * 1024)) as (c1 & -> & H1 & H2).
  { unfold u32. destruct (Z.ltb_spec c (64 * 1024)); rewrite Z.mod_small by lia; eexists; split; [done|lia|done|lia]. }
  destruct (IH c1) as (c' & -> & H3 & H4 & H5 & H6); [lia..|]. exists c'.
  split; [done|]. split; [done|]. split; [done|]. split; [lia|]. intros _.
  destruct (Z.le_gt_cases min_size c1); [rewrite H5 by done; done|auto].
Qed.
(** The array grows to the size asked for in at most 2^33 turns, an existing one to less than twice that size or
    32k more. *)
Lemma grow_ok min_mem min_size c :
  0 <= c < 2 ^ 32 -> 0 < min_size <= 2 ^ 32 - 2 ^ 15 -> 0 <= min_mem < 2 ^ 32 ->
  exists c', grow min_mem min_size c = Ok c' /\ min_size <= c' < 2 ^ 32 /\ (min_size <= c -> c' = c) /\
    (0 < c < min_size -> c' < Z.max (2 * min_size) (min_size + 32 * 1024)).
Proof.
  intros Hc Hm Hmm. unfold grow. rewrite iter_until_nsteps.
  assert (Z.of_nat (2 ^ 33) = 2 ^ 33) as Hp by (by rewrite Nat2Z.inj_pow).
  remember (2 ^ 33)%nat as m eqn:Em. clear Em.
  destruct (decide (c = 0)) as [->|Hn].
  - destruct m as [|m]; [lia|]. cbn [nsteps]. unfold grow_step at 1.
    rewrite (proj2 (Z.ltb_lt 0 min_size)) by lia. change (0 =? 0) with true. cbn iota.
    set (c0 := if min_size <? min_mem then min_mem else min_size).
    assert (min_size <= c0 < 2 ^ 32) as H1
      by (unfold c0; destruct (Z.ltb_spec min_size min_mem); lia).
    destruct (grow_steps min_mem min_size m c0) as (c' & -> & H3 & _ & H5 & _); [lia..|].
    rewrite (H5 ltac:(lia)). exists c0. repeat split; lia.
  - destruct (grow_steps min_mem min_size m c) as (c' & -> & H3 & _ & H5 & H6); [lia..|].
    exists c'. repeat split; [lia..|auto|intros; apply H6; lia].
Qed.

(** * The text of an object *)
Record holds_text (o : StringObject) (t : list Z) : Prop := {
  ht_block : exists rest, str o = Some (t ++ 0 :: rest) /\ capacity o = blen t + 1 + blen rest;
  ht_length : length_ o = blen t;
  ht_nul : no_nul t;
  ht_cap : capacity o < 2 ^ 32;
  ht_min : 0 <= min_mem o < 2 ^ 32 }.
(** The C string at the beginning of an array. *)
Definition c_text (s : list Z) : list Z := until_nul s.
Lemma c_text_split s : 0 ∈ s -> exists rest, s = c_text s ++ 0 :: rest /\ no_nul (c_text s).
Proof.
  unfold c_text, no_nul. induction s as [|c s IH]; [by intros ?%elem_of_nil|]. intros H. cbn [until_nul].
  destruct (Z.eqb_spec c 0) as [->|Hc]; [exists s; by split|].
  apply elem_of_cons in H as [H|H]; [done|]. destruct (IH H) as (rest & E & Hn). exists rest.
  split; [cbn; by rewrite <- E|by constructor].
Qed.
Lemma strlen_text t rest : no_nul t -> strlen (t ++ 0 :: rest) 0 = Ok (blen t).
Proof. intros Ht. apply (strlen_ok []); done. Qed.
Lemma until_nul_app t rest : no_nul t -> until_nul (t ++ 0 :: rest) = t.
Proof. induction 1 as [|c t Hc _ IH]; cbn; [done|]. by rewrite (proj2 (Z.eqb_neq c 0)), IH. Qed.
Lemma until_nul_id t : no_nul t -> until_nul t = t.
Proof. induction 1 as [|c t Hc _ IH]; cbn; [done|]. by rewrite (proj2 (Z.eqb_neq c 0)), IH. Qed.

(** Writing behind a prefix. *)
Lemma splice_behind (t x d : list Z) : blen d <= blen x ->
  splice (t ++ x) (blen t) d = t ++ d ++ drop (length d) x.
Proof.
  intros H. unfold splice. rewrite take_blen_app. do 2 f_equal.
  unfold blen in *. replace (Z.to_nat (Z.of_nat (length t) + Z.of_nat (length d))) with (length t + length d)%nat by lia.
  by rewrite <- drop_drop, drop_app_length.
Qed.
Lemma strcpy_to_ok t x v rest : no_nul v -> blen v + 1 <= blen x ->
  strcpy_to (blen t) (v ++ 0 :: rest) (t ++ x) = Ok (t ++ v ++ 0 :: drop (length v + 1) x).
Proof.
  intros Hv Hx. unfold strcpy_to. rewrite strlen_text by done. rstep. pose proof (blen_nonneg v). pose proof (blen_nonneg t).
  rewrite blk_copy_ok by (rewrite ?blen_app, ?blen_cons; pose proof (blen_nonneg rest); lia).
  replace (slice (v ++ 0 :: rest) 0 (blen v + 1)) with (v ++ [0]).
  - rewrite splice_behind, <- app_assoc, length_app; [done|]. rewrite blen_snoc. lia.
  - change (v ++ 0 :: rest) with (v ++ [0] ++ rest). by rewrite app_assoc, <- (blen_snoc v 0), slice_prefix.
Qed.
Lemma strcpy_to_start x v rest : no_nul v -> blen v + 1 <= blen x ->
  strcpy_to 0 (v ++ 0 :: rest) x = Ok (v ++ 0 :: drop (length v + 1) x).
Proof. apply (strcpy_to_ok []). Qed.
Lemma until_nul_take (n : nat) v rest : no_nul v -> until_nul (take n (v ++ 0 :: rest)) = take n v.
Proof.
  intros Hv. revert n. induction Hv as [|c v Hc Hv IH]; intros [|n]; cbn; [done..|].
  by rewrite (proj2 (Z.eqb_neq c 0)), IH.
Qed.
Lemma strncpy_to_ok t x v rest (count : Z) : no_nul v -> 0 <= count <= blen x ->
  strncpy_to (blen t) (v ++ 0 :: rest) count (t ++ x)
  = Ok (t ++ take (Z.to_nat count) v ++ replicate (Z.to_nat count - length v) 0 ++ drop (Z.to_nat count) x).
Proof.
  intros Hv Hc. unfold strncpy_to, slice. change (Z.to_nat 0) with 0%nat. rewrite drop_0.
  rewrite until_nul_take by done. set (r := Z.min _ _).
  assert (blen (take (Z.to_nat count) v) = Z.min count (blen v)) as Hl by (unfold blen; rewrite length_take; lia).
  pose proof (blen_nonneg rest). pose proof (blen_nonneg v). pose proof (blen_nonneg t).
  rewrite blk_read_ok by (rewrite ?blen_app, ?blen_cons; unfold r; lia). rstep.
  unfold slice. change (Z.to_nat 0) with 0%nat. rewrite drop_0, until_nul_take by done.
  assert (take (Z.to_nat r) v = take (Z.to_nat count) v) as ->.
  { unfold r. rewrite Hl. destruct (Z.le_gt_cases count (blen v)).
    - f_equal. lia.
    - rewrite !take_ge; [done|unfold blen in *; lia..]. }
  rewrite Hl. set (d := _ ++ replicate _ 0).
  assert (length d = Z.to_nat count) as Hd.
  { unfold d. rewrite length_app, length_replicate, length_take. unfold blen in *. lia. }
  rewrite blk_write_ok by (rewrite ?blen_app; unfold blen in *; lia).
  rewrite splice_behind by (unfold blen in *; lia). unfold d at 1. rewrite <- app_assoc, Hd. do 4 f_equal.
  f_equal. unfold blen. lia.
Qed.
Lemma store_behind (t : list Z) x y z : blk_store (t ++ x :: z) (blen t) y = Ok (t ++ y :: z).
Proof. apply blk_store_middle. Qed.

(** * The memory of an object *)
Lemma resize_keeps (n : nat) t rest : (length t < n)%nat ->
  exists rest', resize n 0 (t ++ 0 :: rest) = t ++ 0 :: rest' /\ length rest' = (n - length t - 1)%nat.
Proof.
  intros Hn. rewrite resize_app_ge by lia. destruct (n - length t)%nat as [|m] eqn:E; [lia|].
  exists (resize m 0 rest). split; [done|]. rewrite length_resize. lia.
Qed.
(** The capacity after a call for [min_size] bytes. *)
Definition new_capacity (min_size : Z) (o : StringObject) : res Z :=
  if too_big min_size (capacity o) then Ok min_size else grow (min_mem o) min_size (capacity o).
Lemma new_capacity_ok min_size o :
  0 <= capacity o < 2 ^ 32 -> 0 < min_size <= 2 ^ 32 - 2 ^ 15 -> 0 <= min_mem o < 2 ^ 32 ->
  exists c, new_capacity min_size o = Ok c /\ min_size <= c < 2 ^ 32.
Proof.
  intros Hc Hm Hmm. unfold new_capacity. destruct (too_big _ _); [exists min_size; split; [done|lia]|].
  destruct (grow_ok (min_mem o) min_size (capacity o)) as (c & E & H & _); [done..|]. by exists c.
Qed.
Lemma object_resize_ok added b l c m (n : Z) : 0 < n ->
  StringObject_resize (Some added) n (Some (mkStringObject (Some b) l c m))
  = Ok (ALIB_OK, Some (mkStringObject (Some (resize (Z.to_nat n) 0 (b ++ added))) l n m), []).
Proof.
  intros Hn. unfold StringObject_resize, on_obj. rewrite bind_gets. cbn [str].
  rewrite (proj2 (Z.eqb_neq n 0)), !bind_modify, bind_gets by lia. done.
Qed.
Lemma calc_and_resize_ok added b l c m (min_size c' : Z) : 0 < min_size ->
  new_capacity min_size (mkStringObject (Some b) l c m) = Ok c' -> 0 < c' ->
  StringObject_calc_and_resize (Some added) min_size (Some (mkStringObject (Some b) l c m))
  = Ok (ALIB_OK, Some (mkStringObject (Some (resize (Z.to_nat c') 0 (b ++ added))) l c' m), []).
Proof.
  intros Hn Hc Hpos. unfold new_capacity in Hc. cbn [capacity min_mem] in Hc.
  unfold StringObject_calc_and_resize, on_obj. rewrite (proj2 (Z.eqb_neq min_size 0)), bind_bind by lia.
  rewrite bind_gets. cbn [capacity]. destruct (too_big min_size c).
  - injection Hc as <-. rewrite bind_bind.
    by erewrite bind_quiet by (by eapply here_Some, object_resize_ok).
  - rewrite bind_bind, bind_gets, bind_bind. cbn [min_mem].
    rewrite (bind_lift _ _ _ _ Hc), bind_bind, bind_modify, bind_bind.
    by erewrite bind_quiet by (by eapply here_Some, object_resize_ok).
Qed.
(** On an object with a text that fits the new size. *)
Lemma room_for added o t (min_size : Z) :
  holds_text o t -> blen t < min_size <= 2 ^ 32 - 2 ^ 15 ->
  exists rest c, StringObject_calc_and_resize (Some added) min_size (Some o)
      = Ok (ALIB_OK, Some (mkStringObject (Some (t ++ 0 :: rest)) (blen t) c (min_mem o)), []) /\
    new_capacity min_size o = Ok c /\ min_size <= c < 2 ^ 32 /\ blen t + 1 + blen rest = c.
Proof.
  intros [(rest & Hb & Hcap) Hl Hn Hc Hm] Hsz. pose proof (blen_nonneg t). pose proof (blen_nonneg rest).
  destruct (new_capacity_ok min_size o) as (c & Ec & Hcs); [lia..|].
  destruct o as [b l c0 m]. cbn [str length_ capacity min_mem] in *. subst b l.
  rewrite (calc_and_resize_ok added _ _ _ _ min_size c) by (done || lia). rewrite <- app_assoc. cbn [app].
  destruct (resize_keeps (Z.to_nat c) t (rest ++ added)) as (rest' & -> & Hl'); [unfold blen in *; lia|].
  exists rest', c. split; [done|]. split; [done|]. split; [done|]. unfold blen in *. lia.
Qed.

Lemma no_nul_nil : no_nul [].
Proof. constructor. Qed.
Lemma mk_text t rest c m : no_nul t -> c = blen t + 1 + blen rest -> c < 2 ^ 32 -> 0 <= m < 2 ^ 32 ->
  holds_text (mkStringObject (Some (t ++ 0 :: rest)) (blen t) c m) t.
Proof. intros Ht Hc Hb Hm. split; cbn; [by exists rest|done..]. Qed.

(** C15: whatever size up to 4 GB less 32k is asked for, an object whose text fits it gets at least that size:
    the growth loop ends, the capacity it ends with does not wrap and stays below twice the size or 32k
    above it, an array that is large enough never grows, and the text is kept. *)
Theorem calc_and_resize_bounds (added : list Z) (o : StringObject) (t : list Z) (min_size : Z) :
  holds_text o t -> blen t < min_size <= 2 ^ 32 - 2 ^ 15 ->
  exists o', StringObject_calc_and_resize (Some added) min_size (Some o) = Ok (ALIB_OK, Some o', []) /\
    holds_text o' t /\ min_size <= capacity o' < 2 ^ 32 /\
    (capacity o < min_size -> capacity o' < Z.max (2 * min_size) (min_size + 32 * 1024)) /\
    (min_size <= capacity o -> capacity o' <= capacity o).
Proof.
  intros Ho Hsz. destruct (room_for added o t min_size Ho Hsz) as (rest & c & E & Ec & Hc & Hl).
  pose proof Ho as [(rest0 & _ & Hcap) _ Hn Hcap' Hm]. pose proof (blen_nonneg t). pose proof (blen_nonneg rest0).
  eexists. split; [exact E|]. split; [apply mk_text; [done|lia..]|]. cbn [capacity]. split; [done|].
  unfold new_capacity in Ec. destruct (too_big min_size (capacity o)) eqn:Eb.
  - injection Ec as <-. unfold too_big in Eb. apply andb_true_iff in Eb as [Eb _]. apply Z.ltb_lt in Eb. lia.
  - destruct (grow_ok (min_mem o) min_size (capacity o)) as (c' & E' & H1 & H2 & H3); [lia..|].
    rewrite E' in Ec. injection Ec as ->. split; [intros; apply H3; lia|intros; rewrite H2; lia].
Qed.

(** * The operations *)
Lemma bind_set_chars {B} (r : list Z -> res (list Z)) (k : unit -> M StringObject B) c c' l n m :
  r c = Ok c' -> mbind k (set_chars r) (mkStringObject (Some c) l n m) = k tt (mkStringObject (Some c') l n m).
Proof.
  intros Hr. unfold set_chars, chars. rewrite bind_bind, bind_bind, bind_gets. cbn [str].
  rewrite (bind_lift _ c), bind_bind, (bind_lift _ c') by done. by rewrite bind_modify.
Qed.
Lemma bind_set_chars_UB {B} (r : list Z -> res (list Z)) (k : unit -> M StringObject B) c l n m f :
  r c = UB f -> mbind k (set_chars r) (mkStringObject (Some c) l n m) = UB f.
Proof.
  intros Hr. apply bind_UB. unfold set_chars, chars. rewrite bind_bind, bind_gets. cbn [str].
  rewrite (bind_lift _ c) by done. apply bind_UB. unfold lift. by rewrite Hr.
Qed.
Lemma text_inv o t : holds_text o t -> exists rest c m,
  o = mkStringObject (Some (t ++ 0 :: rest)) (blen t) c m /\ c = blen t + 1 + blen rest /\ no_nul t /\
  c < 2 ^ 32 /\ 0 <= m < 2 ^ 32.
Proof.
  intros [(rest & Hb & Hcap) Hl Hn Hc Hm]. destruct o as [b l c m].
  cbn [str length_ capacity min_mem] in *. subst b l. by exists rest, c, m.
Qed.

(** A NUL at the beginning. *)
Lemma store_start t rest : exists rest', blk_store (t ++ 0 :: rest) 0 0 = Ok (0 :: rest') /\
  blen rest' = blen t + blen rest.
Proof.
  destruct t as [|x t].
  - exists rest. split; [|done]. apply (store_behind []).
  - exists (t ++ 0 :: rest). split; [apply (store_behind [])|]. rewrite blen_app, !blen_cons. lia.
Qed.
Lemma object_clear_ok added o t : holds_text o t ->
  exists o', StringObject_clear (Some added) (Some o) = Ok (tt, Some o', []) /\ holds_text o' [].
Proof.
  intros (rest & c0 & m & -> & Hcap & Hn & Hc & Hm)%text_inv. pose proof (blen_nonneg t). pose proof (blen_nonneg rest).
  unfold StringObject_clear, on_obj. rewrite !bind_gets. cbn [str capacity min_mem andb].
  destruct (c0 >? m).
  - assert (exists x, resize 1 0 ((t ++ 0 :: rest) ++ added) = [x]) as [x Hx].
    { destruct ((t ++ 0 :: rest) ++ added) as [|x l]; [by exists 0|]. exists x. cbn. by destruct l. }
    eexists. split.
    + erewrite bind_quiet; [done|]. eapply here_Some. unfold StringObject_resize, on_obj.
      rewrite bind_gets. cbn [Z.eqb]. rewrite bind_modify, bind_gets. cbn [str set_str realloc_str default].
      unfold set_str. cbn [str length_ capacity min_mem]. change (Z.to_nat 1) with 1%nat. unfold id. rewrite Hx.
      rewrite (bind_set_chars _ _ _ [0]) by done. by rewrite !bind_modify.
    + apply (mk_text [] []); [constructor|done..].
  - destruct (store_start t rest) as (rest' & E & Hr). eexists. split.
    + by rewrite (bind_set_chars _ _ _ _ _ _ _ E).
    + apply (mk_text [] rest'); [constructor| |done..]. cbn [capacity]. change (@blen Z []) with 0. lia.
Qed.
Lemma clear_no_free_ok o t : holds_text o t ->
  exists o', StringObject_clear_no_free (Some o) = Ok (tt, Some o', []) /\ holds_text o' [].
Proof.
  intros (rest & c0 & m & -> & Hcap & Hn & Hc & Hm)%text_inv.
  destruct (store_start t rest) as (rest' & E & Hr). eexists. split.
  - unfold StringObject_clear_no_free, on_obj. by rewrite (bind_set_chars _ _ _ _ _ _ _ E).
  - apply (mk_text [] rest'); [constructor| |done..]. cbn [capacity]. change (@blen Z []) with 0. lia.
Qed.
Lemma object_append_ok added o t v r : holds_text o t -> no_nul v -> blen t + blen v + 1 <= 2 ^ 31 - 1 ->
  exists o', StringObject_append (Some added) (Some (v ++ 0 :: r)) (Some o) = Ok (ALIB_OK, Some o', []) /\
    holds_text o' (t ++ v).
Proof.
  intros Ho Hv Hsz. pose proof (blen_nonneg t). pose proof (blen_nonneg v). pose proof Ho as Ho'.
  apply text_inv in Ho' as (rest & c0 & m & -> & Hcap & Hn & Hc & Hm).
  destruct (room_for added _ t (blen t + blen v + 1) Ho) as (rest' & c & E & _ & Hcs & Hcl); [lia|].
  unfold StringObject_append, on_obj. rewrite bind_gets. cbn [length_].
  rewrite (bind_lift _ (blen v)) by by apply strlen_text.
  replace (s32 (blen t + blen v + 1)) with (blen t + blen v + 1) by (rewrite s32_small; lia).
  replace (u32 (blen t + blen v + 1)) with (blen t + blen v + 1) by (unfold u32; rewrite Z.mod_small; lia).
  erewrite bind_quiet by (by eapply here_Some). change (negb (ALIB_OK =? ALIB_OK)) with false. cbv iota.
  rewrite bind_gets. cbn [length_ min_mem].
  erewrite bind_set_chars; [|apply strcpy_to_ok; [done|rewrite blen_cons; lia]].
  rewrite bind_modify. eexists. split; [done|]. unfold set_length, u32. cbn [str capacity min_mem].
  rewrite Z.mod_small by lia. replace (blen t + blen v + 1 - 1) with (blen (t ++ v)) by (rewrite blen_app; lia).
  rewrite app_assoc. apply mk_text; [by apply Forall_app| |lia|done].
  rewrite blen_app. unfold blen in *. rewrite length_drop. cbn [length]. lia.
Qed.
Lemma set_ok added o t v r : holds_text o t -> no_nul v -> blen v + 1 <= 2 ^ 31 - 1 ->
  exists o', StringObject_set (Some added) (Some (v ++ 0 :: r)) (Some o) = Ok (ALIB_OK, Some o', []) /\
    holds_text o' v.
Proof.
  intros (rest & c0 & m & -> & Hcap & Hn & Hc & Hm)%text_inv Hv Hsz.
  pose proof (blen_nonneg t). pose proof (blen_nonneg v). pose proof (blen_nonneg rest).
  unfold StringObject_set, on_obj. rewrite (bind_lift _ (blen v)) by by apply strlen_text. cbn zeta.
  replace (u32 (blen v)) with (blen v) by (unfold u32; rewrite Z.mod_small; lia).
  replace (u32 (blen v + 1)) with (blen v + 1) by (unfold u32; rewrite Z.mod_small; lia).
  rewrite !bind_gets. cbn [length_ min_mem].
  set (o := mkStringObject (Some (t ++ 0 :: rest)) (blen t) c0 m).
  destruct ((blen v >? blen t) || (u32 (blen t - blen v) >? u32 (m * 4))) eqn:Er.
  - destruct (new_capacity_ok (blen v + 1) o) as (c & Ec & Hcs); [cbn; lia..|].
    erewrite bind_quiet by (eapply here_Some, (calc_and_resize_ok added _ _ _ _ _ c); [lia|exact Ec|lia]).
    change (negb (ALIB_OK =? ALIB_OK)) with false. cbv iota.
    set (b := resize (Z.to_nat c) 0 _). assert (blen b = c) as Hb by (unfold blen, b; rewrite length_resize; lia).
    erewrite bind_set_chars by (apply strcpy_to_start; [done|lia]). rewrite bind_modify. eexists. split; [done|].
    apply mk_text; [done| |cbn [capacity]; lia|done].
    cbn [capacity]. unfold blen in *. rewrite length_drop. lia.
  - apply orb_false_iff in Er as [Er _]. rewrite Z.gtb_ltb, Z.ltb_ge in Er. rewrite bind_mret. unfold o.
    change (negb (ALIB_OK =? ALIB_OK)) with false. cbv iota.
    erewrite bind_set_chars by (apply strcpy_to_start; [done|rewrite blen_app, blen_cons; lia]).
    rewrite bind_modify. eexists. split; [done|]. apply mk_text; [done| |done..].
    cbn [capacity]. unfold blen in *. rewrite length_drop, length_app. cbn [length]. lia.
Qed.
Lemma set_null_ok added o t : holds_text o t ->
  exists o', StringObject_set (Some added) None (Some o) = Ok (ALIB_OK, Some o', []) /\ holds_text o' [].
Proof.
  intros Ho. destruct (object_clear_ok added o t Ho) as (o' & E & Ho'). exists o'. split; [|done].
  unfold StringObject_set, on_obj. by erewrite bind_quiet by (by eapply here_Some).
Qed.
(** Up to [count] characters of a C string [v]. *)
Lemma object_append_count_ok added o t v r (count : Z) : holds_text o t -> no_nul v ->
  0 <= count <= blen v + 1 + blen r -> blen t + count + 1 <= 2 ^ 31 - 1 -> blen v < 2 ^ 32 ->
  exists o', StringObject_append_count (Some added) (Some (v ++ 0 :: r)) count (Some o)
      = Ok (ALIB_OK, Some o', []) /\ holds_text o' (t ++ take (Z.to_nat count) v).
Proof.
  intros Ho Hv Hcount Hsz Hvs. unfold StringObject_append_count, on_obj.
  destruct (Z.eqb_spec count 0) as [->|Hne].
  { exists o. split; [done|]. by rewrite take_0, app_nil_r. }
  pose proof (blen_nonneg t). pose proof (blen_nonneg v). pose proof (blen_nonneg r). pose proof Ho as Ho'.
  apply text_inv in Ho' as (rest & c0 & m & -> & Hcap & Hn & Hc & Hm). rewrite bind_gets. cbn [length_].
  destruct (lookup_lt_is_Some_2 (v ++ 0 :: r) (Z.to_nat (count - 1))) as [x Hx].
  { unfold blen in *. rewrite length_app. cbn [length]. lia. }
  rewrite (bind_lift _ x) by (apply blk_load_ok; [lia|done]). cbn zeta.
  set (t_len := if negb (x =? 0) then u32 (blen t + count + 1) else u32 (blen t + count)).
  assert (blen t + count <= t_len <= blen t + count + 1 /\ (count <= blen v -> t_len = blen t + count + 1)) as [Ht1 Ht2].
  { assert (count <= blen v -> x <> 0).
    { intros Hle. rewrite lookup_app_l in Hx by (unfold blen in *; lia).
      apply list_elem_of_lookup_2 in Hx. unfold no_nul in Hv. rewrite Forall_forall in Hv. by apply Hv. }
    unfold t_len, u32. destruct (Z.eqb_spec x 0); cbn [negb]; rewrite Z.mod_small by lia; split; lia. }
  clearbody t_len.
  destruct (room_for added _ t t_len Ho) as (rest' & c & E & _ & Hcs & Hcl); [lia|].
  erewrite bind_quiet by (by eapply here_Some). change (negb (ALIB_OK =? ALIB_OK)) with false. cbv iota.
  rewrite bind_gets. cbn [length_ min_mem].
  erewrite bind_set_chars by (apply strncpy_to_ok; [done|rewrite blen_cons; lia]).
  rewrite (bind_lift _ (blen v)) by by apply strlen_text. cbn zeta.
  replace (u32 (blen v)) with (blen v) by (unfold u32; rewrite Z.mod_small; lia).
  destruct (Z.ltb_spec (blen v) count) as [Hlt|Hge].
  - rewrite bind_modify. eexists. split; [done|]. unfold set_length, u32. cbn [str capacity min_mem].
    rewrite Z.mod_small by lia. rewrite take_ge by (unfold blen in *; lia).
    destruct (Z.to_nat count - length v)%nat as [|k] eqn:Ek; [unfold blen in *; lia|]. cbn [replicate app].
    rewrite <- (blen_app t v), (app_assoc t v). apply mk_text; [by apply Forall_app| |lia|done].
    rewrite blen_app. unfold blen in *. rewrite length_app, length_replicate, length_drop. cbn [length]. lia.
  - rewrite bind_bind, bind_modify. rewrite Ht2 by lia. unfold set_length, u32. cbn [str capacity min_mem].
    rewrite Z.mod_small by lia. replace (blen t + count + 1 - 1) with (blen t + count) by lia.
    replace (Z.to_nat count - length v)%nat with 0%nat by (unfold blen in *; lia). cbn [replicate app].
    assert (blen (take (Z.to_nat count) v) = count) as Hlt by (unfold blen in *; rewrite length_take; lia).
    destruct (drop (Z.to_nat count) (0 :: rest')) as [|y l] eqn:Ed.
    { apply (f_equal length) in Ed. rewrite length_drop in Ed. unfold blen in *. cbn [length] in Ed. lia. }
    replace (t ++ take (Z.to_nat count) v ++ y :: l) with ((t ++ take (Z.to_nat count) v) ++ y :: l)
      by by rewrite <- app_assoc.
    replace (blen t + count) with (blen (t ++ take (Z.to_nat count) v)) by (rewrite blen_app; lia).
    erewrite bind_set_chars by apply store_behind. eexists. split; [done|].
    apply mk_text; [by apply Forall_app; split; [|apply Forall_take]| |lia|done].
    apply (f_equal blen) in Ed. unfold blen in Ed at 1. rewrite length_drop in Ed.
    rewrite blen_app, blen_cons in *. unfold blen in *. cbn [length] in Ed. lia.
Qed.
Lemma shrink_ok added o t : holds_text o t -> blen t + 1 < 2 ^ 32 ->
  exists o', StringObject_shrink_to_fit (Some added) (Some o) = Ok (ALIB_OK, Some o', []) /\ holds_text o' t /\
    capacity o' = blen t + 1.
Proof.
  intros (rest & c0 & m & -> & Hcap & Hn & Hc & Hm)%text_inv Hsz. pose proof (blen_nonneg t).
  unfold StringObject_shrink_to_fit, on_obj. rewrite bind_gets. cbn [length_].
  replace (u32 (blen t + 1)) with (blen t + 1) by (unfold u32; rewrite Z.mod_small; lia).
  eexists. split; [by erewrite here_Some by (apply object_resize_ok; lia)|]. split; [|done].
  rewrite <- app_assoc. cbn [app].
  destruct (resize_keeps (Z.to_nat (blen t + 1)) t (rest ++ added)) as (rest' & -> & Hl); [unfold blen in *; lia|].
  apply mk_text; [done| |lia|done]. unfold blen in *. lia.
Qed.
(** Changing the case keeps the length. *)
Definition case_map (f : Z -> Z) : Prop := forall c, c <> 0 -> f c <> 0.
Lemma tolower_case : case_map tolower.
Proof. intros c Hc. unfold tolower. repeat case_cmp; cbn; lia. Qed.
Lemma toupper_case : case_map toupper.
Proof. intros c Hc. unfold toupper. repeat case_cmp; cbn; lia. Qed.
Lemma convert_text f o t : case_map f -> holds_text o t -> exists o',
  on_obj tt (set_chars (fun c => convert_loop (S (length c)) f c 0)) (Some o) = Ok (tt, Some o', []) /\
  holds_text o' (map f t).
Proof.
  intros Hf (rest & c0 & m & -> & Hcap & Hn & Hc & Hm)%text_inv.
  assert (blen (map f t) = blen t) as Hl by (unfold blen; by rewrite length_map).
  eexists. split.
  - unfold on_obj, set_chars, chars. rewrite bind_bind, bind_gets. cbn [str]. rewrite (bind_lift _ (t ++ 0 :: rest)) by done.
    erewrite bind_lift.
    2:{ apply (convert_loop_ok _ f t []); [done|]. rewrite length_app. lia. }
    done.
  - unfold set_str. cbn [length_ capacity min_mem app]. rewrite <- Hl. apply mk_text; [|lia|done..].
    unfold no_nul in *. rewrite Forall_map. eapply Forall_impl; [exact Hn|]. intros x Hx. by apply Hf.
Qed.
Lemma sprintf_append added o t n :
  holds_text o t -> LONG_MIN <= n <= ULONG_MAX -> blen t + 21 <= 2 ^ 31 - 1 ->
  exists o', StringObject_append_int (Some added) n (Some o)
      = Ok (ALIB_OK, Some o', []) /\ holds_text o' (t ++ print_dec n).
Proof.
  intros Ho Hn Hsz. destruct (print_dec_spec n Hn) as (_ & Hnn & Hl). unfold StringObject_append_int, sprintf_int.
  rewrite (proj2 (Z.leb_le _ _)) by (unfold LLONG_MAX_CHAR_LEN; lia). rstep. apply object_append_ok; [done..|lia].
Qed.

(** * A sequence of operations *)
Inductive op :=
| OSet (s : list Z) | OSetNull | OAppend (s : list Z) | OAppendCount (s : list Z) (count : Z)
| OAppendInt (val : Z) | OAppendUint (val : Z) | OAppendBool (val : Z)
| OClear | OClearNoFree | OLower | OUpper | OShrink.
(** [added]: what the operation's [realloc] finds behind the old array. *)
Definition call (added : list Z) (c : op) : M (option StringObject) unit :=
  let k := Some added in
  match c with
  | OSet s => StringObject_set k (Some s);; mret tt
  | OSetNull => StringObject_set k None;; mret tt
  | OAppend s => StringObject_append k (Some s);; mret tt
  | OAppendCount s n => StringObject_append_count k (Some s) n;; mret tt
  | OAppendInt n => StringObject_append_int k n;; mret tt
  | OAppendUint n => StringObject_append_uint k n;; mret tt
  | OAppendBool b => StringObject_append_bool k b;; mret tt
  | OClear => StringObject_clear k
  | OClearNoFree => StringObject_clear_no_free
  | OLower => StringObject_to_lower
  | OUpper => StringObject_to_upper
  | OShrink => StringObject_shrink_to_fit k;; mret tt
  end.
Fixpoint run (added : nat -> list Z) (n : nat) (cs : list op) : M (option StringObject) unit :=
  match cs with [] => mret tt | c :: cs => call (added n) c;; run added (S n) cs end.
(** What the operations do to the text. *)
Definition effect (c : op) (t : list Z) : list Z :=
  match c with
  | OSet s => c_text s
  | OSetNull | OClear | OClearNoFree => []
  | OAppend s => t ++ c_text s
  | OAppendCount s n => t ++ take (Z.to_nat n) (c_text s)
  | OAppendInt n | OAppendUint n => t ++ print_dec n
  | OAppendBool b => t ++ (if b =? 0 then [102; 97; 108; 115; 101] else [116; 114; 117; 101])
  | OLower => map tolower t
  | OUpper => map toupper t
  | OShrink => t
  end.
(** The arguments are C strings and numbers of their types, and the text stays below 2 GB. *)
Definition fits (c : op) (t : list Z) : Prop :=
  match c with
  | OSet s => 0 ∈ s /\ blen s <= 2 ^ 31 - 1
  | OAppend s => 0 ∈ s /\ blen t + blen s <= 2 ^ 31 - 1
  | OAppendCount s n => 0 ∈ s /\ blen s < 2 ^ 32 /\ 0 <= n <= blen s /\ blen t + n + 1 <= 2 ^ 31 - 1
  | OAppendInt n => LONG_MIN <= n <= LONG_MAX /\ blen t + 21 <= 2 ^ 31 - 1
  | OAppendUint n => 0 <= n <= ULONG_MAX /\ blen t + 21 <= 2 ^ 31 - 1
  | OAppendBool _ | OShrink => blen t + 21 <= 2 ^ 31 - 1
  | _ => True
  end.
Fixpoint all_fit (cs : list op) (t : list Z) : Prop :=
  match cs with [] => True | c :: cs => fits c t /\ all_fit cs (effect c t) end.

Lemma bind_mret_r {A} (m : M (option StringObject) A) a o t :
  (exists o', m (Some o) = Ok (a, Some o', []) /\ holds_text o' t) ->
  exists o', (m;; mret tt) (Some o) = Ok (tt, Some o', []) /\ holds_text o' t.
Proof. intros (o' & E & H). exists o'. split; [by rewrite (bind_quiet _ _ _ _ _ E)|done]. Qed.
(** An argument that is a C string. *)
Lemma c_argument s : 0 ∈ s -> exists v r, s = v ++ 0 :: r /\ no_nul v /\ c_text s = v /\
  blen s = blen v + 1 + blen r /\ 0 <= blen r.
Proof.
  intros Hz. destruct (c_text_split s Hz) as (r & Es & Hn). exists (c_text s), r.
  split; [done|]. split; [done|]. split; [done|]. split; [|apply blen_nonneg].
  rewrite Es at 1. rewrite blen_app, blen_cons. lia.
Qed.
Lemma call_text added c o t : holds_text o t -> fits c t ->
  exists o', call added c (Some o) = Ok (tt, Some o', []) /\ holds_text o' (effect c t).
Proof.
  intros Ho Hf. destruct c; cbn [call effect fits] in *; try (eapply bind_mret_r).
  - destruct Hf as [Hz Hl]. destruct (c_argument s Hz) as (v & r & -> & Hn & -> & Hb & Hr).
    apply (set_ok added o t v r); [done..|lia].
  - by apply (set_null_ok added o t).
  - destruct Hf as [Hz Hl]. destruct (c_argument s Hz) as (v & r & -> & Hn & -> & Hb & Hr).
    apply (object_append_ok added o t v r); [done..|lia].
  - destruct Hf as (Hz & Hl & Hc & Hsz). destruct (c_argument s Hz) as (v & r & -> & Hn & -> & Hb & Hr).
    apply (object_append_count_ok added o t v r); [done..|lia|lia|lia].
  - apply sprintf_append; [done|unfold LONG_MAX, ULONG_MAX in *; lia|lia].
  - change (StringObject_append_uint (Some added) val) with (StringObject_append_int (Some added) val).
    apply sprintf_append; [done|unfold LONG_MIN, ULONG_MAX in *; lia|lia].
  - unfold StringObject_append_bool, bool_text. destruct (val =? 0); cbn [negb].
    + apply (object_append_ok added o t [102; 97; 108; 115; 101] []); [done|by repeat (constructor; [done|])|rewrite !blen_cons, blen_nil; lia].
    + apply (object_append_ok added o t [116; 114; 117; 101] []); [done|by repeat (constructor; [done|])|rewrite !blen_cons, blen_nil; lia].
  - by apply (object_clear_ok added o t).
  - by apply (clear_no_free_ok o t).
  - apply convert_text; [apply tolower_case|done].
  - apply convert_text; [apply toupper_case|done].
  - destruct (shrink_ok added o t Ho) as (o' & E & H' & _); [lia|]. by exists o'.
Qed.

(** C10: as long as allocations succeed, whatever memory they return, a sequence of operations on a
    string object returns, keeps the object well formed (a NUL behind the text inside the allocated
    bytes, the length of the text) and leaves the text that the same operations leave on a list of
    characters: the array grows and shrinks without the text noticing. *)
Theorem run_refines_text (added : nat -> list Z) (cs : list op) (o : StringObject) (t : list Z) :
  holds_text o t -> all_fit cs t ->
  exists o', run added 0 cs (Some o) = Ok (tt, Some o', []) /\ holds_text o' (foldl (fun t c => effect c t) t cs).
Proof.
  intros Ho Hf. revert o t Ho Hf. generalize 0%nat as n. induction cs as [|c cs IH]; intros n o t Ho Hf.
  - by exists o.
  - destruct Hf as [Hc Hcs]. destruct (call_text (added n) c o t Ho Hc) as (o1 & E & H1).
    destruct (IH (S n) o1 _ H1 Hcs) as (o' & E' & H'). exists o'. split; [|done].
    cbn [run]. by rewrite (bind_quiet _ _ _ _ _ E).
Qed.
Lemma new_string_text : holds_text (mkStringObject (Some [0]) 0 1 64) [].
Proof. by apply (mk_text [] []); [constructor|..]. Qed.
Lemma calc_and_resize_bounds_witness :
  exists o', StringObject_calc_and_resize (Some [7; 7]) 100 (Some (mkStringObject (Some [0]) 0 1 64))
      = Ok (ALIB_OK, Some o', []) /\
    holds_text o' [] /\ 100 <= capacity o' < 2 ^ 32 /\
    (1 < 100 -> capacity o' < Z.max (2 * 100) (100 + 32 * 1024)) /\ (100 <= 1 -> capacity o' <= 1).
Proof.
  apply (calc_and_resize_bounds [7; 7] (mkStringObject (Some [0]) 0 1 64) [] 100); [apply new_string_text|].
  change (@blen Z []) with 0. lia.
Defined.
Lemma run_refines_text_witness :
  exists o', run (fun _ => repeat 7 40) 0
      [OSet [104; 105; 0]; OAppend [32; 116; 104; 101; 114; 101; 0; 9]; OAppendInt (-42); OUpper;
       OAppendCount [33; 63; 0] 1; OShrink; OAppendBool 1] (Some (mkStringObject (Some [0]) 0 1 64))
      = Ok (tt, Some o', []) /\
    holds_text o' [72; 73; 32; 84; 72; 69; 82; 69; 45; 52; 50; 33; 116; 114; 117; 101].
Proof.
  apply (run_refines_text (fun _ => repeat 7 40)
    [OSet [104; 105; 0]; OAppend [32; 116; 104; 101; 114; 101; 0; 9]; OAppendInt (-42); OUpper;
     OAppendCount [33; 63; 0] 1; OShrink; OAppendBool 1] (mkStringObject (Some [0]) 0 1 64) []);
    [apply new_string_text|].
  repeat split; first [by vm_compute | lia | by repeat constructor].
Defined.

(** * Insertion *)
Lemma copy_down_ok fuel (b : list Z) t f n :
  0 <= f <= t -> 0 <= n < Z.of_nat fuel -> t + n <= blen b ->
  copy_down fuel b (t + (n - 1)) (f + (n - 1)) (f - 1) = Ok (splice b t (slice b f n), t - 1).
Proof.
  revert b n. induction fuel as [|fuel IH]; intros b n Hf Hn Hb; [lia|].
  cbn [copy_down]. destruct (Z.eqb_spec (f + (n - 1)) (f - 1)); cbn [negb].
  - replace n with 0 by lia. rewrite slice_zero, splice_nil by lia. done.
  - destruct (lookup_Z_is_Some b (f + (n - 1))) as [x Hx]; [unfold blen in *; lia|].
    rewrite (blk_load_ok _ _ x) by (done || lia). rstep. rewrite blk_store_ok by lia. rstep.
    replace (t + (n - 1) - 1) with (t + (n - 1 - 1)) by lia.
    replace (f + (n - 1) - 1) with (f + (n - 1 - 1)) by lia.
    rewrite IH; [|done|lia|unfold blen in *; rewrite length_insert; lia].
    rewrite splice_slice_last by (done || lia). by replace (n - 1 + 1) with n by lia.
Qed.
(** The search for the end of [t2], for a target [d] further on in [b]; [hit]: it saw a NUL in the target. *)
Lemma find_end_count_ok fuel (t2 : list Z) : forall pre post d hit,
  no_nul t2 -> (length t2 < fuel)%nat -> 0 <= d -> blen pre + blen t2 + d <= blen (pre ++ t2 ++ post) ->
  find_end_count fuel (pre ++ t2 ++ post) (blen pre + d) (blen pre) (blen t2) hit
  = Ok (blen pre + blen t2 + d, blen pre + blen t2,
        hit || existsb (fun c => c =? 0) (slice (pre ++ t2 ++ post) (blen pre + d) (blen t2))).
Proof.
  revert fuel. induction t2 as [|c t2 IH]; intros fuel pre post d hit Hn Hf Hd Hb;
    (destruct fuel as [|fuel]; [cbn in Hf; lia|]); cbn [find_end_count].
  - change (blen (@nil Z)) with 0. cbn [Z.gtb Z.compare app]. rewrite slice_zero. cbn [existsb]. rewrite orb_false_r.
    do 3 f_equal; f_equal; lia.
  - inversion_clear Hn as [|? ? Hc Hn']. pose proof (blen_nonneg t2). pose proof (blen_nonneg pre).
    rewrite blen_cons in *. rewrite Z.gtb_ltb, (proj2 (Z.ltb_lt _ _)) by lia. set (b := pre ++ (c :: t2) ++ post) in *.
    destruct (lookup_Z_is_Some b (blen pre + d)) as [x Hx]; [unfold blen in *; lia|].
    rewrite (blk_load_ok b (blen pre + d) x) by (done || lia). rstep.
    assert (blk_load b (blen pre) = Ok c) as -> by apply blk_load_middle. rstep. rewrite (proj2 (Z.eqb_neq c 0)) by done.
    assert (b = (pre ++ [c]) ++ t2 ++ post) as Eb by (unfold b; by rewrite <- app_assoc).
    rewrite Eb. replace (blen pre + d + 1) with (blen (pre ++ [c]) + d) by (rewrite blen_snoc; lia).
    rewrite <- (blen_snoc pre c). replace (1 + blen t2 - 1) with (blen t2) by lia.
    rewrite IH; [|done|cbn in Hf; lia|done|rewrite <- Eb, blen_snoc; lia]. rewrite <- Eb, blen_snoc.
    assert (slice b (blen pre + d) (1 + blen t2) = x :: slice b (blen pre + 1 + d) (blen t2)) as ->.
    { rewrite slice_app by lia. rewrite (slice_one b _ x) by (done || lia). cbn [app].
      by replace (blen pre + d + 1) with (blen pre + 1 + d) by lia. }
    cbn [existsb]. rewrite orb_assoc. by replace (blen pre + 1 + blen t2) with (blen pre + (1 + blen t2)) by lia.
Qed.

(** [strncpy_back] of the end of a text by [d] places: the text's end and its NUL move; the search for the
    text's end saw a NUL in the target ([hit]), or finds one behind it, exactly when it then writes one
    place further on. *)
Definition ends_at (b : list Z) (off n : Z) : bool :=
  existsb (fun c => c =? 0) (slice b off n) || (match b !! Z.to_nat (off + n) with Some c => c =? 0 | None => false end).
Lemma strncpy_back_text t1 t2 rest d :
  no_nul t2 -> 0 <= d <= blen rest ->
  let b := t1 ++ t2 ++ 0 :: rest in
  let met := ends_at b (blen t1 + d) (blen t2) in
  strncpy_back b (blen t1 + d) (blen t1) (blen t2)
  = if met && (d =? blen rest) then UB OutOfBounds
    else Ok (splice (if met then t1 ++ t2 ++ 0 :: <[Z.to_nat d := 0]> rest else b) (blen t1 + d) (t2 ++ [0]),
             blen t1 + d - 1).
Proof.
  intros Hn Hd b met. pose proof (blen_nonneg t1). pose proof (blen_nonneg t2). pose proof (blen_nonneg rest).
  assert (blen b = blen t1 + blen t2 + 1 + blen rest) as Hb by (unfold b; rewrite !blen_app, blen_cons; lia).
  pose proof (find_end_count_ok (S (length b)) t2 t1 (0 :: rest) d false Hn) as E. fold b in E.
  unfold strncpy_back. rewrite E by (unfold b in *; rewrite ?length_app; lia). clear E. rstep. cbn [orb].
  destruct (lookup_Z_is_Some b (blen t1 + blen t2 + d)) as [x Hx]; [unfold blen in *; lia|].
  unfold terminate. rewrite (blk_load_ok b _ x) by (done || lia). rstep.
  assert ((x =? 0) || existsb (fun c => c =? 0) (slice b (blen t1 + d) (blen t2)) = met) as ->.
  { unfold met, ends_at. replace (blen t1 + d + blen t2) with (blen t1 + blen t2 + d) by lia. rewrite Hx. apply orb_comm. }
  assert (forall rest', length rest' = length rest ->
    copy_down (S (S (length (t1 ++ t2 ++ 0 :: rest')))) (t1 ++ t2 ++ 0 :: rest') (blen t1 + blen t2 + d) (blen t1 + blen t2)
      (blen t1 - 1) = Ok (splice (t1 ++ t2 ++ 0 :: rest') (blen t1 + d) (t2 ++ [0]), blen t1 + d - 1)) as Hcopy.
  { intros rest' Hl. set (b' := t1 ++ t2 ++ 0 :: rest').
    assert (blen b' = blen b) as Hb' by (unfold b', b; rewrite !blen_app, !blen_cons; unfold blen; rewrite Hl; lia).
    assert (slice b' (blen t1) (blen t2 + 1) = t2 ++ [0]) as <-.
    { unfold b', slice, blen. rewrite Nat2Z.id, drop_app_length.
      replace (Z.to_nat (Z.of_nat (length t2) + 1)) with (length (t2 ++ [0])) by (rewrite length_app; cbn [length]; lia).
      change (t2 ++ 0 :: rest') with (t2 ++ [0] ++ rest'). by rewrite app_assoc, take_app_length. }
    replace (blen t1 + blen t2 + d) with (blen t1 + d + (blen t2 + 1 - 1)) by lia.
    replace (blen t1 + blen t2) with (blen t1 + (blen t2 + 1 - 1)) by lia.
    apply copy_down_ok; [lia| |lia]. unfold blen in *. lia. }
  destruct met; cbn [andb].
  - destruct (Z.eqb_spec d (blen rest)) as [Hd'|Hd'].
    + assert (blk_store b (blen t1 + blen t2 + d + 1) 0 = UB OutOfBounds) as ->; [|done].
      unfold blk_store. rewrite (proj2 (Z.ltb_ge _ _)), andb_false_r by lia. done.
    + rewrite blk_store_ok by lia. rstep.
      assert (<[Z.to_nat (blen t1 + blen t2 + d + 1) := 0]> b = t1 ++ t2 ++ 0 :: <[Z.to_nat d := 0]> rest) as ->;
        [|apply Hcopy; by rewrite length_insert].
      unfold b. rewrite insert_app_r_alt by (unfold blen; lia). f_equal.
      rewrite insert_app_r_alt by (unfold blen; lia). f_equal.
      replace (Z.to_nat (blen t1 + blen t2 + d + 1) - length t1 - length t2)%nat with (S (Z.to_nat d))
        by (unfold blen in *; lia). done.
  - by apply Hcopy.
Qed.
Lemma real_size_ok v r : forall fuel pre val_len, no_nul v -> (length v < fuel)%nat -> blen pre + blen v <= val_len ->
  real_size fuel (pre ++ v ++ 0 :: r) (blen pre) val_len = Ok (blen pre + blen v).
Proof.
  induction v as [|c v IH]; intros fuel pre val_len Hn Hf Hl; (destruct fuel as [|fuel]; [cbn in Hf; lia|]);
    cbn [real_size app]; rewrite blk_load_middle; rstep.
  - cbn [Z.eqb negb andb]. by rewrite Z.add_0_r.
  - inversion_clear Hn as [|? ? Hc Hn']. rewrite blen_cons in *. pose proof (blen_nonneg v).
    rewrite (proj2 (Z.eqb_neq c 0)), (proj2 (Z.ltb_lt _ _)) by (done || lia). cbn [negb andb].
    replace (pre ++ c :: v ++ 0 :: r) with ((pre ++ [c]) ++ v ++ 0 :: r) by by rewrite <- app_assoc.
    rewrite <- (blen_snoc pre c), IH by (done || (cbn in Hf; lia) || (rewrite blen_snoc; lia)).
    rewrite blen_snoc. f_equal. lia.
Qed.
Lemma insert_into_gap t1 t2 v r rest : no_nul v -> blen v <= blen rest ->
  exists rest', strncpy_to (blen t1) (v ++ 0 :: r) (blen v) (splice (t1 ++ t2 ++ 0 :: rest) (blen t1 + blen v) (t2 ++ [0]))
      = Ok (t1 ++ v ++ t2 ++ 0 :: rest') /\ blen rest' = blen rest - blen v.
Proof.
  intros Hv Hl. set (y := take (length v) (t2 ++ 0 :: rest)). set (x := drop (length v) (t2 ++ 0 :: rest)).
  assert (t1 ++ t2 ++ 0 :: rest = (t1 ++ y) ++ x) as -> by (unfold x, y; by rewrite <- app_assoc, take_drop).
  assert (length y = length v) as Hy.
  { unfold y. rewrite length_take, length_app. cbn [length]. unfold blen in Hl. lia. }
  assert (blen x = blen t2 + 1 + blen rest - blen v) as Hx.
  { unfold x, blen. rewrite length_drop, length_app. cbn [length]. unfold blen in Hl. lia. }
  replace (blen t1 + blen v) with (blen (t1 ++ y)) by (rewrite blen_app; unfold blen; rewrite Hy; lia).
  rewrite splice_behind by (rewrite blen_snoc; lia). rewrite <- !app_assoc.
  pose proof (blen_nonneg v). pose proof (blen_nonneg t2). set (z := drop _ x).
  assert (blen z = blen rest - blen v) as Hz.
  { unfold z, blen. rewrite length_drop, length_app. cbn [length]. unfold blen in *. lia. }
  rewrite strncpy_to_ok; [|done|rewrite !blen_app, blen_cons; unfold blen in *; lia].
  exists z. split; [|done]. unfold blen at 1 2 3. rewrite Nat2Z.id, take_ge, Nat.sub_diag by lia. cbn [replicate app].
  by rewrite <- Hy, drop_app_length.
Qed.
(** The insertion behind the array's growth. *)
Lemma insert_shift t1 t2 v r rest : no_nul t2 -> no_nul v -> blen v <= blen rest ->
  let b := t1 ++ t2 ++ 0 :: rest in
  let shift := '(c, _) ← strncpy_back b (blen t1 + blen v) (blen t1) (blen t2); Ok c in
  if ends_at b (blen t1 + blen v) (blen t2) && (blen v =? blen rest) then shift = UB OutOfBounds
  else exists c rest', shift = Ok c /\ strncpy_to (blen t1) (v ++ 0 :: r) (blen v) c = Ok (t1 ++ v ++ t2 ++ 0 :: rest') /\
    blen rest' = blen rest - blen v.
Proof.
  intros Hn Hv Hl b shift. pose proof (blen_nonneg v). pose proof (blen_nonneg t1).
  pose proof (strncpy_back_text t1 t2 rest (blen v) Hn ltac:(lia)) as E. cbn zeta in E. fold b in E.
  unfold shift. rewrite E. clear E. destruct (ends_at b (blen t1 + blen v) (blen t2)) eqn:Em; cbn [andb].
  - destruct (blen v =? blen rest); [done|]. rstep. eexists. set (rest1 := <[_ := 0]> rest).
    assert (blen rest1 = blen rest) as Hr by (unfold blen, rest1; by rewrite length_insert).
    destruct (insert_into_gap t1 t2 v r rest1 Hv) as (rest' & E & H'); [lia|].
    exists rest'. split; [done|]. split; [exact E|lia].
  - rstep. eexists. destruct (insert_into_gap t1 t2 v r rest Hv Hl) as (rest' & E & H').
    exists rest'. split; [done|]. split; [exact E|lia].
Qed.

(** What an insertion at the end of [t1] does once the array has grown. *)
Definition insert_rest (t1 t2 v r : list Z) : M StringObject Z :=
  set_chars (fun c => '(c, _) ← strncpy_back c (blen t1 + blen v) (blen t1) (blen t2); Ok c);;
  set_chars (strncpy_to (blen t1) (v ++ 0 :: r) (blen v));; modify (set_length (blen t1 + blen t2 + blen v));;
  set_chars (fun c => blk_store c (blen t1 + blen t2 + blen v) 0);; mret ALIB_OK.
Lemma insert_steps added o t1 t2 v r : holds_text o (t1 ++ t2) -> no_nul v ->
  blen t1 + blen t2 + blen v + 1 <= 2 ^ 31 - 1 ->
  exists rest c, new_capacity (blen t1 + blen t2 + blen v + 1) o = Ok c /\
    blen t1 + blen t2 + 1 + blen rest = c /\ blen v <= blen rest /\ c < 2 ^ 32 /\
    StringObject_insert (Some added) (Some (v ++ 0 :: r)) (blen t1) (Some o)
      = no_guard (insert_rest t1 t2 v r)
          (Some (mkStringObject (Some (t1 ++ t2 ++ 0 :: rest)) (blen t1 + blen t2) c (min_mem o))).
Proof.
  intros Ho Hv Hsz. pose proof (blen_nonneg v). pose proof (blen_nonneg r). pose proof (blen_nonneg t1).
  pose proof (blen_nonneg t2). pose proof (ht_length _ _ Ho) as Hol. rewrite blen_app in Hol.
  destruct (room_for added o (t1 ++ t2) (blen t1 + blen t2 + blen v + 1) Ho) as (rest & c & E & Ec & Hcs & Hcl);
    [rewrite blen_app; lia|]. rewrite blen_app in *.
  exists rest, c. split; [done|]. split; [done|]. split; [lia|]. split; [lia|].
  unfold StringObject_insert, StringObject_insert_count. cbn [deref]. rstep.
  rewrite strlen_text by done. rstep. replace (u32 (blen v)) with (blen v) by (unfold u32; rewrite Z.mod_small; lia).
  pose proof (real_size_ok v r (S (length (v ++ 0 :: r))) [] (blen v) Hv) as Er. cbn [app] in Er.
  change (blen (@nil Z)) with 0 in Er. rewrite Er by (rewrite ?length_app; lia). rstep. rewrite Z.add_0_l, Z.ltb_irrefl.
  unfold no_guard. cbn [deref]. rstep. rewrite bind_gets, Hol.
  replace (u32 (blen t1 + blen t2 + blen v + 1)) with (blen t1 + blen t2 + blen v + 1)
    by (unfold u32; rewrite Z.mod_small; lia).
  erewrite bind_quiet by (by eapply here_Some). change (negb (ALIB_OK =? 0)) with false. cbv iota.
  rewrite bind_gets. cbn [length_]. replace (blen t1 + blen t2 - blen t1) with (blen t2) by lia.
  replace (s32 (u32 (blen t2))) with (blen t2) by (unfold u32; rewrite Z.mod_small, s32_small; lia).
  replace (u32 (blen t1 + blen t2 + blen v)) with (blen t1 + blen t2 + blen v) by (unfold u32; rewrite Z.mod_small; lia).
  by rewrite <- app_assoc.
Qed.
(** The old terminator lies in the target of the shift. *)
Lemma old_nul_met (t1 t2 v rest : list Z) : v <> [] -> blen v <= blen t2 ->
  ends_at (t1 ++ t2 ++ 0 :: rest) (blen t1 + blen v) (blen t2) = true.
Proof.
  intros Hne Hfar. apply orb_true_iff. left. apply existsb_exists. exists 0. split; [|done].
  apply list_elem_of_In, list_elem_of_lookup. pose proof (blen_nonneg t1). pose proof (blen_nonneg v).
  assert (0 < blen v) by (destruct v; [done|unfold blen; cbn [length]; lia]).
  exists (Z.to_nat (blen t2 - blen v)). rewrite lookup_slice, decide_True by lia.
  replace (Z.to_nat (blen t1 + blen v + Z.of_nat (Z.to_nat (blen t2 - blen v)))) with (length (t1 ++ t2))
    by (rewrite length_app; unfold blen in *; lia).
  rewrite app_assoc. by apply list_lookup_middle.
Qed.

(** Inserting a C string at the place where the text [t1 ++ t2] of an object is cut (allocations
    succeeding) yields [t1 ++ v ++ t2], when the array is left with at least one byte to spare; when the new text
    and its NUL fill the array exactly, inserting a non-empty string not longer than [t2] writes one byte
    behind the array. *)
Theorem insert_text (added : list Z) (o : StringObject) (t1 t2 v r : list Z) (c : Z) :
  holds_text o (t1 ++ t2) -> no_nul v -> blen t1 + blen t2 + blen v + 1 <= 2 ^ 31 - 1 ->
  new_capacity (blen t1 + blen t2 + blen v + 1) o = Ok c ->
  (blen t1 + blen t2 + blen v + 1 < c -> exists o',
     StringObject_insert (Some added) (Some (v ++ 0 :: r)) (blen t1) (Some o) = Ok (ALIB_OK, Some o', []) /\
     holds_text o' (t1 ++ v ++ t2)) /\
  (blen t1 + blen t2 + blen v + 1 = c -> v <> [] -> blen v <= blen t2 ->
     StringObject_insert (Some added) (Some (v ++ 0 :: r)) (blen t1) (Some o) = UB OutOfBounds).
Proof.
  intros Ho Hv Hsz Hcap. destruct (insert_steps added o t1 t2 v r Ho Hv Hsz) as (rest & c' & Ec & Hcl & Hl & Hc & ->).
  assert (c' = c) as -> by congruence. pose proof (ht_nul _ _ Ho) as [Hn1 Hn2]%Forall_app.
  pose proof (insert_shift t1 t2 v r rest Hn2 Hv Hl) as Hs. cbn zeta in Hs. unfold insert_rest, no_guard. cbn [deref]. rstep.
  split.
  - intros Hroom. rewrite (proj2 (Z.eqb_neq (blen v) (blen rest))), andb_false_r in Hs by lia.
    destruct Hs as (c1 & rest' & Es & En & Hr).
    erewrite bind_set_chars by exact Es. erewrite bind_set_chars by exact En. rewrite bind_modify.
    unfold set_length. cbn [str capacity min_mem].
    replace (blen t1 + blen t2 + blen v) with (blen (t1 ++ v ++ t2)) by (rewrite !blen_app; lia).
    replace (t1 ++ v ++ t2 ++ 0 :: rest') with ((t1 ++ v ++ t2) ++ 0 :: rest') by (by rewrite <- !app_assoc).
    erewrite bind_set_chars by apply store_behind. eexists. split; [done|].
    apply mk_text; [by repeat (apply Forall_app; split)| |lia|apply Ho]. rewrite !blen_app. lia.
  - intros Hfull Hne Hfar.
    rewrite (old_nul_met t1 t2 v rest Hne Hfar), (proj2 (Z.eqb_eq (blen v) (blen rest))) in Hs by lia. cbn [andb] in Hs.
    by erewrite bind_set_chars_UB by exact Hs.
Qed.
(** "hello", in an array of [n] bytes. *)
Definition hello (n : nat) : StringObject :=
  mkStringObject (Some ([104; 101; 108; 108; 111] ++ 0 :: repeat 7 n)) 5 (6 + Z.of_nat n) 64.
Lemma hello_text n : Z.of_nat n < 2 ^ 31 -> holds_text (hello n) [104; 101; 108; 108; 111].
Proof.
  intros Hn. apply mk_text; [by repeat (constructor; [done|])| |lia|done].
  unfold blen. rewrite repeat_length. cbn [length]. lia.
Qed.
Lemma insert_text_witness :
  (exists o', StringObject_insert (Some []) (Some [97; 98; 0]) 2 (Some (hello 10)) = Ok (ALIB_OK, Some o', []) /\
     holds_text o' [104; 101; 97; 98; 108; 108; 111]) /\
  StringObject_insert (Some []) (Some [97; 98; 0]) 2 (Some (hello 2)) = UB OutOfBounds.
Proof.
  split.
  - apply (insert_text [] (hello 10) [104; 101] [108; 108; 111] [97; 98] [] 16); try done.
    + by apply hello_text.
    + by repeat (constructor; [done|]).
  - apply (insert_text [] (hello 2) [104; 101] [108; 108; 111] [97; 98] [] 8); try done.
    + by apply hello_text.
    + by repeat (constructor; [done|]).
Defined.

(** * Operations that leave the array *)

(** Copying characters without a NUL. *)
Lemma strncpy_all t s (count : Z) c : no_nul (take (Z.to_nat count) s) -> 0 <= t -> 0 <= count <= blen s ->
  t + count <= blen c -> exists c', strncpy_to t s count c = Ok c' /\ blen c' = blen c.
Proof.
  intros Hs Ht Hc Hroom. unfold strncpy_to.
  assert (slice s 0 count = take (Z.to_nat count) s) as -> by (unfold slice; by rewrite drop_0).
  assert (blen (take (Z.to_nat count) s) = count) as Hl by (unfold blen in *; rewrite length_take; lia).
  rewrite (until_nul_id _ Hs), Hl, Z.min_l, blk_read_ok by lia. rstep.
  assert (slice s 0 count = take (Z.to_nat count) s) as -> by (unfold slice; by rewrite drop_0).
  rewrite (until_nul_id _ Hs), Hl, Z.sub_diag. cbn [replicate]. change (Z.to_nat 0) with 0%nat. cbn [replicate].
  rewrite app_nil_r, blk_write_ok by lia. eexists. split; [done|]. rewrite blen_splice; lia.
Qed.

(** Setting a string object to the first [count] characters of a string writes one byte behind
    the array whenever the array has to be resized for them and gets no more than the bytes it is asked for:
    a call with [count] characters, or with [count] + 1 of a longer string, leaves no room for the NUL. *)
Theorem set_count_overflows (added : list Z) (o : StringObject) (t s : list Z) (count x : Z) :
  holds_text o t -> 0 < count < 2 ^ 31 -> no_nul (take (Z.to_nat count) s) ->
  s !! Z.to_nat count = Some x ->
  let n := if x =? 0 then count else count + 1 in
  blen t < n -> new_capacity n o = Ok n ->
  StringObject_set_count (Some added) (Some s) count (Some o) = UB OutOfBounds.
Proof.
  intros (rest & c0 & m & -> & Hcap & Hn & Hc & Hm)%text_inv Hcount Hs Hx n Hlt Hnew.
  pose proof (blen_nonneg t). unfold StringObject_set_count, on_obj. rewrite (proj2 (Z.eqb_neq count 0)) by lia.
  rewrite (bind_lift _ s), (bind_lift _ x) by (done || (apply blk_load_ok; [lia|done])). cbn zeta.
  replace (if negb (x =? 0) then u32 (count + 1) else count) with n
    by (unfold n, u32; destruct (x =? 0); cbn [negb]; [done|rewrite Z.mod_small; lia]).
  assert (count <= n < 2 ^ 31 + 1) as Hnb by (unfold n; destruct (x =? 0); lia).
  rewrite !bind_gets. cbn [length_ min_mem]. rewrite Z.gtb_ltb, (proj2 (Z.ltb_lt _ _)) by lia. cbn [orb].
  erewrite bind_quiet by (by eapply here_Some, (calc_and_resize_ok added _ _ _ _ n n); [lia|exact Hnew|lia]).
  change (negb (ALIB_OK =? ALIB_OK)) with false. cbv iota. set (b := resize _ 0 _).
  assert (blen b = n) as Hb by (unfold blen, b; rewrite length_resize; lia).
  assert (exists c, strncpy_to 0 s count b = Ok c /\ blen c = n) as (c & Ec & Hcl).
  { destruct (strncpy_all 0 s count b Hs) as (c & Ec & Hcl); [lia| |lia|exists c; split; [done|lia]].
    apply lookup_lt_Some in Hx. unfold blen. lia. }
  erewrite bind_set_chars by exact Ec. erewrite bind_set_chars_UB; [done|].
  unfold blk_store. rewrite (proj2 (Z.ltb_ge _ _)), andb_false_r by lia. done.
Qed.
Lemma set_count_overflows_witness :
  StringObject_set_count (Some [7; 7; 7; 7]) (Some [97; 98; 99; 100; 0]) 4 (Some (mkStringObject (Some [0]) 0 1 64))
    = UB OutOfBounds /\
  StringObject_set_count (Some [7; 7; 7; 7]) (Some [97; 98; 99; 100; 0]) 3 (Some (mkStringObject (Some [0]) 0 1 64))
    = UB OutOfBounds.
Proof.
  split.
  - by apply (set_count_overflows [7; 7; 7; 7] _ [] [97; 98; 99; 100; 0] 4 0 new_string_text);
      [|repeat (constructor; [done|])|..].
  - by apply (set_count_overflows [7; 7; 7; 7] _ [] [97; 98; 99; 100; 0] 3 100 new_string_text);
      [|repeat (constructor; [done|])|..].
Defined.

(** Appending a character to a string object reads behind the character, whatever the object: the
    character is passed as an array of one, and the length of a C string is taken of it. *)
Theorem append_char_overreads (added : list Z) (o : StringObject) (t : list Z) (c : Z) :
  holds_text o t -> blen t + 2 <= 2 ^ 31 - 1 -> c <> 0 ->
  StringObject_append_char (Some added) c (Some o) = UB OutOfBounds.
Proof.
  intros Ho Hsz Hc. pose proof (blen_nonneg t). pose proof (ht_length _ _ Ho) as Hl.
  unfold StringObject_append_char, on_obj at 1. unfold here, StringObject_append_count, on_obj at 1.
  change (1 =? 0) with false. cbv iota. rewrite bind_gets, Hl.
  rewrite (bind_lift _ c) by done. cbn zeta. rewrite (proj2 (Z.eqb_neq c 0)) by done. cbn [negb].
  replace (u32 (blen t + 1 + 1)) with (blen t + 2) by (unfold u32; rewrite Z.mod_small; lia).
  destruct (room_for added o t (blen t + 2) Ho) as (rest & cap & E & _ & Hcs & Hcl); [lia|].
  erewrite bind_quiet by (by eapply here_Some). change (negb (ALIB_OK =? ALIB_OK)) with false. cbv iota.
  rewrite bind_gets. cbn [length_ min_mem].
  destruct (strncpy_all (blen t) [c] 1 (t ++ 0 :: rest)) as (b & Eb & _); [by constructor|done..| |].
  { rewrite blen_app, blen_cons. pose proof (blen_nonneg rest). lia. }
  erewrite bind_set_chars by exact Eb.
  assert (strlen [c] 0 = UB OutOfBounds) as El.
  { unfold strlen. cbn [length strlen_from]. rewrite (blk_load_ok [c] 0 c) by done. rstep.
    rewrite (proj2 (Z.eqb_neq c 0)) by done. by rewrite blk_load_oob by (right; done). }
  erewrite bind_UB; [done|]. unfold lift. by rewrite El.
Qed.
Lemma append_char_overreads_witness :
  StringObject_append_char (Some []) 33 (Some (hello 2)) = UB OutOfBounds.
Proof. by apply (append_char_overreads [] (hello 2) [104; 101; 108; 108; 111] 33); [apply hello_text|..]. Defined.

(** * Replacing substrings *)

(** The occurrences of [sub] from the left, those that overlap an earlier one left out, are replaced;
    [skip]: the characters of the current occurrence that are still to be dropped. *)
Fixpoint replace_from (sub new : list Z) (skip : nat) (t : list Z) : list Z :=
  match t with
  | [] => []
  | c :: t' =>
      match skip with
      | S skip => replace_from sub new skip t'
      | O => if is_prefix sub t then new ++ replace_from sub new (length sub - 1) t'
             else c :: replace_from sub new 0 t'
      end
  end.
Definition replace_all (sub new t : list Z) : list Z := replace_from sub new 0 t.
Lemma replace_from_skip sub new t : forall n, replace_from sub new n t = replace_all sub new (drop n t).
Proof. induction t as [|c t IH]; intros [|n]; cbn; first [done | apply IH]. Qed.
Lemma replace_match sub new t : sub <> [] -> is_prefix sub t = true ->
  replace_all sub new t = new ++ replace_all sub new (drop (length sub) t).
Proof.
  intros Hne Hp. destruct sub as [|a sub]; [done|]. destruct t as [|c t]; [done|].
  unfold replace_all at 1. cbn [replace_from]. rewrite Hp, replace_from_skip. cbn [length drop]. replace (S (length sub) - 1)%nat with (length sub) by lia. done.
Qed.
Lemma replace_step sub new c t : is_prefix sub (c :: t) = false ->
  replace_all sub new (c :: t) = c :: replace_all sub new t.
Proof. intros Hp. unfold replace_all at 1. cbn [replace_from]. by rewrite Hp. Qed.

(** How far two strings agree. *)
Fixpoint common (s u : list Z) : nat :=
  match s, u with
  | x :: s, y :: u => if x =? y then S (common s u) else 0
  | _, _ => 0
  end.
Lemma common_le s u : (common s u <= length u)%nat /\ (common s u <= length s)%nat.
Proof. revert u. induction s as [|x s IH]; intros [|y u]; cbn; try lia. destruct (x =? y); [|lia]. specialize (IH u). lia. Qed.
Lemma common_take s u : take (common s u) s = take (common s u) u.
Proof.
  revert u. induction s as [|x s IH]; intros [|y u]; cbn; try done.
  destruct (Z.eqb_spec x y) as [->|]; cbn; [by rewrite IH|done].
Qed.
Lemma common_prefix u s : is_prefix u s = (common s u =? length u)%nat.
Proof.
  revert s. induction u as [|y u IH]; intros [|x s]; cbn; try done.
  rewrite (Z.eqb_sym y x). destruct (x =? y); cbn; [apply IH|done].
Qed.
(** A pattern whose first character does not come again is matched again only behind a mismatch. *)
Lemma replace_partial a sub new s : a ∉ sub -> (0 < common s (a :: sub) < length (a :: sub))%nat ->
  replace_all (a :: sub) new s
  = take (common s (a :: sub)) s ++ replace_all (a :: sub) new (drop (common s (a :: sub)) s).
Proof.
  intros Ha. destruct s as [|x s]; cbn [common length]; [lia|]. destruct (Z.eqb_spec x a) as [->|]; [|lia]. intros Hc.
  rewrite replace_step by (rewrite common_prefix; cbn [common]; rewrite Z.eqb_refl; apply Nat.eqb_neq; cbn [length]; lia).
  cbn [take drop app]. f_equal.
  assert (a ∉ take (common s sub) s) as Hn.
  { rewrite common_take. intros Hin. apply Ha. apply list_elem_of_lookup in Hin as [i Hi].
    apply lookup_take_Some in Hi as [Hi _]. by eapply list_elem_of_lookup_2. }
  assert (forall k, a ∉ take k s ->
    replace_all (a :: sub) new s = take k s ++ replace_all (a :: sub) new (drop k s)) as H; [|by apply H].
  clear. induction s as [|x s IH]; intros [|k] Hk; try done. cbn [take drop app] in *.
  rewrite replace_step.
  - f_equal. apply IH. set_solver.
  - cbn [is_prefix]. rewrite (proj2 (Z.eqb_neq a x)) by set_solver. done.
Qed.
Lemma match_len_ok u : forall fuel s pre rest pu r c_it j n,
  no_nul s -> no_nul u -> (length u < fuel)%nat -> c_it + j = blen pre -> j = blen pu -> n = j + blen u ->
  match_len fuel (pre ++ s ++ 0 :: rest) (pu ++ u ++ 0 :: r) c_it j n = Ok (j + Z.of_nat (common s u)).
Proof.
  induction u as [|y u IH]; intros fuel s pre rest pu r c_it j n Hs Hu Hf Hp -> ->;
    (destruct fuel as [|fuel]; [cbn in Hf; lia|]); cbn [match_len].
  - change (blen (@nil Z)) with 0. rewrite Z.add_0_r, Z.ltb_irrefl. destruct s; cbn; f_equal; lia.
  - rewrite blen_cons. pose proof (blen_nonneg u). rewrite (proj2 (Z.ltb_lt _ _)) by lia. rewrite Hp.
    cbn [app]. rewrite (blk_load_middle pu). inversion_clear Hu as [|? ? Hy Hu'].
    destruct s as [|x s]; cbn [app]; rewrite blk_load_middle; rstep.
    + cbn [common]. rewrite (proj2 (Z.eqb_neq 0 y)) by done. f_equal. lia.
    + cbn [common]. inversion_clear Hs as [|? ? Hx Hs']. destruct (Z.eqb_spec x y) as [->|]; [|f_equal; lia].
      replace (pre ++ y :: s ++ 0 :: rest) with ((pre ++ [y]) ++ s ++ 0 :: rest) by (by rewrite <- app_assoc).
      replace (pu ++ y :: u ++ 0 :: r) with ((pu ++ [y]) ++ u ++ 0 :: r) by (by rewrite <- app_assoc).
      rewrite IH by (done || (cbn in Hf; lia) || (rewrite ?blen_snoc; lia)). f_equal. lia.
Qed.

Section replace.
Context (added : nat -> list Z) (rest r : list Z) (a : Z) (v : list Z) (newstr : option (list Z)).
Hypothesis Ha : a ∉ v.
Hypothesis Hv : no_nul (a :: v).
Hypothesis Hnew : match newstr with Some s => 0 ∈ s | None => True end.
Notation new := (match newstr with Some s => c_text s | None => [] end).
Notation scan := (fun fuel n c => replace_scan fuel (fun n => Some (added n)) n c (a :: v ++ 0 :: r) newstr (blen (a :: v))).

Lemma flush_ok n pre w s acc o : no_nul (w ++ s) -> holds_text o acc ->
  blen acc + blen w + 1 <= 2 ^ 31 - 1 -> blen (w ++ s) < 2 ^ 32 ->
  exists o', here (StringObject_append_count (Some (added n))
      (Some (drop (Z.to_nat (blen pre)) (pre ++ w ++ s ++ 0 :: rest))) (blen w)) o = Ok (ALIB_OK, o', []) /\
    holds_text o' (acc ++ w).
Proof.
  intros Hws Ho Hsz Hlen. unfold blen at 1. rewrite Nat2Z.id, drop_app_length.
  pose proof (blen_nonneg w). pose proof (blen_nonneg rest). rewrite blen_app in Hlen. pose proof (blen_nonneg s).
  destruct (object_append_count_ok (added n) o acc (w ++ s) rest (blen w) Ho Hws) as (o' & E & H');
    [rewrite blen_app; lia|lia|rewrite blen_app; lia|].
  rewrite take_blen_app in H'. rewrite <- app_assoc in E. exists o'. split; [by apply here_Some|done].
Qed.
Lemma new_ok n acc o : holds_text o acc -> blen acc + blen new + 1 <= 2 ^ 31 - 1 ->
  exists o', (match newstr with
              | Some _ => here (StringObject_append (Some (added n)) newstr);; mret tt
              | None => mret tt end) o = Ok (tt, o', []) /\ holds_text o' (acc ++ new).
Proof.
  intros Ho Hsz. destruct newstr as [s|].
  - destruct (c_argument s Hnew) as (u & r' & -> & Hu & Eu & _). rewrite Eu in *.
    destruct (object_append_ok (added n) o acc u r' Ho Hu Hsz) as (o' & E & H').
    exists o'. split; [|done]. by erewrite bind_quiet by (by apply here_Some).
  - exists o. by rewrite app_nil_r.
Qed.
(** [w]: the characters that wait to be copied, behind those in [pre]; [s]: the rest of the text. *)
Lemma scan_ok fuel : forall n pre w s acc o,
  no_nul w -> no_nul s -> (length s < fuel)%nat -> holds_text o acc ->
  blen (acc ++ w ++ replace_all (a :: v) new s) + 1 <= 2 ^ 31 - 1 -> blen (w ++ s) < 2 ^ 31 ->
  exists o', scan fuel n (pre ++ w ++ s ++ 0 :: rest) (blen s) (blen pre + blen w) (blen pre) (blen w) o
      = Ok (tt, o', []) /\ holds_text o' (acc ++ w ++ replace_all (a :: v) new s).
Proof.
  induction fuel as [|fuel IH]; intros n pre w s acc o Hw Hs Hf Ho Hsz Hlen; [lia|].
  cbn [replace_scan]. pose proof (blen_nonneg s). pose proof (blen_nonneg w). pose proof (blen_nonneg pre).
  pose proof (blen_nonneg acc). pose proof (blen_nonneg (replace_all (a :: v) new s)).
  destruct (flush_ok n pre w s acc o) as (o1 & E1 & Ho1); [by apply Forall_app|done|rewrite !blen_app in *; lia|lia|].
  destruct s as [|x s].
  - change (blen (@nil Z)) with 0. cbn [Z.gtb Z.compare].
    change (replace_all (a :: v) new []) with (@nil Z) in *. rewrite app_nil_r in *. unfold when.
    destruct (Z.eqb_spec (blen w) 0) as [E|E]; cbn [negb].
    + exists o. split; [done|]. destruct w; [by rewrite app_nil_r|]. unfold blen in E. cbn in E. lia.
    + exists o1. split; [|done]. by rewrite (bind_quiet _ _ _ _ _ E1).
  - rewrite Z.gtb_ltb, (proj2 (Z.ltb_lt _ _)) by (rewrite blen_cons; pose proof (blen_nonneg s); lia).
    rewrite (bind_lift _ x) by (rewrite <- blen_app, app_assoc; apply blk_load_middle).
    rewrite (bind_lift _ a) by (apply (blk_load_middle [])).
    destruct (Z.eqb_spec x a) as [->|Hxa].
    + set (j := common (a :: s) (a :: v)). pose proof (common_le (a :: s) (a :: v)) as [Hj1 Hj2]. fold j in Hj1, Hj2.
      assert (take j (a :: s) ++ drop j (a :: s) = a :: s) as Etd by apply take_drop.
      assert (no_nul (take j (a :: s)) /\ no_nul (drop j (a :: s))) as [Hn1 Hn2]
        by (split; [by apply Forall_take|by apply Forall_drop]).
      assert (0 < j)%nat as Hj0 by (unfold j; cbn [common]; rewrite Z.eqb_refl; lia).
      assert (blen (drop j (a :: s)) = blen (a :: s) - Z.of_nat j) as Hd by (unfold blen; rewrite length_drop; lia).
      assert (blen (take j (a :: s)) = Z.of_nat j) as Ht by (unfold blen; rewrite length_take; lia).
      rewrite (bind_lift _ (Z.of_nat j)).
      2: { pose proof (match_len_ok (a :: v) (S (length ((a :: v) ++ 0 :: r))) (a :: s) (pre ++ w) rest [] r
             (blen pre + blen w) 0 (blen (a :: v)) Hs Hv) as Em. cbn [app] in Em |- *. rewrite <- app_assoc in Em.
           rewrite Em; [done|rewrite ?length_app; cbn [length]; rewrite ?length_app; lia|rewrite blen_app; lia|done|lia]. }
      destruct (Z.eqb_spec (Z.of_nat j) (blen (a :: v))) as [Ej|Ej].
      * assert (is_prefix (a :: v) (a :: s) = true) as Hp.
        { rewrite common_prefix. fold j. apply Nat.eqb_eq. unfold blen in Ej. lia. }
        rewrite (replace_match (a :: v) new (a :: s)) in Hsz |- * by done.
        replace (length (a :: v)) with j in Hsz |- * by (unfold blen in Ej; lia).
        rewrite !blen_app in Hsz. pose proof (blen_nonneg new).
        pose proof (blen_nonneg (replace_all (a :: v) new (drop j (a :: s)))).
        destruct (new_ok (S n) (acc ++ w) o1 Ho1) as (o2 & E2 & Ho2); [rewrite blen_app; lia|].
        destruct (IH (S (S n)) (pre ++ w ++ take j (a :: s)) [] (drop j (a :: s)) ((acc ++ w) ++ new) o2)
          as (o' & E & H'); [constructor|done| |done| | |].
        { rewrite length_drop. lia. }
        { cbn [app]. rewrite !blen_app. lia. }
        { cbn [app]. rewrite Hd. rewrite blen_app in Hlen. lia. }
        exists o'. cbn [app] in H'. rewrite <- !app_assoc in H'. split; [|done].
        rewrite (bind_quiet _ _ _ _ _ E1), (bind_quiet _ _ _ _ _ E2), <- E. cbn [app]. rewrite <- !app_assoc.
        rewrite (app_assoc (take j (a :: s))), Etd, !blen_app, Hd, Ht. change (blen (@nil Z)) with 0.
        f_equal; lia.
      * rewrite (replace_partial a v new (a :: s)) in Hsz |- * by (done || (fold j; unfold blen in Ej; lia)).
        fold j in Hsz |- *.
        destruct (IH n pre (w ++ take j (a :: s)) (drop j (a :: s)) acc o) as (o' & E & H');
          [by apply Forall_app|done| |done| | |].
        { rewrite length_drop. lia. }
        { rewrite <- !app_assoc. done. }
        { rewrite <- app_assoc, Etd. done. }
        exists o'. rewrite <- !app_assoc in H'. split; [|done]. rewrite <- E, <- !app_assoc.
        rewrite (app_assoc (take j (a :: s))), Etd, blen_app, Hd, Ht. f_equal. lia.
    + rewrite replace_step in Hsz |- * by (cbn [is_prefix]; rewrite (proj2 (Z.eqb_neq a x)) by done; done).
      inversion_clear Hs as [|? ? Hx Hs'].
      destruct (IH n pre (w ++ [x]) s acc o) as (o' & E & H');
        [by apply Forall_app; split; [|by constructor]|done|cbn in Hf; lia|done| | |].
      { rewrite <- app_assoc. done. }
      { rewrite <- app_assoc. done. }
      exists o'. rewrite <- !app_assoc in H'. split; [|done]. rewrite <- E, <- !app_assoc, blen_snoc, blen_cons.
      f_equal; rewrite ?blen_cons; lia.
Qed.
End replace.

(** The array goes to the caller. *)
Lemma extract_ok added o t : holds_text o t -> exists o',
  StringObject_extract_c_string (Some added) (Some o) = Ok (str o, Some o', []) /\ holds_text o' [].
Proof.
  intros (rest & c0 & m & -> & Hcap & Hn & Hc & Hm)%text_inv.
  unfold StringObject_extract_c_string, on_obj. rewrite bind_gets, !bind_modify, bind_gets.
  unfold set_str, set_length. cbn [str length_ capacity min_mem].
  assert (exists o', StringObject_resize (Some added) m (Some (mkStringObject None 0 c0 m)) = Ok (ALIB_OK, Some o', []) /\
    holds_text o' []) as (o' & E & Ho').
  { unfold StringObject_resize, on_obj. rewrite bind_gets. cbn [str realloc_str default app].
    assert (forall n, (0 < n)%nat -> exists x l, resize n 0 added = x :: l /\ blen (x :: l) = Z.of_nat n) as Hcell.
    { intros n Hpos. destruct (resize n 0 added) as [|x l] eqn:E; apply (f_equal length) in E;
        rewrite length_resize in E; cbn [length] in E; [lia|]. exists x, l. unfold blen. cbn [length]. split; [done|lia]. }
    destruct (Z.eqb_spec m 0) as [->|Hm0].
    - rewrite bind_modify, bind_gets. cbn [str set_str]. destruct (Hcell (Z.to_nat 1)) as (x & l & -> & Hl); [lia|].
      unfold set_str. cbn [length_ capacity min_mem].
      rewrite (bind_set_chars _ _ _ (0 :: l)) by apply (store_behind []). rewrite !bind_modify. eexists. split; [done|].
      rewrite blen_cons in Hl. eapply (mk_text []); [apply no_nul_nil|unfold blen in *; cbn; lia|done..].
    - rewrite !bind_modify, bind_gets. unfold set_capacity, set_str. cbn [str length_ capacity min_mem].
      destruct (Hcell (Z.to_nat m)) as (x & l & -> & Hl); [lia|]. rewrite blen_cons in Hl.
      erewrite bind_set_chars by apply (store_behind []). eexists. split; [done|].
      eapply (mk_text []); [apply no_nul_nil|unfold blen in *; cbn; lia|cbn; lia|done]. }
  erewrite bind_quiet by (by eapply here_Some). by exists o'.
Qed.

(** C14: replacing all occurrences of a substring whose first character does not come again in it yields the
    text with the occurrences replaced from the left (removed, when there is no replacement), however
    often they come and wherever they stand, and keeps the object well formed. *)
Theorem replace_substrings_text (added : nat -> list Z) (x : list Z) (o : StringObject) (t r : list Z) (a : Z)
    (v : list Z) (newstr : option (list Z)) :
  holds_text o t -> blen t < 2 ^ 31 -> a ∉ v -> no_nul (a :: v) -> blen (a :: v) < 2 ^ 31 ->
  match newstr with Some s => 0 ∈ s | None => True end ->
  let t' := replace_all (a :: v) (match newstr with Some s => c_text s | None => [] end) t in
  blen t' + 1 <= 2 ^ 31 - 1 ->
  exists o', StringObject_replace_substrings (true, true) (fun n => Some (added n)) (Some x)
      (Some (a :: v ++ 0 :: r)) newstr (Some o) = Ok (tt, Some o', []) /\ holds_text o' t'.
Proof.
  intros Ho Hlen Ha Hv Hvl Hnew t' Hsz.
  destruct (scan_ok added (default [] (drop (length t + 1) <$> str o)) r a v newstr Ha Hv Hnew (S (length t)) 0 [] [] t []
    (mkStringObject (Some [0]) 0 1 64)) as (r1 & E & Hr1); [constructor|apply Ho|lia|apply new_string_text|done|done|].
  apply text_inv in Ho as (rest & c0 & m & -> & Hcap & Hn & Hc & Hm). pose proof (blen_nonneg t). pose proof (blen_nonneg (a :: v)).
  cbn [str option_map fmap option_fmap default app] in E, Hr1. fold t' in Hr1.
  replace (drop (length t + 1) (t ++ 0 :: rest)) with rest in E.
  2: { rewrite <- drop_drop, drop_app_length. done. }
  destruct (extract_ok x r1 t' Hr1) as (r2 & Ex & _).
  unfold StringObject_replace_substrings, no_guard. cbn [deref]. rstep. rewrite !bind_gets. cbn [str length_ fst snd newStringObject andb].
  rewrite (bind_lift _ (blen (a :: v))) by (apply (strlen_text (a :: v)); done).
  rewrite !s32_small by lia. unfold blen at 1. rewrite Nat2Z.id.
  erewrite bind_lift by exact E. cbv beta iota. rewrite !bind_modify. erewrite bind_lift by exact Ex. cbv beta iota.
  eexists. split; [done|].
  destruct (text_inv _ _ Hr1) as (rest1 & c1 & m1 & -> & Hcap1 & Hn1 & Hc1 & _).
  by apply mk_text.
Qed.
Lemma replace_substrings_text_witness :
  exists o', StringObject_replace_substrings (true, true) (fun _ => Some []) (Some [])
      (Some [108; 111; 0]) (Some [112; 33; 0]) (Some (hello 2)) = Ok (tt, Some o', []) /\
    holds_text o' [104; 101; 108; 112; 33].
Proof.
  apply (replace_substrings_text (fun _ => []) [] (hello 2) [104; 101; 108; 108; 111] [] 108 [111] (Some [112; 33; 0]));
    try done; [by apply hello_text|by intros ?%list_elem_of_singleton|by repeat (constructor; [done|])|by repeat constructor].
Defined.
(** An occurrence that begins inside a partial match is missed. *)
Example replace_misses :
  match StringObject_replace_substrings (true, true) (fun _ => Some []) (Some []) (Some [97; 97; 98; 0]) None
          (Some (mkStringObject (Some [97; 97; 97; 98; 0]) 4 5 64)) with
  | Ok (_, Some o, _) => option_map c_text (str o) = Some [97; 97; 97; 98]
  | _ => False
  end.
Proof. vm_compute. reflexivity. Qed.
