(* ===== verification/TimerEvent.v ===== *)
(** Timer events, [source/TimerEvent.c]: an object that calls back when its
    timer has rung, and takes part in its own deletion from inside the
    callback.  The file is written against any state that stores events and
    timers; [C] is the type of the code pointers an event holds ([None] is
    NULL) and [call] runs one on the event's address.  The clock readings of a
    call are arguments, [None] for a failed [clock_gettime]. *)
From S2P Require Import Prelude Effects Heap AlibTypes AlibTime.
Open Scope Z_scope.

(** * Flags, [includes/flags.h] *)
Definition THREAD_CREATED : Z := 1.
Definition THREAD_IS_RUNNING : Z := 2.
Definition THREAD_STOP : Z := 4.
Definition OBJECT_DELETE_STATE : Z := 16.
Definition OBJECT_CALLBACK_STATE : Z := 32.
Definition FLAG_INIT : Z := 0.
(** [fp & flag], as a condition. *)
Definition raised (fp flag : Z) : bool := negb (Z.land fp flag =? 0).

Record TimerEvent (C : Type) := mkTimerEvent {
  timer : ptr; refTimer : bool; exData : ptr; freeExData : bool;
  rang_cb : option C; prep_free_cb : option C; rang_parent_cb : option C; parent : ptr;
  freeInheritor : option C; fp : Z }.
Arguments mkTimerEvent {C}. Arguments timer {C}. Arguments refTimer {C}. Arguments exData {C}.
Arguments freeExData {C}. Arguments rang_cb {C}. Arguments prep_free_cb {C}.
Arguments rang_parent_cb {C}. Arguments parent {C}. Arguments freeInheritor {C}. Arguments fp {C}.

Section fields.
Context {C : Type}.
Implicit Types e : TimerEvent C.
Definition set_fp (n : Z) e := mkTimerEvent (timer e) (refTimer e) (exData e) (freeExData e)
  (rang_cb e) (prep_free_cb e) (rang_parent_cb e) (parent e) (freeInheritor e) n.
Definition set_parent (p : ptr) (cb : option C) e := mkTimerEvent (timer e) (refTimer e) (exData e)
  (freeExData e) (rang_cb e) (prep_free_cb e) cb p (freeInheritor e) (fp e).
Definition set_ex_data (d : ptr) (f : bool) e := mkTimerEvent (timer e) (refTimer e) d f
  (rang_cb e) (prep_free_cb e) (rang_parent_cb e) (parent e) (freeInheritor e) (fp e).
Definition set_rang_cb (cb : option C) e := mkTimerEvent (timer e) (refTimer e) (exData e)
  (freeExData e) cb (prep_free_cb e) (rang_parent_cb e) (parent e) (freeInheritor e) (fp e).
Definition set_prep_free_cb (cb : option C) e := mkTimerEvent (timer e) (refTimer e) (exData e)
  (freeExData e) (rang_cb e) cb (rang_parent_cb e) (parent e) (freeInheritor e) (fp e).
Definition set_free_inheritor (cb : option C) e := mkTimerEvent (timer e) (refTimer e) (exData e)
  (freeExData e) (rang_cb e) (prep_free_cb e) (rang_parent_cb e) (parent e) cb (fp e).
End fields.

Section events.
Context {S C : Type} `{Store S (TimerEvent C)} `{Store S Timer} (call : C -> ptr -> M S unit).

Definition load_event : ptr -> M S (TimerEvent C) := load.
Definition store_event : ptr -> (TimerEvent C -> TimerEvent C) -> M S unit := update.
Definition raise_flag (event : ptr) (flag : Z) : M S unit :=
  store_event event (fun e => set_fp (flag_raise (fp e) flag) e).
Definition lower_flag (event : ptr) (flag : Z) : M S unit :=
  store_event event (fun e => set_fp (flag_lower (fp e) flag) e).
(** A function of [Timer.c] on the timer at an address. *)
Definition on_timer {A} (t : ptr) (f : option Timer -> res (A * option Timer)) : M S A :=
  if t =? NULL then '(a, _) ← lift (f None); mret a else
  tm ← load (A := Timer) t; '(a, o) ← lift (f (Some tm)); tm' ← lift (deref o);
  update (A := Timer) t (fun _ => tm');; mret a.
Definition begin_timer (now : option timespec) (t : ptr) : M S unit :=
  on_timer t (fun o => o' ← Timer_begin now o; Ok (tt, o')).
Definition end_time_of (t : ptr) : M S timespec :=
  on_timer t (fun o => e ← Timer_get_end_time o; Ok (e, o)).
Definition run_time_of (t : ptr) : M S timespec :=
  on_timer t (fun o => r ← Timer_get_run_time o; Ok (r, o)).
Definition freeTimer (t : ptr) : M S unit :=
  if t =? NULL then mret tt else release (A := Timer) t.

(** * Getters and setters *)
Definition TimerEvent_get_parent (event : ptr) : M S ptr := e ← load_event event; mret (parent e).
Definition TimerEvent_set_rang_parent_cb (event par : ptr) (cb : option C) : M S unit :=
  store_event event (set_parent par cb).
Definition TimerEvent_begin (now : option timespec) (event : ptr) : M S unit :=
  if event =? NULL then mret tt else e ← load_event event; begin_timer now (timer e).
Definition TimerEvent_compare_least_remaining_time (te1 te2 : ptr) : M S Z :=
  if (te1 =? NULL) && negb (te2 =? NULL) then mret (-1)
  else if negb (te1 =? NULL) && (te2 =? NULL) then mret 1
  else if (te1 =? NULL) && (te2 =? NULL) then mret 0 else
  e1 ← load_event te1; t1 ← end_time_of (timer e1);
  e2 ← load_event te2; t2 ← end_time_of (timer e2); mret (timespec_cmp_fast t1 t2).
Definition TimerEvent_get_timer (event : ptr) : M S ptr := e ← load_event event; mret (timer e).
Definition TimerEvent_get_ex_data (event : ptr) : M S ptr := e ← load_event event; mret (exData e).
Definition TimerEvent_get_rang_cb (event : ptr) : M S (option C) :=
  e ← load_event event; mret (rang_cb e).
Definition TimerEvent_get_flags (event : ptr) : M S Z := e ← load_event event; mret (fp e).
Definition TimerEvent_set_ex_data (event data : ptr) (free_data freeOldData : bool) : M S unit :=
  if event =? NULL then mret tt else
  e ← load_event event;
  when (freeOldData && negb (exData e =? NULL) && freeExData e) (emit (EvFree (exData e)));;
  store_event event (set_ex_data data free_data).
Definition TimerEvent_set_rang_cb (event : ptr) (cb : option C) : M S unit :=
  store_event event (set_rang_cb cb).
Definition TimerEvent_set_prep_free_cb (event : ptr) (cb : option C) : M S unit :=
  store_event event (set_prep_free_cb cb).

(** * Deletion *)
Definition call_if (cb : option C) (event : ptr) : M S unit :=
  match cb with Some c => call c event | None => mret tt end.
Definition freeTimerEvent (event : ptr) : M S unit :=
  if event =? NULL then mret tt else
  raise_flag event OBJECT_DELETE_STATE;;
  e ← load_event event;
  if raised (fp e) OBJECT_CALLBACK_STATE then mret tt else
  raise_flag event OBJECT_CALLBACK_STATE;;
  call_if (prep_free_cb e) event;;
  e ← load_event event; call_if (freeInheritor e) event;;
  lower_flag event OBJECT_CALLBACK_STATE;;
  e ← load_event event;
  (if refTimer e then mret tt else freeTimer (timer e));;
  when (negb (exData e =? NULL) && freeExData e) (emit (EvFree (exData e)));;
  release (A := TimerEvent C) event.
(** [event]: the pointer behind the double pointer. *)
Definition delTimerEvent (event : option ptr) : M S (option ptr) :=
  match event with None => mret None | Some e => freeTimerEvent e;; mret (Some NULL) end.

(** * The check *)

(** The second result is what is written to [*rang], [None] when nothing is.
    [now], [now']: the readings of the status and of the restart. *)
Definition TimerEvent_check (now now' : option timespec) (event : ptr)
    : M S (timespec * option Z) :=
  let f_return rang := e ← load_event event; t ← end_time_of (timer e); mret (t, rang) in
  e ← load_event event;
  '(err, rTime, oTime) ← on_timer (timer e) (fun o =>
      '(err, r, ov, o) ← Timer_get_time_status now true true o; Ok (err, r, ov, o));
  if negb (err =? 0) then
    run_time_of (timer e);; begin_timer now' (timer e);; f_return (Some 0)
  else
    r ← lift (deref rTime);
    if negb (tv_nsec r =? 0) || negb (tv_sec r =? 0) then f_return (Some 0) else
    on_timer (timer e) (fun o => o' ← Timer_begin_before now' oTime o; Ok (tt, o'));;
    e ← load_event event;
    match rang_parent_cb e, rang_cb e with
    | None, None => f_return None
    | par, own =>
        raise_flag event OBJECT_CALLBACK_STATE;;
        call_if (if par then par else own) event;;
        lower_flag event OBJECT_CALLBACK_STATE;;
        e ← load_event event;
        if raised (fp e) OBJECT_DELETE_STATE
        then freeTimerEvent event;; mret (mkTimespec 0 0, Some 1)
        else f_return (Some 1)
    end.

(** * Construction *)

(** [event]: the double pointer's target, [None] for a NULL double pointer. *)
Definition initTimerEvent (event : option ptr) (t : ptr) (refTimer : bool) (rang_cb : option C)
    (exData : ptr) (freeExData : bool) : M S (option ptr) :=
  match event with
  | None => (if negb (t =? NULL) && negb refTimer then freeTimer t else mret tt);; mret None
  | Some ev =>
      store_event ev (fun _ => mkTimerEvent t refTimer exData freeExData rang_cb None None NULL None FLAG_INIT);;
      if t =? NULL then delTimerEvent event else mret event
  end.
(** [k], [kt]: the addresses [malloc] returns for the event and the timer; [o]: the new
    timer's memory; [raw]: the event's. *)
Definition new_timer (kt : option ptr) (o : Timer) (sec nsec : Z) : M S ptr :=
  t ← lift (newTimer (match kt with Some _ => true | None => false end) o sec nsec);
  match t with Some t => alloc kt t | None => mret NULL end.
Definition newTimerEvent_ex (k : option ptr) (raw : TimerEvent C) (t : ptr) (refTimer : bool)
    (rang_cb : option C) (exData : ptr) (freeExData : bool) : M S ptr :=
  event ← alloc k raw;
  r ← initTimerEvent (Some event) t refTimer rang_cb exData freeExData; lift (deref r).
Definition newTimerEvent (k kt : option ptr) (raw : TimerEvent C) (o : Timer) (sec nsec : Z)
    (rang_cb : option C) (exData : ptr) (freeExData : bool) : M S ptr :=
  event ← alloc k raw; t ← new_timer kt o sec nsec;
  r ← initTimerEvent (Some event) t false rang_cb exData freeExData; lift (deref r).
End events.
