(* ===== verification/TimerEventHandler.v ===== *)
(** The handler of timer events, [source/TimerEventHandler.c]: a [DList] of
    [TimerEvent]s in the order in which they will ring, and the thread that
    waits for the first one.  The world holds the list's heap, the events, the
    timers and the handlers; callbacks run inside the functions that call
    them, so also inside the deletion of a list item.  Other threads act where
    the mutex is free: what they do there is an argument ([turn]).  Broadcasts
    of the condition change nothing that is modelled. *)
From S2P Require Import Prelude Effects Heap AlibTypes AlibTime DListItem DList TimerEvent.
Open Scope Z_scope.

(** The functions an event may point to. *)
Inductive callback := UserCb (f : Z) | TimerRang | EventPrepToFree.
Notation event_obj := (TimerEvent callback).
(** [fp] and [list] of the C structure; the mutex is the flag that it is held. *)
Record TimerEventHandler := mkHandler {
  mutex_held : bool; hfp : Z; list : ptr; threadPerCallback : bool }.
(** [spawned]: the callbacks started on threads of their own. *)
Record world := mkWorld {
  dl : heap; events : gmap Z event_obj; timers : gmap Z Timer;
  handlers : gmap Z TimerEventHandler; spawned : Datatypes.list (option callback * ptr) }.
#[export] Instance events_store : Store world event_obj := {|
  objs := events; put m w := mkWorld (dl w) m (timers w) (handlers w) (spawned w);
  objs_put _ _ := eq_refl; put_put _ _ _ := eq_refl;
  put_objs w := match w with mkWorld _ _ _ _ _ => eq_refl end |}.
#[export] Instance timers_store : Store world Timer := {|
  objs := timers; put m w := mkWorld (dl w) (events w) m (handlers w) (spawned w);
  objs_put _ _ := eq_refl; put_put _ _ _ := eq_refl;
  put_objs w := match w with mkWorld _ _ _ _ _ => eq_refl end |}.
#[export] Instance handlers_store : Store world TimerEventHandler := {|
  objs := handlers; put m w := mkWorld (dl w) (events w) (timers w) m (spawned w);
  objs_put _ _ := eq_refl; put_put _ _ _ := eq_refl;
  put_objs w := match w with mkWorld _ _ _ _ _ => eq_refl end |}.
Definition set_dl (h : heap) (w : world) : world :=
  mkWorld h (events w) (timers w) (handlers w) (spawned w).
(** A list function that frees nothing. *)
Definition on_dl {A} (m : M heap A) : M world A := fun w =>
  '(a, h, t) ← m (dl w); Ok (a, set_dl h w, t).
Definition load_handler : ptr -> M world TimerEventHandler := load.
Definition store_handler : ptr -> (TimerEventHandler -> TimerEventHandler) -> M world unit := update.
Definition set_held (b : bool) (hd : TimerEventHandler) := mkHandler b (hfp hd) (list hd) (threadPerCallback hd).
Definition set_hfp (n : Z) (hd : TimerEventHandler) := mkHandler (mutex_held hd) n (list hd) (threadPerCallback hd).
Definition lock (handler : ptr) : M world unit :=
  hd ← load_handler handler;
  if mutex_held hd then lift Diverges else store_handler handler (set_held true);; emit EvLock.
Definition unlock (handler : ptr) : M world unit :=
  store_handler handler (set_held false);; emit EvUnlock.
Definition raise_handler (handler : ptr) (flag : Z) : M world unit :=
  store_handler handler (fun hd => set_hfp (flag_raise (hfp hd) flag) hd).
Definition lower_handler (handler : ptr) (flag : Z) : M world unit :=
  store_handler handler (fun hd => set_hfp (flag_lower (hfp hd) flag) hd).

(** * Deleting list items whose values call back

    The functions of [DListItem] and [DList] with the free callback run at the
    place where the code calls it; [store] updates the double pointer. *)
Section deletion.
Context (free_cb : ptr -> M world unit).
Definition delListItemVal_cb (p : ptr) : M world unit :=
  if p =? NULL then mret tt else
  v ← on_dl (load_val p);
  if ref_count v =? 0 then mret tt else
  on_dl (store_val p (set_ref_count (ref_count v - 1)));;
  when (ref_count v - 1 =? 0)
    (when (free_value_cb v && negb (value v =? NULL)) (free_cb (value v));; on_dl (free_val_object p)).
Definition delListItem_cb (p : ptr) : M world unit :=
  i ← on_dl (load_item p);
  delListItemVal_cb (val (base i));;
  on_dl (store_item p (fun i => set_base (set_val NULL (base i)) i));; on_dl (free_item p).
Definition delDListItem_cb (store : ptr -> M world unit) (p : ptr) : M world unit :=
  if p =? NULL then mret tt else
  i ← on_dl (load_item p);
  store (if negb (prev i =? NULL) then prev i else next i);;
  on_dl (unlink p p);; delListItem_cb p.
Definition DList_remove_item_cb (list item : ptr) : M world Z :=
  if list =? NULL then mret ALIB_BAD_ARG else
  q ← on_dl (parent_of item);
  if negb (q =? list) then mret ALIB_BAD_ARG else
  l ← on_dl (load_list list);
  (if item =? begin_ l then
     delDListItem_cb (fun p => on_dl (store_list list (set_begin p))) item;;
     l ← on_dl (load_list list);
     when (begin_ l =? NULL) (on_dl (store_list list (set_end NULL)))
   else if item =? end_ l then delDListItem_cb (fun p => on_dl (store_list list (set_end p))) item
   else delDListItem_cb (fun _ => mret tt) item);;
  on_dl (decr_count list);; mret ALIB_OK.
(** The loop of [delDListItem_all(&list->begin)]. *)
Fixpoint del_all_cb (fuel : nat) (list : ptr) : M world unit :=
  match fuel with
  | O => lift Diverges
  | S k =>
      l ← on_dl (load_list list);
      if begin_ l =? NULL then mret tt else
      delDListItem_cb (fun p => on_dl (store_list list (set_begin p))) (begin_ l);; del_all_cb k list
  end.
Definition delDList_cb (list : ptr) : M world unit :=
  if list =? NULL then mret tt else
  fuel ← on_dl item_fuel; del_all_cb (S fuel) list;; on_dl (release (A := DList) list).
End deletion.

(** * Adding an event *)

(** The time the events are ordered by: the end time when the handler runs. *)
Definition event_key (running : bool) (event : ptr) : M world timespec :=
  t ← TimerEvent_get_timer event; if running then end_time_of t else run_time_of t.
(** [while(!it_event || timespec_cmp_fast(event, it_event) > 0)] *)
Fixpoint find_place (fuel : nat) (running : bool) (event it it_event : ptr) : M world ptr :=
  match fuel with
  | O => lift Diverges
  | S k =>
      later ← (if it_event =? NULL then mret true else
               a ← event_key running event; b ← event_key running it_event;
               mret (timespec_cmp_fast a b >? 0));
      if later : bool then
        it ← on_dl (DListItem_get_next_item it);
        if it =? NULL then mret NULL else
        it_event ← on_dl (DListItem_get_value it); find_place k running event it it_event
      else mret it
  end.
(** [ks]: the addresses the allocations of an item and of its value return; [now]: the clock. *)
Definition add_event (ks : option ptr * option ptr) (now : option timespec)
    (handler event itm : ptr) : M world Z :=
  if (handler =? NULL) || (event =? NULL) then mret ALIB_BAD_ARG else
  itm ← (if itm =? NULL then
           '(p, _) ← on_dl (newDListItem ks.1 ks.2 event true None); mret p
         else mret itm);
  hd ← load_handler handler; it ← on_dl (DList_get (list hd) 0);
  if it =? NULL then on_dl (DList_push_back (list hd) itm) else
  it_event ← on_dl (DListItem_get_value it);
  let running := raised (hfp hd) THREAD_IS_RUNNING in
  (if running then
     t ← TimerEvent_get_timer event; e ← end_time_of t;
     if tv_sec e =? 0 then begin_timer now t else mret tt
   else mret tt);;
  fuel ← on_dl item_fuel; it ← find_place fuel running event it it_event;
  if negb (it =? NULL) then on_dl (DList_insert_before (list hd) it itm)
  else on_dl (DList_push_back (list hd) itm).

(** * Removing events *)
Section removal.
Context (free_cb : ptr -> M world unit).
Definition remove_event (handler event : ptr) : M world unit :=
  hd ← load_handler handler;
  b ← on_dl (DList_get (list hd) 0); i ← on_dl (DListItem_get_by_value b event);
  DList_remove_item_cb free_cb (list hd) i;; mret tt.
End removal.
Definition extract_event (handler event : ptr) : M world unit :=
  hd ← load_handler handler;
  i ← on_dl (DList_get_by_value (list hd) event); n ← on_dl (DListItem_index i);
  itm ← on_dl (DList_pull_out (list hd) (u64 n));
  v ← on_dl (ListItem_extract_value itm);
  on_dl (store_val v (fun o => mkListItemVal NULL (free_value_cb o) (ref_count o)));;
  on_dl (delDListItem (Some itm));; mret tt.

(** * Callbacks *)
Section callbacks.
Context (user : Z -> ptr -> M world unit) (spawn_ok : ptr -> bool).

Definition event_prep_to_free (free_cb : ptr -> M world unit) (event : ptr) : M world unit :=
  par ← TimerEvent_get_parent event; remove_event free_cb par event.
(** [run]: calls a function pointer on the event. *)
Definition timer_rang (run : callback -> ptr -> M world unit) (event : ptr) : M world unit :=
  par ← TimerEvent_get_parent event; hd ← load_handler par;
  cb ← TimerEvent_get_rang_cb event;
  if threadPerCallback hd then
    when (spawn_ok event)
      (modify (fun w => mkWorld (dl w) (events w) (timers w) (handlers w) ((cb, event) :: spawned w)))
  else match cb with Some c => run c event | None => lift (UB NullDeref) end.
(** A call of a function pointer.  The deletion of an event calls the handler, which deletes the
    event's item and so calls the deletion again, which then returns at once: the calls of the library's
    own functions nest three deep. *)
Fixpoint call_at (depth : nat) (cb : callback) (event : ptr) : M world unit :=
  match depth with
  | O => lift Diverges
  | S d =>
      match cb with
      | UserCb f => user f event
      | TimerRang => timer_rang (call_at d) event
      | EventPrepToFree => event_prep_to_free (freeTimerEvent (call_at d)) event
      end
  end.
Definition call : callback -> ptr -> M world unit := call_at 3.

(** * The thread *)

(** What other threads do where the mutex is free in one turn of the loop, and what the clocks
    say: [others] acts between the unlock and the lock, [waits] whenever the wait for an event is
    woken, [timed] during the wait for the first event's end. *)
Record turn := mkTurn {
  others : M world unit; waits : Datatypes.list (M world unit); timed : M world unit;
  now : option timespec; now' : option timespec; now_add : option timespec;
  mono : timespec; real : timespec }.

Definition has_flag (handler : ptr) (flag : Z) : M world bool :=
  hd ← load_handler handler; mret (raised (hfp hd) flag).
(** [while(!DList_get_count(handler->list) && !(handler->fp & THREAD_STOP)) pthread_cond_wait(..)] *)
Fixpoint wait_events (handler : ptr) (waits : Datatypes.list (M world unit)) : M world unit :=
  hd ← load_handler handler; n ← on_dl (DList_get_count (list hd));
  if (n =? 0) && negb (raised (hfp hd) THREAD_STOP) then
    match waits with
    | [] => lift Diverges
    | w :: waits => unlock handler;; w;; lock handler;; wait_events handler waits
    end
  else mret tt.
(** One turn behind the waits: the new value of the local [rang] ([None]: indeterminate), and
    whether the loop goes on. *)
Definition handle_first (t : turn) (handler : ptr) (rang : option Z) : M world (option Z * bool) :=
  hd ← load_handler handler; itm ← on_dl (DList_get (list hd) 0);
  if itm =? NULL then mret (rang, true) else
  event ← on_dl (DListItem_get_value itm);
  '(eTime, r) ← TimerEvent_check call (now t) (now' t) event;
  let rang := match r with Some _ => r | None => rang end in
  if tv_sec eTime =? 0 then mret (rang, true) else
  r ← lift (match rang with Some r => Ok r | None => UB Indeterminate end);
  if negb (r =? 0) then
    n ← on_dl (DListItem_index itm); itm ← on_dl (DList_pull_out (list hd) (u64 n));
    event ← on_dl (DListItem_get_value itm);
    err ← add_event (None, None) (now_add t) handler event itm;
    mret (rang, err =? 0)
  else
    event ← on_dl (DListItem_get_value itm); tm ← TimerEvent_get_timer event;
    on_timer tm (fun o => d ← Timer_get_end_time_real_time (mono t) (real t) o; Ok (d, o));;
    unlock handler;; timed t;; lock handler;; mret (rang, true).
Fixpoint turns (ts : Datatypes.list turn) (handler : ptr) (rang : option Z) : M world unit :=
  match ts with
  | [] => lift Diverges
  | t :: ts =>
      stop ← has_flag handler THREAD_STOP;
      if stop : bool then mret tt else
      unlock handler;; others t;; lock handler;; wait_events handler (waits t);;
      '(rang, go_on) ← handle_first t handler rang;
      if go_on : bool then turns ts handler rang else mret tt
  end.
Definition timer_loop (ts : Datatypes.list turn) (handler : ptr) : M world unit :=
  if handler =? NULL then mret tt else
  raise_handler handler THREAD_IS_RUNNING;; lock handler;;
  turns ts handler None;;
  unlock handler;; lower_handler handler THREAD_IS_RUNNING.

(** * The public functions *)

(** [joined]: what the handler's thread does until it returns. *)
Definition TimerEventHandler_stop (joined : M world unit) (handler : ptr) : M world unit :=
  if handler =? NULL then mret tt else
  created ← has_flag handler THREAD_CREATED;
  when created (raise_handler handler THREAD_STOP;; joined;; lower_handler handler THREAD_CREATED).
(** [clock]: the readings for the events, in the order of the list. *)
Fixpoint begin_all (fuel : nat) (clock : nat -> option timespec) (n : nat) (it : ptr) : M world unit :=
  match fuel with
  | O => lift Diverges
  | S k =>
      if it =? NULL then mret tt else
      event ← on_dl (DListItem_get_value it); TimerEvent_begin (clock n) event;;
      it ← on_dl (DListItem_get_next_item it); begin_all k clock (S n) it
  end.
Definition TimerEventHandler_start (joined : M world unit) (clock : nat -> option timespec)
    (create_ok : bool) (handler : ptr) : M world Z :=
  if handler =? NULL then mret ALIB_BAD_ARG else
  running ← has_flag handler THREAD_IS_RUNNING;
  if running : bool then mret ALIB_OK else
  created ← has_flag handler THREAD_CREATED;
  when created (TimerEventHandler_stop joined handler);;
  hd ← load_handler handler; it ← on_dl (DList_get (list hd) 0);
  fuel ← on_dl item_fuel; begin_all (S fuel) clock 0 it;;
  lower_handler handler THREAD_STOP;; raise_handler handler THREAD_CREATED;;
  if negb create_ok then lower_handler handler THREAD_CREATED;; mret ALIB_THREAD_ERR
  else mret ALIB_OK.
(** [lock_ok]: the lock reports no error. *)
Definition TimerEventHandler_add_tsafe (lock_ok : bool) (ks : option ptr * option ptr)
    (now : option timespec) (handler event : ptr) : M world Z :=
  if (handler =? NULL) || (event =? NULL) then mret ALIB_BAD_ARG else
  par ← TimerEvent_get_parent event;
  if negb (par =? NULL) then mret ALIB_BAD_ARG else
  if negb lock_ok then mret ALIB_MUTEX_ERR else
  lock handler;;
  TimerEvent_set_prep_free_cb event (Some EventPrepToFree);;
  TimerEvent_set_rang_parent_cb event handler (Some TimerRang);;
  err ← add_event ks now handler event NULL;
  unlock handler;; mret err.
Definition TimerEventHandler_remove_tsafe (lock_ok : bool) (handler event : ptr) : M world unit :=
  if (handler =? NULL) || (event =? NULL) then mret tt else
  if negb lock_ok then mret tt else
  lock handler;;
  TimerEvent_set_rang_parent_cb event NULL None;;
  remove_event (freeTimerEvent call) handler event;;
  unlock handler.
Definition TimerEventHandler_extract_tsafe (lock_ok : bool) (handler event : ptr) : M world ptr :=
  if (handler =? NULL) || (event =? NULL) then mret event else
  (if lock_ok then
     lock handler;; TimerEvent_set_rang_parent_cb event NULL None;; extract_event handler event;;
     unlock handler
   else TimerEvent_set_rang_parent_cb event NULL None;; extract_event handler event);;
  mret event.
Definition TimerEventHandler_wakeup (handler : ptr) : M world unit := load_handler handler;; mret tt.
Definition TimerEventHandler_get_event_count (handler : ptr) : M world Z :=
  hd ← load_handler handler; on_dl (DList_get_count (list hd)).
Definition freeTimerEventHandler (joined : M world unit) (handler : ptr) : M world unit :=
  if handler =? NULL then mret tt else
  raise_handler handler OBJECT_DELETE_STATE;; TimerEventHandler_stop joined handler;;
  hd ← load_handler handler; delDList_cb (freeTimerEvent call) (list hd);;
  emit EvMutexDestroy;; release (A := TimerEventHandler) handler.
(** [handler]: the pointer behind the double pointer. *)
Definition delTimerEventHandler (joined : M world unit) (handler : option ptr) : M world (option ptr) :=
  match handler with
  | None => mret None
  | Some h => freeTimerEventHandler joined h;; mret (Some NULL)
  end.
(** [k], [kl]: the addresses of the handler and of its list. *)
Definition newTimerEventHandler (k kl : option ptr) (threadPerCallback : bool) : M world ptr :=
  match k with
  | None => mret NULL
  | Some p =>
      l ← on_dl (newDList kl);
      alloc k (mkHandler false FLAG_INIT l threadPerCallback);;
      if l =? NULL then r ← delTimerEventHandler (mret tt) (Some p); lift (deref r) else mret p
  end.
End callbacks.
