(* ===== verification/TimerEventHandlerSpec.v ===== *)
(** What a handler of timer events promises: its list holds the events in the
    order in which they ring, the first one rings first, and it is put back
    where its next end time belongs.  [holds_events] is the world of a handler
    whose list has the given events; the theorems follow additions and turns of
    the thread, and state where the code crashes instead. *)
From stdpp Require Import sorting.
From S2P Require Import Prelude Effects Heap AlibTypes AlibTime DListItem DListSeg DList.
From S2P Require Import DListSpec TimerEvent TimerEventHandler.
Open Scope Z_scope.

(** * Insertion before an item of a list *)
Section dlist.
Context (self : ptr) (Hself : self <> NULL) (fl : option bool) (h : heap).
Context (xs : Datatypes.list item) (x : item) (cs : Datatypes.list chain).
Hypothesis Hs : segs (items h) (Chain self NULL xs NULL :: Chain NULL NULL [x] NULL :: cs).
Hypothesis Hsize : Z.of_nat (length xs) + 1 < 2 ^ 62.

Lemma insert_before_guards (i : nat) : (i < length xs)%nat ->
  DList_insert_before self (at_ xs i) (addr x) (put_list self (summary xs fl) h)
  = (r ← DListItem_insert_before (at_ xs i) (addr x);
     if r =? at_ xs i then mret ALIB_UNKNOWN_ERR else
     l ← load_list self;
     (if begin_ l =? NULL then b ← DListItem_get_first_item (addr x); store_list self (set_begin b)
      else p ← prev_of (begin_ l);
           if negb (p =? NULL) then b ← DListItem_get_first_item (addr x); store_list self (set_begin b)
           else mret tt);;
     (if end_ l =? NULL then e ← DListItem_get_last_item (addr x); store_list self (set_end e)
      else mret tt);;
     store_list self (fun l => DList.set_count (u64 (count l + 1)) l);; mret ALIB_OK)
      (put_list self (summary xs fl) h).
Proof.
  intros Hi. unfold DList_insert_before. rewrite (proj2 (Z.eqb_neq self NULL) Hself).
  rewrite (at_null (put_list self (summary xs fl) h) _ _ _ Hs) by done. cbn [orb].
  rd (parent_at (put_list self (summary xs fl) h) _ _ _ Hs i Hi). rewrite Z.eqb_refl. cbn [negb orb].
  assert (Hsw := segs_swap _ _ _ _ Hs).
  destruct (segs_lookup_first _ _ _ _ _ NULL _ Hsw ltac:(done)) as [Hx _]. cbn [first] in Hx.
  rewrite (proj2 (Z.eqb_neq (addr x) NULL) Hx).
  by rd (parent_first (put_list self (summary xs fl) h) _ _ _ _ _ Hsw NULL ltac:(done)
         : parent_of (addr x) _ = _).
Qed.
Lemma insert_before_dlist (i : nat) : (0 < i < length xs)%nat ->
  let xs' := take i xs ++ x :: drop i xs in
  exists m, DList_insert_before self (at_ xs i) (addr x) (put_list self (summary xs fl) h)
      = Ok (ALIB_OK, put_list self (summary xs' fl) (set_items m h), [])
    /\ segs m (Chain self NULL xs' NULL :: cs).
Proof.
  intros Hi xs'. rewrite insert_before_guards by lia.
  assert (Hne : addr x <> at_ xs i).
  { destruct (lookup_lt_is_Some_2 xs i ltac:(lia)) as [y Hy]. rewrite (at_lookup _ _ _ Hy). intros Heq.
    apply segs_cons in Hs as (_ & _ & Hd & _). apply (Hd (addr y)).
    - cbn. apply list_elem_of_fmap_2. by eapply list_elem_of_lookup_2.
    - cbn. rewrite Heq. apply list_elem_of_here. }
  destruct (insert_before_index self (put_list self (summary xs fl) h) xs [x] 0 (Z.of_nat i) cs)
    as (m & E & S & Hl); [lia|cbn; lia|exact Hs|].
  rewrite Nat2Z.id in *. cbn [app] in S. fold xs' in S. change (at_ [x] 0) with (addr x) in E.
  exists m. split; [|done]. rd E. cbn [first]. rewrite (proj2 (Z.eqb_neq (addr x) _)) by done. whole.
  assert (Hxs : xs' <> []) by (unfold xs'; by destruct (take i xs)).
  assert (Hf : first xs NULL = first xs' NULL) by (unfold xs'; destruct xs; [cbn in *; lia|]; by destruct i; [lia|]).
  cbn [app] in Hl. fold xs' in Hl.
  ld. rewrite Hf, (first_null _ _ _ _ _ _ S Hxs), bind_bind.
  rd (prev_first (put_list self (summary xs fl) (set_items m h)) _ _ _ _ _ S NULL Hxs).
  cbn [negb Z.eqb NULL]. rewrite bind_mret, Hl, (last_null _ _ _ _ _ _ S Hxs), bind_mret.
  st. unfold summary, mret, M_ret. rewrite Hf, Hl. do 4 f_equal.
  unfold DList.set_count. cbn [begin_ end_ count items_ready_for_removal]. rewrite u64_small by lia. f_equal.
  unfold xs'. rewrite length_app. cbn [length]. rewrite length_take, length_drop. lia.
Qed.
Lemma insert_before_head_dlist : xs <> [] ->
  DList_insert_before self (first xs NULL) (addr x) (put_list self (summary xs fl) h) = UB NullDeref.
Proof.
  intros Hxs. rewrite <- at_first, insert_before_guards by (by apply nonempty_length).
  apply bind_UB. rewrite at_first.
  apply (insert_before_first (put_list self (summary xs fl) h) self xs [x] 0 cs Hxs); [cbn; lia|done].
Qed.
End dlist.

(** * Pulling out the first item *)
Lemma pull_first_dlist self fl h xs x cs :
  self <> NULL -> segs (items h) (Chain self NULL (x :: xs) NULL :: cs) ->
  Z.of_nat (length (x :: xs)) < 2 ^ 62 ->
  exists m, DList_pull_out self 0 (put_list self (summary (x :: xs) fl) h)
      = Ok (addr x, put_list self (summary xs fl) (set_items m h), [])
    /\ segs m (Chain NULL NULL [x] NULL :: Chain self NULL xs NULL :: cs).
Proof.
  intros Hself Hs Hsz. cbn [length] in Hsz. unfold DList_pull_out. rewrite (proj2 (Z.eqb_neq self NULL) Hself).
  ld. rewrite Z.geb_leb, (proj2 (Z.leb_gt _ _)) by (cbn [length]; lia). cbn [Z.eqb].
  destruct (pull_out_ok (put_list self (summary (x :: xs) fl) h) self [] x xs cs Hs) as (m & E & S).
  exists m. split; [|done]. cbn [app first] in *. rewrite !bind_bind, (bind_quiet _ _ _ _ _ E).
  cbv beta iota. change (neighbour [] xs) with (first xs NULL). erewrite bind_bind, bind_lift by done. whole.
  rewrite bind_bind. st. unfold when, decr_count, set_begin, set_end, DList.set_count.
  destruct (decide (xs = [])) as [->|HB].
  - cbn [first Z.eqb NULL]. rewrite bind_bind. st. rewrite bind_mret. st. done.
  - rewrite (first_null _ _ _ _ _ _ (segs_swap _ _ _ _ S) HB), bind_bind, !bind_mret. st.
    unfold summary, mret, M_ret. cbn [count begin_ end_ items_ready_for_removal].
    cbn [last length]. rewrite u64_small by lia.
    rewrite (last_nonempty (addr x) NULL xs HB).
    by replace (Z.of_nat (Datatypes.S (length xs)) - 1) with (Z.of_nat (length xs)) by lia.
Qed.

(** * The handler and its events *)
Implicit Types (w : world) (ev : ptr) (evs : Datatypes.list ptr).

Lemma bind_on_dl {A B} (m : M heap A) (k : A -> M world B) w a h :
  m (dl w) = Ok (a, h, []) -> mbind k (on_dl m) w = k a (set_dl h w).
Proof. intros E. apply bind_quiet. unfold on_dl. by rewrite E. Qed.
Lemma on_dl_ok {A} (m : M heap A) w a h t :
  m (dl w) = Ok (a, h, t) -> on_dl m w = Ok (a, set_dl h w, t).
Proof. intros E. unfold on_dl. by rewrite E. Qed.
Lemma set_dl_id w : set_dl (dl w) w = w.
Proof. by destruct w. Qed.
(** A step that only reads the lists. *)
Lemma bind_read_dl {A B} (m : M heap A) (k : A -> M world B) w a :
  m (dl w) = Ok (a, dl w, []) -> mbind k (on_dl m) w = k a w.
Proof. intros E. by rewrite (bind_on_dl _ _ _ _ _ E), set_dl_id. Qed.

(** The event [ev] exists and has the timer [tm]. *)
Definition timed w ev (tm : Timer) : Prop :=
  exists e, ev <> NULL /\ events w !! ev = Some e /\ timer e <> NULL /\ timers w !! timer e = Some tm.
Definition has_timer w ev : Prop := exists tm, timed w ev tm.
(** The time a handler orders its events by. *)
Definition key_of (running : bool) w ev : timespec :=
  match events w !! ev with
  | Some e =>
      match timers w !! timer e with
      | Some tm => if running then end_time tm else run_time tm
      | None => mkTimespec 0 0
      end
  | None => mkTimespec 0 0
  end.
Definition rings_later (running : bool) w ev ev' : bool :=
  timespec_cmp_fast (key_of running w ev) (key_of running w ev') >? 0.

(** The handler [self] = [hd] holds the events [evs] in the items [xs]; [cs] are other chains. *)
Record holds_events (cs : Datatypes.list chain) (self : ptr) (hd : TimerEventHandler)
    (xs : Datatypes.list item) evs w : Prop := {
  he_self : self <> NULL;
  he_handler : handlers w !! self = Some hd;
  he_list : list hd <> NULL;
  he_object : exists fl, lists (dl w) !! list hd = Some (summary xs fl);
  he_segs : segs (items (dl w)) (Chain (list hd) NULL xs NULL :: cs);
  he_owns : Forall2 (owns (vals (dl w))) xs ((fun e => (e, true)) <$> evs);
  he_objs : NoDup (obj <$> xs);
  he_size : Z.of_nat (length evs) < 2 ^ 60 }.

Section access.
Context {cs : Datatypes.list chain} {self : ptr} {hd : TimerEventHandler} {xs : Datatypes.list item}
  {evs : Datatypes.list ptr} {w : world} (Hw : holds_events cs self hd xs evs w).

Lemma he_length : length xs = length evs.
Proof. rewrite (Forall2_length _ _ _ (he_owns _ _ _ _ _ _ Hw)). by rewrite length_fmap. Qed.
Lemma bind_handler {B} (k : TimerEventHandler -> M world B) : mbind k (load_handler self) w = k hd w.
Proof. apply bind_load; apply Hw. Qed.
Lemma he_value i ev : evs !! i = Some ev ->
  DListItem_get_value (at_ xs i) (dl w) = Ok (ev, dl w, []).
Proof.
  intros Hev.
  assert (((fun e => (e, true)) <$> evs) !! i = Some (ev, true)) as Hp by (by rewrite list_lookup_fmap, Hev).
  destruct (Forall2_lookup_r _ _ _ _ _ (he_owns _ _ _ _ _ _ Hw) Hp) as (x & Hx & Hn & He).
  rewrite (at_lookup _ _ _ Hx).
  destruct (node_at (dl w) _ _ _ (he_segs _ _ _ _ _ _ Hw) _ _ Hx) as [Ha Hnode].
  unfold DListItem_get_value. rewrite (bind_load_item _ _ Ha _ _ Hnode). cbn [node base val].
  by rewrite (bind_load_val _ _ Hn _ _ He).
Qed.
Lemma he_get : exists fl, dl w = put_list (list hd) (summary xs fl) (dl w) /\
  DList_get (list hd) 0 (dl w) = Ok (at_ xs 0, dl w, []).
Proof.
  destruct (he_object _ _ _ _ _ _ Hw) as [fl Hl]. exists fl.
  assert (dl w = put_list (list hd) (summary xs fl) (dl w)) as E by (symmetry; by apply put_list_id).
  split; [done|]. pose proof he_length. pose proof (he_size _ _ _ _ _ _ Hw).
  rewrite E at 1 2. apply (get_dlist (list hd) (he_list _ _ _ _ _ _ Hw) fl (dl w) xs cs 0); [apply Hw|lia..].
Qed.
End access.

(** ** Keys *)
Lemma on_timer_ok {A} t tm (f : option Timer -> res (A * option Timer)) a tm' w :
  t <> NULL -> timers w !! t = Some tm -> f (Some tm) = Ok (a, Some tm') ->
  on_timer t f w
    = Ok (a, mkWorld (dl w) (events w) (<[t := tm']> (timers w)) (handlers w) (spawned w), []).
Proof.
  intros Ht Hl Hf. unfold on_timer. rewrite (proj2 (Z.eqb_neq t NULL) Ht).
  rewrite (bind_load (H := timers_store) t _ w tm Ht Hl), (bind_lift _ _ _ _ Hf).
  rewrite (bind_lift _ tm') by done. by rewrite (bind_update (H := timers_store) t _ _ w tm Ht Hl).
Qed.
Lemma read_timer_ok {A} t tm (f : option Timer -> res (A * option Timer)) a w :
  t <> NULL -> timers w !! t = Some tm -> f (Some tm) = Ok (a, Some tm) ->
  on_timer t f w = Ok (a, w, []).
Proof. intros Ht Hl Hf. rewrite (on_timer_ok t tm f a tm w Ht Hl Hf), insert_id by done. by destruct w. Qed.
Lemma bind_event {B} ev e (k : event_obj -> M world B) w :
  ev <> NULL -> events w !! ev = Some e -> mbind k (load_event ev) w = k e w.
Proof. apply (bind_load (H := events_store)). Qed.
Lemma bind_store_event {B} ev e f (k : unit -> M world B) w :
  ev <> NULL -> events w !! ev = Some e ->
  mbind k (store_event ev f) w
    = k tt (mkWorld (dl w) (<[ev := f e]> (events w)) (timers w) (handlers w) (spawned w)).
Proof. apply (bind_update (H := events_store)). Qed.
Lemma bind_get_timer {B} ev tm (k : ptr -> M world B) w : timed w ev tm ->
  exists t, t <> NULL /\ timers w !! t = Some tm /\ mbind k (TimerEvent_get_timer ev) w = k t w.
Proof.
  intros (e & Hev & He & Ht & Htm). exists (timer e). split; [done|]. split; [done|].
  apply bind_quiet. unfold TimerEvent_get_timer. by rewrite (bind_event ev e _ w Hev He).
Qed.
Lemma key_timed running w ev tm : timed w ev tm ->
  key_of running w ev = if running then end_time tm else run_time tm.
Proof. intros (e & _ & He & _ & Htm). unfold key_of. by rewrite He, Htm. Qed.
Lemma event_key_ok running w ev : has_timer w ev ->
  event_key running ev w = Ok (key_of running w ev, w, []).
Proof.
  intros [tm Htm]. rewrite (key_timed running w ev tm Htm). unfold event_key.
  destruct (bind_get_timer ev tm (fun t => if running then end_time_of t else run_time_of t) w Htm)
    as (t & Ht & Hl & ->).
  by destruct running; apply (read_timer_ok t tm).
Qed.

(** * The place of a new event *)

(** The number of leading elements that satisfy [f]. *)
Fixpoint lead (f : ptr -> bool) (l : Datatypes.list ptr) : nat :=
  match l with [] => 0 | x :: l => if f x then S (lead f l) else 0 end.
Lemma lead_le f l : (lead f l <= length l)%nat.
Proof. induction l as [|x l IH]; cbn; [done|]. destruct (f x); lia. Qed.
Definition insert_event (f : ptr -> bool) ev evs : Datatypes.list ptr :=
  take (lead f evs) evs ++ ev :: drop (lead f evs) evs.

Section place.
Context {cs : Datatypes.list chain} {self : ptr} {hd : TimerEventHandler} {xs : Datatypes.list item}
  {evs : Datatypes.list ptr} {w : world} (Hw : holds_events cs self hd xs evs w).
Context (running : bool) (ev : ptr) (Hev : has_timer w ev) (Hevs : Forall (has_timer w) evs).
Notation f := (rings_later running w ev).

Lemma find_place_ok fuel : forall i it_event, evs !! i = Some it_event ->
  (length evs - i <= fuel)%nat ->
  find_place fuel running ev (at_ xs i) it_event w = Ok (at_ xs (i + lead f (drop i evs)), w, []).
Proof.
  induction fuel as [|fuel IH]; intros i e Hi Hf; pose proof (lookup_lt_Some _ _ _ Hi); [lia|].
  cbn [find_place]. pose proof (he_length Hw) as Hlen.
  assert (has_timer w e) as He by (rewrite Forall_lookup in Hevs; by eapply Hevs).
  assert (e <> NULL) as Hn by (by destruct He as (? & ? & ? & _)).
  assert ((if e =? NULL then mret true else
             a ← event_key running ev; b ← event_key running e; mret (timespec_cmp_fast a b >? 0)) w
    = Ok (f e, w, [])) as E.
  { rewrite (proj2 (Z.eqb_neq _ _) Hn), (bind_quiet _ _ _ _ _ (event_key_ok running w ev Hev)).
    by rewrite (bind_quiet _ _ _ _ _ (event_key_ok running w e He)). }
  rewrite (bind_quiet _ _ _ _ _ E), (drop_S _ _ _ Hi). cbn [lead].
  destruct (f e); [|by rewrite Nat.add_0_r].
  erewrite bind_read_dl; [|apply (next_at (dl w) _ _ _ (he_segs _ _ _ _ _ _ Hw)); lia].
  destruct (evs !! S i) as [e'|] eqn:Hi'.
  - pose proof (lookup_lt_Some _ _ _ Hi').
    rewrite (at_null (dl w) _ _ _ (he_segs _ _ _ _ _ _ Hw)) by lia.
    erewrite bind_read_dl; [|by apply (he_value Hw)]. rewrite IH by (done || lia).
    do 3 f_equal. f_equal. lia.
  - apply lookup_ge_None_1 in Hi'. rewrite (drop_ge evs (S i)) by done. cbn [lead].
    rewrite !at_past by lia. done.
Qed.
End place.

(** The event is given in an item of its own. *)
Lemma insert_item_ok cs self hd xs evs w x ev (n : nat) :
  holds_events (Chain NULL NULL [x] NULL :: cs) self hd xs evs w ->
  owns (vals (dl w)) x (ev, true) -> obj x ∉ obj <$> xs -> (n <= length evs)%nat ->
  (n = 0%nat -> evs = []) -> Z.of_nat (length evs) + 1 < 2 ^ 60 ->
  exists h, (if negb (at_ xs n =? NULL) then on_dl (DList_insert_before (list hd) (at_ xs n) (addr x))
             else on_dl (DList_push_back (list hd) (addr x))) w = Ok (ALIB_OK, set_dl h w, [])
    /\ holds_events cs self hd (take n xs ++ x :: drop n xs) (take n evs ++ ev :: drop n evs) (set_dl h w).
Proof.
  intros Hw Hx Hnin Hn H0 Hsz. pose proof (he_length Hw) as Hlen.
  pose proof Hw as [H1 H2 H3 [fl Hl] Hs Ho Hnd _].
  assert (dl w = put_list (list hd) (summary xs fl) (dl w)) as E by (symmetry; by apply put_list_id).
  assert (exists m, (if negb (at_ xs n =? NULL) then on_dl (DList_insert_before (list hd) (at_ xs n) (addr x))
             else on_dl (DList_push_back (list hd) (addr x))) w
      = Ok (ALIB_OK, set_dl (put_list (list hd) (summary (take n xs ++ x :: drop n xs) fl) (set_items m (dl w))) w, [])
    /\ segs m (Chain (list hd) NULL (take n xs ++ x :: drop n xs) NULL :: cs)) as (m & Em & Sm).
  { destruct (Nat.eq_dec n (length xs)) as [->|Hne].
    - rewrite at_past, take_ge, drop_ge by lia. cbn [negb Z.eqb NULL].
      destruct (push_back_dlist (list hd) H3 fl (dl w) xs [x] 0 cs) as (m & Em & Sm); [cbn; lia..|done|].
      exists m. split; [|done]. apply on_dl_ok. rewrite E at 1. exact Em.
    - rewrite (at_null (dl w) _ _ _ Hs) by lia. cbn [negb].
      destruct (insert_before_dlist (list hd) H3 fl (dl w) xs x cs Hs ltac:(lia) n) as (m & Em & Sm).
      { split; [|lia]. destruct n; [|lia]. rewrite H0 in Hlen by done. cbn in Hlen. lia. }
      exists m. split; [|done]. apply on_dl_ok. rewrite E at 1. exact Em. }
  eexists. split; [exact Em|]. split; cbn; [done|done|done| |done| | |].
  - exists fl. by rewrite lookup_insert_eq.
  - rewrite fmap_app, fmap_cons, fmap_take, fmap_drop. apply Forall2_app; [by apply Forall2_take|].
    constructor; [done|by apply Forall2_drop].
  - by rewrite <- Permutation_middle, take_drop, fmap_cons, NoDup_cons.
  - rewrite length_app. cbn [length]. rewrite length_take, length_drop. lia.
Qed.

(** ** Order *)
Definition in_order (running : bool) w : relation ptr := fun a b => rings_later running w a b = false.

Lemma cmp_antisym a b : timespec_cmp_fast a b = 1 -> timespec_cmp_fast b a <= 0.
Proof. unfold timespec_cmp_fast. repeat case_cmp; lia. Qed.
Lemma cmp_range a b : timespec_cmp_fast a b = 1 \/ timespec_cmp_fast a b <= 0.
Proof. unfold timespec_cmp_fast. repeat case_cmp; lia. Qed.
Lemma later_order running w a b : rings_later running w a b = true -> in_order running w b a.
Proof.
  unfold in_order, rings_later. rewrite !Z.gtb_ltb. intros H%Z.ltb_lt. apply Z.ltb_ge.
  destruct (cmp_range (key_of running w a) (key_of running w b)) as [E|E]; [by apply cmp_antisym|lia].
Qed.
Lemma insert_sorted running w ev evs :
  Sorted (in_order running w) evs ->
  Sorted (in_order running w) (insert_event (rings_later running w ev) ev evs).
Proof.
  unfold insert_event. induction evs as [|e evs IH]; intros Hs; cbn [lead take drop app]; [by repeat constructor|].
  destruct (rings_later running w ev e) eqn:El; cbn [take drop app].
  - apply Sorted_inv in Hs as [Hs Hr]. constructor; [by apply IH|].
    destruct evs as [|e' evs]; cbn [lead take drop app]; [constructor; by apply later_order|].
    destruct (rings_later running w ev e'); cbn [take drop app]; constructor; [|by apply later_order].
    by inversion Hr.
  - constructor; [done|]. by constructor.
Qed.
Lemma insert_event_perm f ev evs : insert_event f ev evs ≡ₚ ev :: evs.
Proof. unfold insert_event. by rewrite <- Permutation_middle, take_drop. Qed.

(** * Adding *)

(** The part of [add_event] that starts the timer. *)
Definition start_if_needed (running : bool) (now : option timespec) ev : M world unit :=
  if running then
    t ← TimerEvent_get_timer ev; e ← end_time_of t;
    if tv_sec e =? 0 then begin_timer now t else mret tt
  else mret tt.
Lemma start_not_needed running now ev w tm : timed w ev tm -> tv_sec (end_time tm) <> 0 ->
  start_if_needed running now ev w = Ok (tt, w, []).
Proof.
  intros Htm Hsec. unfold start_if_needed. destruct running; [|done].
  destruct (bind_get_timer ev tm (fun t => e ← end_time_of t;
    if tv_sec e =? 0 then begin_timer now t else mret tt) w Htm) as (t & Ht & Hl & ->).
  erewrite bind_quiet by (by apply (read_timer_ok t tm)). by rewrite (proj2 (Z.eqb_neq _ _) Hsec).
Qed.
(** Only timers change between the worlds. *)
Definition only_timers w w1 : Prop :=
  dl w1 = dl w /\ events w1 = events w /\ handlers w1 = handlers w /\ spawned w1 = spawned w /\
  forall e, has_timer w e -> has_timer w1 e.
Lemma start_only_timers running now ev w w1 : has_timer w ev ->
  start_if_needed running now ev w = Ok (tt, w1, []) -> only_timers w w1.
Proof.
  intros [tm Htm]. unfold start_if_needed. destruct running; [|by intros [= <-]].
  destruct (bind_get_timer ev tm (fun t => e ← end_time_of t;
    if tv_sec e =? 0 then begin_timer now t else mret tt) w Htm) as (t & Ht & Hl & ->).
  erewrite bind_quiet by (by apply (read_timer_ok t tm)). destruct (tv_sec (end_time tm) =? 0); [|by intros [= <-]].
  unfold begin_timer. destruct (Timer_begin now (Some tm)) as [[tm'|]| |] eqn:Eb.
  - rewrite (on_timer_ok t tm _ tt tm') by (done || by rewrite Eb). intros [= <-].
    do 4 (split; [done|]). intros e (tm0 & e0 & He & Hee & Hne & Hl0).
    destruct (decide (timer e0 = t)) as [<-|Hd].
    + exists tm', e0. cbn. by rewrite lookup_insert_eq.
    + exists tm0, e0. cbn. by rewrite lookup_insert_ne.
  - unfold Timer_begin in Eb. by destruct (timespec_add _ _).
  - unfold on_timer. rewrite (proj2 (Z.eqb_neq t NULL) Ht).
    rewrite (bind_load (H := timers_store) t _ w tm Ht Hl). erewrite bind_UB; [done|]. unfold lift. by rewrite Eb.
  - unfold on_timer. rewrite (proj2 (Z.eqb_neq t NULL) Ht).
    rewrite (bind_load (H := timers_store) t _ w tm Ht Hl). rewrite bind_Diverges; [done|]. unfold lift. by rewrite Eb.
Qed.
Lemma holds_only_timers cs self hd xs evs w w1 :
  only_timers w w1 -> holds_events cs self hd xs evs w -> holds_events cs self hd xs evs w1.
Proof. intros (E1 & _ & E2 & _) [H1 H2 H3 H4 H5 H6 H7]. split; rewrite ?E1, ?E2; done. Qed.

(** The world the place is looked up in. *)
Definition ready (running : bool) (now : option timespec) ev evs w w1 : Prop :=
  match evs with [] => w1 = w | _ => start_if_needed running now ev w = Ok (tt, w1, []) end.

(** [add_event] on an item of its own: the place is looked up, then the item goes there. *)
Section add_item.
Context (cs : Datatypes.list chain) (self : ptr) (hd : TimerEventHandler) (xs : Datatypes.list item)
  (evs : Datatypes.list ptr) (w w1 : world) (x : item) (ev : ptr).
Context (ks : option ptr * option ptr) (now : option timespec).
Notation running := (raised (hfp hd) THREAD_IS_RUNNING).
Hypothesis Hw : holds_events (Chain NULL NULL [x] NULL :: cs) self hd xs evs w.
Hypothesis Hx : owns (vals (dl w)) x (ev, true).
Hypothesis Hnin : obj x ∉ obj <$> xs.
Hypothesis Hsz : Z.of_nat (length evs) + 1 < 2 ^ 60.
Hypothesis Hev : has_timer w ev.
Hypothesis Hevs : Forall (has_timer w) evs.
Hypothesis Hr : ready running now ev evs w w1.
Notation n := (lead (rings_later running w1 ev) evs).

Lemma ready_only_timers : only_timers w w1.
Proof.
  destruct evs; cbn in Hr; [subst w1; by repeat split|]. by apply start_only_timers in Hr.
Qed.
Lemma add_item_place : add_event ks now self ev (addr x) w
  = (if negb (at_ xs n =? NULL) then on_dl (DList_insert_before (list hd) (at_ xs n) (addr x))
     else on_dl (DList_push_back (list hd) (addr x))) w1.
Proof.
  pose proof ready_only_timers as Ho. pose proof (holds_only_timers _ _ _ _ _ _ _ Ho Hw) as Hw1.
  pose proof Ho as (E1 & _ & _ & _ & Hk). unfold add_event.
  assert (Hn : ev <> NULL) by (by destruct Hev as (? & ? & ? & _)).
  rewrite (proj2 (Z.eqb_neq self NULL)), (proj2 (Z.eqb_neq ev NULL)) by (done || apply Hw). cbn [orb].
  assert (addr x <> NULL) as Hax.
  { pose proof (he_segs _ _ _ _ _ _ Hw) as Hs. apply segs_swap in Hs.
    by destruct (segs_lookup_first _ _ _ _ _ NULL _ Hs ltac:(done)). }
  rewrite (proj2 (Z.eqb_neq _ _) Hax), bind_mret, (bind_handler Hw).
  destruct (he_get Hw) as (fl & _ & Eg). rewrite (bind_read_dl _ _ _ _ Eg).
  destruct evs as [|e l].
  - cbn in Hr. subst w1. pose proof (he_length Hw). by destruct xs.
  - pose proof (he_length Hw) as Hlen. rewrite (at_null (dl w) _ _ _ (he_segs _ _ _ _ _ _ Hw)) by (cbn in Hlen; lia).
    rewrite (bind_read_dl _ _ _ _ (he_value Hw 0 e eq_refl)). cbn zeta.
    cbn [ready] in Hr. unfold start_if_needed in Hr. rewrite (bind_quiet _ _ _ _ _ Hr).
    rewrite (bind_read_dl item_fuel _ w1 (walk_fuel (A := DListItem) (dl w1))) by done.
    pose proof (fuel_ok (dl w1) _ _ _ (he_segs _ _ _ _ _ _ Hw1)) as Hfuel.
    assert (has_timer w1 ev) as Hev1 by auto.
    assert (Forall (has_timer w1) (e :: l)) as Hevs1 by (by eapply Forall_impl).
    by rewrite (bind_quiet _ _ _ _ _ (find_place_ok Hw1 running ev Hev1 Hevs1
      (walk_fuel (A := DListItem) (dl w1)) 0 e eq_refl ltac:(lia))).
Qed.
Lemma add_item_ok :
  match evs with [] => True | e :: _ => rings_later running w1 ev e = true end ->
  exists h, add_event ks now self ev (addr x) w = Ok (ALIB_OK, set_dl h w1, []) /\
    holds_events cs self hd (take n xs ++ x :: drop n xs) (insert_event (rings_later running w1 ev) ev evs)
      (set_dl h w1).
Proof.
  intros Hfirst. pose proof ready_only_timers as Ho.
  pose proof (holds_only_timers _ _ _ _ _ _ _ Ho Hw) as Hw1. pose proof Ho as (E1 & _).
  rewrite add_item_place. apply insert_item_ok; [done|by rewrite E1|done|apply lead_le| |done].
  destruct evs as [|e l]; [done|]. cbn [lead]. by rewrite Hfirst.
Qed.
(** Not later than the first event: the item is inserted in front of the first one. *)
Lemma add_item_crash e l : evs = e :: l -> rings_later running w1 ev e = false ->
  add_event ks now self ev (addr x) w = UB NullDeref.
Proof.
  intros Hevs' Hfirst. rewrite add_item_place, Hevs'. cbn [lead]. rewrite Hfirst.
  pose proof ready_only_timers as Ho. pose proof (holds_only_timers _ _ _ _ _ _ _ Ho Hw) as Hw1.
  pose proof (he_length Hw) as Hlen. rewrite Hevs' in Hlen. cbn in Hlen.
  rewrite (at_null (dl w) _ _ _ (he_segs _ _ _ _ _ _ Hw)) by lia. cbn [negb].
  unfold on_dl. destruct (he_object _ _ _ _ _ _ Hw1) as [fl Hl].
  assert (dl w1 = put_list (list hd) (summary xs fl) (dl w1)) as -> by (symmetry; by apply put_list_id).
  rewrite at_first, (insert_before_head_dlist (list hd) (he_list _ _ _ _ _ _ Hw) fl (dl w1) xs x cs); [done| |].
  - apply Hw1.
  - by destruct xs.
Qed.
End add_item.

(** A new item for the event. *)
Lemma new_item_ok cs self hd xs evs w ev a b :
  holds_events cs self hd xs evs w ->
  fresh_at (A := DListItem) (dl w) a -> fresh_at (A := ListItemVal) (dl w) b ->
  let x := mkItem a b false in
  exists h, newDListItem (Some a) (Some b) ev true None (dl w) = Ok ((a, None), h, []) /\
    holds_events (Chain NULL NULL [x] NULL :: cs) self hd xs evs (set_dl h w) /\
    owns (vals h) x (ev, true) /\ obj x ∉ obj <$> xs.
Proof.
  intros [H1 H2 H3 H4 Hs Ho H7 H8] [Ha Hfa] [Hb Hfb] x.
  assert (Hnin : obj x ∉ obj <$> xs).
  { intros (y & Hy & Hin)%list_elem_of_fmap_1. apply list_elem_of_lookup_1 in Hin as [i Hi].
    destruct (Forall2_lookup_l _ _ _ _ _ Ho Hi) as (e' & _ & _ & Hl). simpl in Hfb, Hy. congruence. }
  eexists. split; [done|]. split; [|split; [|done]].
  - split; cbn; [done..| | |done|done].
    + apply segs_swap. by apply (segs_fresh (items (dl w)) a x).
    + eapply owns_frame; [|done]. intros y Hy. apply lookup_insert_ne. intros Heq. apply Hnin.
      cbn. rewrite Heq. by apply list_elem_of_fmap_2.
  - split; [done|]. cbn. apply lookup_insert_eq.
Qed.

(** ** The public function *)

(** The event after the handler took it. *)
Definition hooked (self : ptr) (e : event_obj) : event_obj :=
  set_parent self (Some TimerRang) (set_prep_free_cb (Some EventPrepToFree) e).
(** The event's timer when its place is looked up: a running handler that has events starts it
    when its end time has no seconds. *)
Definition placed_timer (running : bool) (now : option timespec) evs (tm tm1 : Timer) : Prop :=
  if running && negb (bool_decide (evs = [])) && (tv_sec (end_time tm) =? 0)
  then Timer_begin now (Some tm) = Ok (Some tm1) else tm1 = tm.
Definition taken (self ev : ptr) (e : event_obj) (tm1 : Timer) w : world :=
  mkWorld (dl w) (<[ev := hooked self e]> (events w)) (<[timer e := tm1]> (timers w)) (handlers w) (spawned w).

Section add.
Context (cs : Datatypes.list chain) (self : ptr) (hd : TimerEventHandler) (xs : Datatypes.list item)
  (evs : Datatypes.list ptr) (w : world) (ev : ptr) (e : event_obj) (tm tm1 : Timer) (a b : ptr)
  (now : option timespec).
Notation running := (raised (hfp hd) THREAD_IS_RUNNING).
Hypothesis Hw : holds_events cs self hd xs evs w.
Hypothesis Hfree : mutex_held hd = false.
Hypothesis Hevs : Forall (has_timer w) evs.
Hypothesis He : events w !! ev = Some e.
Hypothesis Hev : timed w ev tm.
Hypothesis Hpar : parent e = NULL.
Hypothesis Ha : fresh_at (A := DListItem) (dl w) a.
Hypothesis Hb : fresh_at (A := ListItemVal) (dl w) b.
Hypothesis Hsz : Z.of_nat (length evs) + 1 < 2 ^ 60.
Hypothesis Htm : placed_timer running now evs tm tm1.

(** The worlds after the lock, and after the start. *)
Definition locked_world : world :=
  mkWorld (dl w) (<[ev := hooked self e]> (events w)) (timers w)
    (<[self := set_held true hd]> (handlers w)) (spawned w).
Definition placing_world (h : heap) : world :=
  mkWorld h (<[ev := hooked self e]> (events w)) (<[timer e := tm1]> (timers w))
    (<[self := set_held true hd]> (handlers w)) (spawned w).

Lemma timed_timer : ev <> NULL /\ timer e <> NULL /\ timers w !! timer e = Some tm.
Proof. destruct Hev as (e' & Hn & He' & Ht & Hl). rewrite He in He'. by injection He' as <-. Qed.
Lemma holds_locked : holds_events cs self (set_held true hd) xs evs locked_world.
Proof. destruct Hw. split; try done. cbn. apply lookup_insert_eq. Qed.
Lemma has_timer_locked h e' : has_timer w e' -> has_timer (set_dl h locked_world) e'.
Proof.
  intros (tm' & e0 & Hn & He0 & Ht & Hl). exists tm'. destruct (decide (e' = ev)) as [->|Hd].
  - exists (hooked self e0). rewrite He in He0. injection He0 as <-. cbn. by rewrite lookup_insert_eq.
  - exists e0. cbn. by rewrite lookup_insert_ne by done.
Qed.
Lemma ready_locked h :
  ready running now ev evs (set_dl h locked_world) (placing_world h).
Proof.
  destruct timed_timer as (Hn & Ht & Hl). unfold ready, placed_timer in *.
  assert (tm1 = tm -> placing_world h = set_dl h locked_world) as Hid.
  { unfold placing_world. intros Hid. by rewrite Hid, (insert_id (timers w)) by done. }
  destruct evs as [|e0 l].
  { apply Hid. by rewrite andb_false_r in Htm. }
  assert (timed (set_dl h locked_world) ev tm) as Htl.
  { exists (hooked self e). cbn. by rewrite lookup_insert_eq. }
  unfold start_if_needed. destruct running; [|by rewrite Hid]. rewrite bool_decide_eq_false_2 in Htm by done.
  assert (TimerEvent_get_timer ev (set_dl h locked_world) = Ok (timer e, set_dl h locked_world, [])) as Eg.
  { unfold TimerEvent_get_timer. rewrite (bind_event ev (hooked self e)); [done|done|].
    cbn. by rewrite lookup_insert_eq. }
  rewrite (bind_quiet _ _ _ _ _ Eg). erewrite bind_quiet by (by apply (read_timer_ok (timer e) tm)).
  cbn [andb negb] in Htm. destruct (tv_sec (end_time tm) =? 0); [|by rewrite Hid].
  unfold begin_timer. by rewrite (on_timer_ok (timer e) tm _ tt tm1) by (done || by rewrite Htm).
Qed.
(** The call, up to the unlock. *)
Lemma add_tsafe_steps : exists h x,
  TimerEventHandler_add_tsafe true (Some a, Some b) now self ev w
    = ('(err, w2, t2) ← (err ← add_event (Some a, Some b) now self ev (addr x); unlock self;; mret err)
                         (set_dl h locked_world); Ok (err, w2, EvLock :: t2)) /\
  holds_events (Chain NULL NULL [x] NULL :: cs) self (set_held true hd) xs evs (set_dl h locked_world) /\
  owns (vals h) x (ev, true) /\ obj x ∉ obj <$> xs.
Proof.
  destruct timed_timer as (Hn & Ht & Hl).
  destruct (new_item_ok cs self (set_held true hd) xs evs locked_world ev a b holds_locked Ha Hb)
    as (h & En & Hh & Ho & Hnin).
  exists h, (mkItem a b false). split; [|done]. unfold TimerEventHandler_add_tsafe.
  rewrite (proj2 (Z.eqb_neq self NULL)), (proj2 (Z.eqb_neq ev NULL)) by (done || apply Hw). cbn [orb].
  assert (TimerEvent_get_parent ev w = Ok (NULL, w, [])) as Ep.
  { unfold TimerEvent_get_parent. rewrite (bind_event ev e _ w Hn He). by rewrite Hpar. }
  rewrite (bind_quiet _ _ _ _ _ Ep). cbn [negb Z.eqb NULL].
  assert (lock self w = Ok (tt, mkWorld (dl w) (events w) (timers w)
    (<[self := set_held true hd]> (handlers w)) (spawned w), [EvLock])) as El.
  { unfold lock. rewrite (bind_handler Hw), Hfree.
    by rewrite (bind_update (H := handlers_store) self _ _ w hd) by apply Hw. }
  rewrite (bind_Ok _ _ _ _ _ _ El). unfold TimerEvent_set_prep_free_cb, TimerEvent_set_rang_parent_cb.
  rewrite (bind_store_event ev e) by done. cbn [dl events timers handlers spawned].
  rewrite (bind_store_event ev (set_prep_free_cb (Some EventPrepToFree) e)) by (done || by cbn; rewrite lookup_insert_eq).
  cbn [dl events timers handlers spawned]. rewrite insert_insert_eq. fold (hooked self e). fold locked_world.
  assert (add_event (Some a, Some b) now self ev NULL locked_world
    = add_event (Some a, Some b) now self ev a (set_dl h locked_world)) as E.
  { unfold add_event. rewrite (proj2 (Z.eqb_neq self NULL)), (proj2 (Z.eqb_neq ev NULL)) by (done || apply Hw).
    cbn [orb fst snd]. destruct Ha as [Han _]. rewrite (proj2 (Z.eqb_neq a NULL) Han).
    change (NULL =? NULL) with true. cbn iota. rewrite bind_mret, bind_bind.
    by rewrite (bind_on_dl _ _ _ _ _ En), bind_mret. }
  unfold mbind at 2, M_bind. rewrite E. done.
Qed.
Notation W := (taken self ev e tm1 w).
Lemma rings_later_placing h a0 b0 :
  rings_later running (placing_world h) a0 b0 = rings_later running W a0 b0.
Proof. done. Qed.
Lemma has_timer_placed h : has_timer (set_dl h locked_world) ev /\
    Forall (has_timer (set_dl h locked_world)) evs.
Proof.
  split; [apply has_timer_locked; by exists tm|]. eapply Forall_impl; [done|].
  intros e' He'. by apply has_timer_locked.
Qed.
(** The handler as the unlock leaves it. *)
Lemma unlocked_handler : set_held false (set_held true hd) = hd.
Proof. destruct hd. cbn in Hfree. by rewrite Hfree. Qed.
Lemma add_tsafe_ok :
  match evs with [] => True | e0 :: _ => rings_later running W ev e0 = true end ->
  exists w' xs',
    TimerEventHandler_add_tsafe true (Some a, Some b) now self ev w = Ok (ALIB_OK, w', [EvLock; EvUnlock]) /\
    events w' = events W /\ timers w' = timers W /\
    holds_events cs self hd xs' (insert_event (rings_later running W ev) ev evs) w'.
Proof.
  intros Hfirst. destruct add_tsafe_steps as (h & x & -> & Hh & Hx & Hnin).
  destruct (has_timer_placed h) as [Hte Htes].
  destruct (add_item_ok cs self (set_held true hd) xs evs _ (placing_world h) x ev (Some a, Some b) now
    Hh Hx Hnin Hsz Hte Htes (ready_locked h) Hfirst) as (h' & Ea & Hh').
  rewrite (bind_quiet _ _ _ _ _ Ea). unfold unlock. rewrite bind_bind.
  rewrite (bind_update (H := handlers_store) self _ _ _ (set_held true hd)) by apply Hh'.
  eexists _, _. split; [done|]. split; [done|]. split; [done|].
  destruct Hh'. split; try done. cbn. by rewrite lookup_insert_eq, unlocked_handler.
Qed.
Lemma add_tsafe_crash e0 l : evs = e0 :: l -> rings_later running W ev e0 = false ->
  TimerEventHandler_add_tsafe true (Some a, Some b) now self ev w = UB NullDeref.
Proof.
  intros Hevs' Hfirst. destruct add_tsafe_steps as (h & x & -> & Hh & Hx & Hnin).
  destruct (has_timer_placed h) as [Hte Htes].
  pose proof (add_item_crash cs self (set_held true hd) xs evs _ (placing_world h) x ev (Some a, Some b) now
    Hh Hnin Hsz Hte Htes (ready_locked h) e0 l Hevs' Hfirst) as Ea.
  by rewrite (bind_UB _ _ _ _ Ea).
Qed.
End add.

(** * A turn of the thread *)

(** What the check of a due timer does to it: it rings, and starts again as if it had been
    checked at its end time. *)
Definition restart (n n' : timespec) (tm : Timer) : res (option Timer) :=
  '(_, _, overrun, o) ← Timer_get_time_status (Some n) true true (Some tm);
  Timer_begin_before (Some n') overrun o.

(** The first event is due: it is called back and its timer restarted. *)
Section due.
Context (user : Z -> ptr -> M world unit) (spawn_ok : ptr -> bool).
Context (self ev f : Z) (hd : TimerEventHandler) (e : event_obj) (tm tm1 : Timer) (n n' : timespec) (w : world).
Context (cs : Datatypes.list chain) (xs : Datatypes.list item) (evs : Datatypes.list ptr) (tr : Datatypes.list Effects.event).
Hypothesis Hw : holds_events cs self hd xs (ev :: evs) w.
Hypothesis Hone : threadPerCallback hd = false.
Hypothesis He : events w !! ev = Some e.
Hypothesis Hev : timed w ev tm.
Hypothesis Hhook : parent e = self /\ rang_parent_cb e = Some TimerRang.
Hypothesis Hcb : rang_cb e = Some (UserCb f).
Hypothesis Hfp : fp e = FLAG_INIT.
Hypothesis Huser : forall w, user f ev w = Ok (tt, w, tr).
Hypothesis Hsmall : modest (run_time tm) /\ modest (end_time tm) /\ modest n /\ modest n'.
Hypothesis Hlate : total (end_time tm) <= total n.
Hypothesis Hrestart : restart n n' tm = Ok (Some tm1).

(** The world after the restart. *)
Definition restarted (t : ptr) : world :=
  mkWorld (dl w) (events w) (<[t := tm1]> (timers w)) (handlers w) (spawned w).
Notation W := (restarted (timer e)).

Lemma call_rang w' e' :
  handlers w' !! self = Some hd -> events w' !! ev = Some e' -> ev <> NULL ->
  parent e' = self -> rang_cb e' = Some (UserCb f) ->
  call user spawn_ok TimerRang ev w' = Ok (tt, w', tr).
Proof.
  intros Hh He' Hnull Hp Hc. unfold call, call_at, timer_rang, TimerEvent_get_parent, TimerEvent_get_rang_cb.
  rewrite bind_bind, (bind_event ev e'), bind_mret, Hp by done. unfold load_handler.
  rewrite (bind_load (H := handlers_store) self _ _ hd), bind_bind by (done || apply Hw).
  rewrite (bind_event ev e'), bind_mret, Hone, Hc by done. apply Huser.
Qed.
Lemma restart_ok : exists oT,
  Timer_get_time_status (Some n) true true (Some tm)
    = Ok (ALIB_OK, Some (mkTimespec 0 0), Some oT, Some (mkTimer 1 (run_time tm) (end_time tm))) /\
  Timer_begin_before (Some n') (Some oT) (Some (mkTimer 1 (run_time tm) (end_time tm))) = Ok (Some tm1) /\
  tm1 = mkTimer 0 (run_time tm) (end_time tm1) /\
  total (end_time tm1) = total (run_time tm) + total n' - (total n - total (end_time tm)).
Proof.
  destruct Hsmall as (Hrun & Hend & Hn & Hn').
  destruct (time_status_ok tm n true true) as (rT & oT & Es & _ & HoT & Hbd); [by apply modest_moderate..|].
  destruct Hbd as [-> HoTn]; [lia|]. rewrite (proj2 (Z.leb_le _ 0)) in Es by lia.
  destruct (begin_before_ok (mkTimer 1 (run_time tm) (end_time tm)) n' oT) as (r & Er & Hr & _); [done..| |].
  { unfold modest, moderate, total, NANOS_PER_SECOND in *. lia. }
  assert (tm1 = mkTimer 0 (run_time tm) r) as Heq.
  { assert (restart n n' tm = Ok (Some (mkTimer 0 (run_time tm) r))) as E
      by (unfold restart; rewrite Es; rstep; exact Er). congruence. }
  subst tm1. exists oT. cbn [run_time end_time] in *.
  split; [done|]. split; [done|]. split; [done|lia].
Qed.
Lemma check_due :
  TimerEvent_check (call user spawn_ok) (Some n) (Some n') ev w = Ok ((end_time tm1, Some 1), W, tr).
Proof.
  destruct Hev as (e' & Hnull & He' & Ht & Hl). rewrite He in He'. injection He' as <-.
  destruct restart_ok as (oT & Es & Er & _). destruct Hhook as [Hpar Hrang].
  unfold TimerEvent_check. rewrite (bind_event ev e) by done.
  erewrite bind_quiet; [|eapply (on_timer_ok (timer e) tm); [done|done|by rewrite Es]].
  cbn [ALIB_OK Z.eqb negb deref]. cbv beta iota. rewrite bind_lift with (a := mkTimespec 0 0) by done.
  cbn [tv_nsec tv_sec Z.eqb negb orb].
  erewrite bind_quiet; [|eapply (on_timer_ok (timer e)); [done|apply lookup_insert_eq|by rewrite Er]].
  cbn [dl events timers handlers spawned]. rewrite insert_insert_eq.
  rewrite (bind_event ev e), Hrang by done. unfold raise_flag, lower_flag.
  rewrite (bind_store_event ev e) by done. cbn [dl events timers handlers spawned].
  eapply bind_loud; [by eapply call_rang; [apply Hw|apply lookup_insert_eq|done..]|].
  erewrite bind_store_event; [|done|apply lookup_insert_eq]. cbn [dl events timers handlers spawned].
  rewrite insert_insert_eq.
  set (e1 := set_fp _ _). assert (e1 = e) as ->.
  { unfold e1. cbn [fp set_fp]. rewrite Hfp. destruct e. cbn in Hfp. by rewrite Hfp. }
  rewrite (insert_id (events w)), (bind_event ev e), Hfp by done.
  change (raised FLAG_INIT OBJECT_DELETE_STATE) with false. cbv iota.
  rewrite (bind_event ev e) by done.
  erewrite bind_quiet; [|eapply (read_timer_ok (timer e)); [done|apply lookup_insert_eq|done]]. done.
Qed.
Lemma pulled : exists x xs' h, xs = x :: xs' /\
  on_dl (DList_pull_out (list hd) 0) W = Ok (addr x, set_dl h W, []) /\
  holds_events (Chain NULL NULL [x] NULL :: cs) self hd xs' evs (set_dl h W) /\
  owns (vals h) x (ev, true) /\ obj x ∉ obj <$> xs' /\ DListItem_get_value (addr x) h = Ok (ev, h, []).
Proof.
  pose proof (he_length Hw) as Hlen. destruct Hw as [H1 H2 H3 [fl Hl] Hs Ho Hnd Hsz].
  destruct xs as [|x xs']; [done|]. exists x, xs'. cbn [length] in *.
  apply Forall2_cons_1 in Ho as [Hx Ho]. apply NoDup_cons in Hnd as [Hnin Hnd].
  destruct (pull_first_dlist (list hd) fl (dl w) xs' x cs H3 Hs) as (m & E & S); [cbn [length]; lia|].
  rewrite put_list_id in E by done.
  eexists. split; [done|]. split; [by apply on_dl_ok|]. split; [|split; [done|split; [done|]]].
  - split; cbn; [done|done|done| |by apply segs_swap|done|done|lia]. exists fl. by rewrite lookup_insert_eq.
  - destruct (node_at (put_list (list hd) (summary xs' fl) (set_items m (dl w))) _ _ _ S 0%nat x eq_refl) as [Ha Hnode].
    unfold DListItem_get_value. rewrite (bind_load_item _ _ Ha _ _ Hnode). cbn [node base val].
    destruct Hx as [Hn0 Hx]. by erewrite bind_load_val; [|done|exact Hx].
Qed.
Lemma restarted_has_timer h a : has_timer w a -> has_timer (set_dl h W) a.
Proof.
  intros (tm0 & e0 & Hn0 & He0 & Ht0 & Hl0). destruct (decide (timer e0 = timer e)) as [Heq|Hd].
  - eexists _, e0. split; [done|]. split; [done|]. split; [done|]. cbn. by rewrite Heq, lookup_insert_eq.
  - exists tm0, e0. cbn. by rewrite lookup_insert_ne.
Qed.
Lemma restarted_ready running now h : tv_sec (end_time tm1) <> 0 ->
  ready running now ev evs (set_dl h W) (set_dl h W).
Proof.
  intros Hsec. destruct evs as [|e0 l]; [done|]. cbn [ready].
  apply (start_not_needed _ _ _ _ tm1); [|done].
  destruct Hev as (e' & Hnull & He' & Ht & _). rewrite He in He'. injection He' as <-.
  exists e. cbn. by rewrite lookup_insert_eq.
Qed.
(** The turn, up to the insertion of the pulled item. *)
Lemma handle_first_steps (t : turn) (rang : option Z) :
  TimerEventHandler.now t = Some n -> TimerEventHandler.now' t = Some n' -> tv_sec (end_time tm1) <> 0 ->
  exists x xs' h,
  handle_first user spawn_ok t self rang w
    = ('(r, w2, t2) ← (err ← add_event (None, None) (now_add t) self ev (addr x); mret (Some 1, err =? 0))
                        (set_dl h W); Ok (r, w2, tr ++ t2)) /\
  holds_events (Chain NULL NULL [x] NULL :: cs) self hd xs' evs (set_dl h W) /\
  owns (vals h) x (ev, true) /\ obj x ∉ obj <$> xs'.
Proof.
  intros Et Et' Hsec. destruct pulled as (x & xs' & h & _ & Ep & Hh & Hx & Hnin & Hval).
  exists x, xs', h. split; [|done].
  pose proof (he_length Hw) as Hlen. pose proof (he_size _ _ _ _ _ _ Hw) as Hsz. cbn [length] in Hsz, Hlen.
  unfold handle_first. rewrite (bind_handler Hw). destruct (he_get Hw) as (fl & _ & Eg).
  rewrite (bind_read_dl _ _ _ _ Eg), (at_null (dl w) _ _ _ (he_segs _ _ _ _ _ _ Hw)) by lia.
  rewrite (bind_read_dl _ _ _ _ (he_value Hw 0 ev eq_refl)), Et, Et', (bind_Ok _ _ _ _ _ _ check_due).
  rewrite (proj2 (Z.eqb_neq _ 0) Hsec), bind_lift with (a := 1) by done. cbn [Z.eqb negb].
  rewrite (bind_read_dl _ _ W _
    (DListSeg.index_ok (dl w) _ _ _ (he_segs _ _ _ _ _ _ Hw) 0 ltac:(lia) ltac:(done))).
  change (u64 (Z.of_nat 0)) with 0. rewrite (bind_quiet _ _ _ _ _ Ep).
  by erewrite bind_read_dl by exact Hval.
Qed.
End due.

(** The event [e] of the handler [self] calls [f] when it rings, and is in no callback. *)
Definition rings_to (self f : Z) (e : event_obj) : Prop :=
  parent e = self /\ rang_parent_cb e = Some TimerRang /\ rang_cb e = Some (UserCb f) /\ fp e = FLAG_INIT.

(** * What the handler promises *)
Lemma rings_later_ext running w w' : events w' = events w -> timers w' = timers w ->
  rings_later running w' = rings_later running w.
Proof. intros He Ht. unfold rings_later, key_of. by rewrite He, Ht. Qed.

(** A handler at 1 with two events, at 21 and 22, whose times are [sec1] and [sec2]; the event 23,
    with the time [sec], belongs to no handler.  [fp]: the handler's flags. *)
Definition event_of (t par : ptr) : event_obj :=
  mkTimerEvent t false NULL false (Some (UserCb 0))
    (if par =? NULL then None else Some EventPrepToFree) (if par =? NULL then None else Some TimerRang)
    par None FLAG_INIT.
Definition at_sec (sec : Z) : Timer := mkTimer 0 (mkTimespec sec 0) (mkTimespec sec 0).
Definition two_items_hd (fp : Z) : TimerEventHandler := mkHandler false fp 2 false.
Definition two_items_xs : Datatypes.list item := [mkItem 3 13 false; mkItem 4 14 false].
Definition two_events (fp sec1 sec2 sec : Z) : world :=
  mkWorld (mkHeap {[ 3 := node 2 (mkItem 3 13 false) NULL 4; 4 := node 2 (mkItem 4 14 false) 3 NULL ]}
             {[ 13 := mkListItemVal 21 true 1; 14 := mkListItemVal 22 true 1 ]}
             {[ 2 := summary two_items_xs None ]})
    {[ 21 := event_of 31 1; 22 := event_of 32 1; 23 := event_of 33 NULL ]}
    {[ 31 := at_sec sec1; 32 := at_sec sec2; 33 := at_sec sec ]}
    {[ 1 := two_items_hd fp ]} [].
Lemma two_events_held fp sec1 sec2 sec :
  holds_events [] 1 (two_items_hd fp) two_items_xs [21; 22] (two_events fp sec1 sec2 sec).
Proof.
  split; try done.
  - by exists None.
  - split; [|vm_compute; repeat (constructor; [set_solver|]); constructor].
    repeat constructor; vm_compute; done.
  - repeat constructor; vm_compute; done.
  - vm_compute. repeat (constructor; [set_solver|]). constructor.
Qed.
Lemma two_events_timed fp sec1 sec2 sec :
  timed (two_events fp sec1 sec2 sec) 21 (at_sec sec1) /\ timed (two_events fp sec1 sec2 sec) 22 (at_sec sec2) /\
  timed (two_events fp sec1 sec2 sec) 23 (at_sec sec).
Proof. repeat split; eexists; repeat split; done. Qed.
Lemma two_events_timers fp sec1 sec2 sec :
  Forall (has_timer (two_events fp sec1 sec2 sec)) [21; 22].
Proof. destruct (two_events_timed fp sec1 sec2 sec) as (H1 & H2 & _). repeat constructor; by eexists. Qed.

(** C17: an event that rings later than the first event of a free handler, or comes into an empty one, is added
    at its place: the handler then holds the same events and the new one, in the order in which they ring (by
    end time when the handler runs, by run time when it does not). The mutex is taken and released, and no other
    event or timer changes. When the handler runs and already has events, the new event's timer is started first
    if its end time has no seconds yet; in an empty handler, running or not, the timer stays as it is, against
    the comment at TimerEventHandler.c:28 ([first_event_not_started]). The event has a timer and no other
    handler, the handler holds fewer than 2^60 events, and the item and its value can be allocated. *)
Theorem add_keeps_order (cs : Datatypes.list chain) (self : ptr) (hd : TimerEventHandler)
    (xs : Datatypes.list item) (evs : Datatypes.list ptr) (w : world) (ev : ptr) (e : event_obj)
    (tm tm1 : Timer) (a b : ptr) (now : option timespec) :
  holds_events cs self hd xs evs w -> mutex_held hd = false -> Forall (has_timer w) evs ->
  events w !! ev = Some e -> timed w ev tm -> parent e = NULL ->
  fresh_at (A := DListItem) (dl w) a -> fresh_at (A := ListItemVal) (dl w) b ->
  Z.of_nat (length evs) + 1 < 2 ^ 60 ->
  let running := raised (hfp hd) THREAD_IS_RUNNING in
  let W := taken self ev e tm1 w in
  placed_timer running now evs tm tm1 -> Sorted (in_order running W) evs ->
  match evs with [] => True | e0 :: _ => rings_later running W ev e0 = true end ->
  exists w' xs' evs',
    TimerEventHandler_add_tsafe true (Some a, Some b) now self ev w = Ok (ALIB_OK, w', [EvLock; EvUnlock]) /\
    events w' = events W /\ timers w' = timers W /\
    holds_events cs self hd xs' evs' w' /\ evs' ≡ₚ ev :: evs /\ Sorted (in_order running w') evs'.
Proof.
  intros Hw Hfree Hevs He Hev Hpar Ha Hb Hsz running W Htm Hs Hfirst.
  destruct (add_tsafe_ok cs self hd xs evs w ev e tm tm1 a b now Hw Hfree Hevs He Hev Hpar Ha Hb Hsz Htm Hfirst)
    as (w' & xs' & Ea & E1 & E2 & Hh).
  eexists w', xs', _. do 4 (split; [done|]). split; [apply insert_event_perm|].
  unfold in_order. rewrite (rings_later_ext running W w') by done. by apply insert_sorted.
Qed.
Lemma add_keeps_order_witness : exists w' xs' evs',
    TimerEventHandler_add_tsafe true (Some 5, Some 15) None 1 23 (two_events 0 2 5 3)
      = Ok (ALIB_OK, w', [EvLock; EvUnlock]) /\
    events w' = events (taken 1 23 (event_of 33 NULL) (at_sec 3) (two_events 0 2 5 3)) /\
    timers w' = timers (taken 1 23 (event_of 33 NULL) (at_sec 3) (two_events 0 2 5 3)) /\
    holds_events [] 1 (two_items_hd 0) xs' evs' w' /\ evs' ≡ₚ [23; 21; 22] /\ Sorted (in_order false w') evs'.
Proof.
  apply (add_keeps_order [] 1 (two_items_hd 0) two_items_xs [21; 22] (two_events 0 2 5 3) 23 (event_of 33 NULL)
    (at_sec 3) (at_sec 3) 5 15 None); try done.
  - apply two_events_held.
  - apply two_events_timers.
  - apply two_events_timed.
  - by repeat constructor.
Defined.

(** An event that does not ring later than the first event of the handler crashes the
    library: the item is inserted before the first item of the list, which writes through the
    NULL [prev] of that item. *)
Theorem add_before_first_crashes (cs : Datatypes.list chain) (self : ptr) (hd : TimerEventHandler)
    (xs : Datatypes.list item) (e0 : ptr) (evs : Datatypes.list ptr) (w : world) (ev : ptr) (e : event_obj)
    (tm tm1 : Timer) (a b : ptr) (now : option timespec) :
  holds_events cs self hd xs (e0 :: evs) w -> mutex_held hd = false -> Forall (has_timer w) (e0 :: evs) ->
  events w !! ev = Some e -> timed w ev tm -> parent e = NULL ->
  fresh_at (A := DListItem) (dl w) a -> fresh_at (A := ListItemVal) (dl w) b ->
  Z.of_nat (length (e0 :: evs)) + 1 < 2 ^ 60 ->
  let running := raised (hfp hd) THREAD_IS_RUNNING in
  placed_timer running now (e0 :: evs) tm tm1 ->
  rings_later running (taken self ev e tm1 w) ev e0 = false ->
  TimerEventHandler_add_tsafe true (Some a, Some b) now self ev w = UB NullDeref.
Proof.
  intros Hw Hfree Hevs He Hev Hpar Ha Hb Hsz running Htm Hfirst.
  by apply (add_tsafe_crash cs self hd xs (e0 :: evs) w ev e tm tm1 a b now) with (e0 := e0) (l := evs).
Qed.
Lemma add_before_first_crashes_witness :
  TimerEventHandler_add_tsafe true (Some 5, Some 15) None 1 23 (two_events 0 2 5 1) = UB NullDeref.
Proof.
  apply (add_before_first_crashes [] 1 (two_items_hd 0) two_items_xs 21 [22] (two_events 0 2 5 1) 23
    (event_of 33 NULL) (at_sec 1) (at_sec 1) 5 15 None); try done.
  - apply two_events_held.
  - apply two_events_timers.
  - apply two_events_timed.
Defined.

(** C18: when the first event of a running handler that calls its callbacks on its own thread (no thread for
    each callback) is due, a turn of the thread calls it back once ([tr]: what the callback does), restarts its
    timer, and puts the event back at its place: the handler holds the same events, in the order in which they
    ring next. The time that has passed between the old end time and the first reading of the clock is taken off
    the next run; the time between the two readings is not: the new end time is the run time and the second
    reading, less what has passed, so it is later than the old end time by the run time and the time between the
    readings. The callback is one that leaves the handler alone, both readings succeed, the times are moderate
    (no overflow), the timer can be restarted, to an end time that has seconds, and the restarted event rings
    later than the second one. *)
Theorem turn_rings_first (user : Z -> ptr -> M world unit) (spawn_ok : ptr -> bool) (self ev f : Z)
    (hd : TimerEventHandler) (e : event_obj) (tm tm1 : Timer) (n n' : timespec) (w : world)
    (cs : Datatypes.list chain) (xs : Datatypes.list item) (evs : Datatypes.list ptr)
    (t : turn) (rang : option Z) (tr : Datatypes.list Effects.event) :
  holds_events cs self hd xs (ev :: evs) w -> Forall (has_timer w) evs ->
  threadPerCallback hd = false -> raised (hfp hd) THREAD_IS_RUNNING = true ->
  events w !! ev = Some e -> timed w ev tm -> rings_to self f e ->
  (forall w, user f ev w = Ok (tt, w, tr)) ->
  modest (run_time tm) /\ modest (end_time tm) /\ modest n /\ modest n' ->
  TimerEventHandler.now t = Some n -> TimerEventHandler.now' t = Some n' ->
  total (end_time tm) <= total n ->
  restart n n' tm = Ok (Some tm1) -> tv_sec (end_time tm1) <> 0 ->
  let W := restarted tm1 w (timer e) in
  Sorted (in_order true W) evs ->
  match evs with [] => True | e0 :: _ => rings_later true W ev e0 = true end ->
  total (end_time tm1) = total (run_time tm) + total n' - (total n - total (end_time tm)) /\
  exists w' xs' evs',
    handle_first user spawn_ok t self rang w = Ok ((Some 1, true), w', tr) /\
    events w' = events w /\ timers w' = <[timer e := tm1]> (timers w) /\
    holds_events cs self hd xs' evs' w' /\ evs' ≡ₚ ev :: evs /\ Sorted (in_order true w') evs'.
Proof.
  intros Hw Hevs Hone Hrun He Hev (Hp & Hr & Hcb & Hfp) Huser Hsmall Et Et' Hlate Hre Hsec W Hs Hfirst.
  destruct (restart_ok tm tm1 n n' Hsmall Hlate Hre) as (_ & _ & _ & _ & Htot). split; [done|].
  destruct (handle_first_steps user spawn_ok self ev f hd e tm tm1 n n' w cs xs evs tr Hw Hone He Hev
    (conj Hp Hr) Hcb Hfp Huser Hsmall Hlate Hre t rang Et Et' Hsec) as (x & xs' & h & -> & Hh & Hx & Hnin).
  pose proof (he_size _ _ _ _ _ _ Hw) as Hsz. cbn [length] in Hsz.
  destruct (add_item_ok cs self hd xs' evs _ _ x ev (None, None) (now_add t) Hh Hx Hnin ltac:(lia)
    (restarted_has_timer e tm1 w h ev ltac:(by exists tm))
    ltac:(eapply Forall_impl; [exact Hevs|intros; by apply restarted_has_timer])
    (restarted_ready self ev hd e tm tm1 w cs xs evs Hw He Hev _ _ h Hsec)) as (h' & Ea & Hh'); [by rewrite Hrun|].
  rewrite Hrun in Hh'. eexists _, _, _. rewrite (bind_quiet _ _ _ _ _ Ea). cbn [mbind res_bind mret M_ret]. rewrite app_nil_r.
  do 4 (split; [done|]).
  split; [apply insert_event_perm|]. by apply (insert_sorted true W).
Qed.
(** The times 2 s and 5 s; the clock says 2.1 s. *)
Definition two_tenths : turn := mkTurn (mret tt) [] (mret tt) (Some (mkTimespec 2 100000000))
  (Some (mkTimespec 2 100000000)) None (mkTimespec 2 100000000) (mkTimespec 2 100000000).
Definition noted (f : Z) (ev : ptr) : M world unit := emit (EvFree f).
Lemma turn_rings_first_witness :
  let w := two_events 2 2 3 9 in let tm1 := mkTimer 0 (mkTimespec 2 0) (mkTimespec 4 0) in
  total (mkTimespec 4 0) = total (mkTimespec 2 0) + total (mkTimespec 2 100000000)
    - (total (mkTimespec 2 100000000) - total (mkTimespec 2 0)) /\
  exists w' xs' evs',
    handle_first noted (fun _ => false) two_tenths 1 None w = Ok ((Some 1, true), w', [EvFree 0]) /\
    events w' = events w /\ timers w' = <[31 := tm1]> (timers w) /\
    holds_events [] 1 (two_items_hd 2) xs' evs' w' /\ evs' ≡ₚ [21; 22] /\ Sorted (in_order true w') evs'.
Proof.
  intros w tm1.
  apply (turn_rings_first noted (fun _ => false) 1 21 0 (two_items_hd 2) (event_of 31 1) (at_sec 2) tm1
    (mkTimespec 2 100000000) (mkTimespec 2 100000000) w [] two_items_xs [22] two_tenths None [EvFree 0]); try done.
  - apply two_events_held.
  - eapply Forall_inv_tail, (two_events_timers 2 2 3 9).
  - apply two_events_timed.
  - by repeat constructor.
Defined.

(** With two events in a running handler, a first event that is due and whose next ring is not
    later than the second event crashes the thread when it is put back in front of the second one,
    after its callback.  So a 2 s event next to a 5 s one crashes when it first rings. *)
Theorem turn_before_second_crashes (user : Z -> ptr -> M world unit) (spawn_ok : ptr -> bool)
    (self ev e0 f : Z) (hd : TimerEventHandler) (e : event_obj) (tm tm1 : Timer) (n n' : timespec) (w : world)
    (cs : Datatypes.list chain) (xs : Datatypes.list item) (evs : Datatypes.list ptr)
    (t : turn) (rang : option Z) (tr : Datatypes.list Effects.event) :
  holds_events cs self hd xs (ev :: e0 :: evs) w -> Forall (has_timer w) (e0 :: evs) ->
  threadPerCallback hd = false -> raised (hfp hd) THREAD_IS_RUNNING = true ->
  events w !! ev = Some e -> timed w ev tm -> rings_to self f e ->
  (forall w, user f ev w = Ok (tt, w, tr)) ->
  modest (run_time tm) /\ modest (end_time tm) /\ modest n /\ modest n' ->
  TimerEventHandler.now t = Some n -> TimerEventHandler.now' t = Some n' ->
  total (end_time tm) <= total n ->
  restart n n' tm = Ok (Some tm1) -> tv_sec (end_time tm1) <> 0 ->
  rings_later true (restarted tm1 w (timer e)) ev e0 = false ->
  handle_first user spawn_ok t self rang w = UB NullDeref.
Proof.
  intros Hw Hevs Hone Hrun He Hev (Hp & Hr & Hcb & Hfp) Huser Hsmall Et Et' Hlate Hre Hsec Hfirst.
  destruct (handle_first_steps user spawn_ok self ev f hd e tm tm1 n n' w cs xs (e0 :: evs) tr Hw Hone He Hev
    (conj Hp Hr) Hcb Hfp Huser Hsmall Hlate Hre t rang Et Et' Hsec) as (x & xs' & h & -> & Hh & Hx & Hnin).
  pose proof (he_size _ _ _ _ _ _ Hw) as Hsz. cbn [length] in Hsz.
  assert (add_event (None, None) (now_add t) self ev (addr x) (set_dl h (restarted tm1 w (timer e)))
    = UB NullDeref) as Ea; [|by rewrite (bind_UB _ _ _ _ Ea)].
  assert (Forall (has_timer (set_dl h (restarted tm1 w (timer e)))) (e0 :: evs)) as Hevs1.
  { eapply Forall_impl; [exact Hevs|]. intros. by apply restarted_has_timer. }
  eapply (add_item_crash cs self hd xs' (e0 :: evs)); [exact Hh|done|cbn [length]; lia| |exact Hevs1| |done|].
  - apply restarted_has_timer. by exists tm.
  - by apply (restarted_ready self ev hd e tm tm1 w cs xs (e0 :: evs)).
  - by rewrite Hrun.
Qed.
Lemma turn_before_second_crashes_witness :
  handle_first noted (fun _ => false) two_tenths 1 None (two_events 2 2 5 9) = UB NullDeref.
Proof.
  apply (turn_before_second_crashes noted (fun _ => false) 1 21 22 0 (two_items_hd 2) (event_of 31 1) (at_sec 2)
    (mkTimer 0 (mkTimespec 2 0) (mkTimespec 4 0)) (mkTimespec 2 100000000) (mkTimespec 2 100000000)
    (two_events 2 2 5 9) [] two_items_xs [] two_tenths None [EvFree 0]); try done.
  - apply two_events_held.
  - eapply Forall_inv_tail, (two_events_timers 2 2 5 9).
  - apply two_events_timed.
Defined.
