(* ===== verification/TimerEventRemove.v ===== *)
(** Events that leave a handler of timer events.  An event that is freed takes
    itself out of its handler: the deletion of the event calls the handler, which
    deletes the item that holds the event, which calls the deletion of
    the event again, which the flags of the event stop.  The public removal
    forgets the handler before it removes the event and crashes there. *)
From S2P Require Import Prelude Effects Heap AlibTypes AlibTime DListItem DListSeg DList.
From S2P Require Import DListSpec TimerEvent TimerEventHandler TimerEventHandlerSpec.
Open Scope Z_scope.
Implicit Types (w : world) (ev : ptr) (evs : Datatypes.list ptr).

(** * The item of an event *)
Section find.
Context {cs : Datatypes.list chain} {self : ptr} {hd : TimerEventHandler} {xs : Datatypes.list item}
  {evs : Datatypes.list ptr} {w : world} (Hw : holds_events cs self hd xs evs w).
Notation h := (dl w).
Lemma find_next_event ev fuel : forall i j, evs !! j = Some ev -> (i <= j)%nat ->
  (forall k, (i <= k < j)%nat -> evs !! k <> Some ev) -> (j - i < fuel)%nat ->
  find_next fuel (at_ xs i) ev h = Ok (at_ xs j, h, []).
Proof.
  pose proof (he_length Hw) as Hlen. pose proof (he_segs _ _ _ _ _ _ Hw) as Hs.
  induction fuel as [|fuel IH]; intros i j Hj Hij Hne Hf; [lia|]. pose proof (lookup_lt_Some _ _ _ Hj).
  cbn [find_next]. rewrite (at_null h _ _ _ Hs) by lia.
  destruct (lookup_lt_is_Some_2 evs i ltac:(lia)) as [e He].
  rewrite (bind_quiet _ _ _ _ _ (he_value Hw i e He)).
  destruct (decide (i = j)) as [->|Hd]; [replace e with ev by congruence; by rewrite Z.eqb_refl|].
  rewrite (proj2 (Z.eqb_neq e ev)) by (intros ->; by eapply (Hne i); [lia|]).
  rewrite (bind_quiet _ _ _ _ _ (next_at h _ _ _ Hs i ltac:(lia))).
  apply IH; [done|lia| |lia]. intros k Hk. apply Hne. lia.
Qed.
Lemma get_by_value_event ev j : evs !! j = Some ev -> (forall k, (k < j)%nat -> evs !! k <> Some ev) ->
  DListItem_get_by_value (at_ xs 0) ev h = Ok (at_ xs j, h, []).
Proof.
  intros Hj Hne. pose proof (lookup_lt_Some _ _ _ Hj). pose proof (he_length Hw) as Hlen.
  pose proof (he_segs _ _ _ _ _ _ Hw) as Hs. pose proof (fuel_ok h _ _ _ Hs) as Hfuel.
  unfold DListItem_get_by_value. rewrite (at_null h _ _ _ Hs) by lia. unfold item_fuel. rewrite bind_gets.
  set (n := walk_fuel (A := DListItem) h) in *.
  destruct (lookup_lt_is_Some_2 evs 0 ltac:(lia)) as [e He].
  destruct (decide (j = 0%nat)) as [->|Hd].
  - assert (find_prev (S n) (at_ xs 0) ev h = Ok (at_ xs 0, h, [])) as E.
    { cbn [find_prev]. rewrite (at_null h _ _ _ Hs) by lia.
      by rewrite (bind_quiet _ _ _ _ _ (he_value Hw 0 ev Hj)), Z.eqb_refl. }
    by rewrite (bind_quiet _ _ _ _ _ E), (at_null h _ _ _ Hs) by lia.
  - assert (find_prev (S n) (at_ xs 0) ev h = Ok (NULL, h, [])) as E.
    { cbn [find_prev]. rewrite (at_null h _ _ _ Hs) by lia.
      rewrite (bind_quiet _ _ _ _ _ (he_value Hw 0 e He)).
      rewrite (proj2 (Z.eqb_neq e ev)) by (intros ->; by eapply (Hne 0%nat); [lia|]).
      rewrite at_first, (bind_quiet _ _ _ _ _ (prev_first h _ _ _ _ _ Hs NULL ltac:(by destruct xs; [cbn in Hlen; lia|]))).
      destruct n; [lia|done]. }
    rewrite (bind_quiet _ _ _ _ _ E). cbn [negb Z.eqb NULL].
    rewrite (bind_quiet _ _ _ _ _ (next_at h _ _ _ Hs 0 ltac:(lia))).
    apply (find_next_event ev (S n)); [done|lia| |lia]. intros k Hk. apply Hne. lia.
Qed.
End find.

(** * The deletion of the item *)
Lemma on_dl_load_item {B} p i (k : DListItem -> M world B) w :
  p <> NULL -> items (dl w) !! p = Some i -> mbind k (on_dl (load_item p)) w = k i w.
Proof. intros Hp Hi. apply bind_read_dl. by apply (load_ok (A := DListItem)). Qed.

Lemma bind_as {S A B C} (m : M S A) (k : A -> M S B) (m0 : M S C) (k0 : C -> M S A) s s0 :
  m s = mbind k0 m0 s0 -> mbind k m s = mbind (fun c => mbind k (k0 c)) m0 s0.
Proof. intros E. rewrite <- bind_bind. unfold mbind at 1 2, M_bind at 1 2. by rewrite E. Qed.
Lemma bind_unit_r {S B} (m : M S unit) (k : unit -> M S B) s :
  mbind k (m;; mret tt) s = mbind k m s.
Proof.
  rewrite bind_bind. unfold mbind, M_bind. destruct (m s) as [[[[] s'] t]| |]; [|done..].
  cbn. by destruct (k tt s') as [[[??]?]| |].
Qed.

Section item.
Context (free_cb : ptr -> M world unit) (store : ptr -> M world unit).
Context (w : world) (lm : gmap Z DList) (par : ptr) (A B : Datatypes.list item) (x : item)
  (cs : Datatypes.list chain) (ev : ptr).
Hypothesis Hs : segs (items (dl w)) (Chain par NULL (A ++ [x] ++ B) NULL :: cs).
Hypothesis Hx : owns (vals (dl w)) x (ev, true).
Hypothesis Hev : ev <> NULL.
Hypothesis Hstore : store (neighbour A B) w = Ok (tt, set_dl (set_lists lm (dl w)) w, []).

(** The list when the event is freed, and when its item is gone. *)
Definition half_gone (m : gmap Z DListItem) : world :=
  set_dl (mkHeap m (<[obj x := mkListItemVal ev true 0]> (vals (dl w))) lm) w.
Definition gone (m : gmap Z DListItem) : world :=
  set_dl (mkHeap m (delete (obj x) (vals (dl w))) lm) w.
Definition rest_of_deletion : M world unit :=
  on_dl (free_val_object (obj x));;
  on_dl (store_item (addr x) (fun i => set_base (set_val NULL (base i)) i));; on_dl (free_item (addr x)).

Lemma del_item_cb_steps : exists m m',
  delDListItem_cb free_cb store (addr x) w = (free_cb ev;; rest_of_deletion) (half_gone m) /\
  rest_of_deletion (half_gone m) = Ok (tt, gone m', []) /\ segs m' (Chain par NULL (A ++ B) NULL :: cs) /\ m' !! addr x = None.
Proof.
  destruct (node_middle _ _ _ _ _ _ Hs) as [Ha Hnode]. destruct Hx as [Hn Hval].
  set (h1 := set_lists lm (dl w)).
  destruct (unlink_ok h1 par A [x] B cs ltac:(done) Hs) as (m & Em & Sm). cbn [first DListSeg.last] in Em.
  destruct (segs_lookup_first _ _ _ _ _ NULL _ Sm ltac:(done)) as (_ & y & nn & Hy & Hi).
  cbn [first c_items] in Hi. assert (obj y = obj x) as Hobj.
  { apply segs_cons in Sm as ((_ & Hc & _) & _). cbn in Hc, Hi. rewrite Hc in Hi. by injection Hi. }
  exists m, (delete (addr x) (<[addr x := set_base (set_val NULL (base (node par y (DListSeg.last NULL A) nn)))
    (node par y (DListSeg.last NULL A) nn)]> m)).
  split; [|split; [|split; [|apply lookup_delete_eq]]].
  - unfold delDListItem_cb. rewrite (proj2 (Z.eqb_neq _ _) Ha), (on_dl_load_item _ _ _ _ Ha Hnode).
    change (if negb (prev (node par x (DListSeg.last NULL A) (first B NULL)) =? NULL)
            then prev (node par x (DListSeg.last NULL A) (first B NULL))
            else next (node par x (DListSeg.last NULL A) (first B NULL))) with (neighbour A B).
    rewrite (bind_quiet _ _ _ _ _ Hstore), (bind_on_dl _ _ (set_dl h1 w) _ _ Em). unfold delListItem_cb.
    rewrite (on_dl_load_item _ _ _ (set_dl (set_items m h1) w) Ha Hi). cbn [node base val]. rewrite Hobj. unfold delListItemVal_cb.
    rewrite (proj2 (Z.eqb_neq _ _) Hn), bind_bind.
    erewrite bind_read_dl by (apply (load_ok (A := ListItemVal)); [done|exact Hval]).
    cbn [ref_count snd]. change (1 =? 0) with false. cbn iota. rewrite bind_bind.
    erewrite bind_on_dl by (apply (update_ok (A := ListItemVal)); [done|exact Hval]).
    change (1 - 1 =? 0) with true. cbn [when free_value_cb value fst snd andb].
    rewrite (proj2 (Z.eqb_neq _ _) Hev). cbn [negb when]. rewrite bind_bind. done.
  - unfold rest_of_deletion, half_gone.
    erewrite bind_on_dl by (by eapply (release_ok (A := ListItemVal)); [|apply lookup_insert_eq]).
    erewrite bind_on_dl by (by eapply (update_ok (A := DListItem)); [|exact Hi]).
    erewrite on_dl_ok by (by eapply (release_ok (A := DListItem)); [|apply lookup_insert_eq]).
    unfold gone, set_dl. cbn. by rewrite (delete_insert_eq (vals (dl w))).
  - eapply segs_forget; [done|]. intros a Hd. by rewrite lookup_delete_ne, lookup_insert_ne by done.
Qed.
End item.

(** The item [x] and its value are not on the heap any more. *)
Definition item_freed (x : item) (h : heap) : Prop := items h !! addr x = None /\ vals h !! obj x = None.

(** * The removal of the event from the list *)
Section removal.
Context (free_cb : ptr -> M world unit).
Context (cs : Datatypes.list chain) (self : ptr) (hd : TimerEventHandler) (xs : Datatypes.list item)
  (l1 l2 : Datatypes.list ptr) (ev : ptr) (w : world).
Hypothesis Hw : holds_events cs self hd xs (l1 ++ ev :: l2) w.
Hypothesis Hev : ev <> NULL.
Hypothesis Hl1 : ev ∉ l1.
Notation i := (length l1).
Notation A := (take i xs).
Notation B := (drop (S i) xs).

Lemma split_item : exists x, xs = A ++ [x] ++ B /\ xs !! i = Some x /\ owns (vals (dl w)) x (ev, true).
Proof.
  assert (((fun e => (e, true)) <$> (l1 ++ ev :: l2)) !! i = Some (ev, true)) as Hp
    by (by rewrite list_lookup_fmap, list_lookup_middle).
  destruct (Forall2_lookup_r _ _ _ _ _ (he_owns _ _ _ _ _ _ Hw) Hp) as (x & Hx & Ho).
  exists x. split; [|done]. symmetry. by apply take_drop_middle.
Qed.
(** The item is gone from a world with the list object [summary (A ++ B) fl]. *)
Lemma holds_gone x fl m' : xs = A ++ [x] ++ B -> segs m' (Chain (list hd) NULL (A ++ B) NULL :: cs) ->
  holds_events cs self hd (A ++ B) (l1 ++ l2)
    (gone w (<[list hd := summary (A ++ B) fl]> (lists (dl w))) x m').
Proof.
  intros E S. destruct Hw as [H1 H2 H3 _ _ Ho Hnd Hsz].
  assert (xs !! i = Some x /\ obj x ∉ obj <$> A ++ B /\ NoDup (obj <$> A ++ B)) as (Hxi & Hnin & Hnd').
  { rewrite E in Hnd. cbn [app] in Hnd. rewrite <- Permutation_middle, fmap_cons in Hnd.
    apply NoDup_cons in Hnd. split; [|done]. rewrite E. pose proof (he_length Hw) as Hlen.
    rewrite length_app in Hlen. cbn in Hlen. cbn [app].
    rewrite list_lookup_middle; [done|]. rewrite length_take. lia. }
  split; cbn; [done|done|done| |done| |done|].
  - exists fl. by rewrite lookup_insert_eq.
  - rewrite fmap_app in *. cbn [fmap list_fmap] in Ho.
    assert (Forall2 (owns (vals (dl w))) (A ++ B) (((fun e => (e, true)) <$> l1) ++ ((fun e => (e, true)) <$> l2))) as Ho'.
    { rewrite E in Ho. cbn [app] in Ho. apply Forall2_app_inv_r in Ho as (ys & zs & Hy & Hz & Hyz).
      apply Forall2_cons_inv_r in Hz as (z & zs' & _ & Hz & ->).
      pose proof (Forall2_length _ _ _ Hy) as Hly. rewrite length_fmap in Hly.
      apply app_inj_1 in Hyz as [<- [= _ <-]]; [by apply Forall2_app|].
      rewrite length_take. pose proof (he_length Hw) as Hlen. rewrite length_app in Hlen. cbn in Hlen. lia. }
    eapply owns_frame; [|done]. intros y Hy. apply lookup_delete_ne. intros Heq. apply Hnin. rewrite Heq.
    by apply list_elem_of_fmap_2.
  - rewrite length_app in *. cbn [length] in Hsz. lia.
Qed.

(** The deletion by the list, whatever it keeps of its own; [fin]: what it then stores. *)
Lemma list_deletion x fl store l0 fin :
  xs = A ++ [x] ++ B -> owns (vals (dl w)) x (ev, true) ->
  store (neighbour A B) w = Ok (tt, set_dl (set_lists (<[list hd := l0]> (lists (dl w))) (dl w)) w, []) ->
  (forall m', segs m' (Chain (list hd) NULL (A ++ B) NULL :: cs) ->
     fin (gone w (<[list hd := l0]> (lists (dl w))) x m')
     = Ok (tt, gone w (<[list hd := mkDList (first (A ++ B) NULL) (DListSeg.last NULL (A ++ B))
                                      (Z.of_nat (length xs)) fl]> (lists (dl w))) x m', [])) ->
  exists h h' rest,
    ((delDListItem_cb free_cb store (addr x);; fin);; on_dl (decr_count (list hd));; mret ALIB_OK) w
      = (free_cb ev;; rest) (set_dl h w) /\
    rest (set_dl h w) = Ok (ALIB_OK, set_dl h' w, []) /\
    holds_events cs self hd (A ++ B) (l1 ++ l2) (set_dl h' w) /\ item_freed x h'.
Proof.
  intros Exs Hx Hst Hfin. pose proof (he_segs _ _ _ _ _ _ Hw) as Hs. rewrite Exs in Hs at 1.
  destruct (del_item_cb_steps free_cb store w (<[list hd := l0]> (lists (dl w))) (list hd) A B x cs ev Hs Hx Hev Hst)
    as (m & m' & E & Er & Sm & Hfreed).
  assert (Z.of_nat (length xs) = Z.of_nat (length (A ++ B)) + 1) as Hlen.
  { rewrite Exs at 1. rewrite !length_app. cbn [length]. lia. }
  pose proof (holds_gone x fl m' Exs Sm) as Hh. pose proof (he_length Hh) as Hl.
  pose proof (he_size _ _ _ _ _ _ Hh) as Hz.
  eexists _, _, _. split; [|split; [|split; [exact Hh|]]].
  - exact (bind_as _ _ _ _ _ _ (bind_as _ _ _ _ _ _ E)).
  - cbv beta. fold (half_gone w (<[list hd := l0]> (lists (dl w))) x ev m).
    rewrite bind_bind, (bind_quiet _ _ _ _ _ Er), (bind_quiet _ _ _ _ _ (Hfin m' Sm)).
    unfold decr_count. erewrite bind_on_dl by
      (by eapply (update_ok (A := DList)); [apply Hw|apply lookup_insert_eq]).
    unfold DList.set_count, mret, M_ret. cbn [count begin_ end_ items_ready_for_removal lists set_lists dl gone set_dl].
    rewrite u64_small by lia. unfold gone, set_dl, summary. cbn. rewrite insert_insert_eq.
    by replace (Z.of_nat (length xs) - 1) with (Z.of_nat (length (A ++ B))) by lia.
  - split; [exact Hfreed|apply lookup_delete_eq].
Qed.

Lemma first_kept x : xs = A ++ [x] ++ B -> A <> [] -> first xs NULL = first (A ++ B) NULL.
Proof. intros E HA. transitivity (first (A ++ [x] ++ B) NULL); [by rewrite <- E|]. by destruct A. Qed.
Lemma last_kept x : xs = A ++ [x] ++ B -> B <> [] -> DListSeg.last NULL xs = DListSeg.last NULL (A ++ B).
Proof.
  intros E HB. transitivity (DListSeg.last NULL (A ++ [x] ++ B)); [by rewrite <- E|].
  rewrite !last_app. by destruct B.
Qed.
Lemma store_it fl (f : DList -> DList) : lists (dl w) !! list hd = Some (summary xs fl) ->
  on_dl (store_list (list hd) f) w
    = Ok (tt, set_dl (set_lists (<[list hd := f (summary xs fl)]> (lists (dl w))) (dl w)) w, []).
Proof.
  intros Hl. unfold store_list. erewrite on_dl_ok by (by eapply (update_ok (A := DList)); [apply Hw|exact Hl]). done.
Qed.
Lemma remove_item_cb_steps : exists h h' rest,
  DList_remove_item_cb free_cb (list hd) (at_ xs i) w = (free_cb ev;; rest) (set_dl h w) /\
  rest (set_dl h w) = Ok (ALIB_OK, set_dl h' w, []) /\
  holds_events cs self hd (A ++ B) (l1 ++ l2) (set_dl h' w) /\ (forall x, xs !! i = Some x -> item_freed x h').
Proof.
  destruct split_item as (x & Exs & Hxi & Hx).
  enough (exists h h' rest,
    DList_remove_item_cb free_cb (list hd) (at_ xs i) w = (free_cb ev;; rest) (set_dl h w) /\
    rest (set_dl h w) = Ok (ALIB_OK, set_dl h' w, []) /\
    holds_events cs self hd (A ++ B) (l1 ++ l2) (set_dl h' w) /\ item_freed x h') as (h & h' & rest & H1 & H2 & H3 & H4).
  { exists h, h', rest. split; [done|]. split; [done|]. split; [done|]. intros y Hy. by simplify_eq. }
  rewrite (at_lookup _ _ _ Hxi).
  destruct (he_object _ _ _ _ _ _ Hw) as [fl Hl]. pose proof (he_list _ _ _ _ _ _ Hw) as Hn.
  pose proof (he_segs _ _ _ _ _ _ Hw) as Hs. pose proof (lookup_lt_Some _ _ _ Hxi) as Hi.
  unfold DList_remove_item_cb. rewrite (proj2 (Z.eqb_neq _ _) Hn).
  erewrite bind_read_dl by (rewrite <- (at_lookup _ _ _ Hxi); by apply (parent_at (dl w) _ _ _ Hs)).
  rewrite Z.eqb_refl. cbn [negb].
  erewrite bind_read_dl by (by apply (load_ok (A := DList)); [|exact Hl]).
  cbn [summary begin_ end_].
  replace (addr x =? first xs NULL) with (at_ xs i =? at_ xs 0) by (by rewrite (at_lookup _ _ _ Hxi), at_first).
  replace (addr x =? DListSeg.last NULL xs) with (at_ xs i =? at_ xs (length xs - 1))
    by (by rewrite (at_lookup _ _ _ Hxi), at_last).
  destruct (Z.eqb_spec (at_ xs i) (at_ xs 0)) as [H0|H0];
    [|destruct (Z.eqb_spec (at_ xs i) (at_ xs (length xs - 1))) as [H1|H1]].
  - apply (at_inj _ _ _ _ Hs) in H0; [|lia..].
    eapply (list_deletion x fl _ _ (l ← on_dl (load_list (list hd));
      when (begin_ l =? NULL) (on_dl (store_list (list hd) (set_end NULL))))); [done|done| |].
    + by apply (store_it fl).
    + intros m' Sm. assert (A = []) as HA by (by rewrite H0).
      erewrite bind_read_dl by (by eapply (load_ok (A := DList)); [|apply lookup_insert_eq]).
      replace (neighbour A B) with (first (A ++ B) NULL) by (by rewrite HA).
      unfold set_begin, summary. cbn [begin_ end_ count items_ready_for_removal].
      destruct (decide (B = [])) as [HB|HB].
      * rewrite HA, HB. cbn [app first Z.eqb NULL when DListSeg.last]. unfold store_list.
        erewrite on_dl_ok by (by eapply (update_ok (A := DList)); [|apply lookup_insert_eq]).
        unfold gone, set_dl. cbn. by rewrite insert_insert_eq.
      * rewrite (first_null _ _ _ _ _ _ Sm) by (rewrite HA; done). cbn [when].
        by rewrite (last_kept x) by done.
  - apply (at_inj _ _ _ _ Hs) in H1; [|lia..].
    assert (B = []) as HB by (apply drop_ge; lia).
    assert (i <> 0%nat) by (intros Hz; apply H0; by rewrite Hz).
    assert (A <> []) as HA by (apply nonempty_length; rewrite length_take; lia).
    rewrite <- bind_unit_r.
    eapply (list_deletion x fl _ _ (mret tt)); [done|done|by apply (store_it fl)|].
    intros m' Sm. unfold mret, M_ret, set_end, neighbour. cbn [begin_ count items_ready_for_removal summary].
    rewrite (first_kept x) by done. rewrite HB, app_nil_r in *. by rewrite (last_null _ _ _ _ _ _ Sm HA).
  - assert (i <> 0%nat) by (intros Hz; apply H0; by rewrite Hz).
    assert (i <> (length xs - 1)%nat) by (intros Hz; apply H1; by rewrite Hz).
    assert (A <> []) as HA by (apply nonempty_length; rewrite length_take; lia).
    assert (B <> []) as HB by (apply nonempty_length; rewrite length_drop; lia).
    rewrite <- bind_unit_r.
    eapply (list_deletion x fl (fun _ => mret tt) (summary xs fl) (mret tt)); [done|done| |].
    + rewrite insert_id by done. by destruct w as [[]].
    + intros m' Sm. unfold summary. by rewrite (first_kept x), (last_kept x) by done.
Qed.
Lemma remove_event_steps : exists h h' rest,
  remove_event free_cb self ev w = (free_cb ev;; rest) (set_dl h w) /\
  rest (set_dl h w) = Ok (tt, set_dl h' w, []) /\
  holds_events cs self hd (A ++ B) (l1 ++ l2) (set_dl h' w) /\ (forall x, xs !! i = Some x -> item_freed x h').
Proof.
  destruct remove_item_cb_steps as (h & h' & rest & E & Er & Hh).
  exists h, h', (rest;; mret tt). split; [|split; [|done]].
  - unfold remove_event. rewrite (bind_handler Hw). destruct (he_get Hw) as (fl & _ & Eg).
    rewrite (bind_read_dl _ _ _ _ Eg). erewrite bind_read_dl.
    2:{ apply (get_by_value_event Hw ev i); [by rewrite list_lookup_middle|].
        intros k Hk Hin. apply Hl1. rewrite lookup_app_l in Hin by done. by eapply list_elem_of_lookup_2. }
    exact (bind_as _ _ _ _ _ _ E).
  - by rewrite (bind_quiet _ _ _ _ _ Er).
Qed.
End removal.

(** * Freeing an event of a handler *)
Section free.
Context (user : Z -> ptr -> M world unit) (spawn_ok : ptr -> bool).
Notation call := (call user spawn_ok).

(** The event as its deletion marks it. *)
Definition dying (e : event_obj) : event_obj :=
  set_fp (flag_raise (flag_raise (fp e) OBJECT_DELETE_STATE) OBJECT_CALLBACK_STATE) e.
Definition set_events (m : gmap Z event_obj) w : world := mkWorld (dl w) m (timers w) (handlers w) (spawned w).

Lemma free_event_marks ev e w (k : callback -> ptr -> M world unit) :
  ev <> NULL -> events w !! ev = Some e -> fp e = FLAG_INIT ->
  freeTimerEvent k ev w
    = (call_if k (prep_free_cb e) ev;;
       e ← load_event ev; call_if k (freeInheritor e) ev;;
       lower_flag ev OBJECT_CALLBACK_STATE;;
       e ← load_event ev; (if refTimer e then mret tt else freeTimer (timer e));;
       when (negb (exData e =? NULL) && freeExData e) (emit (EvFree (exData e)));;
       release (A := event_obj) ev) (set_events (<[ev := dying e]> (events w)) w).
Proof.
  intros Hn He Hfp. unfold freeTimerEvent, raise_flag. rewrite (proj2 (Z.eqb_neq _ _) Hn).
  rewrite (bind_store_event ev e) by done.
  erewrite bind_event; [|done|apply lookup_insert_eq]. cbn [fp set_fp]. rewrite Hfp.
  change (raised (flag_raise FLAG_INIT OBJECT_DELETE_STATE) OBJECT_CALLBACK_STATE) with false. cbv iota.
  erewrite bind_store_event; [|done|apply lookup_insert_eq].
  cbn [dl events timers handlers spawned]. rewrite insert_insert_eq.
  unfold set_events, dying. cbn [fp set_fp]. by rewrite Hfp.
Qed.
(** A deletion from inside the deletion returns at once. *)
Lemma free_dying_event ev e w (k : callback -> ptr -> M world unit) :
  ev <> NULL -> events w !! ev = Some (dying e) -> fp e = FLAG_INIT ->
  freeTimerEvent k ev w = Ok (tt, w, []).
Proof.
  intros Hn He Hfp. unfold freeTimerEvent, raise_flag. rewrite (proj2 (Z.eqb_neq _ _) Hn).
  rewrite (bind_store_event ev (dying e)) by done.
  erewrite bind_event; [|done|apply lookup_insert_eq]. cbn [fp set_fp dying]. rewrite Hfp. cbn.
  rewrite insert_id; [by destruct w|]. rewrite He. unfold dying, set_fp. by rewrite Hfp.
Qed.
Lemma call_prep ev e w : ev <> NULL -> events w !! ev = Some e ->
  call EventPrepToFree ev w = remove_event (freeTimerEvent (call_at user spawn_ok 2)) (parent e) ev w.
Proof.
  intros Hn He.
  change (call EventPrepToFree ev w) with (event_prep_to_free (freeTimerEvent (call_at user spawn_ok 2)) ev w).
  unfold event_prep_to_free, TimerEvent_get_parent.
  by rewrite bind_bind, (bind_event ev e), bind_mret.
Qed.
Lemma holds_same cs self hd xs evs w w' : dl w' = dl w -> handlers w' = handlers w ->
  holds_events cs self hd xs evs w -> holds_events cs self hd xs evs w'.
Proof. intros E1 E2 [H1 H2 H3 H4 H5 H6 H7]. split; rewrite ?E1, ?E2; done. Qed.

Context (cs : Datatypes.list chain) (self : ptr) (hd : TimerEventHandler) (xs : Datatypes.list item)
  (l1 l2 : Datatypes.list ptr) (ev : ptr) (e : event_obj) (w : world).
Hypothesis Hw : holds_events cs self hd xs (l1 ++ ev :: l2) w.
Hypothesis Hl1 : ev ∉ l1.
Hypothesis Hev : ev <> NULL.
Hypothesis He : events w !! ev = Some e.
Hypothesis Hfp : fp e = FLAG_INIT.

(** The handler's part in the deletion: the event leaves the list. *)
Lemma prep_to_free_ok : parent e = self -> exists h, let xs' := take (length l1) xs ++ drop (S (length l1)) xs in
  call EventPrepToFree ev (set_events (<[ev := dying e]> (events w)) w)
    = Ok (tt, set_dl h (set_events (<[ev := dying e]> (events w)) w), []) /\
  holds_events cs self hd xs' (l1 ++ l2) (set_dl h w) /\ (forall x, xs !! length l1 = Some x -> item_freed x h).
Proof.
  intros Hpar. set (w1 := set_events _ w).
  assert (holds_events cs self hd xs (l1 ++ ev :: l2) w1) as Hw1 by (by apply (holds_same _ _ _ _ _ w)).
  destruct (remove_event_steps (freeTimerEvent (call_at user spawn_ok 2)) cs self hd xs l1 l2 ev w1 Hw1 Hev Hl1)
    as (h & h' & rest & E & Er & Hh & Hfr).
  exists h'. split; [|split; [by eapply holds_same; [..|exact Hh]|done]].
  rewrite (call_prep ev (dying e)) by (done || apply lookup_insert_eq).
  cbn [parent dying set_fp]. rewrite Hpar, E.
  by rewrite (bind_quiet _ _ _ _ _ (free_dying_event ev e (set_dl h w1) _ Hev (lookup_insert_eq _ _ _) Hfp)).
Qed.
End free.

(** C19: freeing an event that a handler holds, outside of its own callback, takes it out of the handler first: afterwards the handler
    holds the other events in their order, in the items that held them; the event's item and its value are released, and so are the event and (unless it is only
    referenced) its timer, and the extra data is freed once, if it is the event's to free.  Nothing is released twice, which would be a fault.  The event
    is in the handler once, has the callback the handler gives its events, no inheritor that frees it, and no other flags than
    those of a new event. *)
Theorem free_removes_event (user : Z -> ptr -> M world unit) (spawn_ok : ptr -> bool)
    (cs : Datatypes.list chain) (self : ptr) (hd : TimerEventHandler) (xs : Datatypes.list item)
    (l1 l2 : Datatypes.list ptr) (ev : ptr) (e : event_obj) (tm : Timer) (w : world) :
  holds_events cs self hd xs (l1 ++ ev :: l2) w -> ev ∉ l1 ->
  events w !! ev = Some e -> timed w ev tm -> fp e = FLAG_INIT ->
  parent e = self -> prep_free_cb e = Some EventPrepToFree -> freeInheritor e = None ->
  exists w', let xs' := take (length l1) xs ++ drop (S (length l1)) xs in
    freeTimerEvent (call user spawn_ok) ev w
      = Ok (tt, w', if negb (exData e =? NULL) && freeExData e then [EvFree (exData e)] else []) /\
    holds_events cs self hd xs' (l1 ++ l2) w' /\
    (exists x, xs !! length l1 = Some x /\ item_freed x (dl w')) /\
    events w' = delete ev (events w) /\
    timers w' = (if refTimer e then timers w else delete (timer e) (timers w)).
Proof.
  intros Hw Hl1 He (e' & Hev & He' & Ht & Hl) Hfp Hpar Hprep Hinh. rewrite He in He'. injection He' as <-.
  destruct (prep_to_free_ok user spawn_ok cs self hd xs l1 l2 ev e w Hw Hl1 Hev Hfp Hpar) as (h & E & Hh & Hfr).
  exists (mkWorld h (delete ev (events w)) (if refTimer e then timers w else delete (timer e) (timers w))
    (handlers w) (spawned w)).
  cbv zeta. split; [|split; [by eapply holds_same; [..|exact Hh]|split; [|done]]].
  2:{ destruct (split_item cs self hd xs l1 l2 ev w Hw) as (x & _ & Hx & _). exists x. split; [done|]. by apply Hfr. }
  rewrite (free_event_marks ev e) by done. rewrite Hprep. cbn [call_if].
  rewrite (bind_quiet _ _ _ _ _ E). erewrite bind_event; [|done|apply lookup_insert_eq].
  cbn [dying set_fp freeInheritor]. rewrite Hinh. cbn [call_if]. rewrite bind_mret. unfold lower_flag.
  erewrite bind_store_event; [|done|apply lookup_insert_eq].
  erewrite bind_event; [|done|apply lookup_insert_eq]. cbn [dying set_fp refTimer timer exData freeExData].
  cbn [dl set_dl events timers handlers spawned set_events]. rewrite insert_insert_eq.
  set (tms := if refTimer e then timers w else delete (timer e) (timers w)).
  set (e1 := set_fp _ _).
  assert ((if refTimer e then mret tt else freeTimer (timer e))
    (mkWorld h (<[ev := e1]> (events w)) (timers w) (handlers w) (spawned w))
    = Ok (tt, mkWorld h (<[ev := e1]> (events w)) tms (handlers w) (spawned w), [])) as Ef.
  { unfold tms, freeTimer. destruct (refTimer e); [done|]. rewrite (proj2 (Z.eqb_neq _ _) Ht).
    by eapply (release_ok (H := timers_store)). }
  rewrite (bind_quiet _ _ _ _ _ Ef).
  assert (release (A := event_obj) ev (mkWorld h (<[ev := e1]> (events w)) tms (handlers w) (spawned w))
    = Ok (tt, mkWorld h (delete ev (events w)) tms (handlers w) (spawned w), [])) as Er.
  { erewrite (release_ok (H := events_store)); [|done|apply lookup_insert_eq]. cbn. by rewrite delete_insert_eq. }
  destruct (negb (exData e =? NULL) && freeExData e); cbn [when].
  - by eapply bind_loud.
  - by rewrite bind_mret.
Qed.
Lemma free_removes_event_witness : exists w', let xs' := take 1 two_items_xs ++ drop 2 two_items_xs in
  freeTimerEvent (call noted (fun _ => false)) 22 (two_events 2 2 5 9) = Ok (tt, w', []) /\
  holds_events [] 1 (two_items_hd 2) xs' [21] w' /\
  (exists x, two_items_xs !! 1%nat = Some x /\ item_freed x (dl w')) /\
  events w' = delete 22 (events (two_events 2 2 5 9)) /\ timers w' = delete 32 (timers (two_events 2 2 5 9)).
Proof.
  apply (free_removes_event noted (fun _ => false) [] 1 (two_items_hd 2) two_items_xs [21] [] 22 (event_of 32 1)
    (at_sec 5)); try done.
  - apply two_events_held.
  - set_solver.
  - apply two_events_timed.
Defined.

(** Removing an event from its handler through the public function crashes: it forgets the event's handler
    before it deletes the event's item, and the deletion of the event then asks for the handler. *)
Theorem remove_tsafe_crashes (user : Z -> ptr -> M world unit) (spawn_ok : ptr -> bool)
    (cs : Datatypes.list chain) (self : ptr) (hd : TimerEventHandler) (xs : Datatypes.list item)
    (l1 l2 : Datatypes.list ptr) (ev : ptr) (e : event_obj) (w : world) :
  holds_events cs self hd xs (l1 ++ ev :: l2) w -> ev ∉ l1 -> mutex_held hd = false -> ev <> NULL ->
  events w !! ev = Some e -> fp e = FLAG_INIT -> prep_free_cb e = Some EventPrepToFree ->
  TimerEventHandler_remove_tsafe user spawn_ok true self ev w = UB NullDeref.
Proof.
  intros Hw Hl1 Hfree Hev He Hfp Hprep. unfold TimerEventHandler_remove_tsafe.
  rewrite (proj2 (Z.eqb_neq self NULL)), (proj2 (Z.eqb_neq ev NULL)) by (done || apply Hw). cbn [orb negb].
  set (w1 := mkWorld (dl w) (events w) (timers w) (<[self := set_held true hd]> (handlers w)) (spawned w)).
  assert (lock self w = Ok (tt, w1, [EvLock])) as El.
  { unfold lock. rewrite (bind_handler Hw), Hfree.
    by rewrite (bind_update (H := handlers_store) self _ _ w hd) by apply Hw. }
  rewrite (bind_Ok _ _ _ _ _ _ El). unfold TimerEvent_set_rang_parent_cb.
  rewrite (bind_store_event ev e) by done.
  set (w2 := mkWorld _ (<[ev := set_parent NULL None e]> _) _ _ _).
  assert (holds_events cs self (set_held true hd) xs (l1 ++ ev :: l2) w2) as Hw2.
  { destruct Hw. split; try done. cbn. apply lookup_insert_eq. }
  destruct (remove_event_steps (freeTimerEvent (call user spawn_ok)) cs self (set_held true hd) xs l1 l2 ev w2 Hw2 Hev Hl1)
    as (h & h' & rest & E & _ & _).
  assert (remove_event (freeTimerEvent (call user spawn_ok)) self ev w2 = UB NullDeref) as Eu;
    [|by rewrite (bind_UB _ _ _ _ Eu)].
  rewrite E. apply bind_UB.
  rewrite (free_event_marks ev (set_parent NULL None e)) by (done || apply lookup_insert_eq).
  cbn [prep_free_cb set_parent]. rewrite Hprep. cbn [call_if]. apply bind_UB.
  rewrite (call_prep user spawn_ok ev (dying (set_parent NULL None e))) by (done || apply lookup_insert_eq).
  cbn [parent dying set_fp set_parent]. done.
Qed.
Lemma remove_tsafe_crashes_witness :
  TimerEventHandler_remove_tsafe noted (fun _ => false) true 1 22 (two_events 0 2 5 9) = UB NullDeref.
Proof.
  apply (remove_tsafe_crashes noted (fun _ => false) [] 1 (two_items_hd 0) two_items_xs [21] [] 22 (event_of 32 1));
    try done.
  - apply two_events_held.
  - set_solver.
Defined.

(** * Single runs *)

(** Freeing a handler that holds events crashes: the deletion of the list frees the first event, which
    asks the handler to remove an item that is no longer in the list. *)
Example free_handler_crashes :
  freeTimerEventHandler noted (fun _ => false) (mret tt) 1 (two_events 0 2 5 9) = UB NullDeref.
Proof. vm_compute. reflexivity. Qed.
(** Extraction leaves the event to the caller and the handler with the others. *)
Example extract_keeps_event :
  match TimerEventHandler_extract_tsafe true 1 21 (two_events 0 2 5 9) with
  | Ok (p, w, t) => p = 21 /\ t = [EvLock; EvUnlock] /\ parent <$> events w !! 21 = Some NULL /\
      DList_get_count 2 (dl w) = Ok (1, dl w, []) /\ DListItem_get_value 4 (dl w) = Ok (22, dl w, [])
  | _ => False
  end.
Proof. vm_compute. repeat split. Qed.
(** A running handler without events does not start the timer of the event it is given: the event is due at
    once, whatever its run time is, and rings again and again until its end time has caught up. *)
Definition empty_running : world :=
  mkWorld (mkHeap ∅ ∅ {[ 2 := mkDList NULL NULL 0 None ]}) {[ 23 := event_of 33 NULL ]}
    {[ 33 := mkTimer 0 (mkTimespec 60 0) (mkTimespec 0 0) ]} {[ 1 := two_items_hd THREAD_IS_RUNNING ]} [].
Example first_event_not_started :
  match (TimerEventHandler_add_tsafe true (Some 3, Some 13) (Some (mkTimespec 1000 0)) 1 23;;
         handle_first noted (fun _ => false) (mkTurn (mret tt) [] (mret tt) (Some (mkTimespec 1000 0))
           (Some (mkTimespec 1000 0)) None (mkTimespec 1000 0) (mkTimespec 1000 0)) 1 None) empty_running with
  | Ok (r, w, t) => r = (Some 1, true) /\ t = [EvLock; EvUnlock; EvFree 0] /\
      end_time <$> timers w !! 33 = Some (mkTimespec 60 0)
  | _ => False
  end.
Proof. vm_compute. repeat split. Qed.
