(* ===== verification/ComDataCheckSpec.v ===== *)
(** Message framing over a byte stream: what a receiver that follows the
    protocol of [includes/ComDataCheck.h] gets for any way the stream is cut
    into chunks, and that it is what the senders sent. *)
From S2P Require Import Prelude Memory Effects Heap BinaryBuffer ByteBuffer ComDataCheck.
Open Scope Z_scope.

(** * The abstract specification: parsing a byte stream *)
Notation byte_list := (list Z) (only parsing).
Definition is_byte (z : Z) : Prop := 0 <= z < 256.

(** The length the first four bytes announce, as the [int32_t] the code keeps. *)
Definition len_of (s : byte_list) : Z :=
  match s with a :: b :: c :: d :: _ => s32 (be32 a b c d) | _ => 0 end.
(** The first message of a stream and the stream after it.  A header is looked
    at only once a byte follows it. *)
Definition next (s : byte_list) : option (byte_list * byte_list) :=
  let n := u64 (len_of s) in
  if (blen s <=? 4) || (blen s - 4 <? n) then None
  else Some (take (Z.to_nat n) (drop 4 s), drop (4 + Z.to_nat n) s).
Inductive parsed : byte_list -> list byte_list -> byte_list -> Prop :=
| parsed_stop s : next s = None -> parsed s [] s
| parsed_next s m r ms t : next s = Some (m, r) -> parsed r ms t -> parsed s (m :: ms) t.

(** The frame of a message. *)
Definition header (m : byte_list) : byte_list :=
  [blen m / 2 ^ 24 mod 256; blen m / 2 ^ 16 mod 256; blen m / 2 ^ 8 mod 256; blen m mod 256].
Definition frame (m : byte_list) : byte_list := header m ++ m.

Lemma len_of_app s x : 4 <= blen s -> len_of (s ++ x) = len_of s.
Proof. unfold blen. destruct s as [|a [|b [|c [|d s]]]]; cbn [length]; intros; (done || lia). Qed.
Lemma next_Some s m r :
  next s = Some (m, r) <->
  4 < blen s /\ u64 (len_of s) <= blen s - 4 /\
  m = take (Z.to_nat (u64 (len_of s))) (drop 4 s) /\ r = drop (4 + Z.to_nat (u64 (len_of s))) s.
Proof.
  unfold next. destruct (Z.leb_spec (blen s) 4), (Z.ltb_spec (blen s - 4) (u64 (len_of s))); cbn;
    naive_solver lia.
Qed.
Lemma next_None s : next s = None <-> blen s <= 4 \/ blen s - 4 < u64 (len_of s).
Proof.
  unfold next. destruct (Z.leb_spec (blen s) 4), (Z.ltb_spec (blen s - 4) (u64 (len_of s))); cbn;
    naive_solver lia.
Qed.
Lemma next_app s x m r : next s = Some (m, r) -> next (s ++ x) = Some (m, r ++ x).
Proof.
  rewrite !next_Some. pose proof (blen_nonneg x). intros (? & ? & -> & ->).
  pose proof (u64_range (len_of s)). rewrite len_of_app, blen_app by lia.
  split; [lia|split; [lia|]]. unfold blen in *.
  rewrite !drop_app_le by lia. rewrite take_app_le; [done|]. rewrite length_drop. lia.
Qed.
Lemma next_shorter s m r : next s = Some (m, r) -> (length r < length s)%nat.
Proof. rewrite next_Some. unfold blen. intros (? & ? & -> & ->). rewrite length_drop. lia. Qed.

(** What is left of a stream may be continued. *)
Lemma parsed_app s ms t x ms' t' :
  parsed s ms t -> parsed (t ++ x) ms' t' -> parsed (s ++ x) (ms ++ ms') t'.
Proof.
  induction 1 as [s|s m r ms t Hn Hp IH]; [done|]. intros. simpl.
  eapply parsed_next; [by apply next_app|by apply IH].
Qed.
Lemma parsed_total s : exists ms t, parsed s ms t.
Proof.
  induction s as [s IH] using (induction_ltof1 _ (@length Z)). unfold ltof in IH.
  destruct (next s) as [[m r]|] eqn:E; [|exists [], s; by apply parsed_stop].
  destruct (IH r (next_shorter _ _ _ E)) as (ms & t & Hp).
  exists (m :: ms), t. by eapply parsed_next.
Qed.
Lemma parsed_fun s ms t ms' t' : parsed s ms t -> parsed s ms' t' -> ms = ms' /\ t = t'.
Proof.
  intros Hp. revert ms' t'. induction Hp as [s Hn|s m r ms t Hn Hp IH]; intros ms' t' Hq;
    inversion Hq; simplify_eq; [done|]. by edestruct IH as [-> ->].
Qed.

Lemma be32_bytes n : 0 <= n < 2 ^ 31 ->
  s32 (be32 (n / 2 ^ 24 mod 256) (n / 2 ^ 16 mod 256) (n / 2 ^ 8 mod 256) (n mod 256)) = n.
Proof.
  intros Hn. rewrite <- (s32_small n) at 5 by lia. f_equal. unfold be32.
  change (2 ^ 24) with 16777216. change (2 ^ 16) with 65536. change (2 ^ 8) with 256.
  Z.to_euclidean_division_equations. lia.
Qed.
Lemma next_frame m s : blen m < 2 ^ 31 -> 0 < blen m + blen s -> next (frame m ++ s) = Some (m, s).
Proof.
  intros Hm Hs. pose proof (blen_nonneg m). pose proof (blen_nonneg s).
  assert (len_of (frame m ++ s) = blen m) as Hl by (apply be32_bytes; lia).
  apply next_Some. rewrite Hl, u64_small by lia. unfold frame, header.
  rewrite !blen_app, !blen_cons, blen_nil. split; [lia|split; [lia|]].
  rewrite <- app_assoc. cbn [app drop Nat.add]. unfold blen. rewrite Nat2Z.id.
  by rewrite drop_0, take_app_length, drop_app_length.
Qed.
(** A stream of frames is parsed into their messages; the frame of an empty
    message needs a byte after it. *)
Lemma parsed_frames ms :
  Forall (fun m => blen m < 2 ^ 31) ms -> last ms <> Some [] ->
  parsed (concat (frame <$> ms)) ms [].
Proof.
  induction ms as [|m ms IH]; intros Hb Hl; [by apply parsed_stop|].
  inversion Hb; simplify_eq. cbn [fmap list_fmap concat].
  eapply parsed_next; [apply next_frame; [done|]|].
  - destruct ms as [|m' ms].
    + destruct m; [done|]. rewrite blen_cons. pose proof (blen_nonneg m).
      match goal with |- context [_ + blen ?l] => pose proof (blen_nonneg l) end. lia.
    + cbn [fmap list_fmap concat]. unfold frame at 1, header.
      rewrite !blen_app, !blen_cons. pose proof (blen_nonneg m). pose proof (blen_nonneg m').
      match goal with |- context [_ + blen ?l] => pose proof (blen_nonneg l) end.
      pose proof (blen_nonneg (@nil Z)). lia.
  - apply IH; [done|]. destruct ms; [done|]. by rewrite last_cons_cons in Hl.
Qed.

(** * The object's buffers, seen through the interface *)
Section object.
Context {B : Type} `{ByteBuffer B}.
Implicit Types (c : ComDataCheck B) (s x d u : list Z).

Definition cells_of (x : list Z) : list cell := Some <$> x.

(** Mode [md] (0 for output); header value [n], bytes [d] in the buffer and [u]
    set aside. *)
Record view (md : Z) c (n : Z) (d u : list Z) : Prop := mkview {
  v_buff : B; v_unread : B;
  v_is_buff : buff c = Some v_buff; v_is_unread : unread_buff c = Some v_unread;
  v_valid : valid v_buff; v_uvalid : valid v_unread;
  v_bytes : bytes v_buff = cells_of d; v_ubytes : bytes v_unread = cells_of u;
  v_len : data_len c = n; v_input : input c = md }.

Context {md : Z}.
Lemma blen_cells x : blen (cells_of x) = blen x.
Proof. unfold blen, cells_of. by rewrite length_fmap. Qed.
Lemma cells_of_app x y : cells_of (x ++ y) = cells_of x ++ cells_of y.
Proof. apply fmap_app. Qed.
Lemma slice_cells x g : slice (cells_of x ++ g) 0 (blen x) = cells_of x.
Proof. rewrite <- blen_cells. apply slice_prefix. Qed.
Lemma cells_of_nil x : cells_of x <> [] <-> x <> [].
Proof. by destruct x. Qed.

(** ** Calls on the buffers *)
Lemma length_view c n d u :
  view md c n d u -> on_buff bb_get_length c = Ok (blen d, c, []).
Proof.
  intros [b v Hb Hv Vb Vv Cb Cv Hn Hi]. unfold on_buff. rewrite Hb, length_law by done.
  cbn. rewrite Cb, blen_cells. unfold set_buff. rewrite <- Hb. by destruct c.
Qed.
Lemma unread_length_view c n d u :
  view md c n d u -> on_unread bb_get_length c = Ok (blen u, c, []).
Proof.
  intros [b v Hb Hv Vb Vv Cb Cv Hn Hi]. unfold on_unread. rewrite Hv, length_law by done.
  cbn. rewrite Cv, blen_cells. unfold set_unread. rewrite <- Hv. by destruct c.
Qed.
Lemma append_view c n d u k x g :
  view md c n d u -> blen d + blen x <= ULONG_MAX -> exists c',
    on_buff (bb_append (Some k) (Some (cells_of x ++ g)) (blen x)) c = Ok (ALIB_OK, c', []) /\
    view md c' n (d ++ x) u.
Proof.
  intros [b v Hb Hv Vb Vv Cb Cv Hn Hi] Hfit. unfold on_buff. rewrite Hb.
  destruct (append_law b k (cells_of x ++ g) (blen x)) as (b' & -> & Vb' & Cb').
  - done.
  - rewrite blen_app, blen_cells. pose proof (blen_nonneg x). pose proof (blen_nonneg g). lia.
  - by rewrite Cb, blen_cells.
  - eexists. split; [done|]. exists b' v; try done. by rewrite Cb', Cb, slice_cells, cells_of_app.
Qed.
Lemma unread_append_view c n d u k x g :
  view md c n d u -> blen u + blen x <= ULONG_MAX -> exists c',
    on_unread (bb_append (Some k) (Some (cells_of x ++ g)) (blen x)) c = Ok (ALIB_OK, c', []) /\
    view md c' n d (u ++ x).
Proof.
  intros [b v Hb Hv Vb Vv Cb Cv Hn Hi] Hfit. unfold on_unread. rewrite Hv.
  destruct (append_law v k (cells_of x ++ g) (blen x)) as (v' & -> & Vv' & Cv').
  - done.
  - rewrite blen_app, blen_cells. pose proof (blen_nonneg x). pose proof (blen_nonneg g). lia.
  - by rewrite Cv, blen_cells.
  - eexists. split; [done|]. exists b v'; try done. by rewrite Cv', Cv, slice_cells, cells_of_app.
Qed.
Lemma raw_view c n d u :
  view md c n d u -> d <> [] -> exists i g,
    on_buff bb_get_raw_buff c = Ok (Some (i, cells_of d ++ g), c, []).
Proof.
  intros [b v Hb Hv Vb Vv Cb Cv Hn Hi] Hd. unfold on_buff. rewrite Hb.
  destruct (raw_law b Vb) as (i & g & ->); [rewrite Cb; by apply cells_of_nil|].
  exists i, g. cbn. rewrite Cb. unfold set_buff. rewrite <- Hb. by destruct c.
Qed.
Lemma raw_any_view c n d u :
  view md c n d u -> exists r, on_buff bb_get_raw_buff c = Ok (r, c, []).
Proof.
  intros [b v Hb Hv Vb Vv Cb Cv Hn Hi]. unfold on_buff. rewrite Hb.
  destruct (raw_any_law b Vb) as [r ->]. exists r. cbn. unfold set_buff. rewrite <- Hb. by destruct c.
Qed.
Lemma remove_view c n d u j :
  view md c n d u -> d <> [] -> 0 <= j <= blen d -> exists c',
    on_buff (bb_remove j (blen d)) c = Ok (ALIB_OK, c', []) /\
    view md c' n (take (Z.to_nat j) d) u.
Proof.
  intros [b v Hb Hv Vb Vv Cb Cv Hn Hi] Hd Hx. unfold on_buff. rewrite Hb.
  destruct (remove_tail_law b j Vb) as (b' & E & Vb' & Cb').
  - by rewrite Cb, blen_cells.
  - rewrite Cb. by apply cells_of_nil.
  - rewrite Cb, blen_cells in E. rewrite E. eexists. split; [done|]. exists b' v; try done.
    rewrite Cb', Cb. unfold cells_of. by rewrite fmap_take.
Qed.
Lemma clear_no_resize_view c n d u :
  view md c n d u -> exists c',
    on_buff bb_clear_no_resize c = Ok (tt, c', []) /\ view md c' n [] u.
Proof.
  intros [b v Hb Hv Vb Vv Cb Cv Hn Hi]. unfold on_buff. rewrite Hb.
  destruct (clear_no_resize_law b Vb) as (b' & -> & ? & ?). eexists. split; [done|]. by exists b' v.
Qed.
Lemma clear_view c n d u :
  view md c n d u -> exists c', ComDataCheck_clear (Some c) = Ok (tt, Some c', []) /\ view md c' 0 [] u.
Proof.
  intros [b v Hb Hv Vb Vv Cb Cv Hn Hi]. unfold ComDataCheck_clear, on_buff. mstep. cbn.
  rewrite Hb. destruct (clear_law b Vb) as (b' & -> & ? & ?). cbn.
  eexists. split; [done|]. by exists b' v.
Qed.
Lemma extract_view c n d u :
  view md c n d u -> u <> [] -> exists c' i g,
    on_unread bb_extract_buffer c = Ok (Some (i, cells_of u ++ g), c', []) /\ view md c' n d [].
Proof.
  intros [b v Hb Hv Vb Vv Cb Cv Hn Hi] Hu. unfold on_unread. rewrite Hv.
  destruct (extract_law v Vv) as (v' & i & g & -> & ? & ?); [rewrite Cv; by apply cells_of_nil|].
  eexists _, i, g. cbn. rewrite Cv. split; [done|]. by exists b v'.
Qed.
Lemma set_len_view c n d u n' : view md c n d u -> view md (set_data_len n' c) n' d u.
Proof. intros [b v ????????]. by exists b v. Qed.
End object.

Section receiver.
Context {B : Type} `{ByteBuffer B} (md : Z) (receiving : md <> 0).
Implicit Types (c : ComDataCheck B) (s x d u : list Z).

(** ** The state of a receiver

    [holds c s]: the bytes [s], which are not a whole message, were received.
    [settled c r s]: the bytes [s] were received, and [r] tells the client
    whether a message is in the buffer, and whether bytes follow it. *)
Definition holds c s : Prop :=
  next s = None /\
  if decide (blen s <= 4) then view md c 0 s [] else view md c (len_of s) (drop 4 s) [].
Definition settled c (r : Z) s : Prop :=
  match next s with
  | None => r = code CDC_WAITING /\ holds c s
  | Some (m, []) => r = code CDC_COMPLETE /\ exists n, view md c n m []
  | Some (m, rest) => r = code CDC_DATA_REMAINING /\ exists n, view md c n m rest
  end.

Lemma length_drop_header s : 4 < blen s -> blen (drop 4 s) = blen s - 4.
Proof. unfold blen. intros. rewrite length_drop. lia. Qed.

(** The bytes after the message move to the buffer set aside. *)
Lemma spill c n d j k (Hj : 0 <= j < blen d) :
  view md c n d [] -> blen d <= ULONG_MAX -> exists i g c1 c',
    on_buff bb_get_raw_buff c = Ok (Some (i, g), c, []) /\
    on_unread (bb_append (Some k) (Some (drop (Z.to_nat j) g)) (u64 (blen d - j))) c
      = Ok (ALIB_OK, c1, []) /\
    on_buff (bb_remove j (blen d)) c1 = Ok (ALIB_OK, c', []) /\
    view md c' n (take (Z.to_nat j) d) (drop (Z.to_nat j) d).
Proof.
  intros Hv Hd. assert (d <> []) as Hne by (intros E; rewrite E, (@blen_nil Z) in Hj; lia).
  destruct (raw_view _ _ _ _ Hv Hne) as (i & g & Hr).
  assert (blen (drop (Z.to_nat j) d) = blen d - j) as Hl
    by (unfold blen in *; rewrite length_drop; lia).
  destruct (unread_append_view c n d [] k (drop (Z.to_nat j) d) g Hv) as (c1 & E1 & Hv1).
  { rewrite Hl, blen_nil. lia. }
  destruct (remove_view c1 n d _ j Hv1 Hne) as (c' & E & Hv'); [lia|].
  exists i, (cells_of d ++ g), c1, c'. split; [exact Hr|]. split; [|done].
  rewrite u64_small, <- Hl by (unfold ULONG_MAX in *; lia).
  rewrite drop_app_le by (unfold cells_of, blen in *; rewrite length_fmap; lia).
  unfold cells_of in *. by rewrite <- fmap_drop.
Qed.

Lemma check_settled c k s :
  view md c (len_of s) (drop 4 s) [] -> 4 < blen s <= ULONG_MAX -> exists r c',
    ComDataCheck_check (Some k) (Some c) = Ok (r, Some c', []) /\ settled c' r s.
Proof.
  intros Hv Hs. pose proof (u64_range (len_of s)) as Hu.
  pose proof (length_drop_header s ltac:(lia)) as Hd.
  unfold ComDataCheck_check, on_obj. rewrite bind_gets, (v_input _ _ _ _ _ Hv), (proj2 (Z.eqb_neq _ _) receiving).
  rewrite (bind_quiet _ _ _ _ _ (length_view _ _ _ _ Hv)), bind_gets, (v_len _ _ _ _ _ Hv), Hd.
  unfold settled. case_cmp.
  { exists (code CDC_WAITING), c. split; [done|].
    assert (next s = None) as Hn by (apply next_None; lia). rewrite Hn. split; [done|].
    split; [done|]. by rewrite decide_False by lia. }
  assert (next s = Some (take (Z.to_nat (u64 (len_of s))) (drop 4 s),
    drop (4 + Z.to_nat (u64 (len_of s))) s)) as -> by (apply next_Some; repeat split; (done || lia)).
  rewrite <- drop_drop. case_cmp.
  { exists (code CDC_COMPLETE), c. split; [done|].
    unfold blen in *. rewrite drop_ge, take_ge by lia. eauto. }
  destruct (spill c (len_of s) (drop 4 s) (u64 (len_of s)) k ltac:(lia) Hv) as (i & g & c1 & c' & E1 & E2 & E3 & Hv');
    [lia|]. rewrite Hd in E2, E3.
  rewrite (bind_quiet _ _ _ _ _ E1). cbn [deref]. rewrite (bind_lift _ _ _ _ eq_refl).
  rewrite (bind_quiet _ _ _ _ _ E2), (bind_quiet _ _ _ _ _ E3).
  exists (code CDC_DATA_REMAINING), c'. split; [done|].
  destruct (drop _ (drop 4 s)) eqn:E; [|eauto].
  apply (f_equal blen) in E. unfold blen in *. rewrite length_drop in E. cbn in E. lia.
Qed.

(** ** Appending to a receiver *)
Lemma load_header x g : 4 <= blen x -> load_be32 (cells_of x ++ g) = Ok (len_of x).
Proof.
  unfold blen. destruct x as [|a [|b [|c [|d x]]]]; cbn [length]; intros; try lia.
  unfold load_be32. rewrite blk_read_ok; [done|lia..|].
  rewrite blen_app, blen_cells, !blen_cons. pose proof (blen_nonneg x). pose proof (blen_nonneg g). lia.
Qed.
Lemma cells_split j x : 0 <= j <= blen x -> forall g,
  cells_of x ++ g = cells_of (take (Z.to_nat j) x) ++ (cells_of (drop (Z.to_nat j) x) ++ g) /\
  blen (take (Z.to_nat j) x) = j /\ blen (drop (Z.to_nat j) x) = blen x - j.
Proof.
  intros Hj g. rewrite app_assoc, <- cells_of_app, take_drop. split; [done|].
  unfold blen in *. rewrite length_take, length_drop. lia.
Qed.
(** The header is known: the rest is appended and the state checked. *)
Lemma finish_settled c s d x g (ks : site -> option Z) :
  (forall l, is_Some (ks l)) -> view md c (len_of s) d [] -> drop 4 s = d ++ x ->
  4 < blen s <= ULONG_MAX -> exists r c',
    (err ← on_buff (bb_append (ks Data) (Some (cells_of x ++ g)) (blen x));
     if negb (err =? 0) then mret err else here (ComDataCheck_check (ks Unread))) c
    = Ok (r, c', []) /\ settled c' r s.
Proof.
  intros Hks Hv Hd Hs. destruct (Hks Data) as [k1 ->], (Hks Unread) as [k2 ->].
  pose proof (length_drop_header s ltac:(lia)) as Hl. rewrite Hd, blen_app in Hl.
  destruct (append_view c _ d [] k1 x g Hv) as (c1 & E1 & Hv1); [lia|].
  rewrite (bind_quiet _ _ _ _ _ E1). cbn [negb ALIB_OK Z.eqb]. rewrite <- Hd in Hv1.
  destruct (check_settled c1 k2 s Hv1 Hs) as (r & c' & E & ?).
  exists r, c'. split; [by apply here_Some|done].
Qed.
Lemma append_header_settled c s x g (ks : site -> option Z) :
  (forall l, is_Some (ks l)) -> view md c 0 s [] -> 0 < blen s <= 4 ->
  4 < blen s + blen x <= ULONG_MAX -> exists r c',
    append_input ks (cells_of x ++ g) (blen x) c = Ok (r, c', []) /\ settled c' r (s ++ x).
Proof.
  intros Hks Hv Hs Hx. unfold append_input. rewrite bind_gets, (v_len _ _ _ _ _ Hv), Z.eqb_refl.
  rewrite (bind_quiet _ _ _ _ _ (length_view _ _ _ _ Hv)), u64_small by (unfold ULONG_MAX in *; lia).
  rewrite (proj2 (Z.ltb_lt _ _)), (proj2 (Z.eqb_neq _ _)) by lia. cbn [negb]. cbv zeta.
  assert (s8 (4 - blen s) = 4 - blen s) as ->
    by (unfold s8; rewrite Z.mod_small by lia; case_cmp; lia).
  destruct (cells_split (4 - blen s) x ltac:(lia) g) as (-> & Hl1 & Hl2).
  set (h := take _ x) in *. set (t := drop _ x) in *.
  rewrite (u64_small (4 - blen s)), <- Hl1 by lia. destruct (Hks Header) as [k1 ->].
  destruct (append_view c 0 s [] k1 h (cells_of t ++ g) Hv) as (c1 & E1 & Hv1); [lia|].
  rewrite (bind_quiet _ _ _ _ _ E1). cbn [negb ALIB_OK Z.eqb].
  destruct (raw_view _ _ _ _ Hv1) as (i & g1 & E2).
  { intros E. apply (f_equal blen) in E. rewrite blen_app, (@blen_nil Z) in E. lia. }
  rewrite (bind_quiet _ _ _ _ _ E2). cbn [deref]. rewrite (bind_lift _ _ _ _ eq_refl).
  rewrite (bind_lift _ (len_of (s ++ h))), bind_modify by (apply load_header; rewrite blen_app; lia).
  destruct (clear_no_resize_view _ _ _ _ (set_len_view _ _ _ _ (len_of (s ++ h)) Hv1)) as (c2 & E3 & Hv2).
  rewrite (bind_quiet _ _ _ _ _ E3).
  assert (drop (Z.to_nat (blen h)) (cells_of h ++ cells_of t ++ g) = cells_of t ++ g) as ->
    by (rewrite drop_app_length'; [done|unfold cells_of, blen; rewrite length_fmap; lia]).
  assert (u64 (blen x - blen h) = blen t) as -> by (rewrite u64_small; unfold ULONG_MAX in *; lia).
  assert (s ++ x = (s ++ h) ++ t) as -> by (by rewrite <- app_assoc; unfold h, t; rewrite take_drop).
  rewrite <- (len_of_app _ t) in Hv2 by (rewrite blen_app; lia).
  apply (finish_settled c2 _ [] t g ks Hks Hv2); [|rewrite !blen_app; lia].
  rewrite drop_app_length'; [done|]. rewrite length_app. unfold blen in *. lia.
Qed.
Lemma append_input_settled c s x g (ks : site -> option Z) :
  (forall l, is_Some (ks l)) -> holds c s -> blen s + blen x <= ULONG_MAX -> exists r c',
    append_input ks (cells_of x ++ g) (blen x) c = Ok (r, c', []) /\ settled c' r (s ++ x).
Proof.
  intros Hks [Hn Hv] Hfit. pose proof (blen_nonneg s). pose proof (blen_nonneg x). case_decide; cycle 1.
  { (* the header is known *)
    apply next_None in Hn. assert (len_of s <> 0) by (intros E; rewrite E in Hn; change (u64 0) with 0 in Hn; lia).
    unfold append_input. rewrite bind_gets, (v_len _ _ _ _ _ Hv), (proj2 (Z.eqb_neq _ _)) by done.
    rewrite <- (len_of_app s x) in Hv by lia.
    apply (finish_settled c (s ++ x) (drop 4 s) x g ks Hks Hv); [|rewrite blen_app; lia].
    rewrite drop_app_le; [done|]. unfold blen in *. lia. }
  destruct (decide (blen s + blen x <= 4)).
  { (* still not a header *)
    unfold append_input. rewrite bind_gets, (v_len _ _ _ _ _ Hv), Z.eqb_refl.
    rewrite (bind_quiet _ _ _ _ _ (length_view _ _ _ _ Hv)), u64_small by (unfold ULONG_MAX in *; lia).
    rewrite (proj2 (Z.ltb_ge _ _)) by lia. destruct (Hks Data) as [k ->].
    destruct (append_view c 0 s [] k x g Hv) as (c1 & E1 & Hv1); [lia|].
    rewrite (bind_quiet _ _ _ _ _ E1). exists (code CDC_WAITING), c1. split; [done|].
    assert (next (s ++ x) = None) as Hn' by (apply next_None; rewrite blen_app; lia).
    unfold settled. rewrite Hn'. split; [done|]. split; [done|].
    by rewrite decide_True by (rewrite blen_app; lia). }
  destruct (decide (s = [])) as [->|Hne].
  { (* the chunk has the whole header *)
    rewrite (@blen_nil Z) in *. unfold append_input. rewrite bind_gets, (v_len _ _ _ _ _ Hv), Z.eqb_refl.
    rewrite (bind_quiet _ _ _ _ _ (length_view _ _ _ _ Hv)), u64_small by (rewrite (@blen_nil Z); unfold ULONG_MAX in *; lia).
    rewrite (@blen_nil Z), (proj2 (Z.ltb_lt _ _)) by lia. cbn [negb Z.eqb].
    rewrite (bind_lift _ (len_of x)), bind_modify by (apply load_header; lia).
    destruct (cells_split 4 x ltac:(lia) g) as (-> & Hl1 & Hl2).
    rewrite drop_app_length' by (unfold cells_of, blen in *; rewrite length_fmap; lia).
    rewrite (u64_small (blen x - 4)), <- Hl2 by (unfold ULONG_MAX in *; lia).
    by apply (finish_settled _ ([] ++ x) [] (drop 4 x) g ks Hks (set_len_view _ _ _ _ (len_of x) Hv));
      [|cbn; lia]. }
  apply append_header_settled; [done|done| |lia].
  destruct s; [done|]. rewrite blen_cons in *. pose proof (blen_nonneg s). lia.
Qed.

(** ** The whole of [ComDataCheck_append] *)
Definition good_allocs (ks : allocs) : Prop := forall (i : nat) (l : site), is_Some (ks i l).

Lemma append_at_settled depth ks c s x g :
  good_allocs ks -> holds c s -> x <> [] -> blen s + blen x <= ULONG_MAX -> exists r c',
    append_at (S depth) ks (Some (cells_of x ++ g)) (blen x) (Some c) = Ok (r, Some c', [])
    /\ settled c' r (s ++ x).
Proof.
  intros Hks Hh Hx Hfit.
  assert (exists n d, view md c n d []) as (n & d & Hv) by (destruct Hh as [_ Hv]; case_decide; eauto).
  destruct (append_input_settled c s x g (ks depth) (Hks depth) Hh Hfit) as (r & c' & E & ?).
  exists r, c'. split; [|done]. cbn [append_at]. apply on_obj_Ok.
  rewrite (bind_quiet _ _ _ _ _ (unread_length_view _ _ _ _ Hv)), (@blen_nil Z).
  cbn [negb Z.eqb]. rewrite bind_mret.
  rewrite (proj2 (Z.eqb_neq _ _)) by (destruct x; [done|]; rewrite blen_cons; pose proof (blen_nonneg x); lia).
  by rewrite bind_gets, (v_input _ _ _ _ _ Hv), (proj2 (Z.eqb_neq _ _) receiving).
Qed.
(** The bytes set aside are the next message's once the client has cleared the
    last one. *)
Lemma process_settled ks c u :
  good_allocs ks -> view md c 0 [] u -> u <> [] -> blen u <= ULONG_MAX -> exists r c',
    ComDataCheck_process_buffered_data ks (Some c) = Ok (r, Some c', []) /\ settled c' r u.
Proof.
  intros Hks Hv Hu Hfit. destruct (extract_view _ _ _ _ Hv Hu) as (c1 & i & g & E1 & Hv1).
  destruct (append_at_settled 1 ks c1 [] u g Hks) as (r & c' & E & Hset); [|done|rewrite (@blen_nil Z); lia|].
  { split; [done|]. by rewrite decide_True by (rewrite (@blen_nil Z); lia). }
  exists r, c'. split; [|done]. unfold ComDataCheck_process_buffered_data, process_with.
  erewrite bind_quiet; [|apply on_obj_Ok;
    rewrite (bind_quiet _ _ _ _ _ (unread_length_view _ _ _ _ Hv)), (bind_quiet _ _ _ _ _ E1); done].
  exact E.
Qed.

(** * A client of the receiver

    The client passes on each chunk it receives.  When a message is complete it
    reads it and clears the object, and while bytes remain it has them
    processed. *)
Definition read_message : M (option (ComDataCheck B)) (list cell) :=
  no_guard (
    n ← on_buff bb_get_length;
    if n =? 0 then mret [] else
    raw ← on_buff bb_get_raw_buff; '(_, g) ← lift (deref raw); lift (blk_read g 0 n)).
Fixpoint drain (fuel : nat) (ks : allocs) (r : Z) : M (option (ComDataCheck B)) (list (list cell)) :=
  match fuel with
  | O => lift Diverges
  | Datatypes.S fuel =>
      if r =? code CDC_COMPLETE then
        m ← read_message; ComDataCheck_clear;; mret [m]
      else if r =? code CDC_DATA_REMAINING then
        m ← read_message; ComDataCheck_clear;;
        r ← ComDataCheck_process_buffered_data ks;
        ms ← drain fuel ks r; mret (m :: ms)
      else mret []
  end.
Fixpoint receive (fuel : nat) (ks : allocs) (chunks : list (list cell))
    : M (option (ComDataCheck B)) (list (list cell)) :=
  match chunks with
  | [] => mret []
  | x :: chunks =>
      r ← ComDataCheck_append ks (Some x) (blen x);
      ms ← drain fuel ks r; ms' ← receive fuel ks chunks; mret (ms ++ ms')
  end.

Lemma read_view c n d u :
  view md c n d u -> read_message (Some c) = Ok (cells_of d, Some c, []).
Proof.
  intros Hv. unfold read_message, no_guard. cbn [deref mbind res_bind].
  rewrite (bind_quiet _ _ _ _ _ (length_view _ _ _ _ Hv)). destruct d as [|z d]; [done|].
  rewrite (proj2 (Z.eqb_neq _ _)) by (rewrite blen_cons; pose proof (blen_nonneg d); lia).
  destruct (raw_view _ _ _ _ Hv) as (i & g & E); [done|].
  rewrite (bind_quiet _ _ _ _ _ E). cbn [deref]. rewrite (bind_lift _ _ _ _ eq_refl).
  pose proof (blen_nonneg (z :: d)). pose proof (blen_nonneg g).
  unfold lift. rewrite blk_read_ok, slice_cells by (rewrite ?blen_app, ?blen_cells; lia). done.
Qed.
Lemma holds_nil c n : view md c n [] [] -> n = 0 -> holds c [].
Proof. intros Hv ->. split; [done|]. by rewrite decide_True by (rewrite (@blen_nil Z); lia). Qed.

(** The client reads the whole messages received so far. *)
Lemma drain_settled ks fuel s : good_allocs ks -> (length s < fuel)%nat -> blen s <= ULONG_MAX ->
  forall c r, settled c r s -> exists ms t c',
    drain fuel ks r (Some c) = Ok (cells_of <$> ms, Some c', []) /\ parsed s ms t /\ holds c' t.
Proof.
  intros Hks. revert s. induction fuel as [|fuel IH]; intros s Hf Hb c r Hs; [lia|].
  unfold settled in Hs. destruct (next s) as [[m [|z u]]|] eqn:En.
  - destruct Hs as (-> & n & Hv). destruct (clear_view _ _ _ _ Hv) as (c' & E & Hv').
    exists [m], [], c'. cbn [drain code Z.eqb Pos.eqb]. rewrite (bind_quiet _ _ _ _ _ (read_view _ _ _ _ Hv)).
    rewrite (bind_quiet _ _ _ _ _ E). split; [done|].
    split; [eapply parsed_next; [done|by apply parsed_stop]|by eapply holds_nil].
  - destruct Hs as (-> & n & Hv). destruct (clear_view _ _ _ _ Hv) as (c1 & E & Hv1).
    pose proof (next_shorter _ _ _ En).
    destruct (process_settled ks c1 (z :: u) Hks Hv1) as (r & c2 & E2 & Hs2);
      [done|unfold blen in *; lia|].
    destruct (IH (z :: u) ltac:(lia) ltac:(unfold blen in *; lia) c2 r Hs2) as (ms & t & c' & E3 & ? & ?).
    exists (m :: ms), t, c'. cbn [drain code Z.eqb Pos.eqb]. rewrite (bind_quiet _ _ _ _ _ (read_view _ _ _ _ Hv)).
    rewrite (bind_quiet _ _ _ _ _ E), (bind_quiet _ _ _ _ _ E2), (bind_quiet _ _ _ _ _ E3).
    split; [done|]. split; [by eapply parsed_next|done].
  - destruct Hs as (-> & Hh). exists [], s, c. split; [done|]. split; [by apply parsed_stop|done].
Qed.

Lemma parsed_shorter s ms t : parsed s ms t -> blen t <= blen s.
Proof.
  induction 1 as [|s m r ms t Hn _ IH]; [lia|]. apply next_shorter in Hn. unfold blen in *. lia.
Qed.

(** C2: Any way of cutting a byte stream into non-empty chunks gives the client the same
    messages: those of the stream, in their order, and the object then holds the bytes that are
    not a whole message yet. *)
Theorem receive_parses ks fuel c s (chunks : list (list Z)) :
  good_allocs ks -> holds c s -> Forall (fun x => x <> []) chunks ->
  blen (s ++ concat chunks) <= ULONG_MAX -> (length (s ++ concat chunks) < fuel)%nat ->
  exists ms t c',
    receive fuel ks (cells_of <$> chunks) (Some c) = Ok (cells_of <$> ms, Some c', []) /\
    parsed (s ++ concat chunks) ms t /\ holds c' t.
Proof.
  intros Hks Hh Hne. revert c s Hh. induction Hne as [|x chunks Hx _ IH]; intros c s Hh Hb Hf.
  { exists [], s, c. cbn. rewrite app_nil_r. split; [done|].
    split; [apply parsed_stop, Hh|done]. }
  cbn [concat fmap list_fmap receive] in *. rewrite app_assoc in *.
  rewrite !blen_app, !length_app in *.
  match type of Hb with _ + blen ?l <= _ => pose proof (blen_nonneg l) end.
  destruct (append_at_settled 1 ks c s x [] Hks Hh Hx) as (r & c1 & E1 & Hs1); [lia|].
  destruct (drain_settled ks fuel (s ++ x) Hks ltac:(rewrite length_app; lia)
    ltac:(rewrite blen_app; lia) c1 r Hs1) as (ms & t & c2 & E2 & Hp & Hh2).
  pose proof (parsed_shorter _ _ _ Hp) as Hs. rewrite blen_app in Hs.
  destruct (IH c2 t Hh2) as (ms' & t' & c' & E3 & Hp' & Hh').
  { rewrite blen_app. lia. } { rewrite length_app. unfold blen in *. lia. }
  exists (ms ++ ms'), t', c'. split; [|split; [by eapply parsed_app|done]].
  rewrite app_nil_r, <- (blen_cells x) in E1. unfold ComDataCheck_append.
  rewrite (bind_quiet _ _ _ _ _ E1), (bind_quiet _ _ _ _ _ E2), (bind_quiet _ _ _ _ _ E3).
  by rewrite fmap_app.
Qed.

(** * Receiving from a socket *)
Lemma prefix_None s x : next (s ++ x) = None -> next s = None.
Proof. destruct (next s) as [[m r]|] eqn:E; [|done]. intros Hn. by rewrite (next_app _ x _ _ E) in Hn. Qed.
Lemma settled_code c r s : settled c r s ->
  (r =? code CDC_WAITING) = match next s with None => true | Some _ => false end.
Proof. unfold settled. destruct (next s) as [[m [|z u]]|]; intros [-> _]; done. Qed.

Lemma recv_step (ks : nat -> allocs) c s y rest rval :
  (forall i, good_allocs (ks i)) -> holds c s -> y <> [] -> blen s + blen y <= ULONG_MAX ->
  exists r c', settled c' r (s ++ y) /\
    recv_loop ks ((blen y, cells_of y) :: rest) rval (Some c) =
      match next (s ++ y) with
      | None => recv_loop ks rest (Some r) (Some c')
      | Some _ => Ok (r, Some c', [])
      end.
Proof.
  intros Hks Hh Hy Hb. pose proof (blen_nonneg s). pose proof (blen_nonneg y).
  destruct (append_at_settled 1 (ks (length rest)) c s y
    (replicate (Z.to_nat (DEFAULT_INPUT_BUFF_SIZE - blen (cells_of y))) None) (Hks _) Hh Hy Hb)
    as (r & c' & E & Hs).
  exists r, c'. split; [done|]. cbn [recv_loop]. unfold input_buffer, ComDataCheck_append.
  rewrite u64_small by (unfold ULONG_MAX in *; lia).
  rewrite (proj2 (Z.eqb_neq _ _)) by (destruct y; [done|]; rewrite blen_cons in *; pose proof (blen_nonneg y); lia).
  rewrite (bind_quiet _ _ _ _ _ E), (settled_code _ _ _ Hs). by destruct (next (s ++ y)).
Qed.

(** The result of [recv(2)] is kept in a [size_t] and compared with 0: when the call fails,
    -1 is taken for a huge amount of received bytes, and the header is read from a buffer nothing
    was stored in; when the peer has closed the connection before the first byte, the value
    returned was never set. *)
Theorem recv_error_unchecked (ks : nat -> allocs) c rest sock :
  holds c [] -> 0 < sock ->
  ComDataCheck_recv ks ((-1, []) :: rest) sock (Some c) = UB Indeterminate /\
  ComDataCheck_recv ks ((0, []) :: rest) sock (Some c) = UB Indeterminate.
Proof.
  intros [_ Hv] Hsock. rewrite decide_True in Hv by (rewrite (@blen_nil Z); lia).
  unfold ComDataCheck_recv. rewrite (v_input _ _ _ _ _ Hv).
  rewrite (proj2 (Z.leb_gt _ _)), (proj2 (Z.eqb_neq _ _) receiving) by done. cbn [orb].
  split; [|done]. cbn [recv_loop]. unfold ComDataCheck_append. cbn [append_at].
  change (u64 (-1)) with ULONG_MAX. change (ULONG_MAX =? 0) with false. cbv iota.
  apply bind_UB. unfold on_obj.
  rewrite (bind_quiet _ _ _ _ _ (unread_length_view _ _ _ _ Hv)), (@blen_nil Z). cbn [negb Z.eqb].
  rewrite bind_mret. cbv beta iota.
  rewrite bind_gets, (v_input _ _ _ _ _ Hv), (proj2 (Z.eqb_neq _ _) receiving). cbn [negb].
  unfold append_input. rewrite bind_gets, (v_len _ _ _ _ _ Hv), Z.eqb_refl.
  rewrite (bind_quiet _ _ _ _ _ (length_view _ _ _ _ Hv)), (@blen_nil Z), Z.add_0_r.
  cbn [negb Z.eqb]. done.
Qed.

(** A header that announces 2^31 bytes or more is not rejected: it makes the length negative,
    which the comparison with the bytes held takes for a number no buffer reaches, and the
    object waits for ever. *)
Theorem negative_length_waits ks fuel c s (chunks : list (list Z)) :
  good_allocs ks -> holds c s -> Forall (fun x => x <> []) chunks ->
  blen (s ++ concat chunks) <= LONG_MAX -> (length (s ++ concat chunks) < fuel)%nat ->
  len_of (s ++ concat chunks) < 0 ->
  exists c', receive fuel ks (cells_of <$> chunks) (Some c) = Ok ([], Some c', []) /\
    holds c' (s ++ concat chunks).
Proof.
  intros Hks Hh Hne Hb Hf Hneg.
  destruct (receive_parses ks fuel c s chunks) as (ms & t & c' & E & Hp & ?); try done.
  { unfold LONG_MAX, ULONG_MAX in *. lia. }
  assert (next (s ++ concat chunks) = None) as Hn.
  { apply next_None. right. set (w := s ++ concat chunks) in *.
    assert (- 2 ^ 31 <= len_of w) as Hl.
    { unfold len_of. destruct w as [|a [|b [|d [|e w]]]]; try lia. unfold s32.
      pose proof (Z.mod_pos_bound (be32 a b d e) (2 ^ 32)). case_cmp; lia. }
    unfold u64. rewrite <- (Z_mod_plus_full _ 1), Z.mod_small by lia.
    unfold LONG_MAX in *. lia. }
  destruct (parsed_fun _ _ _ _ _ Hp (parsed_stop _ Hn)) as [-> ->]. by exists c'.
Qed.

(** [ComDataCheck_check] takes one to four bytes of a header for a message without bytes
    that is followed by data: it moves them to the buffer set aside, and reports
    [CDC_DATA_REMAINING]. *)
Theorem partial_header_spurious c s k :
  holds c s -> 1 <= blen s <= 4 -> exists c',
    ComDataCheck_check (Some k) (Some c) = Ok (code CDC_DATA_REMAINING, Some c', []) /\
    view md c' 0 [] s.
Proof.
  intros [_ Hv] Hs. rewrite decide_True in Hv by lia.
  destruct (spill c 0 s 0 k ltac:(lia) Hv) as (i & g & c1 & c' & E1 & E2 & E3 & Hv');
    [unfold ULONG_MAX; lia|].
  exists c'. split; [|done]. apply on_obj_Ok.
  rewrite bind_gets, (v_input _ _ _ _ _ Hv), (proj2 (Z.eqb_neq _ _) receiving).
  rewrite (bind_quiet _ _ _ _ _ (length_view _ _ _ _ Hv)), bind_gets, (v_len _ _ _ _ _ Hv).
  change (u64 0) with 0. rewrite (proj2 (Z.ltb_ge _ _)), (proj2 (Z.eqb_neq _ _)) by lia.
  rewrite (bind_quiet _ _ _ _ _ E1). cbn [deref]. rewrite (bind_lift _ _ _ _ eq_refl).
  by rewrite (bind_quiet _ _ _ _ _ E2), (bind_quiet _ _ _ _ _ E3).
Qed.
End receiver.

(** * The sender

    For each message the client fills an output object, sends it and clears
    the object; [send(2)] takes all the bytes it is given. *)
Section sender.
Context {B : Type} `{ByteBuffer B}.
Implicit Types (c : ComDataCheck B).

Definition transmit (ks : allocs) (sock : Z) (m : list cell) : M (option (ComDataCheck B)) (list cell) :=
  ComDataCheck_append ks (Some m) (blen m);;
  '(_, sent) ← ComDataCheck_send blen sock; ComDataCheck_clear;; mret (concat sent).
Fixpoint transmit_all (ks : allocs) (sock : Z) (ms : list (list cell))
    : M (option (ComDataCheck B)) (list cell) :=
  match ms with
  | [] => mret []
  | m :: ms => x ← transmit ks sock m; xs ← transmit_all ks sock ms; mret (x ++ xs)
  end.

Lemma output_append ks c m :
  good_allocs ks -> view 0 c 0 [] [] -> blen m < 2 ^ 31 -> exists n c',
    ComDataCheck_append ks (Some (cells_of m)) (blen (cells_of m)) (Some c)
      = Ok (code CDC_COMPLETE, Some c', []) /\ view 0 c' n m [].
Proof.
  intros Hks Hv Hm. rewrite blen_cells. pose proof (blen_nonneg m).
  unfold ComDataCheck_append. cbn [append_at]. destruct (decide (m = [])) as [->|Hne].
  { exists 0, c. split; [|done]. apply on_obj_Ok.
    rewrite (bind_quiet _ _ _ _ _ (unread_length_view _ _ _ _ Hv)), (@blen_nil Z).
    cbn [negb Z.eqb]. rewrite bind_mret. cbv beta iota. apply here_Some, on_obj_Ok.
    by rewrite bind_gets, (v_input _ _ _ _ _ Hv). }
  destruct (Hks 1%nat Data) as [k Hk].
  destruct (append_view c 0 [] [] k m [] Hv) as (c1 & E & Hv1);
    [rewrite (@blen_nil Z); unfold ULONG_MAX; lia|]. rewrite app_nil_r in E.
  exists (blen m), (set_data_len (blen m) c1). split; [|by eapply set_len_view].
  apply on_obj_Ok. rewrite (bind_quiet _ _ _ _ _ (unread_length_view _ _ _ _ Hv)), (@blen_nil Z).
  cbn [negb Z.eqb]. rewrite bind_mret. cbv beta iota.
  rewrite (proj2 (Z.eqb_neq _ _)) by (destruct m; [done|]; rewrite blen_cons in *; pose proof (blen_nonneg m); lia).
  rewrite bind_gets, (v_input _ _ _ _ _ Hv). cbn [negb Z.eqb]. unfold append_output. rewrite Hk.
  rewrite (bind_quiet _ _ _ _ _ E). cbn [negb Z.eqb ALIB_OK].
  rewrite (bind_quiet _ _ _ _ _ (length_view _ _ _ _ Hv1)). cbn [app].
  rewrite Z.gtb_ltb, (proj2 (Z.ltb_ge _ _)) by (unfold INT32_MAX; lia).
  by rewrite bind_modify, s32_small by lia.
Qed.
Lemma header_cells m : blen m < 2 ^ 31 -> store_be32 (s32 (blen m) mod 2 ^ 32) = cells_of (header m).
Proof. intros. pose proof (blen_nonneg m). by rewrite s32_small, Z.mod_small by lia. Qed.

Lemma send_frame_at c n m sock :
  view 0 c n m [] -> blen m < 2 ^ 31 -> 0 < sock ->
  ComDataCheck_send blen sock (Some c)
    = Ok ((ALIB_OK, [cells_of (header m); cells_of m]), Some c, []).
Proof.
  intros Hv Hm Hs. pose proof (blen_nonneg m). apply on_obj_Ok.
  rewrite (proj2 (Z.leb_gt _ _)) by done.
  rewrite (bind_quiet _ _ _ _ _ (length_view _ _ _ _ Hv)), header_cells by done.
  cbv zeta. change (blen (cells_of (header m)) =? 4) with true. cbn [negb].
  destruct (raw_any_view _ _ _ _ Hv) as [raw Hr]. rewrite (bind_quiet _ _ _ _ _ Hr).
  assert (forall data : list cell, data = cells_of m -> u64 (blen data) =? blen m = true) as Hall.
  { intros data ->. rewrite blen_cells, u64_small by lia. apply Z.eqb_refl. }
  destruct (decide (m = [])) as [->|Hne].
  { rewrite (@blen_nil Z) in *. cbn [Z.eqb]. rewrite bind_mret. by rewrite Hall. }
  destruct (raw_view _ _ _ _ Hv Hne) as (i & g & E). rewrite E in Hr. simplify_eq.
  rewrite (proj2 (Z.eqb_neq _ _)) by (destruct m; [done|]; rewrite blen_cons in *; pose proof (blen_nonneg m); lia).
  cbn [deref]. erewrite bind_quiet; [|rewrite (bind_lift _ _ _ _ eq_refl); pose proof (blen_nonneg g);
    unfold lift; rewrite blk_read_ok, slice_cells by (rewrite ?blen_app, ?blen_cells; lia); reflexivity].
  by rewrite Hall.
Qed.
Lemma transmit_frame ks c m sock :
  good_allocs ks -> view 0 c 0 [] [] -> blen m < 2 ^ 31 -> 0 < sock -> exists c',
    transmit ks sock (cells_of m) (Some c) = Ok (cells_of (frame m), Some c', []) /\ view 0 c' 0 [] [].
Proof.
  intros Hks Hv Hm Hs. destruct (output_append ks c m Hks Hv Hm) as (n & c1 & E1 & Hv1).
  destruct (clear_view _ _ _ _ Hv1) as (c' & E2 & Hv'). exists c'. split; [|done].
  unfold transmit. rewrite (bind_quiet _ _ _ _ _ E1).
  rewrite (bind_quiet _ _ _ _ _ (send_frame_at _ _ _ _ Hv1 Hm Hs)), (bind_quiet _ _ _ _ _ E2).
  cbn [concat]. by rewrite app_nil_r, <- cells_of_app.
Qed.
Lemma transmit_frames ks ms sock : good_allocs ks -> Forall (fun m => blen m < 2 ^ 31) ms -> 0 < sock ->
  forall c, view 0 c 0 [] [] -> exists c',
    transmit_all ks sock (cells_of <$> ms) (Some c)
      = Ok (cells_of (concat (frame <$> ms)), Some c', []) /\ view 0 c' 0 [] [].
Proof.
  intros Hks Hm Hs. induction Hm as [|m ms Hm _ IH]; intros c Hv; [by exists c|].
  destruct (transmit_frame ks c m sock Hks Hv Hm Hs) as (c1 & E1 & Hv1).
  destruct (IH c1 Hv1) as (c' & E & Hv'). exists c'. split; [|done].
  cbn [fmap list_fmap transmit_all concat].
  by rewrite (bind_quiet _ _ _ _ _ E1), (bind_quiet _ _ _ _ _ E), cells_of_app.
Qed.

(** [ComDataCheck_send] sends the length of the buffer, four bytes in network order, and then
    its bytes. *)
Theorem send_frame c n m sock :
  view 0 c n m [] -> blen m < 2 ^ 31 -> 0 < sock ->
  ComDataCheck_send blen sock (Some c)
    = Ok ((ALIB_OK, [cells_of (header m); cells_of m]), Some c, []).
Proof. apply send_frame_at. Qed.
End sender.

Lemma chunks_of_cells (s : list Z) (chunks : list (list cell)) :
  concat chunks = cells_of s -> exists l, chunks = cells_of <$> l /\ s = concat l.
Proof.
  revert s. induction chunks as [|x chunks IH]; intros s Hs; cbn [concat] in Hs.
  { exists []. by destruct s. }
  symmetry in Hs. apply fmap_app_inv in Hs as (y & t & Hx & Ht & ->).
  destruct (IH t) as (l & -> & ->); [done|]. exists (y :: l). subst x. done.
Qed.

(** C1: What the sender sends is what the receiver gets: the messages sent one after the other
    through one object reach the client of another one in order and unchanged, for any way the
    stream is cut into the chunks received (the frame of an empty message is complete only once
    a byte follows it). *)
Theorem stream_roundtrip {B C} `{ByteBuffer B} `{ByteBuffer C} ks ks' fuel sock md
    (snd : ComDataCheck B) (rcv : ComDataCheck C) (ms : list (list Z)) :
  md <> 0 -> good_allocs ks -> good_allocs ks' -> 0 < sock ->
  view 0 snd 0 [] [] -> view md rcv 0 [] [] ->
  Forall (fun m => blen m < 2 ^ 31) ms -> last ms <> Some [] ->
  blen (concat (frame <$> ms)) <= ULONG_MAX -> (length (concat (frame <$> ms)) < fuel)%nat ->
  exists stream snd',
    transmit_all ks sock (cells_of <$> ms) (Some snd) = Ok (stream, Some snd', []) /\
    forall chunks, concat chunks = stream -> Forall (fun x => x <> []) chunks ->
      exists rcv', receive fuel ks' chunks (Some rcv) = Ok (cells_of <$> ms, Some rcv', []) /\
        view md rcv' 0 [] [].
Proof.
  intros Hmd Hks Hks' Hs Hsnd Hrcv Hm Hl Hb Hf.
  destruct (transmit_frames ks ms sock Hks Hm Hs snd Hsnd) as (snd' & E & _).
  exists (cells_of (concat (frame <$> ms))), snd'. split; [done|]. intros chunks Hc Hne.
  destruct (chunks_of_cells _ _ Hc) as (l & -> & Hl').
  destruct (receive_parses md Hmd ks' fuel rcv [] l Hks') as (ms' & t & rcv' & E' & Hp & Hh).
  - by eapply holds_nil.
  - apply Forall_forall. intros x Hx. apply cells_of_nil. rewrite Forall_forall in Hne.
    apply Hne, list_elem_of_fmap. by exists x.
  - cbn [app]. by rewrite <- Hl'.
  - cbn [app]. by rewrite <- Hl'.
  - cbn [app] in Hp. rewrite <- Hl' in Hp.
    destruct (parsed_fun _ _ _ _ _ Hp (parsed_frames ms Hm Hl)) as [-> ->].
    exists rcv'. split; [done|]. destruct Hh as [_ Hv].
    by rewrite decide_True in Hv by (rewrite (@blen_nil Z); lia).
Qed.

(** * The development's byte buffer *)
Definition empty_buffer : BinaryBuffer :=
  mkBinaryBuffer (Some (1, replicate 64 None)) 64 0
    BINARY_BUFFER_DEFAULT_MIN_CAP BINARY_BUFFER_DEFUALT_MAX_EXPAND.
Definition new_object (md : Z) : ComDataCheck BinaryBuffer :=
  mkCDC 0 (Some empty_buffer) (Some empty_buffer) md NULL false.
Lemma empty_new : newBinaryBuffer true (Some 1) = Ok (Some empty_buffer).
Proof. done. Qed.
Lemma new_object_new md :
  newComDataCheck true (Some empty_buffer) (Some empty_buffer) md = Ok (Some (new_object md)).
Proof. done. Qed.
Lemma new_view md : view md (new_object md) 0 [] [].
Proof.
  assert (wf empty_buffer).
  { split; try done; simpl; unfold ULONG_MAX, BINARY_BUFFER_DEFAULT_MIN_CAP,
      BINARY_BUFFER_DEFUALT_MAX_EXPAND; lia. }
  by exists empty_buffer empty_buffer.
Qed.
Definition all_succeed : allocs := fun _ _ => Some 1.
Lemma all_succeed_good : good_allocs all_succeed.
Proof. intros ??. by eexists. Qed.
Lemma new_holds md : holds md (new_object md) [].
Proof. by eapply holds_nil; [apply new_view|]. Qed.

Lemma receive_parses_witness :
  exists ms t c',
    receive 20 all_succeed (cells_of <$> [[0; 0]; [0; 2; 7]; [8; 0; 0; 0; 1; 9; 0]]) (Some (new_object 1))
      = Ok (cells_of <$> ms, Some c', []) /\
    parsed ([] ++ concat [[0; 0]; [0; 2; 7]; [8; 0; 0; 0; 1; 9; 0]]) ms t /\ holds 1 c' t.
Proof.
  apply (receive_parses 1 ltac:(done) all_succeed 20 (new_object 1) []
    [[0; 0]; [0; 2; 7]; [8; 0; 0; 0; 1; 9; 0]] all_succeed_good (new_holds 1)).
  - by repeat constructor.
  - apply Z.leb_le. by vm_compute.
  - simpl. lia.
Defined.
Lemma recv_error_unchecked_witness :
  ComDataCheck_recv (fun _ => all_succeed) [(-1, [])] 3 (Some (new_object 1)) = UB Indeterminate /\
  ComDataCheck_recv (fun _ => all_succeed) [(0, [])] 3 (Some (new_object 1)) = UB Indeterminate.
Proof.
  apply (recv_error_unchecked 1 ltac:(done) (fun _ => all_succeed) (new_object 1) [] 3 (new_holds 1)).
  lia.
Defined.
Lemma negative_length_waits_witness :
  exists c', receive 20 all_succeed (cells_of <$> [[128; 0]; [0; 0; 1; 2; 3]]) (Some (new_object 1))
      = Ok ([], Some c', []) /\ holds 1 c' ([] ++ concat [[128; 0]; [0; 0; 1; 2; 3]]).
Proof.
  apply (negative_length_waits 1 ltac:(done) all_succeed 20 (new_object 1) []
    [[128; 0]; [0; 0; 1; 2; 3]] all_succeed_good (new_holds 1)).
  - by repeat constructor.
  - apply Z.leb_le. by vm_compute.
  - simpl. lia.
  - by vm_compute.
Defined.
(** An object that holds two bytes of a header. *)
Lemma holds_two : exists c : ComDataCheck BinaryBuffer, holds 1 c [0; 0].
Proof.
  destruct (append_at_settled 1 ltac:(done) 1 all_succeed (new_object 1) [] [0; 0] []
    all_succeed_good (new_holds 1)) as (r & c & _ & [_ Hh]); [done|by apply Z.leb_le; vm_compute|].
  by exists c.
Qed.
Lemma partial_header_spurious_witness :
  exists c c' : ComDataCheck BinaryBuffer,
    ComDataCheck_check (Some 1) (Some c) = Ok (code CDC_DATA_REMAINING, Some c', []) /\
    view 1 c' 0 [] [0; 0].
Proof.
  destruct holds_two as [c Hc]. exists c.
  apply (partial_header_spurious 1 ltac:(done) c [0; 0] 1 Hc).
  split; apply Z.leb_le; by vm_compute.
Defined.
Lemma send_frame_witness :
  exists c : ComDataCheck BinaryBuffer,
    ComDataCheck_send blen 3 (Some c)
      = Ok ((ALIB_OK, [cells_of (header [7; 8]); cells_of [7; 8]]), Some c, []).
Proof.
  destruct (output_append all_succeed (new_object 0) [7; 8] all_succeed_good (new_view 0))
    as (n & c & _ & Hv); [apply Z.ltb_lt; by vm_compute|].
  exists c. apply (send_frame c n [7; 8] 3 Hv); [apply Z.ltb_lt; by vm_compute|lia].
Defined.
Lemma stream_roundtrip_witness :
  exists stream snd',
    transmit_all all_succeed 3 (cells_of <$> [[7; 8]; []; [9]]) (Some (new_object 0))
      = Ok (stream, Some snd', []) /\
    forall chunks, concat chunks = stream -> Forall (fun x => x <> []) chunks ->
      exists rcv', receive 20 all_succeed chunks (Some (new_object 1))
          = Ok (cells_of <$> [[7; 8]; []; [9]], Some rcv', []) /\ view 1 rcv' 0 [] [].
Proof.
  apply (stream_roundtrip all_succeed all_succeed 20 3 1 (new_object 0) (new_object 1) [[7; 8]; []; [9]]);
    try done; try apply all_succeed_good; try apply new_view.
  - by repeat constructor.
  - simpl. lia.
Defined.
