(* ===== verification/ListHistory.v ===== *)
(** The bounded history list: [source/ListHistoryItem.c] and
    [source/ListHistory.c], in the configuration [LIST_HISTORY_NO_MUTEX]; the
    constructor of the other configuration, in which the list and the mutex
    object that protects it create each other, is [newListHistory_at]
    ([MutexObject]).  An item is a node of a singly linked list; a function
    that takes a pointer to a pointer takes the value behind it and returns its
    new value.  [user] is the comparison function the client may give with an
    item; it tells whether two items differ. *)
From S2P Require Import Prelude Effects Heap.
Open Scope Z_scope.

Inductive comparison := default_compare | user_compare.
Record ListHistoryItem := mkItem {
  list_item : ptr; next : ptr; Remove_Callback : bool; Compare_Callback : comparison }.
Record ListHistory := mkHistory { list_root : ptr; list_end : ptr; count : Z; max : Z }.

(** The nodes, the history object, and the [unsigned int]s that live at the
    addresses the client's items may be ([MutexObject]). *)
Record state := mkState {
  nodes : gmap Z ListHistoryItem; hist : ListHistory; numbers : gmap Z Z }.
#[export] Instance nodes_store : Store state ListHistoryItem := {|
  objs := nodes; put m s := mkState m (hist s) (numbers s);
  objs_put _ _ := eq_refl; put_put _ _ _ := eq_refl;
  put_objs s := match s with mkState _ _ _ => eq_refl end |}.

Definition u32 (z : Z) : Z := z mod 2 ^ 32.
Definition set_next (p : ptr) (i : ListHistoryItem) : ListHistoryItem :=
  mkItem (list_item i) p (Remove_Callback i) (Compare_Callback i).
Definition set_hist (h : ListHistory) (s : state) : state := mkState (nodes s) h (numbers s).
Definition on_hist (f : ListHistory -> ListHistory) : M state unit :=
  modify (fun s => set_hist (f (hist s)) s).
Definition set_root (p : ptr) : M state unit :=
  on_hist (fun h => mkHistory p (list_end h) (count h) (max h)).
Definition set_end (p : ptr) : M state unit :=
  on_hist (fun h => mkHistory (list_root h) p (count h) (max h)).
Definition set_count (n : Z) : M state unit :=
  on_hist (fun h => mkHistory (list_root h) (list_end h) n (max h)).
Definition get_root : M state ptr := gets (fun s => list_root (hist s)).
Definition get_end : M state ptr := gets (fun s => list_end (hist s)).
Definition get_count : M state Z := gets (fun s => count (hist s)).

Definition node (p : ptr) : M state ListHistoryItem := load p.
Definition node_fuel : M state nat := gets (walk_fuel (A := ListHistoryItem)).

Section history.
Variable user : ptr -> ptr -> M state bool.

(** * [ListHistoryItem.c] *)
Definition ListHistoryItem_helper_function_default_compare (item_1 item_2 : ptr) : bool :=
  negb (item_1 =? item_2).
Definition compare (c : comparison) (item_1 item_2 : ptr) : M state bool :=
  match c with
  | default_compare => mret (ListHistoryItem_helper_function_default_compare item_1 item_2)
  | user_compare => user item_1 item_2
  end.

Fixpoint find_from (fuel : nat) (list item : ptr) : M state ptr :=
  match fuel with
  | O => lift Diverges
  | S k =>
      if list =? NULL then mret NULL else
      i ← node list; d ← compare (Compare_Callback i) (list_item i) item;
      if d : bool then find_from k (next i) item else mret list
  end.
Definition ListHistoryItem_member_function_find (list item : ptr) : M state ptr :=
  if (list =? NULL) || (item =? NULL) then mret NULL else
  fuel ← node_fuel; find_from fuel list item.

(** [while(list->next && list->Compare_Callback(list->next->list_item, item))
    list = list->next;] *)
Fixpoint peek (fuel : nat) (list item : ptr) : M state ptr :=
  match fuel with
  | O => lift Diverges
  | S k =>
      i ← node list;
      if next i =? NULL then mret list else
      n ← node (next i); d ← compare (Compare_Callback i) (list_item n) item;
      if d : bool then peek k (next i) item else mret list
  end.
Definition ListHistoryItem_member_function_find_one_before (list item : ptr) : M state ptr :=
  if (list =? NULL) || (item =? NULL) then mret NULL else
  i ← node list; d ← compare (Compare_Callback i) (list_item i) item;
  if negb d then mret NULL else
  fuel ← node_fuel; list ← peek fuel list item; i ← node list;
  mret (if next i =? NULL then NULL else list).

(** [list]: the value behind the double pointer; the result is its new value. *)
Definition delListHistoryItem (list : option ptr) : M state (option ptr) :=
  match list with
  | None => mret None
  | Some p =>
      if p =? NULL then mret list else
      i ← node p;
      when (Remove_Callback i) (emit (EvFree (list_item i)));;
      release (A := ListHistoryItem) p;; mret (Some (next i))
  end.
Fixpoint free_from (fuel : nat) (p : ptr) : M state ptr :=
  match fuel with
  | O => lift Diverges
  | S k => if p =? NULL then mret p else
           r ← delListHistoryItem (Some p); free_from k (default NULL r)
  end.
Definition ListHistoryItem_free_all (item : option ptr) : M state (option ptr) :=
  match item with
  | None => mret None
  | Some p => fuel ← node_fuel; r ← free_from fuel p; mret (Some r)
  end.
Definition ListHistoryItem_member_function_remove (list : option ptr) (item : ptr)
    : M state (Z * option ptr) :=
  match list with
  | None => mret (-1, None)
  | Some p =>
      if (p =? NULL) || (item =? NULL) then mret (-1, list) else
      i ← node p; d ← compare (Compare_Callback i) (list_item i) item;
      if negb d then r ← delListHistoryItem list; mret (0, r) else
      fuel ← node_fuel; t ← peek fuel p item; i ← node t;
      if next i =? NULL then mret (1, list) else
      r ← delListHistoryItem (Some (next i));
      update (A := ListHistoryItem) t (set_next (default NULL r));; mret (0, list)
  end.

(** [while(list_it->next) list_it = list_it->next;] *)
Fixpoint walk_end (fuel : nat) (list : ptr) : M state ptr :=
  match fuel with
  | O => lift Diverges
  | S k => i ← node list; if next i =? NULL then mret list else walk_end k (next i)
  end.
(** [k]: what [malloc] returns. *)
Definition newListHistoryItem (k : option ptr) (list_hist : option ptr) (item : ptr)
    (remove_func : bool) (compare_func : comparison) : M state (Z * option ptr) :=
  match list_hist with
  | None => mret (ALIB_BAD_ARG, None)
  | Some p =>
      match k with
      | None => mret (ALIB_MEM_ERR, list_hist)
      | Some _ =>
          t ← alloc k (mkItem item NULL remove_func compare_func);
          if negb (p =? NULL) then
            fuel ← node_fuel; e ← walk_end fuel p;
            update (A := ListHistoryItem) e (set_next t);; mret (ALIB_OK, list_hist)
          else mret (ALIB_OK, Some t)
      end
  end.

(** * [ListHistory.c] *)
Definition LIST_HISTORY_MEM_ERR : Z := ALIB_MEM_ERR.
Definition LIST_HISTORY_BAD_ARG : Z := ALIB_BAD_ARG.
Definition LIST_HISTORY_OK : Z := ALIB_OK.

(** A double pointer to a member of the history object. *)
Definition at_root {A} (f : option ptr -> M state (A * option ptr)) : M state A :=
  p ← get_root; '(a, r) ← f (Some p); set_root (default NULL r);; mret a.
Definition at_end {A} (f : option ptr -> M state (A * option ptr)) : M state A :=
  p ← get_end; '(a, r) ← f (Some p); set_end (default NULL r);; mret a.

Fixpoint calc_from (fuel : nat) (p : ptr) : M state unit :=
  match fuel with
  | O => lift Diverges
  | S k => if p =? NULL then mret tt else
           n ← get_count; set_count (u32 (n + 1));; i ← node p; calc_from k (next i)
  end.
Definition ListHistory_helper_function_calc_count : M (option state) Z :=
  on_obj INT32_MAX (
    set_count 0;; p ← get_root; fuel ← node_fuel; calc_from fuel p;; get_count).
(** [if(!hist->count) calc_count(hist); else --(hist->count);] *)
Definition decr_count : M state unit :=
  n ← get_count;
  if n =? 0 then here ListHistory_helper_function_calc_count;; mret tt else set_count (n - 1).

Definition ListHistory_member_function_remove (item : ptr) : M (option state) Z :=
  on_obj LIST_HISTORY_BAD_ARG (
    if item =? NULL then mret LIST_HISTORY_BAD_ARG else
    e ← get_end; i ← node e; d ← compare (Compare_Callback i) (list_item i) item;
    r_code ← (if negb d then
        root ← get_root;
        temp_item ← ListHistoryItem_member_function_find_one_before root (list_item i);
        t ← node temp_item;
        '(r, p) ← ListHistoryItem_member_function_remove (Some (next t)) item;
        update (A := ListHistoryItem) temp_item (set_next (default NULL p));;
        set_end temp_item;; mret r
      else
        root ← get_root; node root;;
        at_root (fun p => ListHistoryItem_member_function_remove p item));
    when (r_code =? 0) decr_count;;
    root ← get_root; e ← get_end;
    (if e =? NULL then set_root NULL else when (root =? NULL) (set_end NULL));;
    mret LIST_HISTORY_OK).
Definition ListHistory_member_function_pop_off : M (option state) unit :=
  on_obj tt (
    root ← get_root; e ← get_end;
    when (e =? root) (set_end NULL);;
    if negb (root =? NULL) then
      at_root (fun p => r ← delListHistoryItem p; mret (tt, r));; decr_count
    else mret tt).
Definition ListHistory_member_function_push_back (k : option ptr) (item : ptr)
    (remove_func : bool) (compare_func : comparison) : M (option state) Z :=
  on_obj LIST_HISTORY_BAD_ARG (
    if item =? NULL then mret LIST_HISTORY_BAD_ARG else
    r_code ← at_end (fun p => newListHistoryItem k p item remove_func compare_func);
    if negb (r_code =? 0) then mret r_code else
    root ← get_root; e ← get_end;
    (if root =? NULL then set_root e else i ← node e; set_end (next i));;
    n ← get_count; set_count (u32 (n + 1));;
    n ← get_count; m ← gets (fun s => max (hist s));
    when ((m >? 0) && (n >? m)) (here ListHistory_member_function_pop_off);;
    mret LIST_HISTORY_OK).
Definition ListHistory_member_function_move_top_to_bottom : M (option state) unit :=
  on_obj tt (
    e ← get_end; root ← get_root;
    update (A := ListHistoryItem) e (set_next root);;
    i ← node root; set_root (next i);;
    i ← node e; set_end (next i);;
    e ← get_end; update (A := ListHistoryItem) e (set_next NULL)).
Definition ListHistory_member_function_move_to_bottom (item : ptr) : M (option state) Z :=
  on_obj LIST_HISTORY_BAD_ARG (
    if item =? NULL then mret LIST_HISTORY_BAD_ARG else
    root ← get_root; node root;;
    temp_item ← ListHistoryItem_member_function_find_one_before root item;
    if temp_item =? NULL then mret 1 else
    t ← node temp_item; d ← compare (Compare_Callback t) (list_item t) item;
    (if d : bool then
       e ← get_end; update (A := ListHistoryItem) e (set_next (next t));;
       t ← node temp_item; n ← node (next t);
       update (A := ListHistoryItem) temp_item (set_next (next n));;
       i ← node e; set_end (next i)
     else here ListHistory_member_function_move_top_to_bottom);;
    mret LIST_HISTORY_OK).

(** The history object as [newListHistory] leaves it. *)
Definition new_history (max_ : Z) : ListHistory :=
  mkHistory NULL NULL 0 (if max_ =? 0 then INT32_MAX - 1 else max_).
Definition delListHistory : M (option state) unit := fun o =>
  match o with
  | None => Ok (tt, None, [])
  | Some s =>
      let free := p ← get_root;
        when (negb (p =? NULL)) (r ← ListHistoryItem_free_all (Some p); set_root (default NULL r)) in
      '(_, _, t) ← free s; Ok (tt, None, t)
  end.
End history.
