(* ===== verification/ListHistorySpec.v ===== *)
(** The history list as a bounded queue: a state whose nodes are exactly the
    chain of the queue's entries ([repr]), and the queue operations the
    functions of [ListHistory] implement on it.  The nodes are all those of the
    heap, so nothing is leaked. *)
From S2P Require Import Prelude Effects Heap ListHistory.
Open Scope Z_scope.

(** * Chains *)
Record entry := mkEntry { addr : ptr; item : ptr; rcb : bool; cmp : comparison }.
Notation addrs := (fmap addr).
Definition first (xs : list entry) (q : ptr) : ptr :=
  match xs with x :: _ => addr x | [] => q end.
Definition node_of (x : entry) (n : ptr) : ListHistoryItem := mkItem (item x) n (rcb x) (cmp x).
(** The nodes of the entries, linked to each other, the last one to [q]. *)
Fixpoint heap_of (xs : list entry) (q : ptr) : gmap Z ListHistoryItem :=
  match xs with
  | [] => ∅
  | x :: xs => <[addr x := node_of x (first xs q)]> (heap_of xs q)
  end.
Definition wf_chain (xs : list entry) : Prop := NoDup (addrs xs) /\ Forall (fun x => addr x <> NULL) xs.
Definition last_addr (xs : list entry) : ptr := default NULL (addr <$> last xs).

Lemma hist_first_app xs ys q : first (xs ++ ys) q = first xs (first ys q).
Proof. by destruct xs. Qed.
Lemma last_addr_snoc xs x : last_addr (xs ++ [x]) = addr x.
Proof. unfold last_addr. by rewrite last_snoc. Qed.
Lemma wf_chain_cons x xs : wf_chain (x :: xs) <-> addr x <> NULL /\ addr x ∉ addrs xs /\ wf_chain xs.
Proof. unfold wf_chain. rewrite fmap_cons, NoDup_cons, Forall_cons. tauto. Qed.
Lemma wf_chain_app xs ys :
  wf_chain (xs ++ ys) <-> wf_chain xs /\ wf_chain ys /\ forall a, a ∈ addrs xs -> a ∉ addrs ys.
Proof. unfold wf_chain. rewrite fmap_app, NoDup_app, Forall_app. naive_solver. Qed.
#[export] Instance wf_chain_perm : Proper ((≡ₚ) ==> iff) wf_chain.
Proof. intros xs ys Hp. unfold wf_chain. by rewrite Hp. Qed.
Lemma heap_of_dom xs q a : is_Some (heap_of xs q !! a) <-> a ∈ addrs xs.
Proof.
  induction xs as [|x xs IH]; cbn [heap_of fmap list_fmap].
  - rewrite lookup_empty, elem_of_nil. split; [by intros []|done].
  - rewrite lookup_insert_is_Some, elem_of_cons, IH. destruct (decide (addr x = a)); naive_solver.
Qed.
Lemma heap_of_none xs q a : a ∉ addrs xs -> heap_of xs q !! a = None.
Proof. rewrite <- (heap_of_dom xs q a). apply eq_None_not_Some. Qed.
Lemma heap_of_app xs ys q : wf_chain (xs ++ ys) ->
  heap_of (xs ++ ys) q = heap_of xs (first ys q) ∪ heap_of ys q.
Proof.
  induction xs as [|x xs IH]; intros Hw; cbn [heap_of app]; [by rewrite map_empty_union|].
  apply wf_chain_cons in Hw as (? & ? & Hw). by rewrite IH, hist_first_app, <- insert_union_l by done.
Qed.
(** The node in the middle of a chain. *)
Lemma heap_of_lookup xs x ys q : wf_chain (xs ++ x :: ys) ->
  heap_of (xs ++ x :: ys) q !! addr x = Some (node_of x (first ys q)).
Proof.
  induction xs as [|y xs IH]; intros Hw; cbn [heap_of app] in *; [apply lookup_insert_eq|].
  apply wf_chain_cons in Hw as (? & Hin & Hw). rewrite lookup_insert_ne; [by apply IH|].
  intros E. apply Hin. rewrite E, fmap_app, fmap_cons. set_solver.
Qed.
(** Linking the last node to something else. *)
Lemma heap_of_relink xs x q r : wf_chain (xs ++ [x]) ->
  <[addr x := node_of x r]> (heap_of (xs ++ [x]) q) = heap_of (xs ++ [x]) r.
Proof.
  induction xs as [|y xs IH]; intros Hw; cbn [heap_of app] in *; [apply insert_insert_eq|].
  apply wf_chain_cons in Hw as (? & Hin & Hw). rewrite insert_insert_ne.
  - rewrite IH by done. f_equal. f_equal. by rewrite !hist_first_app.
  - intros E. apply Hin. rewrite <- E, fmap_app. set_solver.
Qed.
Lemma heap_of_delete_head x xs q : wf_chain (x :: xs) ->
  delete (addr x) (heap_of (x :: xs) q) = heap_of xs q.
Proof.
  intros (? & Hin & _)%wf_chain_cons. cbn [heap_of].
  by rewrite delete_insert_id by (by apply heap_of_none).
Qed.
(** Appending a node to a chain. *)
Lemma heap_of_snoc xs x q : wf_chain (xs ++ [x]) ->
  heap_of (xs ++ [x]) q = <[addr x := node_of x q]> (heap_of xs (addr x)).
Proof.
  intros Hw. rewrite heap_of_app by done. cbn [heap_of first].
  apply wf_chain_app in Hw as (_ & _ & Hd). rewrite insert_empty, map_union_comm.
  - by rewrite insert_union_singleton_l.
  - apply map_disjoint_singleton_r, heap_of_none. intros Hin. apply (Hd _ Hin). set_solver.
Qed.
(** Taking a node out of a chain, behind the node [a]. *)
Lemma heap_of_unlink A a x B q : wf_chain ((A ++ [a]) ++ x :: B) ->
  <[addr a := node_of a (first B q)]> (delete (addr x) (heap_of ((A ++ [a]) ++ x :: B) q))
  = heap_of ((A ++ [a]) ++ B) q.
Proof.
  induction A as [|y A IH]; intros Hw; cbn [heap_of app] in *;
    apply wf_chain_cons in Hw as (? & Hin & Hw); cbn [fmap list_fmap] in Hin.
  - rewrite delete_insert_ne by set_solver. rewrite insert_insert_eq.
    cbn [first heap_of]. apply wf_chain_cons in Hw as (? & Hx & _).
    by rewrite delete_insert_id by (by apply heap_of_none).
  - assert (addr y <> addr x /\ addr y <> addr a) as [??].
    { rewrite fmap_app, fmap_app, fmap_cons in Hin. set_solver. }
    rewrite delete_insert_ne, insert_insert_ne, IH by done. by rewrite !hist_first_app.
Qed.
Lemma heap_of_size xs q : wf_chain xs -> size (heap_of xs q) = length xs.
Proof.
  induction xs as [|x xs IH]; intros Hw; cbn [heap_of length]; [apply map_size_empty|].
  apply wf_chain_cons in Hw as (? & Hin & Hw).
  by rewrite map_size_insert_None, IH by (done || by apply heap_of_none).
Qed.

(** Reads or writes a member of the history object. *)
Ltac bget := etransitivity; [apply bind_gets|].
Ltac bset := etransitivity; [apply bind_modify|].

(** * The state that represents a queue *)
Section spec.
Implicit Types (s : state) (xs ys : list entry) (m : Z) (nums : gmap Z Z).

Definition st m nums xs : state :=
  mkState (heap_of xs NULL)
    (mkHistory (first xs NULL) (last_addr xs) (Z.of_nat (length xs)) m) nums.
Definition freed (x : entry) : list event := if rcb x then [EvFree (item x)] else [].

Lemma addr_null xs x ys : wf_chain (xs ++ x :: ys) -> addr x <> NULL.
Proof. intros (_ & (? & _)%wf_chain_cons & _)%wf_chain_app. done. Qed.
Lemma bind_node_at {B} p i s (k : ListHistoryItem -> M state B) :
  p <> NULL -> nodes s !! p = Some i -> mbind k (node p) s = k i s.
Proof. intros. by apply bind_load. Qed.
Lemma bind_set_at {B} p i s n (k : unit -> M state B) :
  p <> NULL -> nodes s !! p = Some i ->
  mbind k (update (A := ListHistoryItem) p (set_next n)) s
    = k tt (put (<[p := set_next n i]> (nodes s)) s).
Proof. intros Hp Hi. exact (bind_update (A := ListHistoryItem) p (set_next n) k s i Hp Hi). Qed.
Lemma bind_node {B} xs x ys q s (k : ListHistoryItem -> M state B) :
  wf_chain (xs ++ x :: ys) -> nodes s = heap_of (xs ++ x :: ys) q ->
  mbind k (node (addr x)) s = k (node_of x (first ys q)) s.
Proof.
  intros Hw Hs. apply bind_load; [by eapply addr_null|]. cbn. rewrite Hs. by apply heap_of_lookup.
Qed.
Lemma bind_set_next {B} xs x ys q s p (k : unit -> M state B) :
  wf_chain (xs ++ x :: ys) -> nodes s = heap_of (xs ++ x :: ys) q ->
  mbind k (update (A := ListHistoryItem) (addr x) (set_next p)) s
    = k tt (put (<[addr x := node_of x p]> (heap_of (xs ++ x :: ys) q)) s).
Proof.
  intros Hw Hs. erewrite bind_update; [|by eapply addr_null|cbn; rewrite Hs; by apply heap_of_lookup].
  cbn. by rewrite Hs.
Qed.
Lemma hist_first_null xs q : wf_chain xs -> (first xs q =? NULL) = match xs with [] => q =? NULL | _ => false end.
Proof. destruct xs; [done|]. intros (? & _)%wf_chain_cons. by apply Z.eqb_neq. Qed.
Lemma first_last x xs : wf_chain (x :: xs) ->
  (last_addr (x :: xs) =? addr x) = match xs with [] => true | _ => false end.
Proof.
  intros Hw. destruct xs as [|y xs]; [apply Z.eqb_refl|]. apply Z.eqb_neq. intros E.
  apply wf_chain_cons in Hw as (_ & Hin & _). apply Hin. rewrite <- E.
  destruct (exists_last (l := y :: xs)) as (zs & z & ->); [done|].
  replace (x :: zs ++ [z]) with ((x :: zs) ++ [z]) by done.
  rewrite last_addr_snoc, fmap_app. set_solver.
Qed.

(** ** Deleting a node of a chain *)
Lemma del_mid xs x ys q s :
  wf_chain (xs ++ x :: ys) -> nodes s = heap_of (xs ++ x :: ys) q ->
  delListHistoryItem (Some (addr x)) s
    = Ok (Some (first ys q), put (delete (addr x) (nodes s)) s, freed x).
Proof.
  intros Hw Hs. pose proof (addr_null _ _ _ Hw) as Hn. unfold delListHistoryItem.
  rewrite (proj2 (Z.eqb_neq _ _)), (bind_node xs x ys q s _ Hw Hs) by done.
  cbn [node_of next Remove_Callback list_item].
  assert (release (A := ListHistoryItem) (addr x) s = Ok (tt, put (delete (addr x) (nodes s)) s, [])) as Hr.
  { erewrite release_ok; [done|done|cbn; rewrite Hs; by apply (heap_of_lookup xs x ys)]. }
  unfold freed. destruct (rcb x).
  - eapply bind_loud; [done|]. by rewrite (bind_quiet _ _ _ _ _ Hr).
  - unfold when. by rewrite bind_mret, (bind_quiet _ _ _ _ _ Hr).
Qed.
Lemma del_ok x xs q s :
  wf_chain (x :: xs) -> nodes s = heap_of (x :: xs) q ->
  delListHistoryItem (Some (addr x)) s = Ok (Some (first xs q), put (heap_of xs q) s, freed x).
Proof. intros Hw Hs. by rewrite (del_mid [] x xs q s Hw Hs), Hs, heap_of_delete_head. Qed.

Lemma hist_decr_count_ok s : 0 < count (hist s) ->
  decr_count s = Ok (tt, set_hist (mkHistory (list_root (hist s)) (list_end (hist s))
    (count (hist s) - 1) (max (hist s))) s, []).
Proof.
  intros Hc. unfold decr_count, get_count. rewrite bind_gets.
  by rewrite (proj2 (Z.eqb_neq _ _)) by lia.
Qed.

(** ** The oldest entry is removed *)
Lemma pop_off_ok m nums xs : wf_chain xs ->
  ListHistory_member_function_pop_off (Some (st m nums xs))
    = Ok (tt, Some (st m nums (tail xs)), match xs with x :: _ => freed x | [] => [] end).
Proof.
  intros Hw. apply on_obj_Ok. unfold get_root, get_end. rewrite !bind_gets. cbn [hist st list_root list_end].
  destruct xs as [|x xs]; [done|]. cbn [first]. rewrite first_last by done.
  assert (forall e, (if negb (addr x =? NULL) then
      at_root (fun p => r ← delListHistoryItem p; mret (tt, r));; decr_count else mret tt)
      (mkState (heap_of (x :: xs) NULL) (mkHistory (addr x) e (Z.of_nat (S (length xs))) m) nums)
    = Ok (tt, mkState (heap_of xs NULL) (mkHistory (first xs NULL) e (Z.of_nat (length xs)) m) nums,
          freed x)) as Hdel.
  { intros e. rewrite (proj2 (Z.eqb_neq _ _)) by apply (addr_null [] _ _ Hw). cbn [negb].
    assert (forall s, nodes s = heap_of (x :: xs) NULL -> list_root (hist s) = addr x ->
      at_root (fun p => r ← delListHistoryItem p; mret (tt, r)) s
      = Ok (tt, set_hist (mkHistory (first xs NULL) (list_end (hist s)) (count (hist s)) (max (hist s)))
          (put (heap_of xs NULL) s), freed x)) as E.
    { intros s Hs Hr. unfold at_root, get_root. rewrite bind_gets, Hr.
      eapply bind_loud; [rewrite (bind_Ok _ _ _ _ _ _ (del_ok x xs NULL s Hw Hs)); cbn; by rewrite app_nil_r|done]. }
    eapply bind_loud; [by apply E|]. rewrite hist_decr_count_ok by (cbn; lia).
    unfold set_hist. cbn. repeat f_equal. lia. }
  destruct xs as [|y xs].
  - unfold when, set_end, on_hist. rewrite bind_modify. exact (Hdel NULL).
  - unfold when. rewrite bind_mret. exact (Hdel (last_addr (y :: xs))).
Qed.

(** ** An entry is added at the end *)
Lemma walk_end_last {B} xs x s fuel (k : ptr -> M state B) :
  wf_chain (xs ++ [x]) -> nodes s = heap_of (xs ++ [x]) NULL -> (0 < fuel)%nat ->
  mbind k (walk_end fuel (addr x)) s = k (addr x) s.
Proof.
  intros Hw Hs Hf. destruct fuel as [|fuel]; [lia|]. apply bind_quiet. cbn [walk_end].
  by rewrite (bind_node xs x [] NULL s _ Hw Hs).
Qed.
Lemma heap_of_push xs l x : wf_chain ((xs ++ [l]) ++ [x]) ->
  <[addr l := node_of l (addr x)]> (<[addr x := node_of x NULL]> (heap_of (xs ++ [l]) NULL))
  = heap_of ((xs ++ [l]) ++ [x]) NULL.
Proof.
  intros Hw. pose proof (proj1 (wf_chain_app _ _) Hw) as (Hw' & _ & Hd).
  rewrite insert_insert_ne.
  - by rewrite heap_of_relink, <- heap_of_snoc by done.
  - intros E. eapply (Hd (addr l)); [rewrite fmap_app; set_solver|rewrite E; set_solver].
Qed.
Lemma new_item_next ys l x it r c s :
  wf_chain ((ys ++ [l]) ++ [x]) -> nodes s = heap_of (ys ++ [l]) NULL -> x = mkEntry (addr x) it r c ->
  newListHistoryItem (Some (addr x)) (Some (addr l)) it r c s
    = Ok ((ALIB_OK, Some (addr l)), put (heap_of ((ys ++ [l]) ++ [x]) NULL) s, []).
Proof.
  intros Hw Hs Hx. pose proof (proj1 (wf_chain_app _ _) Hw) as (Hw' & _ & Hd).
  unfold newListHistoryItem. rewrite bind_alloc. cbn [objs nodes_store]. rewrite Hs.
  rewrite (proj2 (Z.eqb_neq _ _)) by (by eapply addr_null). cbn [negb].
  unfold node_fuel, walk_fuel. rewrite bind_gets.
  set (s1 := put _ s). set (fuel := Datatypes.S _).
  assert (nodes s1 = <[addr x := node_of x NULL]> (heap_of (ys ++ [l]) NULL)) as Hs1 by (by rewrite Hx).
  assert (addr l <> addr x) as Hlx by (intros E; eapply (Hd (addr l)); [rewrite fmap_app; set_solver|rewrite E; set_solver]).
  assert (nodes s1 !! addr l = Some (node_of l NULL)) as Hl.
  { rewrite Hs1, lookup_insert_ne by done. by apply (heap_of_lookup ys l []). }
  assert (addr l <> NULL) as Hln by (by eapply addr_null).
  rewrite (bind_quiet (walk_end fuel (addr l)) _ s1 (addr l) s1); cycle 1.
  { unfold fuel. cbn [walk_end]. by rewrite (bind_node_at _ _ s1 _ Hln Hl). }
  rewrite (bind_set_at _ _ s1 _ _ Hln Hl), Hs1.
  change (set_next (addr x) (node_of l NULL)) with (node_of l (addr x)).
  by rewrite heap_of_push.
Qed.
(** The oldest entry goes when there are too many. *)
Definition trim m xs : list entry * list event :=
  match xs with
  | x :: xs' => if (m >? 0) && (Z.of_nat (length xs) >? m) then (xs', freed x) else (xs, [])
  | [] => ([], [])
  end.
Lemma trim_ok m nums xs : wf_chain xs ->
  (n ← get_count; m ← gets (fun s => max (hist s));
   when ((m >? 0) && (n >? m)) (here ListHistory_member_function_pop_off);;
   mret LIST_HISTORY_OK) (st m nums xs)
  = Ok (LIST_HISTORY_OK, st m nums (fst (trim m xs)), snd (trim m xs)).
Proof.
  intros Hw. unfold get_count. rewrite !bind_gets. cbn [hist st count max]. unfold when, trim.
  destruct xs as [|x xs].
  { cbn [length]. destruct (Z.gtb_spec m 0), (Z.gtb_spec (Z.of_nat 0) m); (lia || done). }
  destruct (_ && _); [|done]. eapply bind_loud; [apply here_Some, pop_off_ok, Hw|done].
Qed.

Lemma hist_push_back_ok m nums xs k it r c :
  let x := mkEntry k it r c in
  wf_chain (xs ++ [x]) -> it <> NULL -> Z.of_nat (length xs) + 1 < 2 ^ 32 ->
  ListHistory_member_function_push_back (Some k) it r c (Some (st m nums xs))
    = Ok (LIST_HISTORY_OK, Some (st m nums (fst (trim m (xs ++ [x])))), snd (trim m (xs ++ [x]))).
Proof.
  intros x Hw Hit Hlen. apply on_obj_Ok. rewrite (proj2 (Z.eqb_neq _ _)) by done.
  set (s1 := mkState (heap_of (xs ++ [x]) NULL) (mkHistory (first xs NULL)
    (match xs with [] => k | _ => last_addr xs end) (Z.of_nat (length xs)) m) nums).
  rewrite (bind_quiet _ _ _ ALIB_OK s1); cycle 1.
  { unfold at_end, get_end. rewrite bind_gets. cbn [hist st list_end].
    destruct (decide (xs = [])) as [->|Hne].
    { done. }
    destruct (exists_last Hne) as (ys & l & ->). rewrite last_addr_snoc.
    rewrite (bind_quiet _ _ _ _ _ (new_item_next ys l x it r c (st m nums (ys ++ [l])) Hw eq_refl eq_refl)).
    unfold s1. rewrite last_addr_snoc. by destruct ys. }
  cbn [negb Z.eqb ALIB_OK]. unfold get_root, get_end. rewrite !bind_gets. cbn [hist s1 list_root list_end].
  pose proof (proj1 (wf_chain_app _ _) Hw) as (Hw' & _ & _).
  rewrite (bind_quiet _ _ s1 tt (mkState (heap_of (xs ++ [x]) NULL) (mkHistory (first (xs ++ [x]) NULL)
    k (Z.of_nat (length xs)) m) nums)); cycle 1.
  { rewrite hist_first_null, hist_first_app by done. destruct (decide (xs = [])) as [->|Hne]; [done|].
    destruct (exists_last Hne) as (ys & l & ->).
    assert (forall A (a b : A), match ys ++ [l] with [] => a | _ => b end = b) as Hm by (by destruct ys).
    rewrite !Hm. unfold s1. rewrite Hm, last_addr_snoc. rewrite <- app_assoc in Hw.
    rewrite (bind_node ys l [x] NULL _ _ Hw) by (cbn; by rewrite <- app_assoc).
    cbn. by destruct ys. }
  bget. bset.
  rewrite <- trim_ok with (nums := nums) by done.
  unfold set_hist, st. cbn [hist nodes numbers count list_root list_end max].
  rewrite last_addr_snoc, length_app. unfold u32. rewrite Z.mod_small by lia.
  do 5 f_equal. cbn. lia.
Qed.

(** ** The oldest entry becomes the newest *)
Lemma heap_of_rotate x xs : wf_chain (x :: xs) ->
  <[addr x := node_of x NULL]> (heap_of (x :: xs) (addr x)) = heap_of (xs ++ [x]) NULL.
Proof.
  intros Hw. cbn [heap_of]. rewrite insert_insert_eq. symmetry. apply heap_of_snoc.
  by rewrite Permutation_app_comm.
Qed.
Lemma rotate_ok m nums x xs : wf_chain (x :: xs) ->
  ListHistory_member_function_move_top_to_bottom (Some (st m nums (x :: xs)))
    = Ok (tt, Some (st m nums (xs ++ [x])), []).
Proof.
  intros Hw. apply on_obj_Ok. unfold get_end, get_root. rewrite !bind_gets. cbn [hist st list_end list_root].
  pose proof (addr_null [] _ _ Hw) as Hx. destruct (decide (xs = [])) as [->|Hne].
  - cbn [last_addr first]. change (last_addr [x]) with (addr x).
    rewrite (bind_set_at _ (node_of x NULL)) by (done || apply lookup_insert_eq). cbn.
    rewrite (bind_node_at _ (node_of x (addr x))) by (done || apply lookup_insert_eq).
    bset.
    rewrite (bind_node_at _ (node_of x (addr x))) by (done || apply lookup_insert_eq).
    bset. rewrite bind_gets. cbn.
    erewrite update_ok; [|done|apply lookup_insert_eq]. cbn. unfold st. cbn.
    by rewrite !insert_insert_eq.
  - destruct (exists_last Hne) as (ys & l & ->). cbn [first].
    replace (x :: ys ++ [l]) with ((x :: ys) ++ [l]) in * by done. rewrite last_addr_snoc.
    rewrite (bind_set_next (x :: ys) l [] NULL), heap_of_relink by done.
    cbn [put nodes_store hist st numbers].
    rewrite (bind_node [] x (ys ++ [l]) (addr x)) by done. cbn [node_of next].
    bset.
    rewrite (bind_node (x :: ys) l [] (addr x)) by done. cbn [node_of next].
    bset. rewrite bind_gets. cbn [hist set_hist list_end first].
    erewrite update_ok; [|done|apply (heap_of_lookup [] x (ys ++ [l]) (addr x) Hw)].
    cbn [objs nodes_store put set_hist nodes numbers hist list_root list_end count max].
    change (set_next NULL (node_of x _)) with (node_of x NULL).
    change (((x :: ys) ++ [l])) with (x :: (ys ++ [l])). rewrite heap_of_rotate by done.
    unfold st. rewrite last_addr_snoc.
    replace (length ((ys ++ [l]) ++ [x])) with (length (x :: ys ++ [l])); [by rewrite !hist_first_app|].
    rewrite (length_app (ys ++ [l])), Nat.add_comm. done.
Qed.

Variable user : ptr -> ptr -> M state bool.
(** The client's comparison does not change anything; [differs] is its answer. *)
Variable differs : ptr -> ptr -> bool.
Hypothesis user_pure : forall a b s, user a b s = Ok (differs a b, s, []).
Definition dif (c : comparison) (a b : ptr) : bool :=
  match c with default_compare => negb (a =? b) | user_compare => differs a b end.

Lemma compare_ok c a b s : compare user c a b s = Ok (dif c a b, s, []).
Proof. destruct c; [done|apply user_pure]. Qed.
Lemma bind_compare {B} c a b s (k : bool -> M state B) :
  mbind k (compare user c a b) s = k (dif c a b) s.
Proof. apply bind_quiet, compare_ok. Qed.
(** ** Entries found by their item

    All entries have the same comparison function, which tells whether two
    items have the same key, and no two entries have the same key. *)
Section keys.
Variable c : comparison.
Variable key : ptr -> Z.
Hypothesis dif_key : forall a b, dif c a b = negb (key a =? key b).
Definition key_of (x : entry) : Z := key (item x).
Definition uniform xs : Prop := Forall (fun x => cmp x = c) xs /\ NoDup (key_of <$> xs).
(** The entries without those of the item's key. *)
Definition others (it : ptr) xs : list entry := filter (fun x => key_of x <> key it) xs.

Lemma bind_dif {B} x it s (k : bool -> M state B) : cmp x = c ->
  forall a, mbind k (compare user (cmp x) a it) s = k (negb (key a =? key it)) s.
Proof. intros -> a. by rewrite bind_compare, dif_key. Qed.
Lemma uniform_app xs ys : uniform (xs ++ ys) -> uniform xs /\ uniform ys /\
  (forall x y, x ∈ xs -> y ∈ ys -> key_of x <> key_of y).
Proof.
  unfold uniform. rewrite Forall_app, fmap_app, NoDup_app. intros ([??] & ? & Hd & ?).
  split; [done|split; [done|]]. intros x y Hx Hy E. apply (Hd (key_of x)).
  - by apply list_elem_of_fmap_2.
  - rewrite E. by apply list_elem_of_fmap_2.
Qed.
Lemma uniform_cmp xs x ys : uniform (xs ++ x :: ys) -> cmp x = c.
Proof. intros [Hf _]. apply Forall_app in Hf as [_ Hf]. by inversion Hf. Qed.
(** Either no entry has the item's key, or exactly one has. *)
Lemma split_key it xs : uniform xs ->
  (others it xs = xs /\ Forall (fun x => key_of x <> key it) xs) \/
  exists A x B, xs = A ++ x :: B /\ key_of x = key it /\ others it xs = A ++ B /\
    Forall (fun y => key_of y <> key it) (A ++ B).
Proof.
  induction xs as [|x xs IH]; intros Hu; [by left|].
  destruct (uniform_app [x] xs Hu) as (_ & Hu' & Hd). unfold others in *. rewrite filter_cons.
  destruct (decide (key_of x = key it)) as [E|E].
  - right. exists [], x, xs. rewrite decide_False by (by intros []).
    assert (Forall (fun y => key_of y <> key it) xs) as Hall.
    { apply Forall_forall. intros y Hy Ey. apply (Hd x y); [set_solver|done|congruence]. }
    cbn [app]. split; [done|]. split; [done|]. split; [|done].
    clear -Hall. induction Hall as [|y xs Hy _ IH]; [done|]. by rewrite filter_cons_True, IH.
  - rewrite decide_True by done. destruct (IH Hu') as [[-> ?]|(A & y & B & -> & ? & -> & ?)].
    + left. split; [done|by constructor].
    + right. exists (x :: A), y, B. repeat split; try done. by constructor.
Qed.

(** The node before the first one with the item's key, or the last node. *)
Lemma peek_ok fuel it y xs A B s :
  wf_chain (A ++ y :: xs ++ B) -> nodes s = heap_of (A ++ y :: xs ++ B) NULL ->
  uniform (A ++ y :: xs ++ B) -> Forall (fun x => key_of x <> key it) xs ->
  match B with b :: _ => key_of b = key it | [] => True end -> (length xs < fuel)%nat ->
  peek user fuel (addr y) it s = Ok (last_addr (y :: xs), s, []).
Proof.
  revert A y fuel. induction xs as [|x xs IH]; intros A y fuel Hw Hs Hu Hxs HB Hf;
    (destruct fuel as [|fuel]; [cbn in Hf; lia|]); cbn [peek app] in *; rewrite (bind_node _ _ _ _ _ _ Hw Hs);
    cbn [node_of next Compare_Callback].
  - destruct B as [|b B]; [done|]. cbn [first].
    rewrite (cons_middle y A (b :: B)), (app_assoc A [y]) in Hw, Hs.
    rewrite (proj2 (Z.eqb_neq _ _)) by (by eapply addr_null).
    rewrite (bind_node _ _ _ _ _ _ Hw Hs). cbn [node_of list_item].
    rewrite bind_dif by (by eapply uniform_cmp). unfold key_of in HB.
    by rewrite HB, Z.eqb_refl.
  - cbn [first]. rewrite (cons_middle y A), (app_assoc A [y]) in Hw, Hs.
    rewrite (proj2 (Z.eqb_neq _ _)) by (by eapply addr_null).
    rewrite (bind_node _ _ _ _ _ _ Hw Hs). cbn [node_of list_item].
    rewrite bind_dif by (by eapply uniform_cmp). apply Forall_cons in Hxs as [Hx Hxs].
    unfold key_of in Hx. rewrite (proj2 (Z.eqb_neq _ _) Hx). cbn [negb].
    rewrite (cons_middle y A), (app_assoc A [y]) in Hu.
    rewrite (IH (A ++ [y]) x fuel Hw Hs Hu Hxs HB) by (cbn in Hf; lia). done.
Qed.

Lemma fuel_enough xs s : wf_chain xs -> nodes s = heap_of xs NULL ->
  walk_fuel (A := ListHistoryItem) s = Datatypes.S (length xs).
Proof. intros Hw Hs. unfold walk_fuel. cbn [objs nodes_store]. by rewrite Hs, heap_of_size. Qed.

(** [find_one_before] an entry that is not the first one. *)
Lemma find_one_before_ok A a x B it s :
  wf_chain ((A ++ [a]) ++ x :: B) -> nodes s = heap_of ((A ++ [a]) ++ x :: B) NULL ->
  uniform ((A ++ [a]) ++ x :: B) -> key_of x = key it -> it <> NULL ->
  ListHistoryItem_member_function_find_one_before user (first ((A ++ [a]) ++ x :: B) NULL) it s
    = Ok (addr a, s, []).
Proof.
  intros Hw Hs Hu Hx Hit. destruct (uniform_app _ _ Hu) as (_ & _ & Hd).
  assert (Forall (fun y => key_of y <> key it) (A ++ [a])) as Hall.
  { apply Forall_forall. intros y Hy Ey. apply (Hd y x Hy); [set_solver|congruence]. }
  pose proof (fuel_enough _ _ Hw Hs) as Hf. unfold ListHistoryItem_member_function_find_one_before.
  destruct (A ++ [a]) as [|b A'] eqn:EA; [by destruct A|]. cbn [first app].
  pose proof (addr_null [] b (A' ++ x :: B) Hw) as Hb.
  rewrite (proj2 (Z.eqb_neq _ _) Hb), (proj2 (Z.eqb_neq _ _) Hit). cbn [orb].
  rewrite (bind_node [] b (A' ++ x :: B) NULL _ _ Hw Hs). cbn [node_of list_item Compare_Callback].
  rewrite bind_dif by (eapply (uniform_cmp []); exact Hu).
  apply Forall_cons in Hall as [Hb' Hall]. unfold key_of in Hb'.
  rewrite (proj2 (Z.eqb_neq _ _) Hb'). cbn [negb]. unfold node_fuel. rewrite bind_gets, Hf.
  assert (last_addr (b :: A') = addr a) as Hl by (by rewrite <- EA, last_addr_snoc).
  rewrite (bind_quiet _ _ _ _ _ (peek_ok (S (length (b :: A' ++ x :: B))) it b A' [] (x :: B) s
    Hw Hs Hu Hall Hx ltac:(cbn; rewrite length_app; lia))), Hl.
  replace (b :: A' ++ x :: B) with ((b :: A') ++ x :: B) in Hw, Hs by done.
  rewrite <- EA, <- app_assoc in Hw, Hs.
  rewrite (bind_node A a (x :: B) NULL _ _ Hw Hs). cbn [node_of next first].
  rewrite (proj2 (Z.eqb_neq _ _)); [done|]. rewrite app_assoc in Hw. by eapply addr_null.
Qed.

(** ** [ListHistoryItem_member_function_remove] on a whole list *)
Lemma item_remove_head x B it s :
  wf_chain (x :: B) -> nodes s = heap_of (x :: B) NULL -> uniform (x :: B) ->
  key_of x = key it -> it <> NULL ->
  ListHistoryItem_member_function_remove user (Some (addr x)) it s
    = Ok ((0, Some (first B NULL)), put (heap_of B NULL) s, freed x).
Proof.
  intros Hw Hs Hu Hx Hit. unfold ListHistoryItem_member_function_remove.
  rewrite (proj2 (Z.eqb_neq _ _) (addr_null [] _ _ Hw)), (proj2 (Z.eqb_neq _ _) Hit). cbn [orb].
  rewrite (bind_node [] x B NULL _ _ Hw Hs). cbn [node_of list_item Compare_Callback].
  rewrite bind_dif by (eapply (uniform_cmp []); exact Hu). unfold key_of in Hx.
  rewrite Hx, Z.eqb_refl. cbn [negb]. eapply bind_loud; [by apply del_ok|done].
Qed.
Lemma item_remove_later A a x B it s :
  wf_chain ((A ++ [a]) ++ x :: B) -> nodes s = heap_of ((A ++ [a]) ++ x :: B) NULL ->
  uniform ((A ++ [a]) ++ x :: B) -> key_of x = key it -> it <> NULL ->
  let root := Some (first ((A ++ [a]) ++ x :: B) NULL) in
  ListHistoryItem_member_function_remove user root it s
    = Ok ((0, root), put (heap_of ((A ++ [a]) ++ B) NULL) s, freed x).
Proof.
  intros Hw Hs Hu Hx Hit root. unfold root. destruct (uniform_app _ _ Hu) as (_ & _ & Hd).
  assert (Forall (fun y => key_of y <> key it) (A ++ [a])) as Hall.
  { apply Forall_forall. intros y Hy Ey. apply (Hd y x Hy); [set_solver|congruence]. }
  pose proof (fuel_enough _ _ Hw Hs) as Hf. unfold ListHistoryItem_member_function_remove.
  assert (exists b A', A ++ [a] = b :: A') as (b & A' & EA) by (destruct A; eauto).
  assert (last_addr (b :: A') = addr a) as Hl by (by rewrite <- EA, last_addr_snoc).
  pose proof Hw as Hw0. pose proof Hs as Hs0. rewrite EA in Hw0, Hs0, Hu, Hall, Hf |- *. cbn [first app] in *.
  rewrite (proj2 (Z.eqb_neq _ _) (addr_null [] _ _ Hw0)), (proj2 (Z.eqb_neq _ _) Hit). cbn [orb].
  rewrite (bind_node [] b (A' ++ x :: B) NULL _ _ Hw0 Hs0). cbn [node_of list_item Compare_Callback].
  rewrite bind_dif by (eapply (uniform_cmp []); exact Hu).
  apply Forall_cons in Hall as [Hb' Hall]. unfold key_of in Hb'.
  rewrite (proj2 (Z.eqb_neq _ _) Hb'). cbn [negb]. unfold node_fuel. rewrite bind_gets, Hf.
  rewrite (bind_quiet _ _ _ _ _ (peek_ok (S (length (b :: A' ++ x :: B))) it b A' [] (x :: B) s
    Hw0 Hs0 Hu Hall Hx ltac:(cbn; rewrite length_app; lia))), Hl.
  pose proof Hw as Hw1. pose proof Hs as Hs1. rewrite <- app_assoc in Hw1, Hs1.
  rewrite (bind_node A a (x :: B) NULL _ _ Hw1 Hs1). cbn [node_of next first].
  rewrite (proj2 (Z.eqb_neq _ _)) by (by eapply addr_null).
  eapply bind_loud; [by eapply (del_mid (A ++ [a]))|]. cbn [default].
  assert (addr a <> addr x) as Hax.
  { apply wf_chain_app in Hw as (_ & _ & Hdis). intros E. apply (Hdis (addr a)).
    - rewrite fmap_app. set_solver.
    - rewrite E. set_solver. }
  rewrite (bind_set_at _ (node_of a (addr x))).
  - cbn. rewrite Hs. change (set_next _ (node_of a _)) with (node_of a (first B NULL)).
    rewrite heap_of_unlink by done. by rewrite EA.
  - by eapply addr_null.
  - cbn. rewrite Hs, lookup_delete_ne by done. rewrite <- app_assoc. by apply (heap_of_lookup A a (x :: B)).
Qed.
Lemma item_remove_none a A it s :
  wf_chain (a :: A) -> nodes s = heap_of (a :: A) NULL -> uniform (a :: A) ->
  Forall (fun y => key_of y <> key it) (a :: A) -> it <> NULL ->
  ListHistoryItem_member_function_remove user (Some (addr a)) it s = Ok ((1, Some (addr a)), s, []).
Proof.
  intros Hw Hs Hu Hall Hit. pose proof (fuel_enough _ _ Hw Hs) as Hf.
  unfold ListHistoryItem_member_function_remove.
  rewrite (proj2 (Z.eqb_neq _ _) (addr_null [] _ _ Hw)), (proj2 (Z.eqb_neq _ _) Hit). cbn [orb].
  rewrite (bind_node [] a A NULL _ _ Hw Hs). cbn [node_of list_item Compare_Callback].
  rewrite bind_dif by (eapply (uniform_cmp []); exact Hu).
  apply Forall_cons in Hall as [Hb' Hall]. unfold key_of in Hb'.
  rewrite (proj2 (Z.eqb_neq _ _) Hb'). cbn [negb]. unfold node_fuel. rewrite bind_gets, Hf.
  rewrite <- (app_nil_r A) in Hw, Hs, Hu.
  rewrite (bind_quiet _ _ _ _ _ (peek_ok (S (length (a :: A))) it a A [] [] s Hw Hs Hu Hall I ltac:(cbn; lia))).
  rewrite app_nil_r in *. destruct (exists_last (l := a :: A)) as (ys & l & E); [done|].
  rewrite E in Hw, Hs |- *. rewrite last_addr_snoc.
  by rewrite (bind_node ys l [] NULL _ _ Hw Hs).
Qed.

(** ** [ListHistory_member_function_remove] *)
Definition removed (it : ptr) xs : list event :=
  concat (freed <$> filter (fun x => key_of x = key it) xs).
Lemma removed_app it xs ys : removed it (xs ++ ys) = removed it xs ++ removed it ys.
Proof. unfold removed. by rewrite filter_app, fmap_app, concat_app. Qed.
Lemma removed_none it xs : Forall (fun x => key_of x <> key it) xs -> removed it xs = [].
Proof.
  intros Hall. unfold removed. induction Hall as [|x xs Hx _ IH]; [done|]. by rewrite filter_cons_False.
Qed.
Lemma removed_one it A x B : key_of x = key it -> Forall (fun y => key_of y <> key it) (A ++ B) ->
  removed it (A ++ x :: B) = freed x.
Proof.
  intros Hx [HA HB]%Forall_app. rewrite removed_app, (removed_none _ A HA).
  unfold removed. rewrite filter_cons_True by done. cbn [fmap list_fmap concat].
  pose proof (removed_none it B HB) as E. unfold removed in E. cbn [fmap list_fmap] in E.
  by rewrite E, app_nil_r.
Qed.
Lemma last_addr_null xs : wf_chain xs -> xs <> [] -> last_addr xs <> NULL.
Proof.
  intros Hw Hne. destruct (exists_last Hne) as (ys & l & ->). rewrite last_addr_snoc.
  by apply (addr_null ys l []).
Qed.
Definition cleanup : M state Z :=
  root ← get_root; e ← get_end;
  (if e =? NULL then set_root NULL else when (root =? NULL) (set_end NULL));;
  mret LIST_HISTORY_OK.
Lemma cleanup_ok m nums xs : wf_chain xs -> xs <> [] ->
  cleanup (st m nums xs) = Ok (LIST_HISTORY_OK, st m nums xs, []).
Proof.
  intros Hw Hne. unfold cleanup, get_root, get_end. rewrite !bind_gets. cbn [hist st list_end list_root].
  rewrite (proj2 (Z.eqb_neq _ _) (last_addr_null _ Hw Hne)), hist_first_null by done.
  by destruct xs.
Qed.
Lemma decr_cleanup m nums xs s : wf_chain xs -> xs <> [] ->
  s = mkState (heap_of xs NULL) (mkHistory (first xs NULL) (last_addr xs)
        (Z.of_nat (Datatypes.S (length xs))) m) nums ->
  (when true decr_count;; cleanup) s = Ok (LIST_HISTORY_OK, st m nums xs, []).
Proof.
  intros Hw Hne ->. cbn [when]. erewrite bind_quiet; [|apply hist_decr_count_ok; cbn; lia].
  rewrite <- cleanup_ok by done. unfold set_hist, st. cbn [hist nodes numbers list_root list_end count max].
  do 3 f_equal. lia.
Qed.

Lemma remove_last m nums A a x it :
  wf_chain ((A ++ [a]) ++ [x]) -> uniform ((A ++ [a]) ++ [x]) -> it <> NULL -> item x <> NULL ->
  key_of x = key it ->
  ListHistory_member_function_remove user it (Some (st m nums ((A ++ [a]) ++ [x])))
    = Ok (LIST_HISTORY_OK, Some (st m nums (A ++ [a])), freed x).
Proof.
  intros Hw Hu Hit Hix Hx. apply on_obj_Ok. rewrite (proj2 (Z.eqb_neq _ _) Hit).
  bget. cbn [hist st list_end]. rewrite last_addr_snoc.
  rewrite (bind_node (A ++ [a]) x [] NULL) by done. cbn [node_of list_item Compare_Callback].
  rewrite bind_dif by (by eapply uniform_cmp). unfold key_of in Hx. rewrite Hx, Z.eqb_refl. cbn [negb].
  pose proof (proj1 (wf_chain_app _ _) Hw) as (Hw' & _ & _).
  set (s1 := mkState (heap_of (A ++ [a]) NULL) (mkHistory (first (A ++ [a]) NULL) (addr a)
    (Z.of_nat (length ((A ++ [a]) ++ [x]))) m) nums).
  eapply bind_loud with (a := 0) (s1 := s1); cycle 1.
  { apply decr_cleanup; [done|by destruct A|]. unfold s1. rewrite last_addr_snoc, (length_app (A ++ [a])), Nat.add_comm. done. }
  bget. cbn [hist st list_root].
  rewrite (bind_quiet _ _ _ _ _ (find_one_before_ok A a x [] (item x) (st m nums ((A ++ [a]) ++ [x]))
    Hw eq_refl Hu eq_refl Hix)).
  pose proof Hw as Hw1. rewrite <- app_assoc in Hw1.
  rewrite (bind_node A a [x] NULL) by (done || by cbn; rewrite <- app_assoc). cbn [node_of next first].
  assert (addr x <> NULL) as Hxn by (by eapply addr_null).
  assert (ListHistoryItem_member_function_remove user (Some (addr x)) it (st m nums ((A ++ [a]) ++ [x]))
    = Ok ((0, Some NULL), put (delete (addr x) (heap_of ((A ++ [a]) ++ [x]) NULL)) (st m nums ((A ++ [a]) ++ [x])), freed x)) as Hr.
  { unfold ListHistoryItem_member_function_remove.
    rewrite (proj2 (Z.eqb_neq _ _) Hxn), (proj2 (Z.eqb_neq _ _) Hit). cbn [orb].
    rewrite (bind_node (A ++ [a]) x [] NULL) by done. cbn [node_of list_item Compare_Callback].
    rewrite bind_dif by (by eapply uniform_cmp). rewrite Hx, Z.eqb_refl. cbn [negb].
    eapply bind_loud; [by apply (del_mid (A ++ [a]))|done]. }
  eapply bind_loud; [exact Hr|]. cbn [default].
  assert (addr a <> addr x) as Hax.
  { apply wf_chain_app in Hw as (_ & _ & Hdis). intros E. apply (Hdis (addr a)).
    - rewrite fmap_app. set_solver.
    - rewrite E. set_solver. }
  rewrite (bind_set_at _ (node_of a (addr x))).
  - bset. cbn [nodes put nodes_store hist st].
    change (set_next _ (node_of a _)) with (node_of a (first [] NULL)).
    rewrite heap_of_unlink, app_nil_r by done. unfold s1. repeat f_equal. rewrite hist_first_app. by destruct A.
  - by eapply addr_null.
  - cbn. rewrite lookup_delete_ne by done. rewrite <- app_assoc. by apply (heap_of_lookup A a [x]).
Qed.
(** The last entry's key is another one: the list is searched from its root. *)
Lemma remove_searches {R} m nums ys l it (k : Z -> M state R) :
  let xs := ys ++ [l] in
  wf_chain xs -> uniform xs -> it <> NULL -> key_of l <> key it ->
  forall s r p ev,
  ListHistoryItem_member_function_remove user (Some (first xs NULL)) it (st m nums xs)
    = Ok ((r, Some p), s, ev) -> hist s = hist (st m nums xs) ->
  (e ← get_end; i ← node e; d ← compare user (Compare_Callback i) (list_item i) it;
   r_code ← (if negb d then
       root ← get_root;
       temp_item ← ListHistoryItem_member_function_find_one_before user root (list_item i);
       t ← node temp_item;
       '(r, p) ← ListHistoryItem_member_function_remove user (Some (next t)) it;
       update (A := ListHistoryItem) temp_item (set_next (default NULL p));;
       set_end temp_item;; mret r
     else
       root ← get_root; node root;;
       at_root (fun p => ListHistoryItem_member_function_remove user p it));
   k r_code) (st m nums xs)
  = '(b, s2, t2) ← k r (mkState (nodes s) (mkHistory p (last_addr xs) (Z.of_nat (length xs)) m) (numbers s));
    Ok (b, s2, ev ++ t2).
Proof.
  intros xs Hw Hu Hit Hl s r p ev Hr Hh. bget. cbn [hist st list_end]. unfold xs at 1. rewrite last_addr_snoc.
  unfold xs in Hw, Hu. rewrite (bind_node ys l [] NULL) by done. cbn [node_of list_item Compare_Callback].
  rewrite bind_dif by (by eapply uniform_cmp). unfold key_of in Hl.
  rewrite (proj2 (Z.eqb_neq _ _) Hl). cbn [negb]. apply bind_Ok. bget. cbn [hist st list_root].
  fold xs in Hw. assert (exists b zs, xs = b :: zs) as (b & zs & E) by (unfold xs; destruct ys; eauto).
  rewrite (bind_node_at _ (node_of b (first zs NULL))); cycle 1.
  { rewrite E in Hw |- *. by apply (addr_null [] b zs). }
  { cbn. rewrite E in Hw |- *. by apply (heap_of_lookup [] b zs). }
  bget. cbn [hist st list_root]. eapply bind_loud; [exact Hr|]. unfold set_root, on_hist.
  bset. unfold set_hist. cbn. by rewrite Hh.
Qed.
Lemma remove_inner m nums A x B l it :
  let xs := (A ++ x :: B) ++ [l] in
  wf_chain xs -> uniform xs -> it <> NULL -> key_of x = key it ->
  ListHistory_member_function_remove user it (Some (st m nums xs))
    = Ok (LIST_HISTORY_OK, Some (st m nums ((A ++ B) ++ [l])), freed x).
Proof.
  intros xs Hw Hu Hit Hx. apply on_obj_Ok. rewrite (proj2 (Z.eqb_neq _ _) Hit).
  destruct (uniform_app _ _ Hu) as (_ & _ & Hd).
  assert (key_of l <> key it) as Hl.
  { intros E. apply (Hd x l); [set_solver|set_solver|congruence]. }
  assert (wf_chain ((A ++ B) ++ [l])) as Hw'.
  { unfold xs in Hw. rewrite <- app_assoc in Hw |- *. apply wf_chain_app in Hw as (? & Hw2 & Hd2).
    cbn [app] in Hw2. apply wf_chain_cons in Hw2 as (? & ? & ?).
    apply wf_chain_app. split; [done|split; [done|]]. intros a Ha Hb. apply (Hd2 a Ha). cbn. set_solver. }
  assert (exists s p, ListHistoryItem_member_function_remove user (Some (first xs NULL)) it (st m nums xs)
      = Ok ((0, Some p), s, freed x) /\ hist s = hist (st m nums xs) /\ numbers s = nums /\
      p = first ((A ++ B) ++ [l]) NULL /\ nodes s = heap_of ((A ++ B) ++ [l]) NULL)
    as (s & p & Hr & Hh & Hnum & -> & Hn).
  { unfold xs in *. clear Hd. rewrite <- app_assoc in *. cbn [app] in *.
    destruct (decide (A = [])) as [->|Hne].
    - eexists _, _. split; [by apply (item_remove_head x (B ++ [l]))|done].
    - destruct (exists_last Hne) as (A' & a & ->).
      eexists _, _. split; [by apply (item_remove_later A' a x (B ++ [l]))|].
      rewrite <- !app_assoc, !hist_first_app. by repeat split. }
  etransitivity; [exact (remove_searches m nums (A ++ x :: B) l it
    (fun r => when (r =? 0) decr_count;; cleanup) Hw Hu Hit Hl s 0 _ _ Hr Hh)|].
  cbv beta. change (0 =? 0) with true. rewrite (decr_cleanup m nums ((A ++ B) ++ [l])); [cbn; by rewrite app_nil_r|done|by destruct A, B|].
  rewrite Hn, Hnum. unfold xs. rewrite !last_addr_snoc.
  replace (length ((A ++ x :: B) ++ [l])) with (Datatypes.S (length ((A ++ B) ++ [l])))
    by (rewrite !length_app; cbn; lia). done.
Qed.
Lemma remove_absent m nums xs it :
  wf_chain xs -> uniform xs -> it <> NULL -> xs <> [] -> Forall (fun y => key_of y <> key it) xs ->
  ListHistory_member_function_remove user it (Some (st m nums xs))
    = Ok (LIST_HISTORY_OK, Some (st m nums xs), []).
Proof.
  intros Hw Hu Hit Hne Hall. apply on_obj_Ok. rewrite (proj2 (Z.eqb_neq _ _) Hit).
  destruct (exists_last Hne) as (ys & l & E).
  assert (key_of l <> key it) as Hl.
  { rewrite E in Hall. apply Forall_app in Hall as [_ Hall]. by inversion Hall. }
  assert (ListHistoryItem_member_function_remove user (Some (first xs NULL)) it (st m nums xs)
    = Ok ((1, Some (first xs NULL)), st m nums xs, [])) as Hr.
  { destruct xs as [|a A]; [done|]. by apply (item_remove_none a A). }
  rewrite E in Hw, Hu, Hr |- *.
  etransitivity; [exact (remove_searches m nums ys l it
    (fun r => when (r =? 0) decr_count;; cleanup) Hw Hu Hit Hl _ _ _ _ Hr eq_refl)|].
  cbv beta. change (1 =? 0) with false. cbn [when]. rewrite bind_mret.
  change (mkState _ _ _) with (st m nums (ys ++ [l])). rewrite cleanup_ok; [done|done|by destruct ys].
Qed.
(** [Remove] takes the entry with the item's key out of the list. *)
Lemma hist_remove_ok m nums xs it :
  wf_chain xs -> uniform xs -> it <> NULL -> Forall (fun x => item x <> NULL) xs ->
  xs <> [] -> ~ (exists x, xs = [x] /\ key_of x = key it) ->
  ListHistory_member_function_remove user it (Some (st m nums xs))
    = Ok (LIST_HISTORY_OK, Some (st m nums (others it xs)), removed it xs).
Proof.
  intros Hw Hu Hit Hitems Hne Hsing.
  destruct (split_key it xs Hu) as [[-> Hall]|(A & x & B & -> & Hx & -> & Hall)].
  { rewrite removed_none by done. by apply remove_absent. }
  rewrite removed_one by done. destruct (decide (B = [])) as [->|HB].
  - destruct (decide (A = [])) as [->|HA]; [exfalso; apply Hsing; by exists x|].
    destruct (exists_last HA) as (A' & a & ->). rewrite app_nil_r.
    apply remove_last; try done. apply Forall_app in Hitems as [_ Hi]. by inversion Hi.
  - destruct (exists_last HB) as (B' & l & ->).
    replace (A ++ x :: B' ++ [l]) with ((A ++ x :: B') ++ [l]) in * by (by rewrite <- app_assoc).
    rewrite app_assoc. by apply remove_inner.
Qed.

(** * The bounded queue the history list implements *)
Inductive op :=
| Push (k : option ptr) (it : ptr) (r : bool)   (* [k]: what [malloc] returns *)
| Pop | Rotate | Remove (it : ptr).
Definition call (o : op) : M (option state) Z :=
  match o with
  | Push k it r => ListHistory_member_function_push_back k it r c
  | Pop => ListHistory_member_function_pop_off;; mret 0
  | Rotate => ListHistory_member_function_move_top_to_bottom;; mret 0
  | Remove it => ListHistory_member_function_remove user it
  end.
(** What the operation does to the queue, oldest entry first, with its result
    and the values freed. *)
Definition spec_step (m : Z) xs (o : op) : Z * list entry * list event :=
  match o with
  | Push None it r => (ALIB_MEM_ERR, xs, [])
  | Push (Some k) it r => let '(ys, t) := trim m (xs ++ [mkEntry k it r c]) in (ALIB_OK, ys, t)
  | Pop => (0, tail xs, match xs with x :: _ => freed x | [] => [] end)
  | Rotate => (0, match xs with x :: ys => ys ++ [x] | [] => [] end, [])
  | Remove it => (ALIB_OK, others it xs, removed it xs)
  end.
(** The calls the object is made for: addresses of new nodes are fresh, keys
    are not repeated, the count does not overflow, only a list with an entry is
    rotated, and the only entry of a list is not removed by its item. *)
Definition legal xs (o : op) : Prop :=
  match o with
  | Push (Some k) it r => k <> NULL /\ k ∉ addrs xs /\ it <> NULL /\ key it ∉ key_of <$> xs /\
      Z.of_nat (length xs) + 1 < 2 ^ 32
  | Push None it r => it <> NULL
  | Pop => True
  | Rotate => xs <> []
  | Remove it => it <> NULL /\ xs <> [] /\ ~ (exists x, xs = [x] /\ key_of x = key it)
  end.
Definition inv xs : Prop := wf_chain xs /\ uniform xs /\ Forall (fun x => item x <> NULL) xs.

Lemma inv_sublist xs ys : xs `sublist_of` ys -> inv ys -> inv xs.
Proof.
  intros Hs ((Hn & Ha) & (Hc & Hk) & Hi). rewrite Forall_forall in Ha, Hc, Hi.
  assert (forall x, x ∈ xs -> x ∈ ys) as Hin.
  { intros x Hx. eapply elem_of_submseteq; [exact Hx|by apply sublist_submseteq]. }
  split; [split|split; [split|]].
  - eapply sublist_NoDup; [exact Hn|]. by apply fmap_sublist.
  - apply Forall_forall. auto.
  - apply Forall_forall. auto.
  - eapply sublist_NoDup; [exact Hk|]. by apply fmap_sublist.
  - apply Forall_forall. auto.
Qed.
#[local] Instance inv_perm : Proper ((≡ₚ) ==> iff) inv.
Proof. intros xs ys Hp. unfold inv, uniform. by rewrite Hp. Qed.
Lemma inv_push xs k it r :
  inv xs -> legal xs (Push (Some k) it r) -> inv (xs ++ [mkEntry k it r c]).
Proof.
  intros ((? & ?) & (? & ?) & ?) (? & ? & ? & ? & _). rewrite (Permutation_app_comm xs).
  split; [|split; [split|]].
  - apply wf_chain_cons. by repeat split.
  - by constructor.
  - cbn. by constructor.
  - by constructor.
Qed.
Lemma trim_inv m xs : inv xs -> inv (fst (trim m xs)).
Proof.
  destruct xs as [|x xs]; [done|]. cbn [trim]. destruct (_ && _); [|done]. cbn [fst].
  apply inv_sublist. by apply sublist_cons.
Qed.
Lemma spec_inv m xs o r ys t : inv xs -> legal xs o -> spec_step m xs o = (r, ys, t) -> inv ys.
Proof.
  intros Hi Hl Hs. destruct o as [[k|] it rc| | |it]; cbn in Hs; simplify_eq; try done.
  - pose proof (trim_inv m _ (inv_push _ _ _ _ Hi Hl)). by destruct (trim _ _) as [??] eqn:E; simplify_eq.
  - destruct xs as [|x xs]; [done|]. eapply inv_sublist; [|exact Hi]. by apply sublist_cons.
  - destruct xs as [|x xs]; [done|]. by rewrite (Permutation_app_comm xs [x]).
  - eapply inv_sublist; [apply sublist_filter|exact Hi].
Qed.
Lemma hist_call_ok m nums xs o r ys t : inv xs -> legal xs o -> spec_step m xs o = (r, ys, t) ->
  call o (Some (st m nums xs)) = Ok (r, Some (st m nums ys), t).
Proof.
  intros Hi Hl Hs. pose proof Hi as (Hw & Hu & Hit).
  destruct o as [[k|] it rc| | |it]; cbn in Hs; cbn [call].
  - destruct (inv_push _ _ _ _ Hi Hl) as (Hw' & _). destruct Hl as (? & ? & ? & ? & ?).
    rewrite hist_push_back_ok by done. destruct (trim _ _). by simplify_eq.
  - simplify_eq. apply on_obj_Ok. by rewrite (proj2 (Z.eqb_neq _ _) Hl).
  - simplify_eq. eapply bind_loud; [by apply pop_off_ok|done].
  - simplify_eq. destruct xs as [|x xs]; [done|]. eapply bind_loud; [by apply rotate_ok|done].
  - simplify_eq. destruct Hl as (? & ? & ?). by apply hist_remove_ok.
Qed.

Fixpoint run_calls (os : list op) : M (option state) (list Z) :=
  match os with
  | [] => mret []
  | o :: os => r ← call o; rs ← run_calls os; mret (r :: rs)
  end.
(** A run of the specification in which every call is legal. *)
Inductive spec_run (m : Z) : list entry -> list op -> list Z -> list entry -> list event -> Prop :=
| run_nil xs : spec_run m xs [] [] xs []
| run_cons xs o os r ys t rs zs t' :
    legal xs o -> spec_step m xs o = (r, ys, t) -> spec_run m ys os rs zs t' ->
    spec_run m xs (o :: os) (r :: rs) zs (t ++ t').
End keys.

(** C6: The history object implements a bounded queue: every sequence of legal calls of [Push_Back], [Pop_Off],
    [Move_Top_to_Bottom] and [Remove] gives the results of the queue, ends in the state that represents its
    entries (whose nodes are all the nodes there are, so none is leaked), and calls the free callback on exactly
    the items that left it, in order. A call is legal when a pushed item is not NULL and, where its node can be
    allocated (the node's address is then new), its key is not that of an entry and the count stays below 2^32;
    when only a history with entries is rotated; and when an item is removed only from a history with entries,
    and not one with the key of the only entry. The item comparison callback says whether two items have
    different keys. Of the calls left out, removing the only entry by its item crashes ([remove_only_crashes]).
    *)
Theorem run_refines_history c key m nums xs os rs ys t :
  (forall a b, dif c a b = negb (key a =? key b)) ->
  inv c key xs -> spec_run c key m xs os rs ys t ->
  run_calls c os (Some (st m nums xs)) = Ok (rs, Some (st m nums ys), t) /\ inv c key ys.
Proof.
  intros Hkey Hi Hrun. revert Hi. induction Hrun as [xs|xs o os r ys t rs zs t' Hl Hs _ IH]; intros Hi.
  { done. }
  destruct (IH (spec_inv c key m xs o r ys t Hi Hl Hs)) as [E ?]. split; [|done].
  cbn [run_calls]. rewrite (bind_Ok _ _ _ _ _ _ (hist_call_ok c key Hkey m nums xs o r ys t Hi Hl Hs)).
  erewrite bind_Ok; [|exact E]. cbn. by rewrite app_nil_r.
Qed.

(** * Where the list breaks *)

(** [Remove] dereferences NULL when the list is empty, and when the item is the only one of the
    list: the node before the last one, which is asked to remove it, does not exist. *)
Theorem remove_only_crashes c key m nums x it :
  (forall a b, dif c a b = negb (key a =? key b)) ->
  inv c key [x] -> key_of key x = key it -> it <> NULL ->
  ListHistory_member_function_remove user it (Some (st m nums [x])) = UB NullDeref /\
  ListHistory_member_function_remove user it (Some (st m nums [])) = UB NullDeref.
Proof.
  intros Hkey (Hw & [Hc _] & Hi) Hx Hit. split.
  - apply on_obj_UB. rewrite (proj2 (Z.eqb_neq _ _) Hit).
    bget. cbn [hist st list_end]. change (last_addr [x]) with (addr x).
    rewrite (bind_node [] x [] NULL) by done. cbn [node_of list_item Compare_Callback].
    apply Forall_cons in Hc as [Hc _]. apply Forall_cons in Hi as [Hi _].
    rewrite (bind_dif c key Hkey) by done. unfold key_of in Hx. rewrite Hx, Z.eqb_refl. cbn [negb].
    apply bind_UB. bget. cbn [hist st list_root first].
    rewrite (bind_quiet _ _ _ NULL (st m nums [x])); [done|].
    unfold ListHistoryItem_member_function_find_one_before.
    rewrite (proj2 (Z.eqb_neq _ _) (addr_null [] x [] Hw)), (proj2 (Z.eqb_neq _ _) Hi). cbn [orb].
    rewrite (bind_node [] x [] NULL) by done. cbn [node_of list_item Compare_Callback].
    rewrite (bind_dif c key Hkey) by done. by rewrite Z.eqb_refl.
  - apply on_obj_UB. by rewrite (proj2 (Z.eqb_neq _ _) Hit).
Qed.

(** A walk inside a set of nodes that is closed under [next] never ends. *)
Lemma walk_end_cycle (C : list ptr) s fuel a :
  (forall a, a ∈ C -> a <> NULL /\ exists i, nodes s !! a = Some i /\ next i ∈ C) ->
  a ∈ C -> walk_end fuel a s = Diverges.
Proof.
  intros HC. revert a. induction fuel as [|fuel IH]; intros a Ha; [done|]. cbn [walk_end].
  destruct (HC a Ha) as (Hn & i & Hi & Hin). rewrite (bind_node_at a i s _ Hn Hi).
  destruct (HC _ Hin) as (Hn' & _). rewrite (proj2 (Z.eqb_neq _ _) Hn'). by apply IH.
Qed.
Lemma push_back_cycle (C : list ptr) s k it r c :
  (forall a, a ∈ C -> a <> NULL /\ exists i, nodes s !! a = Some i /\ next i ∈ C) ->
  list_end (hist s) ∈ C -> it <> NULL -> nodes s !! k = None ->
  ListHistory_member_function_push_back (Some k) it r c (Some s) = Diverges.
Proof.
  intros HC He Hit Hk. apply on_obj_Diverges. rewrite (proj2 (Z.eqb_neq _ _) Hit).
  apply bind_Diverges. etransitivity; [apply bind_gets|]. apply bind_Diverges.
  unfold newListHistoryItem. rewrite bind_alloc. destruct (HC _ He) as [Hn _].
  rewrite (proj2 (Z.eqb_neq _ _) Hn). cbn [negb]. etransitivity; [apply bind_gets|].
  apply bind_Diverges, (walk_end_cycle C); [|done].
  intros a Ha. destruct (HC a Ha) as (? & i & Hi & ?). split; [done|]. exists i. split; [|done].
  cbn. rewrite lookup_insert_ne; [done|]. intros ->. congruence.
Qed.
Lemma closed_chain A a x B : wf_chain ((A ++ [a]) ++ x :: B) -> forall p, p ∈ addrs (x :: B) ->
  p <> NULL /\ exists i,
    <[addr a := node_of a (first B (addr x))]> (heap_of ((A ++ [a]) ++ x :: B) (addr x)) !! p = Some i /\
    next i ∈ addrs (x :: B).
Proof.
  intros Hw p Hp. apply list_elem_of_fmap in Hp as (y & -> & Hy).
  apply list_elem_of_split in Hy as (ys & zs & E). rewrite E in Hw.
  pose proof Hw as Hw1. rewrite app_assoc in Hw1. split; [by eapply addr_null|].
  exists (node_of y (first zs (addr x))). split.
  - rewrite lookup_insert_ne; [rewrite E, app_assoc; by apply heap_of_lookup|].
    apply wf_chain_app in Hw as (_ & _ & Hd). intros Ea. apply (Hd (addr a)).
    + rewrite fmap_app. set_solver.
    + rewrite Ea, fmap_app. set_solver.
  - cbn [node_of next]. destruct zs as [|z zs]; cbn [first]; [cbn; set_solver|].
    rewrite E, fmap_app. cbn. set_solver.
Qed.
(** The pointer updates of the function. *)
Lemma relink_cycle m nums A a x B D l :
  let xs := (A ++ [a]) ++ x :: B in
  wf_chain xs -> x :: B = D ++ [l] ->
  (e ← get_end; update (A := ListHistoryItem) e (set_next (addr x));;
   t ← node (addr a); n ← node (next t);
   update (A := ListHistoryItem) (addr a) (set_next (next n));;
   i ← node e; set_end (next i)) (st m nums xs)
  = Ok (tt, mkState (<[addr a := node_of a (first B (addr x))]> (heap_of xs (addr x)))
      (mkHistory (first xs NULL) (addr x) (Z.of_nat (length xs)) m) nums, []).
Proof.
  intros xs Hw El.
  assert (xs = A ++ a :: x :: B) as Exs by (unfold xs; by rewrite <- app_assoc).
  assert (xs = ((A ++ [a]) ++ D) ++ [l]) as Exl by (unfold xs; by rewrite El, app_assoc).
  assert (addr l <> addr a) as Hla.
  { apply wf_chain_app in Hw as (_ & _ & Hd). intros E. apply (Hd (addr a)).
    - rewrite fmap_app. set_solver.
    - rewrite El, <- E, fmap_app. set_solver. }
  pose proof Hw as Hwl. rewrite Exl in Hwl. pose proof Hw as Hwa. rewrite Exs in Hwa.
  assert (addr l <> NULL) as Hln by (by eapply (addr_null _ l [])).
  bget. cbn [hist st list_end]. assert (last_addr xs = addr l) as -> by (by rewrite Exl, last_addr_snoc).
  rewrite (bind_set_next ((A ++ [a]) ++ D) l [] NULL) by (done || by rewrite <- Exl).
  rewrite heap_of_relink, <- Exl by done.
  rewrite (bind_node A a (x :: B) (addr x)) by (done || by rewrite <- Exs). cbn [node_of next first].
  rewrite (bind_node (A ++ [a]) x B (addr x)) by done. cbn [node_of next].
  rewrite (bind_set_next A a (x :: B) (addr x)) by (done || by rewrite <- Exs). rewrite <- Exs.
  rewrite (bind_node_at (addr l) (node_of l (addr x))); [done|done|].
  cbn. rewrite lookup_insert_ne by done. rewrite Exl. by apply (heap_of_lookup _ l []).
Qed.
(** [Move_to_Bottom] of an entry that is not the oldest one makes the list cyclic: the entry
    becomes the end of the list without its link being cut, so the next [Push_Back] looks for
    the end for ever. *)
Theorem move_to_bottom_cycle c key m nums A a x B it :
  let xs := (A ++ [a]) ++ x :: B in
  (forall a b, dif c a b = negb (key a =? key b)) ->
  inv c key xs -> key_of key x = key it -> it <> NULL ->
  exists s, ListHistory_member_function_move_to_bottom user it (Some (st m nums xs))
      = Ok (LIST_HISTORY_OK, Some s, []) /\
    forall k it' r c', it' <> NULL -> nodes s !! k = None ->
      ListHistory_member_function_push_back (Some k) it' r c' (Some s) = Diverges.
Proof.
  intros xs Hkey (Hw & Hu & Hi) Hx Hit.
  destruct (uniform_app _ _ _ _ Hu) as (_ & _ & Hd).
  assert (key_of key a <> key it) as Ha by (rewrite <- Hx; apply Hd; set_solver).
  exists (mkState (<[addr a := node_of a (first B (addr x))]> (heap_of xs (addr x)))
    (mkHistory (first xs NULL) (addr x) (Z.of_nat (length xs)) m) nums).
  split; cycle 1.
  { intros k it' r c' Hit' Hk. apply (push_back_cycle (addrs (x :: B))); try done.
    - by apply closed_chain.
    - cbn. set_solver. }
  pose proof Hw as Hw1. unfold xs in Hw1. rewrite <- app_assoc in Hw1.
  assert (xs = A ++ a :: x :: B) as Exs by (unfold xs; by rewrite <- app_assoc).
  destruct (exists_last (l := x :: B)) as (D & l & El); [done|].
  apply on_obj_Ok. rewrite (proj2 (Z.eqb_neq _ _) Hit). bget. cbn [hist st list_root].
  assert (exists b zs, xs = b :: zs) as (b & zs & Eb) by (unfold xs; destruct A; eauto).
  rewrite (bind_node_at (first xs NULL) (node_of b (first zs NULL))); cycle 1.
  { rewrite Eb in Hw |- *. by apply (addr_null [] b zs). }
  { cbn. rewrite Eb in Hw |- *. by apply (heap_of_lookup [] b zs). }
  rewrite (bind_quiet _ _ _ _ _ (find_one_before_ok c key Hkey A a x B it (st m nums xs) Hw eq_refl Hu Hx Hit)).
  rewrite (proj2 (Z.eqb_neq _ _)) by (by eapply addr_null).
  rewrite (bind_node A a (x :: B) NULL) by (done || by rewrite <- Exs).
  cbn [node_of list_item Compare_Callback next first].
  rewrite (bind_dif c key Hkey) by (rewrite Exs in Hu; by eapply uniform_cmp).
  unfold key_of in Ha. rewrite (proj2 (Z.eqb_neq _ _) Ha). cbn [negb].
  by rewrite (bind_quiet _ _ _ _ _ (relink_cycle m nums A a x B D l Hw El)).
Qed.
End spec.

(** * Concrete lists, with the default comparison *)
Definition by_address (a b : ptr) : M state bool := mret (negb (a =? b)).
Definition entry_at (k it : ptr) : entry := mkEntry k it true default_compare.

Lemma run_refines_history_witness :
  run_calls by_address default_compare
    [Push (Some 101) 1 true; Push (Some 102) 2 true; Push (Some 103) 3 true; Rotate; Remove 2; Pop; Pop]
    (Some (st 2 ∅ []))
  = Ok ([0; 0; 0; 0; 0; 0; 0], Some (st 2 ∅ []), [EvFree 1; EvFree 2; EvFree 3])
  /\ inv default_compare (fun x => x) [].
Proof.
  apply (run_refines_history by_address (fun a b => negb (a =? b)) (fun _ _ _ => eq_refl)
    default_compare (fun x => x) 2 ∅ []).
  - done.
  - split; [|split]; repeat constructor.
  - eapply (run_cons _ _ _ _ _ _ _ [entry_at 101 1] []); [| reflexivity |].
    { cbn. repeat split; try lia; set_solver. }
    eapply (run_cons _ _ _ _ _ _ _ [entry_at 101 1; entry_at 102 2] []); [| reflexivity |].
    { cbn. repeat split; try lia; set_solver. }
    eapply (run_cons _ _ _ _ _ _ _ [entry_at 102 2; entry_at 103 3] [EvFree 1]); [| reflexivity |].
    { cbn. repeat split; try lia; set_solver. }
    eapply (run_cons _ _ _ _ _ _ _ [entry_at 103 3; entry_at 102 2] []); [| reflexivity |].
    { done. }
    eapply (run_cons _ _ _ _ _ _ _ [entry_at 103 3] [EvFree 2]); [| by vm_compute |].
    { cbn. split; [done|split; [done|]]. by intros (? & ? & ?). }
    eapply (run_cons _ _ _ _ _ _ _ [] [EvFree 3]); [done | reflexivity |].
    eapply (run_cons _ _ _ _ _ _ _ [] []); [done | reflexivity |].
    constructor.
Defined.
Lemma remove_only_crashes_witness :
  ListHistory_member_function_remove by_address 7 (Some (st 5 ∅ [entry_at 101 7])) = UB NullDeref /\
  ListHistory_member_function_remove by_address 7 (Some (st 5 ∅ [])) = UB NullDeref.
Proof.
  apply (remove_only_crashes by_address (fun a b => negb (a =? b)) (fun _ _ _ => eq_refl)
    default_compare (fun x => x) 5 ∅ (entry_at 101 7) 7); try done.
  split; [split|split; [split|]]; repeat constructor; try done; set_solver.
Defined.
Lemma move_to_bottom_cycle_witness :
  let xs := ([] ++ [entry_at 101 1]) ++ entry_at 102 2 :: [entry_at 103 3] in
  exists s, ListHistory_member_function_move_to_bottom by_address 2 (Some (st 5 ∅ xs))
      = Ok (LIST_HISTORY_OK, Some s, []) /\
    forall k it' r c', it' <> NULL -> nodes s !! k = None ->
      ListHistory_member_function_push_back (Some k) it' r c' (Some s) = Diverges.
Proof.
  apply (move_to_bottom_cycle by_address (fun a b => negb (a =? b)) (fun _ _ _ => eq_refl)
    default_compare (fun x => x) 5 ∅ [] (entry_at 101 1) (entry_at 102 2) [entry_at 103 3] 2); try done.
  split; [split|split; [split|]]; repeat constructor; try done; set_solver.
Defined.
