(* ===== verification/MutexObject.v ===== *)
(** [source/MutexObject.c]: a lock handed out in the order of requests.  A
    request puts the address of a local variable, which holds its number, on a
    history list and waits until that number is at the list's root.  The list
    is modelled as in [ListHistory], without a mutex of its own; the local
    variable lives in [numbers] until the function returns.  What other threads
    do while a request sleeps is the list [env] of their actions, one for each
    sleep; [times] are the results of [gettimeofday]. *)
From S2P Require Import Prelude Effects Heap ListHistory.
Open Scope Z_scope.

#[export] Instance numbers_store : Store state Z := {|
  objs := numbers; put m s := mkState (nodes s) (hist s) m;
  objs_put _ _ := eq_refl; put_put _ _ _ := eq_refl;
  put_objs s := match s with mkState _ _ _ => eq_refl end |}.

(** The macros of [includes/MutexObject.h], which hide the constants of the
    [enum] before them. *)
Definition MUTEX_SUCCESS : Z := 0.
Definition MUTEX_NULL_ARG : Z := -1.
Definition MUTEX_TIMEOUT : Z := -2.
Definition MUTEX_ERROR : Z := -3.
Definition MUTEX_CANCELED : Z := -4.

Record MutexObject := mkMutex {
  timeout_millis : Z; sleep_micros : Z; refuse_requests : bool; request_num : Z }.
Record mstate := mkM { mutex : MutexObject; requests : state }.

(** An operation on the request list. *)
Definition on_list {A} (m : M (option state) A) : M mstate A := fun s =>
  '(a, q, t) ← here m (requests s); Ok (a, mkM (mutex s) q, t).
Definition in_list {A} (m : M state A) : M mstate A := fun s =>
  '(a, q, t) ← m (requests s); Ok (a, mkM (mutex s) q, t).
Definition set_request_num (n : Z) : M mstate unit :=
  modify (fun s => mkM (mkMutex (timeout_millis (mutex s)) (sleep_micros (mutex s))
    (refuse_requests (mutex s)) n) (requests s)).
Definition set_refuse (b : bool) : M mstate unit :=
  modify (fun s => mkM (mkMutex (timeout_millis (mutex s)) (sleep_micros (mutex s))
    b (request_num (mutex s))) (requests s)).

Definition number (p : ptr) : M state Z := load p.
Definition request_compare (i1 i2 : ptr) : M state bool :=
  a ← number i1; b ← number i2; mret (negb (a =? b)).
(** [mutex->request_list->list_root &&
    request_compare(mutex->request_list->list_root->list_item, &my_num) != 0] *)
Definition waiting (my_num : ptr) : M mstate bool :=
  in_list (root ← get_root;
           if root =? NULL then mret false else
           i ← node root; request_compare (list_item i) my_num).
Definition withdraw (my_num : ptr) : M mstate unit :=
  on_list (ListHistory_member_function_remove request_compare my_num);; mret tt.

Notation others := (list (M mstate unit)).
(** The loop that counts the sleeps; [ticks] is -1 before the first one. *)
Fixpoint wait_ticks (env : others) (ticks last_tick_sleep : Z) (my_num : ptr) : M mstate Z :=
  w ← waiting my_num;
  if negb w then mret MUTEX_SUCCESS else
  t ← gets (fun s => timeout_millis (mutex s)); u ← gets (fun s => sleep_micros (mutex s));
  next ← (if ticks <? 0 then
            let per := u32 (u / 1000) in
            if per =? 0 then lift (UB DivByZero) else mret (Some (s32 (t / per), t mod per))
          else if ticks =? 0 then mret None
          else mret (Some (ticks - 1, last_tick_sleep)));
  match next with
  | None => withdraw my_num;; mret MUTEX_TIMEOUT
  | Some (ticks, last) =>
      match env with
      | [] => lift Diverges
      | e :: env => e;; wait_ticks env ticks last my_num
      end
  end.
(** The loop that looks at the clock. *)
Fixpoint wait_clock (env : others) (times : list (option (Z * Z))) (sec usec : Z) (my_num : ptr)
    : M mstate Z :=
  w ← waiting my_num;
  if negb w then mret MUTEX_SUCCESS else
  match env, times with
  | e :: env, now :: times =>
      let late := match now with
        | Some (s, us) =>
            ((s <? sec) || (s >? sec + 5)) &&
            ((s >? sec) && ((s <? sec + 2) || (sec >? sec + 2)) && (us <? usec))
        | None => false
        end in
      if late then withdraw my_num;; mret MUTEX_TIMEOUT
      else e;; wait_clock env times sec usec my_num
  | _, _ => lift Diverges
  end.
(** The loops without a timeout. *)
Fixpoint wait_forever (env : others) (my_num : ptr) : M mstate Z :=
  w ← waiting my_num;
  if negb w then mret MUTEX_SUCCESS else
  match env with [] => lift Diverges | e :: env => e;; wait_forever env my_num end.

(** The time the clock loop waits for. *)
Definition deadline (now : Z * Z) (millis : Z) : Z * Z :=
  let '(sec, usec) := now in
  let sec := sec + millis / 1000 in
  let usec := usec + millis mod 1000 * 1000 in
  let '(sec, usec) := if usec >? 1000 * 1000 then (sec + 1, usec - 1000 * 1000) else (sec, usec) in
  if usec >? 990 * 1000 then (sec + 1, 0) else (sec, usec).

(** [my_num]: the address of the local variable; [k]: the allocation of the
    list's node.  The variable is gone when the function has returned. *)
Definition leave {A} (my_num : ptr) (a : A) : M mstate A :=
  in_list (release (A := Z) my_num);; mret a.
Definition MutexObject_request_lock (my_num : ptr) (k : option ptr) (env : others)
    (times : list (option (Z * Z))) : M (option mstate) Z :=
  no_guard (
    n ← gets (fun s => request_num (mutex s));
    let n := u32 (n + 1) in
    let n := if negb (n =? 0) then n else u32 (n + 1) in
    set_request_num n;;
    in_list (modify (fun q => put (<[my_num := n]> (numbers q)) q));;
    refuse ← gets (fun s => refuse_requests (mutex s));
    if refuse : bool then leave my_num MUTEX_CANCELED else
    on_list (ListHistory_member_function_push_back k my_num false user_compare);;
    t ← gets (fun s => timeout_millis (mutex s)); u ← gets (fun s => sleep_micros (mutex s));
    r ← (if negb (t =? 0) then
           if negb (u =? 0) then wait_ticks env (-1) 0 my_num
           else match times with
                | Some now :: times =>
                    let '(sec, usec) := deadline now t in wait_clock env times sec usec my_num
                | None :: _ => withdraw my_num;; mret MUTEX_ERROR
                | [] => lift Diverges
                end
         else wait_forever env my_num);
    leave my_num r).
Definition MutexObject_unlock : M (option mstate) Z :=
  on_obj MUTEX_NULL_ARG (on_list ListHistory_member_function_pop_off;; mret MUTEX_SUCCESS).

(** [mutex]: the pointer and the pointer behind it. *)
Definition delMutexObject (my_num : ptr) (k : option ptr) (env : others)
    (times : list (option (Z * Z))) (mutex : option (option mstate))
    : res (option (option mstate) * list event) :=
  o ← deref mutex;
  '(err, o, t) ← MutexObject_request_lock my_num k env times o;
  if (err =? MUTEX_NULL_ARG) || (err =? MUTEX_CANCELED) then Ok (Some None, t) else
  (* [*mutex] was set to NULL before [( *mutex)->request_list] is read *)
  '(_, _, _) ← no_guard (set_refuse true) o;
  _ ← deref (None : option mstate);
  Ok (Some None, t).

(** * The constructors

    In the configuration without [LIST_HISTORY_NO_MUTEX], the default, a
    history list creates a mutex object, and that a history list: [depth] bounds
    their nesting, [malloc n] is the outcome of the [n]-th allocation.  The
    results are the function's value and the number of allocations made. *)
Definition newMutexObject_with (newListHistory : nat -> res (Z * nat)) (malloc : nat -> bool) (n : nat)
    : res (bool * nat) :=
  if negb (malloc n) then Ok (false, S n) else
  '(err, n) ← newListHistory (S n);
  Ok (err =? 0, n).
Fixpoint newListHistory_at (depth : nat) (malloc : nat -> bool) (n : nat) : res (Z * nat) :=
  match depth with
  | O => Diverges
  | S depth =>
      if negb (malloc n) then Ok (LIST_HISTORY_MEM_ERR, S n) else
      '(mutex, n) ← newMutexObject_with (newListHistory_at depth malloc) malloc (S n);
      Ok (if negb mutex then LIST_HISTORY_MEM_ERR else LIST_HISTORY_OK, n)
  end.
(** With [LIST_HISTORY_NO_MUTEX]. *)
Definition newListHistory (ok : bool) (max_ : Z) : Z * option ListHistory :=
  if negb ok then (LIST_HISTORY_MEM_ERR, None) else (LIST_HISTORY_OK, Some (new_history max_)).
Definition newMutexObject (ok list_ok : bool) : option mstate :=
  if negb ok then None else
  match newListHistory list_ok (-1) with
  | (_, Some h) => Some (mkM (mkMutex 5000 1000 false 0) (mkState ∅ h ∅))
  | (_, None) => None
  end.
