(* ===== verification/MutexObjectSpec.v ===== *)
(** What the lock of [MutexObject] does: a request on a free lock succeeds and
    an unlock frees it, but a second request reads the dead local variable of
    the holder, deleting a mutex object dereferences NULL, and in the default
    configuration no object can be created. *)
From S2P Require Import Prelude Effects Heap ListHistory ListHistorySpec MutexObject.
Open Scope Z_scope.

(** * The constructors of the default configuration *)

(** In the default configuration [newListHistory] never returns an object: the history list
    creates a mutex object, which creates a history list, and so on, until an allocation fails
    (then everything is undone and the error is returned); when none fails, the calls nest
    without end. *)
Theorem newListHistory_never malloc n depth :
  (forall n', newListHistory_at depth malloc n <> Ok (LIST_HISTORY_OK, n')) /\
  ((forall i, (n <= i)%nat -> malloc i = true) -> newListHistory_at depth malloc n = Diverges) /\
  (forall i, (n <= i < n + depth)%nat -> malloc i = false ->
     exists n', newListHistory_at depth malloc n = Ok (LIST_HISTORY_MEM_ERR, n')).
Proof.
  revert n. induction depth as [|depth IH]; intros n; [split; [done|split; [done|lia]]|].
  cbn [newListHistory_at]. unfold newMutexObject_with.
  destruct (IH (S (S n))) as (Hnever & Hall & Hfail). split; [|split].
  - intros n'. destruct (malloc n); [|done]. cbn [negb].
    destruct (malloc (S n)); [|done]. cbn [negb mbind res_bind].
    destruct (newListHistory_at depth malloc (S (S n))) as [[e m]| |] eqn:E; [|done|done].
    cbn [mbind res_bind]. destruct (e =? 0) eqn:Ee; [|done].
    apply Z.eqb_eq in Ee as ->. by destruct (Hnever m).
  - intros Hm. rewrite (Hm n), (Hm (S n)) by lia. cbn [negb mbind res_bind].
    rewrite Hall by (intros; apply Hm; lia). done.
  - intros i Hi Hm. destruct (malloc n) eqn:En; [|by eexists]. cbn [negb].
    destruct (malloc (S n)) eqn:En1; [|by eexists]. cbn [negb mbind res_bind].
    assert (i <> n /\ i <> S n) as [??] by (split; congruence).
    destruct (Hfail i ltac:(lia) Hm) as [n' ->]. by eexists.
Qed.
Lemma newListHistory_never_witness :
  newListHistory_at 5 (fun i => (i <? 4)%nat) 0 = Ok (LIST_HISTORY_MEM_ERR, 5%nat).
Proof.
  destruct (proj2 (proj2 (newListHistory_never (fun i => (i <? 4)%nat) 0 5)) 4%nat) as [n' E];
    [lia|done|]. by vm_compute in E |- *.
Defined.

(** * Requests *)
Section requests.
Variables (t u : Z) (m : Z).
Implicit Types (num : Z) (nums : gmap Z Z) (xs : list entry).

(** A mutex object that accepts requests, with the waiting requests [xs]. *)
Definition free_mutex num nums xs : mstate := mkM (mkMutex t u false num) (st m nums xs).
Definition request (k my_num : ptr) : entry := mkEntry k my_num false user_compare.

Lemma in_list_ok {A} (f : state -> res (A * state * list event)) mu q a q' ev :
  f q = Ok (a, q', ev) -> in_list f (mkM mu q) = Ok (a, mkM mu q', ev).
Proof. intros H. unfold in_list. cbn [requests mutex]. by rewrite H. Qed.
Lemma on_list_ok {A} (f : M (option state) A) mu q a q' ev :
  f (Some q) = Ok (a, Some q', ev) -> on_list f (mkM mu q) = Ok (a, mkM mu q', ev).
Proof. intros H. unfold on_list. cbn [requests mutex]. by rewrite (here_Some _ _ _ _ _ H). Qed.
Definition next_request (n : Z) : Z := let n := u32 (n + 1) in if negb (n =? 0) then n else u32 (n + 1).

Lemma trim_off xs : m < 0 -> trim m xs = (xs, []).
Proof. intros Hm. destruct xs; [done|]. cbn [trim]. by rewrite Z.gtb_ltb, (proj2 (Z.ltb_ge _ _)) by lia. Qed.

(** The beginning of a request: the number is taken and the request queued. *)
Lemma request_lock_enqueues num nums xs p k env times :
  p <> NULL -> m < 0 -> wf_chain (xs ++ [request k p]) -> Z.of_nat (length xs) + 1 < 2 ^ 32 ->
  MutexObject_request_lock p (Some k) env times (Some (free_mutex num nums xs))
  = '(a, s, ev) ← (r ← (if negb (t =? 0) then
           if negb (u =? 0) then wait_ticks env (-1) 0 p
           else match times with
                | Some now :: times =>
                    let '(sec, usec) := deadline now t in wait_clock env times sec usec p
                | None :: _ => withdraw p;; mret MUTEX_ERROR
                | [] => lift Diverges
                end
         else wait_forever env p);
    leave p r) (free_mutex (next_request num) (<[p := next_request num]> nums) (xs ++ [request k p]));
    Ok (a, Some s, ev).
Proof.
  intros Hp Hm Hw Hlen. unfold MutexObject_request_lock, no_guard. cbn [deref mbind res_bind].
  rewrite bind_gets. cbn [mutex free_mutex request_num]. fold (next_request num).
  cbv zeta. fold (next_request num). unfold set_request_num. rewrite bind_modify.
  erewrite (bind_quiet (in_list _)); [|by apply in_list_ok].
  rewrite bind_gets. cbn [mutex free_mutex refuse_requests].
  erewrite (bind_quiet (on_list _)); cycle 1.
  { apply on_list_ok. cbn [put numbers_store requests free_mutex nodes hist numbers st].
    etransitivity; [exact (hist_push_back_ok m (<[p := next_request num]> nums) xs k p false user_compare Hw Hp Hlen)|].
    by rewrite trim_off. }
  rewrite !bind_gets. done.
Qed.

(** A request compares its number with the one at the root of the list. *)
Lemma waiting_root mu num nums x xs p a :
  wf_chain (x :: xs) -> item x <> NULL -> p <> NULL ->
  nums !! item x = Some a -> nums !! p = Some num ->
  waiting p (mkM mu (st m nums (x :: xs))) = Ok (negb (a =? num), mkM mu (st m nums (x :: xs)), []).
Proof.
  intros Hw Hx Hp Ha Hn. apply in_list_ok. bget. cbn [hist st list_root first].
  rewrite (proj2 (Z.eqb_neq _ _) (addr_null [] x xs Hw)).
  rewrite (bind_node [] x xs NULL) by done. cbn [node_of list_item].
  unfold request_compare, number.
  rewrite (bind_load (H := numbers_store) (item x) _ (st m nums (x :: xs)) a Hx Ha).
  by rewrite (bind_load (H := numbers_store) p _ (st m nums (x :: xs)) num Hp Hn).
Qed.
(** When the variable of the request at the root is gone, the comparison reads
    a dead object. *)
Lemma waiting_dangling mu nums x xs p :
  wf_chain (x :: xs) -> item x <> NULL -> nums !! item x = None ->
  waiting p (mkM mu (st m nums (x :: xs))) = UB Dangling.
Proof.
  intros Hw Hx Ha. unfold waiting, in_list. cbn [requests mutex].
  enough ((root ← get_root; if root =? NULL then mret false
    else i ← node root; request_compare (list_item i) p) (st m nums (x :: xs)) = UB Dangling) as -> by done.
  bget. cbn [hist st list_root first]. rewrite (proj2 (Z.eqb_neq _ _) (addr_null [] x xs Hw)).
  rewrite (bind_node [] x xs NULL) by done. cbn [node_of list_item].
  apply bind_UB. by apply (load_dangling (H := numbers_store)).
Qed.
Lemma leave_ok mu nums xs p n (a : Z) : p <> NULL -> nums !! p = None ->
  leave p a (mkM mu (st m (<[p := n]> nums) xs)) = Ok (a, mkM mu (st m nums xs), []).
Proof.
  intros Hp Hn. unfold leave. erewrite bind_quiet; [done|]. apply in_list_ok.
  erewrite (release_ok (H := numbers_store)); [|done|apply lookup_insert_eq].
  cbn [objs numbers_store put st nodes hist numbers]. by rewrite delete_insert_id.
Qed.

Lemma wait_now env times ticks last sec usec p s :
  waiting p s = Ok (false, s, []) ->
  wait_ticks env ticks last p s = Ok (MUTEX_SUCCESS, s, []) /\
  wait_clock env times sec usec p s = Ok (MUTEX_SUCCESS, s, []) /\
  wait_forever env p s = Ok (MUTEX_SUCCESS, s, []).
Proof. intros Hw. destruct env; cbn; rewrite !(bind_quiet _ _ _ _ _ Hw); done. Qed.
Lemma wait_fault env times ticks last sec usec p s f :
  waiting p s = UB f ->
  wait_ticks env ticks last p s = UB f /\ wait_clock env times sec usec p s = UB f /\
  wait_forever env p s = UB f.
Proof. intros Hw. destruct env; cbn; rewrite !(bind_UB _ _ _ _ Hw); done. Qed.
(** The clock is read when the request is to spin until a deadline. *)
Definition clock_works (times : list (option (Z * Z))) : Prop :=
  t = 0 \/ u <> 0 \/ exists now rest, times = Some now :: rest.

Lemma lock_free num nums p k env times :
  p <> NULL -> k <> NULL -> m < 0 -> nums !! p = None -> clock_works times ->
  MutexObject_request_lock p (Some k) env times (Some (free_mutex num nums []))
    = Ok (MUTEX_SUCCESS, Some (free_mutex (next_request num) nums [request k p]), []).
Proof.
  intros Hp Hk Hm Hn Hc.
  assert (wf_chain ([] ++ [request k p])) as Hw by (split; repeat constructor; [set_solver|done]).
  rewrite request_lock_enqueues; [|done|done|done|cbn; lia]. cbn [app].
  set (s1 := free_mutex _ _ _).
  assert (waiting p s1 = Ok (false, s1, [])) as Hwait.
  { unfold s1, free_mutex.
    rewrite (waiting_root _ (next_request num) _ _ _ p (next_request num)); try done.
    - by rewrite Z.eqb_refl.
    - apply lookup_insert_eq.
    - apply lookup_insert_eq. }
  erewrite bind_quiet with (a := MUTEX_SUCCESS) (s1 := s1).
  - unfold s1, free_mutex. by rewrite leave_ok.
  - destruct (Z.eqb_spec t 0); [by apply wait_now|]. destruct (Z.eqb_spec u 0); [|by apply wait_now].
    destruct Hc as [?|[?|(now & rest & ->)]]; [done|done|]. cbn [negb].
    destruct (deadline now t) as [sec usec]. by apply wait_now.
Qed.
Lemma unlock_ok num nums x xs : wf_chain (x :: xs) ->
  MutexObject_unlock (Some (free_mutex num nums (x :: xs)))
    = Ok (MUTEX_SUCCESS, Some (free_mutex num nums xs), freed x).
Proof.
  intros Hw. apply on_obj_Ok. eapply bind_loud; [|done].
  apply on_list_ok. by apply pop_off_ok.
Qed.
Lemma lock_dangling num nums x xs p k env times :
  p <> NULL -> m < 0 -> wf_chain ((x :: xs) ++ [request k p]) ->
  Z.of_nat (length (x :: xs)) + 1 < 2 ^ 32 ->
  item x <> NULL -> p <> item x -> nums !! item x = None -> clock_works times ->
  MutexObject_request_lock p (Some k) env times (Some (free_mutex num nums (x :: xs))) = UB Dangling.
Proof.
  intros Hp Hm Hw Hlen Hx Hpx Hn Hc. rewrite request_lock_enqueues by done. cbn [app] in *.
  set (s1 := free_mutex _ _ _).
  assert (waiting p s1 = UB Dangling) as Hwait.
  { apply waiting_dangling; [done|done|]. by rewrite lookup_insert_ne. }
  rewrite (bind_UB _ _ s1 Dangling); [done|].
  destruct (Z.eqb_spec t 0); [by apply wait_fault|]. destruct (Z.eqb_spec u 0); [|by apply wait_fault].
  destruct Hc as [?|[?|(now & rest & ->)]]; [done|done|]. cbn [negb].
  destruct (deadline now t) as [sec usec]. by apply wait_fault.
Qed.

(** A request on a free lock succeeds at once, and the unlock that follows frees it again. *)
Theorem lock_unlock num nums p k env times :
  p <> NULL -> k <> NULL -> m < 0 -> nums !! p = None -> clock_works times ->
  exists s,
    MutexObject_request_lock p (Some k) env times (Some (free_mutex num nums []))
      = Ok (MUTEX_SUCCESS, Some s, []) /\
    MutexObject_unlock (Some s) = Ok (MUTEX_SUCCESS, Some (free_mutex (next_request num) nums []), []).
Proof.
  intros. eexists. split; [by apply lock_free|].
  rewrite unlock_ok; [done|]. split; repeat constructor; [set_solver|done].
Qed.

(** While the lock is held, another thread's request does not wait for it: the holder's
    number, which the request compares with its own, was a local variable of the holder's call of
    [MutexObject_request_lock], and that call has returned. *)
Theorem second_request_dangling num nums p1 k1 env1 times1 p2 k2 env2 times2 :
  p1 <> NULL -> p2 <> NULL -> p1 <> p2 -> k1 <> NULL -> k2 <> NULL -> k1 <> k2 ->
  m < 0 -> nums !! p1 = None -> clock_works times1 -> clock_works times2 ->
  exists s,
    MutexObject_request_lock p1 (Some k1) env1 times1 (Some (free_mutex num nums []))
      = Ok (MUTEX_SUCCESS, Some s, []) /\
    MutexObject_request_lock p2 (Some k2) env2 times2 (Some s) = UB Dangling.
Proof.
  intros. eexists. split; [by apply lock_free|].
  apply lock_dangling; try done. split; repeat constructor; try done; set_solver.
Qed.
End requests.

(** * Deleting a mutex object *)
Definition results {S A} (m : M S A) (P : A -> Prop) : Prop :=
  forall s a s' ev, m s = Ok (a, s', ev) -> P a.
Lemma results_ret {S A} (a : A) (P : A -> Prop) : P a -> results (mret a : M S A) P.
Proof. intros HP s b s' ev [= <- <- <-]. done. Qed.
Lemma results_bind {S A B} (m : M S A) (k : A -> M S B) P :
  (forall a, results (k a) P) -> results (mbind k m) P.
Proof.
  intros Hk s b s' ev. unfold mbind, M_bind.
  destruct (m s) as [[[a s1] t1]| |]; cbn; [|done|done].
  destruct (k a s1) as [[[b' s2] t2]| |] eqn:E; cbn; [|done|done].
  intros [= <- <- <-]. by eapply Hk.
Qed.
Lemma results_lift_fail {S A} (r : res A) P : (forall a, r <> Ok a) -> results (lift r : M S A) P.
Proof. intros Hr s a s' ev. destruct r; [by destruct (Hr a0)|done|done]. Qed.
Create HintDb results discriminated.
#[local] Hint Resolve results_ret : results.

Definition outcome (r : Z) : Prop := r = MUTEX_SUCCESS \/ r = MUTEX_TIMEOUT \/ r = MUTEX_ERROR.
Lemma wait_ticks_results env ticks last p : results (wait_ticks env ticks last p) outcome.
Proof.
  revert ticks last. induction env as [|e env IH]; intros ticks last; cbn [wait_ticks];
    apply results_bind; intros [|]; cbn [negb]; try (apply results_ret; by left);
    do 3 (apply results_bind; intros ?).
  - destruct a1 as [[??]|]; [by apply results_lift_fail|].
    apply results_bind; intros _. apply results_ret. right; by left.
  - destruct a1 as [[??]|].
    + apply results_bind; intros _. apply IH.
    + apply results_bind; intros _. apply results_ret. right; by left.
Qed.
Lemma wait_clock_results env times sec usec p : results (wait_clock env times sec usec p) outcome.
Proof.
  revert times. induction env as [|e env IH]; intros times; cbn [wait_clock];
    apply results_bind; intros [|]; cbn [negb]; try (apply results_ret; by left).
  - by apply results_lift_fail.
  - destruct times as [|now times]; [by apply results_lift_fail|]. cbv zeta.
    destruct (match now with Some _ => _ | None => _ end).
    + apply results_bind; intros _. apply results_ret. right; by left.
    + apply results_bind; intros _. apply IH.
Qed.
Lemma wait_forever_results env p : results (wait_forever env p) outcome.
Proof.
  induction env as [|e env IH]; cbn [wait_forever];
    apply results_bind; intros [|]; cbn [negb]; try (apply results_ret; by left).
  - by apply results_lift_fail.
  - apply results_bind; intros _. apply IH.
Qed.
Lemma leave_results p (r : Z) (P : Z -> Prop) : P r -> results (leave p r) P.
Proof. intros HP. apply results_bind. intros _. by apply results_ret. Qed.
Lemma results_and {S A B} (m : M S A) (k : A -> M S B) P Q :
  results m P -> (forall a, P a -> results (k a) Q) -> results (mbind k m) Q.
Proof.
  intros Hm Hk s b s' ev. unfold mbind, M_bind.
  destruct (m s) as [[[a s1] t1]| |] eqn:Em; cbn; [|done|done].
  destruct (k a s1) as [[[b' s2] t2]| |] eqn:E; cbn; [|done|done].
  intros [= <- <- <-]. eapply Hk; [by eapply Hm|done].
Qed.
(** The function's results on an object that accepts requests. *)
Lemma request_lock_outcome p k env times s r o ev :
  refuse_requests (mutex s) = false ->
  MutexObject_request_lock p k env times (Some s) = Ok (r, o, ev) -> outcome r.
Proof.
  intros Hr. unfold MutexObject_request_lock, no_guard. cbn [deref mbind res_bind].
  rewrite bind_gets. cbv zeta. unfold set_request_num. rewrite bind_modify.
  erewrite (bind_quiet (in_list _)); [|by unfold in_list].
  rewrite bind_gets. cbn [mutex refuse_requests]. rewrite Hr.
  match goal with |- mbind _ (?m ?x) = _ -> _ => assert (results m outcome) as Hres end.
  { apply results_bind; intros _. do 2 (apply results_bind; intros ?).
    eapply results_and; [|intros; by apply leave_results].
    destruct (negb _); [|apply wait_forever_results]. destruct (negb _); [apply wait_ticks_results|].
    destruct times as [|[now|] times]; [by apply results_lift_fail| |].
    - destruct (deadline now a) as [??]. apply wait_clock_results.
    - apply results_bind; intros _. apply results_ret. by right; right. }
  match goal with |- mbind _ (?m ?x) = _ -> _ => destruct (m x) as [[[??]?]| |] eqn:E end;
    cbn; [|done|done].
  intros [= <- _ _]. by eapply Hres.
Qed.

(** [delMutexObject] never deletes an object that accepts requests: it sets the pointer to NULL
    and then reads the request list through it. *)
Theorem delMutexObject_crashes p k env times s res :
  refuse_requests (mutex s) = false ->
  delMutexObject p k env times (Some (Some s)) <> Ok res.
Proof.
  intros Hr. unfold delMutexObject. cbn [deref mbind res_bind].
  destruct (MutexObject_request_lock p k env times (Some s)) as [[[r o] ev]| |] eqn:E; [|done|done].
  cbn [mbind res_bind].
  assert ((r =? MUTEX_NULL_ARG) || (r =? MUTEX_CANCELED) = false) as ->.
  { destruct (request_lock_outcome _ _ _ _ _ _ _ _ Hr E) as [->|[->| ->]]; done. }
  by destruct (no_guard (set_refuse true) o) as [[[??]?]| |].
Qed.

(** * Concrete objects *)
Lemma lock_unlock_witness :
  exists s,
    MutexObject_request_lock 8 (Some 101) [] [] (Some (free_mutex 5000 1000 (-1) 0 ∅ []))
      = Ok (MUTEX_SUCCESS, Some s, []) /\
    MutexObject_unlock (Some s) = Ok (MUTEX_SUCCESS, Some (free_mutex 5000 1000 (-1) 1 ∅ []), []).
Proof.
  apply (lock_unlock 5000 1000 (-1) 0 ∅ 8 101 [] []); try done. by right; left.
Defined.
Lemma second_request_dangling_witness :
  exists s,
    MutexObject_request_lock 8 (Some 101) [] [] (Some (free_mutex 5000 1000 (-1) 0 ∅ []))
      = Ok (MUTEX_SUCCESS, Some s, []) /\
    MutexObject_request_lock 16 (Some 102) [mret tt] [] (Some s) = UB Dangling.
Proof.
  apply (second_request_dangling 5000 1000 (-1) 0 ∅ 8 101 [] [] 16 102 [mret tt] []); try done; by right; left.
Defined.
Lemma delMutexObject_crashes_witness :
  delMutexObject 8 (Some 101) [] [] (Some (Some (free_mutex 5000 1000 (-1) 0 ∅ []))) <> Ok (Some None, []).
Proof. by apply (delMutexObject_crashes 8 (Some 101) [] [] (free_mutex 5000 1000 (-1) 0 ∅ [])). Defined.
