(* ===== verification/MemPool.v ===== *)
(** Pools of reusable memory blocks: [source/MemPool.c], on top of
    [ArrayList].  A pool's array holds the addresses of its blocks; the blocks
    live in a map.  [news i] gives the outcome of the allocations for the slot
    [i]: the address [malloc] returns for the block ([None] when it fails) and
    the data and size the client's callback provides (0 when it fails). *)
From S2P Require Import Prelude Memory Effects Heap ArrayList.
Open Scope Z_scope.

(** [reserving_pool] is the pool's own address or NULL: whether it is set. *)
Record MemPoolBlock := mkBlock {
  data : ptr; data_size : Z; free_data : bool; reserving_pool : bool }.
Record MemPool := mkPool {
  array : ArrayList; blocks : gmap Z MemPoolBlock; reserved_count : Z; free_user_data_cb : bool }.
Definition MEMPOOL_DEFAULT_MAX_CAPACITY : Z := 256.

#[export] Instance blocks_store : Store MemPool MemPoolBlock := {|
  objs := blocks; put m p := mkPool (array p) m (reserved_count p) (free_user_data_cb p);
  objs_put _ _ := eq_refl; put_put _ _ _ := eq_refl;
  put_objs p := match p with mkPool _ _ _ _ => eq_refl end |}.
Definition on_array {A} (m : M ArrayList A) : M MemPool A := fun p =>
  '(a, l, t) ← m (array p); Ok (a, mkPool l (blocks p) (reserved_count p) (free_user_data_cb p), t).
Definition set_reserved_count (n : Z) : M MemPool unit :=
  modify (fun p => mkPool (array p) (blocks p) n (free_user_data_cb p)).
Definition block_at (b : ptr) : M MemPool MemPoolBlock := load b.
Definition set_reserving (r : bool) (b : MemPoolBlock) : MemPoolBlock :=
  mkBlock (data b) (data_size b) (free_data b) r.
Definition set_reserving_pool (b : ptr) (r : bool) : M MemPool unit := update b (set_reserving r).

(** * Blocks *)
Definition MemPoolBlock_get_data (b : ptr) : M MemPool ptr := x ← block_at b; mret (data x).
Definition MemPoolBlock_get_data_size (b : ptr) : M MemPool Z := x ← block_at b; mret (data_size x).
Definition MemPoolBlock_is_reservered (b : ptr) : M MemPool bool :=
  x ← block_at b; mret (reserving_pool x).

Notation allocation := (option ptr * (ptr * Z))%type.
Definition newMemPoolBlock (new : allocation) : M MemPool ptr :=
  let '(k, (d, size)) := new in
  match k with
  | None => mret NULL
  | Some _ =>
      if d =? NULL then mret NULL else
      f ← gets free_user_data_cb; alloc k (mkBlock d size f false)
  end.
Definition freeMemPoolBlock (b : ptr) : M MemPool unit :=
  x ← block_at b;
  when (negb (data x =? NULL) && free_data x) (emit (EvFree (data x)));;
  release (A := MemPoolBlock) b.

(** * The pool *)

(** [for(; count < capacity; ++array_it) ...]; [None] when the loop is left by
    the [goto]. *)
Fixpoint fill_from (fuel : nat) (news : Z -> allocation) (array_it : Z) : M MemPool bool :=
  match fuel with
  | O => lift Diverges
  | S fuel =>
      n ← gets (fun p => count (array p)); cap ← gets (fun p => capacity (array p));
      if n <? cap then
        b ← newMemPoolBlock (news array_it); on_array (slot_store array_it b);;
        if negb (b =? NULL) then
          on_array incr_count;; fill_from fuel news (array_it + 1)
        else mret false
      else mret true
  end.
Definition fill_resized_memory (news : Z -> allocation) : M (option MemPool) Z :=
  on_obj ALIB_BAD_ARG (
    u ← gets (fun p => use_mutex (array p));
    when u (on_array mutex_lock);;
    n ← gets (fun p => count (array p)); cap ← gets (fun p => capacity (array p));
    full ← fill_from (S (Z.to_nat (cap - n))) news n;
    if full : bool then when u (on_array mutex_unlock);; mret ALIB_OK
    else mret ALIB_MEM_ERR).
Definition expand (ok : bool) (news : Z -> allocation) : M (option MemPool) Z :=
  on_obj ALIB_BAD_ARG (
    cap ← gets (fun p => capacity (array p)); mx ← gets (fun p => max_cap (array p));
    if cap =? mx then mret ALIB_INTERNAL_MAX_REACHED else
    let new_cap := u64 (cap * 2) in
    let new_cap := if new_cap <? cap then ULONG_MAX else new_cap in
    r ← on_array (here (ArrayList_resize_tsafe ok new_cap));
    n ← gets (fun p => count (array p));
    if r =? n then mret ALIB_MEM_ERR else here (fill_resized_memory news)).

(** [for(...; it_count < capacity; ...)] until a block is not reserved. *)
Fixpoint first_free (fuel : nat) (it_count : Z) : M MemPool ptr :=
  match fuel with
  | O => lift Diverges
  | S fuel =>
      cap ← gets (fun p => capacity (array p));
      if it_count <? cap then
        b ← on_array (slot_load it_count); x ← block_at b;
        if negb (reserving_pool x) then
          set_reserving_pool b true;;
          n ← gets reserved_count; set_reserved_count (u64 (n + 1));; mret b
        else first_free fuel (it_count + 1)
      else mret NULL
  end.
Definition MemPool_reserve_block (ok : bool) (news : Z -> allocation) : M (option MemPool) ptr :=
  on_obj NULL (
    n ← gets reserved_count; cap ← gets (fun p => capacity (array p));
    err ← (if n =? cap then here (expand ok news) else mret 0);
    if negb (err =? 0) then mret NULL else
    cap ← gets (fun p => capacity (array p)); first_free (S (Z.to_nat cap)) 0).
(** [block]: the pointer behind the double pointer. *)
Definition MemPool_unreserve_block (block : option ptr) : M MemPool (option ptr) :=
  match block with
  | None => mret None
  | Some b =>
      if b =? NULL then mret block else
      x ← block_at b;
      if negb (reserving_pool x) then lift (UB NullDeref) else
      n ← gets reserved_count; set_reserved_count (u64 (n - 1));;
      set_reserving_pool b false;; mret (Some NULL)
  end.

(** The array's free callback is [freeMemPoolBlock]: it is called on the items
    the trace of the array's operation names. *)
Fixpoint call_free (t : Datatypes.list event) : M MemPool unit :=
  match t with
  | [] => mret tt
  | EvFree b :: t => freeMemPoolBlock b;; call_free t
  | e :: t => emit e;; call_free t
  end.
Definition delMemPool (pool : option MemPool) : res (option MemPool * Datatypes.list event) :=
  match pool with
  | None => Ok (None, [])
  | Some p =>
      '(_, _, t) ← delArrayList (Some (array p));
      '(_, _, t) ← call_free t p; Ok (None, t)
  end.
(** [ok]: the outcome of the allocation of the pool, of the array object and of
    its array. *)
Definition newMemPool_ex (ok ok_obj ok_list : bool) (news : Z -> allocation) (alloc_cb free_cb : bool)
    (start_cap max_cap : Z) (use_mutex : bool) : res (option MemPool * Datatypes.list event) :=
  if negb alloc_cb || negb ok then Ok (None, []) else
  '(l, t) ← newArrayList_ex ok_obj ok_list true start_cap max_cap use_mutex;
  match l with
  | None => Ok (None, t)
  | Some l =>
      '(err, o, t') ← fill_resized_memory news (Some (mkPool l ∅ 0 free_cb));
      if negb (err =? 0) then '(o, t'') ← delMemPool o; Ok (o, t ++ t' ++ t'')
      else Ok (o, t ++ t')
  end.
(** [free_block_default] is passed when the client gives no function. *)
Definition newMemPool (ok ok_obj ok_list : bool) (news : Z -> allocation) (alloc_cb : bool) :=
  newMemPool_ex ok ok_obj ok_list news alloc_cb true 1 MEMPOOL_DEFAULT_MAX_CAPACITY true.
