(* ===== verification/MemPoolSpec.v ===== *)
(** What a pool promises: the blocks it hands out are not handed out again
    before they are returned.  [pool] is the state that represents a list of
    blocks in array order; the theorems follow reservations and returns, and the
    pool's growth. *)
From S2P Require Import Prelude Memory Effects Heap ArrayList ArrayListSpec MemPool.
Open Scope Z_scope.

Notation entry := (ptr * MemPoolBlock)%type.
Notation blks := (Datatypes.list entry).
Definition is_reserved (e : entry) : bool := reserving_pool (snd e).
Definition outstanding (xs : blks) : Datatypes.list ptr := fst <$> filter is_reserved xs.

(** A pool with the blocks [xs] and [k] slots that are not filled yet. *)
Definition partial (mx : Z) (um held f : bool) (xs : blks) (k : nat) : MemPool :=
  mkPool (mkArrayList (Some (xs.*1 ++ replicate k NULL)) (blen xs) (blen xs + Z.of_nat k) mx true um held)
    (list_to_map xs) (blen (outstanding xs)) f.
Definition pool mx um f xs : MemPool := partial mx um false f xs 0.
Definition wf_blocks (xs : blks) : Prop :=
  NoDup xs.*1 /\ Forall (fun e => fst e <> NULL) xs /\ blen xs <= 2 ^ 59.

Lemma outstanding_app xs ys : outstanding (xs ++ ys) = outstanding xs ++ outstanding ys.
Proof. unfold outstanding. by rewrite filter_app, fmap_app. Qed.
Lemma outstanding_le xs : blen (outstanding xs) <= blen xs.
Proof. unfold blen, outstanding. rewrite length_fmap. pose proof (length_filter is_reserved xs). lia. Qed.
Lemma outstanding_all xs : blen (outstanding xs) = blen xs <-> Forall is_reserved xs.
Proof.
  unfold blen, outstanding. rewrite length_fmap. induction xs as [|e xs IH]; [done|].
  rewrite filter_cons, Forall_cons. pose proof (length_filter is_reserved xs).
  case_decide; cbn [length]; [rewrite <- IH; naive_solver lia|].
  split; [lia|]. by intros [??].
Qed.

Lemma blen_fmap_map {A B} (g : A -> B) xs : blen (g <$> xs) = blen xs.
Proof. unfold blen. by rewrite length_fmap. Qed.
Lemma NoDup_outstanding xs : NoDup xs.*1 -> NoDup (outstanding xs).
Proof. intros Hn. eapply sublist_NoDup; [exact Hn|]. apply fmap_sublist, sublist_filter. Qed.
Lemma nonnull_outstanding xs :
  Forall (fun e => fst e <> NULL) xs -> Forall (fun b => b <> NULL) (outstanding xs).
Proof.
  intros Hf. apply Forall_fmap. rewrite Forall_forall in *. intros e He.
  apply list_elem_of_filter in He as [_ He]. by apply Hf.
Qed.
Lemma reserved_outstanding xs b x : NoDup xs.*1 ->
  list_to_map (M := gmap Z MemPoolBlock) xs !! b = Some x -> reserving_pool x = true <-> b ∈ outstanding xs.
Proof.
  intros Hn Hx. apply elem_of_list_to_map in Hx as Hin; [|done]. unfold outstanding.
  rewrite list_elem_of_fmap. split.
  - intros Hr. exists (b, x). split; [done|]. apply list_elem_of_filter. split; [|done].
    unfold is_reserved. cbn [snd]. by rewrite Hr.
  - intros ([b' y] & E & Hy). cbn in E. subst b'. apply list_elem_of_filter in Hy as [Hr Hy].
    apply (elem_of_list_to_map (M := gmap Z)) in Hy; [|done]. rewrite Hx in Hy. simplify_eq.
    unfold is_reserved in Hr. cbn [snd] in Hr. by destruct (reserving_pool _).
Qed.
(** ** Blocks in the map *)
Lemma block_lookup A e B : NoDup (A ++ e :: B).*1 ->
  list_to_map (M := gmap Z MemPoolBlock) (A ++ e :: B) !! fst e = Some (snd e).
Proof. intros Hn. apply elem_of_list_to_map; [done|]. destruct e. set_solver. Qed.
Lemma block_insert A b x y B : NoDup (A ++ (b, x) :: B).*1 ->
  <[b := y]> (list_to_map (M := gmap Z MemPoolBlock) (A ++ (b, x) :: B)) = list_to_map (A ++ (b, y) :: B).
Proof.
  induction A as [|[a z] A IH]; intros Hn; cbn in *; [by rewrite insert_insert_eq|].
  apply NoDup_cons in Hn as [Hin Hn]. rewrite insert_insert_ne, IH; [done|done|].
  intros ->. apply Hin. rewrite fmap_app. set_solver.
Qed.
Lemma bind_block {R} A e B s (k : MemPoolBlock -> M MemPool R) :
  NoDup (A ++ e :: B).*1 -> fst e <> NULL -> blocks s = list_to_map (A ++ e :: B) ->
  mbind k (block_at (fst e)) s = k (snd e) s.
Proof. intros Hn He Hs. apply bind_load; [done|]. cbn. rewrite Hs. by apply block_lookup. Qed.
Lemma bind_array {A B} (m : M ArrayList A) (k : A -> M MemPool B) s a l :
  m (array s) = Ok (a, l, []) ->
  mbind k (on_array m) s = k a (mkPool l (blocks s) (reserved_count s) (free_user_data_cb s)).
Proof. intros Hm. apply bind_quiet. unfold on_array. by rewrite Hm. Qed.
Lemma bind_slot {R} a v b (k : ptr -> M MemPool R) s :
  list (array s) = Some (a ++ v :: b) -> mbind k (on_array (slot_load (blen a))) s = k v s.
Proof.
  intros Hl. apply bind_quiet. unfold on_array, slot_load. mstep. rewrite Hl. cbn.
  rewrite blk_load_middle. cbn. by destruct s.
Qed.
Lemma bind_store_slot {R} a v b y (k : unit -> M MemPool R) s :
  list (array s) = Some (a ++ v :: b) ->
  mbind k (on_array (slot_store (blen a) y)) s
    = k tt (mkPool (set_list (Some (a ++ y :: b)) (array s)) (blocks s) (reserved_count s) (free_user_data_cb s)).
Proof.
  intros Hl. apply bind_quiet. unfold on_array, slot_store. mstep. rewrite Hl. cbn.
  by rewrite blk_store_middle.
Qed.

Lemma bind_set_reserving {R} A b x B r (k : unit -> M MemPool R) s :
  NoDup (A ++ (b, x) :: B).*1 -> b <> NULL -> blocks s = list_to_map (A ++ (b, x) :: B) ->
  mbind k (set_reserving_pool b r) s
    = k tt (mkPool (array s) (list_to_map (A ++ (b, set_reserving r x) :: B))
        (reserved_count s) (free_user_data_cb s)).
Proof.
  intros Hn Hb Hs. unfold set_reserving_pool.
  rewrite (bind_update (H := blocks_store) b _ k s x Hb).
  - cbn. by rewrite Hs, block_insert.
  - cbn. rewrite Hs. by apply (block_lookup A (b, x) B).
Qed.
(** The pool after a block changed. *)
Lemma pool_update mx um f A b x y B n :
  n = blen (outstanding (A ++ (b, y) :: B)) ->
  mkPool (array (pool mx um f (A ++ (b, x) :: B))) (list_to_map (A ++ (b, y) :: B)) n f
  = pool mx um f (A ++ (b, y) :: B).
Proof.
  intros ->. unfold pool, partial. cbn [array]. rewrite !fmap_app.
  do 2 f_equal; unfold blen; rewrite !length_app; done.
Qed.
Lemma wf_middle A b x y B : wf_blocks (A ++ (b, x) :: B) -> wf_blocks (A ++ (b, y) :: B).
Proof.
  unfold wf_blocks. rewrite !fmap_app, !Forall_app. intros (? & [? Hb] & ?).
  split; [done|]. split; [split; [done|]|].
  - inversion Hb; by constructor.
  - unfold blen in *. by rewrite length_app in *.
Qed.
Lemma outstanding_reserve A b x B : reserving_pool x = false ->
  outstanding (A ++ (b, set_reserving true x) :: B) ≡ₚ b :: outstanding (A ++ (b, x) :: B).
Proof.
  intros Hx. rewrite !outstanding_app. unfold outstanding at 2 4. rewrite !filter_cons.
  rewrite decide_True by done. rewrite decide_False by (unfold is_reserved; cbn; rewrite Hx; by intros []).
  rewrite fmap_cons. cbn [fst]. by rewrite <- Permutation_middle.
Qed.

(** ** The first block that is not reserved *)
Lemma first_free_ok mx um f fuel A A' b x B :
  wf_blocks (A ++ A' ++ (b, x) :: B) -> Forall is_reserved A' -> reserving_pool x = false ->
  (length A' < fuel)%nat ->
  first_free fuel (blen A) (pool mx um f (A ++ A' ++ (b, x) :: B))
    = Ok (b, pool mx um f (A ++ A' ++ (b, set_reserving true x) :: B), []).
Proof.
  intros Hw HA' Hx. revert A fuel Hw.
  induction HA' as [|[a y] A' Hy _ IH]; intros A fuel Hw Hf; (destruct fuel as [|fuel]; [cbn in Hf; lia|]);
    cbn [first_free app] in *; pose proof Hw as (Hn & Hnn & Hl); rewrite bind_gets;
    (rewrite (proj2 (Z.ltb_lt _ _)) by (cbn; unfold blen; rewrite length_app; cbn; lia));
    apply Forall_app in Hnn as [_ Hb]; apply Forall_cons in Hb as [Hb _]; cbn [fst] in Hb.
  - rewrite <- (blen_fmap_map fst A), (bind_slot A.*1 b B.*1) by (cbn; by rewrite app_nil_r, fmap_app).
    rewrite (bind_block A (b, x) B) by done. cbn [snd]. rewrite Hx. cbn [negb].
    rewrite (bind_set_reserving A b x B), bind_gets by done. etransitivity; [apply bind_modify|].
    cbn [reserved_count array blocks free_user_data_cb].
    unfold mret, M_ret. do 2 f_equal. f_equal. apply pool_update. cbn [reserved_count pool partial].
    pose proof (outstanding_le (A ++ (b, x) :: B)). pose proof (blen_nonneg (outstanding (A ++ (b, x) :: B))).
    rewrite u64_small by lia. unfold blen. rewrite (outstanding_reserve A b x B Hx). cbn [length]. lia.
  - rewrite <- (blen_fmap_map fst A), (bind_slot A.*1 a (A' ++ (b, x) :: B).*1)
      by (cbn; by rewrite app_nil_r, fmap_app).
    rewrite (bind_block A (a, y) (A' ++ (b, x) :: B)) by done. cbn [snd]. unfold is_reserved in Hy. cbn [snd] in Hy.
    destruct (reserving_pool y) eqn:Ey; [|done]. cbn [negb].
    replace (blen A.*1 + 1) with (blen (A ++ [(a, y)])) by (by rewrite blen_snoc, blen_fmap_map).
    assert (forall l, A ++ (a, y) :: l = (A ++ [(a, y)]) ++ l) as E by (intros l; by rewrite <- app_assoc).
    rewrite (E (A' ++ (b, x) :: B)) in Hw |- *. rewrite (E (A' ++ (b, set_reserving true x) :: B)).
    apply IH; [done|]. cbn in Hf. lia.
Qed.

(** ** Growing *)

(** The block the allocations for the slot [j] make. *)
Definition made (news : Z -> allocation) (f : bool) (j : Z) : entry :=
  let '(k, (d, size)) := news j in (default NULL k, mkBlock d size f false).
Definition works (new : allocation) : Prop :=
  match new with (Some a, (d, _)) => a <> NULL /\ d <> NULL | (None, _) => False end.
Definition supply (news : Z -> allocation) (f : bool) (xs : blks) (k : nat) : blks :=
  made news f <$> seqZ (blen xs) (Z.of_nat k).

Lemma supply_snoc news f xs k e : made news f (blen xs) = e ->
  supply news f xs (Datatypes.S k) = e :: supply news f (xs ++ [e]) k.
Proof.
  intros He. unfold supply. rewrite Nat2Z.inj_succ, seqZ_cons by lia.
  rewrite fmap_cons, He, blen_snoc. do 3 f_equal; lia.
Qed.
Lemma supply_free news f xs k : outstanding (supply news f xs k) = [].
Proof.
  unfold supply, outstanding. induction (seqZ (blen xs) (Z.of_nat k)) as [|j l IH]; [done|].
  rewrite fmap_cons, filter_cons, decide_False; [done|].
  unfold made. destruct (news j) as [k' [d sz]]. by intros [].
Qed.
Lemma supply_length news f xs k : length (supply news f xs k) = k.
Proof. unfold supply. rewrite length_fmap, length_seqZ. lia. Qed.

(** One slot is filled. *)
Lemma new_block_ok mx um held f xs k news : works (news (blen xs)) ->
  newMemPoolBlock (news (blen xs)) (partial mx um held f xs k)
    = Ok (fst (made news f (blen xs)), mkPool (array (partial mx um held f xs k))
        (<[fst (made news f (blen xs)) := snd (made news f (blen xs))]> (list_to_map xs))
        (blen (outstanding xs)) f, []).
Proof.
  unfold works, made, newMemPoolBlock. destruct (news (blen xs)) as [[a|] [d sz]]; [|done].
  intros [_ Hd]. rewrite (proj2 (Z.eqb_neq _ _) Hd). done.
Qed.
Lemma partial_snoc mx um held f xs k a y :
  a ∉ xs.*1 -> reserving_pool y = false -> blen xs < 2 ^ 60 ->
  mkPool (set_count (u64 (blen xs + 1)) (set_list (Some (xs.*1 ++ a :: replicate k NULL))
      (array (partial mx um held f xs (Datatypes.S k)))))
    (<[a := y]> (list_to_map xs)) (blen (outstanding xs)) f
  = partial mx um held f (xs ++ [(a, y)]) k.
Proof.
  intros Ha Hy Hl. unfold partial, set_count, set_list. cbn [array count capacity max_cap free_item use_mutex mutex_held].
  pose proof (blen_nonneg xs). rewrite u64_small, blen_snoc, list_to_map_snoc, fmap_app, <- app_assoc by (done || lia).
  assert (outstanding [(a, y)] = []) as Ho.
  { unfold outstanding. rewrite filter_cons, decide_False; [done|].
    unfold is_reserved. cbn [snd]. rewrite Hy. by intros []. }
  rewrite outstanding_app, Ho, app_nil_r. do 2 f_equal. lia.
Qed.
Lemma fill_ok mx um held f news k : forall xs fuel,
  wf_blocks (xs ++ supply news f xs k) ->
  (forall j, blen xs <= j < blen xs + Z.of_nat k -> works (news j)) -> (k < fuel)%nat ->
  fill_from fuel news (blen xs) (partial mx um held f xs k)
    = Ok (true, partial mx um held f (xs ++ supply news f xs k) 0, []).
Proof.
  induction k as [|k IH]; intros xs fuel Hw Hj Hf; (destruct fuel as [|fuel]; [lia|]); cbn [fill_from];
    rewrite !bind_gets; cbn [array partial count capacity].
  - rewrite (proj2 (Z.ltb_ge _ _)) by lia. unfold supply. cbn. by rewrite app_nil_r.
  - rewrite (proj2 (Z.ltb_lt _ _)) by lia.
    rewrite (bind_quiet _ _ _ _ _ (new_block_ok mx um held f xs (Datatypes.S k) news (Hj (blen xs) ltac:(lia)))).
    destruct (made news f (blen xs)) as [a y] eqn:Em. cbn [fst snd].
    rewrite (supply_snoc news f xs k (a, y) Em) in Hw |- *.
    assert (y = mkBlock (data y) (data_size y) f false) as Hy.
    { unfold made in Em. destruct (news (blen xs)) as [k' [d sz]]. by simplify_eq. }
    pose proof Hw as (Hn & Hnn & Hl).
    assert (a <> NULL) as Ha by (apply Forall_app in Hnn as [_ Hnn]; by inversion Hnn).
    rewrite <- (blen_fmap_map fst xs) at 1. rewrite (bind_store_slot xs.*1 NULL (replicate k NULL)) by done.
    rewrite (proj2 (Z.eqb_neq _ _) Ha). cbn [negb].
    replace (xs ++ (a, y) :: supply news f (xs ++ [(a, y)]) k)
      with ((xs ++ [(a, y)]) ++ supply news f (xs ++ [(a, y)]) k) in * by (by rewrite <- app_assoc).
    rewrite <- IH with (fuel := fuel); [|done|rewrite blen_snoc; intros; apply Hj; lia|lia].
    rewrite <- partial_snoc with (a := a) (y := y).
    + etransitivity; [apply bind_array; unfold incr_count; done|]. by rewrite blen_snoc.
    + rewrite fmap_app in Hn. apply NoDup_app in Hn as (Hn & _ & _). rewrite fmap_app in Hn.
      apply NoDup_app in Hn as (_ & Hd & _). intros Hin. apply (Hd a Hin). cbn. set_solver.
    + rewrite Hy. done.
    + unfold blen in *. rewrite !length_app in Hl. lia.
Qed.
Definition lock_events (um : bool) : Datatypes.list event := if um then [EvLock; EvUnlock] else [].
Lemma fill_resized_ok mx um f xs k news :
  wf_blocks (xs ++ supply news f xs k) ->
  (forall j, blen xs <= j < blen xs + Z.of_nat k -> works (news j)) ->
  fill_resized_memory news (Some (partial mx um false f xs k))
    = Ok (ALIB_OK, Some (pool mx um f (xs ++ supply news f xs k)), lock_events um).
Proof.
  intros Hw Hj. apply on_obj_Ok. rewrite bind_gets. cbn [array partial use_mutex].
  assert (forall held, (n ← gets (fun p => count (array p)); cap ← gets (fun p => capacity (array p));
      full ← fill_from (Datatypes.S (Z.to_nat (cap - n))) news n;
      if full : bool then when um (on_array mutex_unlock);; mret ALIB_OK else mret ALIB_MEM_ERR)
      (partial mx um held f xs k)
    = (when um (on_array mutex_unlock);; mret ALIB_OK)
        (partial mx um held f (xs ++ supply news f xs k) 0)) as E.
  { intros held. rewrite !bind_gets. cbn [array partial count capacity].
    erewrite bind_quiet; [|apply fill_ok; [done|done|lia]]. done. }
  destruct um; cbn [when lock_events].
  - rewrite (bind_Ok (on_array mutex_lock) _ _ tt (partial mx true true f xs k) [EvLock]) by done.
    rewrite E. done.
  - rewrite bind_mret, E. done.
Qed.

Lemma resize_double_ok l cells n :
  list l = Some cells -> blen cells = capacity l -> capacity l < n <= 2 ^ 60 -> mutex_held l = false ->
  here (ArrayList_resize_tsafe true n) l
    = Ok (n, set_capacity n (set_list (Some (cells ++ replicate (Z.to_nat (n - capacity l)) NULL)) l),
          lock_events (use_mutex l)).
Proof.
  intros Hl Hb Hn Hh. apply here_Some.
  replace (lock_events (use_mutex l)) with (bracket l []) by (unfold bracket, lock_events; by destruct (use_mutex l)).
  apply tsafe_bracket; [apply ignores_resize|done|]. apply on_obj_Ok.
  rewrite !bind_gets, (proj2 (Z.eqb_neq _ _)), Hl by lia. pose proof (blen_nonneg cells).
  rewrite Z.gtb_ltb, (proj2 (Z.ltb_lt _ _)), (proj2 (Z.ltb_ge _ _)) by lia.
  rewrite realloc_zero_ok by lia. done.
Qed.
Lemma grow_array mx um f xs : 0 < blen xs <= 2 ^ 58 ->
  on_array (here (ArrayList_resize_tsafe true (blen xs * 2))) (pool mx um f xs)
    = Ok (blen xs * 2, partial mx um false f xs (length xs), lock_events um).
Proof.
  intros Hpos. unfold on_array. cbn [array]. rewrite (resize_double_ok _ (xs.*1 ++ [])); cbn; try (done || lia).
  - rewrite app_nil_r, Z.add_0_r. unfold partial, set_capacity, set_list. cbn.
    replace (Z.to_nat (blen xs * 2 - blen xs)) with (length xs) by (unfold blen; lia).
    do 6 f_equal. unfold blen. lia.
  - by rewrite app_nil_r, blen_fmap_map, Z.add_0_r.
Qed.
(** The blocks after the pool has grown. *)
Definition grown (news : Z -> allocation) (f : bool) xs : blks := xs ++ supply news f xs (length xs).
Definition can_grow (news : Z -> allocation) (f : bool) xs : Prop :=
  wf_blocks (grown news f xs) /\ forall j, blen xs <= j < 2 * blen xs -> works (news j).
Lemma pool_expand_ok mx um f xs news :
  0 < blen xs -> blen xs <> mx -> can_grow news f xs ->
  expand true news (Some (pool mx um f xs))
    = Ok (ALIB_OK, Some (pool mx um f (grown news f xs)), lock_events um ++ lock_events um).
Proof.
  intros Hpos Hmx [Hw Hj].
  assert (2 * blen xs <= 2 ^ 59) as Hlen.
  { destruct Hw as (_ & _ & Hl). unfold grown, blen in *. rewrite length_app, supply_length in Hl. lia. }
  apply on_obj_Ok. rewrite !bind_gets. cbn [array pool partial capacity max_cap].
  rewrite Z.add_0_r, (proj2 (Z.eqb_neq _ _) Hmx). cbv zeta. rewrite u64_small by lia.
  rewrite (proj2 (Z.ltb_ge _ _)) by lia.
  rewrite (bind_Ok (on_array _) _ _ (blen xs * 2) (partial mx um false f xs (length xs)) (lock_events um)).
  - rewrite bind_gets. cbn [array partial count]. rewrite (proj2 (Z.eqb_neq _ _)) by lia.
    erewrite here_Some; [|apply fill_resized_ok; [done|intros; apply Hj; unfold blen in *; lia]]. done.
  - apply grow_array. lia.
Qed.

(** * Reserving and returning blocks *)
Lemma split_free xs : ~ Forall is_reserved xs -> exists A b x B,
  xs = A ++ (b, x) :: B /\ Forall is_reserved A /\ reserving_pool x = false.
Proof.
  induction xs as [|[b x] xs IH]; intros H; [by destruct H|].
  destruct (reserving_pool x) eqn:Ex.
  - destruct IH as (A & c & y & B & -> & ? & ?).
    { intros Hall. apply H. constructor; [|done]. unfold is_reserved. cbn [snd]. by rewrite Ex. }
    exists ((b, x) :: A), c, y, B. split; [done|]. split; [|done]. constructor; [|done].
    unfold is_reserved. cbn [snd]. by rewrite Ex.
  - by exists [], b, x, xs.
Qed.
(** A block that is not reserved is handed out. *)
Lemma hand_out mx um f xs : wf_blocks xs -> ~ Forall is_reserved xs -> exists b ys,
  first_free (Datatypes.S (Z.to_nat (capacity (array (pool mx um f xs))))) 0 (pool mx um f xs)
    = Ok (b, pool mx um f ys, []) /\
  wf_blocks ys /\ ys.*1 = xs.*1 /\ b <> NULL /\ b ∈ xs.*1 /\ b ∉ outstanding xs /\
  outstanding ys ≡ₚ b :: outstanding xs.
Proof.
  intros Hw Hf. destruct (split_free xs Hf) as (A & b & x & B & -> & HA & Hx).
  exists b, (A ++ (b, set_reserving true x) :: B).
  assert (capacity (array (pool mx um f (A ++ (b, x) :: B))) = Z.of_nat (length A + Datatypes.S (length B))) as Hc
    by (cbn; unfold blen; rewrite length_app; cbn; lia).
  rewrite Hc. split.
  { apply (first_free_ok mx um f _ [] A b x B); [done|done|done|lia]. }
  split; [by eapply wf_middle|]. split; [by rewrite !fmap_app|].
  pose proof Hw as (Hn & Hnn & _). apply Forall_app in Hnn as [_ Hnn]. apply Forall_cons in Hnn as [Hb _].
  split; [done|]. split; [rewrite fmap_app; cbn; set_solver|]. split; [|by apply outstanding_reserve].
  unfold outstanding. rewrite filter_app, fmap_app, filter_cons, decide_False
    by (unfold is_reserved; cbn; rewrite Hx; by intros []).
  rewrite fmap_app in Hn. apply NoDup_app in Hn as (_ & Hd & Hn). cbn in Hn. apply NoDup_cons in Hn as [Hin _].
  intros [Hin1|Hin1]%elem_of_app; apply list_elem_of_fmap in Hin1 as ([b' x'] & E & Hin'); cbn in E; subst b';
    apply list_elem_of_filter in Hin' as [_ Hin'].
  - apply (Hd b); [|cbn; set_solver]. apply list_elem_of_fmap. by exists (b, x').
  - apply Hin, list_elem_of_fmap. by exists (b, x').
Qed.

(** One more block is handed out, after the pool has grown if it must. *)
Lemma reserve_ok mx um f xs news :
  wf_blocks xs -> 0 < blen xs -> (Forall is_reserved xs -> blen xs <> mx /\ can_grow news f xs) ->
  exists b ys ev, MemPool_reserve_block true news (Some (pool mx um f xs))
      = Ok (b, Some (pool mx um f ys), ev) /\
    wf_blocks ys /\ b <> NULL /\ b ∉ outstanding xs /\ outstanding ys ≡ₚ b :: outstanding xs /\
    ys.*1 = if decide (Forall is_reserved xs) then (grown news f xs).*1 else xs.*1.
Proof.
  intros Hw Hpos Hg. pose proof (outstanding_all xs) as Hall.
  unfold MemPool_reserve_block, on_obj. rewrite !bind_gets.
  change (reserved_count (pool mx um f xs)) with (blen (outstanding xs)).
  change (capacity (array (pool mx um f xs))) with (blen xs + 0). rewrite Z.add_0_r.
  destruct (decide (Forall is_reserved xs)) as [Hf|Hf].
  - rewrite (proj2 (Z.eqb_eq _ _)) by (by apply Hall). destruct (Hg Hf) as [Hmx Hgrow].
    assert (~ Forall is_reserved (grown news f xs)) as Hnf.
    { intros Hfg. apply outstanding_all in Hfg. unfold grown in Hfg.
      rewrite outstanding_app, supply_free, app_nil_r in Hfg. apply Hall in Hf.
      unfold blen in *. rewrite length_app, supply_length in Hfg. lia. }
    destruct (hand_out mx um f _ (proj1 Hgrow) Hnf) as (b & ys & E & ? & Hys & ? & ? & Ho & Hp).
    exists b, ys, (lock_events um ++ lock_events um). split; [|].
    + rewrite (bind_Ok _ _ _ _ _ _ (here_Some _ _ _ _ _ (pool_expand_ok mx um f xs news Hpos Hmx Hgrow))).
      cbn [negb Z.eqb ALIB_OK]. rewrite bind_gets, E. cbn [mbind res_bind]. by rewrite app_nil_r.
    + unfold grown in Ho, Hp. rewrite outstanding_app, supply_free, app_nil_r in Ho, Hp.
      by rewrite Hys.
  - rewrite (proj2 (Z.eqb_neq _ _)) by (by rewrite Hall).
    destruct (hand_out mx um f _ Hw Hf) as (b & ys & E & ? & ? & ? & ? & ? & ?).
    exists b, ys, []. split; [|done]. rewrite bind_mret. cbn [negb Z.eqb]. by rewrite bind_gets, E.
Qed.
(** A pool that has reached its maximum and has no free block. *)
Lemma reserve_exhausted mx um f xs news : Forall is_reserved xs -> blen xs = mx ->
  MemPool_reserve_block true news (Some (pool mx um f xs)) = Ok (NULL, Some (pool mx um f xs), []).
Proof.
  intros Hf Hmx. apply on_obj_Ok. rewrite !bind_gets.
  change (reserved_count (pool mx um f xs)) with (blen (outstanding xs)).
  change (capacity (array (pool mx um f xs))) with (blen xs + 0). rewrite Z.add_0_r.
  rewrite (proj2 (Z.eqb_eq _ _)) by (by apply outstanding_all).
  erewrite bind_quiet with (a := ALIB_INTERNAL_MAX_REACHED); [done|].
  apply here_Some, on_obj_Ok. rewrite !bind_gets. cbn [array pool partial capacity max_cap].
  by rewrite Z.add_0_r, (proj2 (Z.eqb_eq _ _)).
Qed.
Lemma unreserve_ok mx um f xs b : wf_blocks xs -> b ∈ outstanding xs -> exists ys,
  MemPool_unreserve_block (Some b) (pool mx um f xs) = Ok (Some NULL, pool mx um f ys, []) /\
  wf_blocks ys /\ ys.*1 = xs.*1 /\ outstanding xs ≡ₚ b :: outstanding ys.
Proof.
  intros Hw Hb. apply list_elem_of_fmap in Hb as ([b' x] & E & Hb). cbn in E. subst b'.
  apply list_elem_of_filter in Hb as [Hx Hb]. apply list_elem_of_split in Hb as (A & B & ->).
  unfold is_reserved in Hx. cbn [snd] in Hx. destruct (reserving_pool x) eqn:Ex; [|done].
  exists (A ++ (b, set_reserving false x) :: B).
  assert (outstanding (A ++ (b, x) :: B) ≡ₚ b :: outstanding (A ++ (b, set_reserving false x) :: B)) as Hp.
  { pose proof (outstanding_reserve A b (set_reserving false x) B eq_refl) as Hp.
    destruct x. cbn in Ex. by subst. }
  split; [|split; [by eapply wf_middle|split; [by rewrite !fmap_app|done]]].
  pose proof Hw as (Hn & Hnn & Hl). apply Forall_app in Hnn as [_ Hnn]. apply Forall_cons in Hnn as [Hnb _].
  unfold MemPool_unreserve_block. rewrite (proj2 (Z.eqb_neq b NULL) Hnb).
  rewrite (bind_block A (b, x) B) by done. cbn [snd]. rewrite Ex. cbn [negb]. rewrite bind_gets.
  etransitivity; [apply bind_modify|]. rewrite (bind_set_reserving A b x B) by done.
  unfold mret, M_ret. do 2 f_equal. f_equal. cbn [array reserved_count pool partial blocks free_user_data_cb].
  apply pool_update. pose proof (outstanding_le (A ++ (b, x) :: B)).
  unfold blen in *. rewrite Hp in *. cbn [length] in *. rewrite u64_small by lia. lia.
Qed.

(** * A client *)
Inductive op := Reserve | Return (i : nat).
(** [out]: the blocks the client holds; [Return i] gives the [i]-th one back. *)
Fixpoint client (news : Z -> allocation) (os : Datatypes.list op) (out : Datatypes.list ptr)
    : M (option MemPool) (Datatypes.list ptr) :=
  match os with
  | [] => mret out
  | Reserve :: os =>
      b ← MemPool_reserve_block true news;
      client news os (if b =? NULL then out else b :: out)
  | Return i :: os =>
      match out !! i with
      | Some b => no_guard (MemPool_unreserve_block (Some b));; client news os (delete i out)
      | None => client news os out
      end
  end.

(** The allocations for the first [n] slots succeed, at different addresses. *)
Definition addresses (news : Z -> allocation) (n : Z) : Datatypes.list ptr :=
  (fun j => default NULL (fst (news j))) <$> seqZ 0 n.
Definition supplies (news : Z -> allocation) (n : Z) : Prop :=
  (forall j, 0 <= j < n -> works (news j)) /\ NoDup (addresses news n) /\ n <= 2 ^ 59.

Lemma made_addr news f l : (made news f <$> l).*1 = (fun j => default NULL (fst (news j))) <$> l.
Proof.
  rewrite <- list_fmap_compose. apply list_fmap_ext. intros i j _. unfold made. cbn.
  by destruct (news j) as [k [d sz]].
Qed.
Lemma supplies_le news n m : 0 <= m <= n -> supplies news n -> supplies news m.
Proof.
  intros Hm (Hj & Hn & Hl). split; [intros; apply Hj; lia|]. split; [|lia]. unfold addresses in *.
  replace n with (m + (n - m)) in Hn by lia. rewrite seqZ_app, fmap_app in Hn by lia.
  by apply NoDup_app in Hn as (? & _).
Qed.
Lemma supplies_wf news n xs : supplies news n -> xs.*1 = addresses news (blen xs) -> blen xs <= n ->
  wf_blocks xs.
Proof.
  intros Hs Hxs Hn. pose proof (blen_nonneg xs).
  destruct (supplies_le news n (blen xs) ltac:(lia) Hs) as (Hj & Hd & Hl).
  split; [by rewrite Hxs|]. split; [|done]. 
  apply Forall_forall. intros e He. apply (list_elem_of_fmap_2 fst) in He. rewrite Hxs in He.
  apply list_elem_of_fmap in He as (j & -> & Hjj%elem_of_seqZ).
  specialize (Hj j ltac:(lia)). unfold works in Hj. destruct (news j) as [[a|] [d sz]]; [by destruct Hj|done].
Qed.
Lemma grown_addr news f xs : xs.*1 = addresses news (blen xs) ->
  blen (grown news f xs) = 2 * blen xs /\ (grown news f xs).*1 = addresses news (2 * blen xs).
Proof.
  intros Hxs. unfold grown, supply. split.
  - unfold blen. rewrite length_app, length_fmap, length_seqZ. lia.
  - rewrite fmap_app, made_addr, Hxs. unfold addresses. rewrite <- fmap_app.
    replace (2 * blen xs) with (blen xs + Z.of_nat (length xs)) by (unfold blen; lia).
    rewrite seqZ_app by (unfold blen; lia). done.
Qed.

Lemma client_ok mx um f news n os : supplies news n -> forall xs out,
  xs.*1 = addresses news (blen xs) -> 0 < blen xs <= n -> 2 * (blen out + Z.of_nat (length os)) <= n ->
  out ≡ₚ outstanding xs -> exists out' ys ev,
    client news os out (Some (pool mx um f xs)) = Ok (out', Some (pool mx um f ys), ev) /\
    ys.*1 = addresses news (blen ys) /\ blen ys <= n /\ out' ≡ₚ outstanding ys.
Proof.
  intros Hs. induction os as [|o os IH]; intros xs out Hxs Hpos Hn Hout.
  { exists out, xs, []. repeat split; (done || lia). }
  cbn [length] in Hn. rewrite Nat2Z.inj_succ in Hn.
  assert (wf_blocks xs) as Hw by (apply (supplies_wf news n); [done|done|lia]).
  assert (Forall is_reserved xs -> blen out = blen xs) as Hfull.
  { intros Hf. rewrite <- (proj2 (outstanding_all xs) Hf). unfold blen. by rewrite Hout. }
  destruct o as [|i]; cbn [client].
  - destruct (decide (Forall is_reserved xs /\ blen xs = mx)) as [[Hf Hmx]|Hg].
    { rewrite (bind_quiet _ _ _ _ _ (reserve_exhausted mx um f xs news Hf Hmx)).
      change (NULL =? NULL) with true. cbn iota. apply IH; [done|done|lia|done]. }
    destruct (grown_addr news f xs Hxs) as [Hgl Hga].
    destruct (reserve_ok mx um f xs news Hw ltac:(lia)) as (b & ys & ev & E & Hwy & Hb & Hbo & Hp & Hy).
    { intros Hf. specialize (Hfull Hf). split; [naive_solver|]. split.
      - apply (supplies_wf news n); [done|by rewrite Hgl|lia].
      - intros j Hj. apply Hs. lia. }
    rewrite (bind_Ok _ _ _ _ _ _ E), (proj2 (Z.eqb_neq _ _) Hb).
    assert (ys.*1 = addresses news (blen ys) /\ 0 < blen ys <= n) as [Hya Hyl].
    { assert (blen ys = blen ys.*1) as -> by (by rewrite blen_fmap_map). rewrite Hy. clear Hy.
      case_decide as Hd; rewrite blen_fmap_map; [|done]. specialize (Hfull Hd). rewrite Hgl, Hga. split; [done|lia]. }
    destruct (IH ys (b :: out)) as (out' & zs & ev' & E' & ?); [done|lia|rewrite blen_cons; lia|by rewrite Hp, Hout|].
    exists out', zs, (ev ++ ev'). by rewrite E'.
  - destruct (out !! i) as [b|] eqn:Ei; [|apply IH; (done || lia)].
    assert (b ∈ outstanding xs) as Hb by (rewrite <- Hout; by eapply list_elem_of_lookup_2).
    destruct (unreserve_ok mx um f xs b Hw Hb) as (ys & E & Hwy & Hya & Hp).
    assert (blen ys = blen xs) as Hyl by (by rewrite <- (blen_fmap_map fst ys), Hya, blen_fmap_map).
    rewrite (bind_quiet _ _ _ (Some NULL) (Some (pool mx um f ys))) by (unfold no_guard; cbn [deref mbind res_bind]; by rewrite E).
    pose proof (delete_Permutation out i b Ei) as Hdel.
    assert (blen out = 1 + blen (delete i out)) as Hlen by (unfold blen; rewrite Hdel at 1; cbn [length]; lia).
    apply IH; rewrite ?Hyl, ?Hya; [done|done|lia|].
    apply (Permutation_cons_inv (a := b)). by rewrite <- Hp, <- Hout.
Qed.

(** The pool [newMemPool_ex] makes. *)
Lemma new_pool_ok news f start mx um :
  supplies news start -> 0 < start <= mx -> mx <= ULONG_MAX -> exists xs ev,
    newMemPool_ex true true true news true f start mx um = Ok (Some (pool mx um f xs), ev) /\
    blen xs = start /\ xs.*1 = addresses news start /\ outstanding xs = [].
Proof.
  intros Hs Hst Hmx. set (k := Z.to_nat start). exists (supply news f [] k).
  pose proof (supply_length news f [] k) as Hl.
  assert (blen (supply news f [] k) = start) as Hb by (unfold blen; rewrite Hl; lia).
  assert ((supply news f [] k).*1 = addresses news start) as Ha.
  { unfold supply. rewrite made_addr. unfold addresses. cbn. by replace (Z.of_nat k) with start by lia. }
  unfold newMemPool_ex, newArrayList_ex. cbn [negb orb].
  rewrite (proj2 (Z.eqb_neq mx 0)), (proj2 (Z.ltb_ge mx start)), (proj2 (Z.eqb_neq start 0)) by lia.
  cbn [negb calloc mbind res_bind].
  pose proof (fill_resized_ok mx um f [] k news) as E. cbn [app] in E.
  assert (partial mx um false f [] k
    = mkPool (mkArrayList (Some (replicate (Z.to_nat start) NULL)) 0 start mx true um false) ∅ 0 f) as Hp.
  { unfold partial. cbn. fold k. do 2 f_equal. unfold blen. cbn. lia. }
  rewrite Hp in E. rewrite E.
  - eexists. split; [done|]. split; [done|]. split; [done|]. apply supply_free.
  - apply (supplies_wf news start); [done|by rewrite Hb|lia].
  - intros j Hj. apply Hs. unfold blen in Hj. cbn in Hj. lia.
Qed.

(** C7: A client that reserves blocks from a new pool and returns them, in any order, holds at any
    time different, non-NULL blocks, exactly those the pool counts as reserved: no block is handed
    out again before it was returned, whether the pool has to grow or not.  The allocations are those of
    a system that grants [n] blocks at different addresses, at most 2^59, where [n] is at least the initial capacity and at least twice the number of operations;
    returned are only blocks that the client holds. *)
Theorem blocks_not_shared news n f start mx um os :
  supplies news n -> 0 < start <= mx -> mx <= ULONG_MAX -> start <= n -> 2 * Z.of_nat (length os) <= n ->
  exists p out p' ev ev',
    newMemPool_ex true true true news true f start mx um = Ok (Some p, ev) /\
    client news os [] (Some p) = Ok (out, Some p', ev') /\
    NoDup out /\ Forall (fun b => b <> NULL) out /\ reserved_count p' = blen out /\
    (forall b x, blocks p' !! b = Some x -> reserving_pool x = true <-> b ∈ out).
Proof.
  intros Hs Hst Hmx Hsn Hn.
  destruct (new_pool_ok news f start mx um) as (xs & ev & E & Hb & Ha & Ho); [by apply (supplies_le news n); [lia|]|done|done|].
  destruct (client_ok mx um f news n os Hs xs []) as (out & ys & ev' & E' & Hya & Hyl & Hp).
  { by rewrite Hb. } { lia. } { done. } { by rewrite Ho. }
  exists (pool mx um f xs), out, (pool mx um f ys), ev, ev'. split; [done|]. split; [done|].
  destruct (supplies_wf news n ys Hs Hya Hyl) as (Hnd & Hnn & _).
  split; [rewrite Hp; by apply NoDup_outstanding|]. split; [rewrite Hp; by apply nonnull_outstanding|].
  split; [cbn; unfold blen; by rewrite Hp|].
  intros b x Hx. rewrite Hp. by apply reserved_outstanding.
Qed.

(** One block is made, the pool then grows to two; the first block is returned and reserved again. *)
Lemma blocks_not_shared_witness : exists p out p' ev ev',
  newMemPool_ex true true true (fun j => (Some (100 + j), (200 + j, 8))) true true 1 256 true = Ok (Some p, ev) /\
  client (fun j => (Some (100 + j), (200 + j, 8))) [Reserve; Reserve; Return 1; Reserve] [] (Some p)
    = Ok (out, Some p', ev') /\
  NoDup out /\ Forall (fun b => b <> NULL) out /\ reserved_count p' = blen out /\
  (forall b x, blocks p' !! b = Some x -> reserving_pool x = true <-> b ∈ out).
Proof.
  apply (blocks_not_shared _ 16); [|done..].
  split; [intros j ?; cbn; unfold NULL; lia|]. split; [apply (bool_decide_unpack _); by vm_compute|done].
Defined.

(** * Where the pool breaks *)
Lemma failed_fill mx um f xs k news : fst (news (blen xs)) = None -> blen xs = Z.of_nat (S k) ->
  fill_resized_memory news (Some (partial mx um false f xs (S k)))
    = Ok (ALIB_MEM_ERR, Some (mkPool
        (mkArrayList (Some (xs.*1 ++ NULL :: replicate k NULL)) (blen xs) (blen xs * 2) mx true um um)
        (list_to_map xs) (blen (outstanding xs)) f), if um then [EvLock] else []).
Proof.
  intros Hnew Hlen. apply on_obj_Ok. rewrite bind_gets. cbn [array partial use_mutex].
  assert (forall held, (n ← gets (fun p => count (array p)); cap ← gets (fun p => capacity (array p));
      full ← fill_from (S (Z.to_nat (cap - n))) news n;
      if full : bool then when um (on_array mutex_unlock);; mret ALIB_OK else mret ALIB_MEM_ERR)
      (partial mx um held f xs (S k))
    = Ok (ALIB_MEM_ERR, mkPool
        (mkArrayList (Some (xs.*1 ++ NULL :: replicate k NULL)) (blen xs) (blen xs * 2) mx true um held)
        (list_to_map xs) (blen (outstanding xs)) f, [])) as E.
  { intros held. rewrite !bind_gets. rewrite (bind_quiet _ _ _ false (mkPool
        (mkArrayList (Some (xs.*1 ++ NULL :: replicate k NULL)) (blen xs) (blen xs * 2) mx true um held)
        (list_to_map xs) (blen (outstanding xs)) f)); [done|]. cbn [array partial count capacity fill_from].
    rewrite !bind_gets. cbn [array partial count capacity].
    rewrite (proj2 (Z.ltb_lt _ _)) by lia. unfold newMemPoolBlock.
    destruct (news (blen xs)) as [k' [d sz]]. cbn in Hnew. subst k'. rewrite bind_mret.
    rewrite <- (blen_fmap_map fst xs) at 1. rewrite (bind_store_slot xs.*1 NULL (replicate k NULL)) by done.
    cbn. unfold mret, M_ret, set_list. cbn. do 6 f_equal. lia. }
  destruct um; cbn [when].
  - rewrite (bind_Ok (on_array mutex_lock) _ _ tt (partial mx true true f xs (S k)) [EvLock]) by done.
    by rewrite E.
  - by rewrite bind_mret, E.
Qed.
Lemma first_free_null p xs rest fuel :
  wf_blocks xs -> Forall is_reserved xs -> blocks p = list_to_map xs ->
  list (array p) = Some (xs.*1 ++ NULL :: rest) -> blen xs < capacity (array p) ->
  forall A B, xs = A ++ B -> (length B < fuel)%nat -> first_free fuel (blen A) p = UB NullDeref.
Proof.
  intros (Hn & Hnn & _) Hr Hb Hl Hc A B. revert A fuel.
  induction B as [|[a x] B IH]; intros A fuel Hxs Hf; (destruct fuel as [|fuel]; [cbn in Hf; lia|]);
    cbn [first_free]; rewrite bind_gets, (proj2 (Z.ltb_lt _ _))
      by (subst xs; unfold blen in *; rewrite length_app in Hc; lia); rewrite <- (blen_fmap_map fst A).
  - rewrite app_nil_r in Hxs. subst xs. by rewrite (bind_slot A.*1 NULL rest).
  - rewrite (bind_slot A.*1 a (B.*1 ++ NULL :: rest)) by (rewrite Hl, Hxs, fmap_app, <- app_assoc; done).
    rewrite Hxs in Hn, Hnn, Hr, Hb. apply Forall_app in Hnn as [_ Hnn]. apply Forall_cons in Hnn as [Ha _].
    apply Forall_app in Hr as [_ Hr]. apply Forall_cons in Hr as [Hx _].
    rewrite (bind_block A (a, x) B) by done. cbn [snd]. unfold is_reserved in Hx. cbn [snd] in Hx.
    destruct (reserving_pool x); [|done]. cbn [negb].
    rewrite blen_fmap_map, <- (blen_snoc A (a, x)). apply IH; [by rewrite <- app_assoc|cbn in Hf; lia].
Qed.

(** When the first allocation of a growing pool fails, the pool is unusable: the call returns no
    block, leaves the array's mutex locked, and the next reservation dereferences the NULL in the
    first of the new slots. *)
Theorem failed_growth_breaks mx um f xs news :
  wf_blocks xs -> 0 < blen xs <= 2 ^ 58 -> Forall is_reserved xs -> blen xs <> mx ->
  fst (news (blen xs)) = None ->
  exists p ev, MemPool_reserve_block true news (Some (pool mx um f xs)) = Ok (NULL, Some p, ev) /\
    mutex_held (array p) = um /\
    forall news', MemPool_reserve_block true news' (Some p) = UB NullDeref.
Proof.
  intros Hw Hpos Hf Hmx Hnew. pose proof (proj2 (outstanding_all xs) Hf) as Hrc.
  set (n := length xs).
  set (p := mkPool (mkArrayList (Some (xs.*1 ++ NULL :: replicate (n - 1) NULL)) (blen xs) (blen xs * 2) mx true um um)
              (list_to_map xs) (blen xs) f).
  assert (expand true news (Some (pool mx um f xs))
    = Ok (ALIB_MEM_ERR, Some p, lock_events um ++ if um then [EvLock] else [])) as E.
  { apply on_obj_Ok. rewrite !bind_gets. cbn [array pool partial capacity max_cap].
    rewrite Z.add_0_r, (proj2 (Z.eqb_neq _ _) Hmx). cbv zeta. rewrite u64_small by lia.
    rewrite (proj2 (Z.ltb_ge _ _)) by lia.
    rewrite (bind_Ok (on_array _) _ _ (blen xs * 2) (partial mx um false f xs n) (lock_events um)).
    - rewrite bind_gets. cbn [array partial count]. rewrite (proj2 (Z.eqb_neq _ _)) by lia.
      assert (n = S (n - 1)) as -> by (unfold n, blen in *; lia).
      erewrite here_Some; [|rewrite failed_fill by (done || (unfold n, blen in *; lia)); reflexivity].
      unfold p. by rewrite Hrc.
    - apply grow_array. lia. }
  exists p, (lock_events um ++ if um then [EvLock] else []). split; [|split; [done|]].
  - apply on_obj_Ok. rewrite !bind_gets.
    change (reserved_count (pool mx um f xs)) with (blen (outstanding xs)).
    change (capacity (array (pool mx um f xs))) with (blen xs + 0). rewrite Z.add_0_r, Hrc, Z.eqb_refl.
    eapply bind_loud; [by apply here_Some|]. done.
  - intros news'. apply on_obj_UB. rewrite !bind_gets. cbn [p reserved_count array capacity].
    rewrite (proj2 (Z.eqb_neq _ _)) by lia. rewrite bind_mret. cbn [negb Z.eqb]. rewrite bind_gets.
    apply (first_free_null p xs (replicate (n - 1) NULL) _ Hw Hf eq_refl eq_refl) with (A := []) (B := xs);
      cbn; [lia|done|unfold blen in *; lia].
Qed.
Lemma failed_growth_breaks_witness : exists p ev,
  MemPool_reserve_block true (fun _ => (None, (0, 0)))
    (Some (pool 256 true true [(100, mkBlock 200 8 true true)])) = Ok (NULL, Some p, ev) /\
  mutex_held (array p) = true /\
  forall news', MemPool_reserve_block true news' (Some p) = UB NullDeref.
Proof.
  apply failed_growth_breaks; [|done|by repeat constructor|done|done].
  split; [apply (bool_decide_unpack _); by vm_compute|]. split; [by repeat constructor|done].
Defined.
