(* ===== verification/Posix.v ===== *)
(** The operating system as the socket components see it.

    [Posix] lists the calls they make; a state of the system is of any type.
    Descriptors are integers, a call returns what the C function returns, and
    a call that fills memory returns the contents too.  [PosixLaws] states the
    documented behaviour the components rely on: which descriptors are open,
    and which of them an epoll instance watches.  [scripted] is a system that
    answers from a script. *)
From S2P Require Import Prelude Effects Heap.
Open Scope Z_scope.

(** * Calls *)
Record epoll_event := mkEpollEvent { ev_fd : Z; ev_events : Z }.
Definition EPOLLIN : Z := 1.
Definition EPOLLERR : Z := 8.
Definition EPOLLHUP : Z := 16.
(** Calls on one descriptor that open and close none. *)
Inductive fd_call := Bind | Listen | Connect | SetSockOpt | GetSockOpt | SetNonBlock | GetSockName.

Class Posix (K : Type) := {
  sys_socket : K -> Z * K;
  sys_accept : Z -> K -> Z * K;
  sys_dup : Z -> K -> Z * K;
  sys_epoll_create : K -> Z * K;
  sys_close : Z -> K -> K;
  sys_call : fd_call -> Z -> K -> Z * K;
  sys_epoll_add : Z -> Z -> Z -> K -> Z * K;                 (* epoll, events, descriptor *)
  sys_epoll_wait : Z -> Z -> K -> Z * list epoll_event * K;  (* epoll, size of the array *)
  sys_recv : Z -> Z -> K -> Z * list Z * K;                  (* descriptor, size of the buffer *)
  sys_send : Z -> list Z -> K -> Z * K;
  sys_recv_fd : Z -> K -> Z * Z * K;                         (* [ancil_recv_fd] *)
  sys_send_fd : Z -> Z -> K -> Z * K }.                      (* [ancil_send_fd] *)

(** What a call that returns a descriptor does to the open ones. *)
Definition opened (old new : gset Z) (r : Z) : Prop :=
  (r < 0 /\ new = old) \/ (0 <= r < 2 ^ 31 /\ r ∉ old /\ new = {[r]} ∪ old).

(** [fds]: the open descriptors.  [watched e]: what the epoll instance [e] reports on.  Closing a
    descriptor removes it from every epoll instance. *)
Class PosixLaws (K : Type) `{Posix K} := {
  fds : K -> gset Z;
  watched : Z -> K -> gset Z;
  socket_opens k : opened (fds k) (fds (sys_socket k).2) (sys_socket k).1;
  socket_watches e k : watched e (sys_socket k).2 = watched e k;
  accept_opens s k : opened (fds k) (fds (sys_accept s k).2) (sys_accept s k).1;
  accept_watches e s k : watched e (sys_accept s k).2 = watched e k;
  dup_opens s k : opened (fds k) (fds (sys_dup s k).2) (sys_dup s k).1;
  dup_watches e s k : watched e (sys_dup s k).2 = watched e k;
  epoll_create_opens k : opened (fds k) (fds (sys_epoll_create k).2) (sys_epoll_create k).1;
  epoll_create_watches e k : watched e (sys_epoll_create k).2
    = if e =? (sys_epoll_create k).1 then ∅ else watched e k;
  close_closes d k : fds (sys_close d k) = fds k ∖ {[d]};
  close_watches e d k : watched e (sys_close d k) ⊆ watched e k ∖ {[d]};
  call_opens c d k : fds (sys_call c d k).2 = fds k;
  call_watches c e d k : watched e (sys_call c d k).2 = watched e k;
  epoll_add_result e m d k : (sys_epoll_add e m d k).1 <= 0;
  epoll_add_bad e m d k : e ∉ fds k -> (sys_epoll_add e m d k).1 < 0;
  epoll_add_opens e m d k : fds (sys_epoll_add e m d k).2 = fds k;
  epoll_add_watches x e m d k : watched x (sys_epoll_add e m d k).2 ⊆
    (if (x =? e) && (0 <=? (sys_epoll_add e m d k).1) then {[d]} else ∅) ∪ watched x k;
  epoll_wait_opens e n k : fds (sys_epoll_wait e n k).2 = fds k;
  epoll_wait_bad e n k : e ∉ fds k -> (sys_epoll_wait e n k).1.1 <= 0;
  epoll_wait_watches x e n k : watched x (sys_epoll_wait e n k).2 = watched x k;
  epoll_wait_reports e n k : let '(r, evs, _) := sys_epoll_wait e n k in
    0 < r -> r = Z.of_nat (length evs) /\ r <= n /\ Forall (fun v => ev_fd v ∈ watched e k) evs /\ NoDup (ev_fd <$> evs);
  recv_opens d n k : fds (sys_recv d n k).2 = fds k;
  recv_watches e d n k : watched e (sys_recv d n k).2 = watched e k;
  recv_fits d n k : let '(r, data, _) := sys_recv d n k in 0 < r -> r = Z.of_nat (length data) /\ r <= n;
  send_opens d data k : fds (sys_send d data k).2 = fds k;
  send_watches e d data k : watched e (sys_send d data k).2 = watched e k;
  send_partial d data k : -1 <= (sys_send d data k).1 <= Z.of_nat (length data);
  recv_fd_opens d k : let '(r, fd, k') := sys_recv_fd d k in
    (fds k' = fds k /\ fd < 0) \/ (0 <= fd < 2 ^ 31 /\ fd ∉ fds k /\ r = 0 /\ fds k' = {[fd]} ∪ fds k);
  recv_fd_watches e d k : watched e (sys_recv_fd d k).2 = watched e k;
  send_fd_opens s d k : fds (sys_send_fd s d k).2 = fds k;
  send_fd_watches e s d k : watched e (sys_send_fd s d k).2 = watched e k }.

(** * Postconditions

    [post m Q s]: the operation returns from [s], with a result and a state that satisfy [Q].
    [safe m Q s]: it may also run forever, but does not fault. *)
Section post.
Context {S : Type}.
Definition post {A} (m : M S A) (Q : A -> S -> Prop) (s : S) : Prop :=
  exists a s' t, m s = Ok (a, s', t) /\ Q a s'.
Definition safe {A} (m : M S A) (Q : A -> S -> Prop) (s : S) : Prop :=
  match m s with Ok (a, s', _) => Q a s' | UB _ => False | Diverges => True end.

Lemma post_mono {A} (m : M S A) (P Q : A -> S -> Prop) s :
  post m P s -> (forall a s', P a s' -> Q a s') -> post m Q s.
Proof. intros (a & s' & t & E & HP) H. exists a, s', t. auto. Qed.
Lemma post_ret {A} (a : A) (Q : A -> S -> Prop) s : Q a s -> post (mret a) Q s.
Proof. intros H. by exists a, s, []. Qed.
Lemma post_gets {A} (f : S -> A) (Q : A -> S -> Prop) s : Q (f s) s -> post (gets f) Q s.
Proof. intros H. by exists (f s), s, []. Qed.
Lemma post_modify (f : S -> S) (Q : unit -> S -> Prop) s : Q tt (f s) -> post (modify f) Q s.
Proof. intros H. by exists tt, (f s), []. Qed.
Lemma post_emit e (Q : unit -> S -> Prop) s : Q tt s -> post (emit e) Q s.
Proof. intros H. by exists tt, s, [e]. Qed.
Lemma post_bind {A B} (m : M S A) (k : A -> M S B) (Q : B -> S -> Prop) s :
  post m (fun a s' => post (k a) Q s') s -> post (mbind k m) Q s.
Proof.
  intros (a & s1 & t1 & E & b & s2 & t2 & E2 & HQ). exists b, s2, (t1 ++ t2).
  unfold mbind, M_bind. rewrite E. cbn. by rewrite E2.
Qed.
Lemma post_lift {A} (r : res A) (a : A) (Q : A -> S -> Prop) s : r = Ok a -> Q a s -> post (lift r) Q s.
Proof. intros -> H. by exists a, s, []. Qed.
Lemma post_safe {A} (m : M S A) (Q : A -> S -> Prop) s : post m Q s -> safe m Q s.
Proof. intros (a & s' & t & E & HQ). unfold safe. by rewrite E. Qed.
Lemma safe_mono {A} (m : M S A) (P Q : A -> S -> Prop) s :
  safe m P s -> (forall a s', P a s' -> Q a s') -> safe m Q s.
Proof. unfold safe. destruct (m s) as [[[??]?]| |]; auto. Qed.
Lemma safe_bind {A B} (m : M S A) (k : A -> M S B) (Q : B -> S -> Prop) s :
  safe m (fun a s' => safe (k a) Q s') s -> safe (mbind k m) Q s.
Proof.
  unfold safe, mbind, M_bind. destruct (m s) as [[[a s1] t1]| |]; cbn; [|done|done].
  by destruct (k a s1) as [[[b s2] t2]| |].
Qed.
(** [outcome m Q D s]: it returns as [Q] says, or runs forever when [D] does. *)
Definition outcome {A} (m : M S A) (Q : A -> S -> Prop) (D : Prop) (s : S) : Prop :=
  match m s with Ok (a, s', _) => Q a s' | UB _ => False | Diverges => D end.
Lemma outcome_bind {A B} (m : M S A) (k : A -> M S B) (Q : B -> S -> Prop) D s :
  outcome m (fun a s' => outcome (k a) Q D s') D s -> outcome (mbind k m) Q D s.
Proof.
  unfold outcome, mbind, M_bind. intros Ho. destruct (m s) as [[[a s1] t1]| |]; cbn in *; [|done|done].
  by destruct (k a s1) as [[[b s2] t2]| |].
Qed.
Lemma post_outcome {A} (m : M S A) (Q : A -> S -> Prop) D s : post m Q s -> outcome m Q D s.
Proof. intros (a & s' & t & E & HQ). unfold outcome. by rewrite E. Qed.
Lemma outcome_post {A} (m : M S A) (Q : A -> S -> Prop) s : outcome m Q False s -> post m Q s.
Proof. unfold outcome. intros HQ. destruct (m s) as [[[a s1] t]| |] eqn:E; [|done|done]. by exists a, s1, t. Qed.
Lemma outcome_diverges {A} (m : M S A) s : outcome m (fun _ _ => False) True s -> m s = Diverges.
Proof. unfold outcome. by destruct (m s) as [[[a s'] t]| |]. Qed.
Lemma post_if {A} (b : bool) (m1 m2 : M S A) (Q : A -> S -> Prop) s :
  (b = true -> post m1 Q s) -> (b = false -> post m2 Q s) -> post (if b then m1 else m2) Q s.
Proof. destruct b; auto. Qed.
End post.
(** One step of a straight-line operation. *)
Ltac pstep := first
  [ apply post_bind | apply post_ret | apply post_gets | apply post_modify | apply post_emit ]; cbv beta.
Ltac psteps := repeat pstep.

(** * A scripted system *)

(** [most]: the most events it reports at a time; [binds]: whether binding and setting options always succeeds;
    [next]: the next descriptor; [denied]: whether the next calls that open one fail;
    [batches], [input], [sent], [errors]: the answers of [epoll_wait], [recv], [send] and the calls
    on one descriptor. *)
Record script := mkScript {
  sfds : gset Z; swatch : gmap Z (gset Z); next : Z; denied : list bool;
  batches : list (list epoll_event); input : list (list Z); sent : list Z; errors : list Z }.
Definition s_open (k : script) : Z * script :=
  match denied k with
  | true :: l => (-1, mkScript (sfds k) (swatch k) (next k) l (batches k) (input k) (sent k) (errors k))
  | l =>
      if bool_decide (0 <= next k < 2 ^ 31 /\ next k ∉ sfds k)
      then (next k, mkScript ({[next k]} ∪ sfds k) (swatch k) (next k + 1) (tail l) (batches k) (input k) (sent k) (errors k))
      else (-1, k)
  end.
Definition s_create (k : script) : Z * script :=
  let '(r, k) := s_open k in
  (r, mkScript (sfds k) (<[r := ∅]> (swatch k)) (next k) (denied k) (batches k) (input k) (sent k) (errors k)).
Definition s_close (d : Z) (k : script) : script :=
  mkScript (sfds k ∖ {[d]}) ((fun x => x ∖ {[d]}) <$> swatch k) (next k) (denied k) (batches k) (input k) (sent k) (errors k).
Definition s_call (k : script) : Z * script :=
  match errors k with
  | [] => (0, k)
  | e :: l => (e, mkScript (sfds k) (swatch k) (next k) (denied k) (batches k) (input k) (sent k) l)
  end.
Definition s_watched (e : Z) (k : script) : gset Z := default ∅ (swatch k !! e).
Definition s_add (binds : bool) (e d : Z) (k : script) : Z * script :=
  let '(r, k) := if bool_decide (e ∉ sfds k) then (-1, k) else if binds then (0, k) else s_call k in
  (Z.min 0 r, if 0 <=? r then mkScript (sfds k) (<[e := {[d]} ∪ s_watched e k]> (swatch k)) (next k) (denied k)
                        (batches k) (input k) (sent k) (errors k) else k).
(** The first event of every descriptor. *)
Fixpoint once (evs : list epoll_event) : list epoll_event :=
  match evs with [] => [] | v :: evs => v :: filter (fun x => ev_fd x <> ev_fd v) (once evs) end.
Definition s_wait (e n : Z) (k : script) : Z * list epoll_event * script :=
  if bool_decide (e ∉ sfds k) then (-1, [], k) else
  match batches k with
  | [] => (0, [], k)
  | b :: l =>
      let evs := take (Z.to_nat n) (once (filter (fun v => ev_fd v ∈ s_watched e k) b)) in
      (Z.of_nat (length evs), evs,
       mkScript (sfds k) (swatch k) (next k) (denied k) l (input k) (sent k) (errors k))
  end.
Definition s_recv (n : Z) (k : script) : Z * list Z * script :=
  match input k with
  | [] => (0, [], k)
  | b :: l => let d := take (Z.to_nat n) b in
      (Z.of_nat (length d), d,
       mkScript (sfds k) (swatch k) (next k) (denied k) (batches k) l (sent k) (errors k))
  end.
Definition s_send (data : list Z) (k : script) : Z * script :=
  match sent k with
  | [] => (Z.of_nat (length data), k)
  | n :: l => (Z.max (-1) (Z.min n (Z.of_nat (length data))),
       mkScript (sfds k) (swatch k) (next k) (denied k) (batches k) (input k) l (errors k))
  end.
Definition scripted (most : Z) (binds : bool) : Posix script := {|
  sys_socket := s_open; sys_accept := fun _ => s_open; sys_dup := fun _ => s_open;
  sys_epoll_create := s_create; sys_close := s_close; sys_call := fun c _ k => match c with
                        | Bind | SetNonBlock | SetSockOpt => if binds then (0, k) else s_call k
                        | _ => s_call k end;
  sys_epoll_add := fun e _ d => s_add binds e d; sys_epoll_wait := fun e n => s_wait e (Z.min n most); sys_recv := fun _ => s_recv;
  sys_send := fun _ => s_send;
  sys_recv_fd := fun _ k => let '(r, k) := s_open k in (if 0 <=? r then 0 else -1, r, k);
  sys_send_fd := fun _ _ => s_call |}.

Lemma s_open_opens k : opened (sfds k) (sfds (s_open k).2) (s_open k).1.
Proof.
  unfold s_open. destruct (denied k) as [|[] l]; [|by left|]; case_bool_decide as H;
    [right; cbn; naive_solver|left; cbn; done|right; cbn; naive_solver|left; cbn; done].
Qed.
Lemma s_open_watch k : swatch (s_open k).2 = swatch k.
Proof. unfold s_open. destruct (denied k) as [|[] l]; [|done|]; by case_bool_decide. Qed.
Lemma s_call_state k : sfds (s_call k).2 = sfds k /\ swatch (s_call k).2 = swatch k.
Proof. unfold s_call. by destruct (errors k). Qed.
Lemma once_in v evs : v ∈ once evs -> v ∈ evs.
Proof.
  induction evs as [|x evs IH]; [done|]. cbn. intros [->|Hv]%elem_of_cons; [set_solver|].
  apply list_elem_of_filter in Hv. set_solver.
Qed.
Lemma once_NoDup evs : NoDup (ev_fd <$> once evs).
Proof.
  induction evs as [|x evs IH]; [apply NoDup_nil_2|]. cbn. apply NoDup_cons. split.
  - intros (y & Hy & Hin)%list_elem_of_fmap. apply list_elem_of_filter in Hin. naive_solver.
  - eapply sublist_NoDup; [exact IH|]. apply fmap_sublist, sublist_filter.
Qed.
Lemma s_add_state (binds : bool) e k : let k' := (if bool_decide (e ∉ sfds k) then (-1, k) else if binds then (0, k) else s_call k).2 in
  sfds k' = sfds k /\ swatch k' = swatch k.
Proof. case_bool_decide; [done|]. destruct binds; [done|]. apply s_call_state. Qed.
Lemma s_wait_reports e n k : let '(r, evs, _) := s_wait e n k in
  0 < r -> r = Z.of_nat (length evs) /\ r <= n /\ Forall (fun v => ev_fd v ∈ s_watched e k) evs /\ NoDup (ev_fd <$> evs).
Proof.
  unfold s_wait. case_bool_decide; [lia|]. destruct (batches k) as [|b l]; [lia|]. intros Hr. split; [done|].
  split; [rewrite length_take in *; lia|]. split.
  - apply Forall_take, Forall_forall. intros v [Hv _]%once_in%list_elem_of_filter. done.
  - rewrite fmap_take. eapply sublist_NoDup; [apply once_NoDup|apply sublist_take].
Qed.
Lemma scripted_laws most binds : @PosixLaws script (scripted most binds).
Proof.
  unshelve (refine (@Build_PosixLaws script (scripted most binds) sfds s_watched _ _ _ _ _ _ _ _ _ _ _ _ _ _ _ _ _ _ _ _ _ _ _ _ _ _ _ _ _ _); cbn [sys_socket sys_accept sys_dup sys_epoll_create sys_close sys_call sys_epoll_add
    sys_epoll_wait sys_recv sys_send sys_recv_fd sys_send_fd scripted]); intros; unfold s_watched.
  all: try (destruct c, binds; try done; apply s_call_state).
  all: try (destruct c, binds; try done; by rewrite (proj2 (s_call_state k))).
  all: rewrite ?s_open_watch; try apply s_open_opens; try done; try (by apply s_call_state).
  all: try (by rewrite (proj2 (s_call_state k))).
  - unfold s_create. pose proof (s_open_opens k). by destruct (s_open k).
  - unfold s_create. pose proof (s_open_watch k) as H. destruct (s_open k) as [r k']. cbn in *. rewrite H.
    destruct (Z.eqb_spec e r) as [->|Hn]; [by rewrite lookup_insert_eq|by rewrite lookup_insert_ne].
  - cbn. rewrite lookup_fmap. destruct (swatch k !! e); cbn; set_solver.
  - pose proof (s_add_state binds e k) as Ha. unfold s_add. destruct (if bool_decide _ then _ else _). cbn. lia.
  - unfold s_add. rewrite bool_decide_true by done. cbn. lia.
  - pose proof (s_add_state binds e k) as [Ha _]. unfold s_add. destruct (if bool_decide _ then _ else _) as [r k'].
    cbn in *. by destruct (0 <=? r).
  - pose proof (s_add_state binds e k) as [_ H]. unfold s_add, s_watched. destruct (if bool_decide _ then _ else _) as [r k'].
    cbn in *.
    destruct (Z.leb_spec 0 r) as [Hr|Hr]; cbn; rewrite H; [rewrite (proj2 (Z.leb_le _ _)) by lia|destruct (_ && _); set_solver].
    destruct (Z.eqb_spec x e) as [->|Hn]; [rewrite lookup_insert_eq|rewrite lookup_insert_ne by done]; set_solver.
  - unfold s_wait. case_bool_decide; [done|]. by destruct (batches k).
  - unfold s_wait. by rewrite bool_decide_true.
  - unfold s_wait. case_bool_decide; [done|]. by destruct (batches k).
  - pose proof (s_wait_reports e (Z.min n most) k) as Hr. destruct (s_wait _ _ k) as [[r evs] k']. intros Hp.
    destruct (Hr Hp) as (? & ? & ?). split; [done|]. split; [lia|done].
  - unfold s_recv. by destruct (input k).
  - unfold s_recv. by destruct (input k).
  - unfold s_recv. destruct (input k) as [|b l]; [lia|]. rewrite length_take. lia.
  - unfold s_send. by destruct (sent k).
  - unfold s_send. by destruct (sent k).
  - unfold s_send. destruct (sent k) as [|n l]; cbn; lia.
  - pose proof (s_open_opens k) as Ho. destruct (s_open k) as [r k']. cbn in *.
    destruct Ho as [[Hr E]|(Hr & Hn & E)]; [left; by split|right]. rewrite (proj2 (Z.leb_le 0 r)) by lia. done.
  - pose proof (s_open_watch k) as Ho. destruct (s_open k) as [r k']. cbn in *. by rewrite Ho.
Defined.
