(* ===== verification/ServerState.v ===== *)
(** What the socket components share: the state they run in, the packages of
    their clients ([source/server_structs.c]), the comparison of
    [source/alib_cb_funcs.c] and the use of an [ArrayList] of packages.

    A component runs in a [world]: the system, the object ([None] when the
    pointer at hand is NULL), the packages on the heap, and the state of the
    client's own code.  Calls of an object's list run on the list in the
    object; the free callbacks they make, which [ArrayList] records, are then
    run in their order. *)
From S2P Require Import Prelude Memory Effects Heap AlibTypes TimerEvent ArrayList Posix.
Open Scope Z_scope.

Definition SCB_RVAL_DEFAULT : Z := 0.
Definition SCB_RVAL_CLOSE_CLIENT : Z := 1.
Definition SCB_RVAL_STOP_SERVER : Z := 2.
Definition SCB_RVAL_HANDLED : Z := 4.
Definition SCB_RVAL_DELETE : Z := 16.
Definition DEFAULT_BACKLOG_SIZE : Z := 256.
Definition DEFAULT_INPUT_BUFF_SIZE : Z := 64 * 1024.

Definition INT_MIN : Z := - 2 ^ 31.
Definition INT_MAX : Z := 2 ^ 31 - 1.

(** Network byte order on a little-endian machine. *)
Definition htons (v : Z) : Z := Z.lor (Z.shiftl (Z.land v 255) 8) (Z.shiftr v 8).

(** What a client of a server is kept in: its first member is the socket. *)
Class Package (P : Type) := socket_of : P -> Z.
Record socket_package := mkPackage {
  sock : Z; user_data : ptr; free_user_data : bool; parent : ptr }.
#[export] Instance socket_package_socket : Package socket_package := sock.
Definition set_data (d : ptr) (f : bool) (p : socket_package) := mkPackage (sock p) d f (parent p).
Definition set_parent (par : ptr) (p : socket_package) :=
  mkPackage (sock p) (user_data p) (free_user_data p) par.

(** * Worlds *)
Record world (K O P U : Type) := mkWorld {
  kern : K; object : option O; packs : gmap Z P; user : U }.
Arguments mkWorld {K O P U}. Arguments kern {K O P U}. Arguments object {K O P U}.
Arguments packs {K O P U}. Arguments user {K O P U}.

Section world.
Context {K O P U : Type}.
Notation W := (world K O P U).
Definition set_kern (k : K) (w : W) : W := mkWorld k (object w) (packs w) (user w).
Definition set_object (o : option O) (w : W) : W := mkWorld (kern w) o (packs w) (user w).
Definition set_packs (m : gmap Z P) (w : W) : W := mkWorld (kern w) (object w) m (user w).
#[export] Instance packs_store : Store W P := {|
  objs := packs; put := set_packs; objs_put := fun _ _ => eq_refl; put_put := fun _ _ _ => eq_refl;
  put_objs := ltac:(by intros []) |}.

(** A call of the system. *)
Definition sys {A} (f : K -> A * K) : M W A := fun w =>
  let '(a, k) := f (kern w) in Ok (a, set_kern k w, []).
(** The object's fields; the object is not NULL. *)
Definition this : M W O := o ← gets object; lift (deref o).
Definition get {A} (f : O -> A) : M W A := o ← this; mret (f o).
Definition set (f : O -> O) : M W unit := o ← this; modify (set_object (Some (f o))).
(** [if(!obj)return(dflt);] *)
Definition on_this {A} (dflt : A) (m : M W A) : M W A :=
  o ← gets object; match o with None => mret dflt | Some _ => m end.

Context `{Posix K}.
Definition close_fd (d : Z) : M W unit := sys (fun k => (tt, sys_close d k)).
End world.

Section packages.
Context {K O U : Type} `{Posix K}.
Notation W := (world K O socket_package U).
(** * Socket packages *)
Definition new_socket_package (k : option ptr) (s : Z) : M W ptr := alloc k (mkPackage s NULL false NULL).
Definition free_socket_package (package : ptr) : M W unit :=
  if package =? NULL then mret tt else
  p ← load (A := socket_package) package;
  when (free_user_data p && negb (user_data p =? NULL)) (emit (EvFree (user_data p)));;
  release (A := socket_package) package.
(** [package]: the double pointer's target, [None] for NULL. *)
Definition del_socket_package (package : option ptr) : M W (option ptr) :=
  match package with None => mret None | Some p => free_socket_package p;; mret (Some NULL) end.
Definition close_and_free_socket_package (package : ptr) : M W unit :=
  if package =? NULL then mret tt else
  p ← load (A := socket_package) package;
  when (sock p >? -1) (close_fd (sock p));; free_socket_package package.
Definition close_and_del_socket_package (package : option ptr) : M W (option ptr) :=
  match package with None => mret None | Some p => close_and_free_socket_package p;; mret (Some NULL) end.
Definition free_socket_package_cb (package : ptr) : M W unit := free_socket_package package.
Definition del_socket_package_cb (package : option ptr) : M W (option ptr) := del_socket_package package.
Definition close_and_free_socket_package_cb (package : ptr) : M W unit :=
  close_and_free_socket_package package.
Definition close_and_del_socket_package_cb (package : option ptr) : M W (option ptr) :=
  close_and_del_socket_package package.
End packages.

(** * Comparison callbacks *)
Definition compare_int_ptr (int1 int2 : option Z) : res Z :=
  i1 ← deref int1; i2 ← deref int2;
  if (INT_MIN <=? i1 - i2) && (i1 - i2 <=? INT_MAX) then Ok (i1 - i2) else UB SignedOverflow.
Definition compare_int_as_obj (int1 int2 : option (option Z)) : res Z :=
  i1 ← deref int1; i2 ← deref int2; compare_int_ptr i1 i2.

(** * The list of an object *)

(** The object's list of clients ([None] for NULL). *)
Class HasClients (O : Type) := {
  clients : O -> option ArrayList;
  set_clients : option ArrayList -> O -> O;
  clients_set : forall l o, clients (set_clients l o) = l;
  set_clients_set : forall l l' o, set_clients l (set_clients l' o) = set_clients l o;
  set_clients_id : forall o, set_clients (clients o) o = o }.

Section list.
Context {K O P U : Type} `{HasClients O} `{Package P}.
Notation W := (world K O P U).
(** [free]: the free callback of the list. *)
Context (free : ptr -> M W unit).
Fixpoint perform (t : Datatypes.list event) : M W unit :=
  match t with
  | [] => mret tt
  | EvFree p :: t => free p;; perform t
  | e :: t => emit e;; perform t
  end.
Definition on_list {A} (m : M (option ArrayList) A) : M W A :=
  l ← get clients; '(a, l, t) ← lift (m l); set (set_clients l);; perform t;; mret a.

(** The item whose socket is [fd], looked up with [compare_int_ptr]; every item
    is compared as a package on the heap. *)
Definition socket_difference (m : gmap Z P) (fd : Z) (p : ptr) : res Z :=
  match m !! p with Some pk => compare_int_ptr (Some fd) (Some (socket_of pk)) | None => UB Dangling end.
Fixpoint comparable (m : gmap Z P) (fd : Z) (ps : Datatypes.list ptr) : res unit :=
  match ps with [] => Ok tt | p :: ps => socket_difference m fd p;; comparable m fd ps end.
Definition as_compare (m : gmap Z P) (fd : Z) (p : ptr) : Z :=
  match socket_difference m fd p with Ok d => d | _ => 1 end.
Definition find_client (find : option (ptr -> Z) -> M (option ArrayList) ptr) (fd : Z) : M W ptr :=
  m ← gets packs; l ← get clients;
  lift (comparable m fd (match l with Some l => items l | None => [] end));;
  on_list (find (Some (as_compare m fd))).
End list.
