(* ===== verification/ServerSpec.v ===== *)
(** Descriptors and packages of a server: which of the system's open
    descriptors it holds, and which of the packages on the heap, from one
    operation to the next.  [kept] are the descriptors the client's own code
    holds. *)
From stdpp Require Import sorting.
From S2P Require Import Prelude Memory Effects Heap AlibTypes TimerEvent ArrayList ArrayListSpec Posix ServerState.
Open Scope Z_scope.
Notation dlist := Datatypes.list (only parsing).

(** * The descriptors *)
Class Keeps (U : Type) := kept : U -> gset Z.
Section descriptors.
Context {K U : Type} `{PosixLaws K} `{Keeps U}.

(** The open descriptors are those of [D] and those the client's code keeps. *)
Record holds (D : dlist Z) (k : K) (u : U) : Prop := {
  holds_nodup : NoDup D;
  holds_fds : fds k = list_to_set D ∪ kept u;
  holds_apart : forall d, d ∈ D -> d ∉ kept u;
  holds_range : forall d, d ∈ fds k -> 0 <= d < 2 ^ 31 }.

Lemma holds_perm D D' k u : D ≡ₚ D' -> holds D k u -> holds D' k u.
Proof.
  intros Hp [Hn Hf Ha Hr]. split; [by rewrite <- Hp| |intros d Hd; apply Ha; by rewrite Hp|done].
  rewrite Hf. apply set_eq. intros x. rewrite !elem_of_union, !elem_of_list_to_set. by rewrite Hp.
Qed.
Lemma holds_member D k u d : holds D k u -> d ∈ D -> 0 <= d < 2 ^ 31.
Proof. intros [_ Hf _ Hr] Hd. apply Hr. rewrite Hf. set_solver. Qed.
Lemma holds_fds_same D k k' u : fds k' = fds k -> holds D k u -> holds D k' u.
Proof. intros E [Hn Hf Ha Hr]. split; [done|congruence|done|by rewrite E]. Qed.
Lemma holds_close d D k u : holds (d :: D) k u -> holds D (sys_close d k) u.
Proof.
  intros [Hn Hf Ha Hr]. apply NoDup_cons in Hn as [Hd Hn]. split; [done| |set_solver|].
  - rewrite close_closes, Hf. assert (d ∉ kept u) by (apply Ha; set_solver). set_solver.
  - intros x. rewrite close_closes. set_solver.
Qed.
Lemma holds_opened r k' D k u : opened (fds k) (fds k') r -> holds D k u -> 0 <= r -> holds (r :: D) k' u.
Proof.
  intros [[??]|(Hr & Hn & E)] [Hnd Hf Ha Hra] Hpos; [lia|]. split.
  - apply NoDup_cons. split; [|done]. rewrite Hf in Hn. set_solver.
  - rewrite E, Hf. set_solver.
  - intros d [->|Hd]%elem_of_cons; [rewrite Hf in Hn; set_solver|auto].
  - intros x. rewrite E. set_solver.
Qed.
Lemma holds_not_opened r k' D k u : opened (fds k) (fds k') r -> holds D k u -> r < 0 -> holds D k' u.
Proof. intros [[? E]|(Hr & _)] Hh Hneg; [by apply (holds_fds_same D k)|lia]. Qed.
Lemma holds_length D k u : holds D k u -> Z.of_nat (length D) <= 2 ^ 31.
Proof.
  intros Hh. pose proof (holds_nodup _ _ _ Hh) as Hn.
  assert (D ⊆+ (Z.of_nat <$> seq 0 (Z.to_nat (2 ^ 31)))) as Hs.
  { apply NoDup_submseteq; [done|]. intros d Hd. apply (holds_member _ _ _ _ Hh) in Hd.
    apply list_elem_of_fmap. exists (Z.to_nat d). split; [lia|]. apply elem_of_seq. lia. }
  apply submseteq_length in Hs. rewrite length_fmap, length_seq in Hs. lia.
Qed.
Lemma holds_done k u : holds [] k u -> fds k = kept u.
Proof. intros [_ Hf _ _]. set_solver. Qed.
End descriptors.

(** * Steps in a world *)
Section steps.
Context {K O P U : Type}.
Notation W := (world K O P U).
Implicit Types (w : W) (o : O).
Lemma post_get {A} (f : O -> A) (Q : A -> W -> Prop) w o :
  object w = Some o -> Q (f o) w -> post (get f) Q w.
Proof.
  intros Ho HQ. exists (f o), w, []. split; [|done]. unfold get, this.
  by rewrite bind_bind, bind_gets, Ho, (bind_lift _ o).
Qed.
Lemma post_this (Q : O -> W -> Prop) w o : object w = Some o -> Q o w -> post this Q w.
Proof.
  intros Ho HQ. exists o, w, []. split; [|done]. unfold this. by rewrite bind_gets, Ho.
Qed.
Lemma post_set (f : O -> O) (Q : unit -> W -> Prop) w o :
  object w = Some o -> Q tt (set_object (Some (f o)) w) -> post (set f) Q w.
Proof.
  intros Ho HQ. exists tt, (set_object (Some (f o)) w), []. split; [|done]. unfold set, this.
  by rewrite bind_bind, bind_gets, Ho, (bind_lift _ o).
Qed.
Lemma post_sys {A} (f : K -> A * K) (Q : A -> W -> Prop) w :
  Q (f (kern w)).1 (set_kern (f (kern w)).2 w) -> post (sys f) Q w.
Proof.
  intros HQ. exists (f (kern w)).1, (set_kern (f (kern w)).2 w), []. split; [|done].
  unfold sys. by destruct (f (kern w)).
Qed.
Lemma bind_sys {A B} (f : K -> A * K) (k : A -> M W B) w :
  mbind k (sys f) w = k (f (kern w)).1 (set_kern (f (kern w)).2 w).
Proof. apply bind_quiet. unfold sys. by destruct (f (kern w)). Qed.
Lemma post_on_this {A} (d : A) (m : M W A) (Q : A -> W -> Prop) w o :
  object w = Some o -> post m Q w -> post (on_this d m) Q w.
Proof. intros Ho HQ. unfold on_this. apply post_bind, post_gets. by rewrite Ho. Qed.
Lemma post_when b (m : M W unit) (Q : unit -> W -> Prop) w :
  (b = true -> post m Q w) -> (b = false -> Q tt w) -> post (when b m) Q w.
Proof. destruct b; intros H1 H2; [by apply H1|by apply post_ret, H2]. Qed.
Lemma post_load p a (Q : P -> W -> Prop) w :
  p <> NULL -> packs w !! p = Some a -> Q a w -> post (load p) Q w.
Proof. intros Hp Ha HQ. exists a, w, []. split; [by apply load_ok|done]. Qed.
Lemma post_release p a (Q : unit -> W -> Prop) w :
  p <> NULL -> packs w !! p = Some a -> Q tt (set_packs (delete p (packs w)) w) -> post (release (A := P) p) Q w.
Proof. intros Hp Ha HQ. eexists tt, _, []. split; [by apply (release_ok (A := P) p w a)|done]. Qed.
End steps.

(** * Packages and buffers *)
(** Flags that stay lowered. *)
Lemma raise_clear m fp f : Z.land f m = 0 -> Z.land fp m = 0 -> Z.land (flag_raise fp f) m = 0.
Proof. intros Hf Hp. unfold flag_raise. by rewrite Z.land_lor_distr_l, Hf, Hp. Qed.
Lemma lower_clear m fp f : Z.land fp m = 0 -> Z.land (flag_lower fp f) m = 0.
Proof.
  intros Hp. unfold flag_lower. rewrite <- Z.land_assoc, (Z.land_comm _ m), Z.land_assoc, Hp. apply Z.land_0_l.
Qed.
Lemma raised_lor r a b : raised r (Z.lor a b) = raised r a || raised r b.
Proof.
  unfold raised. rewrite Z.land_lor_distr_r. destruct (Z.eqb_spec (Z.land r a) 0) as [->|Ha].
  - by rewrite Z.lor_0_l.
  - cbn. apply negb_true_iff, Z.eqb_neq. intros [? _]%Z.lor_eq_0_iff. done.
Qed.
Section packages.
Context {K O U : Type} `{Posix K}.
Notation W := (world K O socket_package U).
Lemma post_close_and_free p pk (Q : unit -> W -> Prop) (w : W) : p <> NULL -> packs w !! p = Some pk -> 0 <= socket_of pk ->
  Q tt (set_packs (delete p (packs w)) (set_kern (sys_close (socket_of pk) (kern w)) w)) ->
  post (close_and_free_socket_package p) Q w.
Proof.
  intros Hn Hpk Hr HQ. unfold close_and_free_socket_package. rewrite (proj2 (Z.eqb_neq _ _)) by done.
  apply post_bind. eapply post_load; [done..|]. apply post_bind. change (sock pk) with (socket_of pk).
  rewrite Z.gtb_ltb, (proj2 (Z.ltb_lt _ _)) by lia. apply post_sys. cbn [fst snd].
  unfold free_socket_package. rewrite (proj2 (Z.eqb_neq _ _)) by done.
  apply post_bind. eapply post_load; [done..|]. apply post_bind. apply post_when; intros _; [apply post_emit|];
    by eapply post_release.
Qed.
End packages.
(** What is received fits into the buffer. *)
Lemma received_fits (b data : dlist Z) n : blen b = DEFAULT_INPUT_BUFF_SIZE ->
  (0 < n -> n = Z.of_nat (length data) /\ n <= DEFAULT_INPUT_BUFF_SIZE) ->
  exists b', (if 0 <? n then blk_write b 0 data else mret b) = Ok b' /\ blen b' = DEFAULT_INPUT_BUFF_SIZE.
Proof.
  intros Hlen Hfit. destruct (Z.ltb_spec 0 n) as [Hn|Hn]; [|by exists b]. destruct (Hfit Hn) as [Hnl Hle].
  exists (splice b 0 data). unfold blen in *. split; [|].
  - unfold blk_write, blen. rewrite (proj2 (Z.eqb_neq _ _)) by lia. rewrite (proj2 (Z.leb_le (0 + _) _)) by lia. done.
  - fold (blen (splice b 0 data)). rewrite blen_splice by (unfold blen; lia). unfold blen. lia.
Qed.

(** * The list of clients *)

(** A list with a free callback whose mutex is free, that can still grow. *)
Record client_list (l : ArrayList) : Prop := {
  cl_wf : wf l;
  cl_free : free_item l = true;
  cl_held : mutex_held l = false;
  cl_mutex : use_mutex l = true;
  cl_cap : capacity l <= 2 ^ 32;
  cl_max : 2 ^ 59 <= max_cap l }.

Lemma freed_clients l ps : client_list l -> freed l ps = EvFree <$> ps.
Proof. intros Hl. unfold freed. by rewrite (cl_free _ Hl). Qed.
Lemma keeps_mutex {A} (m : M (option ArrayList) A) l a l' t :
  ignores_mutex (here m) -> m (Some l) = Ok (a, Some l', t) ->
  mutex_held l' = mutex_held l /\ use_mutex l' = use_mutex l.
Proof. intros Hi Hm. by destruct (Hi l true a l' t (here_Some _ _ _ _ _ Hm)) as (? & ? & _). Qed.

Lemma clear_client_list l : client_list l -> exists l',
  ArrayList_clear_tsafe (Some l) = Ok (tt, Some l', bracket l (EvFree <$> items l)) /\
  client_list l' /\ items l' = [].
Proof.
  intros Hl. destruct (clear_ok l (cl_wf _ Hl)) as (l' & E & Hw & Hm & Hf & Hi & Hc).
  rewrite (freed_clients l _ Hl) in E. destruct (keeps_mutex _ _ _ _ _ ignores_clear E) as [Hmh Hmu].
  exists l'. split; [|split; [|done]].
  - unfold ArrayList_clear_tsafe. by apply tsafe_bracket; [apply ignores_clear|apply Hl|].
  - destruct Hl. split; congruence || lia.
Qed.
Lemma remove_capacity l p l' t : wf l -> p <> NULL ->
  ArrayList_remove p (Some l) = Ok (tt, Some l', t) -> capacity l' = capacity l.
Proof.
  intros Hwf Hp. unfold ArrayList_remove, on_obj. rewrite (proj2 (Z.eqb_neq p NULL)) by done.
  destruct (remove_cases l p Hwf Hp) as [(Hin & a & b & Hl & Hrf & Hscan)|(_ & _ & Hscan)];
    rewrite (bind_quiet _ _ _ _ _ Hscan); [|by intros [= <-]].
  pose proof (wf_remove l a p b Hwf Hl Hp) as [_ Hpos]. pose proof (count_range l Hwf).
  pose proof Hwf as [_ _ _ [Hm Hx]]. unfold ULONG_MAX in *.
  rewrite (st_id l _ Hl) at 1. rewrite remove_by_ptr_middle by lia. by intros [= <- _].
Qed.
Lemma remove_client_list l p : client_list l -> p <> NULL -> exists l',
  ArrayList_remove_tsafe p (Some l) = Ok (tt, Some l', bracket l (if decide (p ∈ items l) then [EvFree p] else [])) /\
  ArrayList_remove p (Some l) = Ok (tt, Some l', if decide (p ∈ items l) then [EvFree p] else []) /\
  client_list l' /\ items l ≡ₚ items l' ++ (if decide (p ∈ items l) then [p] else []).
Proof.
  intros Hl Hp. destruct (remove_ok l (cl_wf _ Hl) p) as (l' & E & _ & Hw & Hm & Hf & Hi).
  rewrite (freed_clients l _ Hl) in E. rewrite (proj2 (Z.eqb_neq p NULL)) in Hi by done.
  assert ((if decide (p <> NULL /\ p ∈ items l) then EvFree <$> [p] else [])
    = if decide (p ∈ items l) then [EvFree p] else []) as Et.
  { destruct (decide (p ∈ items l)); [by rewrite decide_True|by rewrite decide_False by naive_solver]. }
  rewrite Et in E. destruct (keeps_mutex _ _ _ _ _ (ignores_remove p) E) as [Hmh Hmu].
  assert (capacity l' = capacity l) as Hc.
  { revert E. apply remove_capacity; [apply Hl|done]. }
  exists l'. split; [|split; [done|split]].
  - unfold ArrayList_remove_tsafe. by apply tsafe_bracket; [apply ignores_remove|apply Hl|].
  - destruct Hl. split; congruence || lia.
  - rewrite Hi. destruct (decide (p ∈ items l)) as [Hin|Hin].
    + rewrite (remove_first_perm p) at 1 by done. by rewrite Permutation_app_comm.
    + by rewrite remove_first_notin, app_nil_r.
Qed.
Lemma add_client_list l p : client_list l -> p <> NULL -> blen (items l) < 2 ^ 31 -> exists l',
  ArrayList_add true p (Some l) = Ok (1, Some l', []) /\ client_list l' /\ items l' ≡ₚ p :: items l.
Proof.
  intros Hl Hp Hlen. pose proof (cl_wf _ Hl) as Hwf. pose proof (cl_max _ Hl). pose proof (cl_cap _ Hl).
  pose proof (count_range l Hwf). pose proof (wf_count _ Hwf) as Hct.
  assert (exists l', ArrayList_add true p (Some l) = Ok (1, Some l', []) /\ wf l' /\ items l' ≡ₚ p :: items l /\
    capacity l' <= 2 ^ 32 /\ max_cap l' = max_cap l /\ free_item l' = free_item l) as (l' & E & Hw & Hi & Hc & Hm & Hf).
  { destruct (decide (count l < capacity l)) as [Hlt|Hge].
    - destruct (add_free_slot l p Hwf Hp Hlt) as (cells & E & Hw & Hi). by eexists.
    - destruct (add_expand l p Hwf Hp) as (l' & E & Hw & Hi & _ & Hc); [lia..|].
      exists l'. split; [done|]. split; [done|]. split; [by rewrite Hi, Permutation_app_comm|].
      split; [rewrite Hc; unfold next_cap; destruct (capacity l =? 0); lia|].
      revert E. unfold ArrayList_add, on_obj. rewrite (proj2 (Z.eqb_neq p NULL)), !bind_gets by done.
      rewrite (proj2 (Z.ltb_ge _ _)), (proj2 (Z.eqb_neq _ _)) by lia.
      rewrite (bind_quiet _ _ _ _ _ (here_Some _ _ _ _ _ (expand_grow l Hwf ltac:(lia) ltac:(lia)))).
      unfold slot_store, incr_count. mstep. simpl. destruct (blk_store _ _ _); [|done|done]. simpl. by intros [= <-]. }
  destruct (keeps_mutex _ _ _ _ _ (ignores_add true p) E) as [Hmh Hmu].
  exists l'. split; [done|]. split; [|done]. destruct Hl. split; congruence || lia.
Qed.
Lemma add_tsafe_client_list l p : client_list l -> p <> NULL -> blen (items l) < 2 ^ 31 -> exists l',
  ArrayList_add_tsafe true p (Some l) = Ok (1, Some l', bracket l []) /\ client_list l' /\ items l' ≡ₚ p :: items l.
Proof.
  intros Hl Hp Hlen. destruct (add_client_list l p Hl Hp Hlen) as (l' & E & Hl' & Hit). exists l'. split; [|done].
  unfold ArrayList_add_tsafe. apply tsafe_bracket; [apply ignores_add|apply Hl|exact E].
Qed.
Lemma find_client_list l cmp : client_list l ->
  ArrayList_find_item_by_value_tsafe (Some cmp) (Some l)
  = Ok (default NULL (head (filter (fun p => cmp p = 0) (items l))), Some l, bracket l []).
Proof.
  intros Hl. pose proof (cl_wf _ Hl) as Hwf.
  assert (ArrayList_find_item_by_value (Some cmp) (Some l)
    = Ok (default NULL (head (filter (fun p => cmp p = 0) (items l))), Some l, [])) as E.
  { unfold ArrayList_find_item_by_value. apply on_obj_Ok. rewrite !bind_gets. unfold array_fuel.
    destruct (wf_cases l Hwf) as [(Hls&Hc&Hc0)|(cells & Hls & Hcells & Hb & Hpos & Hc)].
    - unfold items, slots. rewrite Hls. by rewrite Hc0.
    - rewrite Hls. unfold items. rewrite Hcells.
      pose proof (find_value_ok l cmp [] cells (count l) (S (S (length cells)))) as E.
      simpl app in E. rewrite <- Hc, <- (st_id l cells Hls) in E. apply E. lia. }
  unfold ArrayList_find_item_by_value_tsafe. apply tsafe_bracket; [|apply Hl|done].
  assert (forall fuel c it, ignores_mutex (find_value cmp fuel c it)) as Hi.
  { induction fuel as [|fuel IH]; intros c it; cbn [find_value]; [auto with mutex|].
    apply ignores_if; [|auto with mutex]. apply ignores_bind; [apply ignores_slot_load|intros v].
    repeat apply ignores_if; auto with mutex. }
  unfold ArrayList_find_item_by_value. apply ignores_here. apply ignores_bind; [by apply ignores_gets|intros n].
  apply ignores_bind; [by apply ignores_gets|intros c]. apply Hi.
Qed.

(** * The invariant of a server *)

(** The descriptors in the object's own fields, and those of them its epoll instance may report on. *)
Class Holder (O : Type) `{HasClients O} := {
  base : O -> dlist Z;
  listening : O -> dlist Z;
  base_clients : forall l o, base (set_clients l o) = base o;
  listening_clients : forall l o, listening (set_clients l o) = listening o;
  listening_base : forall o, listening o ⊆ base o }.
Section invariant.
Context {K O P U : Type} `{PosixLaws K} `{Holder O} `{Package P} `{Keeps U}.
Notation W := (world K O P U).

Definition socks (m : gmap Z P) (ps : dlist ptr) : dlist Z :=
  (fun p => match m !! p with Some pk => socket_of pk | None => -1 end) <$> ps.

(** [Y], [X]: the packages and the descriptors that are on their way into or out of the list;
    [e]: the epoll instance, if there is one. *)
Record inv (e : option Z) (o : O) (l : ArrayList) (Y : dlist ptr) (X : dlist Z) (w : W) : Prop := {
  inv_object : object w = Some o;
  inv_clients : clients o = Some l;
  inv_list : client_list l;
  inv_nodup : NoDup (items l ++ Y);
  inv_null : NULL ∉ items l ++ Y;
  inv_packs : forall p, is_Some (packs w !! p) <-> p ∈ items l ++ Y;
  inv_holds : holds (base o ++ X ++ socks (packs w) (items l ++ Y)) (kern w) (user w);
  inv_watch : match e with
              | None => True
              | Some e => forall d, d ∈ watched e (kern w) ->
                  d ∈ listening o ++ X ++ socks (packs w) (items l ++ Y)
              end }.

Lemma socks_perm m ps qs : ps ≡ₚ qs -> socks m ps ≡ₚ socks m qs.
Proof. intros E. unfold socks. by rewrite E. Qed.
Lemma socks_cons m p ps : socks m (p :: ps)
  = match m !! p with Some pk => socket_of pk | None => -1 end :: socks m ps.
Proof. done. Qed.
Lemma socks_app m ps qs : socks m (ps ++ qs) = socks m ps ++ socks m qs.
Proof. apply fmap_app. Qed.
Lemma socks_ext m m' ps : (forall p, p ∈ ps -> m !! p = m' !! p) -> socks m ps = socks m' ps.
Proof. intros E. apply list_fmap_ext. intros i p Hp%list_elem_of_lookup_2. by rewrite E. Qed.

(** The same resources, listed in another order or by another object. *)
Lemma inv_moved e o l Y X o' l' Y' X' w w' :
  inv e o l Y X w -> object w' = Some o' -> kern w' = kern w -> packs w' = packs w -> user w' = user w ->
  clients o' = Some l' -> client_list l' ->
  base o' ++ X' ≡ₚ base o ++ X -> listening o ++ X ⊆ listening o' ++ X' -> items l' ++ Y' ≡ₚ items l ++ Y ->
  inv e o' l' Y' X' w'.
Proof.
  intros [Ho Hc Hl Hn Hnn Hp Hh Hw] Ho' Hk Hpk Hu Hc' Hl' HB HL HI.
  split; [done|done|done|by rewrite HI|by rewrite HI| | |].
  - intros p. rewrite Hpk, Hp. by rewrite HI.
  - rewrite Hk, Hu, Hpk. eapply holds_perm; [|exact Hh].
    rewrite !app_assoc. rewrite HB. f_equiv. symmetry. by apply socks_perm.
  - destruct e as [e|]; [|done]. intros d Hd. rewrite Hk in Hd. specialize (Hw d Hd).
    rewrite app_assoc in Hw |- *. rewrite Hpk, (socks_perm _ _ _ HI). set_solver.
Qed.
(** Only the system changed, and not in what matters. *)
Lemma inv_kern e o l Y X w k : inv e o l Y X w -> fds k = fds (kern w) ->
  match e with None => True | Some e => watched e k ⊆ watched e (kern w) end ->
  inv e o l Y X (set_kern k w).
Proof.
  intros [Ho Hc Hl Hn Hnn Hp Hh Hw] Hf Hwa. split; cbn [set_kern object packs kern user]; try done.
  - by apply (holds_fds_same _ (kern w)).
  - destruct e as [e|]; [|done]. intros d Hd. by apply Hw, Hwa.
Qed.
(** A descriptor on its way out is closed. *)
Lemma inv_close e o l Y X d w : inv e o l Y (d :: X) w -> inv e o l Y X (set_kern (sys_close d (kern w)) w).
Proof.
  intros [Ho Hc Hl Hn Hnn Hp Hh Hw]. split; cbn [set_kern object packs kern user]; try done.
  - apply holds_close. eapply holds_perm; [|exact Hh]. symmetry. apply Permutation_middle.
  - destruct e as [e|]; [|done]. intros x [Hx Hd]%close_watches%elem_of_difference. specialize (Hw x Hx).
    set_solver.
Qed.
(** What the epoll instance watches is open. *)
Definition watches (e : option Z) (k : K) : gset Z := match e with None => ∅ | Some e => watched e k end.
Lemma inv_watched e o l Y X w : inv e o l Y X w -> watches e (kern w) ⊆ fds (kern w).
Proof.
  intros [_ _ _ _ _ _ Hh Hw]. destruct e as [e|]; [|set_solver]. intros d Hd. specialize (Hw d Hd).
  rewrite (holds_fds _ _ _ Hh). pose proof (listening_base o d). set_solver.
Qed.
Lemma inv_pack e o l Y X w p : inv e o l Y X w -> p ∈ items l ++ Y -> p <> NULL /\ exists pk, packs w !! p = Some pk.
Proof. intros Hi Hp. split; [intros ->; by apply (inv_null _ _ _ _ _ _ Hi)|]. by apply (inv_packs _ _ _ _ _ _ Hi). Qed.
(** A package on its way out is taken from the heap: its socket remains. *)
Lemma inv_release e o l Y X p pk w : inv e o l (p :: Y) X w -> packs w !! p = Some pk ->
  inv e o l Y (socket_of pk :: X) (set_packs (delete p (packs w)) w).
Proof.
  intros [Ho Hc Hl Hn Hnn Hp Hh Hw] Hpk.
  rewrite <- Permutation_middle in Hn. apply NoDup_cons in Hn as [Hni Hn].
  assert (socks (packs w) (items l ++ p :: Y)
    ≡ₚ socket_of pk :: socks (delete p (packs w)) (items l ++ Y)) as Hs.
  { etrans; [apply socks_perm; symmetry; apply Permutation_middle|]. rewrite socks_cons, Hpk.
    rewrite (socks_ext (packs w) (delete p (packs w))); [done|].
    intros q Hq. rewrite lookup_delete_ne; [done|]. intros ->. done. }
  split; cbn [set_packs object packs kern user]; try done.
  - set_solver.
  - intros q. destruct (decide (q = p)) as [->|Hne].
    + rewrite lookup_delete_eq. split; [by intros [? ?]|done].
    + rewrite lookup_delete_ne by done. rewrite Hp. set_solver.
  - eapply holds_perm; [|exact Hh]. rewrite Hs. f_equiv. by rewrite <- Permutation_middle.
  - destruct e as [e|]; [|done]. intros d Hd. specialize (Hw d Hd). rewrite Hs in Hw. set_solver.
Qed.

(** A new descriptor, and a package made for it. *)
Lemma inv_opened e o l Y X w k r : inv e o l Y X w -> opened (fds (kern w)) (fds k) r -> 0 <= r ->
  (forall x, watched x k = watched x (kern w)) -> inv e o l Y (r :: X) (set_kern k w).
Proof.
  intros [Ho Hc Hl Hn Hnn Hp Hh Hw] Hop Hr Hwa. split; cbn [set_kern object packs kern user]; try done.
  - eapply holds_perm; [|by eapply (holds_opened _ k)]. apply Permutation_middle.
  - destruct e as [e|]; [|done]. intros d. rewrite Hwa. intros Hd. specialize (Hw d Hd). set_solver.
Qed.
Lemma inv_alloc e o l Y X w p pk : inv e o l Y (socket_of pk :: X) w -> p <> NULL -> packs w !! p = None ->
  inv e o l (p :: Y) X (set_packs (<[p := pk]> (packs w)) w).
Proof.
  intros [Ho Hc Hl Hn Hnn Hp Hh Hw] Hnull Hpk.
  assert (p ∉ items l ++ Y) as Hni by (rewrite <- Hp, Hpk; by intros [? ?]).
  assert (socks (<[p := pk]> (packs w)) (items l ++ p :: Y)
    ≡ₚ socket_of pk :: socks (packs w) (items l ++ Y)) as Hs.
  { etrans; [apply socks_perm; symmetry; apply Permutation_middle|]. rewrite socks_cons, lookup_insert_eq. f_equiv.
    rewrite (socks_ext (<[p := pk]> (packs w)) (packs w)); [done|].
    intros q Hq. rewrite lookup_insert_ne; [done|]. intros ->. done. }
  split; cbn [set_packs object packs kern user]; try done.
  - rewrite <- Permutation_middle. by apply NoDup_cons.
  - rewrite <- Permutation_middle. set_solver.
  - intros q. rewrite <- Permutation_middle. destruct (decide (q = p)) as [->|Hne].
    + rewrite lookup_insert_eq. split; [set_solver|by eexists].
    + rewrite lookup_insert_ne by done. rewrite Hp. set_solver.
  - eapply holds_perm; [|exact Hh]. rewrite Hs. f_equiv. by rewrite <- Permutation_middle.
  - destruct e as [e|]; [|done]. intros d Hd. specialize (Hw d Hd). rewrite Hs. set_solver.
Qed.

(** * Looking a client up *)
Lemma compare_client_ok e o l Y X w p fd : inv e o l Y X w -> p ∈ items l -> 0 <= fd < 2 ^ 31 ->
  exists pk, packs w !! p = Some pk /\ socket_difference (packs w) fd p = Ok (fd - socket_of pk) /\
    as_compare (packs w) fd p = fd - socket_of pk.
Proof.
  intros Hi Hp Hfd. destruct (inv_pack _ _ _ _ _ _ p Hi) as (_ & pk & Hpk); [set_solver|].
  assert (0 <= socket_of pk < 2 ^ 31) as Hs.
  { eapply (holds_member _ _ _ _ (inv_holds _ _ _ _ _ _ Hi)). rewrite !elem_of_app. do 2 right.
    apply list_elem_of_fmap. exists p. rewrite Hpk. split; [done|set_solver]. }
  assert (socket_difference (packs w) fd p = Ok (fd - socket_of pk)) as E.
  { unfold socket_difference, compare_int_ptr. rewrite Hpk. cbn [deref mbind res_bind].
    rewrite !(proj2 (Z.leb_le _ _)) by (unfold INT_MIN, INT_MAX; lia). done. }
  exists pk. split; [done|]. split; [done|]. unfold as_compare. by rewrite E.
Qed.
Definition found (m : gmap Z P) (l : ArrayList) (fd : Z) : ptr :=
  default NULL (head (filter (fun p => as_compare m fd p = 0) (items l))).
Lemma found_filter e o l Y X w fd p : inv e o l Y X w -> 0 <= fd < 2 ^ 31 -> p ∈ items l ->
  p ∈ filter (fun p => as_compare (packs w) fd p = 0) (items l) <-> packs w !! p ≫= (fun pk => Some (socket_of pk)) = Some fd.
Proof.
  intros Hi Hr Hp. destruct (compare_client_ok _ _ _ _ _ _ p fd Hi Hp Hr) as (pk & E & _ & Hc).
  rewrite list_elem_of_filter, Hc, E. cbn. split; [intros [? _]; f_equal; lia|intros [= ->]; split; [lia|done]].
Qed.
Lemma found_in e o l Y X w fd : inv e o l Y X w -> 0 <= fd < 2 ^ 31 -> fd ∈ socks (packs w) (items l) ->
  found (packs w) l fd ∈ items l /\ exists pk, packs w !! found (packs w) l fd = Some pk /\ socket_of pk = fd.
Proof.
  intros Hi Hr (p & Hpk & Hp)%list_elem_of_fmap. unfold found.
  assert (p ∈ filter (fun p => as_compare (packs w) fd p = 0) (items l)) as Hf.
  { apply (found_filter _ _ _ _ _ _ _ _ Hi Hr Hp). destruct (inv_pack _ _ _ _ _ _ p Hi) as (_ & pk & E); [set_solver|].
    rewrite E in Hpk |- *. by subst. }
  destruct (filter _ (items l)) as [|x xs] eqn:E; [by apply elem_of_nil in Hf|]. cbn.
  assert (x ∈ filter (fun p => as_compare (packs w) fd p = 0) (items l)) as Hx by (rewrite E; set_solver).
  pose proof Hx as [_ Hin]%list_elem_of_filter. split; [done|]. apply (found_filter _ _ _ _ _ _ _ _ Hi Hr Hin) in Hx.
  destruct (packs w !! x) as [pk|]; cbn in Hx; naive_solver.
Qed.
Lemma found_out e o l Y X w fd : inv e o l Y X w -> 0 <= fd < 2 ^ 31 -> fd ∉ socks (packs w) (items l) ->
  found (packs w) l fd = NULL.
Proof.
  intros Hi Hr Hout. unfold found. destruct (filter _ (items l)) as [|x xs] eqn:E; [done|]. destruct Hout.
  assert (x ∈ filter (fun p => as_compare (packs w) fd p = 0) (items l)) as Hx by (rewrite E; set_solver).
  pose proof Hx as [_ Hin]%list_elem_of_filter. apply (found_filter _ _ _ _ _ _ _ _ Hi Hr Hin) in Hx.
  apply list_elem_of_fmap. exists x. split; [|done]. destruct (packs w !! x); cbn in Hx; congruence.
Qed.
(** * Running the list's operations *)
Context (free : ptr -> M W unit).
Lemma find_client_run e o l Y X w fd : inv e o l Y X w -> 0 <= fd < 2 ^ 31 -> exists t,
  find_client free ArrayList_find_item_by_value_tsafe fd w = Ok (found (packs w) l fd, w, t).
Proof.
  intros Hi Hr. pose proof (inv_object _ _ _ _ _ _ Hi) as Ho. pose proof (inv_clients _ _ _ _ _ _ Hi) as Hc.
  assert (Hget : get clients w = Ok (Some l, w, [])).
  { unfold get, this. rewrite bind_bind, bind_gets, Ho. rewrite (bind_lift _ o) by done. by rewrite <- Hc. }
  assert (comparable (packs w) fd (items l) = Ok tt) as Hcmp.
  { assert (forall ps, ps ⊆ items l -> comparable (packs w) fd ps = Ok tt) as H'; [|by apply H'].
    induction ps as [|p ps IH]; intros Hsub; [done|]. cbn [comparable].
    destruct (compare_client_ok _ _ _ _ _ _ p fd Hi) as (pk & _ & -> & _); [set_solver|done|]. cbn. apply IH. set_solver. }
  eexists. unfold find_client. rewrite bind_gets, (bind_quiet _ _ _ _ _ Hget), (bind_lift _ _ _ _ Hcmp).
  unfold on_list. rewrite (bind_quiet _ _ _ _ _ Hget).
  rewrite (bind_lift _ (found (packs w) l fd, Some l, bracket l [])) by by rewrite find_client_list by apply Hi.
  assert (set (set_clients (Some l)) w = Ok (tt, w, [])) as Hset.
  { unfold set, this. rewrite bind_bind, bind_gets, Ho. rewrite (bind_lift _ o) by done.
    unfold modify. rewrite <- Hc, set_clients_id, <- Ho. by destruct w. }
  rewrite (bind_quiet _ _ _ _ _ Hset). unfold bracket.
  rewrite (cl_mutex _ (inv_list _ _ _ _ _ _ Hi)). reflexivity.
Qed.
Lemma find_client_ok e o l Y X w fd : inv e o l Y X w -> fd ∈ socks (packs w) (items l) ->
  exists p t, find_client free ArrayList_find_item_by_value_tsafe fd w = Ok (p, w, t) /\
    p ∈ items l /\ p <> NULL.
Proof.
  intros Hi Hfd. assert (0 <= fd < 2 ^ 31) as Hr.
  { eapply (holds_member _ _ _ _ (inv_holds _ _ _ _ _ _ Hi)). rewrite socks_app. set_solver. }
  destruct (find_client_run _ _ _ _ _ _ fd Hi Hr) as (t & E). pose proof (found_in _ _ _ _ _ _ _ Hi Hr Hfd) as [Hq _].
  do 2 eexists. split; [exact E|]. split; [done|]. apply (inv_pack _ _ _ _ _ _ _ Hi). set_solver.
Qed.

(** ** An invariant of one's own

    [J]: what holds of the object, its list, the packages on their way and the state; [L]: what a package must
    satisfy to leave the list. *)
Record client_inv (J : O -> ArrayList -> dlist ptr -> W -> Prop) (L : W -> ptr -> Prop) : Prop := {
  ci_object : forall o l Y w, J o l Y w -> object w = Some o /\ clients o = Some l /\ client_list l;
  ci_moved : forall o l Y w l' Y', J o l Y w -> client_list l' -> items l' ++ Y' ≡ₚ items l ++ Y ->
    (forall p, p ∈ Y' -> p ∈ Y \/ L w p) -> J (set_clients (Some l') o) l' Y' (set_object (Some (set_clients (Some l') o)) w) }.
Lemma inv_client_inv e X : client_inv (fun o l Y w => inv e o l Y X w) (fun _ _ => True).
Proof.
  split; [by intros ???? []|]. intros o l Y w l' Y' Hi Hl' Hp _. eapply inv_moved; try exact Hi; try done.
  - apply clients_set.
  - by rewrite base_clients.
  - by rewrite listening_clients.
Qed.

Context (J : O -> ArrayList -> dlist ptr -> W -> Prop) (L : W -> ptr -> Prop) (HJ : client_inv J L) (R : O -> O -> Prop) `{!PreOrder R}.
(** The free callback gives back a package; the object may change as [R] says. *)
Definition frees_packages : Prop := forall o l Y p w,
  J o l (p :: Y) w -> post (free p) (fun _ w' => exists o', R o o' /\ J o' l Y w') w.
Fixpoint freed_items (t : dlist event) : dlist ptr :=
  match t with [] => [] | EvFree p :: t => p :: freed_items t | _ :: t => freed_items t end.
Lemma freed_items_frees ps t : freed_items ((EvFree <$> ps) ++ t) = ps ++ freed_items t.
Proof. induction ps as [|p ps IH]; [done|]. cbn. by rewrite IH. Qed.
Lemma freed_bracket l ps : freed_items (bracket l (EvFree <$> ps)) = ps.
Proof.
  unfold bracket. destruct (use_mutex l); cbn [freed_items].
  - by rewrite freed_items_frees, app_nil_r.
  - rewrite <- (app_nil_r (EvFree <$> ps)). by rewrite freed_items_frees, app_nil_r.
Qed.
Lemma perform_ok t : frees_packages -> forall o l Y w, J o l (freed_items t ++ Y) w ->
  post (perform free t) (fun _ w' => exists o', R o o' /\ J o' l Y w') w.
Proof.
  intros Hfree. induction t as [|ev t IH]; intros o l Y w Hi.
  { apply post_ret. by exists o. }
  destruct ev as [p| | | | | |]; cbn [perform freed_items app] in *; apply post_bind;
    try (apply post_emit; by apply IH).
  eapply post_mono; [by apply Hfree|]. intros _ w1 (o1 & HR & Hi1).
  eapply post_mono; [by apply IH|]. intros _ w2 (o2 & HR2 & Hi2). exists o2. split; [by etrans|done].
Qed.
Lemma on_clients_ok {A} (m : M (option ArrayList) A) (a : A) l' t o l Y w :
  frees_packages -> J o l Y w ->
  m (Some l) = Ok (a, Some l', t) -> client_list l' -> items l ≡ₚ items l' ++ freed_items t ->
  (forall p, p ∈ freed_items t -> L w p) ->
  post (on_list free m) (fun r w' => r = a /\ exists o', R (set_clients (Some l') o) o' /\ J o' l' Y w') w.
Proof.
  intros Hfree Hi Hm Hl' Hit HL. destruct (ci_object _ _ HJ _ _ _ _ Hi) as (Ho & Hc & _).
  unfold on_list. apply post_bind. eapply post_get; [done|]. apply post_bind. rewrite Hc, Hm. eapply post_lift; [done|].
  apply post_bind. eapply post_set; [done|]. apply post_bind. eapply post_mono.
  - apply (perform_ok t Hfree (set_clients (Some l') o) l' Y). eapply (ci_moved _ _ HJ); [exact Hi|done|by rewrite Hit, <- app_assoc|].
    intros p [Hp|Hp]%elem_of_app; auto.
  - intros _ w' (o' & HR & Hi'). apply post_ret. split; [done|]. by exists o'.
Qed.
Lemma clear_clients_ok o l Y w : frees_packages -> J o l Y w -> (forall p, p ∈ items l -> L w p) ->
  post (on_list free ArrayList_clear_tsafe) (fun _ w' => exists o' l', R (set_clients (Some l') o) o' /\
    J o' l' Y w' /\ items l' = []) w.
Proof.
  intros Hfree Hi HL. destruct (ci_object _ _ HJ _ _ _ _ Hi) as (_ & _ & Hl).
  destruct (clear_client_list l Hl) as (l' & E & Hl' & Hit).
  eapply post_mono; [eapply on_clients_ok; [done|exact Hi|exact E|done|..]|].
  - by rewrite freed_bracket, Hit.
  - by rewrite freed_bracket.
  - intros _ w4 (_ & o' & HR & Hi4). by exists o', l'.
Qed.
Definition removing (p : ptr) (m : M (option ArrayList) unit) : Prop :=
  m = ArrayList_remove p \/ m = ArrayList_remove_tsafe p.
Lemma remove_clients_ok o l Y p m w : frees_packages -> J o l Y w -> p <> NULL -> removing p m -> L w p ->
  post (on_list free m) (fun _ w' => exists o' l', R (set_clients (Some l') o) o' /\
    J o' l' Y w' /\ items l ≡ₚ items l' ++ (if decide (p ∈ items l) then [p] else [])) w.
Proof.
  intros Hfree Hi Hp Hm HL. destruct (ci_object _ _ HJ _ _ _ _ Hi) as (_ & _ & Hl).
  destruct (remove_client_list l p Hl Hp) as (l' & E & Eu & Hl' & Hit).
  assert (exists t, m (Some l) = Ok (tt, Some l', t) /\ freed_items t = if decide (p ∈ items l) then [p] else []) as (t & Em & Ht).
  { destruct Hm as [-> | ->]; eexists; (split; [eassumption|]); destruct (decide (p ∈ items l)); try done.
    - by rewrite (freed_bracket l [p] : freed_items (ArrayListSpec.bracket l [EvFree p]) = _).
    - by rewrite (freed_bracket l [] : freed_items (ArrayListSpec.bracket l []) = _). }
  eapply post_mono; [eapply on_clients_ok; [done|exact Hi|exact Em|done|..]|].
  - by rewrite Hit at 1; rewrite Ht.
  - rewrite Ht. intros q Hq. destruct (decide _); set_solver.
  - intros _ w4 (_ & o' & HR & Hi4). by exists o', l'.
Qed.
End invariant.
