(* ===== verification/FdServer.v ===== *)
(** The server that receives file descriptors, [source/FdServer.c].

    [C] are the code pointers of the callbacks, [connect], [receive] and
    [disconnect] run them; [join] is what the server's thread does until it
    returns when another thread waits for it; [malloc] is the allocator for
    packages and [grow] says whether the client list finds memory.  A [turn] of
    the loop is one iteration of its [while]. *)
From S2P Require Import Prelude Memory Effects Heap AlibTypes AlibString TimerEvent ArrayList Posix ServerState.
Open Scope Z_scope.

Record fds_package := mkFdsPackage { fsock : Z; fuser_data : ptr; ffree_user_data : bool }.
#[export] Instance fds_package_socket : Package fds_package := fsock.

Record FdServer (C : Type) := mkFdServer {
  sock : Z; sun_path : Datatypes.list Z;
  on_connect : option C; on_receive : option C; on_disconnect : option C;
  fclients : option ArrayList; flag_pole : Z;
  extended_data : ptr; free_extended_data : bool;
  efd : Z; events : Datatypes.list epoll_event }.
Arguments mkFdServer {C}. Arguments sock {C}. Arguments sun_path {C}. Arguments on_connect {C}.
Arguments on_receive {C}. Arguments on_disconnect {C}. Arguments fclients {C}. Arguments flag_pole {C}.
Arguments extended_data {C}. Arguments free_extended_data {C}. Arguments efd {C}. Arguments events {C}.

Section fields.
Context {C : Type}.
Implicit Types s : FdServer C.
Definition set_sock v s := mkFdServer v (sun_path s) (on_connect s) (on_receive s) (on_disconnect s)
  (fclients s) (flag_pole s) (extended_data s) (free_extended_data s) (efd s) (events s).
Definition set_efd v s := mkFdServer (sock s) (sun_path s) (on_connect s) (on_receive s) (on_disconnect s)
  (fclients s) (flag_pole s) (extended_data s) (free_extended_data s) v (events s).
Definition set_events v s := mkFdServer (sock s) (sun_path s) (on_connect s) (on_receive s) (on_disconnect s)
  (fclients s) (flag_pole s) (extended_data s) (free_extended_data s) (efd s) v.
Definition set_flag_pole v s := mkFdServer (sock s) (sun_path s) (on_connect s) (on_receive s) (on_disconnect s)
  (fclients s) v (extended_data s) (free_extended_data s) (efd s) (events s).
Definition set_fclients v s := mkFdServer (sock s) (sun_path s) (on_connect s) (on_receive s) (on_disconnect s)
  v (flag_pole s) (extended_data s) (free_extended_data s) (efd s) (events s).
Definition set_callbacks (c r d : option C) s := mkFdServer (sock s) (sun_path s) c r d
  (fclients s) (flag_pole s) (extended_data s) (free_extended_data s) (efd s) (events s).
Definition set_extended v f s := mkFdServer (sock s) (sun_path s) (on_connect s) (on_receive s) (on_disconnect s)
  (fclients s) (flag_pole s) v f (efd s) (events s).
#[export] Instance FdServer_clients : HasClients (FdServer C) := {|
  clients := fclients; set_clients := set_fclients; clients_set := fun _ _ => eq_refl;
  set_clients_set := fun _ _ _ => eq_refl; set_clients_id := ltac:(by intros []) |}.
End fields.

Section server.
Context {K U C : Type} `{Posix K}.
Notation W := (world K (FdServer C) fds_package U).
Context (connect disconnect : C -> ptr -> M W Z) (receive : C -> ptr -> Z -> M W Z).
Context (join : M W unit) (malloc : W -> option ptr) (grow : W -> bool).

Definition raise_server (flag : Z) : M W unit := set (fun s => set_flag_pole (flag_raise (flag_pole s) flag) s).
Definition lower_server (flag : Z) : M W unit := set (fun s => set_flag_pole (flag_lower (flag_pole s) flag) s).
Definition server_flag (flag : Z) : M W bool := fp ← get flag_pole; mret (raised fp flag).

(** * Packages *)
Definition new_fds_package (s : Z) : M W ptr := k ← gets malloc; alloc k (mkFdsPackage s NULL false).
Definition free_fds_package (package : ptr) : M W unit :=
  if package =? NULL then mret tt else
  p ← load (A := fds_package) package;
  when (fsock p >? -1) (close_fd (fsock p));;
  when (negb (fuser_data p =? NULL) && ffree_user_data p) (emit (EvFree (fuser_data p)));;
  release (A := fds_package) package.
Definition free_client (package : ptr) : M W unit := free_fds_package package.

(** * Stopping *)
Definition FdServer_stop : M W unit :=
  on_this tt (
    raise_server THREAD_STOP;;
    s ← get sock; when (s >? -1) (close_fd s;; set (set_sock (-1)));;
    e ← get efd; when (e >? -1) (close_fd e;; set (set_efd (-1)));;
    on_list free_client ArrayList_clear_tsafe).
Definition FdServer_stop_with_join : M W unit :=
  on_this tt (
    FdServer_stop;;
    created ← server_flag THREAD_CREATED;
    when created (join;; lower_server THREAD_CREATED)).
Definition FdServer_close_client (package : ptr) : M W unit :=
  on_this tt (
    cb ← get on_disconnect;
    match cb with
    | Some cb => rval ← disconnect cb package; when (raised rval SCB_RVAL_STOP_SERVER) FdServer_stop
    | None => mret tt
    end;;
    on_list free_client (ArrayList_remove_tsafe package)).
Definition FdServer_close_client_by_socket (s : Z) : M W unit :=
  on_this tt (
    package ← find_client free_client ArrayList_find_item_by_value_tsafe s;
    if package =? NULL then when (s >? -1) (close_fd s) else FdServer_close_client package).

(** * Binding and listening *)
Definition FdServer_bind : M W Z :=
  on_this ALIB_BAD_ARG (
    let f_error := set (set_sock (-1));; mret ALIB_FD_ERR in
    s ← get sock; e ← get efd;
    when (s >? -1) (close_fd s);; when (s >? -1) (close_fd e);;
    set (set_sock (-1));; set (set_efd (-1));;
    s ← sys sys_socket; set (set_sock s);;
    if s <? 0 then f_error else
    sys (sys_call SetSockOpt s);; err ← sys (sys_call Bind s);
    if negb (err =? 0) then f_error else mret ALIB_OK).
Definition run_init : M W Z :=
  on_this ALIB_BAD_ARG (
    let f_error (rval : Z) :=
      s ← get sock; when (s >? -1) (close_fd s;; set (set_sock (-1)));;
      e ← get efd; when (e >? -1) (close_fd e;; set (set_efd (-1)));; mret rval in
    s ← get sock;
    rval ← (if s <? 0 then FdServer_bind else mret 0);
    if negb (rval =? 0) then mret rval else
    s ← get sock; rval ← sys (sys_call SetNonBlock s);
    if negb (rval =? 0) then mret rval else
    rval ← sys (sys_call Listen s);
    if negb (rval =? 0) then f_error rval else
    e ← sys sys_epoll_create; set (set_efd e);;
    if e <? 0 then f_error ALIB_FD_ERR else
    rval ← sys (sys_epoll_add e EPOLLIN s);
    if rval <? 0 then f_error ALIB_UNKNOWN_ERR else
    set (set_events (replicate (Z.to_nat DEFAULT_BACKLOG_SIZE) (mkEpollEvent 0 0)));;
    mret rval).

(** * The loop *)

(** The events at the beginning of the array, and at an index. *)
Definition event_at (i : Z) : M W epoll_event := evs ← get events; lift (blk_load evs i).
(** "Error occurred on the socket": the events of a descriptor. *)
Definition bad_events (events : Z) : bool :=
  raised events (Z.lor EPOLLERR EPOLLHUP) || negb (raised events EPOLLIN).
(** A client is accepted; the result is the value to return from the loop, [None] to go on. *)
Definition accept_client (ev : Z) : M W (option Z) :=
  if bad_events ev then FdServer_stop;; mret (Some ALIB_CHECK_ERRNO) else
  s ← get sock; new_sock ← sys (sys_accept s);
  if new_sock <? 0 then mret None else
  new_client ← new_fds_package new_sock;
  if new_client =? NULL then when (new_sock >? -1) (close_fd new_sock);; mret (Some ALIB_MEM_ERR) else
  let add :=
    e ← get efd; p ← load (A := fds_package) new_client;
    rval ← sys (sys_epoll_add e EPOLLIN (fsock p));
    if rval <? 0 then free_fds_package new_client;; mret None else
    g ← gets grow; added ← on_list free_client (ArrayList_add g new_client);
    if added =? 0 then free_fds_package new_client;; mret (Some ALIB_MEM_ERR) else mret None in
  cb ← get on_connect;
  match cb with
  | None => add
  | Some cb =>
      rval ← connect cb new_client;
      if raised rval SCB_RVAL_CLOSE_CLIENT || raised rval SCB_RVAL_STOP_SERVER then
        free_fds_package new_client;;
        mret (if raised rval SCB_RVAL_STOP_SERVER then Some ALIB_OK else None)
      else add
  end.
(** The client of an event is looked up, and read from, by the descriptor of the first event. *)
Definition client_event (ev : Z) : M W (option Z) :=
  first ← event_at 0;
  package ← find_client free_client ArrayList_find_item_by_value_tsafe (ev_fd first);
  if package =? NULL then
    first ← event_at 0; when (ev_fd first >? -1) (close_fd (ev_fd first));; mret None
  else if bad_events ev then FdServer_close_client package;; mret None else
  first ← event_at 0;
  '(r, new_fd) ← sys (sys_recv_fd (ev_fd first));
  cb ← get on_receive;
  match (if r =? 0 then cb else None) with
  | Some cb =>
      rval ← receive cb package new_fd;
      when (raised rval SCB_RVAL_CLOSE_CLIENT || raised rval SCB_RVAL_STOP_SERVER)
        (FdServer_close_client package);;
      mret (if raised rval SCB_RVAL_STOP_SERVER then Some ALIB_OK else None)
  | None => FdServer_close_client package;; mret None
  end.
(** [for(event_it = server->ep.events; event_count > 0; ++event_it, --event_count)] *)
Fixpoint handle_events (event_count : nat) (i : Z) : M W (option Z) :=
  match event_count with
  | O => mret None
  | S n =>
      ev ← event_at i; s ← get sock;
      r ← (if ev_fd ev =? s then accept_client (ev_events ev) else client_event (ev_events ev));
      match r with Some _ => mret r | None => handle_events n (i + 1) end
  end.
Definition turn : M W (option Z) :=
  e ← get efd;
  '(event_count, evs) ← sys (fun k => let '(n, evs, k) := sys_epoll_wait e DEFAULT_BACKLOG_SIZE k in ((n, evs), k));
  if event_count =? 0 then mret None else
  if event_count <? 0 then
    stop ← server_flag THREAD_STOP;
    if stop : bool then mret (Some ALIB_OK) else
    s ← get sock; e ← get efd;
    mret (if (s >? -1) && (e >? -1) then None else Some ALIB_CHECK_ERRNO)
  else
    set (fun s => set_events (evs ++ drop (length evs) (events s)) s);;
    handle_events (Z.to_nat event_count) 0.
Fixpoint run_turns (fuel : nat) : M W Z :=
  match fuel with
  | O => lift Diverges
  | S n =>
      s ← get sock; e ← get efd;
      if (s >? -1) && (e >? -1)
      then r ← turn; match r with Some rval => mret rval | None => run_turns n end
      else mret ALIB_OK
  end.
Definition run_loop (fuel : nat) : M W Z :=
  on_this ALIB_BAD_ARG (rval ← run_turns fuel; FdServer_stop;; mret rval).
Definition start_thread (fuel : nat) : M W unit :=
  raise_server THREAD_IS_RUNNING;; run_loop fuel;; lower_server THREAD_IS_RUNNING.
Definition FdServer_run (fuel : nat) : M W Z :=
  e ← get efd; s ← get sock;
  when ((e >? -1) || (s >? -1)) FdServer_stop_with_join;;
  err ← run_init;
  if negb (err =? 0) then mret err else
  lower_server THREAD_STOP;; run_loop fuel.

(** * The rest of the interface *)
Definition FdServer_get_socket : M W Z := get sock.
Definition FdServer_get_client_sockets : M W (option ArrayList) := get clients.
Definition FdServer_is_running : M W bool := s ← get sock; mret (s >? -1).
Definition FdServer_get_flag_pole : M W Z := get flag_pole.
Definition FdServer_get_extended_data : M W ptr := get extended_data.
Definition FdServer_get_addr : M W (Datatypes.list Z) := get sun_path.
(** [create]: the result of [pthread_create]. *)
Definition FdServer_run_on_thread (create : Z) : M W Z :=
  on_this ALIB_BAD_ARG (
    running ← FdServer_is_running;
    if running : bool then mret ALIB_OK else
    err ← run_init;
    if negb (err =? 0) then mret err else
    lower_server THREAD_STOP;; raise_server THREAD_CREATED;;
    when (negb (create =? 0)) (lower_server THREAD_CREATED);; mret create).
Definition FdServer_set_on_connect_cb (cb : option C) : M W unit :=
  set (fun s => set_callbacks cb (on_receive s) (on_disconnect s) s).
Definition FdServer_set_on_receive_cb (cb : option C) : M W unit :=
  set (fun s => set_callbacks (on_connect s) cb (on_disconnect s) s).
Definition FdServer_set_on_disconnect_cb (cb : option C) : M W unit :=
  set (fun s => set_callbacks (on_connect s) (on_receive s) cb s).
Definition FdServer_set_extended_data (data : ptr) (free_cb free_old_data : bool) : M W unit :=
  s ← this;
  when (free_old_data && negb (extended_data s =? NULL) && free_extended_data s) (emit (EvFree (extended_data s)));;
  set (set_extended data free_cb).
(** [server]: the pointer behind the double pointer; the world has the server it points to. *)
Definition delFdServer : M W unit :=
  on_this tt (
    FdServer_stop_with_join;;
    on_list free_client delArrayList;;
    s ← this;
    when (negb (extended_data s =? NULL) && free_extended_data s) (emit (EvFree (extended_data s)));;
    modify (set_object None)).
(** [fname] with its length [name_len], the array of [sun_path] has 108 bytes; [ok], [kl]: the outcomes of the
    allocations of the server and of its list. *)
Definition newFdServer (ok : bool) (kl : bool * bool) (fname : option (Datatypes.list Z)) (name_len : Z)
    (c r : option C) : M W unit :=
  match fname with
  | None => modify (set_object None)
  | Some fname =>
      if negb ok then modify (set_object None) else
      name_len ← (if name_len =? 0 then lift (strlen fname 0) else mret name_len);
      path ← lift (blk_copy (replicate 108 0) 0 fname 0 name_len);
      '(l, t) ← lift (newArrayList kl.1 kl.2 true); emits t;;
      modify (set_object (Some (mkFdServer (-1) path c r None l 0 NULL false (-1) (replicate 256 (mkEpollEvent 0 0)))));;
      match l with None => delFdServer | Some _ => mret tt end
  end.
End server.
