(* ===== verification/FdServerSpec.v ===== *)
(** What the server of [FdServer] promises about descriptors and memory: every
    descriptor it opens or accepts is closed when it stops, exactly those, and
    every package is freed, whatever the system answers, as long as it reports
    one event at a time; and what happens when it reports more. *)
From S2P Require Import Prelude Memory Effects Heap AlibTypes AlibString TimerEvent ArrayList Posix ServerState ServerSpec FdServer.
Open Scope Z_scope.

Section spec.
Context {K U C : Type} `{PosixLaws K} `{Keeps U}.
Notation W := (world K (FdServer C) fds_package U).
Lemma listening_open (s : FdServer C) : filter (fun d => -1 < d) [sock s] ⊆ filter (fun d => -1 < d) [sock s; efd s].
Proof. intros d. rewrite !list_elem_of_filter. intros [? ?]. split; [done|set_solver]. Qed.
#[export] Instance FdServer_holder : Holder (FdServer C) := {|
  base := fun s => filter (fun d => -1 < d) [sock s; efd s]; listening := fun s => filter (fun d => -1 < d) [sock s];
  base_clients := fun _ _ => eq_refl; listening_clients := fun _ _ => eq_refl;
  listening_base := listening_open |}.

Lemma free_client_ok e X : frees_packages (K := K) (U := U) free_client (fun o l Y w => inv e o l Y X w) eq.
Proof.
  intros s l Y p w Hi. destruct (inv_pack _ _ _ _ _ _ p Hi) as (Hp & pk & Hpk); [set_solver|].
  unfold free_client, free_fds_package. rewrite (proj2 (Z.eqb_neq p NULL)) by done.
  apply post_bind. eapply post_load; [done..|]. apply post_bind.
  assert (0 <= socket_of pk < 2 ^ 31) as Hr.
  { eapply (holds_member _ _ _ _ (inv_holds _ _ _ _ _ _ Hi)).
    rewrite !elem_of_app. do 2 right. apply list_elem_of_fmap. exists p. rewrite Hpk. set_solver. }
  change (fsock pk) with (socket_of pk). rewrite Z.gtb_ltb, (proj2 (Z.ltb_lt _ _)) by lia.
  apply post_sys. cbn [fst snd]. apply post_bind.
  assert (post (release (A := fds_package) p) (fun _ w' => exists o', s = o' /\ inv e o' l Y X w')
    (set_kern (sys_close (socket_of pk) (kern w)) w)) as Hrel.
  { eapply post_release; [done..|]. exists s. split; [done|].
    exact (inv_close _ _ _ _ _ _ _ (inv_release _ _ _ _ _ _ _ _ Hi Hpk)). }
  apply post_when; [intros _; by apply post_emit|done].
Qed.
(** ** Stopping *)
Lemma base_eq (s : FdServer C) : base s = (if -1 <? sock s then [sock s] else []) ++ (if -1 <? efd s then [efd s] else []).
Proof.
  cbn [base FdServer_holder]. rewrite !filter_cons. cbn [filter list_filter].
  destruct (Z.ltb_spec (-1) (sock s)), (Z.ltb_spec (-1) (efd s)); do 2 case_decide; done || lia.
Qed.
Lemma listening_eq (s : FdServer C) : listening s = if -1 <? sock s then [sock s] else [].
Proof.
  cbn [listening FdServer_holder]. rewrite !filter_cons. destruct (Z.ltb_spec (-1) (sock s)); case_decide; done || lia.
Qed.
(** A change of the object that concerns no resource. *)
Lemma inv_field e s s' l Y X w : inv e s l Y X w -> sock s' = sock s -> efd s' = efd s -> fclients s' = fclients s ->
  inv e s' l Y X (set_object (Some s') w).
Proof.
  intros Hi Hs He Hc. eapply inv_moved; try exact Hi; try done; try apply Hi.
  - cbn. rewrite Hc. apply Hi.
  - by rewrite !base_eq, Hs, He.
  - by rewrite !listening_eq, Hs.
Qed.
Lemma inv_close_sock e s l Y X w : inv e s l Y X w -> -1 < sock s ->
  inv e (set_sock (-1) s) l Y X (set_object (Some (set_sock (-1) s)) (set_kern (sys_close (sock s) (kern w)) w)).
Proof.
  intros Hi Hs. assert (inv e (set_sock (-1) s) l Y (sock s :: X) (set_object (Some (set_sock (-1) s)) w)) as Hi2.
  { eapply inv_moved; try exact Hi; try done; try apply Hi.
    - rewrite !base_eq. cbn [sock set_sock efd]. rewrite (proj2 (Z.ltb_lt _ (sock s))) by lia.
      destruct (-1 <? efd s); solve_Permutation.
    - rewrite !listening_eq. cbn [sock set_sock]. rewrite (proj2 (Z.ltb_lt _ (sock s))) by lia. set_solver. }
  exact (inv_close _ _ _ _ _ _ _ Hi2).
Qed.
Lemma inv_close_efd e s l Y X w : inv e s l Y X w -> -1 < efd s ->
  inv e (set_efd (-1) s) l Y X (set_object (Some (set_efd (-1) s)) (set_kern (sys_close (efd s) (kern w)) w)).
Proof.
  intros Hi Hs. assert (inv e (set_efd (-1) s) l Y (efd s :: X) (set_object (Some (set_efd (-1) s)) w)) as Hi2.
  { eapply inv_moved; try exact Hi; try done; try apply Hi.
    - rewrite !base_eq. cbn [sock set_efd efd]. rewrite (proj2 (Z.ltb_lt _ (efd s))) by lia.
      destruct (-1 <? sock s); solve_Permutation.
    - rewrite !listening_eq. cbn [sock set_efd]. set_solver. }
  exact (inv_close _ _ _ _ _ _ _ Hi2).
Qed.

Definition stopped (s : FdServer C) (l : ArrayList) : Prop := sock s < 0 /\ efd s < 0 /\ items l = [].
Lemma stop_ok e s l Y X w : inv e s l Y X w ->
  post FdServer_stop (fun _ w' => exists s' l', inv e s' l' Y X w' /\ stopped s' l' /\ on_receive s' = on_receive s) w.
Proof.
  intros Hi. unfold FdServer_stop. eapply post_on_this; [apply Hi|]. apply post_bind.
  unfold raise_server. eapply post_set; [apply Hi|]. set (s1 := set_flag_pole _ s).
  assert (inv e s1 l Y X (set_object (Some s1) w)) as Hi1 by by eapply inv_field.
  apply post_bind. eapply post_get; [apply Hi1|]. change (sock s1) with (sock s). apply post_bind.
  assert (forall s2 w2, inv e s2 l Y X w2 -> sock s2 < 0 -> efd s2 = efd s -> on_receive s2 = on_receive s ->
    post (e ← get efd; when (e >? -1) (close_fd e;; set (set_efd (-1)));; on_list free_client ArrayList_clear_tsafe)
      (fun _ w' => exists s' l', inv e s' l' Y X w' /\ stopped s' l' /\ on_receive s' = on_receive s) w2) as Hrest.
  { intros s2 w2 Hi2 Hs2 He2 Hr2. apply post_bind. eapply post_get; [apply Hi2|]. apply post_bind.
    assert (forall s3 w3, inv e s3 l Y X w3 -> sock s3 < 0 -> efd s3 < 0 -> on_receive s3 = on_receive s ->
      post (on_list free_client ArrayList_clear_tsafe)
        (fun _ w' => exists s' l', inv e s' l' Y X w' /\ stopped s' l' /\ on_receive s' = on_receive s) w3) as Hlist.
    { intros s3 w3 Hi3 Hs3 He3 Hr3. eapply post_mono; [eapply (clear_clients_ok free_client _ _ (inv_client_inv _ _) eq);
        [apply free_client_ok|exact Hi3|done]|].
      intros _ w4 (o' & l' & <- & Hi4 & Hl'). by exists (set_clients (Some l') s3), l'. }
    rewrite Z.gtb_ltb. apply post_when; intros Hb.
    - apply post_bind, post_sys. cbn [fst snd]. eapply post_set; [apply Hi2|]. apply Z.ltb_lt in Hb.
      eapply Hlist; [by apply inv_close_efd|done..].
    - apply Z.ltb_ge in Hb. eapply Hlist; [exact Hi2|lia|lia|done]. }
  rewrite Z.gtb_ltb. apply post_when; intros Hb.
  - apply post_bind, post_sys. cbn [fst snd]. eapply post_set; [apply Hi1|]. apply Z.ltb_lt in Hb.
    eapply Hrest; [by apply (inv_close_sock e s1)|done..].
  - apply Z.ltb_ge in Hb. eapply Hrest; [exact Hi1|cbn in *; lia|done..].
Qed.

(** ** One turn *)
Definition epoll (s : FdServer C) : option Z := if -1 <? efd s then Some (efd s) else None.
(** Between two steps of the loop: nothing is on its way. *)
Definition ready (s : FdServer C) (w : W) : Prop :=
  exists s' l, inv (epoll s') s' l [] [] w /\ on_receive s' = on_receive s.
Lemma inv_weaken e s l Y X w : inv e s l Y X w -> inv None s l Y X w.
Proof. intros []. by split. Qed.
Lemma stopped_ready e s s' l w : inv e s' l [] [] w -> efd s' < 0 -> on_receive s' = on_receive s -> ready s w.
Proof.
  intros Hi He Hr. exists s', l. split; [|done]. unfold epoll. rewrite (proj2 (Z.ltb_ge _ _)) by lia.
  by eapply inv_weaken.
Qed.
Lemma ready_same s s' w : ready s' w -> on_receive s' = on_receive s -> ready s w.
Proof. intros (s2 & l & Hi & Hr) E. exists s2, l. split; [done|congruence]. Qed.

Lemma kern_call e s l Y X w k : inv e s l Y X w -> fds k = fds (kern w) -> (forall x, watched x k = watched x (kern w)) ->
  inv e s l Y X (set_kern k w).
Proof. intros Hi Hf Hw. apply inv_kern; [done|done|]. destruct e; [by rewrite Hw|done]. Qed.
Lemma few_clients e s l Y X w : inv e s l Y X w -> blen (items l) <= 2 ^ 31 - blen Y.
Proof.
  intros Hi. pose proof (holds_length _ _ _ (inv_holds _ _ _ _ _ _ Hi)) as Hl. unfold socks in Hl.
  rewrite !length_app, length_fmap, length_app in Hl. unfold blen. lia.
Qed.
(** The package of a new client is put into the list. *)
Lemma add_client_ok e s l p w : inv e s l [p] [] w -> exists l',
  post (on_list free_client (ArrayList_add true p)) (fun r w' => r = 1 /\ exists s', s' = set_fclients (Some l') s /\ inv e s' l' [] [] w') w.
Proof.
  intros Hi. destruct (inv_pack _ _ _ _ _ _ p Hi) as [Hp _]; [set_solver|].
  pose proof (few_clients _ _ _ _ _ _ Hi) as Hf. change (blen [p]) with 1 in Hf.
  destruct (add_client_list l p) as (l' & E & Hl' & Hit); [apply Hi|done|lia|]. exists l'.
  assert (Hthis : object w = Some s) by apply Hi. assert (Hcl : clients s = Some l) by apply Hi.
  unfold on_list. apply post_bind. eapply post_get; [done|]. apply post_bind. rewrite Hcl, E.
  eapply post_lift; [done|]. apply post_bind. eapply post_set; [done|]. apply post_bind, post_ret, post_ret.
  split; [done|]. eexists. split; [done|]. eapply inv_moved; try exact Hi; try done.
  rewrite Hit. rewrite app_nil_r. by rewrite Permutation_app_comm.
Qed.

Lemma epoll_add_ok e s l Y X m d w : inv (Some e) s l Y X w ->
  d ∈ listening s ++ X ++ socks (packs w) (items l ++ Y) ->
  inv (Some e) s l Y X (set_kern (sys_epoll_add e m d (kern w)).2 w).
Proof.
  intros [Ho Hc Hl Hn Hnn Hp Hh Hw] Hd. split; cbn [set_kern object packs kern user]; try done.
  - eapply holds_fds_same; [|exact Hh]. apply epoll_add_opens.
  - intros x Hx%epoll_add_watches. rewrite Z.eqb_refl in Hx. destruct (0 <=? _); set_solver.
Qed.
Lemma epoll_running s l Y X w : inv (epoll s) s l Y X w -> -1 < efd s -> inv (Some (efd s)) s l Y X w.
Proof. unfold epoll. intros Hi He. by rewrite (proj2 (Z.ltb_lt _ _)) in Hi by lia. Qed.
Lemma epoll_of s l Y X w : inv (Some (efd s)) s l Y X w -> inv (epoll s) s l Y X w.
Proof. unfold epoll. intros Hi. destruct (_ <? _); [done|by eapply inv_weaken]. Qed.

Context (connect disconnect : C -> ptr -> M W Z) (receive : C -> ptr -> Z -> M W Z).
Lemma event_at_ok s w i e (Q : epoll_event -> W -> Prop) :
  object w = Some s -> 0 <= i -> events s !! Z.to_nat i = Some e -> Q e w -> post (event_at i) Q w.
Proof.
  intros Ho Hi He HQ. unfold event_at. apply post_bind. eapply post_get; [done|].
  eapply post_lift; [by apply blk_load_ok|done].
Qed.
(** [handle_events] reads a client's descriptor from the first event of the array.  When that one is the
    server's own, no client has it, and the listening socket is closed while the server keeps its number. *)
Theorem mixed_batch_closes_server s l first ev w : inv (epoll s) s l [] [] w -> events s !! 0%nat = Some first ->
  ev_fd first = sock s -> -1 < sock s ->
  post (client_event disconnect receive ev) (fun r w' => r = None /\ object w' = Some s /\ packs w' = packs w /\
    fds (kern w') = fds (kern w) ∖ {[sock s]}) w.
Proof.
  intros Hi Hev Hfd Hs. pose proof (inv_object _ _ _ _ _ _ Hi) as Ho. pose proof (inv_holds _ _ _ _ _ _ Hi) as Hh.
  assert (sock s ∈ base s) as Hb by (rewrite base_eq, (proj2 (Z.ltb_lt _ _)) by done; set_solver).
  assert (0 <= sock s < 2 ^ 31) as Hr by (eapply holds_member; [exact Hh|set_solver]).
  assert (sock s ∉ socks (packs w) (items l)) as Hout.
  { intros Hin. apply holds_nodup, NoDup_app in Hh as (_ & Hd & _). apply (Hd _ Hb). rewrite app_nil_r. set_solver. }
  unfold client_event. apply post_bind. eapply event_at_ok; [done..|]. apply post_bind. rewrite Hfd.
  destruct (find_client_run free_client _ _ _ _ _ _ _ Hi Hr) as (t & E). rewrite (found_out _ _ _ _ _ _ _ Hi Hr Hout) in E.
  exists NULL, w, t. split; [exact E|]. rewrite Z.eqb_refl. apply post_bind. eapply event_at_ok; [done..|].
  rewrite Hfd, Z.gtb_ltb, (proj2 (Z.ltb_lt _ _)) by done. apply post_bind, post_sys, post_ret. cbn. by rewrite close_closes.
Qed.

(** The client's code: it returns, and leaves the server, its packages and their descriptors alone.  What is
    received becomes its own, or is closed by it. *)
Context (join : M W unit) (malloc : W -> option ptr) (grow : W -> bool).
Record client_code : Prop := {
  connect_ok c e s l Y p w : inv e s l (p :: Y) [] w ->
    post (connect c p) (fun _ w' => inv e s l (p :: Y) [] w') w;
  disconnect_ok c e s l p w : inv e s l [] [] w -> p ∈ items l ->
    post (disconnect c p) (fun _ w' => inv e s l [] [] w') w;
  receive_ok c e s l p fd X w : inv e s l [] X w -> p ∈ items l -> (X = [] /\ fd < 0) \/ X = [fd] -> fd ∉ watches e (kern w) ->
    post (receive c p fd) (fun _ w' => inv e s l [] [] w') w;
  malloc_ok w p : malloc w = Some p -> p <> NULL /\ packs w !! p = None;
  grow_ok w : grow w = true }.
Hypothesis Hcode : client_code.

Lemma accept_client_ok s l w ev : inv (Some (efd s)) s l [] [] w ->
  post (accept_client connect malloc grow ev) (fun _ w' => ready s w') w.
Proof.
  intros Hi. unfold accept_client. apply post_if; intros _.
  { apply post_bind. eapply post_mono; [by eapply stop_ok|cbv beta]. intros _ w1 (s1 & l1 & Hi1 & (_ & He & _) & Hr).
    apply post_ret. by eapply stopped_ready. }
  apply post_bind. eapply post_get; [apply Hi|]. apply post_bind, post_sys.
  pose proof (accept_opens (sock s) (kern w)) as Ho. pose proof (fun x => accept_watches x (sock s) (kern w)) as Hw.
  destruct (sys_accept (sock s) (kern w)) as [r k']. cbn [fst snd] in *. apply post_if; intros Hr.
  { apply Z.ltb_lt in Hr. apply post_ret. exists s, l. split; [|done]. apply epoll_of. eapply kern_call; [done| |done].
    by destruct Ho as [[_ ?]|[? _]]; [|lia]. }
  apply Z.ltb_ge in Hr. assert (inv (Some (efd s)) s l [] [r] (set_kern k' w)) as Hi1 by by eapply inv_opened.
  apply post_bind. unfold new_fds_package. apply post_bind, post_gets.
  destruct (malloc (set_kern k' w)) as [p|] eqn:Em.
  2: { apply post_ret. cbn [Z.eqb NULL]. apply post_bind. rewrite Z.gtb_ltb, (proj2 (Z.ltb_lt _ _)) by lia.
       apply post_sys, post_ret. exists s, l. split; [|done]. apply epoll_of. by apply inv_close. }
  destruct (malloc_ok Hcode _ _ Em) as [Hp Hfresh]. cbn [alloc]. apply post_bind, post_modify, post_ret.
  rewrite (proj2 (Z.eqb_neq p NULL)) by done.
  pose proof (inv_alloc (Some (efd s)) s l [] [] (set_kern k' w) p (mkFdsPackage r NULL false) Hi1 Hp Hfresh) as Hi2.
  change (put (<[p:=mkFdsPackage r NULL false]> (objs (set_kern k' w))) (set_kern k' w))
    with (set_packs (<[p:=mkFdsPackage r NULL false]> (packs (set_kern k' w))) (set_kern k' w)).
  revert Hi2. generalize (set_packs (<[p:=mkFdsPackage r NULL false]> (packs (set_kern k' w))) (set_kern k' w)).
  clear Hi1 Ho Hw Em Hfresh Hi w. intros w2 Hi.
  (* what happens to the package of a client that is not kept *)
  assert (Hfree : forall w3, inv (Some (efd s)) s l [p] [] w3 -> post (free_fds_package p) (fun _ w' => ready s w') w3).
  { intros w3 Hi3. eapply post_mono; [by eapply free_client_ok|cbv beta]. intros _ w4 (? & <- & Hi4).
    exists s, l. split; [by apply epoll_of|done]. }
  assert (Hadd : forall w3, inv (Some (efd s)) s l [p] [] w3 -> post (
    e ← get efd; q ← load (A := fds_package) p; rval ← sys (sys_epoll_add e EPOLLIN (fsock q));
    if rval <? 0 then free_fds_package p;; mret None else
    g ← gets grow; added ← on_list free_client (ArrayList_add g p);
    if added =? 0 then free_fds_package p;; mret (Some ALIB_MEM_ERR) else mret None) (fun _ w' => ready s w') w3).
  { intros w3 Hi3. apply post_bind. eapply post_get; [apply Hi3|]. apply post_bind.
    destruct (inv_pack _ _ _ _ _ _ p Hi3) as (_ & pk & Hpk); [set_solver|]. eapply post_load; [done..|].
    apply post_bind, post_sys.
    assert (inv (Some (efd s)) s l [p] [] (set_kern (sys_epoll_add (efd s) EPOLLIN (fsock pk) (kern w3)).2 w3)) as Hi4.
    { apply epoll_add_ok; [done|]. rewrite !elem_of_app. do 2 right. apply list_elem_of_fmap. exists p. rewrite Hpk. set_solver. }
    apply post_if; intros _.
    { apply post_bind. eapply post_mono; [by apply Hfree|cbv beta]. intros ? w5 Hw5. by apply post_ret. }
    apply post_bind, post_gets. rewrite (grow_ok Hcode). apply post_bind.
    destruct (add_client_ok _ _ _ _ _ Hi4) as (l' & Hpost). eapply post_mono; [exact Hpost|].
    intros a w5 (-> & s5 & -> & Hi5). cbn [Z.eqb]. apply post_ret. exists (set_fclients (Some l') s), l'.
    split; [by apply epoll_of|done]. }
  apply post_bind. eapply post_get; [apply Hi|]. destruct (on_connect s) as [c|]; [|by apply Hadd].
  apply post_bind. eapply post_mono; [by apply (connect_ok Hcode)|cbv beta]. intros rval w3 Hi3.
  apply post_if; intros _; [|by apply Hadd].
  apply post_bind. eapply post_mono; [by apply Hfree|cbv beta]. intros ? w4 Hw4. by apply post_ret.
Qed.

Lemma close_client_ok s l p w : inv (epoll s) s l [] [] w -> p ∈ items l ->
  post (FdServer_close_client disconnect p) (fun _ w' => ready s w') w.
Proof.
  intros Hi Hp. destruct (inv_pack _ _ _ _ _ _ p Hi) as [Hnull _]; [set_solver|].
  assert (Hremove : forall s1 l1 w1, inv (epoll s1) s1 l1 [] [] w1 -> on_receive s1 = on_receive s ->
    post (on_list free_client (ArrayList_remove_tsafe p)) (fun _ w' => ready s w') w1).
  { intros s1 l1 w1 Hi1 Hr. eapply post_mono; [eapply (remove_clients_ok free_client _ _ (inv_client_inv _ _) eq);
      [apply free_client_ok|exact Hi1|done|by right|done]|].
    intros _ w4 (o' & l2 & <- & Hi4 & _). by exists (set_clients (Some l2) s1), l2. }
  unfold FdServer_close_client. eapply post_on_this; [apply Hi|]. apply post_bind. eapply post_get; [apply Hi|].
  apply post_bind. destruct (on_disconnect s) as [c|]; [|apply post_ret; eapply Hremove; [exact Hi|done]].
  apply post_bind. eapply post_mono; [apply (disconnect_ok Hcode c _ s l p w Hi Hp)|cbv beta]. intros rval w1 Hi1.
  apply post_when; intros _; [|eapply Hremove; [exact Hi1|done]].
  eapply post_mono; [by eapply stop_ok|cbv beta]. intros _ w2 (s2 & l2 & Hi2 & (_ & He & _) & Hr).
  eapply Hremove; [|done]. unfold epoll. rewrite (proj2 (Z.ltb_ge _ _)) by lia. by eapply inv_weaken.
Qed.
(** The first event of the array is the client's own. *)
Lemma client_event_ok s l first ev w : inv (epoll s) s l [] [] w -> events s !! 0%nat = Some first ->
  ev_fd first ∈ socks (packs w) (items l) -> on_receive s <> None ->
  post (client_event disconnect receive ev) (fun _ w' => ready s w') w.
Proof.
  intros Hi Hev Hfd Hrecv. pose proof (inv_object _ _ _ _ _ _ Hi) as Ho. unfold client_event. apply post_bind.
  eapply event_at_ok; [done..|]. apply post_bind.
  destruct (find_client_ok free_client _ _ _ _ _ _ _ Hi Hfd) as (p & t & E & Hp & Hnull).
  exists p, w, t. split; [done|]. rewrite (proj2 (Z.eqb_neq p NULL)) by done. apply post_if; intros _.
  { apply post_bind. eapply post_mono; [by eapply close_client_ok|cbv beta]. intros ? w1 Hw1. by apply post_ret. }
  apply post_bind. eapply event_at_ok; [done..|]. apply post_bind, post_sys.
  pose proof (recv_fd_opens (ev_fd first) (kern w)) as Hop. pose proof (fun x => recv_fd_watches x (ev_fd first) (kern w)) as Hwa.
  destruct (sys_recv_fd (ev_fd first) (kern w)) as [[r fd] k']. cbn [fst snd] in *.
  assert (Hn : fd < 0 -> inv (epoll s) s l [] [] (set_kern k' w)).
  { intros Hf. destruct Hop as [[Hk _]|[? _]]; [by eapply kern_call|lia]. }
  assert (Hp0 : 0 <= fd -> r = 0 /\ inv (epoll s) s l [] [fd] (set_kern k' w)).
  { intros Hf. destruct Hop as [[_ ?]|(Hr & Hf2 & -> & Hk)]; [lia|]. split; [done|].
    eapply inv_opened; [done|by right|lia|done]. }
  apply post_bind. eapply post_get; [exact Ho|]. destruct (Z.eqb_spec r 0) as [->|Hr]; cycle 1.
  { apply post_bind. eapply post_mono; [eapply close_client_ok; [apply Hn|done]|cbv beta].
    - destruct (Z.lt_ge_cases fd 0) as [?|Hf]; [done|]. by destruct (Hp0 Hf).
    - intros ? w1 Hw1. by apply post_ret. }
  destruct (on_receive s) as [c|] eqn:Ec; [|done].
  assert (exists X, inv (epoll s) s l [] X (set_kern k' w) /\ ((X = [] /\ fd < 0) \/ X = [fd])) as (X & Hi1 & HX).
  { destruct (Z.lt_ge_cases fd 0) as [Hf|Hf]; [exists []; auto|exists [fd]]. split; [by apply Hp0|by right]. }
  assert (fd ∉ watches (epoll s) (kern (set_kern k' w))) as Hnw.
  { intros Hin. assert (fd ∈ fds (kern w)) as Hopen.
    { apply (inv_watched _ _ _ _ _ _ Hi). revert Hin. unfold watches. destruct (epoll s); [|done]. cbn. by rewrite Hwa. }
    destruct Hop as [[_ Hf]|(_ & ? & _)]; [|done]. pose proof (holds_range _ _ _ (inv_holds _ _ _ _ _ _ Hi) _ Hopen). lia. }
  apply post_bind. eapply post_mono; [apply (receive_ok Hcode c _ s l p fd X _ Hi1 Hp HX Hnw)|cbv beta]. intros rval w2 Hi2.
  apply post_bind. apply post_when; intros _.
  - eapply post_mono; [by eapply close_client_ok|cbv beta]. intros ? w3 Hw3. by apply post_ret.
  - apply post_ret. by exists s, l.
Qed.

(** The system reports one event at a time. *)
Hypothesis Hone : forall e k, (sys_epoll_wait e DEFAULT_BACKLOG_SIZE k).1.1 <= 1.
Lemma turn_ok s l w : inv (epoll s) s l [] [] w -> -1 < sock s -> -1 < efd s -> on_receive s <> None ->
  post (turn connect disconnect receive malloc grow) (fun _ w' => ready s w') w.
Proof.
  intros Hi Hs He Hrecv. unfold turn. apply post_bind. eapply post_get; [apply Hi|]. apply post_bind, post_sys.
  pose proof (epoll_wait_opens (efd s) DEFAULT_BACKLOG_SIZE (kern w)) as Hop.
  pose proof (fun x => epoll_wait_watches x (efd s) DEFAULT_BACKLOG_SIZE (kern w)) as Hwa.
  pose proof (epoll_wait_reports (efd s) DEFAULT_BACKLOG_SIZE (kern w)) as Hrep. specialize (Hone (efd s) (kern w)).
  destruct (sys_epoll_wait (efd s) DEFAULT_BACKLOG_SIZE (kern w)) as [[n evs] k']. cbn [fst snd] in *.
  assert (inv (epoll s) s l [] [] (set_kern k' w)) as Hi1 by by eapply kern_call.
  assert (ready s (set_kern k' w)) as Hready by by exists s, l.
  apply post_if; intros Hz; [by apply post_ret|]. apply Z.eqb_neq in Hz. apply post_if; intros Hneg.
  { apply post_bind. apply post_bind. eapply post_get; [apply Hi1|]. apply post_ret. apply post_if; intros _; [by apply post_ret|].
    apply post_bind. eapply post_get; [apply Hi1|]. apply post_bind. eapply post_get; [apply Hi1|]. by apply post_ret. }
  apply Z.ltb_ge in Hneg. assert (n = 1) as -> by lia. destruct Hrep as (Hlen & _ & Hwatch & _); [lia|].
  destruct evs as [|ev [|? ?]]; [done| |cbn in Hlen; lia]. apply Forall_cons in Hwatch as [Hev _].
  apply post_bind. eapply post_set; [apply Hi1|]. cbn [length]. set (s1 := set_events _ s).
  assert (inv (epoll s1) s1 l [] [] (set_object (Some s1) (set_kern k' w))) as Hi2 by by eapply inv_field.
  assert (events s1 !! 0%nat = Some ev) as Hfirst by done.
  change (Z.to_nat 1) with 1%nat. cbn [handle_events]. apply post_bind. eapply event_at_ok; [apply Hi2|done|done|].
  apply post_bind. eapply post_get; [apply Hi2|]. apply post_bind. change (sock s1) with (sock s).
  apply post_mono with (P := fun _ w' => ready s w').
  - destruct (Z.eqb_spec (ev_fd ev) (sock s)) as [Heq|Hne].
    + eapply post_mono; [apply (accept_client_ok s1 l); by apply epoll_running|].
      intros r w2 Hw2. by apply (ready_same s s1).
    + eapply post_mono; [apply (client_event_ok s1 l ev); [done|done| |done]|].
      * apply epoll_running in Hi1; [|done]. pose proof (inv_watch _ _ _ _ _ _ Hi1) as Hw. cbv beta iota in Hw.
        cbn [set_kern kern] in Hw. specialize (Hw (ev_fd ev)). rewrite Hwa in Hw. specialize (Hw Hev).
        rewrite listening_eq in Hw. destruct (-1 <? sock s); cbn [packs set_kern set_object app] in *.
        { apply elem_of_cons in Hw as [?|Hw]; [done|]. by rewrite app_nil_r in Hw. }
        { by rewrite app_nil_r in Hw. }
      * intros r w2 Hw2. by apply (ready_same s s1).
  - intros [r|] w2 Hw2; by apply post_ret.
Qed.

(** ** The whole run *)
Lemma run_turns_ok fuel s w : ready s w -> on_receive s <> None ->
  safe (run_turns connect disconnect receive malloc grow fuel) (fun _ w' => ready s w') w.
Proof.
  revert s w. induction fuel as [|fuel IH]; intros s w (s1 & l & Hi & Hr) Hrecv; [done|].
  cbn [run_turns]. apply safe_bind, post_safe. eapply post_get; [apply Hi|].
  apply safe_bind, post_safe. eapply post_get; [apply Hi|].
  destruct ((sock s1 >? -1) && (efd s1 >? -1)) eqn:Eb; [|by exists s1, l].
  apply andb_true_iff in Eb as [Hs He]. rewrite Z.gtb_ltb in Hs, He. apply Z.ltb_lt in Hs, He.
  apply safe_bind, post_safe. eapply post_mono; [apply (turn_ok s1 l); [done..|congruence]|cbv beta].
  intros [r|] w2 Hw2; [by apply (ready_same s s1)|]. apply IH; [by apply (ready_same s s1)|done].
Qed.
(** Nothing of the server is left in the system or on the heap. *)
Definition released (w : W) : Prop := fds (kern w) = kept (user w) /\ packs w = ∅.
Lemma stopped_released e s l w : inv e s l [] [] w -> stopped s l -> released w.
Proof.
  intros Hi (Hs & He & Hl). pose proof (inv_holds _ _ _ _ _ _ Hi) as Hh. rewrite Hl in Hh.
  rewrite base_eq, (proj2 (Z.ltb_ge _ (sock s))), (proj2 (Z.ltb_ge _ (efd s))) in Hh by lia.
  split; [by apply holds_done|]. apply map_eq. intros p. rewrite lookup_empty.
  destruct (packs w !! p) eqn:E; [|done]. assert (p ∈ items l ++ []) as Hp by (apply (inv_packs _ _ _ _ _ _ Hi); by eexists).
  rewrite Hl in Hp. set_solver.
Qed.
Lemma stop_released e s l w : inv e s l [] [] w -> post FdServer_stop (fun _ w' => released w') w.
Proof.
  intros Hi. eapply post_mono; [by eapply stop_ok|cbv beta]. intros _ w1 (s1 & l1 & Hi1 & Hst & _).
  by eapply stopped_released.
Qed.
Lemma run_loop_ok fuel s w : ready s w -> on_receive s <> None ->
  safe (run_loop connect disconnect receive malloc grow fuel) (fun _ w' => released w') w.
Proof.
  intros Hw Hrecv. unfold run_loop, on_this. destruct Hw as (s1 & l & Hi & Hr).
  apply safe_bind, post_safe, post_gets. rewrite (inv_object _ _ _ _ _ _ Hi).
  apply safe_bind. eapply safe_mono; [apply (run_turns_ok fuel s); [by exists s1, l|done]|cbv beta].
  intros r w2 (s2 & l2 & Hi2 & _). apply safe_bind, post_safe.
  eapply post_mono; [by eapply stop_released|cbv beta]. intros _ w3 Hw3. done.
Qed.

(** An open socket can be bound and made non-blocking. *)
Hypothesis Hbind : forall c d k, c = Bind \/ c = SetNonBlock -> d ∈ fds k -> (sys_call c d k).1 = 0.
Lemma sock_open e s l Y X w : inv e s l Y X w -> -1 < sock s -> sock s ∈ fds (kern w).
Proof.
  intros Hi Hs. rewrite (holds_fds _ _ _ (inv_holds _ _ _ _ _ _ Hi)), base_eq, (proj2 (Z.ltb_lt _ _)) by done. set_solver.
Qed.
Lemma fd_call_ok c d e s l Y X w (Q : Z -> W -> Prop) : inv e s l Y X w ->
  (forall w', inv e s l Y X w' -> Q (sys_call c d (kern w)).1 w') -> post (sys (sys_call c d)) Q w.
Proof.
  intros Hi HQ. apply post_sys, HQ. eapply kern_call; [done|apply call_opens|intros; apply call_watches].
Qed.
Lemma bind_ok s l w : inv None s l [] [] w -> sock s < 0 -> efd s < 0 ->
  post FdServer_bind (fun r w' => exists s', on_receive s' = on_receive s /\ efd s' < 0 /\ inv None s' l [] [] w' /\
    if r =? 0 then -1 < sock s' else sock s' < 0) w.
Proof.
  intros Hi Hs He. unfold FdServer_bind. eapply post_on_this; [apply Hi|].
  do 2 (apply post_bind; eapply post_get; [apply Hi|]). rewrite Z.gtb_ltb, (proj2 (Z.ltb_ge _ _)) by lia.
  do 2 (apply post_bind, post_ret). apply post_bind. eapply post_set; [apply Hi|]. apply post_bind. eapply post_set; [done|].
  set (s1 := set_efd (-1) (set_sock (-1) s)).
  assert (inv None s1 l [] [] (set_object (Some s1) w)) as Hi1.
  { eapply inv_moved; try exact Hi; try done; try apply Hi.
    - rewrite !base_eq. cbn [sock efd s1 set_efd set_sock]. by rewrite (proj2 (Z.ltb_ge _ (sock s))), (proj2 (Z.ltb_ge _ (efd s))) by lia.
    - rewrite !listening_eq. by rewrite (proj2 (Z.ltb_ge _ (sock s))) by lia. }
  change (set_object (Some s1) (set_object (Some (set_sock (-1) s)) w)) with (set_object (Some s1) w).
  revert Hi1. generalize (set_object (Some s1) w). clear Hi w. intros w Hi. apply post_bind, post_sys.
  pose proof (socket_opens (kern w)) as Hop. pose proof (fun x => socket_watches x (kern w)) as Hwa.
  destruct (sys_socket (kern w)) as [r k']. cbn [fst snd] in *. apply post_bind. eapply post_set; [apply Hi|].
  apply post_if; intros Hr.
  - apply Z.ltb_lt in Hr. apply post_bind. eapply post_set; [done|]. apply post_ret. exists s1.
    do 2 (split; [done|]). split; [|done].
    assert (inv None s1 l [] [] (set_kern k' w)) as Hi2.
    { eapply kern_call; [done| |done]. by destruct Hop as [[_ ?]|[? _]]; [|lia]. }
    exact (inv_field _ s1 s1 _ _ _ _ Hi2 eq_refl eq_refl eq_refl).
  - apply Z.ltb_ge in Hr. set (s2 := set_sock r s1).
    assert (inv None s2 l [] [] (set_object (Some s2) (set_kern k' w))) as Hi2.
    { assert (inv None s1 l [] [r] (set_kern k' w)) as Hi2 by by eapply inv_opened.
      eapply inv_moved; try exact Hi2; try done; try apply Hi2.
      - rewrite !base_eq. cbn [sock efd s1 s2 set_efd set_sock]. by rewrite (proj2 (Z.ltb_lt _ r)) by lia.
      - rewrite !listening_eq. cbn [sock efd s1 s2 set_efd set_sock]. by rewrite (proj2 (Z.ltb_lt _ r)) by lia. }
    apply post_bind. eapply fd_call_ok; [exact Hi2|]. intros w3 Hi3. apply post_bind. eapply fd_call_ok; [exact Hi3|].
    intros w4 Hi4. rewrite Hbind by (auto || by apply (sock_open _ s2 _ _ _ _ Hi3); cbn; lia). cbn [Z.eqb negb]. apply post_ret. exists s2.
    do 2 (split; [done|]). split; [done|]. cbn. lia.
Qed.

(** The error exit of [run_init]: both descriptors are closed. *)
Lemma close_both_ok s l w (rval : Z) : inv None s l [] [] w -> items l = [] ->
  post (s ← get sock; when (s >? -1) (close_fd s;; set (set_sock (-1)));;
        e ← get efd; when (e >? -1) (close_fd e;; set (set_efd (-1)));; mret rval)
    (fun r w' => r = rval /\ released w') w.
Proof.
  intros Hi Hl. apply post_bind. eapply post_get; [apply Hi|]. apply post_bind.
  assert (Hrest : forall s2 w2, inv None s2 l [] [] w2 -> sock s2 < 0 ->
    post (e ← get efd; when (e >? -1) (close_fd e;; set (set_efd (-1)));; mret rval) (fun r w' => r = rval /\ released w') w2).
  { intros s2 w2 Hi2 Hs2. apply post_bind. eapply post_get; [apply Hi2|]. apply post_bind.
    rewrite Z.gtb_ltb. apply post_when; intros Hb.
    - apply post_bind, post_sys. cbn [fst snd]. eapply post_set; [apply Hi2|]. apply Z.ltb_lt in Hb. apply post_ret.
      split; [done|]. eapply stopped_released; [by apply inv_close_efd|]. done.
    - apply Z.ltb_ge in Hb. apply post_ret. split; [done|]. eapply stopped_released; [exact Hi2|]. split; [done|]. split; [lia|done]. }
  rewrite Z.gtb_ltb. apply post_when; intros Hb.
  - apply post_bind, post_sys. cbn [fst snd]. eapply post_set; [apply Hi|]. apply Z.ltb_lt in Hb.
    eapply Hrest; [by apply (inv_close_sock None s)|done].
  - apply Z.ltb_ge in Hb. eapply Hrest; [exact Hi|lia].
Qed.
Lemma epoll_create_ok s l w : inv None s l [] [] w -> efd s < 0 -> let e := (sys_epoll_create (kern w)).1 in
  let w' := set_object (Some (set_efd e s)) (set_kern (sys_epoll_create (kern w)).2 w) in
  if e <? 0 then inv None (set_efd e s) l [] [] w' else inv (Some e) (set_efd e s) l [] [] w'.
Proof.
  intros Hi He. pose proof (epoll_create_opens (kern w)) as Hop. pose proof (fun x => epoll_create_watches x (kern w)) as Hwa.
  destruct (sys_epoll_create (kern w)) as [e k']. cbn [fst snd] in *. destruct (Z.ltb_spec e 0) as [Hneg|Hpos].
  - assert (inv None s l [] [] (set_kern k' w)) as Hi2.
    { apply inv_kern; [done| |done]. by destruct Hop as [[_ ?]|[? _]]; [|lia]. }
    eapply inv_moved; try exact Hi2; try done; try apply Hi2.
    rewrite !base_eq. cbn [sock efd set_efd]. by rewrite (proj2 (Z.ltb_ge _ e)), (proj2 (Z.ltb_ge _ (efd s))) by lia.
  - destruct Hi as [Ho Hc Hl Hn Hnn Hp Hh Hw]. split; try done.
    + cbn [set_object set_kern packs kern user]. eapply holds_perm; [|by eapply (holds_opened _ k')].
      rewrite !base_eq. cbn [sock efd set_efd]. rewrite (proj2 (Z.ltb_lt _ e)), (proj2 (Z.ltb_ge _ (efd s))) by lia.
      destruct (-1 <? sock s); solve_Permutation.
    + cbn [set_object set_kern packs kern user]. intros d. rewrite Hwa, Z.eqb_refl. set_solver.
Qed.
Lemma run_init_ok s l w : inv None s l [] [] w -> sock s < 0 -> efd s < 0 -> items l = [] ->
  post run_init (fun r w' => if r =? 0 then ready s w' else released w') w.
Proof.
  intros Hi Hs He Hl. unfold run_init. eapply post_on_this; [apply Hi|]. apply post_bind. eapply post_get; [apply Hi|].
  rewrite (proj2 (Z.ltb_lt _ _)) by done. apply post_bind. eapply post_mono; [by eapply bind_ok|cbv beta].
  intros r w1 (s1 & Hr & He1 & Hi1 & Hs1). destruct (Z.eqb_spec r 0) as [->|Hne]; cbn [negb]; cycle 1.
  { apply post_ret. rewrite (proj2 (Z.eqb_neq r 0)) by done. by eapply stopped_released. }
  apply post_bind. eapply post_get; [apply Hi1|]. apply post_bind. eapply fd_call_ok; [exact Hi1|]. intros w2 Hi2.
  rewrite Hbind by (auto || by apply (sock_open _ _ _ _ _ _ Hi1)). cbn [Z.eqb negb]. apply post_bind. eapply fd_call_ok; [exact Hi2|]. intros w3 Hi3.
  assert (Herr : forall rval s4 w4, rval <> 0 -> inv None s4 l [] [] w4 ->
    post (s ← get sock; when (s >? -1) (close_fd s;; set (set_sock (-1)));;
          e ← get efd; when (e >? -1) (close_fd e;; set (set_efd (-1)));; mret rval)
      (fun r w' => if r =? 0 then ready s w' else released w') w4).
  { intros rval s4 w4 Hne Hi4. eapply post_mono; [by eapply close_both_ok|cbv beta].
    intros r w5 (-> & Hw5). by rewrite (proj2 (Z.eqb_neq rval 0)). }
  apply post_if; intros Hrl; [apply negb_true_iff, Z.eqb_neq in Hrl; by eapply Herr|].
  apply post_bind, post_sys. apply post_bind. eapply post_set; [apply Hi3|].
  pose proof (epoll_create_ok s1 l w3 Hi3 He1) as Hec. cbv zeta in Hec.
  destruct (sys_epoll_create (kern w3)) as [e k']. cbn [fst snd] in *. apply post_if; intros Hneg; rewrite Hneg in Hec.
  { by eapply Herr. }
  apply Z.ltb_ge in Hneg. apply post_bind, post_sys.
  match goal with |- context [sys_epoll_add e EPOLLIN (sock s1) ?k] => pose proof (epoll_add_result e EPOLLIN (sock s1) k) as Hle end.
  eapply (epoll_add_ok e _ _ _ _ EPOLLIN (sock s1)) in Hec; cycle 1.
  { rewrite listening_eq. cbn [sock set_efd]. rewrite (proj2 (Z.ltb_lt _ (sock s1))) by done. set_solver. }
  apply post_if; intros Hadd; [eapply Herr; [done|by eapply inv_weaken]|]. apply Z.ltb_ge in Hadd.
  apply post_bind. eapply post_set; [apply Hec|]. apply post_ret.
  match goal with |- context [?r =? 0] => replace r with 0 by lia end. cbn [Z.eqb].
  eexists _, l. split; [apply epoll_of; by eapply inv_field; [exact Hec|..]|exact Hr].
Qed.

(** The server's thread leaves a stopped server stopped. *)
Hypothesis Hjoin : forall s l w, inv None s l [] [] w -> stopped s l ->
  post join (fun _ w' => exists s' l', inv None s' l' [] [] w' /\ stopped s' l' /\ on_receive s' = on_receive s) w.
Lemma stop_with_join_ok e s l w : inv e s l [] [] w ->
  post (FdServer_stop_with_join join) (fun _ w' => exists s' l', inv None s' l' [] [] w' /\ stopped s' l' /\
    on_receive s' = on_receive s) w.
Proof.
  intros Hi. unfold FdServer_stop_with_join. eapply post_on_this; [apply Hi|]. apply post_bind.
  eapply post_mono; [by eapply stop_ok|cbv beta]. intros _ w1 (s1 & l1 & Hi1%inv_weaken & Hst & Hr).
  apply post_bind. unfold server_flag. apply post_bind. eapply post_get; [apply Hi1|]. apply post_ret.
  apply post_when; intros _; [|by exists s1, l1]. apply post_bind. eapply post_mono; [by eapply Hjoin|cbv beta].
  intros _ w2 (s2 & l2 & Hi2 & Hst2 & Hr2). eapply post_set; [apply Hi2|].
  eexists _, l2. split; [by eapply inv_field; [exact Hi2|..]|]. split; [exact Hst2|cbn; congruence].
Qed.

(** C22: A run of the server with a receive callback, on a system that reports one event at a time (several at
    once are handled wrongly, [mixed_batch_closes_server]): it does not fault, and if it returns, every
    descriptor it opened or accepted is closed, those the client's code keeps are open, and no package is left.
    The conditions: an open socket can be bound and made non-blocking (otherwise it leaks, FdServer.c:359), the
    list of clients can always grow, malloc gives fresh addresses or NULL, the client's code returns and leaves
    the server and its packages alone ([client_code]), joining the server's thread leaves a stopped server
    stopped, and a server that has clients has a socket or an epoll instance. The other calls may fail. *)
Theorem FdServer_run_releases (fuel : nat) (s : FdServer C) (l : ArrayList) (w : W) :
  inv (epoll s) s l [] [] w -> on_receive s <> None -> (items l <> [] -> -1 < sock s \/ -1 < efd s) ->
  safe (FdServer_run connect disconnect receive join malloc grow fuel) (fun _ w' => released w') w.
Proof.
  intros Hi Hrecv Hidle. unfold FdServer_run. apply safe_bind, post_safe. eapply post_get; [apply Hi|].
  apply safe_bind, post_safe. eapply post_get; [apply Hi|]. apply safe_bind.
  assert (Hrest : forall s1 l1 w1, inv None s1 l1 [] [] w1 -> stopped s1 l1 -> on_receive s1 = on_receive s ->
    safe (err ← run_init; if negb (err =? 0) then mret err else
          lower_server THREAD_STOP;; run_loop connect disconnect receive malloc grow fuel) (fun _ w' => released w') w1).
  { intros s1 l1 w1 Hi1 (Hs & He & Hl) Hr. apply safe_bind, post_safe. eapply post_mono; [by eapply run_init_ok|cbv beta].
    intros err w2 Hw2. destruct (err =? 0); cbn [negb]; [|done].
    destruct Hw2 as (s2 & l2 & Hi2 & Hr2). apply safe_bind, post_safe. eapply post_set; [apply Hi2|].
    apply (run_loop_ok fuel s); [|done]. eexists _, l2. split; [by eapply inv_field; [exact Hi2|..]|cbn; congruence]. }
  apply post_safe. rewrite !Z.gtb_ltb. apply post_when; intros Hb.
  - eapply post_mono; [by eapply stop_with_join_ok|cbv beta]. intros _ w1 (s1 & l1 & Hi1 & Hst & Hr). by eapply Hrest.
  - apply orb_false_iff in Hb as [He Hs]. apply Z.ltb_ge in He, Hs. eapply Hrest; [by eapply inv_weaken| |done].
    split; [lia|]. split; [lia|]. destruct (items l); [done|]. destruct Hidle; [done|lia..].
Qed.
End spec.

(** ** Construction *)

(** A name that does not fit into the address is written behind it. *)
Lemma newFdServer_long_name {K U C} `{Posix K} (join : M (world K (FdServer C) fds_package U) unit) kl fname n c r w :
  108 < n -> n <= blen fname -> newFdServer join true kl (Some fname) n c r w = UB OutOfBounds.
Proof.
  intros Hn Hlen. unfold newFdServer. cbn [negb]. rewrite (proj2 (Z.eqb_neq n 0)) by lia. rewrite bind_mret.
  unfold blk_copy. rewrite blk_read_ok by lia.
  assert (blen (slice fname 0 n) = n) as Hs by (apply blen_slice; lia).
  unfold mbind at 1. unfold M_bind. cbn [mbind res_bind]. unfold lift, blk_write. rewrite Hs.
  rewrite (proj2 (Z.eqb_neq n 0)) by lia. rewrite (proj2 (Z.leb_gt (0 + n) _)); [by rewrite andb_false_r|].
  unfold blen. rewrite length_replicate. lia.
Qed.

(** * A run *)

(** The client's code keeps what it receives, and stops the server then. *)
Section run.
#[local] Instance keeper : Keeps (gset Z) := fun u => u.
#[local] Instance system : Posix script := scripted 1 true.
#[local] Instance system_laws : PosixLaws script := scripted_laws 1 true.
Notation W := (world script (FdServer unit) fds_package (gset Z)).
Definition connected (c : unit) (p : ptr) : M W Z := mret SCB_RVAL_DEFAULT.
Definition keep_received (c : unit) (p : ptr) (fd : Z) : M W Z :=
  if fd <? 0 then mret SCB_RVAL_CLOSE_CLIENT else
  modify (fun w => mkWorld (kern w) (object w) (packs w) ({[fd]} ∪ user w));; mret SCB_RVAL_STOP_SERVER.
Definition fresh_package (w : W) : option ptr := Some (1 + set_fold Z.max 0 (dom (packs w))).
Definition roomy (w : W) : bool := true.
Definition idle_clients : ArrayList := mkArrayList (Some [0;0;0;0]) 0 4 ULONG_MAX true true false.
Definition idle_server : FdServer unit :=
  mkFdServer (-1) [] (Some tt) (Some tt) (Some tt) (Some idle_clients) 0 NULL false (-1) [].
Definition idle_world (b : dlist (dlist epoll_event)) : W :=
  mkWorld (mkScript ∅ ∅ 3 [] b [] [] []) (Some idle_server) ∅ ∅.
Lemma fresh_package_ok w p : fresh_package w = Some p -> p <> NULL /\ packs w !! p = None.
Proof.
  intros [= <-]. assert (forall X : gset Z, 0 <= set_fold Z.max 0 X /\ forall x, x ∈ X -> x <= set_fold Z.max 0 X) as Hmax.
  { refine (set_fold_ind_L (fun r X => 0 <= r /\ forall x, x ∈ X -> x <= r) Z.max 0 _ _); [set_solver|].
    intros x X r _ [H0 Hx]. split; [lia|]. intros y [->%elem_of_singleton|Hy]%elem_of_union; [lia|]. specialize (Hx y Hy). lia. }
  destruct (Hmax (dom (packs w))) as [H0 Hx]. split; [unfold NULL; lia|]. apply not_elem_of_dom. intros Hin%Hx. lia.
Qed.
Lemma keeper_code : client_code connected connected keep_received fresh_package roomy.
Proof.
  split; [by intros; apply post_ret..| |apply fresh_package_ok|done].
  intros c e s l p fd X w Hi Hp HX Hnw. unfold keep_received. destruct (Z.ltb_spec fd 0) as [Hf|Hf].
  - apply post_ret. destruct HX as [[-> _]| ->]; [done|].
    assert (0 <= fd < 2 ^ 31); [|lia]. eapply holds_member; [apply Hi|set_solver].
  - destruct HX as [[_ ?]| ->]; [lia|]. apply post_bind, post_modify, post_ret.
    destruct Hi as [Ho Hc Hl Hn Hnn Hpk Hh Hw]. split; cbn [object packs kern user]; try done.
    + destruct Hh as [Hnd Hfd Ha Hr]. rewrite Permutation_app_swap_app in Hnd. cbn in Hnd. apply NoDup_cons in Hnd as [Hni Hnd].
      split; [done| | |done].
      * rewrite Hfd. unfold kept, keeper. cbn. set_solver.
      * intros d Hd. unfold kept, keeper. intros [->%elem_of_singleton|Hk]%elem_of_union; [done|].
        apply (Ha d); [set_solver|exact Hk].
    + destruct e as [e|]; [|done]. intros d Hd. specialize (Hw d Hd). assert (d <> fd) by (intros ->; by apply Hnw). set_solver.
Qed.
Lemma idle_list : client_list idle_clients.
Proof.
  split; try (cbn; unfold ULONG_MAX; lia). split; cbn; try (unfold ULONG_MAX; lia); done.
Qed.
Lemma idle_inv b : inv (epoll idle_server) idle_server idle_clients [] [] (idle_world b).
Proof.
  split; [done|done|apply idle_list|apply NoDup_nil_2|set_solver| |split|done]; cbn [idle_world kern packs user]; try set_solver.
  - intros p. rewrite lookup_empty. split; [by intros [? ?]|]. set_solver.
  - apply NoDup_nil_2.
Qed.
(** A client connects and sends a descriptor. *)
Definition one_client : W :=
  idle_world [[mkEpollEvent 3 EPOLLIN]; [mkEpollEvent 5 EPOLLIN]].
Lemma FdServer_run_releases_witness :
  safe (FdServer_run connected connected keep_received (mret tt) fresh_package roomy 8) (fun _ w' => released w') one_client.
Proof.
  apply (FdServer_run_releases _ _ _ _ _ _ keeper_code) with (s := idle_server) (l := idle_clients).
  - intros e k. cbn. unfold s_wait. case_bool_decide; cbn; [lia|]. destruct (batches k); cbn; [lia|]. rewrite length_take. unfold DEFAULT_BACKLOG_SIZE. lia.
  - by intros c d k [-> | ->] _.
  - intros s l w Hi Hs. apply post_ret. by exists s, l.
  - apply idle_inv.
  - done.
  - intros []. done.
Defined.
Example FdServer_run_one_client :
  match FdServer_run connected connected keep_received (mret tt) fresh_package roomy 8 one_client with
  | Ok (r, w, _) => r = ALIB_OK /\ elements (sfds (kern w)) = [6] /\ user w = {[6]}
  | _ => False
  end.
Proof. vm_compute. auto. Qed.
(** The server's own event and a client's are reported together. *)
Definition one_list : ArrayList := mkArrayList (Some [1;0;0;0]) 1 4 ULONG_MAX true true false.
Definition mixed_server : FdServer unit :=
  mkFdServer 3 [] (Some tt) (Some tt) (Some tt) (Some one_list) 0 NULL false 4 [mkEpollEvent 3 EPOLLIN; mkEpollEvent 5 EPOLLIN].
Definition mixed_world : W :=
  mkWorld (mkScript {[3; 4; 5]} {[4 := {[3; 5]}]} 6 [] [] [] [] []) (Some mixed_server) {[1 := mkFdsPackage 5 NULL false]} ∅.
Lemma mixed_list : client_list one_list.
Proof.
  split; try (cbn; unfold ULONG_MAX; lia). split; cbn; try (unfold ULONG_MAX; lia); done.
Qed.
Lemma mixed_inv : inv (epoll mixed_server) mixed_server one_list [] [] mixed_world.
Proof.
  assert (items one_list = [1]) as Hit by done.
  assert (socks (packs mixed_world) ([1] ++ []) = [5]) as Hs by done.
  assert (base mixed_server = [3; 4]) as Hb by done. assert (listening mixed_server = [3]) as Hl by done.
  split; [done|done|apply mixed_list| | | | |]; rewrite ?Hit, ?Hs, ?Hb, ?Hl.
  - apply NoDup_singleton.
  - set_solver.
  - intros p. cbn [mixed_world packs]. rewrite lookup_singleton_is_Some. set_solver.
  - split; cbn [mixed_world kern user fds sfds].
    + repeat (apply NoDup_cons; split; [set_solver|]). apply NoDup_nil_2.
    + change (sfds (kern mixed_world) = list_to_set ([3; 4] ++ [] ++ [5]) ∪ ∅). set_solver.
    + intros d _. apply not_elem_of_empty.
    + change (forall d, d ∈ sfds (kern mixed_world) -> 0 <= d < 2 ^ 31). cbn. set_solver by lia.
  - cbn. intros d Hd. change (d ∈ default (∅ : gset Z) (({[4 := {[3; 5]}]} : gmap Z (gset Z)) !! 4)) in Hd.
    rewrite lookup_singleton_eq in Hd. cbn in Hd. set_solver.
Qed.
Lemma mixed_batch_closes_server_witness :
  post (client_event connected keep_received EPOLLIN) (fun r w' => r = None /\ object w' = Some mixed_server /\
    packs w' = packs mixed_world /\ fds (kern w') = fds (kern mixed_world) ∖ {[3]}) mixed_world.
Proof.
  apply (mixed_batch_closes_server connected keep_received mixed_server one_list (mkEpollEvent 3 EPOLLIN)); [apply mixed_inv|done..].
Defined.
End run.
