(* ===== verification/EpollPack.v ===== *)
(** The package of an epoll instance, [source/EpollPack.c].

    Whoever makes a package owns it and passes it on, so the operations take it
    and give it back changed; the instance itself is the system's. *)
From S2P Require Import Prelude Effects Heap AlibTypes Posix ServerState.
Open Scope Z_scope.

Record EpollPack := mkEpollPack {
  efd : Z; triggered_events : Datatypes.list epoll_event; te_len : Z; mod_event : epoll_event;
  user_data : ptr; free_user_data : bool; mutex : bool (* whether it is locked *) }.
Definition set_mutex v (e : EpollPack) :=
  mkEpollPack (efd e) (triggered_events e) (te_len e) (mod_event e) (user_data e) (free_user_data e) v.
Definition set_mod_event v (e : EpollPack) :=
  mkEpollPack (efd e) (triggered_events e) (te_len e) v (user_data e) (free_user_data e) (mutex e).
Definition set_triggered_events v (e : EpollPack) :=
  mkEpollPack (efd e) v (te_len e) (mod_event e) (user_data e) (free_user_data e) (mutex e).

Section operations.
Context {K O P U : Type} `{Posix K}.
Notation W := (world K O P U).

(** Locking a locked mutex never returns. *)
Definition EpollPack_lock (epp : EpollPack) : M W (Z * EpollPack) :=
  if mutex epp then lift Diverges else emit EvLock;; mret (0, set_mutex true epp).
Definition EpollPack_unlock (epp : EpollPack) : M W (Z * EpollPack) :=
  emit EvUnlock;; mret (0, set_mutex false epp).
Definition EpollPack_add_sock (ep : option EpollPack) (event_type s : Z) : M W (Z * option EpollPack) :=
  match ep with
  | None => mret (ALIB_BAD_ARG, None)
  | Some e =>
      if s <? 0 then mret (ALIB_BAD_ARG, ep) else
      '(_, e) ← EpollPack_lock e;
      let e := set_mod_event (mkEpollEvent s event_type) e in
      err ← sys (sys_epoll_add (efd e) event_type s);
      '(_, e) ← EpollPack_unlock e;
      mret (err, Some e)
  end.
Definition EpollPack_get_efd (epp : EpollPack) : Z := efd epp.
Definition EpollPack_get_triggered_events (epp : EpollPack) : Datatypes.list epoll_event := triggered_events epp.
Definition EpollPack_get_triggered_event_len (epp : EpollPack) : Z := te_len epp.
Definition EpollPack_get_user_data (epp : EpollPack) : ptr := user_data epp.
Definition EpollPack_get_mod_event (epp : EpollPack) : epoll_event := mod_event epp.
Definition EpollPack_get_mutex (epp : EpollPack) : bool := mutex epp.

(** The double pointer's target. *)
Definition delEpollPack (epp : option EpollPack) : M W (option EpollPack) :=
  match epp with
  | None => mret None
  | Some e =>
      '(_, e) ← EpollPack_lock e;
      when (negb (efd e =? 0)) (close_fd (efd e));;
      '(_, e) ← EpollPack_unlock e;
      when (free_user_data e && negb (user_data e =? NULL)) (emit (EvFree (user_data e)));;
      emit EvMutexDestroy;; mret None
  end.
(** [ok], [ok_events]: the outcomes of the allocations of the package and of its array. *)
Definition newEpollPack (ok ok_events : bool) (event_count : Z) (data : ptr) (free_data : bool) : M W (option EpollPack) :=
  if negb ok then mret None else
  let event_count := if event_count =? 0 then DEFAULT_BACKLOG_SIZE else event_count in
  e ← sys sys_epoll_create;
  emit EvMutexInit;;
  let epp := mkEpollPack e (if ok_events then replicate (Z.to_nat event_count) (mkEpollEvent 0 0) else [])
               event_count (mkEpollEvent 0 0) data free_data false in
  if negb ok_events then delEpollPack (Some epp) else mret (Some epp).
End operations.
