(* ===== verification/TcpServer.v ===== *)
(** The TCP server, [source/TcpServer.c].

    [C] are the code pointers of the callbacks, which the parameters named after
    the fields run.  [self] is the address of the server, which the packages of
    its clients hold; [wait] is what the other threads do until they signal the
    server's condition; [malloc], [room] and [grow] say what allocating a
    package, the buffer and a place in the client list gives. *)
From S2P Require Import Prelude Memory Effects Heap AlibTypes TimerEvent ArrayList Posix ServerState EpollPack.
Open Scope Z_scope.

Record TcpServer (C : Type) := mkTcpServer {
  sock : Z; sin_port : Z; epoll_wait_timeout : Z; flag_pole : Z;
  client_list : option ArrayList;
  client_connected : option C; client_data_ready : option C; client_data_in : option C;
  client_disconnected : option C; thread_returning : option C;
  ex_data : ptr; free_data_cb : bool }.
Arguments mkTcpServer {C}. Arguments sock {C}. Arguments sin_port {C}. Arguments epoll_wait_timeout {C}.
Arguments flag_pole {C}. Arguments client_list {C}. Arguments client_connected {C}. Arguments client_data_ready {C}.
Arguments client_data_in {C}. Arguments client_disconnected {C}. Arguments thread_returning {C}.
Arguments ex_data {C}. Arguments free_data_cb {C}.

Section fields.
Context {C : Type}.
Implicit Types s : TcpServer C.
Definition set_sock v s := mkTcpServer v (sin_port s) (epoll_wait_timeout s) (flag_pole s) (client_list s)
  (client_connected s) (client_data_ready s) (client_data_in s) (client_disconnected s) (thread_returning s) (ex_data s) (free_data_cb s).
Definition set_timeout v s := mkTcpServer (sock s) (sin_port s) v (flag_pole s) (client_list s)
  (client_connected s) (client_data_ready s) (client_data_in s) (client_disconnected s) (thread_returning s) (ex_data s) (free_data_cb s).
Definition set_flag_pole v s := mkTcpServer (sock s) (sin_port s) (epoll_wait_timeout s) v (client_list s)
  (client_connected s) (client_data_ready s) (client_data_in s) (client_disconnected s) (thread_returning s) (ex_data s) (free_data_cb s).
Definition set_client_list v s := mkTcpServer (sock s) (sin_port s) (epoll_wait_timeout s) (flag_pole s) v
  (client_connected s) (client_data_ready s) (client_data_in s) (client_disconnected s) (thread_returning s) (ex_data s) (free_data_cb s).
Definition set_callbacks (c r i d t : option C) s := mkTcpServer (sock s) (sin_port s) (epoll_wait_timeout s) (flag_pole s)
  (client_list s) c r i d t (ex_data s) (free_data_cb s).
Definition set_ex_data v f s := mkTcpServer (sock s) (sin_port s) (epoll_wait_timeout s) (flag_pole s) (client_list s)
  (client_connected s) (client_data_ready s) (client_data_in s) (client_disconnected s) (thread_returning s) v f.
#[export] Instance TcpServer_clients : HasClients (TcpServer C) := {|
  clients := client_list; set_clients := set_client_list; clients_set := fun _ _ => eq_refl;
  set_clients_set := fun _ _ _ => eq_refl; set_clients_id := ltac:(by intros []) |}.
End fields.

(** The variables of [listen_loop]: the package of its epoll instance, the
    buffer and the count of what is received ([None] before the first). *)
Record locals := mkLocals { ep : EpollPack; data_in_buff : option (Datatypes.list Z); data_in_count : option Z }.
Definition set_ep e l := mkLocals e (data_in_buff l) (data_in_count l).
Definition set_data b n l := mkLocals (ep l) b n.

Section server.
Context {K U C : Type} `{Posix K}.
Notation W := (world K (TcpServer C) socket_package U).
Context (self : ptr).
Context (connected disconnected : C -> ptr -> M W Z).
Context (data_ready : C -> ptr -> option (Datatypes.list Z) -> option Z -> M W (Z * option (Datatypes.list Z) * option Z)).
Context (data_in : C -> ptr -> option (Datatypes.list Z) -> Z -> M W Z).
Context (returning : C -> M W unit).
Context (malloc : W -> option ptr) (room grow : W -> bool) (wait : M W unit).

Definition raise_server (flag : Z) : M W unit := set (fun s => set_flag_pole (flag_raise (flag_pole s) flag) s).
Definition lower_server (flag : Z) : M W unit := set (fun s => set_flag_pole (flag_lower (flag_pole s) flag) s).
Definition server_flag (flag : Z) : M W bool := fp ← get flag_pole; mret (raised fp flag).
(** A callback runs between the two changes of the flag. *)
Definition in_callback {A} (m : M W A) : M W A :=
  raise_server OBJECT_CALLBACK_STATE;; a ← m; lower_server OBJECT_CALLBACK_STATE;; mret a.

(** * The clients *)
Definition remove_client_cb (sp : ptr) : M W unit :=
  p ← load (A := socket_package) sp;
  if parent p =? NULL then lift (UB NullDeref) else
  if negb (parent p =? self) then lift (UB Dangling) else
  cb ← get client_disconnected;
  match cb with
  | Some cb =>
      rval ← disconnected cb sp;
      when (raised rval SCB_RVAL_STOP_SERVER) (s ← get sock; close_fd s;; set (set_sock (-1)))
  | None => mret tt
  end;;
  close_and_free_socket_package sp.

(** * The loop *)
Definition bind_and_listen : M W Z :=
  on_this ALIB_BAD_ARG (
    let f_error := s ← get sock; when (s >? -1) (close_fd s;; set (set_sock (-1)));; mret ALIB_CHECK_ERRNO in
    s ← get sock;
    if s >? -1 then mret ALIB_OK else
    s ← sys sys_socket; set (set_sock s);;
    if s <? 0 then mret ALIB_FD_ERR else
    sys (sys_call SetSockOpt s);; err ← sys (sys_call Bind s);
    if negb (err =? 0) then f_error else
    err ← sys (sys_call Listen s);
    if negb (err =? 0) then f_error else mret ALIB_OK).

(** The result: the value to return from the loop, [None] to go on. *)
Definition add_client (client_pack : ptr) (lo : locals) : M W (option Z * locals) :=
  p ← load (A := socket_package) client_pack;
  '(rval, e) ← EpollPack_add_sock (Some (ep lo)) EPOLLIN (ServerState.sock p);
  let lo := match e with Some e => set_ep e lo | None => lo end in
  if rval <? 0 then free_socket_package client_pack;; mret (None, lo) else
  update client_pack (set_parent self);;
  g ← gets grow; added ← on_list remove_client_cb (ArrayList_add g client_pack);
  if added =? 0 then free_socket_package client_pack;; mret (Some ALIB_MEM_ERR, lo)
  else mret (None, lo).
Definition accept_client (lo : locals) : M W (option Z * locals) :=
  s ← get sock; new_sock ← sys (sys_accept s);
  if new_sock <? 0 then mret (None, lo) else
  k ← gets malloc; client_pack ← new_socket_package k new_sock;
  if client_pack =? NULL then close_fd new_sock;; mret (Some ALIB_MEM_ERR, lo) else
  cb ← get client_connected;
  match cb with
  | None => add_client client_pack lo
  | Some cb =>
      rval ← in_callback (connected cb client_pack);
      deleted ← server_flag OBJECT_DELETE_STATE;
      if deleted : bool then mret (Some ALIB_OK, lo) else
      let closes := raised rval (Z.lor SCB_RVAL_CLOSE_CLIENT SCB_RVAL_STOP_SERVER) in
      when closes (close_and_free_socket_package client_pack);;
      if raised rval SCB_RVAL_STOP_SERVER then mret (Some ALIB_OK, lo) else
      if raised rval SCB_RVAL_HANDLED || closes then mret (None, lo) else
      add_client client_pack lo
  end.
(** [recv(sock, data_in_buff, DEFAULT_INPUT_BUFF_SIZE, 0)] *)
Definition receive (s : Z) (lo : locals) : M W locals :=
  match data_in_buff lo with
  | None => mret (set_data None (Some (-1)) lo)
  | Some b =>
      '(n, d) ← sys (fun k => let '(n, d, k) := sys_recv s DEFAULT_INPUT_BUFF_SIZE k in ((n, d), k));
      b ← lift (if 0 <? n then blk_write b 0 d else mret b); mret (set_data (Some b) (Some n) lo)
  end.
Definition remove_client (client : ptr) : M W unit := on_list remove_client_cb (ArrayList_remove client).
(** The data is with the server: the client is removed when there is none. *)
Definition data_received (client : ptr) (lo : locals) : M W (option Z * locals) :=
  n ← lift (match data_in_count lo with Some n => Ok n | None => UB Indeterminate end);
  if n <? 1 then remove_client client;; mret (None, lo) else
  cb ← get client_data_in;
  match cb with
  | None => mret (None, lo)
  | Some cb =>
      rval ← in_callback (data_in cb client (data_in_buff lo) n);
      deleted ← server_flag OBJECT_DELETE_STATE;
      if deleted : bool then mret (Some ALIB_OK, lo) else
      when (raised rval SCB_RVAL_CLOSE_CLIENT) (remove_client client);;
      mret (if raised rval SCB_RVAL_STOP_SERVER then Some ALIB_OK else None, lo)
  end.
Definition client_event (fd : Z) (lo : locals) : M W (option Z * locals) :=
  client ← find_client remove_client_cb ArrayList_find_item_by_value_tsafe fd;
  if client =? NULL then close_fd fd;; mret (None, lo) else
  cb ← get client_data_ready;
  match cb with
  | Some cb =>
      '(rval, b, n) ← in_callback (data_ready cb client (data_in_buff lo) (data_in_count lo));
      let lo := set_data b n lo in
      deleted ← server_flag OBJECT_DELETE_STATE;
      if deleted : bool then mret (Some ALIB_OK, lo) else
      when (raised rval SCB_RVAL_CLOSE_CLIENT) (remove_client client);;
      if raised rval SCB_RVAL_STOP_SERVER then mret (Some ALIB_OK, lo) else
      if raised rval (Z.lor SCB_RVAL_HANDLED SCB_RVAL_CLOSE_CLIENT) then mret (None, lo) else
      data_received client lo
  | None =>
      p ← load (A := socket_package) client;
      lo ← receive (ServerState.sock p) lo; data_received client lo
  end.
(** [for(event_it = ..; event_count > 0; ++event_it, --event_count)] *)
Fixpoint handle_events (event_count : nat) (i : Z) (lo : locals) : M W (option Z * locals) :=
  match event_count with
  | O => mret (None, lo)
  | S n =>
      ev ← lift (blk_load (EpollPack_get_triggered_events (ep lo)) i); s ← get sock;
      '(r, lo) ← (if ev_fd ev =? s then accept_client lo else client_event (ev_fd ev) lo);
      match r with Some _ => mret (r, lo) | None => handle_events n (i + 1) lo end
  end.
Definition turn (lo : locals) : M W (option Z * locals) :=
  '(event_count, evs) ← sys (fun k => let '(n, evs, k) :=
    sys_epoll_wait (EpollPack_get_efd (ep lo)) (EpollPack_get_triggered_event_len (ep lo)) k in ((n, evs), k));
  if event_count =? 0 then mret (None, lo) else
  if event_count <? 0 then
    stop ← server_flag THREAD_STOP;
    if stop : bool then mret (Some ALIB_OK, lo) else
    s ← get sock;
    mret (if (s >? -1) && (EpollPack_get_efd (ep lo) >? -1) then None else Some ALIB_CHECK_ERRNO, lo)
  else
    let lo := set_ep (set_triggered_events (evs ++ drop (length evs) (triggered_events (ep lo))) (ep lo)) lo in
    handle_events (Z.to_nat event_count) 0 lo.
Fixpoint run_turns (fuel : nat) (lo : locals) : M W (Z * locals) :=
  match fuel with
  | O => lift Diverges
  | S n =>
      stop ← server_flag THREAD_STOP; s ← get sock;
      if negb stop && (s >? -1)
      then '(r, lo) ← turn lo; match r with Some rval => mret (rval, lo) | None => run_turns n lo end
      else mret (ALIB_OK, lo)
  end.
Definition listen_loop (fuel : nat) (pack : option EpollPack) : M W (Z * option EpollPack) :=
  match pack with
  | None => mret (ALIB_BAD_ARG, None)
  | Some e =>
      if EpollPack_get_user_data e =? NULL then mret (ALIB_BAD_ARG, pack) else
      ok ← gets room;
      if negb ok then mret (ALIB_MEM_ERR, pack) else
      '(rval, lo) ← run_turns fuel (mkLocals e (Some (replicate (Z.to_nat DEFAULT_INPUT_BUFF_SIZE) 0)) None);
      on_list remove_client_cb ArrayList_clear_tsafe;;
      mret (rval, Some (ep lo))
  end.

(** * Stopping *)
(** [while(server->flag_pole & THREAD_IS_RUNNING) pthread_cond_wait(..)] *)
Fixpoint wait_return (fuel : nat) : M W unit :=
  running ← server_flag THREAD_IS_RUNNING;
  if running : bool then match fuel with O => lift Diverges | S n => wait;; wait_return n end else mret tt.
Definition TcpServer_wait_for_thread_return (fuel : nat) : M W unit :=
  on_this tt (
    in_cb ← server_flag OBJECT_CALLBACK_STATE;
    if in_cb : bool then mret tt else emit EvLock;; wait_return fuel;; emit EvUnlock).
Definition TcpServer_stop_async : M W unit :=
  s ← get sock; when (s >? -1) (close_fd s;; set (set_sock (-1)));;
  raise_server THREAD_STOP;;
  created ← server_flag THREAD_CREATED;
  when created (lower_server THREAD_CREATED).
Definition TcpServer_stop (fuel : nat) : M W unit :=
  TcpServer_stop_async;;
  in_cb ← server_flag OBJECT_CALLBACK_STATE;
  when (negb in_cb) (TcpServer_wait_for_thread_return fuel).
Definition freeTcpServer (fuel : nat) : M W unit :=
  on_this tt (
    TcpServer_stop fuel;; raise_server OBJECT_DELETE_STATE;;
    running ← server_flag THREAD_IS_RUNNING; in_cb ← server_flag OBJECT_CALLBACK_STATE;
    when (negb running && negb in_cb) (
      TcpServer_stop fuel;;
      s ← this;
      when (free_data_cb s) (in_callback (emit (EvFree (ex_data s))));;
      on_list remove_client_cb delArrayList;; modify (set_object None))).
(** The double pointer's target; the result is what it is then. *)
Definition delTcpServer (fuel : nat) (server : option ptr) : M W (option ptr) :=
  match server with None => mret None | Some _ => freeTcpServer fuel;; mret (Some NULL) end.

(** * Starting *)

(** The thread of [TcpServer_start_async]. *)
Definition start_thread (fuel : nat) (pack : option EpollPack) : M W (option EpollPack) :=
  match pack with
  | None => mret None
  | Some e =>
      if EpollPack_get_user_data e =? NULL then mret pack else
      raise_server THREAD_IS_RUNNING;;
      '(_, pack) ← listen_loop fuel pack;
      let deleted (m : M W unit) :=
        d ← server_flag OBJECT_DELETE_STATE;
        if d : bool then lower_server THREAD_IS_RUNNING;; freeTcpServer fuel else m in
      let finish := TcpServer_stop_async;; lower_server THREAD_IS_RUNNING in
      deleted (
        cb ← get thread_returning;
        match cb with
        | Some cb => in_callback (returning cb);; deleted finish
        | None => finish
        end);;
      delEpollPack pack
  end.
(** [ok]: the outcomes of the allocations of the package. *)
Definition TcpServer_start (fuel : nat) (ok : bool * bool) : M W Z :=
  on_this ALIB_BAD_ARG (
    deleted ← server_flag OBJECT_DELETE_STATE;
    if deleted : bool then mret ALIB_STATE_ERR else
    pack ← newEpollPack ok.1 ok.2 0 self false;
    let f_return (err : Z) (pack : option EpollPack) := TcpServer_stop fuel;; delEpollPack pack;; mret err in
    match pack with
    | None => f_return ALIB_FD_ERR None
    | Some _ =>
        TcpServer_stop fuel;; lower_server THREAD_STOP;;
        err ← bind_and_listen;
        if negb (err =? 0) then mret err else
        s ← get sock; '(err, pack) ← EpollPack_add_sock pack EPOLLIN s;
        if negb (err =? 0) then f_return err pack else
        '(err, pack) ← listen_loop fuel pack;
        deleted ← server_flag OBJECT_DELETE_STATE;
        if deleted : bool then mret err else f_return err pack
    end).
(** [create]: the result of [pthread_create]; the result says which package the thread has. *)
Definition TcpServer_start_async (fuel : nat) (ok : bool * bool) (create : Z) : M W (Z * option EpollPack) :=
  on_this (ALIB_BAD_ARG, None) (
    deleted ← server_flag OBJECT_DELETE_STATE;
    if deleted : bool then mret (ALIB_STATE_ERR, None) else
    running ← server_flag THREAD_IS_RUNNING; stop ← server_flag THREAD_STOP;
    if (running && negb running) : bool then mret (ALIB_OK, None) else
    when (stop && running) (TcpServer_wait_for_thread_return fuel);;
    err ← bind_and_listen;
    if negb (err =? 0) then mret (err, None) else
    let f_error (err : Z) (pack : option EpollPack) := TcpServer_stop_async;; delEpollPack pack;; mret (err, None) in
    pack ← newEpollPack ok.1 ok.2 0 self false;
    match pack with
    | None => f_error err None
    | Some _ =>
        s ← get sock; '(err, pack) ← EpollPack_add_sock pack EPOLLIN s;
        if negb (err =? 0) then f_error err pack else
        lower_server THREAD_STOP;; raise_server (Z.lor THREAD_CREATED THREAD_IS_RUNNING);;
        if negb (create =? 0)
        then lower_server (Z.lor THREAD_CREATED THREAD_IS_RUNNING);; f_error ALIB_THREAD_ERR pack
        else mret (ALIB_OK, pack)
    end).

(** * The rest of the interface *)
Definition TcpServer_get_sock : M W Z := get sock.
Definition TcpServer_get_addr : M W Z := get sin_port.
Definition TcpServer_is_running : M W bool := s ← get sock; mret (s >? -1).
Definition TcpServer_get_flag_pole : M W Z := get flag_pole.
Definition TcpServer_get_epoll_wait_timeout : M W Z := get epoll_wait_timeout.
Definition TcpServer_get_client_list : M W (option ArrayList) := get client_list.
Definition TcpServer_get_extended_data : M W ptr := get ex_data.
Definition TcpServer_set_epoll_wait_timeout (timeout_millis : Z) : M W unit :=
  set (set_timeout (if timeout_millis <? 0 then -1 else timeout_millis)).
Definition TcpServer_set_client_connected_cb (cb : option C) : M W unit :=
  set (fun s => set_callbacks cb (client_data_ready s) (client_data_in s) (client_disconnected s) (thread_returning s) s).
Definition TcpServer_set_client_data_ready_cb (cb : option C) : M W unit :=
  set (fun s => set_callbacks (client_connected s) cb (client_data_in s) (client_disconnected s) (thread_returning s) s).
Definition TcpServer_set_client_data_in_cb (cb : option C) : M W unit :=
  set (fun s => set_callbacks (client_connected s) (client_data_ready s) cb (client_disconnected s) (thread_returning s) s).
Definition TcpServer_set_client_disconnected_cb (cb : option C) : M W unit :=
  set (fun s => set_callbacks (client_connected s) (client_data_ready s) (client_data_in s) cb (thread_returning s) s).
Definition TcpServer_set_thread_returning_cb (cb : option C) : M W unit :=
  set (fun s => set_callbacks (client_connected s) (client_data_ready s) (client_data_in s) (client_disconnected s) cb s).
Definition TcpServer_set_extended_data (data : ptr) (free_data free_old_data : bool) : M W unit :=
  s ← this;
  when (free_old_data && free_data_cb s && negb (ex_data s =? NULL)) (emit (EvFree (ex_data s)));;
  set (set_ex_data data free_data).
(** [ok], [kl]: the outcomes of the allocations of the server and of its list. *)
Definition newTcpServer (fuel : nat) (ok : bool) (kl : bool * bool) (port : Z) (data : ptr) (free_data : bool) : M W unit :=
  if negb ok then modify (set_object None) else
  '(l, t) ← lift (newArrayList kl.1 kl.2 true); emits t;;
  modify (set_object (Some (mkTcpServer (-1) (htons port) 1000 FLAG_INIT l None None None None None data free_data)));;
  match l with None => delTcpServer fuel (Some self);; mret tt | Some _ => mret tt end.
End server.
