(* ===== verification/TcpServerSpec.v ===== *)
(** What the server of [TcpServer] promises: whatever events the system
    reports, however many at a time, and whatever its clients send, a server
    that was started and stops has closed every descriptor it opened and freed
    every package, and never touches one that is not its own. *)
From S2P Require Import Prelude Memory Effects Heap AlibTypes TimerEvent ArrayList Posix ServerState ServerSpec EpollPack TcpServer.
Open Scope Z_scope.

(** * Flags *)

Lemma blen_zeros {A} n (x : A) : 0 <= n -> blen (replicate (Z.to_nat n) x) = n.
Proof. intros Hn. unfold blen. rewrite length_replicate. lia. Qed.
Section spec.
Context {K U C : Type} `{PosixLaws K} `{Keeps U}.
Notation W := (world K (TcpServer C) socket_package U).
#[export] Instance TcpServer_holder : Holder (TcpServer C) := {|
  base := fun s => filter (fun d => -1 < d) [sock s]; listening := fun s => filter (fun d => -1 < d) [sock s];
  base_clients := fun _ _ => eq_refl; listening_clients := fun _ _ => eq_refl; listening_base := fun _ _ Hd => Hd |}.
Lemma tcp_base (s : TcpServer C) : base s = if -1 <? sock s then [sock s] else [].
Proof. cbn [base TcpServer_holder]. rewrite filter_cons. destruct (Z.ltb_spec (-1) (sock s)); case_decide; done || lia. Qed.

(** The server is not being deleted, and no thread runs it. *)
Definition quiet (s : TcpServer C) : Prop := Z.land (flag_pole s) (Z.lor OBJECT_DELETE_STATE THREAD_IS_RUNNING) = 0.
Lemma quiet_deleted s : quiet s -> raised (flag_pole s) OBJECT_DELETE_STATE = false.
Proof.
  unfold quiet, raised. intros Hq. rewrite <- (Z.land_0_l OBJECT_DELETE_STATE), <- Hq, <- Z.land_assoc.
  change (Z.land (Z.lor OBJECT_DELETE_STATE THREAD_IS_RUNNING) OBJECT_DELETE_STATE) with OBJECT_DELETE_STATE.
  by rewrite Z.eqb_refl.
Qed.
Lemma quiet_running s : quiet s -> raised (flag_pole s) THREAD_IS_RUNNING = false.
Proof.
  unfold quiet, raised. intros Hq. rewrite <- (Z.land_0_l THREAD_IS_RUNNING), <- Hq, <- Z.land_assoc.
  change (Z.land (Z.lor OBJECT_DELETE_STATE THREAD_IS_RUNNING) THREAD_IS_RUNNING) with THREAD_IS_RUNNING.
  by rewrite Z.eqb_refl.
Qed.
(** How the server may change while it runs: its socket may be closed. *)
Record tame (s s' : TcpServer C) : Prop := {
  tame_sock : sock s' = sock s \/ sock s' = -1;
  tame_ready : client_data_ready s' = client_data_ready s;
  tame_quiet : quiet s -> quiet s' }.
#[export] Instance tame_preorder : PreOrder tame.
Proof.
  split; [by split; [left|..]|]. intros a b c [Hab Rab Qab] [Hbc Rbc Qbc]. split; [|congruence|auto].
  destruct Hbc as [->| ->]; [destruct Hab as [->| ->]|]; auto.
Qed.

Context (self : ptr).
Definition socket_at (w : W) (p : ptr) : option Z := socket_of <$> packs w !! p.
(** [e]: the epoll instance; [E]: the descriptors whose events are still to be handled; [N]: a package whose
    client is not in the list yet; [Y]: packages that leave the list. *)
Record server_inv (e : Z) (E : dlist Z) (N Y : dlist ptr) (s : TcpServer C) (l : ArrayList) (w : W) : Prop := {
  si_inv : inv (Some e) s l (N ++ Y) [e] w;
  si_linked : forall p, p ∈ items l ++ Y -> exists pk, packs w !! p = Some pk /\ parent pk = self;
  si_self : e ∉ watched e (kern w);
  si_pending : forall d, d ∈ E -> 0 <= d < 2 ^ 31 /\ d ∉ kept (user w) /\ d <> e /\ (d ∈ fds (kern w) \/ sock s < 0);
  si_leaving : forall p d, p ∈ N ++ Y -> socket_at w p = Some d -> d ∉ E }.

(** A change of the object that concerns no resource. *)
Lemma server_field e E N Y s s' l w : server_inv e E N Y s l w -> sock s' = sock s -> client_list s' = client_list s ->
  server_inv e E N Y s' l (set_object (Some s') w).
Proof.
  intros [Hi Hl Hs Hp Hv] E1 E2. split; try done; [|by rewrite E1].
  eapply inv_moved; try exact Hi; try done; try apply Hi.
  - cbn. rewrite E2. apply Hi.
  - by rewrite !tcp_base, E1.
  - cbn [listening TcpServer_holder]. by rewrite E1.
Qed.
Lemma server_kern e E N Y s l w k : server_inv e E N Y s l w -> fds k = fds (kern w) ->
  watched e k ⊆ watched e (kern w) -> server_inv e E N Y s l (set_kern k w).
Proof.
  intros [Hi Hl Hs Hp Hv] Hf Hw. split; try done; [by apply inv_kern|cbn; set_solver|].
  intros d Hd. cbn [set_kern kern]. rewrite Hf. by apply Hp.
Qed.
(** The listening socket is closed, if it is open. *)
Lemma server_close_sock e E N Y s l w : server_inv e E N Y s l w ->
  server_inv e E N Y (set_sock (-1) s) l (set_object (Some (set_sock (-1) s)) (set_kern (sys_close (sock s) (kern w)) w)).
Proof.
  intros [Hi Hl Hs Hp Hv]. split; try done.
  - assert (inv (Some e) (set_sock (-1) s) l (N ++ Y) (base s ++ [e]) (set_object (Some (set_sock (-1) s)) w)) as Hi2.
    { eapply inv_moved; try exact Hi; try done; apply Hi. }
    rewrite tcp_base in Hi2. destruct (Z.ltb_spec (-1) (sock s)) as [Hpos|Hneg]; [exact (inv_close _ _ _ _ _ _ _ Hi2)|].
    apply (inv_kern _ _ _ _ _ _ (sys_close (sock s) (kern w))) in Hi2; [exact Hi2| |].
    + rewrite close_closes. assert (sock s ∉ fds (kern w)); [|set_solver].
      intros Hin. apply (holds_range _ _ _ (inv_holds _ _ _ _ _ _ Hi)) in Hin. lia.
    + pose proof (close_watches e (sock s) (kern w)). set_solver.
  - cbn [set_object set_kern kern]. pose proof (close_watches e (sock s) (kern w)). set_solver.
  - intros d Hd. destruct (Hp d Hd) as (? & ? & ? & _). split; [done|]. split; [done|]. split; [done|]. right. cbn. lia.
Qed.
Lemma server_get {A} (f : TcpServer C -> A) e E N Y s l w (Q : A -> W -> Prop) :
  server_inv e E N Y s l w -> Q (f s) w -> post (get f) Q w.
Proof. intros [Hi _ _ _ _] HQ. eapply post_get; [apply Hi|done]. Qed.
Lemma server_set (f : TcpServer C -> TcpServer C) e E N Y s l w (Q : unit -> W -> Prop) :
  server_inv e E N Y s l w -> Q tt (set_object (Some (f s)) w) -> post (set f) Q w.
Proof. intros [Hi _ _ _ _] HQ. eapply post_set; [apply Hi|done]. Qed.

Lemma server_pack e E N Y s l w p : server_inv e E N Y s l w -> p ∈ items l ++ N ++ Y ->
  p <> NULL /\ exists pk, packs w !! p = Some pk /\ 0 <= socket_of pk < 2 ^ 31.
Proof.
  intros [Hi _ _ _ _] Hp. destruct (inv_pack _ _ _ _ _ _ p Hi) as (Hn & pk & Hpk); [done|]. split; [done|].
  exists pk. split; [done|]. eapply holds_member; [apply Hi|]. rewrite !elem_of_app. do 2 right.
  apply list_elem_of_fmap. exists p. rewrite Hpk. split; [done|]. set_solver.
Qed.
(** A package on its way out is closed and freed. *)
Lemma close_free_ok e E N Y p s l w : server_inv e E N Y s l w -> p ∈ N ++ Y ->
  post (close_and_free_socket_package p) (fun _ w' => forall N' Y', N ++ Y ≡ₚ p :: N' ++ Y' -> Y' ⊆ Y ->
    server_inv e E N' Y' s l w') w.
Proof.
  intros Hsi Hp. destruct (server_pack _ _ _ _ _ _ _ p Hsi) as (Hn & pk & Hpk & Hr); [set_solver|].
  destruct Hsi as [Hi Hl Hs Hpe Hv].
  eapply post_close_and_free; [done..|lia|]. intros N' Y' HY Hsub.
  assert (inv (Some e) s l (p :: N' ++ Y') [e] w) as Hi2.
  { eapply inv_moved; try exact Hi; try done; try apply Hi. by rewrite HY. }
  pose proof (inv_nodup _ _ _ _ _ _ Hi2) as Hnd. rewrite <- Permutation_middle in Hnd.
  apply NoDup_cons in Hnd as [Hnotin _].
  assert (forall q, q ∈ items l ++ N' ++ Y' -> delete p (packs w) !! q = packs w !! q) as Hdel.
  { intros q Hq. apply lookup_delete_ne. intros ->. done. }
  split.
  - exact (inv_close _ _ _ _ _ _ _ (inv_release _ _ _ _ _ _ _ _ Hi2 Hpk)).
  - intros q Hq. destruct (Hl q) as (qk & Hqk & Hpar); [set_solver|]. exists qk. split; [|done].
    cbn [set_packs packs put]. change (delete p (packs w) !! q = Some qk). rewrite Hdel by set_solver. done.
  - change (e ∉ watched e (sys_close (socket_of pk) (kern w))). pose proof (close_watches e (socket_of pk) (kern w)). set_solver.
  - intros d Hd. destruct (Hpe d Hd) as (? & ? & ? & Ho). split; [done|]. split; [done|]. split; [done|].
    destruct Ho as [Ho|Ho]; [left|by right]. change (d ∈ fds (sys_close (socket_of pk) (kern w))). rewrite close_closes.
    assert (socket_of pk ∉ E); [|set_solver]. apply (Hv p); [done|]. unfold socket_at. by rewrite Hpk.
  - intros q d Hq Hd. apply (Hv q); [rewrite HY; set_solver|]. unfold socket_at in *.
    change (socket_of <$> delete p (packs w) !! q = Some d) in Hd. rewrite Hdel in Hd by set_solver. done.
Qed.

(** The client's code: it leaves the server and its packages alone, and does not make a descriptor its own whose
    event is still to be handled.  A client that it handles itself is no longer the server's. *)
Context (connected disconnected : C -> ptr -> M W Z).
Context (data_ready : C -> ptr -> option (dlist Z) -> option Z -> M W (Z * option (dlist Z) * option Z)).
Context (data_in : C -> ptr -> option (dlist Z) -> Z -> M W Z).
Definition closes (r : Z) : bool := raised r (Z.lor SCB_RVAL_CLOSE_CLIENT SCB_RVAL_STOP_SERVER).
Definition takes (r : Z) : bool := negb (closes r) && raised r SCB_RVAL_HANDLED.
Context (malloc : W -> option ptr) (room grow : W -> bool) (wait : M W unit).
Record tcp_code : Prop := {
  connected_ok c e E p s l w : server_inv e E [p] [] s l w ->
    (forall d, socket_at w p = Some d -> d ∉ watched e (kern w)) -> post (connected c p) (fun r w' =>
    exists s', tame s s' /\ server_inv e E (if takes r then [] else [p]) [] s' l w') w;
  disconnected_ok c e E p Y s l w : server_inv e E [] (p :: Y) s l w -> post (disconnected c p) (fun _ w' =>
    exists s', tame s s' /\ server_inv e E [] (p :: Y) s' l w') w;
  data_ready_ok c e E p b n s l w : server_inv e E [] [] s l w -> p ∈ items l ->
    post (data_ready c p b n) (fun '(r, _, n') w' => (exists s', tame s s' /\ server_inv e E [] [] s' l w') /\
      socket_at w' p = socket_at w p /\
      (raised r (Z.lor SCB_RVAL_HANDLED SCB_RVAL_CLOSE_CLIENT) = false -> is_Some n')) w;
  data_in_ok c e E p b n s l w : server_inv e E [] [] s l w -> p ∈ items l ->
    post (data_in c p b n) (fun _ w' => (exists s', tame s s' /\ server_inv e E [] [] s' l w') /\
      socket_at w' p = socket_at w p) w;
  tcp_malloc_ok w p : malloc w = Some p -> p <> NULL /\ packs w !! p = None;
  tcp_grow_ok w : grow w = true }.
Hypothesis Hcode : tcp_code.
Hypothesis Hself : self <> NULL.

(** ** Clients that leave *)
Notation remove_client_cb := (remove_client_cb self disconnected).
Lemma server_client_inv e E : client_inv (fun s l Y w => server_inv e E [] Y s l w)
  (fun w p => forall d, socket_at w p = Some d -> d ∉ E).
Proof.
  split; [intros s l Y w [[] _ _ _ _]; done|]. intros s l Y w l' Y' [Hi Hl Hs Hp Hv] Hl' HY HL. split; try done.
  - by apply (ci_moved _ _ (inv_client_inv (Some e) [e]) s l ([] ++ Y)); auto.
  - intros p Hpin. apply Hl. rewrite <- HY. done.
  - intros p d Hpin Hd. destruct (HL p Hpin) as [?|HLp]; [by apply (Hv p)|]. by apply HLp.
Qed.
Lemma remove_client_ok e E : frees_packages remove_client_cb (fun s l Y w => server_inv e E [] Y s l w) tame.
Proof.
  intros s l Y p w Hsi. destruct (si_linked _ _ _ _ _ _ _ Hsi p) as (pk & Hpk & Hpar); [set_solver|].
  destruct (server_pack _ _ _ _ _ _ _ p Hsi) as (Hn & _); [set_solver|].
  unfold TcpServer.remove_client_cb. apply post_bind. eapply post_load; [done..|]. rewrite Hpar.
  rewrite (proj2 (Z.eqb_neq _ _)), Z.eqb_refl by done. cbn [negb].
  assert (Hclose : forall s1 w1, tame s s1 -> server_inv e E [] (p :: Y) s1 l w1 -> post (close_and_free_socket_package p)
    (fun _ w' => exists s', tame s s' /\ server_inv e E [] Y s' l w') w1).
  { intros s1 w1 Ht Hsi1. eapply post_mono; [eapply close_free_ok; [exact Hsi1|set_solver]|cbv beta].
    intros _ w2 Hw2. exists s1. split; [done|]. apply Hw2; [done|set_solver]. }
  apply post_bind. eapply server_get; [exact Hsi|]. apply post_bind.
  destruct (client_disconnected s) as [c|]; [|apply post_ret; by apply (Hclose s)].
  apply post_bind. eapply post_mono; [by apply (disconnected_ok Hcode)|cbv beta]. intros rval w1 (s1 & Ht & Hsi1).
  apply post_when; intros _; [|by apply (Hclose s1)].
  apply post_bind. eapply server_get; [exact Hsi1|]. apply post_bind, post_sys. cbn [fst snd].
  eapply post_set; [apply (si_inv _ _ _ _ _ _ _ Hsi1)|]. apply (Hclose (set_sock (-1) s1)).
  - etrans; [exact Ht|]. split; [by right|done|done].
  - by apply server_close_sock.
Qed.

(** ** The loop's variables *)
(** [T]: the array of events. *)
Record lo_ok (e : Z) (T : dlist epoll_event) (s : TcpServer C) (lo : locals) : Prop := {
  lo_efd : efd (ep lo) = e;
  lo_mutex : mutex (ep lo) = false;
  lo_len : te_len (ep lo) = DEFAULT_BACKLOG_SIZE;
  lo_events : triggered_events (ep lo) = T;
  lo_user_data : EpollPack.free_user_data (ep lo) = false;
  lo_buff : client_data_ready s = None -> exists b, data_in_buff lo = Some b /\ blen b = DEFAULT_INPUT_BUFF_SIZE }.
Lemma lo_tame e T s s' lo : lo_ok e T s lo -> tame s s' -> lo_ok e T s' lo.
Proof. intros [? ? ? ? ? Hb] [_ Hr _]. split; try done. by rewrite Hr. Qed.
(** An event has been served. *)
Definition served (e : Z) (T : dlist epoll_event) (E : dlist Z) (s : TcpServer C) (lo : locals) (w : W) : Prop :=
  exists s' l, tame s s' /\ lo_ok e T s' lo /\ server_inv e E [] [] s' l w.
Lemma served_mono e T E s s1 lo w : tame s s1 -> served e T E s1 lo w -> served e T E s lo w.
Proof. intros Ht (s' & l & Ht' & H'). exists s', l. split; [by etrans|done]. Qed.
Lemma served_same e T E s l lo w : lo_ok e T s lo -> server_inv e E [] [] s l w -> served e T E s lo w.
Proof. intros Hlo Hsi. by exists s, l. Qed.

Lemma set_flag_ok (f : Z -> Z) e E N Y s l w : server_inv e E N Y s l w ->
  (forall m, Z.land (f (flag_pole s)) m = 0 \/ Z.land (flag_pole s) m <> 0 \/ m <> Z.lor OBJECT_DELETE_STATE THREAD_IS_RUNNING) ->
  let s' := set_flag_pole (f (flag_pole s)) s in tame s s' /\ server_inv e E N Y s' l (set_object (Some s') w).
Proof.
  intros Hsi Hf. split; [split; [by left|done|]|by eapply server_field].
  unfold quiet. cbn [flag_pole set_flag_pole]. intros Hq. destruct (Hf (Z.lor OBJECT_DELETE_STATE THREAD_IS_RUNNING)) as [?|[?|?]]; done.
Qed.
Lemma raise_callback e E N Y s l w : server_inv e E N Y s l w ->
  let s' := set_flag_pole (flag_raise (flag_pole s) OBJECT_CALLBACK_STATE) s in
  tame s s' /\ server_inv e E N Y s' l (set_object (Some s') w).
Proof.
  intros Hsi. apply (set_flag_ok (fun fp => flag_raise fp OBJECT_CALLBACK_STATE)); [done|]. intros m.
  destruct (decide (m = Z.lor OBJECT_DELETE_STATE THREAD_IS_RUNNING)) as [->|]; [|auto].
  destruct (decide (Z.land (flag_pole s) (Z.lor OBJECT_DELETE_STATE THREAD_IS_RUNNING) = 0)); [|auto].
  left. by apply raise_clear.
Qed.
Lemma lower_any f e E N Y s l w : server_inv e E N Y s l w ->
  let s' := set_flag_pole (flag_lower (flag_pole s) f) s in
  tame s s' /\ server_inv e E N Y s' l (set_object (Some s') w).
Proof.
  intros Hsi. apply (set_flag_ok (fun fp => flag_lower fp f)); [done|]. intros m.
  destruct (decide (Z.land (flag_pole s) m = 0)); [left; by apply lower_clear|auto].
Qed.
(** A callback, between the two changes of the flag. *)
Lemma in_callback_ok {A} (m : M W A) (N2 : A -> dlist ptr) (P : A -> gmap Z socket_package -> Prop) e E N Y s l w :
  server_inv e E N Y s l w ->
  (forall s1 w1, server_inv e E N Y s1 l w1 -> packs w1 = packs w -> kern w1 = kern w ->
    post m (fun a w2 => (exists s2, tame s1 s2 /\ server_inv e E (N2 a) Y s2 l w2) /\ P a (packs w2)) w1) ->
  post (in_callback m) (fun a w3 => (exists s3, tame s s3 /\ server_inv e E (N2 a) Y s3 l w3) /\ P a (packs w3)) w.
Proof.
  intros Hsi Hm. unfold in_callback. apply post_bind. unfold raise_server.
  eapply post_set; [apply (si_inv _ _ _ _ _ _ _ Hsi)|]. destruct (raise_callback _ _ _ _ _ _ _ Hsi) as [Ht1 Hsi1].
  apply post_bind. eapply post_mono; [by apply (Hm _ _ Hsi1)|cbv beta]. intros a w2 ((s2 & Ht2 & Hsi2) & HP).
  apply post_bind. unfold lower_server. eapply post_set; [apply (si_inv _ _ _ _ _ _ _ Hsi2)|].
  destruct (lower_any OBJECT_CALLBACK_STATE _ _ _ _ _ _ _ Hsi2) as [Ht3 Hsi3]. apply post_ret.
  split; [|done]. eexists. split; [|exact Hsi3]. etrans; [exact Ht1|]. etrans; [exact Ht2|exact Ht3].
Qed.
Lemma not_deleted {A} (m1 m2 : M W A) e E N Y s l w Q : server_inv e E N Y s l w -> quiet s -> post m2 Q w ->
  post (deleted ← server_flag OBJECT_DELETE_STATE; if deleted : bool then m1 else m2) Q w.
Proof.
  intros Hsi Hq Hm. apply post_bind. unfold server_flag. apply post_bind. eapply server_get; [exact Hsi|]. apply post_ret.
  by rewrite quiet_deleted.
Qed.

(** A client that the epoll instance refuses loses its package, but its descriptor stays open. *)
Lemma refused_client_leaks p pk lo w : p <> NULL -> packs w !! p = Some pk -> 0 <= socket_of pk -> mutex (ep lo) = false ->
  (sys_epoll_add (efd (ep lo)) EPOLLIN (socket_of pk) (kern w)).1 < 0 ->
  post (add_client self disconnected grow p lo) (fun '(r, _) w' => r = None /\ packs w' = delete p (packs w) /\
    fds (kern w') = fds (kern w)) w.
Proof.
  intros Hn Hpk Hr Hm Hfail. unfold add_client. apply post_bind. eapply post_load; [done..|]. apply post_bind.
  unfold EpollPack_add_sock. change (ServerState.sock pk) with (socket_of pk). rewrite (proj2 (Z.ltb_ge _ _)) by done.
  unfold EpollPack_lock. rewrite Hm. apply post_bind, post_bind, post_emit, post_ret. apply post_bind, post_sys.
  cbn [efd EpollPack.set_mod_event EpollPack.set_mutex]. unfold EpollPack_unlock.
  apply post_bind, post_bind, post_emit, post_ret, post_ret. rewrite (proj2 (Z.ltb_lt _ _)) by done.
  apply post_bind. unfold free_socket_package. rewrite (proj2 (Z.eqb_neq _ _)) by done. apply post_bind.
  eapply post_load; [done..|]. apply post_bind. apply post_when; intros _; [apply post_emit|];
    (eapply post_release; [done..|]; apply post_ret; split; [done|]; split; [done|]; apply epoll_add_opens).
Qed.

(** ** A client that connects *)
(** The epoll instance watches every open descriptor it is given ([refused_client_leaks] says why that matters). *)
Hypothesis Hadd : forall e m d k, e ∈ fds k -> d ∈ fds k -> (sys_epoll_add e m d k).1 = 0.
Lemma server_watch e E N Y s l w m d : server_inv e E N Y s l w -> d ∈ listening s ++ socks (packs w) (items l ++ N ++ Y) ->
  server_inv e E N Y s l (set_kern (sys_epoll_add e m d (kern w)).2 w).
Proof.
  intros [Hi Hl Hs Hp Hv] Hd.
  assert (d <> e) as Hne.
  { intros ->. pose proof (holds_nodup _ _ _ (inv_holds _ _ _ _ _ _ Hi)) as Hn. cbn [app] in Hn.
    rewrite <- Permutation_middle in Hn. apply NoDup_cons in Hn as [Hn _]. apply Hn. pose proof (listening_base s e). set_solver. }
  pose proof (epoll_add_opens e m d (kern w)) as Hf. pose proof (epoll_add_watches e e m d (kern w)) as Hw.
  rewrite Z.eqb_refl in Hw. split; try done.
  - destruct Hi as [Ho Hc Hlist Hn Hnn Hpk Hh Hwa]. split; cbn [set_kern object packs kern user]; try done.
    + by eapply holds_fds_same.
    + intros x Hx%Hw. destruct (0 <=? _); set_solver.
  - cbn. destruct (0 <=? _); set_solver.
  - intros x Hx. cbn [set_kern kern]. rewrite Hf. by apply Hp.
Qed.
Lemma add_sock_ok (d : Z) e T E N Y s l w s0 lo (Q : Z * option EpollPack -> W -> Prop) : server_inv e E N Y s l w -> lo_ok e T s0 lo ->
  d ∈ listening s ++ socks (packs w) (items l ++ N ++ Y) ->
  (forall w' p', server_inv e E N Y s l w' -> packs w' = packs w -> lo_ok e T s0 (set_ep p' lo) ->
    EpollPack.user_data p' = EpollPack.user_data (ep lo) -> Q (0, Some p') w') ->
  post (EpollPack_add_sock (Some (ep lo)) EPOLLIN d) Q w.
Proof.
  intros Hsi Hlo Hd HQ. unfold EpollPack_add_sock.
  assert (0 <= d) as Hpos.
  { assert (0 <= d < 2 ^ 31); [|lia]. eapply holds_member; [apply (si_inv _ _ _ _ _ _ _ Hsi)|].
    pose proof (listening_base s d). set_solver. }
  rewrite (proj2 (Z.ltb_ge _ _)) by lia. apply post_bind. unfold EpollPack_lock. rewrite (lo_mutex _ _ _ _ Hlo).
  apply post_bind, post_emit, post_ret. apply post_bind, post_sys. cbn [efd EpollPack.set_mod_event EpollPack.set_mutex].
  assert (e ∈ fds (kern w)) as He.
  { rewrite (holds_fds _ _ _ (inv_holds _ _ _ _ _ _ (si_inv _ _ _ _ _ _ _ Hsi))). set_solver. }
  assert (d ∈ fds (kern w)) as Hin.
  { rewrite (holds_fds _ _ _ (inv_holds _ _ _ _ _ _ (si_inv _ _ _ _ _ _ _ Hsi))). pose proof (listening_base s d). set_solver. }
  rewrite (lo_efd _ _ _ _ Hlo), Hadd by done. unfold EpollPack_unlock. apply post_bind, post_bind, post_emit, post_ret, post_ret.
  apply HQ; [by apply server_watch|done| |done]. destruct Hlo. by split.
Qed.
Lemma add_clients_ok p e E s l w : server_inv e E [p] [] s l w -> (exists pk, packs w !! p = Some pk /\ parent pk = self) ->
  exists l', post (on_list remove_client_cb (ArrayList_add true p))
    (fun r w' => r = 1 /\ server_inv e E [] [] (set_client_list (Some l') s) l' w') w.
Proof.
  intros Hsi Hpar. destruct (server_pack _ _ _ _ _ _ _ p Hsi) as (Hn & _); [set_solver|].
  pose proof (holds_length _ _ _ (inv_holds _ _ _ _ _ _ (si_inv _ _ _ _ _ _ _ Hsi))) as Hlen. unfold socks in Hlen.
  rewrite !length_app, length_fmap, length_app in Hlen. cbn [length app] in Hlen. destruct Hsi as [Hi Hl Hs Hp Hv].
  destruct (add_client_list l p) as (l' & E1 & Hl' & Hit); [apply Hi|done|unfold blen; lia|]. exists l'.
  assert (object w = Some s) as Hthis by apply Hi. assert (clients s = Some l) as Hcl by apply Hi.
  unfold on_list. apply post_bind. eapply post_get; [done|]. apply post_bind. rewrite Hcl, E1.
  eapply post_lift; [done|]. apply post_bind. eapply post_set; [done|]. apply post_bind, post_ret, post_ret.
  split; [done|]. split; try done; [| |by intros q d ?%elem_of_nil].
  - eapply inv_moved; try exact Hi; try done. rewrite Hit. rewrite app_nil_r. by rewrite Permutation_app_comm.
  - intros q. rewrite app_nil_r, Hit. intros [->|Hq]%elem_of_cons; [done|]. apply Hl. set_solver.
Qed.

(** A descriptor is accepted, and closed again or put into a package. *)
Lemma accepted_ok e E s l w r k : server_inv e E [] [] s l w -> -1 < sock s -> opened (fds (kern w)) (fds k) r -> 0 <= r ->
  (forall x, watched x k = watched x (kern w)) -> r ∉ E /\ inv (Some e) s l [] [r; e] (set_kern k w) /\
  server_inv e E [] [] s l (set_kern (sys_close r k) w).
Proof.
  intros [Hi Hl Hs Hp Hv] Hsock Hop Hr Hwa. assert (inv (Some e) s l [] [r; e] (set_kern k w)) as Hi2.
  { eapply inv_opened; done. }
  assert (r ∉ fds (kern w) /\ fds k = {[r]} ∪ fds (kern w)) as [Hnew Hf] by (destruct Hop as [[??]|(_ & ? & ?)]; [lia|done]).
  assert (r ∉ E) as HrE.
  { intros Hin. destruct (Hp r Hin) as (_ & _ & _ & [?|?]); [done|lia]. }
  split; [done|]. split; [done|]. split; try done.
  - exact (inv_close _ _ _ _ _ _ _ Hi2).
  - cbn. pose proof (close_watches e r k). rewrite Hwa in *. set_solver.
  - intros d Hd. destruct (Hp d Hd) as (? & ? & ? & Ho). split; [done|]. split; [done|]. split; [done|].
    destruct Ho as [Ho|Ho]; [left|by right]. cbn [set_kern kern]. rewrite close_closes, Hf.
    assert (d <> r) by congruence. set_solver.
Qed.
Lemma packaged_ok e E s l w r k p : server_inv e E [] [] s l w -> -1 < sock s -> opened (fds (kern w)) (fds k) r -> 0 <= r ->
  (forall x, watched x k = watched x (kern w)) -> p <> NULL -> packs w !! p = None ->
  server_inv e E [p] [] s l (set_packs (<[p := mkPackage r NULL false NULL]> (packs w)) (set_kern k w)).
Proof.
  intros Hsi Hsock Hop Hr Hwa Hn Hfresh. destruct (accepted_ok _ _ _ _ _ _ _ Hsi Hsock Hop Hr Hwa) as (HrE & Hi2 & _).
  destruct Hsi as [Hi Hl Hs Hp Hv].
  pose proof (inv_alloc _ _ _ _ _ _ p (mkPackage r NULL false NULL) Hi2 Hn Hfresh) as Hi3. split; try done.
  - intros q Hq. destruct (Hl q) as (qk & Hqk & Hpar); [set_solver|]. exists qk. split; [|done].
    cbn [set_packs packs]. rewrite lookup_insert_ne; [done|]. intros ->. cbn in *. congruence.
  - cbn. by rewrite Hwa.
  - intros d Hd. destruct (Hp d Hd) as (? & ? & ? & Ho). split; [done|]. split; [done|]. split; [done|].
    destruct Ho as [Ho|Ho]; [left|by right]. cbn [set_packs set_kern kern]. destruct Hop as [[??]|(_ & _ & ->)]; [lia|set_solver].
  - intros q d Hq Hd. assert (q = p) as -> by set_solver. unfold socket_at in Hd. cbn [set_packs packs] in Hd.
    rewrite lookup_insert_eq in Hd. cbn in Hd. by injection Hd as <-.
Qed.

Section loop.
Variables (e : Z) (T : dlist epoll_event).
Lemma tcp_add_client_ok E p s l w lo : server_inv e E [p] [] s l w -> lo_ok e T s lo ->
  post (add_client self disconnected grow p lo) (fun '(r, lo') w' => served e T E s lo' w') w.
Proof.
  intros Hsi Hlo. destruct (server_pack _ _ _ _ _ _ _ p Hsi) as (Hn & pk & Hpk & Hr); [set_solver|].
  unfold add_client. apply post_bind. eapply post_load; [done..|]. apply post_bind.
  eapply add_sock_ok; [exact Hsi|exact Hlo| |].
  { rewrite elem_of_app. right. apply list_elem_of_fmap. exists p. rewrite Hpk. split; [done|set_solver]. }
  intros w1 pk1 Hsi1 Hpacks Hlo1 _. cbn [Z.ltb Z.compare]. change (0 <? 0) with false. cbv iota. rewrite <- Hpacks in Hpk.
  set (w2 := set_packs (<[p := set_parent self pk]> (packs w1)) w1).
  assert (server_inv e E [p] [] s l w2) as Hsi2.
  { destruct Hsi1 as [Hi Hl Hs Hp Hv]. assert (forall q, socket_at w2 q = socket_at w1 q) as Hsock.
    { intros q. unfold socket_at, w2. cbn [set_packs packs]. destruct (decide (q = p)) as [->|Hne].
      - by rewrite lookup_insert_eq, Hpk.
      - by rewrite lookup_insert_ne. }
    assert (socks (packs w2) (items l ++ [p]) = socks (packs w1) (items l ++ [p])) as Hsocks.
    { apply list_fmap_ext. intros _ q _. specialize (Hsock q). unfold socket_at in Hsock.
      destruct (packs w2 !! q), (packs w1 !! q); cbn in Hsock; congruence. }
    destruct Hi as [Ho Hc Hlist Hnd Hnn Hpk' Hh Hw]. split; [split|..]; try done.
    - intros q. rewrite <- Hpk'. unfold w2. cbn [set_packs packs]. destruct (decide (q = p)) as [->|Hne].
      + rewrite lookup_insert_eq, Hpk. done.
      + by rewrite lookup_insert_ne.
    - rewrite app_nil_r in *. by rewrite Hsocks.
    - rewrite app_nil_r in *. by rewrite Hsocks.
    - intros q Hq. destruct (Hl q Hq) as (qk & Hqk & Hpar). unfold w2. cbn [set_packs packs].
      destruct (decide (q = p)) as [->|Hne]; [rewrite lookup_insert_eq; by eexists|].
      rewrite lookup_insert_ne by done. by eexists.
    - intros q d Hq. rewrite Hsock. by apply Hv. }
  apply post_bind. exists tt, w2, []. split; [exact (update_ok (A := socket_package) p (set_parent self) w1 pk Hn Hpk)|].
  apply post_bind, post_gets. rewrite (tcp_grow_ok Hcode). apply post_bind.
  destruct (add_clients_ok p e E s l w2 Hsi2) as (l' & Hpost).
  { exists (set_parent self pk). split; [|done]. unfold w2. cbn [set_packs packs]. by rewrite lookup_insert_eq. }
  eapply post_mono; [exact Hpost|cbv beta]. intros a w3 (-> & Hsi3). cbn [Z.eqb]. apply post_ret.
  exists (set_client_list (Some l') s), l'. split; [by split; [left|..]|]. split; [|done]. destruct Hlo1. by split.
Qed.
Lemma tcp_accept_client_ok E s l w lo : server_inv e E [] [] s l w -> lo_ok e T s lo -> quiet s -> -1 < sock s ->
  post (accept_client self connected disconnected malloc grow lo) (fun '(r, lo') w' => served e T E s lo' w') w.
Proof.
  intros Hsi Hlo Hq Hsock. unfold accept_client. apply post_bind. eapply server_get; [exact Hsi|].
  apply post_bind, post_sys. pose proof (accept_opens (sock s) (kern w)) as Hop.
  pose proof (fun x => accept_watches x (sock s) (kern w)) as Hwa. destruct (sys_accept (sock s) (kern w)) as [r k'].
  cbn [fst snd] in *. apply post_if; intros Hr.
  { apply Z.ltb_lt in Hr. apply post_ret. eapply served_same; [done|]. apply server_kern; [done| |by rewrite Hwa].
    by destruct Hop as [[_ ?]|[? _]]; [|lia]. }
  apply Z.ltb_ge in Hr. apply post_bind, post_gets. unfold new_socket_package, alloc.
  destruct (malloc (set_kern k' w)) as [p|] eqn:Em.
  2: { apply post_bind, post_ret. rewrite Z.eqb_refl. apply post_bind, post_sys, post_ret.
       eapply served_same; [done|]. exact (proj2 (proj2 (accepted_ok _ _ _ _ _ _ _ Hsi Hsock Hop Hr Hwa))). }
  destruct (tcp_malloc_ok Hcode _ _ Em) as [Hn Hfresh].
  pose proof (packaged_ok _ _ _ _ _ _ _ p Hsi Hsock Hop Hr Hwa Hn Hfresh) as Hsi1.
  set (w1 := set_packs (<[p:=mkPackage r NULL false NULL]> (packs w)) (set_kern k' w)) in *.
  assert (forall d, socket_at w1 p = Some d -> d ∉ watched e (kern w1)) as Hnew.
  { intros d. unfold socket_at, w1. cbn [set_packs packs set_kern kern]. rewrite lookup_insert_eq, Hwa. cbn. intros [= <-] Hin.
    apply (inv_watched _ _ _ _ _ _ (si_inv _ _ _ _ _ _ _ Hsi)) in Hin. destruct Hop as [[??]|(_ & ? & _)]; [lia|done]. }
  apply post_bind, post_bind, post_modify, post_ret. rewrite (proj2 (Z.eqb_neq p NULL)) by done.
  change (put (<[p:=mkPackage r NULL false NULL]> (objs (set_kern k' w))) (set_kern k' w)) with w1.
  revert Hsi1 Hnew. generalize w1. clear w1. intros w1 Hsi1 Hnew.
  apply post_bind. eapply server_get; [exact Hsi1|]. destruct (client_connected s) as [c|]; [|by eapply tcp_add_client_ok].
  apply post_bind. eapply post_mono; [eapply (in_callback_ok _ (fun r => if takes r then [] else [p]) (fun _ _ => True));
    [exact Hsi1|]|].
  { intros s1 w2 Hsi2 Hpk Hk. eapply post_mono; [apply (connected_ok Hcode); [done|]|intros ? ? ?; by split].
    intros d. unfold socket_at. rewrite Hpk, Hk. apply Hnew. }
  cbv beta. intros rval w2 ((s2 & Ht & Hsi2) & _). assert (lo_ok e T s2 lo) as Hlo2 by by eapply lo_tame.
  eapply not_deleted; [exact Hsi2|by apply Ht|]. fold (closes rval).
  assert (Hdone : forall w3 (r' : option Z), server_inv e E [] [] s2 l w3 ->
    post (mret (r', lo)) (fun '(_, lo') w' => served e T E s lo' w') w3).
  { intros w3 r' Hsi3. apply post_ret. eapply served_mono; [exact Ht|]. by eapply served_same. }
  unfold takes in Hsi2. apply post_bind. apply post_when; intros Hc; rewrite Hc in *; cbn [negb andb] in *.
  - eapply post_mono; [eapply close_free_ok; [exact Hsi2|set_solver]|cbv beta]. intros _ w3 Hw3.
    assert (server_inv e E [] [] s2 l w3) as Hsi3 by by apply Hw3.
    apply post_if; intros _; [by apply Hdone|]. rewrite orb_true_r. by apply Hdone.
  - rewrite orb_false_r. apply post_if; intros Hst.
    { unfold closes in Hc. by rewrite raised_lor, Hst, orb_true_r in Hc. }
    destruct (raised rval SCB_RVAL_HANDLED); [by apply Hdone|].
    eapply post_mono; [by eapply tcp_add_client_ok|]. intros [r' lo'] w3 Hw3. by eapply served_mono.
Qed.

(** ** A client that sends *)
Lemma remove_clients_one E p s l w : server_inv e E [] [] s l w -> p ∈ items l -> (forall d, socket_at w p = Some d -> d ∉ E) ->
  post (remove_client self disconnected p) (fun _ w' => exists s' l', tame s s' /\ server_inv e E [] [] s' l' w') w.
Proof.
  intros Hsi Hp HE. destruct (server_pack _ _ _ _ _ _ _ p Hsi) as (Hn & _); [set_solver|]. unfold remove_client.
  eapply post_mono; [eapply (remove_clients_ok _ _ _ (server_client_inv e E) tame); [apply remove_client_ok|exact Hsi|done|by left|exact HE]|].
  intros _ w1 (s1 & l1 & Ht & Hsi1 & _). exists s1, l1. split; [|done]. etrans; [|exact Ht]. by split; [left|..].
Qed.
Lemma post_remove {A} E p (r : A) lo b s l w : server_inv e E [] [] s l w -> lo_ok e T s lo -> p ∈ items l ->
  (forall d, socket_at w p = Some d -> d ∉ E) ->
  post (when b (remove_client self disconnected p);; mret (r, lo)) (fun '(_, lo') w' => served e T E s lo' w') w.
Proof.
  intros Hsi Hlo Hp HE. apply post_bind, post_when; intros _; [|by apply post_ret, (served_same _ _ _ _ l)].
  eapply post_mono; [by eapply remove_clients_one|cbv beta]. intros _ w1 (s1 & l1 & Ht & Hsi1). apply post_ret.
  exists s1, l1. split; [done|]. split; [by eapply lo_tame|done].
Qed.
Lemma receive_ok E d s l w lo : server_inv e E [] [] s l w -> lo_ok e T s lo -> client_data_ready s = None ->
  post (receive d lo) (fun lo' w' => server_inv e E [] [] s l w' /\ lo_ok e T s lo' /\ packs w' = packs w /\
    is_Some (data_in_count lo')) w.
Proof.
  intros Hsi Hlo Hr. destruct (lo_buff _ _ _ _ Hlo Hr) as (b & Hb & Hlen). unfold receive. rewrite Hb.
  apply post_bind, post_sys. pose proof (recv_opens d DEFAULT_INPUT_BUFF_SIZE (kern w)) as Hf.
  pose proof (recv_watches e d DEFAULT_INPUT_BUFF_SIZE (kern w)) as Hw.
  pose proof (recv_fits d DEFAULT_INPUT_BUFF_SIZE (kern w)) as Hfit.
  destruct (sys_recv d DEFAULT_INPUT_BUFF_SIZE (kern w)) as [[n data] k']. cbn [fst snd] in *. apply post_bind.
  assert (server_inv e E [] [] s l (set_kern k' w)) as Hsi1 by (apply server_kern; [done|done|by rewrite Hw]).
  destruct (received_fits b data n Hlen Hfit) as (b' & E1 & Hb').
  eapply post_lift; [exact E1|]. apply post_ret. split; [done|]. split; [|by split; [|eexists]].
  destruct Hlo. split; try done. intros _. by exists b'.
Qed.
Lemma data_received_ok E p s l w lo : server_inv e E [] [] s l w -> lo_ok e T s lo -> quiet s -> p ∈ items l ->
  (forall d, socket_at w p = Some d -> d ∉ E) -> is_Some (data_in_count lo) ->
  post (data_received self disconnected data_in p lo) (fun '(_, lo') w' => served e T E s lo' w') w.
Proof.
  intros Hsi Hlo Hq Hp HE [n Hn]. unfold data_received. rewrite Hn. apply post_bind. eapply post_lift; [done|].
  apply post_if; intros _; [by apply (post_remove E p (None : option Z) lo true s l)|].
  apply post_bind. eapply server_get; [exact Hsi|]. destruct (client_data_in s) as [c|]; [|by apply post_ret, (served_same _ _ _ _ l)].
  apply post_bind. eapply post_mono; [eapply (in_callback_ok _ (fun _ => []) (fun _ m => socket_of <$> m !! p = socket_at w p));
    [exact Hsi|]|].
  { intros s1 w2 Hsi2 Hpk _. eapply post_mono; [by apply (data_in_ok Hcode)|cbv beta]. intros r w3 (Hw3 & Hsame). split; [done|].
    unfold socket_at in *. by rewrite <- Hpk. }
  cbv beta. intros rval w2 ((s2 & Ht & Hsi2) & Hsame). eapply not_deleted; [exact Hsi2|by apply Ht|].
  assert (post (when (raised rval SCB_RVAL_CLOSE_CLIENT) (remove_client self disconnected p);;
    mret (if raised rval SCB_RVAL_STOP_SERVER then Some ALIB_OK else None, lo)) (fun '(_, lo') w' => served e T E s2 lo' w') w2) as Hpost.
  { apply (post_remove E p _ lo _ s2 l); [done|by eapply lo_tame|done|]. intros d. unfold socket_at at 1. rewrite Hsame. apply HE. }
  eapply post_mono; [exact Hpost|]. intros [r lo'] w3 Hw3. by eapply served_mono.
Qed.
Lemma tcp_client_event_ok E d s l w lo : server_inv e E [] [] s l w -> lo_ok e T s lo -> quiet s ->
  0 <= d < 2 ^ 31 -> d ∉ kept (user w) -> d <> e -> d <> sock s -> d ∉ E ->
  post (client_event self disconnected data_ready data_in d lo) (fun '(_, lo') w' => served e T E s lo' w') w.
Proof.
  intros Hsi Hlo Hq Hr Hkept He Hsock HE. unfold client_event. apply post_bind.
  pose proof (si_inv _ _ _ _ _ _ _ Hsi) as Hi. destruct (find_client_run remove_client_cb _ _ _ _ _ _ d Hi Hr) as (t & Ef).
  exists (found (packs w) l d), w, t. split; [exact Ef|]. clear Ef t.
  destruct (decide (d ∈ socks (packs w) (items l))) as [Hin|Hout]; cycle 1.
  { rewrite (found_out _ _ _ _ _ _ _ Hi Hr Hout), Z.eqb_refl. apply post_bind, post_sys, post_ret. cbn [fst snd].
    eapply served_same; [done|]. apply server_kern; [done| |].
    - rewrite close_closes. assert (d ∉ fds (kern w)); [|set_solver].
      rewrite (holds_fds _ _ _ (inv_holds _ _ _ _ _ _ Hi)), tcp_base, elem_of_union, elem_of_list_to_set.
      intros [Hd|Hd]; [|done]. cbn [app] in Hd. rewrite app_nil_r in Hd. destruct (-1 <? sock s); set_solver.
    - pose proof (close_watches e d (kern w)). set_solver. }
  destruct (found_in _ _ _ _ _ _ _ Hi Hr Hin) as (Hp & pk & Hpk & Hd). revert Hp Hpk.
  generalize (found (packs w) l d). intros p Hp Hpk.
  destruct (server_pack _ _ _ _ _ _ _ p Hsi) as (Hn & _); [set_solver|]. rewrite (proj2 (Z.eqb_neq _ _)) by done.
  assert (HEp : forall x, socket_at w p = Some x -> x ∉ E).
  { intros x. unfold socket_at. rewrite Hpk. cbn. intros [= <-]. by rewrite Hd. }
  apply post_bind. eapply server_get; [exact Hsi|]. destruct (client_data_ready s) as [c|] eqn:Ec; cycle 1.
  { apply post_bind. eapply post_load; [done..|]. apply post_bind. eapply post_mono; [by eapply receive_ok|cbv beta].
    intros lo1 w1 (Hsi1 & Hlo1 & Hpacks & Hcount). eapply data_received_ok; try done. unfold socket_at. by rewrite Hpacks. }
  apply post_bind. eapply post_mono; [eapply (in_callback_ok _ (fun _ => []) (fun '(r, _, n) m =>
    socket_of <$> m !! p = socket_at w p /\ (raised r (Z.lor SCB_RVAL_HANDLED SCB_RVAL_CLOSE_CLIENT) = false -> is_Some n)));
    [exact Hsi|]|].
  { intros s1 w2 Hsi2 Hpk2 _. eapply post_mono; [by apply (data_ready_ok Hcode)|cbv beta].
    intros [[r b] n] w3 (Hw3 & Hsame & Hcount). split; [done|]. split; [|done]. unfold socket_at in *. by rewrite <- Hpk2. }
  cbv beta. intros [[rval b] n] w2 ((s2 & Ht & Hsi2) & Hsame & Hcount). cbv beta iota.
  assert (lo_ok e T s2 (set_data b n lo)) as Hlo2.
  { destruct Hlo. split; try done. intros Hnone. rewrite (tame_ready _ _ Ht), Ec in Hnone. done. }
  assert (HEp2 : forall x, socket_at w2 p = Some x -> x ∉ E) by (intros x; unfold socket_at at 1; rewrite Hsame; apply HEp).
  assert (Hmono : forall m : M W (option Z * locals), post m (fun '(_, lo') w' => served e T E s2 lo' w') w2 ->
    post m (fun '(_, lo') w' => served e T E s lo' w') w2).
  { intros m Hm. eapply post_mono; [exact Hm|]. intros [r' lo'] w3 Hw3. by eapply served_mono. }
  eapply not_deleted; [exact Hsi2|by apply Ht|]. apply Hmono.
  destruct (raised rval SCB_RVAL_CLOSE_CLIENT) eqn:Ecl.
  - apply post_bind. eapply post_mono; [by eapply remove_clients_one|cbv beta]. intros _ w3 (s3 & l3 & Ht3 & Hsi3).
    rewrite raised_lor, Ecl, orb_true_r.
    assert (served e T E s2 (set_data b n lo) w3) as Hsv by (exists s3, l3; split; [done|]; split; [by eapply lo_tame|done]).
    by apply post_if; intros _; apply post_ret.
  - apply post_bind, post_ret. assert (served e T E s2 (set_data b n lo) w2) as Hsv by by eapply served_same.
    apply post_if; intros _; [by apply post_ret|]. apply post_if; intros Hh; [by apply post_ret|].
    eapply data_received_ok; try done. + by apply Ht. + by apply Hcount.
Qed.
End loop.

(** ** A turn *)
Notation handle_events := (handle_events self connected disconnected data_ready data_in malloc grow).
Lemma handle_events_ok e T n : forall i lo s l w, 0 <= i -> (Z.to_nat i + n <= length T)%nat -> let E := ev_fd <$> take n (drop (Z.to_nat i) T) in
  NoDup E -> server_inv e E [] [] s l w -> lo_ok e T s lo -> quiet s ->
  post (handle_events n i lo) (fun '(_, lo') w' => served e T [] s lo' w') w.
Proof.
  induction n as [|n IH]; intros i lo s l w Hi Hlen E Hnd Hsi Hlo Hq; [by apply post_ret, (served_same _ _ _ _ l)|].
  destruct (lookup_lt_is_Some_2 T (Z.to_nat i)) as [ev Hev]; [lia|]. subst E.
  rewrite (drop_S _ _ _ Hev) in Hnd, Hsi. cbn [firstn fmap list_fmap] in Hnd, Hsi.
  replace (S (Z.to_nat i)) with (Z.to_nat (i + 1)) in * by lia.
  set (E := ev_fd <$> take n (drop (Z.to_nat (i + 1)) T)) in *. change (list_fmap epoll_event Z ev_fd) with (fmap (M := list) ev_fd) in *.
  apply NoDup_cons in Hnd as [Hni Hnd].
  destruct (si_pending _ _ _ _ _ _ _ Hsi (ev_fd ev)) as (Hr & Hk & He & Ho); [set_solver|].
  assert (server_inv e E [] [] s l w) as Hsi1.
  { destruct Hsi as [Hinv Hl Hs Hp Hv]. split; try done. - intros d Hd. apply Hp. set_solver. - intros p d []%elem_of_nil. }
  cbn [TcpServer.handle_events]. apply post_bind. rewrite (lo_events _ _ _ _ Hlo : EpollPack_get_triggered_events (ep lo) = T).
  eapply post_lift; [by apply blk_load_ok|]. apply post_bind. eapply server_get; [exact Hsi1|]. apply post_bind.
  apply post_mono with (P := fun '(_, lo') w' => served e T E s lo' w').
  - destruct (Z.eqb_spec (ev_fd ev) (sock s)) as [Heq|Hne].
    + eapply tcp_accept_client_ok; try done. lia.
    + by eapply tcp_client_event_ok.
  - intros [[r|] lo1] w1 (s1 & l1 & Ht & Hlo1 & Hsi2).
    + apply post_ret. exists s1, l1. split; [done|]. split; [done|]. destruct Hsi2 as [Hinv Hl Hs Hp Hv].
      split; try done. * by intros d ?%elem_of_nil. * by intros p d ?%elem_of_nil.
    + eapply post_mono; [eapply (IH (i + 1) lo1 s1 l1); [lia|lia|done|done|done|by apply Ht]|].
      intros [r lo2] w2 Hw2. by eapply served_mono.
Qed.
Definition going (e : Z) (s : TcpServer C) (lo : locals) (w : W) : Prop := exists s' l T, tame s s' /\
  lo_ok e T s' lo /\ blen T = DEFAULT_BACKLOG_SIZE /\ server_inv e [] [] [] s' l w.
Lemma tcp_turn_ok e s lo w : quiet s -> going e s lo w ->
  post (turn self connected disconnected data_ready data_in malloc grow lo) (fun '(_, lo') w' => going e s lo' w') w.
Proof.
  intros Hq (s1 & l & T & Ht & Hlo & HT & Hsi). unfold turn. apply post_bind, post_sys.
  unfold EpollPack_get_efd, EpollPack_get_triggered_event_len. rewrite (lo_efd _ _ _ _ Hlo), (lo_len _ _ _ _ Hlo).
  pose proof (epoll_wait_opens e DEFAULT_BACKLOG_SIZE (kern w)) as Hf.
  pose proof (fun x => epoll_wait_watches x e DEFAULT_BACKLOG_SIZE (kern w)) as Hwa.
  pose proof (epoll_wait_reports e DEFAULT_BACKLOG_SIZE (kern w)) as Hrep.
  destruct (sys_epoll_wait e DEFAULT_BACKLOG_SIZE (kern w)) as [[n evs] k']. cbn [fst snd] in *.
  assert (server_inv e [] [] [] s1 l (set_kern k' w)) as Hsi1 by (apply server_kern; [done|done|by rewrite Hwa]).
  assert (going e s lo (set_kern k' w)) as Hgo by by exists s1, l, T.
  apply post_if; intros Hz; [by apply post_ret|]. apply Z.eqb_neq in Hz. apply post_if; intros Hneg.
  { apply post_bind. unfold server_flag. apply post_bind. eapply server_get; [exact Hsi1|]. apply post_ret.
    apply post_if; intros _; [by apply post_ret|]. apply post_bind. eapply server_get; [exact Hsi1|]. by apply post_ret. }
  apply Z.ltb_ge in Hneg. destruct Hrep as (Hn & Hle & Hwatch & Hnd); [lia|].
  set (T1 := evs ++ drop (length evs) (triggered_events (ep lo))).
  assert (blen T1 = DEFAULT_BACKLOG_SIZE) as HT1.
  { unfold T1, blen in *. rewrite (lo_events _ _ _ _ Hlo), length_app, length_drop. lia. }
  assert (take (Z.to_nat n) T1 = evs) as Htake.
  { unfold T1. rewrite Hn, Nat2Z.id. apply take_app_length. }
  eapply post_mono; [eapply (handle_events_ok e T1 (Z.to_nat n) 0 _ s1 l)|].
  - done.
  - unfold blen in HT1. change (Z.to_nat 0) with 0%nat. lia.
  - change (Z.to_nat 0) with 0%nat. by rewrite drop_0, Htake.
  - change (Z.to_nat 0) with 0%nat. rewrite drop_0, Htake. destruct Hsi1 as [Hi Hl Hs Hp Hv]. split; try done; [|by intros p d ?%elem_of_nil].
    intros d (v & -> & Hv')%list_elem_of_fmap. rewrite Forall_forall in Hwatch. specialize (Hwatch v Hv').
    pose proof (inv_holds _ _ _ _ _ _ Hi) as Hh. pose proof (inv_watch _ _ _ _ _ _ Hi) as Hw. cbv beta iota in Hw.
    cbn [set_kern kern] in Hw. specialize (Hw (ev_fd v)). rewrite Hwa in Hw. specialize (Hw Hwatch).
    assert (ev_fd v ∈ base s1 ++ [e] ++ socks (packs (set_kern k' w)) (items l ++ [] ++ [])) as Hin.
    { pose proof (listening_base s1 (ev_fd v)). set_solver. }
    split; [by eapply holds_member|]. split; [by eapply holds_apart|].
    split; [intros E1; apply Hs; cbn [set_kern kern]; rewrite Hwa; by rewrite E1 in Hwatch|].
    left. rewrite (holds_fds _ _ _ Hh), elem_of_union, elem_of_list_to_set. by left.
  - destruct Hlo. by split.
  - by apply Ht.
  - intros [r lo'] w' (s2 & l2 & Ht2 & Hlo2 & Hsi2). exists s2, l2, T1. split; [by etrans|done].
Qed.
Lemma tcp_run_turns_ok e fuel : forall s lo w, quiet s -> going e s lo w ->
  safe (run_turns self connected disconnected data_ready data_in malloc grow fuel lo) (fun '(_, lo') w' => going e s lo' w') w.
Proof.
  induction fuel as [|fuel IH]; intros s lo w Hq Hgo; [done|]. pose proof Hgo as (s1 & l & T & Ht & Hlo & HT & Hsi).
  cbn [run_turns]. apply safe_bind, post_safe. unfold server_flag. apply post_bind. eapply server_get; [exact Hsi|]. apply post_ret.
  apply safe_bind, post_safe. eapply server_get; [exact Hsi|]. destruct (_ && _); [|done].
  apply safe_bind, post_safe. eapply post_mono; [by apply (tcp_turn_ok e s)|]. intros [[r|] lo1] w1 Hw1; [done|by apply IH].
Qed.
(** When the loop returns, no client is left. *)
Definition pack_ok (e : Z) (pk : option EpollPack) : Prop := exists p, pk = Some p /\ efd p = e /\ mutex p = false /\
  EpollPack.free_user_data p = false.
Lemma listen_loop_ok e T fuel s l w pk : quiet s -> server_inv e [] [] [] s l w ->
  lo_ok e T s (mkLocals pk (Some (replicate (Z.to_nat DEFAULT_INPUT_BUFF_SIZE) 0)) None) -> blen T = DEFAULT_BACKLOG_SIZE ->
  items l = [] -> user_data pk = self ->
  safe (listen_loop self connected disconnected data_ready data_in malloc room grow fuel (Some pk)) (fun '(_, p') w' =>
    pack_ok e p' /\ exists s' l', tame s s' /\ server_inv e [] [] [] s' l' w' /\ items l' = []) w.
Proof.
  intros Hq Hsi Hlo HT Hempty Hself'. unfold listen_loop. unfold EpollPack_get_user_data. rewrite Hself'.
  rewrite (proj2 (Z.eqb_neq _ _)) by done. apply safe_bind, post_safe, post_gets.
  destruct (room w); cbn [negb].
  2: { apply post_safe, post_ret. split; [exists pk; split; [done|by destruct Hlo]|]. by exists s, l. }
  apply safe_bind. eapply safe_mono; [apply (tcp_run_turns_ok e fuel s); [done|by exists s, l, T]|].
  intros [rval lo1] w1 (s1 & l1 & T1 & Ht & Hlo1 & _ & Hsi1). apply safe_bind, post_safe.
  eapply post_mono; [eapply (clear_clients_ok _ _ _ (server_client_inv e []) tame); [apply remove_client_ok|exact Hsi1|]|].
  { intros p _ d _. apply not_elem_of_nil. }
  intros _ w2 (s2 & l2 & Ht2 & Hsi2 & Hl2). split; [exists (ep lo1); split; [done|by destruct Hlo1]|].
  exists s2, l2. split; [|done]. etrans; [exact Ht|]. etrans; [|exact Ht2]. by split; [left|..].
Qed.

(** ** Starting and stopping *)

(** The system watches no more than before. *)
Definition calmer (w w' : W) : Prop := forall x, watched x (kern w') ⊆ watched x (kern w).
Lemma calmer_refl w : calmer w w.
Proof. by intros x. Qed.
Lemma calmer_trans w1 w2 w3 : calmer w1 w2 -> calmer w2 w3 -> calmer w1 w3.
Proof. intros H1' H2' x. etrans; [apply H2'|apply H1']. Qed.
Lemma idle_field oe s s' l X w : inv oe s l [] X w -> sock s' = sock s -> client_list s' = client_list s ->
  inv oe s' l [] X (set_object (Some s') w).
Proof.
  intros Hi E1 E2. eapply inv_moved; try exact Hi; try done; try apply Hi.
  - cbn. rewrite E2. apply Hi.
  - by rewrite !tcp_base, E1.
  - cbn [listening TcpServer_holder]. by rewrite E1.
Qed.
Lemma idle_close oe s l X w : inv oe s l [] X w ->
  inv oe (set_sock (-1) s) l [] X (set_object (Some (set_sock (-1) s)) (set_kern (sys_close (sock s) (kern w)) w)).
Proof.
  intros Hi. assert (inv oe (set_sock (-1) s) l [] (base s ++ X) (set_object (Some (set_sock (-1) s)) w)) as Hi2.
  { eapply inv_moved; try exact Hi; try done; apply Hi. }
  rewrite tcp_base in Hi2. destruct (Z.ltb_spec (-1) (sock s)) as [Hpos|Hneg]; [exact (inv_close _ _ _ _ _ _ _ Hi2)|].
  apply (inv_kern _ _ _ _ _ _ (sys_close (sock s) (kern w))) in Hi2; [exact Hi2| |].
  - rewrite close_closes. assert (sock s ∉ fds (kern w)); [|set_solver].
    intros Hin. apply (holds_range _ _ _ (inv_holds _ _ _ _ _ _ Hi)) in Hin. lia.
  - destruct oe as [x|]; [|done]. pose proof (close_watches x (sock s) (kern w)). set_solver.
Qed.
Lemma idle_call c d oe s l X w (Q : Z -> W -> Prop) : inv oe s l [] X w ->
  (forall r w', inv oe s l [] X w' -> calmer w w' -> Q r w') -> post (sys (sys_call c d)) Q w.
Proof.
  intros Hi HQ. apply post_sys, HQ.
  - apply inv_kern; [done|apply call_opens|]. destruct oe; [|done]. by rewrite call_watches.
  - intros x. cbn. by rewrite call_watches.
Qed.
Lemma tcp_stop_ok fuel oe s l X w : inv oe s l [] X w -> quiet s ->
  post (TcpServer_stop wait fuel) (fun _ w' => exists s', inv oe s' l [] X w' /\ sock s' < 0 /\ quiet s' /\
    client_data_ready s' = client_data_ready s /\ calmer w w') w.
Proof.
  intros Hi Hq. unfold TcpServer_stop, TcpServer_stop_async. apply post_bind, post_bind. eapply post_get; [apply Hi|].
  assert (Hrest : forall s1 w1, inv oe s1 l [] X w1 -> sock s1 < 0 -> quiet s1 -> client_data_ready s1 = client_data_ready s ->
    calmer w w1 -> post (raise_server THREAD_STOP;; created ← server_flag THREAD_CREATED; when created (lower_server THREAD_CREATED))
    (fun _ => post (in_cb ← server_flag OBJECT_CALLBACK_STATE; when (negb in_cb) (TcpServer_wait_for_thread_return wait fuel))
      (fun _ w' => exists s', inv oe s' l [] X w' /\ sock s' < 0 /\ quiet s' /\ client_data_ready s' = client_data_ready s /\ calmer w w')) w1).
  { intros s1 w1 Hi1 Hs1 Hq1 Hr1 Hc1. apply post_bind. unfold raise_server. eapply post_set; [apply Hi1|].
    set (s2 := set_flag_pole _ s1). assert (quiet s2) as Hq2 by by apply raise_clear.
    assert (inv oe s2 l [] X (set_object (Some s2) w1)) as Hi2 by by eapply idle_field.
    assert (Hwait : forall s3 w3, inv oe s3 l [] X w3 -> sock s3 < 0 -> quiet s3 -> client_data_ready s3 = client_data_ready s ->
      calmer w w3 -> post (in_cb ← server_flag OBJECT_CALLBACK_STATE; when (negb in_cb) (TcpServer_wait_for_thread_return wait fuel))
      (fun _ w' => exists s', inv oe s' l [] X w' /\ sock s' < 0 /\ quiet s' /\ client_data_ready s' = client_data_ready s /\ calmer w w') w3).
    { intros s3 w3 Hi3 Hs3 Hq3 Hr3 Hc3. assert (Hret : exists s', inv oe s' l [] X w3 /\ sock s' < 0 /\ quiet s' /\
        client_data_ready s' = client_data_ready s /\ calmer w w3) by by exists s3.
      apply post_bind. unfold server_flag. apply post_bind. eapply post_get; [apply Hi3|]. apply post_ret.
      apply post_when; intros Hcb; [|done]. unfold TcpServer_wait_for_thread_return. eapply post_on_this; [apply Hi3|].
      apply post_bind. unfold server_flag. apply post_bind. eapply post_get; [apply Hi3|]. apply post_ret.
      apply negb_true_iff in Hcb. rewrite Hcb. apply post_bind, post_emit. apply post_bind.
      assert (wait_return wait fuel w3 = Ok (tt, w3, [])) as Ew.
      { pose proof (inv_object _ _ _ _ _ _ Hi3) as Ho. destruct fuel; cbn [wait_return]; unfold server_flag;
          rewrite !bind_bind; unfold get, this; rewrite !bind_bind, bind_gets, Ho, (bind_lift _ s3) by done; cbn [mbind mret];
          unfold mbind, M_bind, mret, M_ret; cbn; by rewrite quiet_running. }
      exists tt, w3, []. split; [exact Ew|]. by apply post_emit. }
    apply post_bind. unfold server_flag at 1. apply post_bind. eapply post_get; [apply Hi2|]. apply post_ret.
    apply post_when; intros _; [|by eapply Hwait].
    unfold lower_server. eapply post_set; [apply Hi2|]. eapply Hwait; [by eapply idle_field; [exact Hi2|..]|done| |done|done].
    by apply lower_clear. }
  apply post_bind. rewrite Z.gtb_ltb. apply post_when; intros Hb.
  - apply post_bind, post_sys. cbn [fst snd]. eapply post_set; [apply Hi|].
    eapply Hrest; [by apply idle_close|done..|]. intros x. pose proof (close_watches x (sock s) (kern w)). cbn. set_solver.
  - apply Z.ltb_ge in Hb. eapply Hrest; [exact Hi|lia|done|done|apply calmer_refl].
Qed.
Lemma bind_and_listen_ok oe s l X w : inv oe s l [] X w -> sock s < 0 -> quiet s ->
  post bind_and_listen (fun r w' => exists s', inv oe s' l [] X w' /\ quiet s' /\ client_data_ready s' = client_data_ready s /\
    calmer w w' /\ if r =? 0 then -1 < sock s' else sock s' < 0) w.
Proof.
  intros Hi Hs Hq. unfold bind_and_listen. eapply post_on_this; [apply Hi|]. apply post_bind. eapply post_get; [apply Hi|].
  rewrite Z.gtb_ltb, (proj2 (Z.ltb_ge _ _)) by lia. apply post_bind, post_sys.
  pose proof (socket_opens (kern w)) as Hop. pose proof (fun x => socket_watches x (kern w)) as Hwa.
  destruct (sys_socket (kern w)) as [r k']. cbn [fst snd] in *. apply post_bind. eapply post_set; [apply Hi|].
  set (s1 := set_sock r s). assert (calmer w (set_object (Some s1) (set_kern k' w))) as Hc1 by (intros x; cbn; by rewrite Hwa).
  apply post_if; intros Hr.
  { apply Z.ltb_lt in Hr. apply post_ret. exists s1. split; [|done]. assert (inv oe s l [] X (set_kern k' w)) as Hi1.
    { apply inv_kern; [done|by destruct Hop as [[_ ?]|[? _]]; [|lia]|]. destruct oe; [|done]. by rewrite Hwa. }
    eapply inv_moved; try exact Hi1; try done; try apply Hi1.
    - rewrite !tcp_base. cbn [sock s1 set_sock]. by rewrite !(proj2 (Z.ltb_ge _ _)) by lia.
    - cbn [listening TcpServer_holder sock s1 set_sock]. rewrite !filter_cons. repeat case_decide; try lia. set_solver. }
  apply Z.ltb_ge in Hr. assert (inv oe s1 l [] X (set_object (Some s1) (set_kern k' w))) as Hi1.
  { assert (inv oe s l [] (r :: X) (set_kern k' w)) as Hi1 by by eapply inv_opened.
    eapply inv_moved; try exact Hi1; try done; try apply Hi1.
    - rewrite !tcp_base. cbn [sock s1 set_sock]. by rewrite (proj2 (Z.ltb_lt _ r)), (proj2 (Z.ltb_ge _ (sock s))) by lia.
    - cbn [listening TcpServer_holder sock s1 set_sock]. rewrite !filter_cons. repeat case_decide; try lia. set_solver. }
  assert (Herr : forall w3, inv oe s1 l [] X w3 -> calmer w w3 -> post
    (s ← get sock; when (s >? -1) (close_fd s;; set (set_sock (-1)));; mret ALIB_CHECK_ERRNO)
    (fun r w' => exists s', inv oe s' l [] X w' /\ quiet s' /\ client_data_ready s' = client_data_ready s /\
      calmer w w' /\ if r =? 0 then -1 < sock s' else sock s' < 0) w3).
  { intros w3 Hi3 Hc3. apply post_bind. eapply post_get; [apply Hi3|]. rewrite Z.gtb_ltb. cbn [sock s1 set_sock].
    rewrite (proj2 (Z.ltb_lt _ _)) by lia. apply post_bind. cbn [when]. apply post_bind, post_sys. cbn [fst snd].
    eapply post_set; [apply Hi3|]. apply post_ret. exists (set_sock (-1) s1).
    split; [exact (idle_close oe s1 l X w3 Hi3)|]. do 2 (split; [done|]). split; [|done].
    eapply calmer_trans; [exact Hc3|]. intros x. pose proof (close_watches x r (kern w3)). cbn. set_solver. }
  apply post_bind. eapply idle_call; [exact Hi1|]. intros _ w3 Hi3 Hc3. apply post_bind. eapply idle_call; [exact Hi3|].
  intros err w4 Hi4 Hc4. assert (calmer w w4) as Hc by (do 2 (eapply calmer_trans; [eassumption|]); done).
  apply post_if; intros _; [by apply Herr|]. apply post_bind. eapply idle_call; [exact Hi4|]. intros err2 w5 Hi5 Hc5.
  assert (calmer w w5) as Hc' by by eapply calmer_trans. apply post_if; intros _; [by apply Herr|]. apply post_ret.
  exists s1. do 4 (split; [done|]). cbn. lia.
Qed.
(** The epoll instance is closed, if there is one. *)
Definition instance_at (e : Z) : dlist Z := if 0 <=? e then [e] else [].
Lemma del_pack_ok oe e pk s l w : inv oe s l [] (instance_at e) w -> e <> 0 -> pack_ok e pk ->
  post (delEpollPack pk) (fun r w' => r = None /\ inv oe s l [] [] w') w.
Proof.
  intros Hi Hne (p & -> & He & Hm & Hf). unfold delEpollPack, EpollPack_lock. rewrite Hm.
  apply post_bind, post_bind, post_emit, post_ret. cbn [efd EpollPack.set_mutex]. rewrite He, (proj2 (Z.eqb_neq _ _)) by done.
  apply post_bind, post_sys. cbn [fst snd]. unfold EpollPack_unlock. apply post_bind, post_bind, post_emit, post_ret.
  cbn [EpollPack.free_user_data EpollPack.set_mutex]. rewrite Hf. apply post_bind, post_ret, post_bind, post_emit, post_ret.
  split; [done|]. unfold instance_at in Hi. destruct (Z.leb_spec 0 e) as [Hpos|Hneg]; [exact (inv_close _ _ _ _ _ _ _ Hi)|].
  apply inv_kern; [done| |].
  - rewrite close_closes. assert (e ∉ fds (kern w)); [|set_solver].
    intros Hin. apply (holds_range _ _ _ (inv_holds _ _ _ _ _ _ Hi)) in Hin. lia.
  - destruct oe as [x|]; [|done]. pose proof (close_watches x e (kern w)). set_solver.
Qed.
Definition new_pack (e : Z) : EpollPack := mkEpollPack e
  (replicate (Z.to_nat DEFAULT_BACKLOG_SIZE) (mkEpollEvent 0 0)) DEFAULT_BACKLOG_SIZE (mkEpollEvent 0 0) self false false.
Lemma new_pack_ok ok1 ok2 s l w : inv None s l [] [] w -> 0 ∈ fds (kern w) ->
  post (newEpollPack ok1 ok2 0 self false) (fun pk w' => match pk with
    | None => inv None s l [] [] w'
    | Some p => exists e, e <> 0 /\ p = new_pack e /\ inv None s l [] (instance_at e) w' /\
        (0 <= e -> inv (Some e) s l [] [e] w' /\ watched e (kern w') = ∅)
    end) w.
Proof.
  intros Hi Hstdin. unfold newEpollPack. destruct ok1; cbn [negb]; [|by apply post_ret]. apply post_bind, post_sys.
  pose proof (epoll_create_opens (kern w)) as Hop. pose proof (fun x => epoll_create_watches x (kern w)) as Hwa.
  destruct (sys_epoll_create (kern w)) as [e k']. cbn [fst snd] in *. apply post_bind, post_emit.
  assert (e <> 0) as Hne by (intros ->; destruct Hop as [[??]|(_ & ? & _)]; [lia|done]).
  assert (inv None s l [] (instance_at e) (set_kern k' w)) as Hi1.
  { unfold instance_at. destruct (Z.leb_spec 0 e) as [Hpos|Hneg].
    - destruct Hi as [Ho Hc Hl Hn Hnn Hp Hh Hw]. split; try done. cbn [set_kern packs kern user].
      eapply holds_perm; [|by eapply (holds_opened e k')]. cbn [app]. apply Permutation_middle.
    - apply inv_kern; [done| |done]. by destruct Hop as [[_ ?]|[? _]]; [|lia]. }
  destruct ok2; cbn [negb].
  2: { eapply post_mono; [eapply (del_pack_ok None e (Some _) s l); [exact Hi1|done|by eexists]|].
       by intros r w' [-> Hw']. }
  apply post_ret. exists e. split; [done|]. split; [done|]. split; [done|]. intros Hpos.
  assert (watched e k' = ∅) as Hw0 by by rewrite Hwa, Z.eqb_refl. split; [|exact Hw0].
  unfold instance_at in Hi1. rewrite (proj2 (Z.leb_le 0 e)) in Hi1 by done.
  destruct Hi1 as [Ho Hc Hl Hn Hnn Hp Hh Hw]. split; try done. cbn [set_kern kern]. rewrite Hw0. set_solver.
Qed.

(** What is left of the server in the system, apart from its memory: [L]. *)
Definition leaves (L : gset Z) (w : W) : Prop := fds (kern w) = L ∪ kept (user w) /\ packs w = ∅.
Lemma inv_leaves oe s l X w : inv oe s l [] X w -> sock s < 0 -> items l = [] -> leaves (list_to_set X) w.
Proof.
  intros Hi Hs Hl. pose proof (holds_fds _ _ _ (inv_holds _ _ _ _ _ _ Hi)) as Hf.
  rewrite Hl, tcp_base, (proj2 (Z.ltb_ge _ _)) in Hf by lia. cbn [app socks fmap list_fmap] in Hf. rewrite app_nil_r in Hf.
  split; [done|]. apply map_eq. intros p. rewrite lookup_empty. destruct (packs w !! p) eqn:E1; [|done].
  assert (p ∈ items l ++ []) as Hp by (apply (inv_packs _ _ _ _ _ _ Hi); by eexists). rewrite Hl in Hp. set_solver.
Qed.
(** The last steps of [TcpServer_start]. *)
Lemma finish_ok fuel oe s l X w (err : Z) pk : inv oe s l [] X w -> quiet s -> items l = [] ->
  (forall s1 w1, inv oe s1 l [] X w1 -> post (delEpollPack pk) (fun _ w' => inv oe s1 l [] [] w') w1) ->
  post (TcpServer_stop wait fuel;; delEpollPack pk;; mret err) (fun r w' => r = err /\ leaves ∅ w') w.
Proof.
  intros Hi Hq Hl Hdel. apply post_bind. eapply post_mono; [by eapply tcp_stop_ok|cbv beta].
  intros _ w1 (s1 & Hi1 & Hs1 & _). apply post_bind. eapply post_mono; [by eapply Hdel|cbv beta]. intros _ w2 Hi2.
  apply post_ret. split; [done|]. by eapply (inv_leaves oe s1 l []).
Qed.
Lemma finish_pack fuel oe e s l w (err : Z) pk : inv oe s l [] (instance_at e) w -> quiet s -> items l = [] ->
  e <> 0 -> pack_ok e pk ->
  post (TcpServer_stop wait fuel;; delEpollPack pk;; mret err) (fun r w' => r = err /\ leaves ∅ w') w.
Proof.
  intros Hi Hq Hl Hne Hpk. eapply finish_ok; try done. intros s1 w1 Hi1.
  eapply post_mono; [by eapply del_pack_ok|]. by intros r w' [_ ?].
Qed.
Lemma server_idle e s l w : inv (Some e) s l [] [e] w -> items l = [] -> e ∉ watched e (kern w) -> server_inv e [] [] [] s l w.
Proof.
  intros Hi Hl Hw. split; try done.
  - intros p. rewrite Hl. by intros ?%elem_of_nil.
  - by intros d ?%elem_of_nil.
  - by intros p d ?%elem_of_nil.
Qed.
(** C21: A run of the server, from [TcpServer_start] to its return: it does not fault, and if it returns, all
    clients' packages are freed and all descriptors closed but those that the client's code keeps and, if the
    start failed, perhaps one (the epoll instance). This holds whatever events the system reports, however many
    at a time, and whatever else fails, under these conditions: epoll_ctl watches every open descriptor it is
    given (a refused client's socket leaks, [refused_client_leaks]); the list of clients can always grow, and
    malloc gives fresh addresses or NULL; the client's code returns and leaves the server and its packages alone
    ([tcp_code]), so it does not delete the server, and it does not take over a descriptor whose event is still
    to be handled; the server is neither running nor being deleted and has no clients at the start, and
    descriptor 0 is open. *)
Theorem TcpServer_start_releases (fuel : nat) (ok : bool * bool) (s : TcpServer C) (l : ArrayList) (w : W) :
  inv None s l [] [] w -> items l = [] -> quiet s -> 0 ∈ fds (kern w) ->
  safe (TcpServer_start self connected disconnected data_ready data_in malloc room grow wait fuel ok)
    (fun err w' => exists e, leaves (list_to_set e) w' /\ (length e <= 1)%nat /\ (err = ALIB_OK -> e = [])) w.
Proof.
  intros Hi Hl Hq Hstdin. unfold TcpServer_start, on_this. apply safe_bind, post_safe, post_gets. rewrite (inv_object _ _ _ _ _ _ Hi).
  apply safe_bind, post_safe. unfold server_flag at 1. apply post_bind. eapply post_get; [apply Hi|]. apply post_ret.
  rewrite quiet_deleted by done. apply safe_bind, post_safe. eapply post_mono; [by eapply new_pack_ok|cbv beta].
  assert (Hdone : forall (err : Z) w', leaves ∅ w' ->
    exists e, leaves (list_to_set e) w' /\ (length e <= 1)%nat /\ (err = ALIB_OK -> e = [])).
  { intros err w' Hw'. exists []. split; [done|]. split; [cbn; lia|done]. }
  intros [p|] w1; cycle 1.
  { intros Hi1. apply post_safe. eapply post_mono; [eapply finish_ok; [exact Hi1|done|done|]|].
    - intros s2 w2 Hi2. unfold delEpollPack. by apply post_ret.
    - intros r w' [_ Hw']. by apply Hdone. }
  intros (e & Hne & -> & Hi1 & Hpos). assert (pack_ok e (Some (new_pack e))) as Hpk by by eexists.
  set (oe := if 0 <=? e then Some e else None).
  assert (inv oe s l [] (instance_at e) w1) as Hi1'.
  { unfold oe, instance_at in *. destruct (Z.leb_spec 0 e) as [He|He]; [by apply Hpos|done]. }
  apply safe_bind, post_safe. eapply post_mono; [by eapply tcp_stop_ok|cbv beta]. intros _ w2 (s2 & Hi2 & Hs2 & Hq2 & _ & Hc2).
  apply safe_bind, post_safe. unfold lower_server. eapply post_set; [apply Hi2|].
  set (s3 := set_flag_pole _ s2). assert (quiet s3) as Hq3 by by apply lower_clear.
  assert (inv oe s3 l [] (instance_at e) (set_object (Some s3) w2)) as Hi3 by by eapply idle_field.
  apply safe_bind, post_safe. eapply post_mono; [by eapply bind_and_listen_ok|cbv beta].
  intros err w4 (s4 & Hi4 & Hq4 & _ & Hc4 & Hs4). destruct (Z.eqb_spec err 0) as [->|Herr]; cbn [negb]; cycle 1.
  { apply post_safe, post_ret. exists (instance_at e). split; [by eapply inv_leaves|]. split; [|done].
    unfold instance_at. destruct (0 <=? e); cbn; lia. }
  apply safe_bind, post_safe. eapply post_get; [apply Hi4|]. apply safe_bind, post_safe.
  destruct (Z.leb_spec 0 e) as [He|He]; unfold oe, instance_at in Hi4; rewrite ?(proj2 (Z.leb_le 0 e)), ?(proj2 (Z.leb_gt 0 e)) in Hi4 by lia.
  - assert (server_inv e [] [] [] s4 l w4) as Hsi.
    { apply server_idle; [done|done|]. destruct (Hpos He) as [_ Hw0]. intros Hin. apply Hc4 in Hin.
      change (e ∈ watched e (kern w2)) in Hin. apply Hc2 in Hin. rewrite Hw0 in Hin. set_solver. }
    eapply (add_sock_ok (sock s4) e (replicate (Z.to_nat DEFAULT_BACKLOG_SIZE) (mkEpollEvent 0 0)) [] [] [] s4 l w4 s4 (mkLocals (new_pack e) (Some (replicate (Z.to_nat DEFAULT_INPUT_BUFF_SIZE) 0)) None));
      [exact Hsi|split; try done| |].
    + intros _. eexists. split; [done|]. by apply blen_zeros.
    + cbn [listening TcpServer_holder]. rewrite filter_cons, decide_True by done. set_solver.
    + intros w5 p5 Hsi5 _ Hlo5 Hud5. cbn [Z.eqb negb]. unfold set_ep in Hlo5. cbn [data_in_buff data_in_count] in Hlo5.
      apply safe_bind. eapply safe_mono; [eapply listen_loop_ok; [exact Hq4|exact Hsi5|exact Hlo5| |done|]|].
      * by apply blen_zeros.
      * done.
      * intros [err5 p6] w6 (Hpk6 & s6 & l6 & Ht & Hsi6 & Hl6). apply safe_bind, post_safe. unfold server_flag. apply post_bind.
        eapply server_get; [exact Hsi6|]. apply post_ret. rewrite quiet_deleted by by apply Ht.
        apply post_safe. eapply post_mono; [eapply (finish_pack fuel (Some e) e s6 l6 w6); [|by apply Ht|done..]|].
        -- unfold instance_at. rewrite (proj2 (Z.leb_le 0 e)) by lia. apply (si_inv _ _ _ _ _ _ _ Hsi6).
        -- intros r w' [_ Hw']. by apply Hdone.
  - unfold EpollPack_add_sock. rewrite (proj2 (Z.ltb_ge _ _)) by (cbn in Hs4; lia). apply post_bind. unfold EpollPack_lock.
    cbn [mutex new_pack]. apply post_bind, post_emit, post_ret. apply post_bind, post_sys. cbn [efd EpollPack.set_mod_event EpollPack.set_mutex new_pack].
    pose proof (epoll_add_bad e EPOLLIN (sock s4) (kern w4)) as Hbad. pose proof (epoll_add_opens e EPOLLIN (sock s4) (kern w4)) as Hf.
    destruct (sys_epoll_add e EPOLLIN (sock s4) (kern w4)) as [r5 k5]. cbn [fst snd] in *.
    unfold EpollPack_unlock. apply post_bind, post_bind, post_emit, post_ret, post_ret.
    assert (r5 < 0) as Hr5.
    { apply Hbad. intros Hin. apply (holds_range _ _ _ (inv_holds _ _ _ _ _ _ Hi4)) in Hin. lia. }
    rewrite (proj2 (Z.eqb_neq r5 0)) by lia. cbn [negb]. apply post_safe.
    eapply post_mono; [eapply (finish_pack fuel None e s4 l (set_kern k5 w4)); [|done|done|done|by eexists]|].
    + unfold instance_at. rewrite (proj2 (Z.leb_gt 0 e)) by lia. by apply inv_kern.
    + intros r w' [_ Hw']. by apply Hdone.
Qed.
End spec.

(** * A run *)
Section run.
#[local] Instance keeper : Keeps (gset Z) := fun u => u.
#[local] Instance system : Posix script := scripted 256 true.
#[local] Instance system_laws : PosixLaws script := scripted_laws 256 true.
Notation W := (world script (TcpServer unit) socket_package (gset Z)).
(** The client's code takes over the connections with odd numbers, closes a client that sends 99, and stops the
    server when one sends 113 or leaves. *)
Definition take_odd (c : unit) (p : ptr) : M W Z :=
  pk ← load (A := socket_package) p;
  if Z.odd (socket_of pk)
  then release (A := socket_package) p;; modify (fun w => mkWorld (kern w) (object w) (packs w) ({[socket_of pk]} ∪ user w));;
       mret SCB_RVAL_HANDLED
  else mret SCB_RVAL_DEFAULT.
Definition stop_at_leave (c : unit) (p : ptr) : M W Z := mret SCB_RVAL_STOP_SERVER.
Definition obey (c : unit) (p : ptr) (b : option (dlist Z)) (n : Z) : M W Z :=
  mret (match b with
        | Some (99 :: _) => SCB_RVAL_CLOSE_CLIENT
        | Some (113 :: _) => SCB_RVAL_STOP_SERVER
        | _ => SCB_RVAL_DEFAULT
        end).
Definition never_ready (c : unit) (p : ptr) (b : option (dlist Z)) (n : option Z) : M W (Z * option (dlist Z) * option Z) :=
  mret (SCB_RVAL_CLOSE_CLIENT, b, n).
Definition fresh_pack (w : W) : option ptr := Some (1 + set_fold Z.max 0 (dom (packs w))).
Definition always (w : W) : bool := true.
Definition server_self : ptr := 1000.
Lemma fresh_pack_ok w p : fresh_pack w = Some p -> p <> NULL /\ packs w !! p = None.
Proof.
  intros [= <-]. assert (forall X : gset Z, 0 <= set_fold Z.max 0 X /\ forall x, x ∈ X -> x <= set_fold Z.max 0 X) as Hmax.
  { refine (set_fold_ind_L (fun r X => 0 <= r /\ forall x, x ∈ X -> x <= r) Z.max 0 _ _); [set_solver|].
    intros x X r _ [Hr Hx]. split; [lia|]. intros y [->%elem_of_singleton|Hy]%elem_of_union; [lia|]. specialize (Hx y Hy). lia. }
  destruct (Hmax (dom (packs w))) as [Hr Hx]. split; [unfold NULL; lia|]. apply not_elem_of_dom. intros Hin%Hx. lia.
Qed.
Lemma take_ok e E p pk (s : TcpServer unit) l w : server_inv server_self e E [p] [] s l w -> packs w !! p = Some pk ->
  socket_of pk ∉ watched e (kern w) ->
  server_inv server_self e E [] [] s l (mkWorld (kern w) (object w) (delete p (packs w)) ({[socket_of pk]} ∪ user w)).
Proof.
  intros [Hi Hl Hs Hp Hv] Hpk Hnw. pose proof (inv_release _ _ _ _ _ _ _ _ Hi Hpk) as Hi2.
  assert (socket_of pk ∉ E) as HE by (apply (Hv p); [set_solver|unfold socket_at; by rewrite Hpk]).
  destruct Hi2 as [Ho Hc Hlist Hn Hnn Hpks Hh Hw]. split; [split|..]; try done; cbn [kern object packs user].
  - destruct Hh as [Hnd Hfd Ha Hr]. cbn [app] in *. rewrite <- Permutation_middle in Hnd. apply NoDup_cons in Hnd as [Hni Hnd].
    unfold kept, keeper in *. cbn [set_packs kern user packs] in *. split; [done| | |done].
    + unfold kept, keeper. rewrite Hfd. set_solver.
    + unfold kept, keeper. intros d Hd [->%elem_of_singleton|Hk]%elem_of_union; [done|]. apply (Ha d); [set_solver|exact Hk].
  - intros d Hd. specialize (Hw d Hd). cbn [set_packs packs] in Hw. assert (d <> socket_of pk) by congruence. set_solver.
  - intros q Hq. destruct (Hl q) as (qk & Hqk & Hpar); [set_solver|]. exists qk. split; [|done].
    rewrite lookup_delete_ne; [done|]. intros ->.
    pose proof (inv_nodup _ _ _ _ _ _ Hi) as Hnd. cbn [app] in Hnd. rewrite <- Permutation_middle in Hnd.
    apply NoDup_cons in Hnd as [Hnd _]. set_solver.
  - intros d Hd. destruct (Hp d Hd) as (? & Hk & ? & Ho'). unfold kept, keeper in *. split; [done|]. split; [|done].
    intros [->%elem_of_singleton|?]%elem_of_union; done.
  - intros q d ?%elem_of_nil. done.
Qed.
Lemma odd_code : tcp_code server_self take_odd stop_at_leave never_ready obey fresh_pack always.
Proof.
  split; [| | | |apply fresh_pack_ok|done].
  - intros c e E p s l w Hsi Hnw. destruct (server_pack _ _ _ _ _ _ _ _ p Hsi) as (Hn & pk & Hpk & Hr); [set_solver|].
    unfold take_odd. apply post_bind. eapply post_load; [done..|]. apply post_if; intros _.
    + apply post_bind. eapply post_release; [done..|]. apply post_bind, post_modify, post_ret. exists s. split; [done|].
      refine (take_ok e E p pk s l w Hsi Hpk _). apply Hnw. unfold socket_at. by rewrite Hpk.
    + apply post_ret. by exists s.
  - intros c e E p Y s l w Hsi. apply post_ret. by exists s.
  - intros c e E p b n s l w Hsi Hp. apply post_ret. split; [by exists s|]. split; [done|]. done.
  - intros c e E p b n s l w Hsi Hp. apply post_ret. split; [by exists s|done].
Qed.
Definition no_clients : ArrayList := mkArrayList (Some [0;0;0;0]) 0 4 ULONG_MAX true true false.
Definition new_server : TcpServer unit := mkTcpServer (-1) (htons 80) 1000 FLAG_INIT (Some no_clients)
  (Some tt) None (Some tt) (Some tt) None NULL false.
Definition start_world (b : dlist (dlist epoll_event)) (i : dlist (dlist Z)) : W :=
  mkWorld (mkScript {[0]} ∅ 3 [] b i [] []) (Some new_server) ∅ {[0]}.
Lemma start_inv b i : inv None new_server no_clients [] [] (start_world b i).
Proof.
  split; [done|done| |apply NoDup_nil_2|set_solver| |split|done]; cbn [start_world kern packs user]; try set_solver.
  - split; try (cbn; unfold ULONG_MAX; lia). split; cbn; try (unfold ULONG_MAX; lia); done.
  - intros p. rewrite lookup_empty. split; [by intros [? ?]|]. set_solver.
  - apply NoDup_nil_2.
Qed.
(** Three clients connect: the first and the third are taken over, the second sends text while the third connects,
    and then tells the server to stop. *)
Definition three_clients : W := start_world
  [[mkEpollEvent 4 EPOLLIN]; [mkEpollEvent 4 EPOLLIN]; [mkEpollEvent 4 EPOLLIN; mkEpollEvent 6 EPOLLIN];
   [mkEpollEvent 6 EPOLLIN; mkEpollEvent 4 EPOLLIN]]
  [[65]; [113]].
Lemma TcpServer_start_releases_witness :
  safe (TcpServer_start server_self take_odd stop_at_leave never_ready obey fresh_pack always always (mret tt) 8 (true, true))
    (fun err w' => exists e, leaves (list_to_set e) w' /\ (length e <= 1)%nat /\ (err = ALIB_OK -> e = [])) three_clients.
Proof.
  apply (TcpServer_start_releases _ _ _ _ _ _ _ _ _ odd_code) with (s := new_server) (l := no_clients).
  - done.
  - intros e m d k He _. change (e ∈ sfds k) in He. cbn. unfold s_add. rewrite bool_decide_false by (intros Hn; by apply Hn). done.
  - apply start_inv.
  - done.
  - done.
  - change (0 ∈ ({[0]} : gset Z)). set_solver.
Defined.
Example TcpServer_start_three_clients :
  match TcpServer_start server_self take_odd stop_at_leave never_ready obey fresh_pack always always (mret tt) 8 (true, true)
    three_clients with
  | Ok (r, w, _) => r = ALIB_OK /\ elements (sfds (kern w)) = [7; 5; 0] /\ user w = {[5; 7; 0]}
  | _ => False
  end.
Proof. vm_compute. auto. Qed.
(** A start whose socket cannot be opened leaves the epoll instance open. *)
Example failed_start_leaks :
  match TcpServer_start server_self take_odd stop_at_leave never_ready obey fresh_pack always always (mret tt) 8 (true, true)
    (mkWorld (mkScript {[0]} ∅ 3 [false; true] [] [] [] []) (Some new_server) ∅ {[0]}) with
  | Ok (r, w, _) => r = ALIB_FD_ERR /\ elements (sfds (kern w)) = [3; 0] /\ user w = {[0]}
  | _ => False
  end.
Proof. vm_compute. auto. Qed.
End run.
