(* ===== verification/ClientListener.v ===== *)
(** The listener for clients of other servers, [source/ClientListener.c].

    [C] are the code pointers of the callbacks, which the parameters named after
    the fields run.  [self] is the address of the listener; [wait] is what the
    other threads do until they signal its condition, [join] what its thread does
    until it returns; [malloc], [room] and [grow] say what allocating a package,
    the buffer and a place in the list gives.  The mutex is the flag that it is
    held; taking it again never returns. *)
From S2P Require Import Prelude Memory Effects Heap AlibTypes TimerEvent ArrayList Posix ServerState.
Open Scope Z_scope.

(** [efd] and [triggered_events] are the members of [ep]; its [event] is only
    the argument of the next [epoll_ctl]. *)
Record ClientListener (C : Type) := mkClientListener {
  client_list : option ArrayList; efd : Z; triggered_events : Datatypes.list epoll_event;
  ex_data : ptr; free_extended_data : bool; flag_pole : Z; mutex : bool;
  data_ready : option C; data_in : option C; disconnected : option C; client_list_empty : option C }.
Arguments mkClientListener {C}. Arguments client_list {C}. Arguments efd {C}. Arguments triggered_events {C}.
Arguments ex_data {C}. Arguments free_extended_data {C}. Arguments flag_pole {C}. Arguments mutex {C}.
Arguments data_ready {C}. Arguments data_in {C}. Arguments disconnected {C}. Arguments client_list_empty {C}.

Section fields.
Context {C : Type}.
Implicit Types s : ClientListener C.
Definition set_client_list v s := mkClientListener v (efd s) (triggered_events s) (ex_data s) (free_extended_data s)
  (flag_pole s) (mutex s) (data_ready s) (data_in s) (disconnected s) (client_list_empty s).
Definition set_efd v s := mkClientListener (client_list s) v (triggered_events s) (ex_data s) (free_extended_data s)
  (flag_pole s) (mutex s) (data_ready s) (data_in s) (disconnected s) (client_list_empty s).
Definition set_triggered_events v s := mkClientListener (client_list s) (efd s) v (ex_data s) (free_extended_data s)
  (flag_pole s) (mutex s) (data_ready s) (data_in s) (disconnected s) (client_list_empty s).
Definition set_ex_data v f s := mkClientListener (client_list s) (efd s) (triggered_events s) v f
  (flag_pole s) (mutex s) (data_ready s) (data_in s) (disconnected s) (client_list_empty s).
Definition set_flag_pole v s := mkClientListener (client_list s) (efd s) (triggered_events s) (ex_data s) (free_extended_data s)
  v (mutex s) (data_ready s) (data_in s) (disconnected s) (client_list_empty s).
Definition set_mutex v s := mkClientListener (client_list s) (efd s) (triggered_events s) (ex_data s) (free_extended_data s)
  (flag_pole s) v (data_ready s) (data_in s) (disconnected s) (client_list_empty s).
Definition set_callbacks (r i d e : option C) s := mkClientListener (client_list s) (efd s) (triggered_events s) (ex_data s)
  (free_extended_data s) (flag_pole s) (mutex s) r i d e.
#[export] Instance ClientListener_clients : HasClients (ClientListener C) := {|
  clients := client_list; set_clients := set_client_list; clients_set := fun _ _ => eq_refl;
  set_clients_set := fun _ _ _ => eq_refl; set_clients_id := ltac:(by intros []) |}.
End fields.

(** The buffer of [listen_loop] and the count of what is received ([None] before the first). *)
Record locals := mkLocals { data_in_buff : option (Datatypes.list Z); data_in_count : option Z }.

Section listener.
Context {K U C : Type} `{Posix K}.
Notation W := (world K (ClientListener C) socket_package U).
Context (self : ptr).
Context (ready : C -> ptr -> option (Datatypes.list Z) -> option Z -> M W (Z * option (Datatypes.list Z) * option Z)).
Context (input : C -> ptr -> option (Datatypes.list Z) -> Z -> M W Z).
Context (gone : C -> ptr -> M W Z) (empty : C -> M W Z).
Context (malloc : W -> option ptr) (room grow : W -> bool) (wait join : M W unit).

Definition raise_listener (flag : Z) : M W unit := set (fun s => set_flag_pole (flag_raise (flag_pole s) flag) s).
Definition lower_listener (flag : Z) : M W unit := set (fun s => set_flag_pole (flag_lower (flag_pole s) flag) s).
Definition listener_flag (flag : Z) : M W bool := fp ← get flag_pole; mret (raised fp flag).
Definition lock : M W unit :=
  m ← get mutex; if m : bool then lift Diverges else emit EvLock;; set (set_mutex true).
Definition unlock : M W unit := emit EvUnlock;; set (set_mutex false).
Definition locked {A} (m : M W A) : M W A := lock;; a ← m; unlock;; mret a.

(** * The epoll instance *)
Definition close_epoll_tsafe : M W Z :=
  locked (e ← get efd; close_fd e;; set (set_efd (-1)));; mret ALIB_OK.
Definition init_epoll : M W Z :=
  e ← sys sys_epoll_create; set (set_efd e);;
  if e <? 0 then mret ALIB_FD_ERR else
  set (set_triggered_events (replicate (Z.to_nat DEFAULT_BACKLOG_SIZE) (mkEpollEvent 0 0)));; mret ALIB_OK.
Definition init_epoll_tsafe : M W Z := on_this ALIB_BAD_ARG (locked init_epoll).
Definition add_sock_to_epoll (s : Z) : M W Z :=
  e ← get efd;
  if (s <? 0) || (e <? 0) then mret ALIB_BAD_ARG else
  r ← sys (sys_epoll_add e EPOLLIN s);
  mret (if r <? 0 then ALIB_UNKNOWN_ERR else ALIB_OK).
Definition add_sock_to_epoll_tsafe (s : Z) : M W Z := on_this ALIB_BAD_ARG (locked (add_sock_to_epoll s)).
(** [for(array_count = ..; array_count > 0; ++array_ptr)], over the slots of the list. *)
Fixpoint add_slots (array_count : Z) (array : Datatypes.list ptr) : M W Z :=
  if array_count <=? 0 then mret ALIB_OK else
  match array with
  | [] => lift (UB OutOfBounds)
  | p :: array =>
      if p =? NULL then add_slots array_count array else
      pk ← load (A := socket_package) p; rval ← add_sock_to_epoll (sock pk);
      if negb (rval =? 0) then mret rval else add_slots (array_count - 1) array
  end.
Definition add_clients_to_epoll : M W Z :=
  on_this ALIB_BAD_ARG (
    e ← get efd;
    if e <? 0 then mret ALIB_BAD_ARG else
    l ← get client_list; l ← lift (deref l);
    add_slots (count l) (default [] (list l))).
Definition add_clients_to_epoll_tsafe : M W Z := on_this ALIB_BAD_ARG (locked add_clients_to_epoll).

(** * The clients *)
Definition remove_client_cb (sp : ptr) : M W unit :=
  p ← load (A := socket_package) sp;
  if parent p =? NULL then lift (UB NullDeref) else
  if negb (parent p =? self) then lift (UB Dangling) else
  cb ← get disconnected;
  match cb with
  | Some cb =>
      rval ← gone cb sp;
      when (raised rval SCB_RVAL_STOP_SERVER)
        (raise_listener THREAD_STOP;; e ← get efd; close_fd e;; set (set_efd (-1)))
  | None => mret tt
  end;;
  close_and_free_socket_package sp.

(** * The loop *)
Definition list_count : M W Z := l ← get client_list; l ← lift (deref l); mret (count l).
(** [while(!ArrayList_get_count(..) && !(.. & THREAD_STOP)) pthread_cond_wait(..)]; the wait lets go of the mutex. *)
Fixpoint wait_clients (fuel : nat) : M W unit :=
  n ← list_count; stop ← listener_flag THREAD_STOP;
  if (n =? 0) && negb stop
  then match fuel with O => lift Diverges | S k => unlock;; wait;; lock;; wait_clients k end
  else mret tt.
(** [recv(sock, data_in_buff, DEFAULT_INPUT_BUFF_SIZE, 0)] *)
Definition receive (s : Z) (lo : locals) : M W locals :=
  match data_in_buff lo with
  | None => mret (mkLocals None (Some (-1)))
  | Some b =>
      '(n, d) ← sys (fun k => let '(n, d, k) := sys_recv s DEFAULT_INPUT_BUFF_SIZE k in ((n, d), k));
      b ← lift (if 0 <? n then blk_write b 0 d else mret b); mret (mkLocals (Some b) (Some n))
  end.
Definition remove_client (client : ptr) : M W unit := on_list remove_client_cb (ArrayList_remove_tsafe client).
(** "Error occurred on the socket": the events of a descriptor. *)
Definition bad_events (events : Z) : bool :=
  raised events (Z.lor EPOLLERR EPOLLHUP) || negb (raised events EPOLLIN).
(** The result: the value to return from the loop, after the mutex is free; [None] to go on. *)
Definition data_received (client : ptr) (lo : locals) : M W (option Z * locals) :=
  n ← lift (match data_in_count lo with Some n => Ok n | None => UB Indeterminate end);
  if n <? 1 then remove_client client;; mret (None, lo) else
  cb ← get data_in;
  match cb with
  | None => mret (None, lo)
  | Some cb =>
      rval ← input cb client (data_in_buff lo) n;
      when (raised rval SCB_RVAL_CLOSE_CLIENT) (remove_client client);;
      if raised rval SCB_RVAL_STOP_SERVER then unlock;; mret (Some ALIB_OK, lo) else mret (None, lo)
  end.
Definition first_event : M W epoll_event := evs ← get triggered_events; lift (blk_load evs 0).
Definition client_event (ev : epoll_event) (lo : locals) : M W (option Z * locals) :=
  client ← find_client remove_client_cb ArrayList_find_item_by_value_tsafe (ev_fd ev);
  if client =? NULL then first ← first_event; close_fd (ev_fd first);; mret (None, lo) else
  if bad_events (ev_events ev) then remove_client client;; mret (None, lo) else
  cb ← get data_ready;
  match cb with
  | Some cb =>
      '(rval, b, n) ← ready cb client (data_in_buff lo) (data_in_count lo);
      let lo := mkLocals b n in
      when (raised rval SCB_RVAL_CLOSE_CLIENT) (remove_client client);;
      if raised rval SCB_RVAL_STOP_SERVER then raise_listener THREAD_STOP;; unlock;; mret (Some ALIB_OK, lo) else
      if raised rval (Z.lor SCB_RVAL_HANDLED SCB_RVAL_CLOSE_CLIENT) then mret (None, lo) else
      data_received client lo
  | None =>
      p ← load (A := socket_package) client;
      lo ← receive (sock p) lo; data_received client lo
  end.
(** [for(event_it = ..; event_count > 0; ++event_it, --event_count)] *)
Fixpoint handle_events (event_count : nat) (i : Z) (lo : locals) : M W (option Z * locals) :=
  match event_count with
  | O => mret (None, lo)
  | S n =>
      evs ← get triggered_events; ev ← lift (blk_load evs i);
      '(r, lo) ← client_event ev lo;
      match r with Some _ => mret (r, lo) | None => handle_events n (i + 1) lo end
  end.
Definition turn (fuel : nat) (lo : locals) : M W (option Z * locals) :=
  n ← list_count;
  if n =? 0 then
    cb ← get client_list_empty;
    rval ← (match cb with Some cb => empty cb | None => mret SCB_RVAL_DEFAULT end);
    if raised rval SCB_RVAL_STOP_SERVER then mret (Some ALIB_OK, lo) else
    locked (wait_clients fuel);; mret (None, lo)
  else
  e ← get efd;
  '(event_count, evs) ← sys (fun k => let '(n, evs, k) := sys_epoll_wait e DEFAULT_BACKLOG_SIZE k in ((n, evs), k));
  if event_count =? 0 then mret (None, lo) else
  if event_count <? 0 then
    stop ← listener_flag THREAD_STOP;
    if stop : bool then mret (Some ALIB_OK, lo) else
    e ← get efd; mret (if e >? -1 then None else Some ALIB_CHECK_ERRNO, lo)
  else
    set (fun s => set_triggered_events (evs ++ drop (length evs) (triggered_events s)) s);;
    lock;; '(r, lo) ← handle_events (Z.to_nat event_count) 0 lo;
    match r with Some _ => mret (r, lo) | None => unlock;; mret (None, lo) end.
Fixpoint run_turns (fuel : nat) (lo : locals) : M W (Z * locals) :=
  match fuel with
  | O => lift Diverges
  | S n =>
      stop ← listener_flag THREAD_STOP;
      if stop : bool then mret (ALIB_OK, lo) else
      '(r, lo) ← turn fuel lo; match r with Some rval => mret (rval, lo) | None => run_turns n lo end
  end.
Definition listen_loop (fuel : nat) : M W Z :=
  on_this ALIB_BAD_ARG (
    ok ← gets room;
    if negb ok then mret ALIB_MEM_ERR else
    '(rval, _) ← run_turns fuel (mkLocals (Some (replicate (Z.to_nat DEFAULT_INPUT_BUFF_SIZE) 0)) None);
    mret rval).
Definition threaded_run (fuel : nat) : M W unit :=
  raise_listener THREAD_IS_RUNNING;; lower_listener THREAD_STOP;;
  listen_loop fuel;;
  lower_listener THREAD_IS_RUNNING;; close_epoll_tsafe;; mret tt.

(** * Starting and stopping *)
Definition ClientListener_stop : M W Z :=
  on_this ALIB_BAD_ARG (
    running ← listener_flag THREAD_IS_RUNNING;
    when running (raise_listener THREAD_STOP);;
    close_epoll_tsafe;;
    created ← listener_flag THREAD_CREATED;
    when created (join;; lower_listener THREAD_CREATED);;
    mret ALIB_OK).
Fixpoint wait_empty (fuel : nat) : M W unit :=
  n ← list_count;
  if n =? 0 then mret tt else match fuel with O => lift Diverges | S k => unlock;; wait;; lock;; wait_empty k end.
Definition ClientListener_stop_when_empty (fuel : nat) : M W Z :=
  on_this ALIB_BAD_ARG (
    n ← list_count;
    when (negb (n =? 0)) (locked (wait_empty fuel));;
    ClientListener_stop).
Definition ClientListener_start (fuel : nat) : M W Z :=
  on_this ALIB_BAD_ARG (
    running ← listener_flag THREAD_IS_RUNNING; e ← get efd;
    when (running || (e >? -1)) (ClientListener_stop;; mret tt);;
    err ← init_epoll_tsafe;
    if negb (err =? 0) then mret err else
    err ← add_clients_to_epoll_tsafe;
    if negb (err =? 0) then ClientListener_stop;; mret err else
    err ← listen_loop fuel;
    close_epoll_tsafe;; mret err).
(** [create]: the result of [pthread_create]. *)
Definition ClientListener_start_async (create : Z) : M W Z :=
  on_this ALIB_BAD_ARG (
    running ← listener_flag THREAD_IS_RUNNING; stop ← listener_flag THREAD_STOP;
    if running && negb stop then mret ALIB_OK else
    when (running && stop) (ClientListener_stop;; mret tt);;
    lower_listener THREAD_STOP;;
    err ← init_epoll_tsafe;
    if negb (err =? 0) then mret err else
    err ← add_clients_to_epoll_tsafe;
    if negb (err =? 0) then ClientListener_stop;; mret err else
    created ← listener_flag THREAD_CREATED;
    (if created : bool then join else raise_listener THREAD_CREATED);;
    if negb (create =? 0)
    then lower_listener THREAD_CREATED;; ClientListener_stop;; mret ALIB_THREAD_ERR
    else mret ALIB_OK).

(** * Clients from outside *)
Definition ClientListener_add_socket_package (create : Z) (client_pack : ptr) (run_async : bool) : M W Z :=
  on_this ALIB_BAD_ARG (
    if client_pack =? NULL then mret ALIB_BAD_ARG else
    g ← gets grow; added ← on_list remove_client_cb (ArrayList_add_tsafe g client_pack);
    if added =? 0 then mret ALIB_MEM_ERR else
    running ← listener_flag THREAD_IS_RUNNING; e ← get efd;
    err ← (if running && (e >? -1)
           then pk ← load (A := socket_package) client_pack; add_sock_to_epoll_tsafe (sock pk) else mret 0);
    if negb (err =? 0) then mret err else
    if run_async then ClientListener_start_async create else mret ALIB_OK).
Definition ClientListener_add (create : Z) (s : Z) (run_async : bool) (data : ptr) (free_data : bool) : M W Z :=
  on_this ALIB_BAD_ARG (
    if s <? 0 then mret ALIB_BAD_ARG else
    k ← gets malloc; client_pack ← new_socket_package k s;
    if client_pack =? NULL then mret ALIB_MEM_ERR else
    update client_pack (set_parent self);; update client_pack (set_data data free_data);;
    err ← ClientListener_add_socket_package create client_pack run_async;
    when (negb (err =? 0)) (free_socket_package client_pack);;
    mret err).
Definition ClientListener_remove_socket_package (sp : ptr) : M W unit := on_list remove_client_cb (ArrayList_remove sp).
Definition ClientListener_remove (s : Z) : M W unit :=
  client ← find_client remove_client_cb ArrayList_find_item_by_value s;
  ClientListener_remove_socket_package client.

(** * The rest of the interface *)
Definition ClientListener_get_client_list : M W (option ArrayList) := get client_list.
Definition ClientListener_get_extended_data : M W ptr := get ex_data.
Definition ClientListener_get_flag_pole : M W Z := get flag_pole.
Definition ClientListener_is_listening : M W bool := e ← get efd; mret (e >? -1).
Definition ClientListener_set_client_data_ready_cb (cb : option C) : M W unit :=
  set (fun s => set_callbacks cb (data_in s) (disconnected s) (client_list_empty s) s).
Definition ClientListener_set_client_data_in_cb (cb : option C) : M W unit :=
  set (fun s => set_callbacks (data_ready s) cb (disconnected s) (client_list_empty s) s).
Definition ClientListener_set_client_disconnected_cb (cb : option C) : M W unit :=
  set (fun s => set_callbacks (data_ready s) (data_in s) cb (client_list_empty s) s).
Definition ClientListener_set_client_list_empty_cb (cb : option C) : M W unit :=
  set (fun s => set_callbacks (data_ready s) (data_in s) (disconnected s) cb s).
Definition ClientListener_set_extended_data (data : ptr) (free_data free_old_data : bool) : M W unit :=
  s ← this;
  when (free_old_data && free_extended_data s && negb (ex_data s =? NULL)) (emit (EvFree (ex_data s)));;
  set (set_ex_data data free_data).
(** The double pointer's target; the result is what it is then. *)
Definition delClientListener (listener : option ptr) : M W (option ptr) :=
  match listener with
  | None => mret None
  | Some p =>
      if p =? NULL then mret (Some p) else
      raise_listener OBJECT_DELETE_STATE;;
      on_list remove_client_cb delArrayList;;
      e ← get efd; when (negb (e =? 0)) (close_fd e);;
      s ← this;
      when (free_extended_data s && negb (ex_data s =? NULL)) (emit (EvFree (ex_data s)));;
      emit EvMutexDestroy;; modify (set_object None);; mret (Some NULL)
  end.
(** [ok], [kl]: the outcomes of the allocations of the listener and of its list. *)
Definition newClientListener (ok : bool) (kl : bool * bool) (data : ptr) (free_data : bool) : M W unit :=
  if negb ok then modify (set_object None) else
  emit EvMutexInit;; '(l, t) ← lift (newArrayList kl.1 kl.2 true); emits t;;
  modify (set_object (Some (mkClientListener l (-1) (replicate (Z.to_nat DEFAULT_BACKLOG_SIZE) (mkEpollEvent 0 0))
    data free_data 0 false None None None None)));;
  match l with None => delClientListener (Some self);; mret tt | Some _ => mret tt end.
End listener.
