(* ===== verification/ClientListenerSpec.v ===== *)
(** What the listener of [ClientListener] promises: a run of it, until it is
    stopped, keeps the packages and the descriptors of its clients together,
    whatever is reported and sent; the epoll instance of the run is closed at
    its end.  And where adding a client breaks the listener. *)
From S2P Require Import Prelude Memory Effects Heap AlibTypes TimerEvent ArrayList ArrayListSpec Posix ServerState ServerSpec ClientListener.
Open Scope Z_scope.

Section spec.
Context {K U C : Type} `{PosixLaws K} `{Keeps U}.
Notation W := (world K (ClientListener C) socket_package U).
#[export] Instance ClientListener_holder : Holder (ClientListener C) := {|
  base := fun s => filter (fun d => -1 < d) [efd s]; listening := fun s => [];
  base_clients := fun _ _ => eq_refl; listening_clients := fun _ _ => eq_refl;
  listening_base := fun _ => list_subseteq_nil _ |}.
Lemma listener_base (s : ClientListener C) : base s = if -1 <? efd s then [efd s] else [].
Proof. cbn [base ClientListener_holder]. rewrite filter_cons. destruct (Z.ltb_spec (-1) (efd s)); case_decide; done || lia. Qed.
(** The epoll instance. *)
Definition instance (s : ClientListener C) : option Z := if -1 <? efd s then Some (efd s) else None.

(** How the listener may change while a client is served: its epoll instance may be closed. *)
Record mild (s s' : ClientListener C) : Prop := {
  mild_efd : efd s' = efd s \/ efd s' = -1;
  mild_events : triggered_events s' = triggered_events s;
  mild_ready : data_ready s' = data_ready s }.
#[export] Instance mild_preorder : PreOrder mild.
Proof.
  split; [by split; [left|..]|]. intros a b c [Hab Eab Rab] [Hbc Ebc Rbc]. split; [|congruence|congruence].
  destruct Hbc as [->| ->]; [destruct Hab as [->| ->]|]; auto.
Qed.

Lemma mild_mutex b s : mild s (set_mutex b s).
Proof. by split; [left|..]. Qed.

Context (self : ptr).
Definition socket_of_at (w : W) (p : ptr) : option Z := socket_of <$> packs w !! p.
(** [b]: whether the mutex is held; [E]: the descriptors whose events are still to be handled; [Y]: packages that
    leave the list. *)
Record listener_inv (b : bool) (E : dlist Z) (Y : dlist ptr) (s : ClientListener C) (l : ArrayList) (w : W) : Prop := {
  li_inv : inv (instance s) s l Y [] w;
  li_linked : forall p, p ∈ items l ++ Y -> exists pk, packs w !! p = Some pk /\ parent pk = self;
  li_pending : forall d, d ∈ E -> d ∈ socks (packs w) (items l);
  li_mutex : mutex s = b }.

Lemma listener_get {A} (f : ClientListener C -> A) b E Y s l w (Q : A -> W -> Prop) :
  listener_inv b E Y s l w -> Q (f s) w -> post (get f) Q w.
Proof. intros [Hi _ _ _] HQ. eapply post_get; [apply Hi|done]. Qed.
(** A change of the object that concerns no resource. *)
Lemma listener_field b b' E Y s s' l w : listener_inv b E Y s l w -> efd s' = efd s -> client_list s' = client_list s ->
  mutex s' = b' -> listener_inv b' E Y s' l (set_object (Some s') w).
Proof.
  intros [Hi Hl Hp Hm] E1 E2 E3. split; try done.
  unfold instance. rewrite E1. eapply inv_moved; try exact Hi; try done; try apply Hi.
  - cbn. rewrite E2. apply Hi.
  - by rewrite !listener_base, E1.
Qed.
Lemma listener_kern b E Y s l w k : listener_inv b E Y s l w -> fds k = fds (kern w) ->
  (forall x, watched x k ⊆ watched x (kern w)) -> listener_inv b E Y s l (set_kern k w).
Proof. intros [Hi Hl Hp Hm] Hf Hw. split; try done. apply inv_kern; [done|done|]. by destruct (instance s). Qed.
Lemma listener_pack b E Y s l w p : listener_inv b E Y s l w -> p ∈ items l ++ Y ->
  p <> NULL /\ exists pk, packs w !! p = Some pk /\ parent pk = self /\ 0 <= socket_of pk < 2 ^ 31.
Proof.
  intros [Hi Hl _ _] Hp. destruct (inv_pack _ _ _ _ _ _ p Hi) as (Hn & _); [done|]. split; [done|].
  destruct (Hl p Hp) as (pk & Hpk & Hpar). exists pk. split; [done|]. split; [done|].
  eapply holds_member; [apply Hi|]. rewrite !elem_of_app. do 2 right.
  apply list_elem_of_fmap. exists p. by rewrite Hpk.
Qed.
(** The epoll instance is closed, if it is open. *)
Lemma close_instance b E Y s l w : listener_inv b E Y s l w -> listener_inv b E Y (set_efd (-1) s) l
  (set_object (Some (set_efd (-1) s)) (set_kern (sys_close (efd s) (kern w)) w)).
Proof.
  intros [Hi Hl Hp Hm]. split; try done. change (instance (set_efd (-1) s)) with (None (A := Z)).
  assert (inv None (set_efd (-1) s) l Y (base s) (set_object (Some (set_efd (-1) s)) w)) as Hi2.
  { assert (inv None s l Y [] w) as Hi0 by (destruct Hi; by split).
    eapply inv_moved; try exact Hi0; try done; try apply Hi0; [by rewrite app_nil_r|set_solver]. }
  rewrite listener_base in Hi2. destruct (Z.ltb_spec (-1) (efd s)) as [Hpos|Hneg]; [exact (inv_close _ _ _ _ _ _ _ Hi2)|].
  apply (inv_kern _ _ _ _ _ _ (sys_close (efd s) (kern w))) in Hi2; [exact Hi2| |done].
  rewrite close_closes. assert (efd s ∉ fds (kern w)); [|set_solver].
  intros Hin. apply (holds_range _ _ _ (inv_holds _ _ _ _ _ _ Hi)) in Hin. lia.
Qed.
(** The package of a client that leaves is closed and freed. *)
Lemma free_leaving b E p Y s l w : listener_inv b E (p :: Y) s l w ->
  post (close_and_free_socket_package p) (fun _ w' => listener_inv b E Y s l w') w.
Proof.
  intros Hli. destruct (listener_pack _ _ _ _ _ _ p Hli) as (Hn & pk & Hpk & _ & Hr); [set_solver|].
  destruct Hli as [Hi Hl Hp Hm].
  eapply post_close_and_free; [done..|lia|]. pose proof (inv_nodup _ _ _ _ _ _ Hi) as Hnd. rewrite <- Permutation_middle in Hnd.
  apply NoDup_cons in Hnd as [Hnotin _].
  assert (forall q, q ∈ items l ++ Y -> delete p (packs w) !! q = packs w !! q) as Hdel.
  { intros q Hq. apply lookup_delete_ne. intros ->. done. }
  split; [exact (inv_close _ _ _ _ _ _ _ (inv_release _ _ _ _ _ _ _ _ Hi Hpk))| | |done].
  - intros q Hq. destruct (Hl q) as (qk & Hqk & Hpar); [set_solver|]. exists qk. split; [|done].
    change (delete p (packs w) !! q = Some qk). by rewrite Hdel.
  - intros d Hd%Hp. change (d ∈ socks (delete p (packs w)) (items l)).
    rewrite (socks_ext _ (packs w)); [done|]. intros q Hq. apply Hdel. set_solver.
Qed.

(** The client's code leaves the listener's clients alone; between two batches it may add some. *)
Context (ready : C -> ptr -> option (dlist Z) -> option Z -> M W (Z * option (dlist Z) * option Z)).
Context (input : C -> ptr -> option (dlist Z) -> Z -> M W Z).
Context (gone : C -> ptr -> M W Z) (empty : C -> M W Z) (room : W -> bool) (wait join : M W unit).
Definition calm (s : ClientListener C) (w' : W) : Prop := exists s' l', mild s s' /\ listener_inv false [] [] s' l' w'.
Record listener_code : Prop := {
  gone_ok c b E p Y s l w : listener_inv b E (p :: Y) s l w -> post (gone c p) (fun _ w' =>
    exists s', mild s s' /\ listener_inv b E (p :: Y) s' l w') w;
  ready_ok c E p b n s l w : listener_inv true E [] s l w -> p ∈ items l ->
    post (ready c p b n) (fun '(r, _, n') w' => (exists s', mild s s' /\ listener_inv true E [] s' l w') /\
      socket_of_at w' p = socket_of_at w p /\
      (raised r (Z.lor SCB_RVAL_HANDLED SCB_RVAL_CLOSE_CLIENT) = false -> is_Some n')) w;
  input_ok c E p b n s l w : listener_inv true E [] s l w -> p ∈ items l ->
    post (input c p b n) (fun _ w' => (exists s', mild s s' /\ listener_inv true E [] s' l w') /\
      socket_of_at w' p = socket_of_at w p) w;
  empty_ok c s l w : listener_inv false [] [] s l w -> post (empty c) (fun _ w' => calm s w') w;
  wait_ok s l w : listener_inv false [] [] s l w -> post wait (fun _ w' => calm s w') w }.
Hypothesis Hcode : listener_code.
Hypothesis Hself : self <> NULL.
Notation remove_client_cb := (remove_client_cb self gone).
Lemma listener_client_inv b E : client_inv (fun s l Y w => listener_inv b E Y s l w)
  (fun w p => forall d, socket_of_at w p = Some d -> d ∉ E).
Proof.
  split; [intros s l Y w [[] _ _ _]; done|]. intros s l Y w l' Y' [Hi Hl Hp Hm] Hl' HY HL. split; try done.
  - by apply (ci_moved _ _ (inv_client_inv (instance s) []) s l Y); auto.
  - intros p Hpin. apply Hl. rewrite <- HY. done.
  - intros d Hd. pose proof (Hp d Hd) as Hin. apply list_elem_of_fmap in Hin as (p & Hpd & Hin).
    destruct (inv_pack _ _ _ _ _ _ p Hi) as (_ & pk & Hpk); [set_solver|]. rewrite Hpk in Hpd.
    assert (p ∈ items l' ++ Y') as Hin' by (rewrite HY; set_solver).
    apply elem_of_app in Hin' as [Hin'|Hin'].
    + change (d ∈ socks (packs w) (items l')). apply list_elem_of_fmap. exists p. by rewrite Hpk.
    + destruct (HL p Hin') as [HpY|HLp].
      * pose proof (inv_nodup _ _ _ _ _ _ Hi) as Hnd. apply NoDup_app in Hnd as (_ & Hnd & _). by destruct (Hnd p).
      * destruct (HLp d); [|done]. unfold socket_of_at. rewrite Hpk. cbn. by rewrite Hpd.
Qed.
Lemma removal_ok b E : frees_packages remove_client_cb (fun s l Y w => listener_inv b E Y s l w) mild.
Proof.
  intros s l Y p w Hli. destruct (listener_pack _ _ _ _ _ _ p Hli) as (Hn & pk & Hpk & Hpar & _); [set_solver|].
  unfold ClientListener.remove_client_cb. apply post_bind. eapply post_load; [done..|]. rewrite Hpar.
  rewrite (proj2 (Z.eqb_neq _ _)), Z.eqb_refl by done. cbn [negb].
  assert (Hclose : forall s1 w1, mild s s1 -> listener_inv b E (p :: Y) s1 l w1 -> post (close_and_free_socket_package p)
    (fun _ w' => exists s', mild s s' /\ listener_inv b E Y s' l w') w1).
  { intros s1 w1 Ht Hli1. eapply post_mono; [by eapply free_leaving|cbv beta]. intros _ w2 Hw2. by exists s1. }
  apply post_bind. eapply listener_get; [exact Hli|]. apply post_bind.
  destruct (disconnected s) as [c|]; [|apply post_ret; by apply (Hclose s)].
  apply post_bind. eapply post_mono; [by apply (gone_ok Hcode)|cbv beta]. intros rval w1 (s1 & Ht & Hli1).
  apply post_when; intros _; [|by apply (Hclose s1)].
  apply post_bind. unfold raise_listener. eapply post_set; [apply (li_inv _ _ _ _ _ _ Hli1)|]. set (s2 := set_flag_pole _ s1).
  assert (listener_inv b E (p :: Y) s2 l (set_object (Some s2) w1)) as Hli2 by (eapply listener_field; [exact Hli1|..]; try done; apply Hli1).
  apply post_bind. eapply listener_get; [exact Hli2|]. apply post_bind, post_sys. cbn [fst snd].
  eapply post_set; [apply (li_inv _ _ _ _ _ _ Hli2)|]. apply (Hclose (set_efd (-1) s2)); [|by apply close_instance].
  etrans; [exact Ht|]. by split; [right|..].
Qed.

(** ** Serving a client *)
Definition buff_ok (s : ClientListener C) (lo : locals) : Prop :=
  data_ready s = None -> exists b, data_in_buff lo = Some b /\ blen b = DEFAULT_INPUT_BUFF_SIZE.
(** An event has been served; the mutex is free when the loop is left. *)
Definition served (E : dlist Z) (s : ClientListener C) (r : option Z) (lo : locals) (w : W) : Prop :=
  exists s' l, mild s s' /\ buff_ok s' lo /\ listener_inv (if r then false else true) (if r then [] else E) [] s' l w.
Lemma served_after E s s1 r lo w : mild s s1 -> served E s1 r lo w -> served E s r lo w.
Proof. intros Hm (s' & l & Hm' & H'). exists s', l. split; [by etrans|done]. Qed.
Lemma served_on E s l lo w : buff_ok s lo -> listener_inv true E [] s l w -> served E s None lo w.
Proof. intros Hb Hli. by exists s, l. Qed.
Lemma mild_buff s s' lo : mild s s' -> buff_ok s lo -> buff_ok s' lo.
Proof. intros [_ _ Hr] Hb Hn. apply Hb. by rewrite <- Hr. Qed.
Lemma fewer_pending b E Y s l w : listener_inv b E Y s l w -> listener_inv b [] Y s l w.
Proof. intros [Hi Hl Hp Hm]. split; try done. by intros d ?%elem_of_nil. Qed.
Lemma remove_one E p s l w : listener_inv true E [] s l w -> p ∈ items l -> (forall d, socket_of_at w p = Some d -> d ∉ E) ->
  post (remove_client self gone p) (fun _ w' => exists s' l', mild s s' /\ listener_inv true E [] s' l' w') w.
Proof.
  intros Hli Hp HE. destruct (listener_pack _ _ _ _ _ _ p Hli) as (Hn & _); [set_solver|]. unfold remove_client.
  eapply post_mono; [eapply (remove_clients_ok _ _ _ (listener_client_inv true E) mild); [apply removal_ok|exact Hli|done|by right|exact HE]|].
  intros _ w1 (s1 & l1 & Ht & Hli1 & _). exists s1, l1. split; [|done]. etrans; [|exact Ht]. by split; [left|..].
Qed.
Lemma remove_if E p b lo s l w (Q : unit -> W -> Prop) : listener_inv true E [] s l w -> buff_ok s lo -> p ∈ items l ->
  (forall d, socket_of_at w p = Some d -> d ∉ E) -> (forall w', served E s None lo w' -> Q tt w') ->
  post (when b (remove_client self gone p)) Q w.
Proof.
  intros Hli Hb Hp HE HQ. apply post_when; intros _; [|by apply HQ, (served_on _ _ l)].
  eapply post_mono; [by eapply remove_one|cbv beta]. intros [] w1 (s1 & l1 & Ht & Hli1). apply HQ.
  exists s1, l1. split; [done|]. split; [by eapply mild_buff|done].
Qed.
Lemma leave_loop_ok E s lo w (Q : unit -> W -> Prop) r : served E s None lo w ->
  (forall w', served E s (Some r) lo w' -> Q tt w') -> post unlock Q w.
Proof.
  intros (s1 & l & Hm & Hb & Hli) HQ. unfold unlock. apply post_bind, post_emit.
  eapply post_set; [apply (li_inv _ _ _ _ _ _ Hli)|]. apply HQ. exists (set_mutex false s1), l.
  split; [etrans; [exact Hm|]; by split; [left|..]|]. split; [done|]. apply (fewer_pending false E). eapply listener_field; [exact Hli|done..].
Qed.
Lemma recv_ok E d s l w lo : listener_inv true E [] s l w -> buff_ok s lo -> data_ready s = None ->
  post (receive d lo) (fun lo' w' => listener_inv true E [] s l w' /\ buff_ok s lo' /\ packs w' = packs w /\
    is_Some (data_in_count lo')) w.
Proof.
  intros Hli Hlo Hr. destruct (Hlo Hr) as (b & Hb & Hlen). unfold receive. rewrite Hb.
  apply post_bind, post_sys. pose proof (recv_opens d DEFAULT_INPUT_BUFF_SIZE (kern w)) as Hf.
  pose proof (fun x => recv_watches x d DEFAULT_INPUT_BUFF_SIZE (kern w)) as Hw.
  pose proof (recv_fits d DEFAULT_INPUT_BUFF_SIZE (kern w)) as Hfit.
  destruct (sys_recv d DEFAULT_INPUT_BUFF_SIZE (kern w)) as [[n data] k']. cbn [fst snd] in *. apply post_bind.
  assert (listener_inv true E [] s l (set_kern k' w)) as Hli1 by (apply listener_kern; [done|done|intros x; by rewrite Hw]).
  destruct (received_fits b data n Hlen Hfit) as (b' & E1 & Hb').
  eapply post_lift; [exact E1|]. apply post_ret. split; [done|]. split; [|by split; [|eexists]]. intros _. by exists b'.
Qed.
Lemma received_ok E p s l w lo : listener_inv true E [] s l w -> buff_ok s lo -> p ∈ items l ->
  (forall d, socket_of_at w p = Some d -> d ∉ E) -> is_Some (data_in_count lo) ->
  post (data_received self input gone p lo) (fun '(r, lo') w' => served E s r lo' w') w.
Proof.
  intros Hli Hlo Hp HE [n Hn]. unfold data_received. rewrite Hn. apply post_bind. eapply post_lift; [done|].
  apply post_if; intros _.
  { apply post_bind. apply (remove_if E p true lo s l); [done..|]. intros w1 Hw1. by apply post_ret. }
  apply post_bind. eapply listener_get; [exact Hli|]. destruct (data_in s) as [c|]; [|by apply post_ret, (served_on _ _ l)].
  apply post_bind. eapply post_mono; [by apply (input_ok Hcode)|cbv beta]. intros rval w2 ((s2 & Ht & Hli2) & Hsame).
  apply post_bind. apply (remove_if E p _ lo s2 l); [done|by eapply mild_buff|done|by intros d; rewrite Hsame; apply HE|].
  intros w3 Hw3%(served_after _ _ _ _ _ _ Ht). apply post_if; intros _; [|by apply post_ret].
  apply post_bind. eapply leave_loop_ok; [exact Hw3|]. intros w4 Hw4. by apply post_ret.
Qed.
Lemma client_served E ev s l w lo : listener_inv true E [] s l w -> buff_ok s lo ->
  ev_fd ev ∈ socks (packs w) (items l) -> ev_fd ev ∉ E ->
  post (client_event self ready input gone ev lo) (fun '(r, lo') w' => served E s r lo' w') w.
Proof.
  intros Hli Hlo Hin HE. unfold client_event. apply post_bind. pose proof (li_inv _ _ _ _ _ _ Hli) as Hi.
  assert (0 <= ev_fd ev < 2 ^ 31) as Hr.
  { eapply holds_member; [apply Hi|]. rewrite !elem_of_app. do 2 right. by rewrite app_nil_r. }
  destruct (find_client_run remove_client_cb _ _ _ _ _ _ (ev_fd ev) Hi Hr) as (t & Ef).
  exists (found (packs w) l (ev_fd ev)), w, t. split; [exact Ef|]. clear Ef t.
  destruct (found_in _ _ _ _ _ _ _ Hi Hr Hin) as (Hp & pk & Hpk & Hd). revert Hp Hpk.
  generalize (found (packs w) l (ev_fd ev)). intros p Hp Hpk.
  destruct (listener_pack _ _ _ _ _ _ p Hli) as (Hn & _); [set_solver|]. rewrite (proj2 (Z.eqb_neq _ _)) by done.
  assert (HEp : forall x, socket_of_at w p = Some x -> x ∉ E).
  { intros x. unfold socket_of_at. rewrite Hpk. cbn. intros [= <-]. by rewrite Hd. }
  apply post_if; intros _.
  { apply post_bind. apply (remove_if E p true lo s l); [done..|]. intros w1 Hw1. by apply post_ret. }
  apply post_bind. eapply listener_get; [exact Hli|]. destruct (data_ready s) as [c|] eqn:Ec; cycle 1.
  { apply post_bind. eapply post_load; [done..|]. apply post_bind. eapply post_mono; [by eapply recv_ok|cbv beta].
    intros lo1 w1 (Hli1 & Hlo1 & Hpacks & Hcount). eapply received_ok; try done. unfold socket_of_at. by rewrite Hpacks. }
  apply post_bind. eapply post_mono; [by apply (ready_ok Hcode)|cbv beta].
  intros [[rval b] n] w2 ((s2 & Ht & Hli2) & Hsame & Hcount). cbv beta iota.
  assert (buff_ok s2 (mkLocals b n)) as Hlo2.
  { intros Hnone. rewrite (mild_ready _ _ Ht), Ec in Hnone. done. }
  assert (HEp2 : forall x, socket_of_at w2 p = Some x -> x ∉ E) by (intros x; rewrite Hsame; apply HEp).
  destruct (raised rval SCB_RVAL_CLOSE_CLIENT) eqn:Ecl.
  - rewrite raised_lor, Ecl, orb_true_r.
    apply post_bind. apply (remove_if E p true (mkLocals b n) s2 l); [done..|]. intros w3 (s3 & l3 & Ht3 & Hb3 & Hli3).
    apply post_if; intros _; [|apply post_ret; exists s3, l3; split; [by etrans|done]].
    apply post_bind. unfold raise_listener. eapply post_set; [apply (li_inv _ _ _ _ _ _ Hli3)|]. apply post_bind.
    eapply leave_loop_ok; [|intros w4 Hw4; apply post_ret; exact Hw4].
    eexists _, l3. split; [|split; [|by eapply listener_field; [exact Hli3|..|apply Hli3]]]; [|done].
    etrans; [exact Ht|]. etrans; [exact Ht3|]. by split; [left|..].
  - apply post_bind, post_ret. apply post_if; intros _.
    { apply post_bind. unfold raise_listener. eapply post_set; [apply (li_inv _ _ _ _ _ _ Hli2)|]. apply post_bind.
      eapply leave_loop_ok; [|intros w4 Hw4; apply post_ret; exact Hw4].
      eexists _, l. split; [|split; [|by eapply listener_field; [exact Hli2|..|apply Hli2]]]; [|done].
      etrans; [exact Ht|]. by split; [left|..]. }
    apply post_if; intros Hh; [apply post_ret; exists s2, l; done|].
    eapply post_mono; [eapply received_ok; [exact Hli2|done|done|done|by apply Hcount]|].
    intros [r lo'] w3 Hw3. by eapply served_after.
Qed.

(** ** A turn *)
Notation handle_events := (handle_events self ready input gone).
Lemma events_ok n : forall i lo s l w, 0 <= i -> (Z.to_nat i + n <= length (triggered_events s))%nat ->
  let E := ev_fd <$> take n (drop (Z.to_nat i) (triggered_events s)) in
  NoDup E -> listener_inv true E [] s l w -> buff_ok s lo ->
  post (handle_events n i lo) (fun '(r, lo') w' => served [] s r lo' w') w.
Proof.
  induction n as [|n IH]; intros i lo s l w Hi Hlen E Hnd Hli Hlo; [by apply post_ret, (served_on _ _ l)|].
  destruct (lookup_lt_is_Some_2 (triggered_events s) (Z.to_nat i)) as [ev Hev]; [lia|]. subst E.
  rewrite (drop_S _ _ _ Hev) in Hnd, Hli. cbn [firstn fmap list_fmap] in Hnd, Hli.
  replace (S (Z.to_nat i)) with (Z.to_nat (i + 1)) in * by lia.
  change (list_fmap epoll_event Z ev_fd) with (fmap (M := Datatypes.list) (A := epoll_event) ev_fd) in *.
  set (E := ev_fd <$> take n (drop (Z.to_nat (i + 1)) (triggered_events s))) in *.
  apply NoDup_cons in Hnd as [Hni Hnd]. pose proof (li_pending _ _ _ _ _ _ Hli (ev_fd ev)) as Hin.
  assert (listener_inv true E [] s l w) as Hli1.
  { destruct Hli as [Hinv Hl Hp Hm]. split; try done. intros d Hd. apply Hp. set_solver. }
  cbn [ClientListener.handle_events]. apply post_bind. eapply listener_get; [exact Hli1|]. apply post_bind.
  eapply post_lift; [by apply blk_load_ok|]. apply post_bind.
  eapply post_mono; [eapply client_served; [exact Hli1|done|apply Hin; set_solver|done]|].
  intros [[r|] lo1] w1 (s1 & l1 & Ht & Hlo1 & Hli2).
  - apply post_ret. by exists s1, l1.
  - pose proof (mild_events _ _ Ht) as Hev1. unfold E in Hli2, Hnd. rewrite <- Hev1 in Hli2, Hnd.
    eapply post_mono; [eapply (IH (i + 1) lo1 s1 l1); [lia|rewrite Hev1; lia|done..]|].
    intros [r lo2] w2 Hw2. by eapply served_after.
Qed.
(** Between two turns. *)
Definition going (s : ClientListener C) (lo : locals) (w : W) : Prop :=
  exists s' l, data_ready s' = data_ready s /\ (efd s' = efd s \/ efd s' = -1) /\ buff_ok s' lo /\
    blen (triggered_events s') = DEFAULT_BACKLOG_SIZE /\ listener_inv false [] [] s' l w.
Lemma going_calm s s1 lo w : data_ready s1 = data_ready s -> (efd s1 = efd s \/ efd s1 = -1) -> buff_ok s1 lo ->
  blen (triggered_events s1) = DEFAULT_BACKLOG_SIZE -> calm s1 w -> going s lo w.
Proof.
  intros Hr He Hb Hl (s2 & l2 & Ht & Hli). exists s2, l2. split; [etrans; [apply Ht|done]|].
  split; [destruct (mild_efd _ _ Ht) as [->| ->]; auto|]. split; [by eapply mild_buff|]. by rewrite (mild_events _ _ Ht).
Qed.
Lemma lock_ok E Y s l w (Q : unit -> W -> Prop) : listener_inv false E Y s l w ->
  (let s' := set_mutex true s in listener_inv true E Y s' l (set_object (Some s') w) ->
    Q tt (set_object (Some s') w)) -> post lock Q w.
Proof.
  intros Hli HQ. unfold lock. apply post_bind. eapply listener_get; [exact Hli|]. rewrite (li_mutex _ _ _ _ _ _ Hli).
  apply post_bind, post_emit. eapply post_set; [apply (li_inv _ _ _ _ _ _ Hli)|]. apply HQ. eapply listener_field; [exact Hli|done..].
Qed.
Lemma unlocked_ok E Y s l w (Q : unit -> W -> Prop) b : listener_inv b E Y s l w ->
  (let s' := set_mutex false s in listener_inv false E Y s' l (set_object (Some s') w) ->
    Q tt (set_object (Some s') w)) -> post unlock Q w.
Proof.
  intros Hli HQ. unfold unlock. apply post_bind, post_emit. eapply post_set; [apply (li_inv _ _ _ _ _ _ Hli)|].
  apply HQ. eapply listener_field; [exact Hli|done..].
Qed.
Lemma count_get b E Y s l w (Q : Z -> W -> Prop) : listener_inv b E Y s l w -> Q (count l) w -> post list_count Q w.
Proof.
  intros Hli HQ. unfold list_count. apply post_bind. eapply listener_get; [exact Hli|].
  change (client_list s) with (clients s). rewrite (inv_clients _ _ _ _ _ _ (li_inv _ _ _ _ _ _ Hli)).
  apply post_bind. eapply post_lift; [done|]. by apply post_ret.
Qed.
Lemma flag_get f b E Y s l w (Q : bool -> W -> Prop) : listener_inv b E Y s l w -> Q (raised (flag_pole s) f) w -> post (listener_flag f) Q w.
Proof. intros Hli HQ. unfold listener_flag. apply post_bind. eapply listener_get; [exact Hli|]. by apply post_ret. Qed.
Lemma wait_clients_ok fuel : forall s l w, listener_inv true [] [] s l w ->
  safe (wait_clients wait fuel) (fun _ w' => exists s' l', mild s s' /\ listener_inv true [] [] s' l' w') w.
Proof.
  induction fuel as [|fuel IH]; intros s l w Hli; cbn [wait_clients];
    (apply safe_bind, post_safe; eapply count_get; [exact Hli|]; apply safe_bind, post_safe; eapply flag_get; [exact Hli|]);
    destruct (_ && _); try done; try (exists s, l; done).
  apply safe_bind, post_safe. eapply unlocked_ok; [exact Hli|]. intros s1 Hli1. apply safe_bind, post_safe.
  eapply post_mono; [by eapply (wait_ok Hcode)|cbv beta]. intros _ w2 (s2 & l2 & Ht2 & Hli2).
  apply safe_bind, post_safe. eapply lock_ok; [exact Hli2|]. intros s3 Hli3. eapply safe_mono; [by apply (IH s3 l2)|].
  intros _ w4 (s4 & l4 & Ht4 & Hli4). exists s4, l4. split; [|done]. etrans; [apply (mild_mutex false)|].
  etrans; [exact Ht2|]. etrans; [apply (mild_mutex true)|exact Ht4].
Qed.
Lemma turn_safe fuel s lo w : going s lo w ->
  safe (turn self ready input gone empty wait fuel lo) (fun '(_, lo') w' => going s lo' w') w.
Proof.
  intros (s1 & l & Hr & He & Hb & Hev & Hli). pose proof (li_inv _ _ _ _ _ _ Hli) as Hi. unfold turn.
  assert (Hgo : forall w', calm s1 w' -> going s lo w').
  { intros w' Hw'. by eapply (going_calm s s1). }
  apply safe_bind, post_safe. eapply count_get; [exact Hli|]. destruct (count l =? 0).
  { apply safe_bind, post_safe. eapply listener_get; [exact Hli|]. apply safe_bind, post_safe.
    assert (post (match client_list_empty s1 with Some cb => empty cb | None => mret SCB_RVAL_DEFAULT end)
      (fun _ w' => calm s1 w') w) as Hcb.
    { destruct (client_list_empty s1) as [c|]; [by eapply (empty_ok Hcode)|]. apply post_ret. by exists s1, l. }
    eapply post_mono; [exact Hcb|cbv beta]. intros rval w1 Hw1. destruct (raised rval SCB_RVAL_STOP_SERVER); [by apply Hgo|].
    destruct Hw1 as (s2 & l2 & Ht2 & Hli2). unfold locked. apply safe_bind, safe_bind, post_safe.
    eapply lock_ok; [exact Hli2|]. intros s3 Hli3. apply safe_bind. eapply safe_mono; [by eapply wait_clients_ok|cbv beta].
    intros a w4 (s4 & l4 & Ht4 & Hli4). apply safe_bind, post_safe. eapply unlocked_ok; [exact Hli4|]. intros s5 Hli5.
    apply (Hgo _). exists s5, l4. split; [|done]. etrans; [exact Ht2|]. etrans; [apply (mild_mutex true)|].
    etrans; [exact Ht4|apply mild_mutex]. }
  apply post_safe. apply post_bind. eapply listener_get; [exact Hli|]. apply post_bind, post_sys.
  pose proof (epoll_wait_opens (efd s1) DEFAULT_BACKLOG_SIZE (kern w)) as Hf.
  pose proof (fun x => epoll_wait_watches x (efd s1) DEFAULT_BACKLOG_SIZE (kern w)) as Hwa.
  pose proof (epoll_wait_reports (efd s1) DEFAULT_BACKLOG_SIZE (kern w)) as Hrep.
  pose proof (epoll_wait_bad (efd s1) DEFAULT_BACKLOG_SIZE (kern w)) as Hbad.
  destruct (sys_epoll_wait (efd s1) DEFAULT_BACKLOG_SIZE (kern w)) as [[n evs] k']. cbn [fst snd] in *.
  assert (listener_inv false [] [] s1 l (set_kern k' w)) as Hli1 by (apply listener_kern; [done|done|intros x; by rewrite Hwa]).
  assert (going s lo (set_kern k' w)) as Hgo1 by (apply Hgo; by exists s1, l).
  apply post_if; intros Hz; [by apply post_ret|]. apply Z.eqb_neq in Hz. apply post_if; intros Hneg.
  { apply post_bind. eapply flag_get; [exact Hli1|]. apply post_if; intros _; [by apply post_ret|].
    apply post_bind. eapply listener_get; [exact Hli1|]. by apply post_ret. }
  apply Z.ltb_ge in Hneg. destruct Hrep as (Hn & Hle & Hwatch & Hnd); [lia|].
  apply post_bind. eapply post_set; [apply (li_inv _ _ _ _ _ _ Hli1)|].
  set (T := evs ++ drop (length evs) (triggered_events s1)). set (s2 := ClientListener.set_triggered_events T s1).
  assert (blen T = DEFAULT_BACKLOG_SIZE) as HT.
  { unfold T, blen in *. rewrite length_app, length_drop. lia. }
  assert (take (Z.to_nat n) T = evs) as Htake.
  { unfold T. rewrite Hn, Nat2Z.id. apply take_app_length. }
  assert (listener_inv false [] [] s2 l (set_object (Some s2) (set_kern k' w))) as Hli2.
  { eapply listener_field; [exact Hli1|done..|]. apply Hli1. }
  apply post_bind. eapply lock_ok; [exact Hli2|]. intros s3 Hli3. apply post_bind.
  eapply post_mono; [eapply (events_ok (Z.to_nat n) 0 lo s3 l)|].
  - done.
  - change (triggered_events s3) with T. unfold blen in HT. change (Z.to_nat 0) with 0%nat. lia.
  - change (triggered_events s3) with T. change (Z.to_nat 0) with 0%nat. by rewrite drop_0, Htake.
  - change (triggered_events s3) with T. change (Z.to_nat 0) with 0%nat. rewrite drop_0, Htake. destruct Hli3 as [Hi3 Hl3 Hp3 Hm3].
    split; try done. intros d (v & -> & Hv)%list_elem_of_fmap. rewrite Forall_forall in Hwatch. specialize (Hwatch v Hv).
    pose proof (inv_watch _ _ _ _ _ _ (li_inv _ _ _ _ _ _ Hli1)) as Hw. unfold instance in Hw.
    destruct (Z.ltb_spec (-1) (efd s1)) as [Hpos|Hneg'].
    + specialize (Hw (ev_fd v)). cbn [set_kern kern packs listening ClientListener_holder app] in Hw. rewrite app_nil_r in Hw.
      rewrite Hwa in Hw. exact (Hw Hwatch).
    + assert (n <= 0); [|lia]. apply Hbad. intros Hin. apply (holds_range _ _ _ (inv_holds _ _ _ _ _ _ Hi)) in Hin. lia.
  - done.
  - intros [r lo1] w1 Hsv. assert (Hfin : forall s4 l4 w4, mild s3 s4 -> buff_ok s4 lo1 -> listener_inv false [] [] s4 l4 w4 ->
      going s lo1 w4).
    { intros s4 l4 w4 Ht4 Hb4 Hli4. exists s4, l4. split; [etrans; [apply Ht4|done]|].
      split; [destruct (mild_efd _ _ Ht4) as [->| ->]; auto|]. split; [done|]. by rewrite (mild_events _ _ Ht4). }
    destruct Hsv as (s4 & l4 & Ht4 & Hb4 & Hli4). destruct r as [r|]; [apply post_ret; by eapply Hfin|].
    apply post_bind. eapply unlocked_ok; [exact Hli4|]. intros s5 Hli5. apply post_ret. eapply (Hfin s5); [|done|done].
    etrans; [exact Ht4|]. by split; [left|..].
Qed.
Lemma run_safe fuel : forall s lo w, going s lo w ->
  safe (run_turns self ready input gone empty wait fuel lo) (fun '(_, lo') w' => going s lo' w') w.
Proof.
  induction fuel as [|fuel IH]; intros s lo w Hgo; [done|]. pose proof Hgo as (s1 & l & _ & _ & _ & _ & Hli).
  cbn [run_turns]. apply safe_bind, post_safe. eapply flag_get; [exact Hli|]. destruct (raised _ _); [done|].
  apply safe_bind. eapply safe_mono; [by apply turn_safe|]. intros [[r|] lo1] w1 Hw1; [done|by apply IH].
Qed.
Lemma loop_safe fuel s l w : listener_inv false [] [] s l w -> blen (triggered_events s) = DEFAULT_BACKLOG_SIZE ->
  safe (listen_loop self ready input gone empty room wait fuel) (fun _ w' => exists s' l',
    (efd s' = efd s \/ efd s' = -1) /\ listener_inv false [] [] s' l' w') w.
Proof.
  intros Hli HT. unfold listen_loop, on_this. apply safe_bind, post_safe, post_gets.
  rewrite (inv_object _ _ _ _ _ _ (li_inv _ _ _ _ _ _ Hli)). apply safe_bind, post_safe, post_gets.
  destruct (room w); cbn [negb]; [|apply post_safe, post_ret; exists s, l; auto]. apply safe_bind.
  eapply safe_mono; [apply (run_safe fuel s)|].
  - exists s, l. split; [done|]. split; [by left|]. split; [|done]. intros _. eexists. split; [done|].
    unfold blen. rewrite length_replicate. unfold DEFAULT_INPUT_BUFF_SIZE. lia.
  - intros [r lo] w1 (s1 & l1 & _ & He & _ & _ & Hli1). by exists s1, l1.
Qed.

(** ** A run *)
Lemma close_epoll_ok b Y s l w : listener_inv b [] Y s l w -> b = false ->
  post close_epoll_tsafe (fun _ w' => exists s', efd s' = -1 /\ flag_pole s' = flag_pole s /\ listener_inv false [] Y s' l w') w.
Proof.
  intros Hli ->. unfold close_epoll_tsafe, locked. apply post_bind, post_bind. eapply lock_ok; [exact Hli|].
  intros s1 Hli1. apply post_bind, post_bind. eapply listener_get; [exact Hli1|]. apply post_bind, post_sys. cbn [fst snd].
  eapply post_set; [apply (li_inv _ _ _ _ _ _ Hli1)|]. pose proof (close_instance _ _ _ _ _ _ Hli1) as Hli2.
  apply post_bind. eapply unlocked_ok; [exact Hli2|]. intros s3 Hli3. by apply post_ret, post_ret; exists s3.
Qed.
Definition no_thread (s : ClientListener C) : Prop := Z.land (flag_pole s) (Z.lor THREAD_CREATED THREAD_IS_RUNNING) = 0.
Lemma no_thread_flags s : no_thread s -> raised (flag_pole s) THREAD_CREATED = false /\ raised (flag_pole s) THREAD_IS_RUNNING = false.
Proof.
  unfold no_thread. intros Hz. apply orb_false_iff. rewrite <- raised_lor. unfold raised. by rewrite Hz.
Qed.
Lemma stop_idle s l w : listener_inv false [] [] s l w -> no_thread s ->
  post (ClientListener_stop join) (fun _ w' => exists s', efd s' = -1 /\ listener_inv false [] [] s' l w') w.
Proof.
  intros Hli [Hc Hr]%no_thread_flags. unfold ClientListener_stop. eapply post_on_this; [apply (li_inv _ _ _ _ _ _ Hli)|].
  apply post_bind. eapply flag_get; [exact Hli|]. rewrite Hr. apply post_bind, post_ret, post_bind.
  eapply post_mono; [by eapply close_epoll_ok|cbv beta]. intros _ w1 (s1 & He & Hf & Hli1). apply post_bind.
  eapply flag_get; [exact Hli1|]. rewrite Hf, Hc. apply post_bind, post_ret, post_ret. by exists s1.
Qed.
Lemma init_epoll_ok s l w : listener_inv false [] [] s l w -> efd s < 0 ->
  post init_epoll_tsafe (fun err w' => exists s', flag_pole s' = flag_pole s /\ listener_inv false [] [] s' l w' /\
    if err =? 0 then -1 < efd s' /\ blen (triggered_events s') = DEFAULT_BACKLOG_SIZE else efd s' < 0) w.
Proof.
  intros Hli He. unfold init_epoll_tsafe. eapply post_on_this; [apply (li_inv _ _ _ _ _ _ Hli)|]. unfold locked. apply post_bind.
  eapply lock_ok; [exact Hli|]. intros s1 Hli1. apply post_bind. unfold init_epoll. apply post_bind, post_sys.
  cbn [set_object kern]. pose proof (epoll_create_opens (kern w)) as Hop. pose proof (fun x => epoll_create_watches x (kern w)) as Hwa.
  destruct (sys_epoll_create (kern w)) as [e k']. cbn [fst snd] in *. apply post_bind.
  eapply post_set; [apply (li_inv _ _ _ _ _ _ Hli1)|]. set (s2 := set_efd e s1).
  destruct Hli1 as [Hi Hl Hp Hm]. unfold instance in Hi. rewrite (proj2 (Z.ltb_ge _ _)) in Hi by (cbn; lia).
  assert (listener_inv true [] [] s2 l (set_object (Some s2) (set_kern k' (set_object (Some s1) w)))) as Hli2.
  { split; try done. unfold instance. cbn [efd s2 set_efd]. destruct (Z.ltb_spec (-1) e) as [Hpos|Hneg].
    - destruct Hi as [Ho Hc Hlist Hn Hnn Hpk Hh Hw]. split; try done; cbn [set_object set_kern kern packs user].
      + eapply holds_perm; [|eapply (holds_opened e k'); [exact Hop|exact Hh|lia]].
        rewrite !listener_base. cbn [efd s2 set_efd s1 set_mutex]. by rewrite (proj2 (Z.ltb_lt _ e)), (proj2 (Z.ltb_ge _ (efd s))) by lia.
      + intros d. rewrite Hwa, Z.eqb_refl. set_solver.
    - assert (inv None s1 l [] [] (set_kern k' (set_object (Some s1) w))) as Hi1.
      { apply inv_kern; [done| |done]. by destruct Hop as [[_ ?]|[? _]]; [|lia]. }
      eapply inv_moved; try exact Hi1; try done; try apply Hi1.
      rewrite !listener_base. cbn [efd s2 set_efd s1 set_mutex]. by rewrite !(proj2 (Z.ltb_ge _ _)) by lia. }
  apply post_if; intros Hneg.
  - apply Z.ltb_lt in Hneg. apply post_ret. apply post_bind. eapply unlocked_ok; [exact Hli2|]. intros s3 Hli3. apply post_ret.
    by exists s3.
  - apply Z.ltb_ge in Hneg. apply post_bind. eapply post_set; [apply (li_inv _ _ _ _ _ _ Hli2)|].
    set (s3 := ClientListener.set_triggered_events _ s2).
    assert (listener_inv true [] [] s3 l (set_object (Some s3) (set_object (Some s2) (set_kern k' (set_object (Some s1) w))))) as Hli3
      by (eapply listener_field; [exact Hli2|done..]).
    apply post_ret, post_bind. eapply unlocked_ok; [exact Hli3|]. intros s4 Hli4. apply post_ret. exists s4.
    split; [done|]. split; [done|]. cbn. split; [lia|]. by unfold blen; rewrite length_replicate.
Qed.
Lemma add_slots_ok s l : forall array n w, listener_inv true [] [] s l w -> n <= blen (items_of array) -> items_of array ⊆ items l ->
  post (add_slots n array) (fun _ w' => listener_inv true [] [] s l w') w.
Proof.
  induction array as [|p array IH]; intros n w Hli Hn Hsub; cbn [add_slots].
  { unfold items_of, blen in Hn. cbn in Hn. rewrite (proj2 (Z.leb_le n 0)) by lia. by apply post_ret. }
  apply post_if; intros _; [by apply post_ret|].
  unfold items_of in Hn, Hsub. rewrite filter_cons in Hn, Hsub. destruct (Z.eqb_spec p NULL) as [->|Hp].
  { rewrite decide_False in Hn, Hsub by auto. by apply IH. }
  rewrite decide_True in Hn, Hsub by done. assert (p ∈ items l) as Hin by set_solver.
  destruct (listener_pack _ _ _ _ _ _ p Hli) as (_ & pk & Hpk & _ & Hr); [set_solver|].
  apply post_bind. eapply post_load; [done..|]. unfold add_sock_to_epoll. apply post_bind, post_bind.
  eapply listener_get; [exact Hli|]. change (ServerState.sock pk) with (socket_of pk). rewrite (proj2 (Z.ltb_ge _ 0)) by lia. cbn [orb].
  rewrite blen_cons in Hn. change (filter (.≠ NULL) array) with (items_of array) in *.
  apply post_if; intros He; [by apply post_ret, post_ret|]. apply Z.ltb_ge in He. apply post_bind, post_sys, post_ret. cbn [fst snd].
  assert (listener_inv true [] [] s l (set_kern (sys_epoll_add (efd s) EPOLLIN (socket_of pk) (kern w)).2 w)) as Hli1.
  { destruct Hli as [Hi Hl Hpe Hm]. split; try done. unfold instance in *. rewrite (proj2 (Z.ltb_lt _ (efd s))) in * by lia.
    destruct Hi as [Ho Hc Hlist Hnd Hnn Hpks Hh Hw]. split; try done; cbn [set_kern kern packs user].
    - eapply holds_fds_same; [|exact Hh]. apply epoll_add_opens.
    - intros x Hx%epoll_add_watches. assert (socket_of pk ∈ socks (packs w) (items l ++ [])) as Hs; [|destruct (_ && _); set_solver].
      apply list_elem_of_fmap. exists p. rewrite Hpk. split; [done|set_solver]. }
  destruct (_ <? 0); cbn [Z.eqb negb]; [by apply post_ret|]. apply IH; [done|lia|set_solver].
Qed.
(** C26: A run of the listener on the thread that starts it, with any client code that behaves: it does not fault, and
    when it returns the epoll instance is closed, and the listener holds its clients' packages and descriptors:
    nothing is lost and nothing else is closed. *)
Theorem ClientListener_start_keeps (fuel : nat) (s : ClientListener C) (l : ArrayList) (w : W) :
  listener_inv false [] [] s l w -> efd s < 0 -> no_thread s ->
  safe (ClientListener_start self ready input gone empty room wait join fuel) (fun _ w' =>
    exists s' l', efd s' < 0 /\ listener_inv false [] [] s' l' w') w.
Proof.
  intros Hli He Hno. unfold ClientListener_start, on_this. apply safe_bind, post_safe, post_gets.
  rewrite (inv_object _ _ _ _ _ _ (li_inv _ _ _ _ _ _ Hli)). apply safe_bind, post_safe. eapply flag_get; [exact Hli|].
  rewrite (proj2 (no_thread_flags _ Hno)). apply safe_bind, post_safe. eapply listener_get; [exact Hli|].
  rewrite Z.gtb_ltb, (proj2 (Z.ltb_ge _ _)) by lia. apply safe_bind, post_safe, post_ret, safe_bind, post_safe.
  eapply post_mono; [by eapply init_epoll_ok|cbv beta]. intros err w1 (s1 & Hf1 & Hli1 & He1).
  destruct (err =? 0); cbn [negb]; [destruct He1 as [He1 HT]|by exists s1, l].
  apply safe_bind, post_safe.
  assert (post add_clients_to_epoll_tsafe (fun _ w' => exists s', flag_pole s' = flag_pole s /\
    blen (triggered_events s') = DEFAULT_BACKLOG_SIZE /\ listener_inv false [] [] s' l w') w1) as Hadd.
  { unfold add_clients_to_epoll_tsafe. eapply post_on_this; [apply (li_inv _ _ _ _ _ _ Hli1)|]. unfold locked. apply post_bind.
    eapply lock_ok; [exact Hli1|]. intros s2 Hli2. apply post_bind. unfold add_clients_to_epoll.
    eapply post_on_this; [apply (li_inv _ _ _ _ _ _ Hli2)|]. apply post_bind. eapply listener_get; [exact Hli2|].
    rewrite (proj2 (Z.ltb_ge _ _)) by (cbn; lia). apply post_bind. eapply listener_get; [exact Hli2|]. apply post_bind.
    change (client_list s2) with (clients s2). rewrite (inv_clients _ _ _ _ _ _ (li_inv _ _ _ _ _ _ Hli2)). eapply post_lift; [done|].
    pose proof (cl_wf _ (inv_list _ _ _ _ _ _ (li_inv _ _ _ _ _ _ Hli2))) as Hwf.
    eapply post_mono; [eapply (add_slots_ok s2 l); [exact Hli2|by rewrite (wf_count _ Hwf)|done]|]. cbv beta.
    intros r w3 Hli3. apply post_bind. eapply unlocked_ok; [exact Hli3|]. intros s4 Hli4. apply post_ret. by exists s4. }
  eapply post_mono; [exact Hadd|cbv beta]. intros err2 w2 (s2 & Hf2 & HT2 & Hli2). destruct (err2 =? 0); cbn [negb]; cycle 1.
  { apply safe_bind, post_safe. eapply post_mono; [eapply stop_idle; [exact Hli2|unfold no_thread; by rewrite Hf2]|cbv beta].
    intros _ w3 (s3 & He3 & Hli3). exists s3, l. split; [lia|done]. }
  apply safe_bind. eapply safe_mono; [eapply loop_safe; [exact Hli2|done]|cbv beta]. intros err3 w3 (s3 & l3 & _ & Hli3).
  apply safe_bind, post_safe. eapply post_mono; [by eapply close_epoll_ok|cbv beta].
  intros _ w4 (s4 & He4 & _ & Hli4). exists s4, l3. split; [lia|done].
Qed.
End spec.

(** * Adding a client *)
Section adding.
Context {K U C : Type} `{PosixLaws K} `{Keeps U}.
Notation W := (world K (ClientListener C) socket_package U).
Context (self : ptr) (gone : C -> ptr -> M W Z) (malloc : W -> option ptr) (grow : W -> bool) (join : M W unit).
(** A package is put into the list. *)
Lemma add_package_ok p s l w : object w = Some s -> client_list s = Some l -> ServerSpec.client_list l -> p <> NULL ->
  blen (items l) < 2 ^ 31 -> exists l', post (on_list (remove_client_cb self gone) (ArrayList_add_tsafe true p))
    (fun r w' => r = 1 /\ w' = set_object (Some (set_client_list (Some l') s)) w /\ p ∈ items l') w.
Proof.
  intros Ho Hc Hl Hp Hlen. destruct (add_tsafe_client_list l p Hl Hp Hlen) as (l' & E1 & Hl' & Hit). exists l'.
  unfold on_list. apply post_bind. eapply post_get; [done|]. apply post_bind. change (clients s) with (client_list s).
  rewrite Hc, E1. eapply post_lift; [done|]. apply post_bind. eapply post_set; [done|]. apply post_bind.
  unfold bracket. rewrite (cl_mutex _ Hl). cbn [app perform].
  apply post_bind, post_emit, post_bind, post_emit, post_ret, post_ret. split; [done|]. split; [done|]. rewrite Hit. set_solver.
Qed.
(** A listener that runs, on a thread of its own or in the middle of [ClientListener_start]. *)
Record running (b : bool) (s : ClientListener C) (l : ArrayList) (w : W) : Prop := {
  run_inv : listener_inv self b [] [] s l w;
  run_flag : raised (flag_pole s) THREAD_IS_RUNNING = true;
  run_efd : -1 < efd s;
  run_room : blen (items l) < 2 ^ 31 }.
(** The package of a new client, in the list. *)
Definition joined (p : ptr) (pk : socket_package) (s : ClientListener C) (l l' : ArrayList) (w : W) : W :=
  set_object (Some (set_client_list (Some l') s)) (set_packs (<[p := pk]> (packs w)) w).
Lemma post_update (p : ptr) f (a : socket_package) (Q : unit -> W -> Prop) w : p <> NULL -> packs w !! p = Some a ->
  Q tt (set_packs (<[p := f a]> (packs w)) w) -> post (update p f) Q w.
Proof. intros Hn Ha HQ. do 3 eexists. split; [exact (update_ok p f w a Hn Ha)|done]. Qed.
Lemma add_joins create d async data free_data p b s l w (Q : Z -> W -> Prop) D :
  running b s l w -> 0 <= d -> malloc w = Some p -> p <> NULL -> (forall w, grow w = true) ->
  (forall l' w', w' = joined p (mkPackage d data free_data self) s l l' w -> p ∈ items l' ->
    outcome (add_sock_to_epoll_tsafe d) (fun r w' => r <> 0 /\ post (free_socket_package p;; mret r) Q w') D w') ->
  outcome (ClientListener_add self gone malloc grow join create d async data free_data) Q D w.
Proof.
  intros [Hli Hf He Hlen] Hd Hm Hp Hg HQ. destruct Hli as [[Ho Hc Hl _ _ _ _ _] _ _ _].
  unfold ClientListener_add, on_this. apply outcome_bind, post_outcome, post_gets. rewrite Ho, (proj2 (Z.ltb_ge _ 0)) by lia.
  apply outcome_bind, post_outcome, post_gets. rewrite Hm. apply outcome_bind, post_outcome.
  eexists _, _, _. split; [reflexivity|]. rewrite (proj2 (Z.eqb_neq p NULL)) by done.
  apply outcome_bind, post_outcome. eapply post_update; [done|apply lookup_insert_eq|]. cbn [packs set_packs put objs packs_store].
  rewrite insert_insert_eq. apply outcome_bind, post_outcome.
  eapply post_update; [done|apply lookup_insert_eq|]. cbn [packs set_packs put objs packs_store]. rewrite insert_insert_eq.
  set (w1 := set_packs _ _). set (pk := set_data _ _ _) in w1.
  apply outcome_bind. unfold ClientListener_add_socket_package, on_this. apply outcome_bind, post_outcome, post_gets.
  change (object w1) with (object w). rewrite Ho, (proj2 (Z.eqb_neq p NULL)) by done.
  apply outcome_bind, post_outcome, post_gets. rewrite Hg. apply outcome_bind, post_outcome.
  destruct (add_package_ok p s l w1 Ho Hc Hl Hp Hlen) as (l' & Hadd). eapply post_mono; [exact Hadd|cbv beta].
  intros r w2 (-> & -> & Hin). change (1 =? 0) with false. cbv iota. apply outcome_bind, post_outcome. unfold listener_flag.
  apply post_bind. eapply post_get; [done|]. apply post_ret.
  apply outcome_bind, post_outcome. eapply post_get; [done|].
  cbn [flag_pole set_client_list efd]. rewrite Hf, Z.gtb_ltb, (proj2 (Z.ltb_lt _ _)) by lia. cbn [andb].
  apply outcome_bind, outcome_bind, post_outcome. eapply post_load; [done|apply lookup_insert_eq|]. cbn [sock pk set_data set_parent].
  specialize (HQ l' _ eq_refl Hin). unfold outcome in *.
  change (set_object _ w1) with (joined p (mkPackage d data free_data self) s l l' w).
  destruct (add_sock_to_epoll_tsafe d _) as [[[r w3] t]| |]; [|done|done]. destruct HQ as [Hr HQ].
  rewrite (proj2 (Z.eqb_neq r 0)) by done. cbn. rewrite (proj2 (Z.eqb_neq r 0)) by done. cbn.
  destruct HQ as (a & w4 & t4 & E & HQ). by rewrite E.
Qed.
(** A client whose socket cannot be watched (a closed descriptor, say) is not taken out again: the call returns
    the error and frees the client's package, which stays in the list of the running listener. *)
Theorem failed_add_dangles create d async data free_data p s l w :
  running false s l w -> 0 <= d -> malloc w = Some p -> p <> NULL -> (forall w, grow w = true) ->
  (sys_epoll_add (efd s) EPOLLIN d (kern w)).1 < 0 ->
  post (ClientListener_add self gone malloc grow join create d async data free_data) (fun err w' =>
    err = ALIB_UNKNOWN_ERR /\ packs w' !! p = None /\
    exists s' l', object w' = Some s' /\ client_list s' = Some l' /\ p ∈ items l') w.
Proof.
  intros Hrun Hd Hm Hp Hg Hbad. apply outcome_post. eapply add_joins; try done. intros l' w' -> Hin.
  pose proof (li_mutex _ _ _ _ _ _ _ (run_inv _ _ _ _ Hrun)) as Hmu. pose proof (run_efd _ _ _ _ Hrun) as He.
  apply post_outcome. unfold add_sock_to_epoll_tsafe. eapply post_on_this; [done|]. unfold locked, lock. apply post_bind, post_bind.
  eapply post_get; [done|]. cbn [mutex set_client_list]. rewrite Hmu. apply post_bind, post_emit. eapply post_set; [done|].
  apply post_bind. unfold add_sock_to_epoll. apply post_bind. eapply post_get; [done|].
  cbn [efd set_mutex set_client_list]. rewrite !(proj2 (Z.ltb_ge _ _)) by lia. cbn [orb].
  apply post_bind, post_sys. cbn [kern set_object joined set_packs]. rewrite (proj2 (Z.ltb_lt _ 0)) by exact Hbad.
  apply post_ret, post_bind. unfold unlock. apply post_bind, post_emit. eapply post_set; [done|]. apply post_ret. split; [done|].
  apply post_bind. unfold free_socket_package. rewrite (proj2 (Z.eqb_neq p NULL)) by done.
  apply post_bind. eapply post_load; [done|apply lookup_insert_eq|]. apply post_bind.
  apply post_when; intros _; [apply post_emit|]; (eapply post_release; [done|apply lookup_insert_eq|]); apply post_ret;
    (split; [done|]; split; [apply lookup_delete_eq|by do 2 eexists]).
Qed.
(** A client cannot be added from the client's own code: the callbacks of a running listener are called with its
    mutex held, and the call waits for that mutex forever. *)
Theorem add_in_callback_deadlocks create d async data free_data p s l w :
  running true s l w -> 0 <= d -> malloc w = Some p -> p <> NULL -> (forall w, grow w = true) ->
  ClientListener_add self gone malloc grow join create d async data free_data w = Diverges.
Proof.
  intros Hrun Hd Hm Hp Hg. apply outcome_diverges. eapply add_joins; try done. intros l' w' -> Hin.
  pose proof (li_mutex _ _ _ _ _ _ _ (run_inv _ _ _ _ Hrun)) as Hmu.
  unfold add_sock_to_epoll_tsafe, on_this. apply outcome_bind, post_outcome, post_gets. unfold joined at 1. cbn [object set_object].
  unfold locked, lock. apply outcome_bind, outcome_bind, post_outcome. eapply post_get; [done|]. cbn [mutex set_client_list].
  by rewrite Hmu.
Qed.
End adding.

(** * A run *)
Section run.
#[local] Instance keeper : Keeps (gset Z) := fun u => u.
#[local] Instance system : Posix script := scripted 256 false.
#[local] Instance system_laws : PosixLaws script := scripted_laws 256 false.
Notation W := (world script (ClientListener unit) socket_package (gset Z)).
(** The client's code closes a client that sends 99, and stops the listener when one sends 113 or leaves. *)
Definition never_ready (c : unit) (p : ptr) (b : option (dlist Z)) (n : option Z) : M W (Z * option (dlist Z) * option Z) :=
  mret (SCB_RVAL_CLOSE_CLIENT, b, n).
Definition obey (c : unit) (p : ptr) (b : option (dlist Z)) (n : Z) : M W Z :=
  mret (match b with
        | Some (99 :: _) => SCB_RVAL_CLOSE_CLIENT
        | Some (113 :: _) => SCB_RVAL_STOP_SERVER
        | _ => SCB_RVAL_DEFAULT
        end).
Definition goes_on (c : unit) (p : ptr) : M W Z := mret SCB_RVAL_DEFAULT.
Definition stop_when_empty (c : unit) : M W Z := mret SCB_RVAL_STOP_SERVER.
Definition always (w : W) : bool := true.
Definition at_32 (w : W) : option ptr := Some 32.
Definition listener_self : ptr := 1000.
Lemma obeying : listener_code listener_self never_ready obey goes_on stop_when_empty (mret tt).
Proof.
  split.
  - intros c b E p Y s l w Hli. apply post_ret. by exists s; split.
  - intros c E p b n s l w Hli Hp. apply post_ret. split; [by exists s; split|]. by split.
  - intros c E p b n s l w Hli Hp. apply post_ret. split; [by exists s; split|done].
  - intros c s l w Hli. apply post_ret. exists s, l; by split.
  - intros s l w Hli. apply post_ret. exists s, l; by split.
Qed.
Definition client_at (d : Z) : socket_package := mkPackage d NULL false listener_self.
Definition two_clients : ArrayList := mkArrayList (Some [4;0;8;0]) 2 4 ULONG_MAX true true false.
Definition listener_of (e flags : Z) (held : bool) : ClientListener unit :=
  mkClientListener (Some two_clients) e (replicate (Z.to_nat DEFAULT_BACKLOG_SIZE) (mkEpollEvent 0 0)) NULL false flags held
    None (Some tt) (Some tt) (Some tt).
Definition listener_world (e flags : Z) (held : bool) (open : gset Z) (b : dlist (dlist epoll_event))
  (i : dlist (dlist Z)) (errs : dlist Z) : W :=
  mkWorld (mkScript open ∅ 9 [] b i [] errs) (Some (listener_of e flags held))
    (<[4 := client_at 5]> (<[8 := client_at 6]> ∅)) {[0]}.
Lemma listener_world_inv e flags held b i errs : (e = -1 \/ e = 3) ->
  listener_inv listener_self held [] [] (listener_of e flags held) two_clients
    (listener_world e flags held (list_to_set (base (listener_of e flags held) ++ [5; 6; 0])) b i errs).
Proof.
  intros He. split; [split|..]; try done.
  - cbn. repeat (apply NoDup_cons; split; [set_solver|]). apply NoDup_nil_2.
  - cbn. set_solver.
  - intros p. cbn [packs listener_world]. rewrite !lookup_insert_is_Some, lookup_empty.
    change (items two_clients ++ []) with [4; 8]. rewrite !elem_of_cons, elem_of_nil. split.
    + intros [->|[_ [->|[_ [? ?]]]]]; [auto..|done].
    + destruct (decide (4 = p)); [auto|]. destruct (decide (8 = p)); naive_solver.
  - split; cbn [kern user listener_world fds]; unfold kept, keeper.
    + destruct He as [->| ->]; vm_compute; repeat (apply NoDup_cons; split; [set_solver|]); apply NoDup_nil_2.
    + change (fds ?k) with (sfds k). cbn [sfds]. replace (socks _ _) with [5; 6] by done. set_solver.
    + destruct He as [->| ->]; cbn; set_solver.
    + change (fds ?k) with (sfds k). cbn [sfds]. destruct He as [->| ->]; cbn; set_solver by lia.
  - unfold instance. destruct (-1 <? efd _); [|done]. intros d Hd. cbn in Hd. set_solver.
  - intros p Hp. cbn in Hp. apply elem_of_cons in Hp as [->|Hp]; [by eexists|]. apply elem_of_cons in Hp as [->|Hp]; [by eexists|].
    set_solver.
  - intros d ?%elem_of_nil. done.
Qed.
(** Both clients send text; then one leaves and the other tells the listener to stop. *)
Definition two_send : W := listener_world (-1) FLAG_INIT false (list_to_set [5; 6; 0])
  [[mkEpollEvent 6 EPOLLIN; mkEpollEvent 5 EPOLLIN]; [mkEpollEvent 5 EPOLLHUP; mkEpollEvent 6 EPOLLIN]] [[65; 66]; [67]; [113]] [].
Lemma ClientListener_start_keeps_witness :
  safe (ClientListener_start listener_self never_ready obey goes_on stop_when_empty always (mret tt) (mret tt) 8) (fun _ w' =>
    exists s' l', efd s' < 0 /\ listener_inv listener_self false [] [] s' l' w') two_send.
Proof.
  eapply (ClientListener_start_keeps listener_self never_ready obey goes_on stop_when_empty always (mret tt) (mret tt) obeying).
  - done.
  - apply (listener_world_inv (-1) FLAG_INIT false). by left.
  - done.
  - done.
Defined.
Example ClientListener_start_two_clients :
  match ClientListener_start listener_self never_ready obey goes_on stop_when_empty always (mret tt) (mret tt) 8 two_send with
  | Ok (r, w, _) => r = ALIB_OK /\ elements (sfds (kern w)) = [6; 0] /\ map_to_list (packs w) = [(8, client_at 6)]
  | _ => False
  end.
Proof. vm_compute. auto. Qed.
(** A running listener whose list holds two clients. *)
Definition running_world (held : bool) (errs : dlist Z) : W :=
  listener_world 3 THREAD_IS_RUNNING held (list_to_set [3; 5; 6; 0]) [] [] errs.
Lemma running_at b errs : running listener_self b (listener_of 3 THREAD_IS_RUNNING b) two_clients (running_world b errs).
Proof.
  split; [|done|by cbn|done]. apply (listener_world_inv 3 THREAD_IS_RUNNING b). by right.
Qed.
Lemma add_in_callback_deadlocks_witness :
  ClientListener_add listener_self goes_on at_32 always (mret tt) 0 7 false NULL false (running_world true []) = Diverges.
Proof.
  apply (add_in_callback_deadlocks listener_self goes_on at_32 always (mret tt) 0 7 false NULL false 32) with
    (s := listener_of 3 THREAD_IS_RUNNING true) (l := two_clients); [apply running_at|done|done|done|done].
Defined.
(** The system refuses to watch the socket 7. *)
Lemma failed_add_dangles_witness :
  post (ClientListener_add listener_self goes_on at_32 always (mret tt) 0 7 false NULL false) (fun err w' =>
    err = ALIB_UNKNOWN_ERR /\ packs w' !! 32 = None /\
    exists s' l', object w' = Some s' /\ client_list s' = Some l' /\ 32 ∈ items l') (running_world false [-1]).
Proof.
  apply (failed_add_dangles listener_self goes_on at_32 always (mret tt) 0 7 false NULL false 32) with
    (s := listener_of 3 THREAD_IS_RUNNING false) (l := two_clients); [apply running_at|done..].
Defined.
End run.
