(* ===== verification/Wire.v ===== *)
(** What was sent: the bytes each descriptor took, on top of [Posix].

    [logged] adds them to the scripted system. *)
From S2P Require Import Prelude Effects Heap Posix.
Open Scope Z_scope.

Class Wire (K : Type) `{PosixLaws K} := {
  wire : Z -> K -> list Z;
  wire_send d data k : wire d (sys_send d data k).2 = wire d k ++ take (Z.to_nat (sys_send d data k).1) data;
  wire_socket x k : wire x (sys_socket k).2 = wire x k;
  wire_close x d k : wire x (sys_close d k) = wire x k;
  wire_call c x d k : wire x (sys_call c d k).2 = wire x k }.

Definition log := (script * gmap Z (list Z))%type.
(** A call that sends nothing. *)
Definition silent {A} (f : script -> A * script) (k : log) : A * log := let '(a, s) := f k.1 in (a, (s, k.2)).
Definition log_send `{Posix script} (d : Z) (data : list Z) (k : log) : Z * log :=
  let '(n, s) := sys_send d data k.1 in
  (n, (s, <[d := default [] (k.2 !! d) ++ take (Z.to_nat n) data]> k.2)).
Section logged.
Context (most : Z) (binds : bool).
#[local] Instance underlying : Posix script := scripted most binds.
#[local] Instance underlying_laws : PosixLaws script := scripted_laws most binds.
Definition logged : Posix log := {|
  sys_socket := silent sys_socket; sys_accept := fun s => silent (sys_accept s); sys_dup := fun s => silent (sys_dup s);
  sys_epoll_create := silent sys_epoll_create; sys_close := fun d k => (sys_close d k.1, k.2);
  sys_call := fun c d => silent (sys_call c d); sys_epoll_add := fun e m d => silent (sys_epoll_add e m d);
  sys_epoll_wait := fun e n => silent (sys_epoll_wait e n); sys_recv := fun d n => silent (sys_recv d n);
  sys_send := log_send; sys_recv_fd := fun d => silent (sys_recv_fd d); sys_send_fd := fun s d => silent (sys_send_fd s d) |}.
Lemma silent_state {A} (f : script -> A * script) k : silent f k = ((f k.1).1, ((f k.1).2, k.2)).
Proof. unfold silent. by destruct (f k.1). Qed.
Lemma log_send_state d data k : log_send d data k = ((sys_send d data k.1).1,
  ((sys_send d data k.1).2, <[d := default [] (k.2 !! d) ++ take (Z.to_nat (sys_send d data k.1).1) data]> k.2)).
Proof. unfold log_send. by destruct (sys_send d data k.1). Qed.
Lemma logged_laws : @PosixLaws log logged.
Proof.
  unshelve (refine (@Build_PosixLaws log logged (fun k => fds k.1) (fun e k => watched e k.1)
    _ _ _ _ _ _ _ _ _ _ _ _ _ _ _ _ _ _ _ _ _ _ _ _ _ _ _ _ _ _)); cbn [sys_socket sys_accept sys_dup sys_epoll_create
    sys_close sys_call sys_epoll_add sys_epoll_wait sys_recv sys_send sys_recv_fd sys_send_fd logged]; intros;
    rewrite ?silent_state, ?log_send_state; cbn [fst snd].
  - apply socket_opens.
  - apply socket_watches.
  - apply accept_opens.
  - apply accept_watches.
  - apply dup_opens.
  - apply dup_watches.
  - apply epoll_create_opens.
  - apply epoll_create_watches.
  - apply close_closes.
  - apply close_watches.
  - apply call_opens.
  - apply call_watches.
  - apply epoll_add_result.
  - by apply epoll_add_bad.
  - apply epoll_add_opens.
  - apply epoll_add_watches.
  - apply epoll_wait_opens.
  - by apply epoll_wait_bad.
  - apply epoll_wait_watches.
  - pose proof (epoll_wait_reports e n k.1) as Hr. destruct (sys_epoll_wait e n k.1) as [[??]?]. cbn. exact Hr.
  - apply recv_opens.
  - apply recv_watches.
  - pose proof (recv_fits d n k.1) as Hr. destruct (sys_recv d n k.1) as [[??]?]. cbn. exact Hr.
  - apply send_opens.
  - apply send_watches.
  - apply send_partial.
  - pose proof (recv_fd_opens d k.1) as Hr. destruct (sys_recv_fd d k.1) as [[??]?]. cbn. exact Hr.
  - apply recv_fd_watches.
  - apply send_fd_opens.
  - apply send_fd_watches.
Defined.
#[local] Existing Instance logged.
#[local] Existing Instance logged_laws.
Lemma logged_wire : Wire log.
Proof.
  refine {| wire := fun d (k : log) => default [] (k.2 !! d) |}; cbn [sys_send sys_call sys_socket sys_close logged]; intros.
  - rewrite log_send_state. cbn [fst snd]. by rewrite lookup_insert_eq.
  - by rewrite silent_state.
  - done.
  - by rewrite silent_state.
Defined.
End logged.
