(* ===== verification/TcpClient.v ===== *)
(** The TCP client, [source/TcpClient.c].

    The object of the world is the client: [None] when the pointer at hand is
    NULL, [Some None] when it points to a client that was freed.  [C] are the
    code pointers of the callbacks, which the parameters named after the fields
    run; [create] is the result of [pthread_create], [join] what the thread does
    until it returns, [wait] what the other threads do until they signal the
    condition.  [blocked] tests [errno == EWOULDBLOCK], and [timeout] is what
    [getsockopt] stores. *)
From S2P Require Import Prelude Memory Effects Heap AlibTypes AlibString TimerEvent Posix ServerState.
Open Scope Z_scope.

Definition AF_INET : Z := 2.
Record sockaddr_in := mkSockaddr { sin_family : Z; sin_port : Z; sin_addr : Z }.
Definition no_addr : sockaddr_in := mkSockaddr 0 0 0.
(** The mutex, the condition and the thread are in the flags and the parameters. *)
Record TcpClient (C : Type) := mkTcpClient {
  sock : Z; host_addr : sockaddr_in;
  data_in_cb : option C; disconnect_cb : option C; sockopt_cb : option C; thread_returning_cb : option C;
  flag_pole : Z; ex_data : ptr; free_data_cb : bool }.
Arguments mkTcpClient {C}. Arguments sock {C}. Arguments host_addr {C}. Arguments data_in_cb {C}. Arguments disconnect_cb {C}.
Arguments sockopt_cb {C}. Arguments thread_returning_cb {C}. Arguments flag_pole {C}. Arguments ex_data {C}. Arguments free_data_cb {C}.

Section fields.
Context {C : Type}.
Implicit Types c : TcpClient C.
Definition set_sock v c := mkTcpClient v (host_addr c) (data_in_cb c) (disconnect_cb c) (sockopt_cb c) (thread_returning_cb c)
  (flag_pole c) (ex_data c) (free_data_cb c).
Definition set_host_addr v c := mkTcpClient (sock c) v (data_in_cb c) (disconnect_cb c) (sockopt_cb c) (thread_returning_cb c)
  (flag_pole c) (ex_data c) (free_data_cb c).
Definition set_callbacks (i d o t : option C) c := mkTcpClient (sock c) (host_addr c) i d o t (flag_pole c) (ex_data c) (free_data_cb c).
Definition set_flag_pole v c := mkTcpClient (sock c) (host_addr c) (data_in_cb c) (disconnect_cb c) (sockopt_cb c)
  (thread_returning_cb c) v (ex_data c) (free_data_cb c).
Definition set_ex_data v f c := mkTcpClient (sock c) (host_addr c) (data_in_cb c) (disconnect_cb c) (sockopt_cb c)
  (thread_returning_cb c) (flag_pole c) v f.
End fields.

Section client.
Context {K P U C : Type} `{Posix K}.
Notation W := (world K (option (TcpClient C)) P U).
Context (self : ptr).
Context (data_in : C -> Datatypes.list Z -> Z -> M W Z) (disconnected : C -> M W Z) (sockopt : C -> Z -> M W Z)
  (returning : C -> M W unit).
Context (create : Z) (join wait : M W unit) (blocked : W -> bool) (clear_errno : M W unit) (timeout : W -> Z * Z).

(** The fields of a client that was not freed. *)
Definition live : M W (TcpClient C) :=
  o ← this; lift (match o with Some c => Ok c | None => UB Dangling end).
Definition cget {A} (f : TcpClient C -> A) : M W A := c ← live; mret (f c).
Definition cset (f : TcpClient C -> TcpClient C) : M W unit := c ← live; modify (set_object (Some (Some (f c)))).
Definition raise_client (flag : Z) : M W unit := cset (fun c => set_flag_pole (flag_raise (flag_pole c) flag) c).
Definition lower_client (flag : Z) : M W unit := cset (fun c => set_flag_pole (flag_lower (flag_pole c) flag) c).
Definition client_flag (flag : Z) : M W bool := fp ← cget flag_pole; mret (raised fp flag).

(** * Reading *)
Definition TcpClient_read_stop_async : M W unit :=
  on_this tt (
    raise_client THREAD_STOP;;
    created ← client_flag THREAD_CREATED; running ← client_flag THREAD_IS_RUNNING;
    when (created && running) (lower_client THREAD_CREATED)).
(** [while(client->flag_pole & THREAD_IS_RUNNING) pthread_cond_wait(..)] *)
Fixpoint wait_stopped (fuel : nat) : M W unit :=
  running ← client_flag THREAD_IS_RUNNING;
  if running : bool then match fuel with O => lift Diverges | S k => wait;; wait_stopped k end else mret tt.
Definition TcpClient_read_thread_wait (fuel : nat) : M W unit :=
  on_this tt (emit EvLock;; wait_stopped fuel;; emit EvUnlock).
Definition TcpClient_read_stop (fuel : nat) : M W unit :=
  on_this tt (
    created ← client_flag THREAD_CREATED;
    if created : bool then raise_client THREAD_STOP;; join;; lower_client THREAD_CREATED else
    running ← client_flag THREAD_IS_RUNNING;
    when running (TcpClient_read_thread_wait fuel)).
Definition TcpClient_read_start (fuel : nat) : M W Z :=
  on_this ALIB_BAD_ARG (
    running ← client_flag THREAD_IS_RUNNING; stop ← client_flag THREAD_STOP;
    if running && negb stop then mret ALIB_OK else
    TcpClient_read_stop fuel;;
    cb ← cget data_in_cb; s ← cget sock;
    if (match cb with Some _ => true | None => false end) && (s >=? 0) then
      lower_client THREAD_STOP;; raise_client THREAD_CREATED;;
      if negb (create =? 0) then lower_client THREAD_CREATED;; mret ALIB_THREAD_ERR else mret ALIB_OK
    else mret ALIB_OK).

(** * Disconnecting and deleting

    They call each other; a client in the delete state is not deleted again. *)
Definition disconnect_with (del : M W unit) : M W unit :=
  on_this tt (
    s ← cget sock;
    deleted ← (
      if s >=? 0 then
        close_fd s;; cset (set_sock (-1));;
        cb ← cget disconnect_cb;
        match cb with
        | Some cb => rval ← disconnected cb; if raised rval SCB_RVAL_DELETE then del;; mret true else mret false
        | None => mret false
        end
      else mret false);
    if deleted : bool then mret tt else TcpClient_read_stop_async).
(** The pointer that is passed keeps its value: [client = NULL] assigns the parameter. *)
Fixpoint delTcpClient (fuel : nat) : M W unit :=
  match fuel with
  | O => lift Diverges
  | S k =>
      on_this tt (
        deleting ← client_flag OBJECT_DELETE_STATE;
        if deleting : bool then mret tt else
        raise_client OBJECT_DELETE_STATE;;
        disconnect_with (delTcpClient k);;
        c ← live; when (free_data_cb c) (emit (EvFree (ex_data c)));;
        modify (set_object (Some None)))
  end.
Definition TcpClient_disconnect (fuel : nat) : M W unit := disconnect_with (delTcpClient fuel).

(** * The reading thread *)
Definition IN_BUFF_SIZE : Z := 64 * 1024.
(** The data is what [recv] put at the beginning of [in_buff]. *)
Definition received (fuel : nat) (data : Datatypes.list Z) (in_count : Z) : M W unit :=
  cb ← cget data_in_cb;
  match cb with
  | None => lift (UB NullDeref)
  | Some cb =>
      rval ← data_in cb data in_count;
      when (raised rval (Z.lor SCB_RVAL_CLOSE_CLIENT SCB_RVAL_STOP_SERVER)) (TcpClient_disconnect fuel);;
      when (raised rval SCB_RVAL_DELETE) (lower_client THREAD_CREATED;; delTcpClient fuel)
  end.
(** The condition of the loop. *)
Definition reading : M W bool :=
  stop ← client_flag THREAD_STOP; s ← cget sock; cb ← cget data_in_cb;
  mret (negb stop && (s >? -1) && match cb with Some _ => true | None => false end).
Fixpoint read_turns (fuel : nat) : M W unit :=
  match fuel with
  | O => lift Diverges
  | S k =>
      go ← reading;
      if negb go then mret tt else
      s ← cget sock;
      '(in_count, data) ← sys (fun k => let '(n, d, k) := sys_recv s IN_BUFF_SIZE k in ((n, d), k));
      if in_count <=? 0 then
        b ← gets blocked;
        if b : bool then clear_errno;; read_turns k else
        deleting ← client_flag OBJECT_DELETE_STATE;
        when (negb deleting) (TcpClient_disconnect fuel)
      else received fuel data in_count;; read_turns k
  end.
(** Whether the socket has a timeout now. *)
Definition set_timeout : M W bool :=
  s ← cget sock; r ← sys (sys_call GetSockOpt s);
  if negb (r =? 0) then mret false else
  tv ← gets timeout;
  if (tv.1 =? 0) && (tv.2 =? 0)
  then s ← cget sock; r ← sys (sys_call SetSockOpt s); mret (r =? 0) else mret true.
Definition read_loop_proc (fuel : nat) : M W unit :=
  raise_client THREAD_IS_RUNNING;;
  ok ← set_timeout;
  when ok (read_turns fuel);;
  lower_client THREAD_IS_RUNNING;;
  cb ← cget thread_returning_cb;
  match cb with Some cb => returning cb | None => mret tt end.

(** * Connecting and sending *)
Definition TcpClient_connect (fuel : nat) : M W Z :=
  on_this ALIB_BAD_ARG (
    s ← cget sock;
    if s >=? 0 then mret ALIB_OK else
    s ← sys sys_socket; cset (set_sock s);;
    if s <? 0 then mret ALIB_FD_ERR else
    let f_error (err : Z) := s ← cget sock; close_fd s;; cset (set_sock (-1));; mret err in
    cb ← cget sockopt_cb;
    err ← (match cb with Some cb => s ← cget sock; sockopt cb s | None => mret 0 end);
    if negb (err =? 0) then f_error err else
    s ← cget sock; err ← sys (sys_call Connect s);
    if negb (err =? 0) then f_error ALIB_TCP_CONNECT_ERR else
    cb ← cget data_in_cb;
    match cb with Some _ => TcpClient_read_start fuel | None => mret ALIB_OK end).
(** [while(data_len)], from [data + off]; a byte is sent in every turn. *)
Fixpoint send_all (fuel : nat) (data : Datatypes.list Z) (off data_len : Z) : M W Z :=
  if data_len =? 0 then mret ALIB_OK else
  match fuel with
  | O => lift Diverges
  | S k =>
      s ← cget sock; d ← lift (blk_read data off data_len);
      n ← sys (sys_send s d);
      let s_count := s32 n in
      if s_count <=? 0 then mret ALIB_TCP_SEND_ERR else send_all k data (off + s_count) (u64 (data_len - s_count))
  end.
(** [data]: the block the pointer points to the beginning of, [None] for NULL. *)
Definition TcpClient_send (fuel : nat) (data : option (Datatypes.list Z)) (data_len : Z) : M W Z :=
  on_this ALIB_BAD_ARG (
    match data with
    | None => mret ALIB_BAD_ARG
    | Some data =>
        data_len ← lift (if data_len =? 0 then strlen data 0 else Ok data_len);
        s ← cget sock;
        when (s <? 0) (TcpClient_connect fuel;; mret tt);;
        send_all (Z.to_nat data_len) data 0 data_len
    end).

(** * The rest of the interface *)
Definition TcpClient_get_ex_data : M W ptr := cget ex_data.
Definition TcpClient_is_connected : M W Z := s ← cget sock; mret (if s >=? 0 then 1 else 0).
Definition TcpClient_get_socket : M W Z := cget sock.
(** The result is a [char]. *)
Definition TcpClient_is_reading : M W Z := fp ← cget flag_pole; mret (Z.land fp THREAD_IS_RUNNING).
Definition TcpClient_extract_ex_data : M W ptr :=
  rval ← cget ex_data; cset (fun c => set_ex_data NULL (free_data_cb c) c);; mret rval.
Definition TcpClient_set_data_in_cb (fuel : nat) (cb : option C) : M W unit :=
  on_this tt (
    cset (fun c => set_callbacks cb (disconnect_cb c) (sockopt_cb c) (thread_returning_cb c) c);;
    match cb with
    | Some _ => TcpClient_read_thread_wait fuel;; TcpClient_read_start fuel;; mret tt
    | None => TcpClient_read_stop_async
    end).
Definition TcpClient_set_disconnect_cb (cb : option C) : M W unit :=
  cset (fun c => set_callbacks (data_in_cb c) cb (sockopt_cb c) (thread_returning_cb c) c).
Definition TcpClient_set_sockopt_cb (cb : option C) : M W unit :=
  cset (fun c => set_callbacks (data_in_cb c) (disconnect_cb c) cb (thread_returning_cb c) c).
Definition TcpClient_set_thread_returning_cb (cb : option C) : M W unit :=
  cset (fun c => set_callbacks (data_in_cb c) (disconnect_cb c) (sockopt_cb c) cb c).
Definition TcpClient_set_ex_data (data : ptr) (free_data : bool) : M W unit :=
  c ← live;
  when (free_data_cb c && negb (ex_data c =? NULL)) (emit (EvFree (ex_data c)));;
  cset (set_ex_data data free_data).

(** * Constructors

    The result is the pointer that is returned; [ok] is the outcome of the allocation. *)
Definition newTcpClient_base (ok : bool) (data : ptr) (free_data : bool) : M W ptr :=
  if negb ok then modify (set_object None);; mret NULL else
  modify (set_object (Some (Some (mkTcpClient (-1) no_addr None None None None FLAG_INIT data free_data))));; mret self.
(** [host]: the address [gethostbyname] finds; [named] is whether the name is not NULL. *)
Definition newTcpClient (fuel : nat) (ok named : bool) (host : option Z) (port : Z) (data : ptr) (free_data : bool) : M W ptr :=
  if negb named then modify (set_object None);; mret NULL else
  client ← newTcpClient_base ok data free_data;
  if client =? NULL then mret NULL else
  match host with
  | Some a => cset (set_host_addr (mkSockaddr AF_INET (htons port) a))
  | None => delTcpClient fuel
  end;;
  mret client.
(** [peer]: the address [getsockname] stores. *)
Definition newTcpClient_from_socket (fuel : nat) (ok : bool) (peer : sockaddr_in) (s : Z) (data : ptr) (free_data : bool) : M W ptr :=
  if s <? 0 then modify (set_object None);; mret NULL else
  client ← newTcpClient_base ok data free_data;
  if client =? NULL then mret NULL else
  d ← sys (sys_dup s); cset (set_sock d);;
  failed ← (if d <? 0 then mret true else
            r ← sys (sys_call GetSockName s);
            if r =? 0 then cset (set_host_addr peer);; mret false else mret true);
  when failed (delTcpClient fuel);;
  mret client.
End client.
