(* ===== verification/TcpClientSpec.v ===== *)
(** What the client of [TcpClient] promises: data is sent whole and in order;
    however a connection goes, the descriptor it opened is closed at the end.
    And where a client that is deleted is used again. *)
From S2P Require Import Prelude Memory Effects Heap AlibTypes AlibString TimerEvent Posix ServerState ServerSpec Wire TcpClient.
Open Scope Z_scope.

Section steps.
Context {K P U C : Type} `{Posix K}.
Notation W := (world K (option (TcpClient C)) P U).
Implicit Types (w : W) (c : TcpClient C).
Lemma post_live c w (Q : TcpClient C -> W -> Prop) : object w = Some (Some c) -> Q c w -> post live Q w.
Proof. intros Ho HQ. unfold live. apply post_bind. eapply post_this; [done|]. by eapply post_lift. Qed.
Lemma post_cget {A} (f : TcpClient C -> A) c w (Q : A -> W -> Prop) : object w = Some (Some c) -> Q (f c) w -> post (cget f) Q w.
Proof. intros Ho HQ. unfold cget. apply post_bind. eapply post_live; [done|]. by apply post_ret. Qed.
Lemma post_flag fl c w (Q : bool -> W -> Prop) : object w = Some (Some c) -> Q (raised (flag_pole c) fl) w -> post (client_flag fl) Q w.
Proof. intros Ho HQ. unfold client_flag. apply post_bind. eapply post_cget; [done|]. by apply post_ret. Qed.
Lemma post_cset (f : TcpClient C -> TcpClient C) c w (Q : unit -> W -> Prop) : object w = Some (Some c) ->
  Q tt (set_object (Some (Some (f c))) w) -> post (cset f) Q w.
Proof. intros Ho HQ. unfold cset. apply post_bind. eapply post_live; [done|]. by apply post_modify. Qed.
(** A freed client. *)
Lemma live_freed w : object w = Some None -> live w = UB Dangling.
Proof. intros Ho. unfold live, this. by rewrite bind_bind, bind_gets, Ho. Qed.
Lemma flag_freed fl w : object w = Some None -> client_flag fl w = UB Dangling.
Proof. intros Ho. unfold client_flag, cget. by do 2 (apply bind_UB); apply live_freed. Qed.
End steps.

(** * Sending *)
Section sending.
Context {K P U C : Type} `{Wire K}.
Notation W := (world K (option (TcpClient C)) P U).
Context (data_in : C -> dlist Z -> Z -> M W Z) (disconnected : C -> M W Z) (sockopt : C -> Z -> M W Z).
Context (create : Z) (join wait : M W unit).

(** [n] bytes of [data] were taken by the socket, all that were to be sent or not. *)
Definition delivered (s : Z) (data : dlist Z) (data_len : Z) (w : W) (r : Z) (w' : W) : Prop :=
  object w' = object w /\ fds (kern w') = fds (kern w) /\
  exists n, 0 <= n <= data_len /\ wire s (kern w') = wire s (kern w) ++ take (Z.to_nat n) data /\
    (r = ALIB_OK /\ n = data_len \/ r = ALIB_TCP_SEND_ERR /\ n < data_len).
Lemma send_all_ok c fuel : forall pre data n (w : W), object w = Some (Some c) -> 0 <= n <= blen data -> n < 2 ^ 31 ->
  n <= Z.of_nat fuel -> post (send_all fuel (pre ++ data) (blen pre) n) (delivered (sock c) data n w) w.
Proof.
  induction fuel as [|fuel IH]; intros pre data n w Ho Hn Hs Hf; cbn [send_all].
  all: apply post_if; intros Hz; [apply Z.eqb_eq in Hz as ->; apply post_ret; split; [done|]; split; [done|]; exists 0;
    rewrite app_nil_r; auto with lia|apply Z.eqb_neq in Hz; try lia].
  pose proof (blen_nonneg pre). set (d := take (Z.to_nat n) data).
  assert (blk_read (pre ++ data) (blen pre) n = Ok d) as Hread.
  { rewrite blk_read_ok by (rewrite ?blen_app; lia). unfold slice, d, blen. by rewrite Nat2Z.id, drop_app_length. }
  apply post_bind. eapply post_cget; [done|]. apply post_bind. eapply post_lift; [exact Hread|]. apply post_bind, post_sys.
  assert (Z.of_nat (length d) = n) as Hd by (unfold d, blen in *; rewrite length_take; lia).
  pose proof (send_partial (sock c) d (kern w)) as Hle. pose proof (wire_send (sock c) d (kern w)) as Hw.
  pose proof (send_opens (sock c) d (kern w)) as Hop.
  destruct (sys_send (sock c) d (kern w)) as [r k']. cbn [fst snd] in *.
  rewrite s32_small by lia. apply post_if; intros Hr.
  { apply Z.leb_le in Hr. apply post_ret. split; [done|]. split; [done|]. exists 0. split; [lia|].
    cbn [set_kern kern]. rewrite Hw. replace (Z.to_nat r) with 0%nat by lia. split; [done|right; split; [done|lia]]. }
  apply Z.leb_gt in Hr. rewrite u64_small by lia.
  assert (pre ++ data = (pre ++ take (Z.to_nat r) data) ++ drop (Z.to_nat r) data) as -> by by rewrite <- app_assoc, take_drop.
  assert (blen pre + r = blen (pre ++ take (Z.to_nat r) data)) as ->.
  { rewrite blen_app. unfold blen in *. rewrite length_take. lia. }
  eapply post_mono; [apply IH; [done| |lia|lia]|].
  { unfold blen in *. rewrite length_drop. lia. }
  cbv beta. intros r' w' (Ho' & Hfds & m & Hm & Hwire & Hres). split; [done|]. split; [rewrite Hfds; cbn [set_kern kern]; exact Hop|].
  exists (r + m). split; [lia|]. split; [|destruct Hres as [[-> ->]|[-> ?]]; [left|right]; (split; [done|lia])].
  rewrite Hwire. cbn [set_kern kern]. rewrite Hw, <- app_assoc. f_equal. unfold d.
  rewrite take_take, Z2Nat.inj_add by lia. replace (Z.to_nat r `min` Z.to_nat n)%nat with (Z.to_nat r) by lia.
  by rewrite take_take_drop.
Qed.
(** The bytes [TcpClient_send] is asked to send: [data_len] of them, or the text up to its NUL. *)
Definition to_send (data : dlist Z) (data_len n : Z) : Prop :=
  if data_len =? 0 then exists text rest, data = text ++ 0 :: rest /\ no_nul text /\ n = blen text else n = data_len.
(** C23: A connected client that is asked to send less than 2^31 bytes sends them, whole and in order, and reports
    it; or it reports an error after a part of them. *)
Theorem TcpClient_send_delivers fuel c data data_len n (w : W) : object w = Some (Some c) -> 0 <= sock c ->
  to_send data data_len n -> 0 <= n <= blen data -> n < 2 ^ 31 ->
  post (TcpClient_send sockopt create join wait fuel (Some data) data_len) (delivered (sock c) data n w) w.
Proof.
  intros Ho Hs Hn Hlen Hmax. unfold TcpClient_send. eapply post_on_this; [done|]. apply post_bind.
  assert ((if data_len =? 0 then strlen data 0 else Ok data_len) = Ok n) as E.
  { unfold to_send in Hn. destruct (data_len =? 0); [|by rewrite Hn]. destruct Hn as (text & rest & -> & Ht & ->).
    exact (strlen_ok [] text rest Ht). }
  eapply post_lift; [exact E|]. apply post_bind. eapply post_cget; [done|]. apply post_bind.
  rewrite (proj2 (Z.ltb_ge _ 0)) by lia. apply post_ret. apply (send_all_ok c _ [] data n w Ho Hlen Hmax). lia.
Qed.
End sending.

(** * The socket of a client *)
Section ledger.
Context {K P U C : Type} `{PosixLaws K} `{Keeps U}.
Notation W := (world K (option (TcpClient C)) P U).
Context (data_in : C -> dlist Z -> Z -> M W Z) (disconnected : C -> M W Z) (sockopt : C -> Z -> M W Z)
  (returning : C -> M W unit).
Context (create : Z) (join wait : M W unit) (blocked : W -> bool) (clear_errno : M W unit) (timeout : W -> Z * Z).

Definition socket_list (c : TcpClient C) : dlist Z := if sock c >=? 0 then [sock c] else [].
Definition deleting (c : TcpClient C) : bool := Z.testbit (flag_pole c) 4.
(** A client that was not freed, whose socket is the only descriptor that the client's code does not keep; [J] are
    its socket and whether it is being deleted. *)
Definition holding (J : Z -> bool -> Prop) (w : W) : Prop := exists c, object w = Some (Some c) /\
  holds (socket_list c) (kern w) (user w) /\ J (sock c) (deleting c).
Definition in_use : W -> Prop := holding (fun _ d => d = false).
Definition idle (b : bool) : W -> Prop := holding (fun s d => s < 0 /\ d = b).

(** The client's code may do anything to the client but delete it, or connect it again when it is told that it is
    disconnected. *)
Record tcp_client_code : Prop := {
  data_in_ok cb d n w : in_use w -> safe (data_in cb d n) (fun r w' => raised r SCB_RVAL_DELETE = false /\ in_use w') w;
  disconnected_ok cb b w : idle b w -> safe (disconnected cb) (fun r w' => raised r SCB_RVAL_DELETE = false /\ idle b w') w;
  sockopt_ok cb s w : in_use w -> safe (sockopt cb s) (fun _ w' => in_use w') w;
  returning_ok cb w : in_use w -> safe (returning cb) (fun _ w' => in_use w') w;
  join_ok w : in_use w -> safe join (fun _ w' => in_use w') w;
  wait_ok w : in_use w -> safe wait (fun _ w' => in_use w') w;
  clear_ok w : in_use w -> safe clear_errno (fun _ w' => in_use w') w }.
Hypothesis Hcode : tcp_client_code.

(** ** Steps that keep the socket *)
Lemma holding_sys {A} (f : K -> A * K) J (Q : A -> W -> Prop) w : holding J w -> (forall k, fds (f k).2 = fds k) ->
  (forall a w', holding J w' -> Q a w') -> safe (sys f) Q w.
Proof.
  intros (c & Ho & Hh & HJ) Hf HQ. apply post_safe, post_sys. apply HQ. exists c. split; [done|]. split; [|done].
  eapply holds_fds_same; [apply Hf|exact Hh].
Qed.
Lemma holding_cget {A} (f : TcpClient C -> A) J (Q : A -> W -> Prop) w : holding J w -> (forall a, Q a w) -> safe (cget f) Q w.
Proof. intros (c & Ho & _) HQ. apply post_safe. by eapply post_cget. Qed.
Lemma holding_flag fl J (Q : bool -> W -> Prop) w : holding J w -> (forall b, Q b w) -> safe (client_flag fl) Q w.
Proof. intros (c & Ho & _) HQ. apply post_safe. by eapply post_flag. Qed.
Lemma holding_cset f J (Q : unit -> W -> Prop) w : holding J w -> (forall c, sock (f c) = sock c /\ deleting (f c) = deleting c) ->
  (forall w', holding J w' -> Q tt w') -> safe (cset f) Q w.
Proof.
  intros (c & Ho & Hh & HJ) Hf HQ. apply post_safe. eapply post_cset; [done|]. apply HQ. exists (f c).
  destruct (Hf c) as [E1 E2]. split; [done|]. unfold socket_list. by rewrite E1, E2.
Qed.
Lemma holding_raise fl J (Q : unit -> W -> Prop) w : holding J w -> Z.testbit fl 4 = false ->
  (forall w', holding J w' -> Q tt w') -> safe (raise_client fl) Q w.
Proof.
  intros Hw Hb HQ. eapply holding_cset; [done| |done]. intros c. split; [done|]. unfold deleting. cbn [flag_pole set_flag_pole].
  by rewrite flag_raise_bit, Hb, orb_false_r.
Qed.
Lemma holding_lower fl J (Q : unit -> W -> Prop) w : holding J w -> Z.testbit fl 4 = false ->
  (forall w', holding J w' -> Q tt w') -> safe (lower_client fl) Q w.
Proof.
  intros Hw Hb HQ. eapply holding_cset; [done| |done]. intros c. split; [done|]. unfold deleting. cbn [flag_pole set_flag_pole].
  by rewrite flag_lower_bit, Hb, andb_true_r by lia.
Qed.
Lemma holding_this {A} (d : A) (m : M W A) J (Q : A -> W -> Prop) w : holding J w -> safe m Q w -> safe (on_this d m) Q w.
Proof. intros (c & Ho & _) Hm. unfold on_this. apply safe_bind, post_safe, post_gets. by rewrite Ho. Qed.
Lemma safe_if {A} (b : bool) (m1 m2 : M W A) (Q : A -> W -> Prop) w : safe m1 Q w -> safe m2 Q w -> safe (if b then m1 else m2) Q w.
Proof. by destruct b. Qed.
Lemma safe_when (b : bool) (m : M W unit) (Q : unit -> W -> Prop) w : safe m Q w -> Q tt w -> safe (when b m) Q w.
Proof. by destruct b. Qed.
Lemma safe_ret {A} (a : A) (Q : A -> W -> Prop) w : Q a w -> safe (mret a) Q w.
Proof. done. Qed.
Lemma safe_emit e (Q : unit -> W -> Prop) w : Q tt w -> safe (emit e) Q w.
Proof. done. Qed.
Lemma safe_gets {A} (f : W -> A) (Q : A -> W -> Prop) w : Q (f w) w -> safe (gets f) Q w.
Proof. done. Qed.
Ltac hstep := cbv beta; lazymatch goal with
  | |- safe (mbind _ _) _ _ => apply safe_bind
  | |- safe (on_this _ _) _ _ => eapply holding_this; [eassumption|]
  | |- safe (client_flag _) _ _ => eapply holding_flag; [eassumption|intros ?]
  | |- safe (cget _) _ _ => eapply holding_cget; [eassumption|intros ?]
  | |- safe (raise_client _) _ _ => eapply holding_raise; [eassumption|done|intros ? ?]
  | |- safe (lower_client _) _ _ => eapply holding_lower; [eassumption|done|intros ? ?]
  | |- safe (sys (sys_call _ _)) _ _ => eapply holding_sys; [eassumption|intros ?; apply call_opens|intros ? ? ?]
  | |- safe (emit _) _ _ => apply safe_emit
  | |- safe (gets _) _ _ => apply safe_gets
  | |- safe (when _ _) _ _ => apply safe_when
  | |- safe (if _ then _ else _) _ _ => apply safe_if
  | |- safe (mret _) _ _ => apply safe_ret
  end.
Ltac hsteps := repeat hstep; try done.

Lemma stop_async_ok J w : holding J w -> safe TcpClient_read_stop_async (fun _ w' => holding J w') w.
Proof. intros Hw. unfold TcpClient_read_stop_async. hsteps. Qed.
Lemma wait_stopped_ok fuel : forall w, in_use w -> safe (wait_stopped wait fuel) (fun _ w' => in_use w') w.
Proof.
  induction fuel as [|fuel IH]; intros w Hw; cbn [wait_stopped]; hsteps.
  eapply safe_mono; [by apply (wait_ok Hcode)|auto].
Qed.
Lemma read_thread_wait_ok fuel w : in_use w -> safe (TcpClient_read_thread_wait wait fuel) (fun _ w' => in_use w') w.
Proof.
  intros Hw. unfold TcpClient_read_thread_wait. hsteps. eapply safe_mono; [by apply wait_stopped_ok|].
  cbv beta. intros ? w2 Hw2. hsteps.
Qed.
Lemma read_stop_ok fuel w : in_use w -> safe (TcpClient_read_stop join wait fuel) (fun _ w' => in_use w') w.
Proof.
  intros Hw. unfold TcpClient_read_stop. hsteps; [|by apply read_thread_wait_ok].
  eapply safe_mono; [by apply (join_ok Hcode)|]. cbv beta. intros ? w2 Hw2. hsteps.
Qed.
Lemma read_start_ok fuel w : in_use w -> safe (TcpClient_read_start create join wait fuel) (fun _ w' => in_use w') w.
Proof.
  intros Hw. unfold TcpClient_read_start. hsteps. eapply safe_mono; [by apply read_stop_ok|]. cbv beta. intros ? w2 Hw2. hsteps.
Qed.
(** The socket of a client is closed. *)
Lemma close_socket c (w : W) : object w = Some (Some c) -> holds (socket_list c) (kern w) (user w) ->
  holds [] (sys_close (sock c) (kern w)) (user w).
Proof.
  intros Ho Hh. unfold socket_list in Hh. rewrite Z.geb_leb in Hh.
  destruct (Z.leb_spec 0 (sock c)) as [Hs|Hs]; [by apply holds_close|].
  eapply holds_fds_same; [|exact Hh]. rewrite close_closes.
  assert (sock c ∉ fds (kern w)) by (intros Hin%(holds_range _ _ _ Hh); lia). set_solver.
Qed.
Lemma close_then_ok {A} (m : M W A) (Q : A -> W -> Prop) b c w : object w = Some (Some c) ->
  holds (socket_list c) (kern w) (user w) -> deleting c = b -> (forall w', idle b w' -> safe m Q w') ->
  safe (close_fd (sock c);; cset (set_sock (-1));; m) Q w.
Proof.
  intros Ho Hh Hd HQ. apply safe_bind, post_safe, post_sys. cbn [fst snd]. apply safe_bind, post_safe.
  eapply post_cset; [exact Ho|]. apply HQ. exists (set_sock (-1) c). split; [done|]. split; [|done].
  exact (close_socket c w Ho Hh).
Qed.
Lemma disconnect_ok b del w : holding (fun _ d => d = b) w -> safe (disconnect_with disconnected del) (fun _ w' => idle b w') w.
Proof.
  intros Hw. pose proof Hw as (c & Ho & Hh & Hd). unfold disconnect_with. eapply holding_this; [exact Hw|].
  apply safe_bind, post_safe. eapply post_cget; [done|]. apply safe_bind. rewrite Z.geb_leb.
  destruct (Z.leb_spec 0 (sock c)) as [Hs|Hs]; cycle 1.
  { apply safe_ret, stop_async_ok. exists c. split; [done|]. split; [done|]. split; [lia|done]. }
  eapply close_then_ok; [done..|]. intros w1 Hw1. hsteps. destruct a as [cb|]; [|by apply safe_ret, stop_async_ok].
  apply safe_bind. eapply safe_mono; [by apply (disconnected_ok Hcode)|]. intros r w2 [-> Hw2].
  by apply safe_ret, stop_async_ok.
Qed.
(** The client was freed, and its socket is closed. *)
Definition gone (w : W) : Prop := object w = Some None /\ fds (kern w) = kept (user w).
Lemma delete_ok fuel w : in_use w -> safe (delTcpClient disconnected fuel) (fun _ w' => gone w') w.
Proof.
  intros Hw. pose proof Hw as (c & Ho & Hh & Hd). destruct fuel as [|fuel]; [done|]. cbn [delTcpClient].
  eapply holding_this; [exact Hw|]. apply safe_bind, post_safe. eapply post_flag; [done|].
  replace (raised (flag_pole c) OBJECT_DELETE_STATE) with false; cycle 1.
  { unfold deleting in Hd. unfold raised. symmetry. apply negb_false_iff, Z.eqb_eq. apply Z.bits_inj'. intros i Hi.
    rewrite Z.land_spec, Z.bits_0. change OBJECT_DELETE_STATE with (2 ^ 4). rewrite Z.pow2_bits_eqb by lia.
    destruct (Z.eqb_spec 4 i) as [<-|]; [by rewrite Hd|apply andb_false_r]. }
  apply safe_bind, post_safe. eapply post_cset; [done|]. set (c1 := set_flag_pole _ c). apply safe_bind.
  eapply safe_mono; [apply (disconnect_ok true)|].
  - exists c1. split; [done|]. split; [done|]. unfold deleting, c1. cbn [flag_pole set_flag_pole].
    by rewrite flag_raise_bit, orb_true_r.
  - intros [] w2 (c2 & Ho2 & Hh2 & Hs2 & _). apply safe_bind, post_safe. eapply post_live; [done|]. apply safe_bind.
    assert (safe (modify (set_object (Some None))) (fun _ w' => gone w') w2) as Hfin.
    { split; [done|]. cbn [set_object kern user]. apply holds_done. unfold socket_list in Hh2.
      by rewrite Z.geb_leb, (proj2 (Z.leb_gt _ _)) in Hh2. }
    by apply safe_when.
Qed.
Lemma disconnects fuel w (Q : unit -> W -> Prop) : in_use w -> (forall w', in_use w' -> Q tt w') ->
  safe (TcpClient_disconnect disconnected fuel) Q w.
Proof.
  intros Hw HQ. eapply safe_mono; [by apply (disconnect_ok false)|]. intros [] w' (c & Ho & Hh & Hs & Hd). apply HQ. by exists c.
Qed.

(** ** The reading thread *)
Lemma input_ok fuel d n w : in_use w -> (exists c cb, object w = Some (Some c) /\ data_in_cb c = Some cb) ->
  safe (received data_in disconnected fuel d n) (fun _ w' => in_use w') w.
Proof.
  intros Hw (c & cb & Ho & Hcb). unfold received. apply safe_bind, post_safe. eapply post_cget; [done|]. rewrite Hcb.
  apply safe_bind. eapply safe_mono; [by apply (data_in_ok Hcode)|cbv beta]. intros r w1 [Hr Hw1]. rewrite Hr.
  apply safe_bind, safe_when; [|done]. by eapply disconnects.
Qed.
Lemma read_turns_ok fuel : forall w, in_use w ->
  safe (read_turns data_in disconnected blocked clear_errno fuel) (fun _ w' => in_use w') w.
Proof.
  induction fuel as [|fuel IH]; intros w Hw; [done|]. cbn [read_turns]. pose proof Hw as (c & Ho & _).
  apply safe_bind, post_safe. unfold reading. apply post_bind. eapply post_flag; [done|]. apply post_bind.
  eapply post_cget; [done|]. apply post_bind. eapply post_cget; [done|]. apply post_ret.
  destruct (data_in_cb c) as [cb|] eqn:Hcb; [rewrite andb_true_r|by rewrite andb_false_r].
  destruct (negb _ && _); cbn [negb]; [|done]. apply safe_bind, post_safe. eapply post_cget; [done|].
  apply safe_bind, post_safe, post_sys. pose proof (recv_opens (sock c) IN_BUFF_SIZE (kern w)) as Hf.
  destruct (sys_recv (sock c) IN_BUFF_SIZE (kern w)) as [[n d] k']. cbn [fst snd] in *.
  assert (in_use (set_kern k' w)) as Hw1.
  { destruct Hw as (c' & Ho' & Hh & Hd). exists c'. split; [done|]. split; [|done]. eapply holds_fds_same; [exact Hf|exact Hh]. }
  apply safe_if.
  - hsteps.
    + eapply safe_mono; [by apply (clear_ok Hcode)|]. intros ? w2 Hw2. by apply IH.
    + by eapply disconnects.
  - apply safe_bind. eapply safe_mono; [apply input_ok; [done|by exists c, cb]|]. intros ? w2 Hw2. by apply IH.
Qed.
Lemma set_timeout_ok w : in_use w -> safe (set_timeout timeout) (fun _ w' => in_use w') w.
Proof. intros Hw. unfold set_timeout. hsteps. Qed.
Lemma read_loop_ok fuel w : in_use w -> safe (read_loop_proc data_in disconnected returning blocked clear_errno timeout fuel)
  (fun _ w' => in_use w') w.
Proof.
  intros Hw. unfold read_loop_proc. hstep. hstep. hstep. eapply safe_mono; [by apply set_timeout_ok|cbv beta]. intros ok w2 Hw2.
  apply safe_bind. assert (forall w3, in_use w3 -> safe (lower_client THREAD_IS_RUNNING;; cb ← cget thread_returning_cb;
    match cb with Some cb => returning cb | None => mret tt end) (fun _ w' => in_use w') w3) as Hend.
  { intros w3 Hw3. hsteps. destruct a as [cb|]; [by apply (returning_ok Hcode)|done]. }
  apply safe_when; [|by apply Hend]. eapply safe_mono; [by apply read_turns_ok|]. intros ? w3 Hw3. by apply Hend.
Qed.

(** ** A connection *)
Lemma failed_connect_ok err w : in_use w -> safe (s ← cget sock; close_fd s;; cset (set_sock (-1));; mret err : M W Z) (fun _ w' => in_use w') w.
Proof.
  intros (c & Ho & Hh & Hd). apply safe_bind, post_safe. eapply post_cget; [done|]. eapply close_then_ok; [done..|].
  intros w1 (c1 & Ho1 & Hh1 & _ & Hd1). by exists c1.
Qed.
Lemma connect_ok fuel w : in_use w -> safe (TcpClient_connect sockopt create join wait fuel) (fun _ w' => in_use w') w.
Proof.
  intros Hw. pose proof Hw as (c & Ho & Hh & Hd). unfold TcpClient_connect. eapply holding_this; [exact Hw|].
  apply safe_bind, post_safe. eapply post_cget; [done|]. rewrite Z.geb_leb. destruct (Z.leb_spec 0 (sock c)) as [Hs|Hs]; [done|].
  unfold socket_list in Hh. rewrite Z.geb_leb, (proj2 (Z.leb_gt _ _)) in Hh by done.
  apply safe_bind, post_safe, post_sys. pose proof (socket_opens (kern w)) as Hop. destruct (sys_socket (kern w)) as [s k']. cbn [fst snd] in *.
  apply safe_bind, post_safe. eapply post_cset; [done|]. set (w1 := set_object _ _).
  assert (in_use w1) as Hw1.
  { exists (set_sock s c). split; [done|]. split; [|done]. unfold socket_list. cbn [sock set_sock]. rewrite Z.geb_leb.
    destruct (Z.leb_spec 0 s); [by eapply holds_opened|by eapply holds_not_opened]. }
  destruct (s <? 0); [done|]. hstep. hstep. hstep.
  assert (safe (match a with Some cb => s ← cget sock; sockopt cb s | None => mret 0 end) (fun _ w' => in_use w') w1) as Hopt.
  { destruct a as [cb|]; [|done]. hsteps. by apply (sockopt_ok Hcode). }
  eapply safe_mono; [exact Hopt|cbv beta]. intros err w2 Hw2. apply safe_if; [by apply failed_connect_ok|].
  do 4 hstep. apply safe_if; [by apply failed_connect_ok|]. do 2 hstep.
  lazymatch goal with |- context [match ?cb with Some _ => _ | None => _ end] => destruct cb end; [by apply read_start_ok|done].
Qed.
(** A connection from its beginning to the deletion of the client: the thread runs between. *)
Definition session (fuel : nat) : M W unit :=
  err ← TcpClient_connect sockopt create join wait fuel;
  when (err =? ALIB_OK) (read_loop_proc data_in disconnected returning blocked clear_errno timeout fuel);;
  delTcpClient disconnected fuel.
(** C24: However a connection goes, the client that is deleted at the end, if the session ends, has closed its
    socket, and nothing that is not its own. The client's code ([tcp_client_code]) may do anything with the
    client but two things: it does not delete the client, neither itself nor by what a callback returns, and the
    callback that is told that the client is disconnected leaves it disconnected (the socket of a client that is
    connected again there, while it is being deleted, would be lost). The other descriptors that are open are
    those that the client's code keeps. *)
Theorem TcpClient_session_releases fuel w : in_use w -> safe (session fuel) (fun _ w' => gone w') w.
Proof.
  intros Hw. unfold session. apply safe_bind. eapply safe_mono; [by apply connect_ok|cbv beta]. intros err w1 Hw1.
  apply safe_bind, safe_when; [|by apply delete_ok]. eapply safe_mono; [by apply read_loop_ok|cbv beta].
  intros ? w2 Hw2. by apply delete_ok.
Qed.
End ledger.

(** * A client that is deleted *)
Section deleted.
Context {K P U C : Type} `{Posix K}.
Notation W := (world K (option (TcpClient C)) P U).
Context (self : ptr) (data_in : C -> dlist Z -> Z -> M W Z) (disconnected : C -> M W Z) (blocked : W -> bool) (clear_errno : M W unit).
Lemma faults_bind {A B} (m : M W A) (k : A -> M W B) f w : post m (fun a w' => k a w' = UB f) w -> mbind k m w = UB f.
Proof. intros (a & w' & t & E & Hk). unfold mbind, M_bind. rewrite E. cbn. by rewrite Hk. Qed.
Lemma delete_frees fuel c (w : W) : object w = Some (Some c) -> raised (flag_pole c) OBJECT_DELETE_STATE = false ->
  disconnect_cb c = None -> post (delTcpClient disconnected (S fuel)) (fun _ w' => object w' = Some None) w.
Proof.
  intros Ho Hd Hcb. cbn [delTcpClient]. eapply post_on_this; [done|]. apply post_bind. eapply post_flag; [done|]. rewrite Hd.
  apply post_bind. eapply post_cset; [done|]. apply post_bind. unfold disconnect_with. eapply post_on_this; [done|].
  apply post_bind. eapply post_cget; [done|]. apply post_bind.
  assert (Hstop : forall (c1 : TcpClient C) (w1 : W), object w1 = Some (Some c1) -> post TcpClient_read_stop_async (fun _ w' =>
    post (c2 ← live; when (free_data_cb c2) (emit (EvFree (ex_data c2)));; modify (set_object (Some None)))
      (fun _ w2 => object w2 = Some None) w') w1).
  { intros c1 w1 Ho1. unfold TcpClient_read_stop_async, raise_client, lower_client. eapply post_on_this; [done|].
    apply post_bind. eapply post_cset; [done|]. apply post_bind. eapply post_flag; [done|]. apply post_bind.
    eapply post_flag; [done|]. apply post_when; intros _; [eapply post_cset; [done|]|];
      (apply post_bind; eapply post_live; [done|]; apply post_bind, post_when; intros _; [apply post_emit|]; by apply post_modify). }
  apply post_if; intros _.
  - apply post_bind, post_sys. cbn [fst snd]. apply post_bind. eapply post_cset; [done|]. apply post_bind.
    eapply post_cget; [done|]. cbn [disconnect_cb set_sock set_flag_pole]. rewrite Hcb. apply post_ret. by eapply Hstop.
  - apply post_ret. by eapply Hstop.
Qed.
(** C25: A client that is deleted in its data callback, by the return value that asks for it, is used again by the
    reading thread, which goes on with its loop. *)
Theorem delete_in_callback_faults fuel cb c d n k' (w : W) : object w = Some (Some c) -> data_in_cb c = Some cb ->
  raised (flag_pole c) THREAD_STOP = false -> 0 <= sock c ->
  sys_recv (sock c) IN_BUFF_SIZE (kern w) = (n, d, k') -> 0 < n ->
  post (data_in cb d n) (fun r w' => r = SCB_RVAL_DELETE /\ exists c', object w' = Some (Some c') /\
    raised (flag_pole c') OBJECT_DELETE_STATE = false /\ disconnect_cb c' = None) (set_kern k' w) ->
  read_turns data_in disconnected blocked clear_errno (S (S fuel)) w = UB Dangling.
Proof.
  intros Ho Hcb Hstop Hs Hrecv Hn Hdel. cbn [read_turns]. apply faults_bind. unfold reading. apply post_bind.
  eapply post_flag; [done|]. apply post_bind. eapply post_cget; [done|]. apply post_bind. eapply post_cget; [done|].
  apply post_ret. rewrite Hcb, Hstop, Z.gtb_ltb, (proj2 (Z.ltb_lt _ _)) by lia. cbn [negb andb].
  apply faults_bind. eapply post_cget; [done|]. apply faults_bind, post_sys. rewrite Hrecv. cbn [fst snd].
  rewrite (proj2 (Z.leb_gt n 0)) by lia. apply faults_bind. unfold received. apply post_bind. eapply post_cget; [done|].
  rewrite Hcb. apply post_bind. eapply post_mono; [exact Hdel|cbv beta]. intros r w1 (-> & c1 & Ho1 & Hd1 & Hc1).
  change (raised SCB_RVAL_DELETE (Z.lor _ _)) with false. change (raised SCB_RVAL_DELETE SCB_RVAL_DELETE) with true.
  apply post_bind, post_ret. cbn [when]. apply post_bind. unfold lower_client. eapply post_cset; [done|].
  eapply post_mono; [eapply delete_frees; [done| |done]|cbv beta].
  - cbn [flag_pole set_flag_pole]. unfold raised in *. apply negb_false_iff, Z.eqb_eq in Hd1.
    by apply negb_false_iff, Z.eqb_eq, lower_clear.
  - intros [] w2 Hw2. cbn [read_turns]. apply bind_UB. unfold reading. apply bind_UB. by apply flag_freed.
Qed.
(** The constructor returns the address of the client it has freed when the host is unknown: [delTcpClient] sets
    its own parameter to NULL, not the caller's pointer. *)
Theorem newTcpClient_dangles fuel port data free_data (w : W) :
  post (newTcpClient self disconnected (S fuel) true true None port data free_data) (fun p w' => p = self /\
    (self <> NULL -> object w' = Some None)) w.
Proof.
  unfold newTcpClient, newTcpClient_base. cbn [negb]. apply post_bind, post_bind, post_modify, post_ret.
  apply post_if; intros Hz; [apply Z.eqb_eq in Hz as Hself; apply post_ret; by rewrite Hself|].
  apply post_bind. eapply post_mono; [by eapply delete_frees|cbv beta]. intros [] w1 Hw1. by apply post_ret.
Qed.
End deleted.

(** * Runs *)
Section run.
#[local] Instance keeper : Keeps (gset Z) := fun u => u.
#[local] Instance system : Posix log := logged 256 true.
#[local] Instance system_laws : PosixLaws log := logged_laws 256 true.
#[local] Instance system_wire : Wire log := logged_wire 256 true.
Notation W := (world log (option (TcpClient unit)) unit (gset Z)).
(** The client's code disconnects when it receives 99, and deletes the client when it receives 100. *)
Definition obey (c : unit) (data : dlist Z) (n : Z) : M W Z :=
  mret (match data with 99 :: _ => SCB_RVAL_CLOSE_CLIENT | _ => SCB_RVAL_DEFAULT end).
Definition delete_at_100 (c : unit) (data : dlist Z) (n : Z) : M W Z :=
  mret (match data with 100 :: _ => SCB_RVAL_DELETE | _ => SCB_RVAL_DEFAULT end).
Definition notice (c : unit) : M W Z := mret SCB_RVAL_DEFAULT.
Definition no_option (c : unit) (s : Z) : M W Z := mret 0.
Definition returns (c : unit) : M W unit := mret tt.
Definition not_blocked (w : W) : bool := false.
Definition one_second (w : W) : Z * Z := (1, 0).
Lemma behaving : tcp_client_code obey notice no_option returns (mret tt) (mret tt) (mret tt).
Proof.
  split; try done.
  intros c d n w Hw. unfold obey. apply safe_ret. split; [|done]. destruct d as [|x d]; [done|].
  by destruct (decide (x = 99)) as [->|]; repeat case_match.
Qed.
Definition client_of (s : Z) : TcpClient unit :=
  mkTcpClient s (mkSockaddr AF_INET (htons 80) 1) (Some tt) (Some tt) None (Some tt) FLAG_INIT NULL false.
Definition client_world (s : Z) (open : gset Z) (input : dlist (dlist Z)) (answers : dlist Z) : W :=
  mkWorld (mkScript open ∅ 3 [] [] input answers [], ∅) (Some (Some (client_of s))) ∅ {[0]}.
(** The client connects, receives twice and is told to disconnect. *)
Definition unconnected : W := client_world (-1) {[0]} [[65]; [66; 67]; [99]] [].
Lemma TcpClient_session_releases_witness :
  safe (session obey notice no_option returns 0 (mret tt) (mret tt) not_blocked (mret tt) one_second 6) (fun _ w' => gone w')
    unconnected.
Proof.
  apply (TcpClient_session_releases _ _ _ _ _ _ _ _ _ _ behaving). exists (client_of (-1)). split; [done|]. split; [|done].
  split; [by apply NoDup_nil_2|done|by intros d ?%elem_of_nil|]. intros d Hd. change (d ∈ ({[0]} : gset Z)) in Hd. apply elem_of_singleton in Hd as ->. lia.
Defined.
Example session_connects :
  match TcpClient_connect no_option 0 (mret tt) (mret tt) 6 unconnected with
  | Ok (r, w, _) => r = ALIB_OK /\ elements (fds (kern w)) = [3; 0] | _ => False end /\
  match session obey notice no_option returns 0 (mret tt) (mret tt) not_blocked (mret tt) one_second 6 unconnected with
  | Ok (_, w, _) => elements (fds (kern w)) = [0] /\ object w = Some None | _ => False end.
Proof. vm_compute. auto. Qed.
Definition hello : dlist Z := [104; 101; 108; 108; 111].
Definition connected (answers : dlist Z) : W := client_world 3 {[0; 3]} [] answers.
Lemma TcpClient_send_delivers_witness :
  post (TcpClient_send no_option 0 (mret tt) (mret tt) 1 (Some (hello ++ [0])) 0) (delivered 3 (hello ++ [0]) 5 (connected [3]))
    (connected [3]).
Proof.
  apply (TcpClient_send_delivers no_option 0 (mret tt) (mret tt) 1 (client_of 3)); try done.
  exists hello, []. split; [done|]. split; [|done]. by repeat constructor.
Defined.
Lemma delete_in_callback_faults_witness :
  read_turns delete_at_100 notice not_blocked (mret tt) 2
    (set_object (Some (Some (set_callbacks (Some tt) None None None (client_of 3)))) (client_world 3 {[0; 3]} [[100]] []))
  = UB Dangling.
Proof.
  eapply (delete_in_callback_faults delete_at_100 notice not_blocked (mret tt) 0 tt); try done.
  apply post_ret. split; [done|]. by eexists.
Defined.
End run.
