(* ===== verification/TcpFunctions.v ===== *)
(** One-time messages, [source/tcp_functions.c], and the socket option of
    [source/alib_sockets.c].

    [host] is whether [gethostbyname] finds the name; when it does not the
    address stays zero.  [fsync] on a socket does nothing. *)
From S2P Require Import Prelude Memory Effects Heap AlibString TimerEvent Posix ServerState ServerSpec Wire.
Open Scope Z_scope.

Section functions.
Context {K Ob P U : Type} `{Posix K}.
Notation W := (world K Ob P U).
Definition set_sock_recv_timeout (sock secs micros : Z) : M W Z := sys (sys_call SetSockOpt sock).

(** [while(data_len)]: every turn sends from the beginning of the data; [send_count] is a [size_t]. *)
Fixpoint send_rest (fuel : nat) (sock : Z) (data : Datatypes.list Z) (data_len : Z) : M W Z :=
  if data_len =? 0 then mret ALIB_OK else
  match fuel with
  | O => lift Diverges
  | S k =>
      d ← lift (blk_read data 0 data_len); n ← sys (sys_send sock d);
      let send_count := u64 n in
      if send_count <? 0 then mret ALIB_TCP_SEND_ERR else send_rest k sock data (u64 (data_len - send_count))
  end.
Definition tcp_send_data_by_host (fuel : nat) (data : Datatypes.list Z) (data_len : Z) : M W Z :=
  sock ← sys sys_socket;
  if sock <? 0 then mret ALIB_FD_ERR else
  err ← sys (sys_call Connect sock);
  if negb (err =? 0) then mret ALIB_TCP_CONNECT_ERR else
  data_len ← lift (if data_len =? 0 then strlen data 0 else Ok data_len);
  err ← send_rest fuel sock data data_len;
  if negb (err =? 0) then mret err else
  close_fd sock;; mret ALIB_OK.
End functions.

Section facts.
Context {K Ob P U : Type} `{Wire K}.
Notation W := (world K Ob P U).
(** States of the system in which [send] takes something. *)
Definition sending (T : K -> Prop) : Prop := forall s d k, T k -> d <> [] -> 0 < (sys_send s d k).1 /\ T (sys_send s d k).2.
(** What [send_rest] sends: the beginnings of the data of the lengths [counts]. *)
Definition heads (data counts : Datatypes.list Z) : Datatypes.list Z := concat ((fun n => take (Z.to_nat n) data) <$> counts).
Definition total (counts : Datatypes.list Z) : Z := foldr Z.add 0 counts.
Lemma read_head (data : Datatypes.list Z) n : 0 <= n <= blen data -> blk_read data 0 n = Ok (take (Z.to_nat n) data).
Proof. intros Hn. rewrite blk_read_ok by lia. done. Qed.
Lemma send_rest_ok T sock data fuel : forall n (w : W), 0 <= n <= blen data -> n < 2 ^ 63 ->
  sending T -> T (kern w) -> n <= Z.of_nat fuel ->
  post (send_rest fuel sock data n) (fun r w' => r = ALIB_OK /\ fds (kern w') = fds (kern w) /\ exists counts, Forall (fun c => 0 < c) counts /\ total counts = n /\
    wire sock (kern w') = wire sock (kern w) ++ heads data counts) w.
Proof.
  induction fuel as [|fuel IH]; intros n w Hn Hs Hacc HT Hf; cbn [send_rest].
  { rewrite (proj2 (Z.eqb_eq n 0)) by lia. apply post_ret. split; [done|]. split; [done|]. exists []. split; [by constructor|].
    split; [cbn; lia|]. by rewrite app_nil_r. }
  apply post_if; intros Hz.
  { apply Z.eqb_eq in Hz as ->. apply post_ret. split; [done|]. split; [done|]. exists []. split; [by constructor|]. split; [done|]. by rewrite app_nil_r. }
  apply Z.eqb_neq in Hz. set (d := take (Z.to_nat n) data).
  apply post_bind. eapply post_lift; [by apply read_head|]. fold d. apply post_bind, post_sys.
  assert (Z.of_nat (length d) = n) as Hd by (unfold d, blen in *; rewrite length_take; lia).
  pose proof (send_partial sock d (kern w)) as Hle. pose proof (wire_send sock d (kern w)) as Hw.
  pose proof (send_opens sock d (kern w)) as Hopen.
  destruct (Hacc sock d (kern w) HT) as [Hpos HT1]; [intros E; rewrite E in Hd; cbn in Hd; lia|].
  destruct (sys_send sock d (kern w)) as [c k']. cbn [fst snd] in *.
  rewrite !u64_small by lia. rewrite (proj2 (Z.ltb_ge c 0)) by lia.
  eapply post_mono; [apply IH; [lia|lia|done|exact HT1|lia]|]. cbv beta. intros r w' (-> & Hfds & counts & Hc & Ht & Hwire). split; [done|].
  split; [rewrite Hfds; cbn [set_kern kern]; exact Hopen|].
  exists (c :: counts). split; [by constructor|]. split; [cbn; fold (total counts); lia|]. rewrite Hwire. cbn [set_kern kern]. rewrite Hw.
  unfold heads. cbn [fmap list_fmap concat]. rewrite <- app_assoc. f_equal. f_equal. unfold d. rewrite take_take. f_equal. lia.
Qed.
(** A message to a host: it is sent to the end and the connection is closed again, but every call of [send] starts
    at the beginning of the message, so what arrives is a row of beginnings of it (the whole message when the first
    call takes it all). *)
Theorem tcp_send_sends_beginnings T fuel text rest (w : W) : no_nul text -> blen text < 2 ^ 63 -> blen text <= Z.of_nat fuel ->
  sending T -> let s := (sys_socket (kern w)).1 in let k := (sys_socket (kern w)).2 in
  0 <= s -> (sys_call Connect s k).1 = 0 -> T (sys_call Connect s k).2 ->
  post (tcp_send_data_by_host fuel (text ++ 0 :: rest) 0) (fun r w' => r = ALIB_OK /\ fds (kern w') = fds (kern w) /\
    exists counts, Forall (fun c => 0 < c) counts /\ total counts = blen text /\
      wire s (kern w') = wire s (kern w) ++ heads (text ++ 0 :: rest) counts) w.
Proof.
  intros Htext Hlen Hfuel Hsend s k1 Hs Hcon HT. unfold tcp_send_data_by_host. pose proof (blen_nonneg text) as Hge.
  pose proof (socket_opens (kern w)) as [[Hneg _]|(_ & Hnew & Hfds)]; [fold s in Hneg; lia|]. fold s in Hnew; fold s k1 in Hfds.
  pose proof (wire_socket s (kern w)) as Hw1. fold k1 in Hw1.
  apply post_bind, post_sys. change (sys_socket (kern w)).1 with s; change (sys_socket (kern w)).2 with k1. rewrite (proj2 (Z.ltb_ge s 0)) by lia.
  apply post_bind, post_sys. cbn [set_kern kern]. rewrite Hcon. cbn [Z.eqb negb].
  pose proof (call_opens Connect s k1) as Hf2. pose proof (wire_call Connect s s k1) as Hw2.
  set (k2 := (sys_call Connect s k1).2) in *.
  apply post_bind. eapply post_lift; [exact (strlen_ok [] text rest Htext)|].
  apply post_bind. eapply post_mono; [eapply (send_rest_ok T s (text ++ 0 :: rest) fuel (blen text)); auto|].
  - rewrite blen_app, blen_cons. pose proof (blen_nonneg rest). lia.
  - cbv beta. intros r w' (-> & Hf3 & counts & Hc & Ht & Hwire). cbn [set_kern kern Z.eqb negb] in *.
    apply post_bind, post_sys, post_ret. cbn [fst snd set_kern kern]. split; [done|]. split.
    + rewrite close_closes, Hf3, Hf2, Hfds. set_solver.
    + exists counts. split; [done|]. split; [done|]. by rewrite wire_close, Hwire, Hw2, Hw1.
Qed.
(** A call of [send] that fails is not seen, since its result is taken as a [size_t]: the next call asks for one byte
    more than is left, behind the end of the message. *)
Theorem failed_send_overreads fuel sock data (w : W) : 0 < blen data < 2 ^ 63 ->
  (sys_send sock data (kern w)).1 = -1 -> send_rest (S (S fuel)) sock data (blen data) w = UB OutOfBounds.
Proof.
  intros Hn Hfail. cbn [send_rest]. rewrite (proj2 (Z.eqb_neq _ 0)) by lia.
  rewrite (bind_lift _ data) by (rewrite read_head by lia; f_equal; apply take_ge; unfold blen; lia).
  rewrite bind_sys, Hfail. change (u64 (-1)) with (2 ^ 64 - 1).
  replace (u64 (blen data - (2 ^ 64 - 1))) with (blen data + 1).
  2: { unfold u64. rewrite <- (Z_mod_plus_full _ 1), Z.mod_small by lia. lia. }
  rewrite (proj2 (Z.ltb_ge _ 0)), (proj2 (Z.eqb_neq _ 0)) by lia. by rewrite blk_read_oob by lia.
Qed.
End facts.

(** * A run *)
Section run.
#[local] Instance system : Posix log := logged 256 true.
#[local] Instance system_laws : PosixLaws log := logged_laws 256 true.
#[local] Instance system_wire : Wire log := logged_wire 256 true.
Notation W := (world log unit unit unit).
Definition hello : dlist Z := [104; 101; 108; 108; 111].
Definition fresh_log (answers : dlist Z) : log := (mkScript ∅ ∅ 3 [] [] [] answers [], ∅).
Definition sends (answers : dlist Z) : W := mkWorld (fresh_log answers) None ∅ tt.
(** The first call takes three bytes of the five. *)
Example hello_in_two :
  match tcp_send_data_by_host 5 (hello ++ [0]) 0 (sends [3]) with
  | Ok (r, w, _) => r = ALIB_OK /\ wire 3 (kern w) = [104; 101; 108; 104; 101] /\ fds (kern w) = ∅
  | _ => False
  end.
Proof. vm_compute. auto. Qed.
Definition takes_something (k : log) : Prop := Forall (fun n => 0 < n) (sent k.1).
Lemma takes_sending : sending takes_something.
Proof.
  intros s d [k m] Hk Hd. unfold takes_something in *. cbn [sys_send system logged]. rewrite log_send_state. cbn [fst snd] in *.
  change (sys_send s d k) with (s_send d k). unfold s_send. assert (0 < Z.of_nat (length d)) by (destruct d; [done|cbn; lia]).
  destruct (sent k) as [|n l] eqn:E; cbn [fst snd sent]; [by rewrite E|].
  apply Forall_cons in Hk as [Hn Hl]. split; [lia|done].
Qed.
Lemma tcp_send_sends_beginnings_witness :
  post (tcp_send_data_by_host 5 (hello ++ [0]) 0) (fun r w' => r = ALIB_OK /\ fds (kern w') = fds (kern (sends [3])) /\
    exists counts, Forall (fun c => 0 < c) counts /\ total counts = blen hello /\
      wire (sys_socket (kern (sends [3]))).1 (kern w') = wire (sys_socket (kern (sends [3]))).1 (kern (sends [3])) ++ heads (hello ++ [0]) counts) (sends [3]).
Proof.
  apply (tcp_send_sends_beginnings takes_something 5 hello [] (sends [3])); try done.
  - by repeat constructor.
  - apply takes_sending.
  - by repeat constructor.
Defined.
Lemma failed_send_overreads_witness :
  0 < blen hello < 2 ^ 63 /\ send_rest 2 3 hello (blen hello) (sends [-1]) = UB OutOfBounds.
Proof. split; [done|]. by apply (failed_send_overreads 0 3 hello (sends [-1])). Defined.
End run.
