(* ===== verification/FdClient.v ===== *)
(** The client that sends and receives descriptors, [source/FdClient.c].

    [create] is the result of [pthread_create], and [join] what the client's
    thread does until it returns when another thread waits for it.  The calls of
    the vendored [ancillary] library are calls of the system. *)
From S2P Require Import Prelude Memory Effects Heap AlibTypes AlibString TimerEvent Posix ServerState.
Open Scope Z_scope.

Record FdClient := mkFdClient {
  sock : Z; sun_path : Datatypes.list Z; flag_pole : Z; extended_data : ptr; free_extended_data : bool }.
Definition set_sock v c := mkFdClient v (sun_path c) (flag_pole c) (extended_data c) (free_extended_data c).
Definition set_flag_pole v c := mkFdClient (sock c) (sun_path c) v (extended_data c) (free_extended_data c).
Definition set_extended v f c := mkFdClient (sock c) (sun_path c) (flag_pole c) v f.

Section client.
Context {K P U : Type} `{Posix K}.
Notation W := (world K FdClient P U).
Context (create : Z) (join : M W unit).

Definition raise_client (flag : Z) : M W unit := set (fun c => set_flag_pole (flag_raise (flag_pole c) flag) c).
Definition lower_client (flag : Z) : M W unit := set (fun c => set_flag_pole (flag_lower (flag_pole c) flag) c).
Definition client_flag (flag : Z) : M W bool := fp ← get flag_pole; mret (raised fp flag).

Definition FdClient_close : M W unit :=
  on_this tt (
    s ← get sock;
    if s <? 0 then mret tt else
    s ← get sock; close_fd s;; set (set_sock (-1))).
Definition FdClient_connect : M W Z :=
  on_this ALIB_BAD_ARG (
    s ← sys sys_socket; set (set_sock s);;
    if s <? 0 then mret ALIB_FD_ERR else
    s ← get sock; err ← sys (sys_call Connect s);
    if negb (err =? 0) then FdClient_close;; mret ALIB_FD_ERR else mret ALIB_OK).
Definition FdClient_send (fd : Z) : M W Z :=
  on_this ALIB_BAD_ARG (
    s ← get sock;
    err ← (if s <? 0 then FdClient_connect else mret ALIB_OK);
    if negb (err =? 0) then mret err else
    s ← get sock; r ← sys (sys_send_fd s fd);
    mret (if negb (r =? 0) then ALIB_CHECK_ERRNO else ALIB_OK)).

(** * Listening *)

(** "Check for an epoll error on the socket." *)
Definition bad_event (event : epoll_event) : bool :=
  raised (ev_events event) (Z.lor EPOLLERR EPOLLHUP) || negb (raised (ev_events event) EPOLLIN).
Definition receive_fd (fd_received : Z -> M W unit) : M W unit :=
  s ← get sock;
  '(r, new_fd) ← sys (fun k => let '(r, fd, k) := sys_recv_fd s k in ((r, fd), k));
  if (r =? 0) && negb (new_fd =? -1) then fd_received new_fd else FdClient_close.
(** [event] keeps its contents when [epoll_wait] fails. *)
Fixpoint listen_turns (fuel : nat) (efd : Z) (event : epoll_event) (fd_received : Z -> M W unit) : M W unit :=
  match fuel with
  | O => lift Diverges
  | S k =>
      s ← get sock;
      if negb (s >? -1) then mret tt else
      '(rval, evs) ← sys (fun k => let '(n, evs, k) := sys_epoll_wait efd 1 k in ((n, evs), k));
      if rval =? 0 then listen_turns k efd event fd_received else
      let event := if 0 <? rval then default event (head evs) else event in
      if bad_event event then FdClient_close else
      receive_fd fd_received;; listen_turns k efd event fd_received
  end.
Definition FdClient_listen (fuel : nat) (fd_received : option (Z -> M W unit)) : M W Z :=
  on_this ALIB_BAD_ARG (
    match fd_received with
    | None => mret ALIB_BAD_ARG
    | Some fd_received =>
        s ← get sock; rval ← (if s <? 0 then FdClient_connect else mret 0);
        if negb (rval =? 0) then mret rval else
        efd ← sys sys_epoll_create;
        if efd <? 0 then mret ALIB_FD_ERR else
        s ← get sock; r ← sys (sys_epoll_add efd EPOLLIN s);
        if r <? 0 then close_fd efd;; mret ALIB_UNKNOWN_ERR else
        listen_turns fuel efd (mkEpollEvent s EPOLLIN) fd_received;;
        close_fd efd;; mret ALIB_OK
    end).
(** The argument of the thread; its [client] is the object. *)
Record fdc_pack := mkFdcPack { fd_received : option (Z -> M W unit); fd_disconnected : option (M W unit) }.
Definition threaded_listen (fuel : nat) (pack : fdc_pack) : M W unit :=
  raise_client THREAD_IS_RUNNING;;
  FdClient_listen fuel (fd_received pack);;
  lower_client THREAD_IS_RUNNING;;
  s ← get sock;
  if s <? 0 then match fd_disconnected pack with Some f => f | None => lift (UB NullDeref) end else mret tt.
(** [ok]: the outcome of the allocation; the result says which package the thread has. *)
Definition FdClient_listen_async (ok : bool) (received : option (Z -> M W unit)) (disconnected : option (M W unit)) :
    M W (Z * option fdc_pack) :=
  on_this (ALIB_BAD_ARG, None) (
    match received with
    | None => mret (ALIB_BAD_ARG, None)
    | Some _ =>
        running ← client_flag THREAD_IS_RUNNING;
        if running : bool then mret (ALIB_OK, None) else
        s ← get sock; err ← (if s <? 0 then FdClient_connect else mret ALIB_OK);
        if negb (err =? 0) then mret (err, None) else
        if negb ok then mret (ALIB_MEM_ERR, None) else
        created ← client_flag THREAD_CREATED;
        (if created : bool then join;; lower_client THREAD_CREATED else raise_client THREAD_CREATED);;
        mret (create, if create =? 0 then Some (mkFdcPack received disconnected) else None)
    end).

(** * The rest of the interface *)
Definition FdClient_get_sock : M W Z := get sock.
Definition FdClient_get_addr : M W (Datatypes.list Z) := get sun_path.
Definition FdClient_get_extended_data : M W ptr := get extended_data.
Definition FdClient_is_connected : M W Z := s ← get sock; mret (if s <? 0 then 0 else 1).
Definition FdClient_set_extended_data (data : ptr) (free_data free_old_data : bool) : M W unit :=
  on_this tt (
    c ← this;
    when (free_extended_data c && negb (extended_data c =? NULL) && free_old_data) (emit (EvFree (extended_data c)));;
    set (set_extended data free_data)).
(** [ok]: the outcome of the allocation. *)
Definition newFdClient (ok : bool) (fname : option (Datatypes.list Z)) (name_len : Z) : M W unit :=
  match fname with
  | None => modify (set_object None)
  | Some fname =>
      if negb ok then modify (set_object None) else
      name_len ← lift (if name_len =? 0 then strlen fname 0 else Ok name_len);
      let name_len := if name_len >? 108 then 108 else name_len in
      path ← lift (blk_copy (replicate 108 0) 0 fname 0 name_len);
      modify (set_object (Some (mkFdClient (-1) path 0 NULL false)))
  end.
Definition delFdClient : M W unit :=
  on_this tt (
    FdClient_close;;
    created ← client_flag THREAD_CREATED; when created join;;
    c ← this; when (free_extended_data c && negb (extended_data c =? NULL)) (emit (EvFree (extended_data c)));;
    modify (set_object None)).
End client.
