(* ===== verification/FdClientSpec.v ===== *)
(** What the client of [FdClient] promises: the descriptors it opened for
    itself, its socket and the epoll instance of [FdClient_listen], are closed
    again, and every descriptor it received was given to the client's code. *)
From S2P Require Import Prelude Memory Effects Heap AlibTypes AlibString TimerEvent Posix ServerState ServerSpec FdClient.
Open Scope Z_scope.

Section ledger.
Context {K P U : Type} `{PosixLaws K} `{Keeps U}.
Notation W := (world K FdClient P U).
Context (received : Z -> M W unit) (join : M W unit).

Definition socket_list (c : FdClient) : dlist Z := if sock c <? 0 then [] else [sock c].
(** [X]: what is held for the moment, besides the socket. *)
Definition holding (X : dlist Z) (w : W) : Prop := exists c, object w = Some c /\ holds (X ++ socket_list c) (kern w) (user w).
Definition idle (X : dlist Z) (w : W) : Prop := exists c, object w = Some c /\ sock c < 0 /\ holds X (kern w) (user w).
(** The client's code takes over what is received, and may do anything to the client but delete it; the thread that is
    waited for does not connect the client again. *)
Record fd_client_code : Prop := {
  received_ok X fd w : holding (fd :: X) w -> safe (received fd) (fun _ w' => holding X w') w;
  received_none X fd w : holding X w -> fd < 0 -> safe (received fd) (fun _ w' => holding X w') w;
  join_ok X w : idle X w -> safe join (fun _ w' => idle X w') w }.
Hypothesis Hcode : fd_client_code.

Lemma keeps_get {A} (f : FdClient -> A) X (Q : A -> W -> Prop) w : holding X w -> (forall a, Q a w) -> safe (get f) Q w.
Proof. intros (c & Ho & _) HQ. apply post_safe. by eapply post_get. Qed.
Lemma keeps_flag fl X (Q : bool -> W -> Prop) w : holding X w -> (forall b, Q b w) -> safe (client_flag fl) Q w.
Proof. intros Hw HQ. unfold client_flag. apply safe_bind. eapply keeps_get; [done|]. intros a. apply HQ. Qed.
Lemma keeps_this {A} (d : A) (m : M W A) X (Q : A -> W -> Prop) w : holding X w -> safe m Q w -> safe (on_this d m) Q w.
Proof. intros (c & Ho & _) Hm. unfold on_this. apply safe_bind, post_safe, post_gets. by rewrite Ho. Qed.
Lemma keeps_sys {A} (f : K -> A * K) X (Q : A -> W -> Prop) w : holding X w -> fds (f (kern w)).2 = fds (kern w) ->
  (forall w', holding X w' -> Q (f (kern w)).1 w') -> safe (sys f) Q w.
Proof.
  intros (c & Ho & Hh) Hf HQ. apply post_safe, post_sys, HQ. exists c. split; [done|]. eapply holds_fds_same; [exact Hf|exact Hh].
Qed.
Lemma keeps_close d X (Q : unit -> W -> Prop) w : holding (d :: X) w -> (forall w', holding X w' -> Q tt w') ->
  safe (close_fd d) Q w.
Proof. intros (c & Ho & Hh) HQ. apply post_safe, post_sys, HQ. exists c. split; [done|]. by apply holds_close. Qed.

Lemma close_ok X w (Q : unit -> W -> Prop) : holding X w ->
  (forall c w', object w' = Some c -> sock c < 0 -> holding X w' -> Q tt w') -> safe FdClient_close Q w.
Proof.
  intros Hw HQ. pose proof Hw as (c & Ho & Hh). unfold FdClient_close. eapply keeps_this; [exact Hw|].
  apply safe_bind, post_safe. eapply post_get; [done|]. unfold socket_list in Hh.
  destruct (Z.ltb_spec (sock c) 0) as [Hs|Hs]; [by eapply HQ|].
  apply safe_bind, post_safe. eapply post_get; [done|].
  apply safe_bind, post_safe, post_sys. cbn [fst snd]. apply post_safe. eapply post_set; [done|].
  eapply HQ; [done|done|]. exists (set_sock (-1) c). split; [done|]. change (socket_list (set_sock (-1) c)) with (@nil Z).
  rewrite app_nil_r. apply holds_close. eapply holds_perm; [|exact Hh]. by rewrite Permutation_app_comm.
Qed.
(** A client without a socket connects. *)
Lemma reconnect_ok X c w (Q : Z -> W -> Prop) : object w = Some c -> sock c < 0 -> holding X w ->
  (forall r w', holding X w' -> Q r w') -> safe FdClient_connect Q w.
Proof.
  intros Ho Hs Hw HQ. destruct Hw as (c' & Ho' & Hh). assert (c' = c) as -> by congruence. unfold FdClient_connect.
  apply safe_bind, post_safe, post_gets. rewrite Ho. apply safe_bind, post_safe, post_sys.
  unfold socket_list in Hh. rewrite (proj2 (Z.ltb_lt _ _)), app_nil_r in Hh by done.
  pose proof (socket_opens (kern w)) as Hop. destruct (sys_socket (kern w)) as [s k']. cbn [fst snd] in *.
  apply safe_bind, post_safe. eapply post_set; [done|]. set (w1 := set_object _ _).
  assert (holding X w1) as Hw1.
  { exists (set_sock s c). split; [done|]. unfold socket_list. cbn [sock set_sock].
    destruct (Z.ltb_spec s 0); [rewrite app_nil_r; by eapply holds_not_opened|].
    eapply holds_perm; [|by eapply holds_opened]. apply Permutation_cons_append. }
  destruct (s <? 0); [by apply HQ|]. apply safe_bind. eapply keeps_get; [exact Hw1|]. intros s1.
  apply safe_bind. eapply keeps_sys; [exact Hw1|apply call_opens|]. intros w2 Hw2.
  destruct (negb _); [|by apply HQ]. apply safe_bind. eapply close_ok; [exact Hw2|]. intros c3 w3 _ _ Hw3. by apply HQ.
Qed.
Lemma connect_if X c r w (Q : Z -> W -> Prop) : object w = Some c -> holding X w -> (forall r w', holding X w' -> Q r w') ->
  safe (if sock c <? 0 then FdClient_connect else mret r) Q w.
Proof. intros Ho Hw HQ. destruct (Z.ltb_spec (sock c) 0) as [Hs|Hs]; [by eapply reconnect_ok|by apply HQ]. Qed.

(** ** Listening *)
Lemma receive_fd_ok X w : holding X w -> safe (receive_fd received) (fun _ w' => holding X w') w.
Proof.
  intros Hw. pose proof Hw as (c & Ho & Hh). unfold receive_fd. apply safe_bind, post_safe. eapply post_get; [done|].
  apply safe_bind, post_safe, post_sys. pose proof (recv_fd_opens (sock c) (kern w)) as Hop.
  destruct (sys_recv_fd (sock c) (kern w)) as [[r fd] k']. cbn [fst snd].
  destruct Hop as [[Hf Hneg]|(Hr & Hnew & -> & Hf)].
  - assert (holding X (set_kern k' w)) as Hw1 by (exists c; split; [done|]; eapply holds_fds_same; [exact Hf|exact Hh]).
    destruct (_ && _); [by apply (received_none Hcode)|]. by eapply close_ok.
  - rewrite (proj2 (Z.eqb_neq fd (-1))) by lia. cbn [Z.eqb negb andb]. apply (received_ok Hcode). exists c. split; [done|].
    eapply holds_opened; [right; by split|exact Hh|lia].
Qed.
Lemma listen_turns_ok X fuel efd : forall event w, holding X w ->
  safe (listen_turns fuel efd event received) (fun _ w' => holding X w') w.
Proof.
  induction fuel as [|fuel IH]; intros event w Hw; [done|]. cbn [listen_turns]. apply safe_bind. eapply keeps_get; [exact Hw|].
  intros s. destruct (negb _); [done|]. apply safe_bind. eapply keeps_sys; [exact Hw| |].
  { pose proof (epoll_wait_opens efd 1 (kern w)) as Hf. by destruct (sys_epoll_wait efd 1 (kern w)) as [[??]?]. }
  intros w1 Hw1. destruct (sys_epoll_wait efd 1 (kern w)) as [[n evs] k']. cbn [fst]. destruct (n =? 0); [by apply IH|].
  destruct (bad_event _); [by eapply close_ok|]. apply safe_bind. eapply safe_mono; [by apply receive_fd_ok|].
  intros ? w2 Hw2. by apply IH.
Qed.
Lemma listen_ok X fuel w : holding X w -> safe (FdClient_listen fuel (Some received)) (fun _ w' => holding X w') w.
Proof.
  intros Hw. unfold FdClient_listen. eapply keeps_this; [exact Hw|]. pose proof Hw as (c & Ho & _).
  apply safe_bind, post_safe. eapply post_get; [done|]. apply safe_bind. eapply connect_if; [done|exact Hw|]. intros r w1 Hw1.
  destruct (negb _); [done|]. pose proof Hw1 as (c1 & Ho1 & Hh1). apply safe_bind, post_safe, post_sys.
  pose proof (epoll_create_opens (kern w1)) as Hop. destruct (sys_epoll_create (kern w1)) as [efd k']. cbn [fst snd] in *.
  destruct (Z.ltb_spec efd 0) as [Hneg|Hpos].
  { exists c1. split; [done|]. by eapply holds_not_opened. }
  assert (holding (efd :: X) (set_kern k' w1)) as Hw2 by (exists c1; split; [done|]; by eapply holds_opened).
  apply safe_bind. eapply keeps_get; [exact Hw2|]. intros s. apply safe_bind.
  eapply keeps_sys; [exact Hw2|apply epoll_add_opens|]. intros w3 Hw3.
  assert (Hend : forall a w4, holding (efd :: X) w4 -> safe (close_fd efd;; mret a : M W Z) (fun _ w' => holding X w') w4).
  { intros a w4 Hw4. apply safe_bind. eapply keeps_close; [exact Hw4|]. by intros w5 Hw5. }
  destruct (_ <? 0); [by apply Hend|]. apply safe_bind. eapply safe_mono; [by apply listen_turns_ok|]. intros ? w4 Hw4. by apply Hend.
Qed.
(** A client that listens and is deleted then, whatever the system does and the client's code, has closed its
    socket and its epoll instance; the descriptors that remain are those of the client's code, the received ones
    among them. *)
Theorem FdClient_listen_releases fuel w : holding [] w ->
  safe (FdClient_listen fuel (Some received);; delFdClient join) (fun _ w' =>
    object w' = None /\ fds (kern w') = kept (user w')) w.
Proof.
  intros Hw. apply safe_bind. eapply safe_mono; [by apply listen_ok|cbv beta]. intros ? w1 Hw1. unfold delFdClient.
  eapply keeps_this; [exact Hw1|]. apply safe_bind. eapply close_ok; [exact Hw1|]. intros c w2 Ho Hs (c' & Ho' & Hh).
  assert (c' = c) as -> by congruence. unfold socket_list in Hh. rewrite (proj2 (Z.ltb_lt _ _)) in Hh by done.
  assert (Hend : forall w3, idle [] w3 -> safe (c ← this;
    when (free_extended_data c && negb (extended_data c =? NULL)) (emit (EvFree (extended_data c)));;
    modify (set_object None)) (fun _ w' => object w' = None /\ fds (kern w') = kept (user w')) w3).
  { intros w3 (c3 & Ho3 & _ & Hh3). apply safe_bind, post_safe. eapply post_this; [done|]. apply safe_bind.
    apply holds_done in Hh3. by destruct (_ && _). }
  apply safe_bind, post_safe. unfold client_flag. apply post_bind. eapply post_get; [done|]. apply post_ret. apply safe_bind.
  destruct (raised _ _); [|by apply Hend; exists c].
  eapply safe_mono; [apply (join_ok Hcode []); by exists c|]. intros ? w3 Hw3. by apply Hend.
Qed.
End ledger.

(** * A thread that nobody waits for *)
Section thread.
Context {K P U : Type} `{Posix K}.
Notation W := (world K FdClient P U).
(** A client that is set to listen a second time, after its first thread has returned, forgets that it has a thread:
    deleting it then waits for nothing ([no_join] is never run) and frees the client the new thread uses. *)
Theorem second_listen_not_joined join no_join f d c (w : W) : object w = Some c -> 0 <= sock c ->
  raised (flag_pole c) THREAD_IS_RUNNING = false -> raised (flag_pole c) THREAD_CREATED = true ->
  post join (fun _ w' => object w' = Some c) w ->
  post ('(_, thread) ← FdClient_listen_async 0 join true (Some f) d; delFdClient no_join;; mret thread)
    (fun thread w' => thread = Some (mkFdcPack (Some f) d) /\ object w' = None) w.
Proof.
  intros Ho Hs Hr Hc Hjoin. apply post_bind. unfold FdClient_listen_async. eapply post_on_this; [done|]. apply post_bind.
  unfold client_flag at 1. apply post_bind. eapply post_get; [done|]. apply post_ret. rewrite Hr. apply post_bind.
  eapply post_get; [done|]. apply post_bind. rewrite (proj2 (Z.ltb_ge _ _)) by lia. apply post_ret. cbn [Z.eqb negb ALIB_OK].
  apply post_bind. unfold client_flag at 1. apply post_bind. eapply post_get; [done|]. apply post_ret. rewrite Hc.
  apply post_bind, post_bind. eapply post_mono; [exact Hjoin|cbv beta]. intros [] w1 Ho1. unfold lower_client.
  eapply post_set; [done|]. apply post_ret. set (c1 := set_flag_pole _ c). set (w2 := set_object _ w1).
  apply post_bind. unfold delFdClient. eapply post_on_this; [done|]. apply post_bind. unfold FdClient_close.
  eapply post_on_this; [done|]. apply post_bind. eapply post_get; [done|]. cbn [sock c1 set_flag_pole].
  rewrite (proj2 (Z.ltb_ge _ _)) by lia. apply post_bind. eapply post_get; [done|]. apply post_bind, post_sys.
  eapply post_set; [done|]. apply post_bind. unfold client_flag. apply post_bind. eapply post_get; [done|]. apply post_ret.
  replace (raised _ THREAD_CREATED) with false; cycle 1.
  { symmetry. apply negb_false_iff, Z.eqb_eq. cbn [flag_pole set_sock c1 set_flag_pole]. unfold flag_lower.
    rewrite <- Z.land_assoc. change (Z.land (u64 (Z.lnot THREAD_CREATED)) THREAD_CREATED) with 0. apply Z.land_0_r. }
  apply post_bind, post_ret, post_bind. eapply post_this; [done|]. apply post_bind, post_when; intros _;
    [apply post_emit|]; by apply post_modify, post_ret.
Qed.
End thread.

(** * Runs *)
Section run.
#[local] Instance keeper : Keeps (gset Z) := fun u => u.
#[local] Instance system : Posix script := scripted 256 true.
#[local] Instance system_laws : PosixLaws script := scripted_laws 256 true.
Notation W := (world script FdClient unit (gset Z)).
(** The client's code keeps what it receives. *)
Definition keep_fd (fd : Z) : M W unit :=
  modify (fun w => mkWorld (kern w) (object w) (packs w) (if fd <? 0 then user w else {[fd]} ∪ user w)).
Lemma keeping : fd_client_code keep_fd (mret tt).
Proof.
  split; [| |done].
  - intros X fd w (c & Ho & Hh). exists c. split; [done|]. cbn [kern user].
    pose proof (holds_member _ _ _ fd Hh ltac:(set_solver)) as Hfd. rewrite (proj2 (Z.ltb_ge _ _)) by lia.
    destruct Hh as [Hn Hf Ha Hr]. cbn [app] in *. apply NoDup_cons in Hn as [Hni Hn]. unfold kept, keeper in *.
    split; [done| | |done].
    + rewrite Hf. unfold kept. set_solver.
    + intros d Hd Hk. unfold kept in Hk. apply elem_of_union in Hk as [->%elem_of_singleton|Hk]; [done|]. apply (Ha d); [set_solver|exact Hk].
  - intros X fd w (c & Ho & Hh) Hneg. exists c. split; [done|]. cbn [kern user]. by rewrite (proj2 (Z.ltb_lt _ _)).
Qed.
Definition fd_client (s flags : Z) : FdClient := mkFdClient s (replicate 108 0) flags NULL false.
Definition client_world (s flags : Z) (open : gset Z) (next : Z) (b : dlist (dlist epoll_event)) : W :=
  mkWorld (mkScript open ∅ next [] b [] [] []) (Some (fd_client s flags)) ∅ {[0]}.
(** Two descriptors come before the server hangs up. *)
Definition two_received : W := client_world (-1) 0 {[0]} 3
  [[mkEpollEvent 3 EPOLLIN]; []; [mkEpollEvent 3 EPOLLIN]; [mkEpollEvent 3 EPOLLHUP]].
Lemma FdClient_listen_releases_witness :
  safe (FdClient_listen 8 (Some keep_fd);; delFdClient (mret tt)) (fun _ w' =>
    object w' = None /\ fds (kern w') = kept (user w')) two_received.
Proof.
  apply (FdClient_listen_releases _ _ keeping). exists (fd_client (-1) 0). split; [done|].
  split; [apply NoDup_nil_2|done|by intros d ?%elem_of_nil|].
  intros d Hd. change (d ∈ ({[0]} : gset Z)) in Hd. apply elem_of_singleton in Hd as ->. lia.
Defined.
Example listen_two :
  match (FdClient_listen 8 (Some keep_fd);; delFdClient (mret tt)) two_received with
  | Ok (_, w, _) => elements (fds (kern w)) = [5; 6; 0] | _ => False end.
Proof. vm_compute. auto. Qed.
(** A client whose first thread has returned. *)
Definition listened : W := client_world 3 THREAD_CREATED {[0; 3]} 4 [].
Lemma second_listen_not_joined_witness :
  post ('(_, thread) ← FdClient_listen_async 0 (mret tt) true (Some keep_fd) None; delFdClient (lift (UB Dangling));; mret thread)
    (fun thread w' => thread = Some (mkFdcPack (Some keep_fd) None) /\ object w' = None) listened.
Proof.
  apply (second_listen_not_joined (mret tt) (lift (UB Dangling)) keep_fd None (fd_client 3 THREAD_CREATED)); try done.
  by apply post_ret.
Defined.
End run.
