(* ===== verification/Stdio.v ===== *)
(** The streams of the C library, [<stdio.h>], as the files use them: named
    files with their bytes, and open streams with a position.  An operation on
    a stream that is not open is a fault.  What the system decides is an
    argument: whether an [fopen] is granted, and how many bytes a device takes. *)
From stdpp Require Import gmap.
From S2P Require Import Prelude Memory Effects.

Notation path := (list Z) (only parsing).
Inductive mode := ForReading | ForUpdate | ForAppending.   (* "r", "w+", "a" *)
#[export] Instance mode_eq_dec : EqDecision mode.
Proof. solve_decision. Defined.
Record stream := mkStream { s_path : path; s_mode : mode; s_pos : Z }.
Record disk := mkDisk { files : gmap path (list Z); streams : gmap Z stream }.
Definition set_files (f : gmap path (list Z)) (d : disk) := mkDisk f (streams d).
Definition set_streams (s : gmap Z stream) (d : disk) := mkDisk (files d) s.
Definition file_at (p : path) (d : disk) : list Z := default [] (files d !! p).
Definition exists_at (p : path) (d : disk) : bool := bool_decide (is_Some (files d !! p)).

(** [fopen]: "r" needs the file, "w+" empties it, "a" creates it when it is missing. *)
Definition opens (p : path) (m : mode) (h : Z) (d : disk) : disk :=
  let f := match m with
           | ForReading => files d
           | ForUpdate => <[p := []]> (files d)
           | ForAppending => <[p := file_at p d]> (files d)
           end in
  mkDisk f (<[h := mkStream p m 0]> (streams d)).
Definition may_open (granted : bool) (p : path) (m : mode) (d : disk) : bool :=
  granted && match m with ForReading => exists_at p d | _ => true end.
Definition new_handle (d : disk) : Z := fresh (dom (streams d)).
Definition open_as (granted : bool) (p : path) (m : mode) (h : Z) : M disk (option Z) := fun d =>
  if may_open granted p m d then Ok (Some h, opens p m h d, []) else Ok (None, d, []).
Definition fopen (granted : bool) (p : path) (m : mode) : M disk (option Z) := fun d =>
  open_as granted p m (new_handle d) d.

Definition stream_at (h : Z) : M disk stream := fun d =>
  match streams d !! h with Some s => Ok (s, d, []) | None => UB Dangling end.
Definition put_stream (h : Z) (s : stream) : M disk unit :=
  modify (fun d => set_streams (<[h := s]> (streams d)) d).
Definition move_to (h pos : Z) : M disk unit :=
  s ← stream_at h; put_stream h (mkStream (s_path s) (s_mode s) pos).

Definition fclose (h : Z) : M disk unit :=
  _ ← stream_at h; modify (fun d => set_streams (delete h (streams d)) d).
(** The stream is closed first; after a failure it stays closed. *)
Definition freopen (granted : bool) (p : path) (m : mode) (h : Z) : M disk (option Z) :=
  fclose h;; open_as granted p m h.

Definition ftell (h : Z) : M disk Z := s ← stream_at h; mret (s_pos s).
(** A position that is negative or that [long] does not hold is refused. *)
Definition seek_to (h pos : Z) : M disk Z :=
  if (0 <=? pos) && (pos <=? LONG_MAX) then move_to h pos;; mret 0 else mret (-1).
Definition stream_bytes (h : Z) : M disk (list Z) := s ← stream_at h; gets (file_at (s_path s)).
Inductive whence := SEEK_SET | SEEK_CUR | SEEK_END.
Definition fseek (h off : Z) (w : whence) : M disk Z :=
  s ← stream_at h; c ← stream_bytes h;
  seek_to h (s64 off + match w with SEEK_SET => 0 | SEEK_CUR => s_pos s | SEEK_END => blen c end).

(** The bytes [fread] delivers: those that are there. *)
Definition read_stream (h n : Z) : M disk (list Z) :=
  s ← stream_at h; c ← stream_bytes h;
  match s_mode s with
  | ForAppending => mret []
  | _ => let d := slice c (Z.min (s_pos s) (blen c)) (Z.min n (blen c)) in
         move_to h (s_pos s + blen d);; mret d
  end.
Notation cell := (option Z) (only parsing).
(** [fread(buff + off, 1, n, file)] *)
Definition fread (h n : Z) (buff : list cell) (off : Z) : M disk (Z * list cell) :=
  d ← read_stream h n; b ← lift (blk_write buff off (Some <$> d)); mret (blen d, b).

(** The file after [d] is written at [pos]; a gap is filled with zeros. *)
Definition overwrite (c : list Z) (pos : Z) (d : list Z) : list Z :=
  take (Z.to_nat pos) (c ++ replicate (Z.to_nat (pos - blen c)) 0) ++ d ++ drop (Z.to_nat (pos + blen d)) c.
(** [fwrite] of the bytes [d]; [room]: the bytes the device takes.  "a" writes at the end. *)
Definition fwrite (room : Z) (h : Z) (d : list Z) : M disk Z :=
  s ← stream_at h; c ← stream_bytes h;
  match s_mode s with
  | ForReading => mret 0
  | m => let d := take (Z.to_nat room) d in
         let pos := match m with ForAppending => blen c | _ => s_pos s end in
         modify (fun w => set_files (<[s_path s := overwrite c pos d]> (files w)) w);;
         move_to h (pos + blen d);; mret (blen d)
  end.
