(* ===== verification/AlibFile.v ===== *)
(** Files and directories, [source/alib_file.c] and [source/alib_dir.c].  What
    [readdir] lists, and whether the system grants an [fopen] or a [malloc],
    are arguments; [mkdir] and [stat] come from the interface [FileSystem]. *)
From stdpp Require Import gmap.
From S2P Require Import Prelude Memory Effects AlibString CString StringObject Stdio.
Open Scope Z_scope.

(** * Directories *)

(** A file's name is a C string, here without its NUL. *)
Record dirent := mkDirent { d_type : Z; d_name : list Z }.
Definition DT_DIR : Z := 4.
Definition DT_REG : Z := 8.
(** [*d_name == '.'] *)
Definition is_hidden (e : dirent) : bool :=
  match d_name e with c :: _ => c =? 46 | [] => false end.

(** ** [strtoll] and [atoll] in base 10 *)
Definition is_space (c : Z) : bool := (c =? 32) || ((9 <=? c) && (c <=? 13)).
Definition is_digit (c : Z) : bool := (48 <=? c) && (c <=? 57).
Fixpoint skip_space (s : list Z) : list Z :=
  match s with c :: r => if is_space c then skip_space r else s | [] => [] end.
Fixpoint leading_digits (s : list Z) : list Z :=
  match s with c :: r => if is_digit c then c :: leading_digits r else [] | [] => [] end.
Definition clamp (n : Z) : Z := Z.max LONG_MIN (Z.min LONG_MAX n).
Definition strtoll (s : list Z) : Z :=
  match skip_space s with
  | c :: r => if c =? 45 then clamp (- dec_digits 0 (leading_digits r))
              else clamp (dec_digits 0 (leading_digits (if c =? 43 then r else c :: r)))
  | [] => 0
  end.
Definition atoll (s : list Z) : Z := strtoll s.

Definition cb_file_sort_by_number (a b : list Z) : Z :=
  let a_val := atoll a in let b_val := atoll b in
  if a_val <? b_val then -1 else if a_val >? b_val then 1 else 0.

(** ** Numbered files.  [d]: what is listed, [None] when [opendir] fails. *)
Definition is_numbered (e : dirent) : bool := (d_type e =? DT_REG) && negb (is_hidden e).
Definition highest_step (highest_value : Z) (e : dirent) : Z :=
  if is_numbered e then
    let fn := u64 (strtoll (d_name e)) in if fn >? highest_value then fn else highest_value
  else highest_value.
Definition highest_value_file (d : option (list dirent)) : Z :=
  match d with Some l => foldl highest_step 0 l | None => 0 end.
Definition lowest_step (lowest_value : Z) (e : dirent) : Z :=
  if is_numbered e then
    let fn := u64 (strtoll (d_name e)) in
    if (fn <? lowest_value) || (lowest_value =? 0) then fn else lowest_value
  else lowest_value.
Definition lowest_value_file (d : option (list dirent)) : Z :=
  match d with Some l => foldl lowest_step 0 l | None => 0 end.

(** ** Listing *)
(** [++] on an [int]. *)
Definition int_incr (n : Z) : res Z := if n <? INT32_MAX then Ok (n + 1) else UB SignedOverflow.
Fixpoint count_loop (include_directories include_hidden : bool) (l : list dirent) (file_count : Z) : res Z :=
  match l with
  | [] => Ok file_count
  | e :: l =>
      if d_type e =? DT_REG then
        if negb include_hidden && is_hidden e then count_loop include_directories include_hidden l file_count
        else n ← int_incr file_count; count_loop include_directories include_hidden l n
      else if (d_type e =? DT_DIR) && include_directories then
        n ← int_incr file_count; count_loop include_directories include_hidden l n
      else count_loop include_directories include_hidden l file_count
  end.
(** [directory]: [None] for NULL; [d]: the listing of an open directory. *)
Definition get_file_count (directory : option path) (d : option (list dirent))
    (include_directories include_hidden : bool) : res Z :=
  match directory, d with
  | None, _ => Ok (-1)
  | Some _, None => Ok ALIB_FILE_OPEN_ERR
  | Some _, Some l => count_loop include_directories include_hidden l 0
  end.

(** An array of names; NULL is [None]. *)
Notation names := (list (option (list Z))) (only parsing).
(** The loop over the second listing.  [granted]: the outcome of the [malloc]
    for each slot.  The result says whether a [malloc] failed. *)
Fixpoint names_loop (granted : Z -> bool) (include_directories include_hidden : bool) (l : list dirent)
    (file_it_counter it : Z) (arr : names) : res (bool * names) :=
  if negb (file_it_counter >? 0) then Ok (true, arr) else
  match l with
  | [] => Ok (true, arr)
  | e :: l =>
      if (d_type e =? DT_REG) || (include_directories && (d_type e =? DT_DIR)) then
        if is_hidden e && negb include_hidden
        then names_loop granted include_directories include_hidden l file_it_counter it arr else
        if negb (granted it) then arr ← blk_store arr it None; Ok (false, arr) else
        arr ← blk_store arr it (Some (d_name e));
        n ← int_incr file_it_counter;
        names_loop granted include_directories include_hidden l n (it + 1) arr
      else names_loop granted include_directories include_hidden l file_it_counter it arr
  end.
(** [for(it = *r; *it != NULL; ++it) free( *it);] *)
Fixpoint free_names (fuel : nat) (arr : names) (it : Z) : res unit :=
  match fuel with
  | O => Diverges
  | S n => x ← blk_load arr it; match x with None => Ok tt | Some _ => free_names n arr (it + 1) end
  end.
(** [d1], [d2]: what the directory lists when it is counted and when it is read;
    [r_file_names]: [None] for a NULL argument, and the pointer it holds.  The
    result has the pointer afterwards. *)
Definition get_all_file_names (directory : option path) (d1 d2 : option (list dirent)) (calloc_ok : bool)
    (granted : Z -> bool) (r_file_names : option (option names)) (include_directories include_hidden : bool)
    : res (Z * option (option names)) :=
  file_count ← get_file_count directory d1 include_directories include_hidden;
  match r_file_names with
  | None => Ok (ALIB_BAD_ARG, None)
  | Some _ =>
      if file_count <? 0 then Ok (ALIB_BAD_ARG, r_file_names) else
      if file_count =? 0 then Ok (file_count, Some None) else
      if negb calloc_ok then Ok (ALIB_MEM_ERR, Some None) else
      let arr : names := replicate (Z.to_nat file_count) None in
      match d2 with
      | None => free_names (S (length arr)) arr 0;; Ok (ALIB_FILE_OPEN_ERR, Some None)
      | Some l =>
          '(ok, arr) ← names_loop granted include_directories include_hidden l file_count 0 arr;
          if ok : bool then Ok (file_count, Some (Some arr))
          else free_names (S (length arr)) arr 0;; Ok (ALIB_MEM_ERR, Some None)
      end
  end.

(** ** Making directories *)
Class FileSystem (W : Type) := {
  mkdir : path -> Z -> W -> Z * W;
  stat : path -> W -> bool           (* whether [stat] finds the path *)
}.
Section mkdir.
Context {W : Type} `{FileSystem W}.

Definition is_separator (c : Z) : bool := (c =? 47) || (c =? 92).
(** The C string that starts at the beginning of the array, for a system call. *)
Definition text_of (b : list Z) : res path := n ← strlen b 0; Ok (slice b 0 n).
(** [while( *ptr == '/' || *ptr == '\\'){ *ptr = '\0'; --ptr; }] *)
Fixpoint strip_loop (fuel : nat) (b : list Z) (p : Z) : res (list Z) :=
  match fuel with
  | O => Diverges
  | S n => c ← blk_load b p;
           if is_separator c then b ← blk_store b p 0; strip_loop n b (p - 1) else Ok b
  end.
Definition mkdir_at (b : list Z) (mode : Z) (w : W) : res (Z * W) :=
  p ← text_of b; Ok (mkdir p mode w).
(** The loop over the string; [*ptr = '/'] replaces either separator. *)
Fixpoint mkdir_loop (fuel : nat) (b : list Z) (p mode : Z) (w : W) : res (list Z * W) :=
  match fuel with
  | O => Diverges
  | S n =>
      c ← blk_load b p;
      if c =? 0 then Ok (b, w) else
      if is_separator c then
        b ← blk_store b p 0; '(_, w) ← mkdir_at b mode w; b ← blk_store b p 47;
        mkdir_loop n b (p + 1) mode w
      else mkdir_loop n b (p + 1) mode w
  end.
(** [dir]: the array behind the argument; [ok1], [ok2], [k]: the allocations of
    the string object. *)
Definition mkdir_ex (ok1 ok2 : bool) (k : option (list Z)) (dir : list Z) (mode : Z) (recurs : bool) (w : W)
    : res (Z * W) :=
  if negb recurs then '(r, w) ← mkdir_at dir mode w; Ok (to_char r, w) else
  match newStringObject ok1 ok2 with
  | None => Ok (-1, w)
  | Some o =>
      '(_, dir_str, _) ← StringObject_append k (Some dir) (Some o);
      o ← deref dir_str; b ← deref (str o);
      b ← strip_loop (S (length b)) b (length_ o - 1);
      '(b, w) ← mkdir_loop (S (length b)) b 1 mode w;
      '(r, w) ← mkdir_at b mode w;
      Ok (to_char r, w)
  end.
(** 0777 is 511. *)
Definition create_directory_if_not_exists (ok1 ok2 : bool) (k : option (list Z)) (dir : option (list Z)) (w : W)
    : res (Z * W) :=
  match dir with
  | None => Ok (0, w)
  | Some d =>
      p ← text_of d;
      if stat p w then Ok (1, w)
      else '(r, w) ← mkdir_ex ok1 ok2 k d 511 true w; Ok (if negb (r =? 0) then 0 else 1, w)
  end.
End mkdir.

(** * Opening files named by a number *)

(** [sprintf(f_name, "%s/%lld", dir, name)] to an array of [size] characters. *)
Definition numbered_path (size : Z) (dir : path) (name : Z) : res path :=
  let f_name := dir ++ 47 :: print_dec name in
  if blen f_name + 1 <=? size then Ok f_name else UB OutOfBounds.
(** [name] is an [int64_t] here and a [uint64_t] in [fopen_ui].  [ok]: the [malloc]. *)
Definition fopen_i (ok granted : bool) (dir : option path) (name : Z) (open_type : option mode) : M disk (option Z) :=
  match dir, open_type with
  | Some dir, Some open_type =>
      if negb ok then mret None else
      f_name ← lift (numbered_path (u64 (blen dir + LLONG_MAX_CHAR_LEN + 2)) dir name);
      fopen granted f_name open_type
  | _, _ => mret None
  end.
Definition fopen_ui (ok granted : bool) (dir : option path) (name : Z) (open_type : option mode) : M disk (option Z) :=
  match dir, open_type with
  | Some dir, Some open_type =>
      if negb ok then mret None else
      f_name ← lift (numbered_path (u64 (blen dir + LLONG_MAX_CHAR_LEN + 2)) dir name);
      fopen granted f_name open_type
  | _, _ => mret None
  end.

(** * The size of a file *)
Definition file_size (file : option Z) : M disk Z :=
  match file with
  | None => mret 0
  | Some h =>
      cur_pos ← ftell h;
      fseek h 0 SEEK_END;; size ← ftell h;
      fseek h (u64 cur_pos) SEEK_SET;; mret (u64 size)
  end.

(** * Removing data *)
Inductive file_remove_option := FRO_BEGIN | FRO_CUR_BEFORE | FRO_CUR_AFTER | FRO_END | FRO_other (n : Z).

(** [if(fread(buff + at, 1, n, file) != n) err = ALIB_FILE_READ_ERR;] *)
Definition fread_all (h at_ n : Z) (buff : list cell) : M disk (Z * list cell) :=
  '(r, buff) ← fread h n buff at_; mret (if r =? n then ALIB_OK else ALIB_FILE_READ_ERR, buff).
(** Both sides of a gap: [n] bytes, then those after the gap of [bytes]. *)
Definition fread_around (h n bytes new_size : Z) (buff : list cell) : M disk (Z * list cell) :=
  fseek h 0 SEEK_SET;;
  '(e, buff) ← fread_all h 0 n buff;
  if negb (e =? ALIB_OK) then mret (e, buff) else
  fseek h bytes SEEK_CUR;;
  fread_all h n (u64 (new_size - n)) buff.
Definition copy_kept (h pos bytes new_size : Z) (option_ : file_remove_option) (buff : list cell)
    : M disk (Z * list cell) :=
  match option_ with
  | FRO_BEGIN => fseek h bytes SEEK_SET;; fread_all h 0 new_size buff
  | FRO_CUR_BEFORE => fread_around h (u64 (pos - bytes)) bytes new_size buff
  | FRO_CUR_AFTER => fread_around h pos bytes new_size buff
  | FRO_END => fseek h 0 SEEK_SET;; fread_all h 0 new_size buff
  | FRO_other _ => mret (ALIB_BAD_ARG, buff)
  end.
(** The number of bytes to remove. *)
Definition removal (size pos bytes : Z) (option_ : file_remove_option) : Z :=
  if bytes =? 0 then
    match option_ with
    | FRO_BEGIN | FRO_CUR_BEFORE => pos
    | FRO_CUR_AFTER | FRO_END => u64 (size - pos)
    | FRO_other _ => bytes
    end
  else bytes.
(** The bytes of the buffer, which [fwrite] reads. *)
Definition buffer_bytes (buff : list cell) : res (list Z) :=
  match mapM id buff with Some d => Ok d | None => UB Indeterminate end.
(** [open_ok], [reopen_ok], [mem_ok]: the two [fopen]s and the [malloc]; [room]:
    the bytes the device takes. *)
Definition file_remove_data_at (open_ok mem_ok reopen_ok : bool) (room : Z) (file_name : option path)
    (pos bytes : Z) (option_ : file_remove_option) : M disk Z :=
  match file_name with
  | None => mret ALIB_BAD_ARG
  | Some file_name =>
      file ← fopen open_ok file_name ForReading;
      match file with
      | None => mret ALIB_FILE_OPEN_ERR
      | Some h =>
          new_size ← file_size (Some h);
          if new_size =? 0 then mret ALIB_OK else
          let bytes := removal new_size pos bytes option_ in
          if new_size <? bytes then mret ALIB_BAD_ARG else
          let new_size := u64 (new_size - bytes) in
          if negb mem_ok then mret ALIB_MEM_ERR else
          '(err, buff) ← copy_kept h pos bytes new_size option_ (replicate (Z.to_nat new_size) None);
          if negb (err =? ALIB_OK) then fclose h;; mret err else
          fclose h;;
          file ← fopen reopen_ok file_name ForUpdate;
          match file with
          | None => mret ALIB_FILE_OPEN_ERR
          | Some h =>
              d ← lift (buffer_bytes buff); n ← fwrite room h d;
              fclose h;; mret (if n =? new_size then ALIB_OK else ALIB_FILE_ERR)
          end
      end
  end.

(** * Names in paths *)

(** [path]: its array, and NULL; the result is an offset into the array. *)
Definition file_name_from_path_count (path : option (list Z)) (count : Z) : res (option Z) :=
  match path with
  | None => Ok None
  | Some b =>
      count ← (if count =? 0 then strlen b 0 else Ok count);
      pathIt ← find_last_char_count b (Some 0) 47 count;
      pathIt ← match pathIt with
               | Some it => backslash ← find_last_char_count b (Some it) 92 (u64 (count - it));
                            Ok (match backslash with Some q => Some q | None => Some it end)
               | None => find_last_char_count b (Some 0) 92 count
               end;
      Ok (Some match pathIt with None => 0 | Some it => it + 1 end)
  end.
Definition file_name_from_path (path : option (list Z)) : res (option Z) :=
  b ← deref path; n ← strlen b 0; file_name_from_path_count (Some b) n.

(** * The application's directory, [alib_dir.c]

    The state is [APP_FILE_DIR].  [ok]: the allocation of the substring;
    [argv]: [None] for NULL, and its first argument. *)
Definition get_app_file_dir_from_argv (ok : bool) (argv : option (option (list Z))) : M (option (list Z)) unit :=
  match argv with
  | Some (Some arg) =>
      dir_end ← lift (find_last_char arg 0 47);
      dir_end ← match dir_end with None => lift (find_last_char arg 0 92) | Some _ => mret dir_end end;
      modify (fun _ => None);;
      e ← lift (deref dir_end);
      s ← lift (make_substr ok arg 0 (e + 1));
      modify (fun _ => s)
  | _ => mret tt
  end.
Definition free_app_file_dir : M (option (list Z)) unit := modify (fun _ => None).
