(* ===== verification/StdioSpec.v ===== *)
(** Lemmas on streams: what each operation of [Stdio] does on a disk with one
    more stream than before, and that closing this stream leaves the disk as it
    was without it. *)
From stdpp Require Import gmap.
From S2P Require Import Prelude Memory Effects Stdio.

(** The disk [d] with the stream [h] at a position. *)
Definition with_stream (h : Z) (p : path) (m : mode) (pos : Z) (d : disk) : disk :=
  set_streams (<[h := mkStream p m pos]> (streams d)) d.

Lemma new_handle_free d : streams d !! new_handle d = None.
Proof. apply not_elem_of_dom. unfold new_handle. apply is_fresh. Qed.
Lemma file_at_with h p m pos q d : file_at q (with_stream h p m pos d) = file_at q d.
Proof. done. Qed.

Section stream.
Context (h : Z) (p : path) (m : mode).

Lemma stream_at_with pos d : stream_at h (with_stream h p m pos d) = Ok (mkStream p m pos, with_stream h p m pos d, []).
Proof. unfold stream_at. cbn. by rewrite lookup_insert_eq. Qed.
Lemma move_to_with pos new d : move_to h new (with_stream h p m pos d) = Ok (tt, with_stream h p m new d, []).
Proof.
  unfold move_to. rewrite (bind_quiet _ _ _ _ _ (stream_at_with pos d)).
  unfold put_stream, modify, set_streams, with_stream. cbn. by rewrite insert_insert_eq.
Qed.
Lemma ftell_with pos d : ftell h (with_stream h p m pos d) = Ok (pos, with_stream h p m pos d, []).
Proof. unfold ftell. by rewrite (bind_quiet _ _ _ _ _ (stream_at_with pos d)). Qed.
Lemma stream_bytes_with pos d :
  stream_bytes h (with_stream h p m pos d) = Ok (file_at p d, with_stream h p m pos d, []).
Proof. unfold stream_bytes. by rewrite (bind_quiet _ _ _ _ _ (stream_at_with pos d)). Qed.

(** A seek to a place that exists. *)
Lemma fseek_with pos d off w (new : Z) :
  s64 off + match w with SEEK_SET => 0 | SEEK_CUR => pos | SEEK_END => blen (file_at p d) end = new ->
  0 <= new <= LONG_MAX ->
  fseek h off w (with_stream h p m pos d) = Ok (0, with_stream h p m new d, []).
Proof.
  intros Hn Hr. unfold fseek. rewrite (bind_quiet _ _ _ _ _ (stream_at_with pos d)).
  rewrite (bind_quiet _ _ _ _ _ (stream_bytes_with pos d)). cbn [s_pos].
  replace (s64 off + _) with new by (destruct w; lia). unfold seek_to.
  rewrite !(proj2 (Z.leb_le _ _)) by lia. cbn [andb].
  by rewrite (bind_quiet _ _ _ _ _ (move_to_with pos new d)).
Qed.
Lemma fseek_set_with pos d off :
  0 <= off <= LONG_MAX -> fseek h off SEEK_SET (with_stream h p m pos d) = Ok (0, with_stream h p m off d, []).
Proof. intros H. apply fseek_with; [|done]. unfold LONG_MAX in H. rewrite s64_small; lia. Qed.

Lemma fclose_with pos d : streams d !! h = None -> fclose h (with_stream h p m pos d) = Ok (tt, d, []).
Proof.
  intros Hh. unfold fclose. rewrite (bind_quiet _ _ _ _ _ (stream_at_with pos d)).
  unfold modify, set_streams, with_stream. cbn. rewrite delete_insert_id by done. by destruct d.
Qed.
End stream.

(** Reading what is there. *)
Lemma read_stream_with h p m pos d n :
  m <> ForAppending -> 0 <= pos <= blen (file_at p d) -> 0 <= n ->
  let r := slice (file_at p d) pos (Z.min n (blen (file_at p d))) in
  read_stream h n (with_stream h p m pos d) = Ok (r, with_stream h p m (pos + blen r) d, []).
Proof.
  intros Hm Hp Hn. unfold read_stream. rewrite (bind_quiet _ _ _ _ _ (stream_at_with h p m pos d)).
  rewrite (bind_quiet _ _ _ _ _ (stream_bytes_with h p m pos d)). cbn [s_mode s_pos].
  rewrite (Z.min_l pos) by lia.
  by destruct m; [| |done]; rewrite (bind_quiet _ _ _ _ _ (move_to_with h p _ pos _ d)).
Qed.
Lemma slice_min {A} (c : list A) pos n : 0 <= pos <= blen c -> 0 <= n ->
  slice c pos (Z.min n (blen c)) = slice c pos (Z.min n (blen c - pos)).
Proof.
  intros Hp Hn. unfold slice. destruct (Z.le_gt_cases n (blen c - pos)); [f_equal; lia|].
  unfold blen in *. rewrite !take_ge; [done|rewrite length_drop; lia..].
Qed.
Lemma fread_with h p m pos d n buff off buff' :
  m <> ForAppending -> 0 <= pos -> 0 <= n -> pos + n <= blen (file_at p d) ->
  blk_write buff off (Some <$> slice (file_at p d) pos n) = Ok buff' ->
  fread h n buff off (with_stream h p m pos d) = Ok ((n, buff'), with_stream h p m (pos + n) d, []).
Proof.
  intros Hm Hp Hn Hl Hw. unfold fread.
  pose proof (read_stream_with h p m pos d n Hm ltac:(lia) Hn) as E. cbv zeta in E.
  rewrite slice_min, (Z.min_l n) in E by lia. rewrite blen_slice in E by lia.
  rewrite (bind_quiet _ _ _ _ _ E). unfold lift. rewrite Hw.
  rewrite blen_slice by lia. by unfold mbind, M_bind, mret, M_ret; cbn.
Qed.
(** A read that delivers more than the buffer holds. *)
Lemma fread_overflows h p m pos d n buff off :
  m <> ForAppending -> 0 <= pos <= blen (file_at p d) -> 0 <= n -> 0 <= off ->
  0 < Z.min n (blen (file_at p d) - pos) -> blen buff < off + Z.min n (blen (file_at p d) - pos) ->
  fread h n buff off (with_stream h p m pos d) = UB OutOfBounds.
Proof.
  intros Hm Hp Hn Ho H0 Hb. unfold fread.
  pose proof (read_stream_with h p m pos d n Hm Hp Hn) as E. cbv zeta in E. rewrite slice_min in E by lia.
  rewrite (bind_quiet _ _ _ _ _ E). apply bind_UB. unfold lift, blk_write.
  assert (blen (Some <$> slice (file_at p d) pos (Z.min n (blen (file_at p d) - pos)))
    = Z.min n (blen (file_at p d) - pos)) as ->.
  { unfold blen at 1. rewrite length_fmap. apply blen_slice; lia. }
  rewrite (proj2 (Z.eqb_neq _ 0)), (proj2 (Z.leb_gt (_ + _) _)) by lia. by rewrite andb_false_r.
Qed.

(** Writing to a file that was just emptied. *)
Lemma overwrite_empty d : overwrite [] 0 d = d.
Proof. unfold overwrite. cbn. by rewrite drop_nil, app_nil_r. Qed.
(** Writing at the end. *)
Lemma overwrite_end c d : overwrite c (blen c) d = c ++ d.
Proof.
  unfold overwrite. rewrite Z.sub_diag. cbn [Z.to_nat replicate]. rewrite app_nil_r.
  unfold blen. rewrite Nat2Z.id, take_ge, drop_ge by lia. by rewrite app_nil_r.
Qed.
Lemma fwrite_with room h p m pos d data :
  m <> ForReading ->
  let w := take (Z.to_nat room) data in
  let at_ := match m with ForAppending => blen (file_at p d) | _ => pos end in
  fwrite room h data (with_stream h p m pos d)
  = Ok (blen w, with_stream h p m (at_ + blen w) (set_files (<[p := overwrite (file_at p d) at_ w]> (files d)) d), []).
Proof.
  intros Hm w at_. unfold fwrite. rewrite (bind_quiet _ _ _ _ _ (stream_at_with h p m pos d)).
  rewrite (bind_quiet _ _ _ _ _ (stream_bytes_with h p m pos d)). cbn [s_mode s_path s_pos].
  destruct m; [done|..]; rewrite bind_modify;
    (eapply bind_loud; [exact (move_to_with h p _ pos _ (set_files (<[p := overwrite (file_at p d) at_ w]> (files d)) d))|done]).
Qed.

(** Opening. *)
Lemma fopen_reading d p c : files d !! p = Some c ->
  fopen true p ForReading d = Ok (Some (new_handle d), with_stream (new_handle d) p ForReading 0 d, []).
Proof. intros H. unfold fopen, open_as, may_open, exists_at. rewrite H. cbn [andb]. by rewrite bool_decide_true by done. Qed.
Lemma fopen_update d p :
  fopen true p ForUpdate d
  = Ok (Some (new_handle d), with_stream (new_handle d) p ForUpdate 0 (set_files (<[p := []]> (files d)) d), []).
Proof. done. Qed.
Lemma fopen_append d p :
  fopen true p ForAppending d
  = Ok (Some (new_handle d),
        with_stream (new_handle d) p ForAppending 0 (set_files (<[p := file_at p d]> (files d)) d), []).
Proof. done. Qed.
Lemma fopen_refused d p m : fopen false p m d = Ok (None, d, []).
Proof. done. Qed.
Lemma file_at_insert p c d : file_at p (set_files (<[p := c]> (files d)) d) = c.
Proof. unfold file_at. cbn. by rewrite lookup_insert_eq. Qed.
Lemma set_files_twice f g d : set_files f (set_files g d) = set_files f d.
Proof. done. Qed.
Lemma file_at_some p c d : files d !! p = Some c -> file_at p d = c.
Proof. unfold file_at. by intros ->. Qed.
