(* ===== verification/AlibFileSpec.v ===== *)
(** What the functions on files and directories do: the removal of data from a
    file, the size of a file, the numbered files of a directory, listing a
    directory, making directories, and the names in paths. *)
From stdpp Require Import gmap.
From S2P Require Import Prelude Memory Effects Heap AlibString CString StringObject StringObjectSpec Stdio StdioSpec AlibFile.
Open Scope Z_scope.

(** * The size of a file *)
Lemma file_size_with h p m pos d : 0 <= pos <= LONG_MAX -> blen (file_at p d) <= LONG_MAX ->
  file_size (Some h) (with_stream h p m pos d) = Ok (blen (file_at p d), with_stream h p m pos d, []).
Proof.
  intros Hp Hl. pose proof (blen_nonneg (file_at p d)). unfold LONG_MAX in *. unfold file_size.
  rewrite (bind_quiet _ _ _ _ _ (ftell_with h p m pos d)).
  erewrite bind_quiet; [|apply (fseek_with h p m pos d 0 SEEK_END (blen (file_at p d))); [by cbn|unfold LONG_MAX; lia]].
  rewrite (bind_quiet _ _ _ _ _ (ftell_with h p m _ d)).
  rewrite (u64_small pos) by lia.
  rewrite (bind_quiet _ _ _ _ _ (fseek_set_with h p m _ d pos ltac:(unfold LONG_MAX; lia))).
  rewrite u64_small by lia. done.
Qed.

(** * Removing data *)

(** The abstract operation: the bytes without the [n] bytes from [from]. *)
Definition remove_range (c : list Z) (from n : Z) : list Z :=
  slice c 0 from ++ slice c (from + n) (blen c - (from + n)).
(** Where the removed range begins. *)
Definition range_start (size pos bytes : Z) (o : file_remove_option) : Z :=
  match o with
  | FRO_BEGIN => 0
  | FRO_CUR_BEFORE => pos - removal size pos bytes o
  | FRO_CUR_AFTER => pos
  | _ => size - removal size pos bytes o
  end.
Definition is_option (o : file_remove_option) : bool := match o with FRO_other _ => false | _ => true end.
Definition valid_range (size pos bytes : Z) (o : file_remove_option) : Prop :=
  let n := removal size pos bytes o in let from := range_start size pos bytes o in
  is_option o = true /\ 0 <= n /\ 0 <= from /\ from + n <= size.

Lemma blen_fmap_some (x : list Z) : blen (Some <$> x) = blen x.
Proof. unfold blen. by rewrite length_fmap. Qed.
Lemma blen_none n : 0 <= n -> blen (replicate (Z.to_nat n) (None : cell)) = n.
Proof. intros H. unfold blen. rewrite length_replicate. lia. Qed.
(** Filling the rest of a buffer. *)
Lemma fill_rest (x z y : list cell) : blen z = blen y -> blk_write (x ++ y) (blen x) z = Ok (x ++ z).
Proof.
  intros H. pose proof (blen_nonneg x). pose proof (blen_nonneg z).
  rewrite blk_write_ok by (rewrite ?blen_app; lia). unfold splice. rewrite take_blen_app. f_equal. f_equal.
  rewrite drop_ge, app_nil_r; [done|]. rewrite length_app. unfold blen in *. lia.
Qed.
Lemma fill_front (x : list Z) n : blen x <= n ->
  blk_write (replicate (Z.to_nat n) (None : cell)) 0 (Some <$> x)
  = Ok ((Some <$> x) ++ replicate (Z.to_nat (n - blen x)) None).
Proof.
  intros H. pose proof (blen_nonneg x).
  replace (Z.to_nat n) with (length x + Z.to_nat (n - blen x))%nat by (unfold blen in *; lia).
  rewrite replicate_add, blk_write_ok; [|lia|].
  - f_equal. apply splice_prefix. unfold blen. by rewrite length_fmap, length_replicate.
  - rewrite blen_app, blen_fmap_some. unfold blen. rewrite length_replicate. lia.
Qed.
Lemma buffer_bytes_some (x : list Z) : buffer_bytes (Some <$> x) = Ok x.
Proof.
  unfold buffer_bytes. replace (mapM id (Some <$> x)) with (Some x); [done|]. symmetry.
  induction x as [|a x IH]; [done|]. cbn. by rewrite IH.
Qed.

Section removal.
Context (h : Z) (p : path) (d : disk) (pos0 : Z).
Notation c := (file_at p d).

Lemma fread_all_with pos n buff off buff' :
  0 <= pos -> 0 <= n -> pos + n <= blen c -> blk_write buff off (Some <$> slice c pos n) = Ok buff' ->
  fread_all h off n buff (with_stream h p ForReading pos d) = Ok ((ALIB_OK, buff'), with_stream h p ForReading (pos + n) d, []).
Proof.
  intros Hp Hn Hl Hw. unfold fread_all.
  rewrite (bind_quiet _ _ _ _ _ (fread_with h p ForReading pos d n buff off buff' ltac:(done) Hp Hn Hl Hw)).
  by rewrite Z.eqb_refl.
Qed.
(** Both sides of the range. *)
Lemma fread_around_with from n :
  0 <= from -> 0 <= n -> from + n <= blen c -> blen c <= LONG_MAX ->
  exists pos', fread_around h from n (blen c - n) (replicate (Z.to_nat (blen c - n)) None) (with_stream h p ForReading pos0 d)
    = Ok ((ALIB_OK, Some <$> remove_range c from n), with_stream h p ForReading pos' d, []).
Proof.
  intros Hf Hn Hl Hc. unfold fread_around, LONG_MAX in *.
  rewrite (bind_quiet _ _ _ _ _ (fseek_set_with h p ForReading pos0 d 0 ltac:(unfold LONG_MAX; lia))).
  pose proof (blen_slice c 0 from ltac:(lia) Hf ltac:(lia)) as Hb.
  pose proof (fread_all_with 0 from _ 0 _ ltac:(lia) Hf ltac:(lia)
    (fill_front (slice c 0 from) (blen c - n) ltac:(lia))) as E.
  rewrite (bind_quiet _ _ _ _ _ E). clear E.
  change (negb (ALIB_OK =? ALIB_OK)) with false. cbn iota. rewrite Hb, Z.add_0_l.
  erewrite bind_quiet; [|apply (fseek_with h p ForReading from d n SEEK_CUR (from + n)); [rewrite s64_small; lia|unfold LONG_MAX; lia]].
  rewrite u64_small by lia. eexists.
  apply (fread_all_with (from + n) (blen c - n - from)); [lia..|].
  pose proof (fill_rest (Some <$> slice c 0 from) (Some <$> slice c (from + n) (blen c - n - from))
    (replicate (Z.to_nat (blen c - n - from)) None)) as E. rewrite !blen_fmap_some, Hb, blen_slice, blen_none in E by lia.
  rewrite E by done. unfold remove_range. rewrite fmap_app. by replace (blen c - (from + n)) with (blen c - n - from) by lia.
Qed.
(** One side. *)
Lemma fread_side from n :
  0 <= from -> 0 <= n -> from + n <= blen c ->
  fread_all h 0 n (replicate (Z.to_nat n) None) (with_stream h p ForReading from d)
  = Ok ((ALIB_OK, Some <$> slice c from n), with_stream h p ForReading (from + n) d, []).
Proof.
  intros Hf Hn Hl. apply fread_all_with; [lia..|]. rewrite fill_front by (rewrite blen_slice; lia).
  rewrite blen_slice, Z.sub_diag by lia. by rewrite app_nil_r.
Qed.

Lemma copy_kept_with pos bytes o : 0 <= pos < 2 ^ 64 ->
  valid_range (blen c) pos bytes o -> blen c <= LONG_MAX ->
  let n := removal (blen c) pos bytes o in
  exists pos', copy_kept h pos n (blen c - n) o (replicate (Z.to_nat (blen c - n)) None) (with_stream h p ForReading pos0 d)
    = Ok ((ALIB_OK, Some <$> remove_range c (range_start (blen c) pos bytes o) n), with_stream h p ForReading pos' d, []).
Proof.
  intros Hp (Ho & Hn & Hf & Hl) Hc n. fold n in Hn, Hl. assert (blen c <= 2 ^ 63 - 1) as Hc' by done.
  destruct o; [..|done]; cbn [copy_kept range_start] in *.
  - rewrite (bind_quiet _ _ _ _ _ (fseek_set_with h p ForReading pos0 d n ltac:(unfold LONG_MAX; lia))).
    assert (remove_range c 0 n = slice c n (blen c - n)) as ->.
    { unfold remove_range. by rewrite slice_zero, Z.add_0_l. }
    eexists. apply fread_side; lia.
  - fold n. rewrite u64_small by (unfold n in *; lia). apply fread_around_with; unfold n in *; lia.
  - apply fread_around_with; lia.
  - rewrite (bind_quiet _ _ _ _ _ (fseek_set_with h p ForReading pos0 d 0 ltac:(unfold LONG_MAX; lia))).
    fold n. assert (remove_range c (blen c - n) n = slice c 0 (blen c - n)) as ->.
    { unfold remove_range. replace (blen c - (blen c - n + n)) with 0 by lia. by rewrite slice_zero, app_nil_r. }
    eexists. apply fread_side; lia.
Qed.
End removal.

(** Opening the file and taking its size, the beginning of every call. *)
Lemma remove_data_opens mem_ok reopen_ok room p pos bytes o d c :
  files d !! p = Some c -> blen c <= LONG_MAX ->
  let d1 := with_stream (new_handle d) p ForReading 0 d in
  file_remove_data_at true mem_ok reopen_ok room (Some p) pos bytes o d =
    (let n := removal (blen c) pos bytes o in
     if blen c =? 0 then Ok (ALIB_OK, d1, []) else
     if blen c <? n then Ok (ALIB_BAD_ARG, d1, []) else
     if negb mem_ok then Ok (ALIB_MEM_ERR, d1, []) else
     ('(err, buff) ← copy_kept (new_handle d) pos n (u64 (blen c - n)) o (replicate (Z.to_nat (u64 (blen c - n))) None);
      if negb (err =? ALIB_OK) then fclose (new_handle d);; mret err else
      fclose (new_handle d);;
      file ← fopen reopen_ok p ForUpdate;
      match file with
      | None => mret ALIB_FILE_OPEN_ERR
      | Some h => data ← lift (buffer_bytes buff); k ← fwrite room h data;
                  fclose h;; mret (if k =? u64 (blen c - n) then ALIB_OK else ALIB_FILE_ERR)
      end) d1).
Proof.
  intros Hc Hl d1. unfold file_remove_data_at. rewrite (bind_quiet _ _ _ _ _ (fopen_reading d p c Hc)).
  pose proof (file_size_with (new_handle d) p ForReading 0 d ltac:(unfold LONG_MAX; lia)) as E.
  rewrite (file_at_some p c d Hc) in E. rewrite (bind_quiet _ _ _ _ _ (E Hl)). cbv zeta.
  by repeat match goal with |- context [if ?b then _ else _] => destruct b end.
Qed.


(** An empty file, a range larger than the file, and a failed allocation end the call at once: the stream
    it opened stays open on the disk it leaves. *)
Theorem remove_data_leaks (p : path) (c : list Z) (pos bytes room : Z) (o : file_remove_option)
    (mem_ok reopen_ok : bool) (d : disk) :
  files d !! p = Some c -> blen c <= LONG_MAX ->
  blen c = 0 \/ blen c < removal (blen c) pos bytes o \/ mem_ok = false ->
  exists r h, file_remove_data_at true mem_ok reopen_ok room (Some p) pos bytes o d = Ok (r, with_stream h p ForReading 0 d, [])
    /\ streams d !! h = None /\ (blen c = 0 -> r = ALIB_OK)
    /\ (0 < blen c < removal (blen c) pos bytes o -> r = ALIB_BAD_ARG).
Proof.
  intros Hc Hl Hcase. rewrite (remove_data_opens mem_ok reopen_ok room p pos bytes o d c Hc Hl). cbv zeta.
  pose proof (blen_nonneg c). pose proof (new_handle_free d) as Hh.
  destruct (Z.eqb_spec (blen c) 0); [by exists ALIB_OK, (new_handle d); repeat split; auto; lia|].
  destruct (Z.ltb_spec (blen c) (removal (blen c) pos bytes o));
    [by exists ALIB_BAD_ARG, (new_handle d); repeat split; auto; lia|].
  destruct Hcase as [?|[?| ->]]; [lia..|]. exists ALIB_MEM_ERR, (new_handle d). repeat split; auto; lia.
Qed.
Lemma remove_data_leaks_witness :
  let d := mkDisk {[ [102] := [] ]} ∅ in
  exists r h, file_remove_data_at true true true 9 (Some [102]) 0 1 FRO_BEGIN d = Ok (r, with_stream h [102] ForReading 0 d, [])
    /\ streams d !! h = None /\ (blen (@nil Z) = 0 -> r = ALIB_OK)
    /\ (0 < blen (@nil Z) < removal (blen (@nil Z)) 0 1 FRO_BEGIN -> r = ALIB_BAD_ARG).
Proof. intros d. apply (remove_data_leaks [102] []); [done|done|by left]. Defined.

Lemma fread_all_overflows h p d n buff :
  0 <= n -> 0 < Z.min n (blen (file_at p d)) -> blen buff < Z.min n (blen (file_at p d)) ->
  fread_all h 0 n buff (with_stream h p ForReading 0 d) = UB OutOfBounds.
Proof.
  intros Hn H0 Hb. unfold fread_all. apply bind_UB. apply fread_overflows; [done|lia..].
Qed.

(** The buffer has the size of what is kept, but the first read is not held to it: when the range begins before
    the file or ends behind it, the bytes in front of it are more than the buffer takes, and the read
    writes past the buffer's end. *)
Theorem remove_data_overflows (p : path) (c : list Z) (pos bytes room : Z) (o : file_remove_option)
    (reopen_ok : bool) (d : disk) :
  files d !! p = Some c -> blen c <= LONG_MAX -> 0 <= pos < 2 ^ 64 -> 0 < bytes <= blen c ->
  o = FRO_CUR_BEFORE /\ (pos < bytes \/ blen c < pos) \/ o = FRO_CUR_AFTER /\ blen c < pos + bytes ->
  file_remove_data_at true true reopen_ok room (Some p) pos bytes o d = UB OutOfBounds.
Proof.
  intros Hc Hl Hp Hb Ho. rewrite (remove_data_opens true reopen_ok room p pos bytes o d c Hc Hl). cbv zeta.
  assert (removal (blen c) pos bytes o = bytes) as ->.
  { unfold removal. by rewrite (proj2 (Z.eqb_neq bytes 0)) by lia. }
  unfold LONG_MAX in Hl. rewrite (proj2 (Z.eqb_neq _ _)), (proj2 (Z.ltb_ge _ _)) by lia. cbn [negb].
  rewrite (u64_small (blen c - bytes)) by lia. apply bind_UB.
  assert (forall n, 0 <= n -> blen c - bytes < Z.min n (blen c) ->
    fread_around (new_handle d) n bytes (blen c - bytes) (replicate (Z.to_nat (blen c - bytes)) None)
      (with_stream (new_handle d) p ForReading 0 d) = UB OutOfBounds) as Hall.
  { intros n Hn0 Hn. unfold fread_around.
    rewrite (bind_quiet _ _ _ _ _ (fseek_set_with _ p ForReading 0 d 0 ltac:(unfold LONG_MAX; lia))).
    apply bind_UB. apply fread_all_overflows; [done|rewrite (file_at_some p c d Hc); lia|].
    rewrite (file_at_some p c d Hc), blen_none; lia. }
  destruct Ho as [[-> Ho]|[-> Ho]]; cbn [copy_kept]; apply Hall; try lia; [apply u64_range|].
  destruct Ho as [Ho|Ho]; [|rewrite u64_small; lia].
  assert (u64 (pos - bytes) = pos - bytes + 2 ^ 64) as ->; [|lia].
  unfold u64. rewrite <- (Z.mod_add _ 1) by lia. rewrite Z.mod_small; lia.
Qed.
Lemma remove_data_overflows_witness :
  file_remove_data_at true true true 9 (Some [102]) 1 2 FRO_CUR_BEFORE (mkDisk {[ [102] := [1; 2; 3] ]} ∅) = UB OutOfBounds.
Proof. apply (remove_data_overflows [102] [1; 2; 3]); [done..|]. by left; split; [|left]. Defined.

(** * Numbered files *)
Definition starts_with_digit (s : list Z) : bool := match s with c :: _ => is_digit c | [] => false end.
Lemma is_digit_spec c : 48 <= c < 58 -> is_digit c = true /\ is_space c = false.
Proof.
  intros H. unfold is_digit, is_space. split; [rewrite !(proj2 (Z.leb_le _ _)) by lia; done|].
  rewrite (proj2 (Z.eqb_neq _ _)), (proj2 (Z.leb_gt c 13)) by lia. by rewrite andb_false_r.
Qed.
Lemma leading_digits_app ds rest :
  Forall (fun c => 48 <= c < 58) ds -> starts_with_digit rest = false -> leading_digits (ds ++ rest) = ds.
Proof.
  intros Hds Hr. induction Hds as [|c ds Hc _ IH]; cbn [app leading_digits].
  - destruct rest as [|c r]; cbn in *; [done|by rewrite Hr].
  - by rewrite (proj1 (is_digit_spec c Hc)), IH.
Qed.
Lemma digits_cons fuel n : exists c ds, digits (S fuel) n = c :: ds.
Proof.
  cbn [digits]. destruct (n <? 10); [by eexists _, _|].
  destruct (digits fuel (n / 10)) as [|c ds]; by eexists _, _.
Qed.
(** The number at the beginning of a name is read back. *)
Lemma strtoll_print n rest : LONG_MIN <= n <= LONG_MAX -> starts_with_digit rest = false ->
  strtoll (print_dec n ++ rest) = n.
Proof.
  unfold LONG_MIN, LONG_MAX. intros Hn Hr.
  assert (forall m, 0 <= m <= 2 ^ 63 -> exists c ds, digits 20 m = c :: ds /\ 48 <= c < 58 /\
    leading_digits (digits 20 m ++ rest) = digits 20 m /\ dec_digits 0 (digits 20 m) = m) as Hd.
  { intros m Hm. destruct (digits_spec 20 m) as (Hv & Hd & _); [change (10 ^ Z.of_nat 20) with 100000000000000000000; lia|].
    destruct (digits_cons 19 m) as (c & ds & E). exists c, ds. split; [done|].
    split; [by rewrite E in Hd; inversion Hd|]. split; [by apply leading_digits_app|done]. }
  unfold strtoll, print_dec. destruct (Z.ltb_spec n 0) as [Hneg|Hpos].
  - destruct (Hd (- n)) as (c & ds & E & Hc & Hl & Hv); [lia|]. cbn [app skip_space].
    change (is_space 45) with false. cbn iota. change (45 =? 45) with true. cbn iota.
    rewrite Hl, Hv. unfold clamp, LONG_MIN, LONG_MAX. lia.
  - destruct (Hd n) as (c & ds & E & Hc & Hl & Hv); [lia|]. rewrite E in Hl, Hv |- *. cbn [app skip_space] in *.
    rewrite (proj2 (is_digit_spec c Hc)), (proj2 (Z.eqb_neq c 45)), (proj2 (Z.eqb_neq c 43)) by lia.
    rewrite Hl, Hv. unfold clamp, LONG_MIN, LONG_MAX. lia.
Qed.

(** The names of numbered files are sorted by their numbers, whatever follows the number. *)
Lemma sort_by_number_orders n m r1 r2 :
  LONG_MIN <= n <= LONG_MAX -> LONG_MIN <= m <= LONG_MAX ->
  starts_with_digit r1 = false -> starts_with_digit r2 = false ->
  cb_file_sort_by_number (print_dec n ++ r1) (print_dec m ++ r2) = match n ?= m with Lt => -1 | Eq => 0 | Gt => 1 end.
Proof.
  intros. unfold cb_file_sort_by_number, atoll. rewrite !strtoll_print by done.
  destruct (Z.compare_spec n m); case_cmp; try case_cmp; done || lia.
Qed.

(** The number of a listed file. *)
Definition file_number (e : dirent) : Z := u64 (strtoll (d_name e)).
Lemma highest_step_max a e : highest_step a e = if is_numbered e then Z.max a (file_number e) else a.
Proof. unfold highest_step, file_number. destruct (is_numbered e); [|done]. cbv zeta. case_cmp; lia. Qed.
Lemma highest_fold l : forall a, 0 <= a ->
  let h := foldl highest_step a l in
  a <= h /\ (forall e, e ∈ l -> is_numbered e = true -> file_number e <= h) /\
  (h = a \/ exists e, e ∈ l /\ is_numbered e = true /\ h = file_number e).
Proof.
  induction l as [|e l IH]; intros a Ha; cbn [foldl]; [split; [done|split; [by intros ? ?%elem_of_nil|by left]]|].
  destruct (IH (highest_step a e)) as (H1 & H2 & H3); rewrite highest_step_max in *;
    [destruct (is_numbered e); [|done]; lia|].
  set (h := foldl _ _ _) in *. split; [destruct (is_numbered e); lia|]. split.
  - intros e' [->|He']%elem_of_cons Hn; [rewrite Hn in *; lia|by apply H2].
  - destruct H3 as [H3|(e' & He' & ? & ?)]; [|right; exists e'; split; [by apply elem_of_cons; right|done]].
    destruct (is_numbered e) eqn:He; [|by left]. destruct (Z.max_spec a (file_number e)) as [[_ E]|[_ E]]; rewrite E in H3;
      [right; exists e; split; [by apply elem_of_cons; left|done]|by left].
Qed.
Lemma highest_insert l1 e l2 : is_numbered e = true -> highest_value_file (Some (l1 ++ l2)) <= file_number e ->
  highest_value_file (Some (l1 ++ e :: l2)) = file_number e.
Proof.
  intros He Hle. unfold highest_value_file in *.
  destruct (highest_fold (l1 ++ e :: l2) 0 ltac:(done)) as (_ & H2 & H3).
  destruct (highest_fold (l1 ++ l2) 0 ltac:(done)) as (_ & H2' & _).
  assert (file_number e <= foldl highest_step 0 (l1 ++ e :: l2)) as Hge by (apply H2; [set_solver|done]).
  pose proof (u64_range (strtoll (d_name e))). fold (file_number e) in H.
  destruct H3 as [H3|(e' & He' & Hn & H3)]; [lia|]. rewrite H3 in *.
  apply elem_of_app in He' as [He'|[->|He']%elem_of_cons]; [|done|];
    (assert (file_number e' <= foldl highest_step 0 (l1 ++ l2)) by (apply H2'; [set_solver|done]); lia).
Qed.

(** The highest number is the largest number of a listed, visible, regular file, or 0; the next number
    belongs to no listed file, and once a file of this number is listed, wherever the listing puts it and
    whatever ending its name has, it is the highest. *)
Theorem highest_value_file_spec (l : list dirent) :
  let h := highest_value_file (Some l) in
  (forall e, e ∈ l -> is_numbered e = true -> file_number e <= h) /\
  (h = 0 \/ exists e, e ∈ l /\ is_numbered e = true /\ h = file_number e) /\
  (h < LONG_MAX -> forall ext, starts_with_digit ext = false ->
    let e := mkDirent DT_REG (print_dec (h + 1) ++ ext) in
    e ∉ l /\ forall l1 l2, l = l1 ++ l2 -> highest_value_file (Some (l1 ++ e :: l2)) = h + 1).
Proof.
  intros h. destruct (highest_fold l 0 ltac:(done)) as (H1 & H2 & H3). fold (highest_value_file (Some l)) in H1, H2, H3.
  fold h in H1, H2, H3. split; [done|]. split; [done|]. intros Hh ext Hext e. unfold LONG_MAX in Hh.
  assert (file_number e = h + 1) as Hv.
  { unfold file_number, e. cbn [d_name]. rewrite strtoll_print by (unfold LONG_MIN, LONG_MAX; done || lia).
    rewrite u64_small; lia. }
  assert (is_numbered e = true) as He.
  { unfold is_numbered, is_hidden, e. cbn [d_type d_name]. unfold print_dec. rewrite (proj2 (Z.ltb_ge _ _)) by lia.
    destruct (digits_cons 19 (h + 1)) as (c & ds & E). destruct (digits_spec 20 (h + 1)) as (_ & Hd & _).
    { change (10 ^ Z.of_nat 20) with 100000000000000000000. lia. }
    rewrite E in Hd |- *. inversion_clear Hd as [|? ? Hc _]. cbn [app].
    rewrite (proj2 (Z.eqb_neq c 46)) by lia. done. }
  split; [intros Hin; specialize (H2 e Hin He); lia|].
  intros l1 l2 ->. rewrite highest_insert; [done|done|]. fold h. lia.
Qed.

Lemma lowest_fold l : forall a, 0 <= a -> (forall e, e ∈ l -> is_numbered e = true -> 0 < file_number e) ->
  let h := foldl lowest_step a l in
  (0 < a -> 0 < h <= a) /\ (forall e, e ∈ l -> is_numbered e = true -> 0 < h <= file_number e) /\
  (h = a \/ exists e, e ∈ l /\ is_numbered e = true /\ h = file_number e).
Proof.
  induction l as [|e l IH]; intros a Ha Hpos; cbn [foldl]; [split; [lia|split; [by intros ? ?%elem_of_nil|by left]]|].
  assert (lowest_step a e = (if is_numbered e then if a =? 0 then file_number e else Z.min a (file_number e) else a)) as ->.
  { unfold lowest_step. fold (file_number e). destruct (is_numbered e); [|done]. cbv zeta.
    destruct (Z.eqb_spec a 0); [by rewrite orb_true_r|]. rewrite orb_false_r. case_cmp; lia. }
  assert (is_numbered e = true -> 0 < file_number e) as Hpe by (intros; apply Hpos; [set_solver|done]).
  set (b := if is_numbered e then _ else a). assert (0 <= b) as Hb.
  { unfold b. destruct (is_numbered e); [|done]. specialize (Hpe eq_refl). case_cmp; lia. }
  destruct (IH b Hb) as (H1 & H2 & H3); [intros; apply Hpos; [set_solver|done]|].
  set (h := foldl _ _ _) in *. unfold b in *. destruct (is_numbered e) eqn:He.
  - specialize (Hpe eq_refl). split; [intros; destruct (Z.eqb_spec a 0); lia|]. split.
    + intros e' [->|He']%elem_of_cons Hn; [destruct (Z.eqb_spec a 0); lia|by apply H2].
    + destruct H3 as [H3|(e' & ? & ? & ?)]; [|right; exists e'; set_solver].
      destruct (Z.eqb_spec a 0); [right; exists e; set_solver|].
      destruct (Z.min_spec a (file_number e)) as [[_ E]|[_ E]]; rewrite E in H3; [by left|right; exists e; set_solver].
  - split; [done|]. split.
    + intros e' [->|He']%elem_of_cons Hn; [by rewrite Hn in He|by apply H2].
    + destruct H3 as [H3|(e' & ? & ? & ?)]; [by left|right; exists e'; set_solver].
Qed.
(** Where no file has the number 0 the lowest number is the least of the numbers. *)
Lemma lowest_value_file_spec l :
  (forall e, e ∈ l -> is_numbered e = true -> 0 < file_number e) ->
  let h := lowest_value_file (Some l) in
  (forall e, e ∈ l -> is_numbered e = true -> 0 < h <= file_number e) /\
  (h = 0 \/ exists e, e ∈ l /\ is_numbered e = true /\ h = file_number e).
Proof. intros Hpos. by destruct (lowest_fold l 0 ltac:(done) Hpos) as (_ & ? & ?). Qed.
(** A file with the number 0 is forgotten as soon as another one is listed after it. *)
Lemma lowest_value_file_zero e0 e1 : is_numbered e0 = true -> is_numbered e1 = true -> file_number e0 = 0 ->
  lowest_value_file (Some [e0; e1]) = file_number e1.
Proof.
  intros H0 H1 Hz. cbn. unfold lowest_step at 2. rewrite H0. fold (file_number e0). rewrite Hz. cbn.
  unfold lowest_step. rewrite H1. by rewrite orb_true_r.
Qed.

(** * Listing *)
Definition is_counted (dirs hidden : bool) (e : dirent) : bool :=
  if d_type e =? DT_REG then hidden || negb (is_hidden e) else (d_type e =? DT_DIR) && dirs.
Definition is_named (dirs hidden : bool) (e : dirent) : bool :=
  ((d_type e =? DT_REG) || (dirs && (d_type e =? DT_DIR))) && (hidden || negb (is_hidden e)).
Definition count_of (p : dirent -> bool) (l : list dirent) : Z := blen (List.filter p l).
Definition names_of dirs hidden l : list (list Z) := d_name <$> List.filter (is_named dirs hidden) l.

Lemma count_of_cons p e l : count_of p (e :: l) = (if p e then 1 else 0) + count_of p l.
Proof. unfold count_of. cbn. destruct (p e); [by rewrite blen_cons|lia]. Qed.
Lemma count_of_nil p : count_of p [] = 0.
Proof. done. Qed.
Lemma count_of_nonneg p l : 0 <= count_of p l.
Proof. apply blen_nonneg. Qed.
Lemma blen_names dirs hidden l : blen (names_of dirs hidden l) = count_of (is_named dirs hidden) l.
Proof. unfold names_of, count_of, blen. by rewrite length_fmap. Qed.
Lemma int_incr_ok n : n < INT32_MAX -> int_incr n = Ok (n + 1).
Proof. intros H. unfold int_incr. by rewrite (proj2 (Z.ltb_lt _ _)). Qed.

Lemma count_loop_ok dirs hidden l : forall n, 0 <= n -> n + count_of (is_counted dirs hidden) l <= INT32_MAX ->
  count_loop dirs hidden l n = Ok (n + count_of (is_counted dirs hidden) l).
Proof.
  induction l as [|e l IH]; intros n Hn Hb; [by cbn [count_loop]; rewrite count_of_nil, Z.add_0_r|].
  rewrite count_of_cons in *. pose proof (count_of_nonneg (is_counted dirs hidden) l). cbn [count_loop].
  unfold is_counted at 1 in Hb. unfold is_counted at 1.
  destruct (d_type e =? DT_REG).
  - destruct hidden, (is_hidden e); cbn [negb andb orb] in *; rewrite ?int_incr_ok by lia; rstep; rewrite IH by lia; f_equal; lia.
  - destruct ((d_type e =? DT_DIR) && dirs); rewrite ?int_incr_ok by lia; rstep; rewrite IH by lia; f_equal; lia.
Qed.

(** The loop over the second listing, on an array whose first slots are filled. *)
Lemma names_loop_ok granted (Hg : forall k, granted k = true) dirs hidden l : forall counter done_ free,
  0 < counter -> counter + blen (names_of dirs hidden l) <= INT32_MAX -> blen (names_of dirs hidden l) <= Z.of_nat free ->
  names_loop granted dirs hidden l counter (blen done_) (done_ ++ replicate free None)
  = Ok (true, done_ ++ (Some <$> names_of dirs hidden l) ++ replicate (free - length (names_of dirs hidden l)) None).
Proof.
  induction l as [|e l IH]; intros counter dn free Hc Hb Hf; cbn [names_loop].
  - rewrite (proj2 (Z.gtb_lt _ _)) by lia. cbn. by rewrite Nat.sub_0_r.
  - rewrite (proj2 (Z.gtb_lt _ _)) by lia. cbn [negb]. rewrite blen_names in *. rewrite count_of_cons in *.
    unfold names_of in *. cbn [List.filter]. destruct (is_named dirs hidden e) eqn:E; unfold is_named in E.
    + apply andb_true_iff in E as [-> E].
      assert (is_hidden e && negb hidden = false) as -> by (destruct hidden, (is_hidden e); done).
      pose proof (count_of_nonneg (is_named dirs hidden) l).
      destruct free as [|free]; [lia|]. rewrite Hg. cbn [negb replicate]. rewrite blk_store_middle. rstep. rewrite int_incr_ok by lia. rstep.
      rewrite <- (blen_snoc dn (Some (d_name e))). 
      replace (dn ++ Some (d_name e) :: replicate free None) with ((dn ++ [Some (d_name e)]) ++ replicate free None)
        by (by rewrite <- app_assoc).
      cbn [length]. rewrite IH by (rewrite ?blen_names; lia).
      cbn [fmap list_fmap length app]. by rewrite <- app_assoc.
    + apply andb_false_iff in E as [E|E].
      * rewrite E. apply IH; rewrite ?blen_names; lia.
      * assert (is_hidden e && negb hidden = true) as -> by (destruct hidden, (is_hidden e); done).
        clear E. destruct (_ || _); apply IH; rewrite ?blen_names; lia.
Qed.
Lemma names_loop_overflows dirs hidden l : forall counter done_ free,
  0 < counter -> counter + Z.of_nat free < INT32_MAX -> Z.of_nat free < blen (names_of dirs hidden l) ->
  names_loop (fun _ => true) dirs hidden l counter (blen done_) (done_ ++ replicate free None) = UB OutOfBounds.
Proof.
  induction l as [|e l IH]; intros counter dn free Hc Hb Hf; [rewrite blen_names in Hf; unfold count_of, blen in Hf; cbn in Hf; lia|].
  cbn [names_loop]. rewrite (proj2 (Z.gtb_lt _ _)) by lia. cbn [negb]. rewrite blen_names, count_of_cons in Hf.
  rewrite <- blen_names in Hf. destruct (is_named dirs hidden e) eqn:E; unfold is_named in E.
  - apply andb_true_iff in E as [-> E].
    assert (is_hidden e && negb hidden = false) as -> by (destruct hidden, (is_hidden e); done).
    destruct free as [|free]; cbn [replicate].
    + unfold blk_store. rewrite app_nil_r, (proj2 (Z.ltb_ge _ _)) by lia. by rewrite andb_false_r.
    + rewrite blk_store_middle. rstep. rewrite int_incr_ok by lia. rstep.
      rewrite <- (blen_snoc dn (Some (d_name e))). 
      replace (dn ++ Some (d_name e) :: replicate free None) with ((dn ++ [Some (d_name e)]) ++ replicate free None)
        by (by rewrite <- app_assoc).
      apply IH; lia.
  - apply andb_false_iff in E as [E|E].
    + rewrite E. apply IH; lia.
    + assert (is_hidden e && negb hidden = true) as -> by (destruct hidden, (is_hidden e); done).
      clear E. destruct (_ || _); apply IH; lia.
Qed.
Lemma count_of_mono (p q : dirent -> bool) l : (forall e, p e = true -> q e = true) -> count_of p l <= count_of q l.
Proof.
  intros Hpq. induction l as [|e l IH]; [done|]. rewrite !count_of_cons.
  destruct (p e) eqn:E; [rewrite (Hpq e E); lia|destruct (q e); lia].
Qed.
Lemma named_counted dirs hidden e : is_named dirs hidden e = true -> is_counted dirs hidden e = true.
Proof. unfold is_named, is_counted. destruct (d_type e =? DT_REG), dirs, (d_type e =? DT_DIR), hidden, (is_hidden e); done. Qed.

Lemma names_le_counted dirs hidden l : blen (names_of dirs hidden l) <= count_of (is_counted dirs hidden) l.
Proof. rewrite blen_names. apply count_of_mono, named_counted. Qed.
Lemma get_all_file_names_ok directory l p granted dirs hidden :
  let n := count_of (is_counted dirs hidden) l in let ns := names_of dirs hidden l in
  2 * n < INT32_MAX -> (forall k, granted k = true) ->
  get_all_file_names (Some directory) (Some l) (Some l) true granted (Some p) dirs hidden
    = Ok (n, Some (if n =? 0 then None else Some ((Some <$> ns) ++ replicate (Z.to_nat (n - blen ns)) None))).
Proof.
  intros n ns Hn Hg. pose proof (count_of_nonneg (is_counted dirs hidden) l) as Hn0. fold n in Hn0.
  pose proof (names_le_counted dirs hidden l) as Hle. fold n ns in Hle.
  unfold get_all_file_names, get_file_count. rewrite count_loop_ok by (fold n; lia). rstep. fold n.
  rewrite Z.add_0_l, (proj2 (Z.ltb_ge n 0)) by lia. rstep.
  destruct (Z.eqb_spec n 0); [done|].
  pose proof (names_loop_ok granted Hg dirs hidden l n [] (Z.to_nat n)) as E. fold ns in E. cbn [app] in E.
  change (blen (@nil (option (list Z)))) with 0 in E. rewrite E by lia. rstep.
  do 5 f_equal. f_equal. unfold blen. lia.
Qed.

(** C29: a directory that does not change while it is listed: the result is the number of entries counted, and the
    array has the names in the order of the listing, NULL behind them.  The two agree when no directories are
    asked for or hidden files are; otherwise hidden directories, "." and ".." among them, are counted and not
    named.  A directory with more names when it is read than were counted overflows the array, since the loop's
    counter counts up. *)
Theorem get_all_file_names_spec (directory : path) (l l2 : list dirent) (p : option (list (option (list Z))))
    (dirs hidden : bool) :
  let n := count_of (is_counted dirs hidden) l in let ns := names_of dirs hidden l in
  2 * n < INT32_MAX ->
  blen ns <= n /\ (dirs = false \/ hidden = true -> blen ns = n) /\
  get_all_file_names (Some directory) (Some l) (Some l) true (fun _ => true) (Some p) dirs hidden
    = Ok (n, Some (if n =? 0 then None else Some ((Some <$> ns) ++ replicate (Z.to_nat (n - blen ns)) None))) /\
  (0 < n < blen (names_of dirs hidden l2) ->
   get_all_file_names (Some directory) (Some l) (Some l2) true (fun _ => true) (Some p) dirs hidden = UB OutOfBounds).
Proof.
  intros n ns Hn. pose proof (names_le_counted dirs hidden l) as Hle. fold n ns in Hle. split; [done|]. split.
  { intros Hcase. unfold ns. rewrite blen_names. apply Z.le_antisymm; apply count_of_mono; [apply named_counted|].
    intros e. unfold is_named, is_counted. destruct Hcase as [-> | ->], (d_type e =? DT_REG), (d_type e =? DT_DIR);
      destruct (is_hidden e); try destruct hidden; try destruct dirs; done. }
  split; [by apply get_all_file_names_ok|].
  intros [H0 H2]. unfold get_all_file_names, get_file_count. rewrite count_loop_ok by (fold n; lia). rstep. fold n.
  rewrite Z.add_0_l, (proj2 (Z.ltb_ge n 0)) by lia. rstep.
  rewrite (proj2 (Z.eqb_neq n 0)) by lia.
  pose proof (names_loop_overflows dirs hidden l2 n [] (Z.to_nat n)) as E. cbn [app] in E.
  change (blen (@nil (option (list Z)))) with 0 in E. by rewrite E by lia.
Qed.
Lemma get_all_file_names_spec_witness :
  let l := [mkDirent DT_DIR [46]; mkDirent DT_REG [97]] in
  get_all_file_names (Some [47]) (Some l) (Some l) true (fun _ => true) (Some None) true false
    = Ok (2, Some (Some [Some [97]; None])).
Proof.
  intros l. refine (eq_trans (proj1 (proj2 (proj2 (get_all_file_names_spec [47] l [] None true false _)))) _); vm_compute; done.
Defined.

(** * Opening files by number *)

(** Every 64-bit number, signed or not, fits behind the directory: the longest one, with its sign, fills the
    array to its last byte. *)
Lemma fopen_numbered granted dir n m : LONG_MIN <= n <= ULONG_MAX -> blen dir + 22 < 2 ^ 64 ->
  (forall d, fopen_i true granted (Some dir) n (Some m) d = fopen granted (dir ++ 47 :: print_dec n) m d) /\
  (forall d, fopen_ui true granted (Some dir) n (Some m) d = fopen granted (dir ++ 47 :: print_dec n) m d).
Proof.
  intros Hn Hl. destruct (print_dec_spec n Hn) as (_ & _ & Hp). pose proof (blen_nonneg dir).
  assert (numbered_path (u64 (blen dir + LLONG_MAX_CHAR_LEN + 2)) dir n = Ok (dir ++ 47 :: print_dec n)) as E.
  { unfold numbered_path, LLONG_MAX_CHAR_LEN. rewrite u64_small by lia.
    rewrite (proj2 (Z.leb_le _ _)); [done|]. rewrite blen_app, blen_cons. lia. }
  by split; intros d; unfold fopen_i, fopen_ui; cbn [negb]; rewrite E; rewrite (bind_lift (Ok _) _) by done.
Qed.

(** * Names in paths *)

(** The search goes back to the last occurrence, or to the byte before the string. *)
Lemma last_char_stop s1 x s2 rest str c : Forall (.≠ c) s2 -> str <= blen s1 + 1 -> x = c \/ str = blen s1 + 1 ->
  last_char_loop (S (S (length (s1 ++ x :: s2 ++ rest)))) (s1 ++ x :: s2 ++ rest) str c (blen (s1 ++ x :: s2) - 1) = Ok (blen s1).
Proof.
  intros Hs Hstr Hx. pose proof (blen_nonneg s1).
  assert (s1 ++ x :: s2 ++ rest = (s1 ++ [x]) ++ s2 ++ rest) as E by (by rewrite <- app_assoc).
  pose proof (last_char_loop_skip (S (S (length (s1 ++ x :: s2 ++ rest)))) c s2 (s1 ++ [x]) rest str Hs) as L.
  rewrite <- E, !blen_snoc in L. replace (blen (s1 ++ x :: s2) - 1) with (blen s1 + 1 + blen s2 - 1)
    by (rewrite blen_app, blen_cons; lia).
  rewrite L; [|lia|rewrite !length_app; cbn; rewrite length_app; lia].
  destruct (S (S _) - length s2)%nat eqn:Ef; [rewrite !length_app in Ef; cbn in Ef; rewrite length_app in Ef; lia|].
  replace (blen s1 + 1 - 1) with (blen s1) by lia. cbn [last_char_loop]. rewrite blk_load_middle. rstep.
  destruct (Z.eqb_spec x c); [done|]. destruct Hx as [?| ->]; [done|].
  by rewrite (proj2 (Z.eqb_eq _ _)) by lia.
Qed.
Lemma find_last_char_stop s1 x s2 rest str c count : Forall (.≠ c) s2 -> str <= blen s1 + 1 -> x = c \/ str = blen s1 + 1 ->
  str + count = blen (s1 ++ x :: s2) - 1 ->
  find_last_char_count (s1 ++ x :: s2 ++ rest) (Some str) c count = Ok (if x =? c then Some (blen s1) else None).
Proof.
  intros Hs Hstr Hx Hc. unfold find_last_char_count. rewrite Hc, last_char_stop by done. rstep. by rewrite blk_load_middle.
Qed.
Lemma not_in_forall (c : Z) s : c ∉ s -> c <> 0 -> Forall (.≠ c) (s ++ [0]).
Proof.
  intros Hs Hc. apply Forall_app. split; [|by constructor].
  apply List.Forall_forall. intros y Hy ->. by apply Hs, list_elem_of_In.
Qed.

(** The name of a file in a path [d/n]: where the last character of [d] is not a backslash the result is what
    follows the last separator of either kind; behind a backslash that is followed by a slash the slash becomes
    part of the name; and a path without a slash is read one byte before its beginning. *)
Theorem file_name_from_path_spec (d n rest : list Z) (y : Z) :
  let path := d ++ y :: 47 :: n in
  no_nul path -> blen path < 2 ^ 64 -> 47 ∉ n ->
  (92 ∉ n -> y <> 92 -> file_name_from_path (Some (path ++ 0 :: rest)) = Ok (Some (blen (d ++ [y; 47])))) /\
  (forall n1 n2, n = n1 ++ 92 :: n2 -> 92 ∉ n2 ->
     file_name_from_path (Some (path ++ 0 :: rest)) = Ok (Some (blen (d ++ y :: 47 :: n1 ++ [92])))) /\
  (92 ∉ n -> y = 92 -> file_name_from_path (Some (path ++ 0 :: rest)) = Ok (Some (blen (d ++ [y])))) /\
  (n <> [] -> file_name_from_path (Some (n ++ 0 :: rest)) = UB OutOfBounds).
Proof.
  intros path Hp Hl Hn. pose proof (blen_nonneg d). pose proof (blen_nonneg n).
  assert (forall b cnt, strlen b 0 = Ok cnt -> cnt <> 0 -> file_name_from_path (Some b) =
    (pathIt ← find_last_char_count b (Some 0) 47 cnt;
      pathIt ← match pathIt with
               | Some it => backslash ← find_last_char_count b (Some it) 92 (u64 (cnt - it));
                            Ok (match backslash with Some q => Some q | None => Some it end)
               | None => find_last_char_count b (Some 0) 92 cnt
               end;
      Ok (Some match pathIt with None => 0 | Some it => it + 1 end))) as Hu.
  { intros b cnt Hc Hz. unfold file_name_from_path. cbn [deref]. rstep. rewrite Hc. rstep. unfold file_name_from_path_count.
    by rewrite (proj2 (Z.eqb_neq cnt 0)) by done. }
  assert (blen path = blen d + 2 + blen n) as Hb by (unfold path; rewrite blen_app, !blen_cons; lia).
  pose proof (strlen_text path rest Hp) as Hlen.
  assert (find_last_char_count (path ++ 0 :: rest) (Some 0) 47 (blen path) = Ok (Some (blen d + 1))) as Hslash.
  { replace (path ++ 0 :: rest) with ((d ++ [y]) ++ 47 :: (n ++ [0]) ++ rest) by (unfold path; rewrite <- !app_assoc; done).
    rewrite find_last_char_stop; [by rewrite Z.eqb_refl, blen_snoc|by apply not_in_forall|rewrite blen_snoc; lia|by left|].
    rewrite Hb. repeat (rewrite blen_app || rewrite blen_cons). change (@blen Z []) with 0. lia. }
  assert (forall q s1 s2, path ++ [0] = s1 ++ q :: s2 -> Forall (.≠ 92) s2 -> blen d <= blen s1 -> q = 92 \/ blen d = blen s1 ->
    find_last_char_count (path ++ 0 :: rest) (Some (blen d + 1)) 92 (u64 (blen path - (blen d + 1)))
    = Ok (if q =? 92 then Some (blen s1) else None)) as Hback.
  { intros q s1 s2 E Hs2 Hle Hq. rewrite u64_small by lia.
    replace (path ++ 0 :: rest) with (s1 ++ q :: s2 ++ rest)
      by (change (0 :: rest) with ([0] ++ rest); by rewrite app_assoc, E, <- app_assoc).
    apply find_last_char_stop; [done|lia|destruct Hq; [by left|right; lia]|].
    rewrite <- E, blen_app, blen_cons, blen_nil. lia. }
  assert (file_name_from_path (Some (path ++ 0 :: rest)) =
    (backslash ← find_last_char_count (path ++ 0 :: rest) (Some (blen d + 1)) 92 (u64 (blen path - (blen d + 1)));
     Ok (Some (match backslash with Some q => q | None => blen d + 1 end + 1)))) as ->.
  { rewrite (Hu _ _ Hlen) by lia. rewrite Hslash. rstep.
    destruct (find_last_char_count _ _ 92 _) as [[?|]| |]; done. }
  split; [|split; [|split]].
  - intros H92 Hy. rewrite (Hback y d (47 :: n ++ [0])); [|unfold path; by rewrite <- app_assoc| |done|by right].
    + rewrite (proj2 (Z.eqb_neq y 92)) by done. rstep. rewrite blen_app, !blen_cons. change (@blen Z []) with 0. do 2 f_equal. lia.
    + constructor; [done|]. by apply not_in_forall.
  - intros n1 n2 -> H92. rewrite (Hback 92 (d ++ y :: 47 :: n1) (n2 ++ [0])).
    + rewrite Z.eqb_refl. rstep. repeat (rewrite blen_app || rewrite blen_cons). change (@blen Z []) with 0. do 2 f_equal. lia.
    + unfold path. rewrite <- !app_assoc. cbn. by rewrite <- !app_assoc.
    + by apply not_in_forall.
    + rewrite blen_app, !blen_cons. pose proof (blen_nonneg n1). lia.
    + by left.
  - intros H92 ->. rewrite (Hback 92 d (47 :: n ++ [0])); [|unfold path; by rewrite <- app_assoc| |done|by left].
    + rewrite Z.eqb_refl. rstep. by rewrite blen_snoc.
    + constructor; [done|]. by apply not_in_forall.
  - intros Hne. assert (no_nul n) as Hnn.
    { unfold path in Hp. apply Forall_app in Hp as [_ Hp]. inversion_clear Hp as [|? ? _ Hp']. by inversion_clear Hp'. }
    rewrite (Hu _ (blen n)); [|by apply strlen_text|unfold blen; destruct n; done].
    enough (find_last_char_count (n ++ 0 :: rest) (Some 0) 47 (blen n) = UB OutOfBounds) as -> by done.
    unfold find_last_char_count.
    pose proof (last_char_loop_skip (S (S (length (n ++ 0 :: rest)))) 47 (n ++ [0]) [] rest 0) as L.
    cbn [app] in L. rewrite <- app_assoc in L. cbn [app] in L. rewrite blen_snoc in L. change (@blen Z []) with 0 in L.
    replace (0 + (blen n + 1) - 1) with (0 + blen n) in L by lia.
    rewrite L; [|by apply not_in_forall|lia|rewrite !length_app; cbn; lia].
    replace (S (S (length (n ++ 0%Z :: rest))) - length (n ++ [0%Z]))%nat with (S (S (length rest))) by (rewrite !length_app; cbn; lia).
    cbn [last_char_loop]. by rewrite blk_load_oob by (left; lia).
Qed.
Lemma file_name_from_path_spec_witness :
  file_name_from_path (Some ([97; 92; 47; 98] ++ 0 :: [])) = Ok (Some 2) /\
  file_name_from_path (Some ([97; 98; 47; 98] ++ 0 :: [])) = Ok (Some 3).
Proof.
  split.
  - apply (file_name_from_path_spec [97] [98] [] 92); [by repeat constructor|done|set_solver|set_solver|done].
  - apply (file_name_from_path_spec [97] [98] [] 98); [by repeat constructor|done|set_solver|set_solver|done].
Defined.
