(* ===== verification/MakeDirSpec.v ===== *)
(** Making directories with their parents, [mkdir_ex] and
    [create_directory_if_not_exists] of [source/alib_file.c]: which calls of
    [mkdir] are made, and what they leave on a file system with the laws of
    [FileSystemLaws]. *)
From stdpp Require Import gmap.
From S2P Require Import Prelude Memory Effects Heap AlibString CString StringObject StringObjectSpec Stdio AlibFile.
Open Scope Z_scope.

(** * The calls *)
Section calls.
Context {W : Type} `{FileSystem W}.

(** What is left of a path once every separator is a slash. *)
Definition slashes (s : list Z) : list Z := (fun c => if is_separator c then 47 else c) <$> s.
(** One [mkdir] of everything before each separator of [s]; [dn]: what is before [s]. *)
Fixpoint parents (dn s : list Z) (mode : Z) (w : W) : W :=
  match s with
  | [] => w
  | c :: s => if is_separator c then parents (dn ++ [47]) s mode (mkdir dn mode w).2
              else parents (dn ++ [c]) s mode w
  end.

Lemma parents_app dn x y mode w :
  parents dn (x ++ y) mode w = parents (dn ++ slashes x) y mode (parents dn x mode w).
Proof.
  revert dn w. induction x as [|c x IH]; intros dn w; cbn; [by rewrite app_nil_r|].
  destruct (is_separator c); rewrite IH; by rewrite <- app_assoc.
Qed.
Lemma parents_plain dn x mode w : forallb (fun c => negb (is_separator c)) x = true -> parents dn x mode w = w.
Proof.
  revert dn. induction x as [|c x IH]; intros dn; cbn; [done|]. intros [Hc Hx]%andb_true_iff.
  apply negb_true_iff in Hc. rewrite Hc. by apply IH.
Qed.
Lemma separator_nonzero c : is_separator c = true -> c <> 0.
Proof. by intros Hc ->. Qed.
Lemma slashes_no_nul s : no_nul s -> no_nul (slashes s).
Proof.
  unfold no_nul, slashes. intros Hs. apply Forall_fmap. eapply Forall_impl; [exact Hs|]. intros c Hc. cbn.
  by destruct (is_separator c).
Qed.

Lemma text_of_ok t rest : no_nul t -> text_of (t ++ 0 :: rest) = Ok t.
Proof. intros Ht. unfold text_of. rewrite strlen_text by done. rstep. by rewrite slice_prefix. Qed.

(** Stripping the separators at the end. *)
Lemma strip_loop_ok s rest : forall seps fuel x,
  forallb is_separator seps = true -> (length seps < fuel)%nat -> is_separator x = false ->
  exists rest', strip_loop fuel (s ++ x :: seps ++ 0 :: rest) (blen (s ++ x :: seps) - 1) = Ok (s ++ x :: 0 :: rest').
Proof.
  intros seps fuel x. revert fuel rest. induction seps as [|c seps IH] using rev_ind; intros fuel rest Hs Hf Hx;
    (destruct fuel as [|fuel]; [lia|]); cbn [strip_loop].
  - rewrite blen_app, blen_cons, blen_nil. replace (blen s + (1 + 0) - 1) with (blen s) by lia.
    rewrite blk_load_middle. rstep. rewrite Hx. by exists rest.
  - rewrite forallb_app in Hs. apply andb_true_iff in Hs as [Hs Hc]. cbn in Hc. rewrite andb_true_r in Hc.
    rewrite length_app in Hf. cbn in Hf.
    replace (blen (s ++ x :: seps ++ [c]) - 1) with (blen (s ++ x :: seps))
      by (rewrite !blen_app, !blen_cons, blen_app, blen_cons, blen_nil; lia).
    replace (s ++ x :: (seps ++ [c]) ++ 0 :: rest) with ((s ++ x :: seps) ++ c :: 0 :: rest)
      by (by rewrite <- !app_assoc).
    rewrite blk_load_middle. rstep. rewrite Hc. rewrite blk_store_middle. rstep.
    replace ((s ++ x :: seps) ++ 0 :: 0 :: rest) with (s ++ x :: seps ++ 0 :: 0 :: rest) by (by rewrite <- app_assoc).
    apply IH; [done|lia|done].
Qed.
Lemma strip_loop_runs_off rest : forall seps fuel,
  forallb is_separator seps = true -> (length seps < fuel)%nat ->
  strip_loop fuel (seps ++ 0 :: rest) (blen seps - 1) = UB OutOfBounds.
Proof.
  intros seps. revert rest. induction seps as [|c seps IH] using rev_ind; intros rest fuel Hs Hf;
    (destruct fuel as [|fuel]; [lia|]); cbn [strip_loop]; [done|].
  rewrite forallb_app in Hs. apply andb_true_iff in Hs as [Hs Hc]. cbn in Hc. rewrite andb_true_r in Hc.
  rewrite length_app in Hf. cbn in Hf. rewrite blen_snoc, Z.add_simpl_r, <- app_assoc. cbn [app].
  rewrite blk_load_middle. rstep. rewrite Hc, blk_store_middle. rstep. apply IH; [done|lia].
Qed.

(** The loop over the string. *)
Lemma mkdir_loop_ok mode : forall s dn w rest fuel,
  no_nul dn -> no_nul s -> (length s < fuel)%nat ->
  mkdir_loop fuel (dn ++ s ++ 0 :: rest) (blen dn) mode w = Ok (dn ++ slashes s ++ 0 :: rest, parents dn s mode w).
Proof.
  induction s as [|c s IH]; intros dn w rest fuel Hd Hs Hf; (destruct fuel as [|fuel]; [cbn in Hf; lia|]); cbn [mkdir_loop app].
  - by rewrite blk_load_middle.
  - inversion_clear Hs as [|? ? Hc Hs']. rewrite blk_load_middle. rstep. rewrite (proj2 (Z.eqb_neq c 0)) by done.
    cbn in Hf. cbn [parents slashes]. rewrite <- (blen_snoc dn c). destruct (is_separator c) eqn:E.
    + rewrite blk_store_middle. rstep. unfold mkdir_at. rewrite text_of_ok by done. rstep.
      destruct (mkdir dn mode w) as [r w'] eqn:Em. rewrite blk_store_middle. rstep.
      rewrite (blen_snoc dn c), <- (blen_snoc dn 47). replace (dn ++ 47 :: s ++ 0 :: rest) with ((dn ++ [47]) ++ s ++ 0 :: rest)
        by (by rewrite <- app_assoc).
      rewrite IH; [|by apply Forall_app; split; [|by repeat constructor]|done|lia]. cbn. rewrite E. by rewrite <- app_assoc.
    + replace (dn ++ c :: s ++ 0 :: rest) with ((dn ++ [c]) ++ s ++ 0 :: rest) by (by rewrite <- app_assoc).
      rewrite IH; [|by apply Forall_app; split; [|by repeat constructor]|done|lia]. cbn. rewrite E. by rewrite <- app_assoc.
Qed.

(** A path without the separators at its end: it begins with [c0], and the rest does not end in a separator. *)
Definition stripped (c0 : Z) (t : list Z) : Prop := default c0 (last t) <> 47 /\ default c0 (last t) <> 92.

Lemma fresh_text : holds_text (mkStringObject (Some [0]) 0 1 64) [].
Proof. split; [by exists []|done|constructor|done|done]. Qed.

(** The directory's path is copied, and the separators at its end are dropped; then every parent is made,
    from the outside in, and at last the directory, whose [mkdir] is the result.  A path of separators only,
    the root directory's among them, and an empty path run off the front of the string. *)
Theorem mkdir_ex_calls (added dir r : list Z) (mode : Z) (w : W) :
  no_nul dir -> blen dir + 1 <= 2 ^ 31 - 1 ->
  (forall c0 t seps, dir = c0 :: t ++ seps -> forallb is_separator seps = true -> stripped c0 t ->
   mkdir_ex true true (Some added) (dir ++ 0 :: r) mode true w =
     let '(rv, w') := mkdir (c0 :: slashes t) mode (parents [c0] t mode w) in Ok (to_char rv, w')) /\
  (forallb is_separator dir = true ->
   mkdir_ex true true (Some added) (dir ++ 0 :: r) mode true w = UB OutOfBounds).
Proof.
  intros Hd Hl. unfold mkdir_ex, newStringObject. cbn [negb andb].
  destruct (object_append_ok added _ [] dir r fresh_text Hd) as (o & -> & Ho); [by rewrite blen_nil|]. rstep.
  apply text_inv in Ho as (rest & c & m & -> & _ & _ & _). cbn [app str deref length_]. rstep. split.
  - intros c0 t seps -> Hs Hst. 
    assert (exists s x, c0 :: t = s ++ [x] /\ is_separator x = false) as (s & x & E & Hx).
    { destruct t as [|y t] using rev_ind; [exists [], c0|exists (c0 :: t), y]; (split; [done|]).
      all: unfold stripped in Hst; rewrite ?last_snoc in Hst; cbn in Hst; unfold is_separator;
        by rewrite !(proj2 (Z.eqb_neq _ _)) by tauto. }
    assert (forall q, c0 :: t ++ q = s ++ x :: q) as Eq by (intros q; rewrite app_comm_cons, E, <- app_assoc; done).
    replace ((c0 :: t ++ seps) ++ 0 :: rest) with (s ++ x :: seps ++ 0 :: rest) by (by rewrite Eq, <- app_assoc).
    rewrite Eq. destruct (strip_loop_ok s rest seps (S (length (s ++ x :: seps ++ 0 :: rest))) x Hs) as (rest' & ->);
      [rewrite !length_app; cbn; rewrite length_app; lia|done|]. rstep.
    rewrite <- Eq. change (c0 :: t ++ 0 :: rest') with ([c0] ++ t ++ 0 :: rest').
    assert (no_nul [c0] /\ no_nul t) as [Hc0 Ht].
    { inversion_clear Hd as [|? ? Hc Ht]. apply Forall_app in Ht as [Ht _]. by split; [repeat constructor|]. }
    change 1 with (blen [c0]). rewrite mkdir_loop_ok; [|done|done|cbn; rewrite length_app; lia]. rstep.
    unfold mkdir_at. rewrite app_assoc, text_of_ok; [|apply Forall_app; split; [done|by apply slashes_no_nul]]. rstep.
    done.
  - intros Hs. rewrite strip_loop_runs_off; [done|done|rewrite length_app; cbn; lia].
Qed.
End calls.

(** * The directories *)

(** A name in a path; "." and ".." are none. *)
Definition is_component (c : list Z) : Prop :=
  c <> [] /\ no_nul c /\ forallb (fun x => negb (is_separator x)) c = true /\ c <> [46] /\ c <> [46; 46].
(** [mkdir] and [stat] as POSIX has them, for one process.  [open_dir p w]: [p] is found, is a directory, and the
    process may look up and make entries in it.  [refused p m w]: [mkdir] fails for a reason that lies neither in
    the parent nor in what is found at [p]: a name that is too long, a dangling link, no space, too many links, a
    read-only file system.  [mkdir] never removes a path or takes a right away; it makes a directory, which is
    empty and has the rights of its mode that the [umask] leaves, or fails with -1 and changes nothing.  What lies
    in a directory of a name is found only if the directory is. *)
Class FileSystemLaws (W : Type) `{FileSystem W} := {
  open_dir : list Z -> W -> Prop;
  refused : list Z -> Z -> W -> Prop;
  umask : W -> Z;
  open_found : forall p w, open_dir p w -> stat p w = true;
  mkdir_umask : forall p m w, umask (mkdir p m w).2 = umask w;
  mkdir_open : forall p m w q, open_dir q w -> open_dir q (mkdir p m w).2;
  mkdir_keeps : forall p m w q, stat q w = true -> stat q (mkdir p m w).2 = true;
  mkdir_made : forall p m w, (mkdir p m w).1 = 0 -> stat p (mkdir p m w).2 = true;
  mkdir_rights : forall p m w, (mkdir p m w).1 = 0 -> Z.land (Z.ldiff m (umask w)) 448 = 448 -> open_dir p (mkdir p m w).2;
  mkdir_empty : forall p m w c, (mkdir p m w).1 = 0 -> is_component c -> stat (p ++ 47 :: c) (mkdir p m w).2 = false;
  mkdir_failed : forall p m w, (mkdir p m w).1 <> 0 -> mkdir p m w = (-1, w);
  mkdir_child : forall p c m w, open_dir p w -> is_component c -> stat (p ++ 47 :: c) w = false ->
    ~ refused (p ++ 47 :: c) m w -> (mkdir (p ++ 47 :: c) m w).1 = 0;
  stat_parent : forall p c w, p <> [] -> stat (p ++ 47 :: c) w = true -> stat p w = true
}.

(** The rest of a path below a directory. *)
Definition rel (cs : list (list Z)) : list Z := concat (cons 47 <$> cs).

Section laws.
Context {W : Type} `{FileSystemLaws W}.
Implicit Types (w : W) (mode : Z).

Lemma rel_cons c cs : rel (c :: cs) = 47 :: c ++ rel cs.
Proof. done. Qed.
Lemma slashes_app x y : slashes (x ++ y) = slashes x ++ slashes y.
Proof. apply fmap_app. Qed.
Lemma slashes_plain c : forallb (fun x => negb (is_separator x)) c = true -> slashes c = c.
Proof.
  induction c as [|x c IH]; [done|]. cbn. intros [Hx Hc]%andb_true_iff. apply negb_true_iff in Hx.
  rewrite Hx. f_equal. by apply IH.
Qed.
Lemma slashes_rel cs : Forall is_component cs -> slashes (rel cs) = rel cs.
Proof.
  induction 1 as [|c cs (_ & _ & Hc & _) _ IH]; [done|]. rewrite rel_cons.
  change (47 :: c ++ rel cs) with ([47] ++ c ++ rel cs). by rewrite !slashes_app, IH, (slashes_plain c).
Qed.
Lemma rel_no_nul cs : Forall is_component cs -> no_nul (rel cs).
Proof.
  induction 1 as [|c cs (_ & Hc & _) _ IH]; [constructor|]. rewrite rel_cons. constructor; [done|]. by apply Forall_app.
Qed.
Lemma parents_rel dn c cs mode w : is_component c ->
  parents dn (rel (c :: cs)) mode w = parents (dn ++ 47 :: c) (rel cs) mode (mkdir dn mode w).2.
Proof.
  intros (_ & _ & Hc & _). rewrite rel_cons. cbn [parents]. change (is_separator 47) with true. cbn iota.
  by rewrite parents_app, (parents_plain _ c), (slashes_plain c), <- app_assoc by done.
Qed.
Lemma parents_keeps mode s : forall dn w q, stat q w = true -> stat q (parents dn s mode w) = true.
Proof.
  induction s as [|c s IH]; intros dn w q Hq; cbn [parents]; [done|].
  destruct (is_separator c); [|by apply IH]. by apply IH, mkdir_keeps.
Qed.
(** Everything that is found on the way is a directory that the process may use. *)
Definition passable (base : list Z) (cs : list (list Z)) (w : W) : Prop :=
  forall k, stat (base ++ rel (take k cs)) w = true -> open_dir (base ++ rel (take k cs)) w.
(** No [mkdir] of the components of [cs] below [base], one after another, is refused. *)
Fixpoint admitted (base : list Z) (cs : list (list Z)) (mode : Z) (w : W) : Prop :=
  match cs with
  | [] => True
  | c :: cs => let w1 := (mkdir base mode w).2 in ~ refused (base ++ 47 :: c) mode w1 /\ admitted (base ++ 47 :: c) cs mode w1
  end.
(** What is below a missing directory is missing. *)
Lemma missing_below p cs w : p <> [] -> stat p w = false -> stat (p ++ rel cs) w = false.
Proof.
  revert p. induction cs as [|c cs IH]; intros p Hne Hp; [by rewrite app_nil_r|]. rewrite rel_cons.
  change (47 :: c ++ rel cs) with ((47 :: c) ++ rel cs). rewrite app_assoc. apply IH; [by destruct p|].
  apply not_true_iff_false. intros Hs%stat_parent; [|done]. by rewrite Hp in Hs.
Qed.
(** Making a directory makes nothing below it. *)
Lemma mkdir_below p c cs mode w : is_component c -> stat (p ++ rel (c :: cs)) w = false ->
  stat (p ++ rel (c :: cs)) (mkdir p mode w).2 = false.
Proof.
  intros Hc Hs. destruct (decide ((mkdir p mode w).1 = 0)) as [E|E]; [|by rewrite (mkdir_failed p mode w E)].
  rewrite rel_cons. change (47 :: c ++ rel cs) with ((47 :: c) ++ rel cs). rewrite app_assoc.
  apply missing_below; [by destruct p|]. by apply mkdir_empty.
Qed.
Lemma passable_tail base c cs w : passable base (c :: cs) w -> passable (base ++ 47 :: c) cs w.
Proof. intros Hp k. specialize (Hp (S k)). cbn [take] in Hp. rewrite rel_cons in Hp. by rewrite <- app_assoc. Qed.
Lemma mkdir_passable base cs mode w : Forall is_component cs -> Z.land (Z.ldiff mode (umask w)) 448 = 448 ->
  passable base cs w -> passable base cs (mkdir base mode w).2.
Proof.
  intros Hcs Hm Hp k. destruct (decide ((mkdir base mode w).1 = 0)) as [E|E]; [|rewrite (mkdir_failed _ _ _ E); apply Hp].
  destruct cs as [|c cs]; [rewrite take_nil, app_nil_r; intros _; by apply mkdir_rights|].
  destruct k as [|k]; [cbn [take]; rewrite app_nil_r; intros _; by apply mkdir_rights|].
  inversion_clear Hcs as [|? ? Hc _]. cbn [take]. rewrite rel_cons.
  change (47 :: c ++ rel (take k cs)) with ((47 :: c) ++ rel (take k cs)). rewrite app_assoc, missing_below; [done|by destruct base|].
  by apply mkdir_empty.
Qed.

(** From a directory that is there, or that the next [mkdir] makes, all of the nested ones are made. *)
Lemma nested mode cs : forall base w, Z.land (Z.ldiff mode (umask w)) 448 = 448 -> passable base cs w -> admitted base cs mode w ->
  stat base (mkdir base mode w).2 = true -> Forall is_component cs ->
  let '(r, w2) := mkdir (base ++ rel cs) mode (parents base (rel cs) mode w) in
  (forall k, stat (base ++ rel (take k cs)) w2 = true) /\
  (stat (base ++ rel cs) w = false -> r = 0).
Proof.
  induction cs as [|c cs IH]; intros base w Hm Hp Ha Hb Hcs.
  - cbn [rel concat fmap list_fmap parents]. rewrite app_nil_r. destruct (mkdir base mode w) as [r w2] eqn:E. cbn in Hb.
    split; [intros k; rewrite take_nil; by rewrite app_nil_r|]. intros Hs.
    destruct (decide (r = 0)) as [?|Hr]; [done|]. pose proof (mkdir_failed base mode w) as Hf. rewrite E in Hf.
    specialize (Hf Hr). injection Hf as -> ->. by rewrite Hs in Hb.
  - pose proof (mkdir_passable _ _ _ _ Hcs Hm Hp) as Hp1. destruct Ha as [Hr Ha].
    inversion_clear Hcs as [|? ? Hc Hcs']. rewrite (parents_rel base c cs mode w Hc).
    set (w1 := (mkdir base mode w).2) in *.
    assert (open_dir base w1) as Ho by (specialize (Hp1 O); cbn [take] in Hp1; rewrite app_nil_r in Hp1; auto).
    assert (stat (base ++ 47 :: c) (mkdir (base ++ 47 :: c) mode w1).2 = true) as Hst.
    { destruct (stat (base ++ 47 :: c) w1) eqn:E; [by apply mkdir_keeps|]. by apply mkdir_made, mkdir_child. }
    specialize (IH (base ++ 47 :: c) w1 ltac:(unfold w1; by rewrite mkdir_umask) (passable_tail _ _ _ _ Hp1) Ha Hst Hcs').
    rewrite <- app_assoc in IH. cbn [app] in IH. rewrite rel_cons. cbn [app].
    destruct (mkdir (base ++ 47 :: c ++ rel cs) mode (parents (base ++ 47 :: c) (rel cs) mode w1)) as [r w2] eqn:E.
    destruct IH as (H1 & H2). split.
    + intros [|k]; cbn [take]; [|specialize (H1 k); rewrite rel_cons; by rewrite <- app_assoc in H1].
      rewrite app_nil_r. change w2 with (r, w2).2. rewrite <- E. by apply mkdir_keeps, parents_keeps.
    + intros Hs. apply H2. by apply (mkdir_below base c cs mode w Hc).
Qed.

(** C28: the directories [c1/c2/...] below a first name, with or without a slash before it, that is found: where everything that is found on the way is a directory
    that the process may use, its umask leaves the owner all rights, and no [mkdir] fails for a reason outside of the path, [mkdir_ex] leaves
    every one of them on the file system, those that existed and those that it makes; it returns 0 when the last one was missing, and
    [create_directory_if_not_exists] returns 1 in either case.  Memory for the path is assumed. *)
Theorem create_directory_makes (added r : list Z) (b0 : Z) (base : list Z) (cs : list (list Z)) (w : W) :
  let dir := b0 :: base ++ rel cs in
  Z.land (Z.ldiff 511 (umask w)) 448 = 448 -> passable (b0 :: base) cs w -> admitted (b0 :: base) cs 511 w -> no_nul (b0 :: base) -> forallb (fun x => negb (is_separator x)) base = true ->
  Forall is_component cs -> cs <> [] -> blen dir + 1 <= 2 ^ 31 - 1 -> stat (b0 :: base) w = true ->
  (exists rv w', mkdir_ex true true (Some added) (dir ++ 0 :: r) 511 true w = Ok (rv, w') /\
     (forall k, stat (b0 :: base ++ rel (take k cs)) w' = true) /\ (stat dir w = false -> rv = 0)) /\
  (exists w', create_directory_if_not_exists true true (Some added) (Some (dir ++ 0 :: r)) w = Ok (1, w') /\
     stat dir w' = true).
Proof.
  intros dir Hm Hpass Hadm Hn Hb Hcs Hne Hl Hst.
  assert (no_nul dir) as Hnd.
  { unfold dir. rewrite app_comm_cons. apply Forall_app. split; [done|by apply rel_no_nul]. }
  assert (stripped b0 (base ++ rel cs)) as Hstrip.
  { destruct cs as [|c cs _] using rev_ind; [done|]. apply Forall_app in Hcs as [_ Hc].
    inversion_clear Hc as [|? ? (Hc1 & _ & Hc2 & _) _]. unfold rel. rewrite fmap_app, concat_app. cbn [fmap list_fmap concat].
    rewrite app_nil_r. destruct c as [|x c _] using rev_ind; [done|]. rewrite forallb_app in Hc2. cbn in Hc2.
    rewrite app_comm_cons, !app_assoc. unfold stripped. rewrite last_snoc. cbn.
    apply andb_true_iff in Hc2 as [_ Hc2]. rewrite andb_true_r in Hc2. apply negb_true_iff, orb_false_iff in Hc2 as [??].
    by split; apply Z.eqb_neq. }
  pose proof (proj1 (mkdir_ex_calls added dir r 511 w Hnd Hl) b0 (base ++ rel cs) [] ltac:(by rewrite app_nil_r) eq_refl Hstrip) as E.
  rewrite slashes_app, (slashes_plain base), slashes_rel in E by done.
  rewrite parents_app, (parents_plain _ base), (slashes_plain base) in E by done. cbn [app] in E.
  pose proof (nested 511 cs (b0 :: base) w Hm Hpass Hadm (mkdir_keeps _ _ _ _ Hst) Hcs) as Hnest. cbn [app] in Hnest. fold dir in Hnest, E.
  destruct (mkdir dir 511 (parents (b0 :: base) (rel cs) 511 w)) as [rv w'].
  destruct Hnest as (H1 & H2). split.
  - exists (to_char rv), w'. split; [done|]. split; [done|]. intros Hs. by rewrite H2.
  - unfold create_directory_if_not_exists. rewrite text_of_ok by done. rstep.
    destruct (stat dir w) eqn:Es; [by exists w|]. rewrite E. rstep. rewrite (H2 eq_refl). exists w'. split; [done|].
    specialize (H1 (length cs)). by rewrite take_ge in H1.
Qed.
End laws.

(** * A file system with the laws

    The directories there are, by their paths; a path is found when it and all of its ancestors are there. *)
Fixpoint ancestors (dn s : list Z) : list (list Z) :=
  match s with
  | [] => []
  | c :: s => if c =? 47 then dn :: ancestors (dn ++ [c]) s else ancestors (dn ++ [c]) s
  end.
Definition tree_has (q : list Z) (w : gset (list Z)) : bool := bool_decide (q ∈ w).
Definition tree_stat (p : list Z) (w : gset (list Z)) : bool :=
  tree_has p w && forallb (fun q => tree_has q w) (ancestors [] p).
#[export] Instance tree_fs : FileSystem (gset (list Z)) := {|
  mkdir p _ w :=
    if negb (tree_has p w) && forallb (fun q => tree_has q w) (ancestors [] p)
    then (0, {[p]} ∪ filter (fun q => p ∉ ancestors [] q) w) else (-1, w);
  stat := tree_stat
|}.
Lemma ancestors_app x y : forall dn, ancestors dn (x ++ y) = ancestors dn x ++ ancestors (dn ++ x) y.
Proof.
  induction x as [|c x IH]; intros dn; cbn; [by rewrite app_nil_r|].
  destruct (c =? 47); rewrite IH, <- app_assoc; done.
Qed.
Lemma ancestors_plain c : forall dn, forallb (fun x => negb (is_separator x)) c = true -> ancestors dn c = [].
Proof.
  induction c as [|x c IH]; intros dn; cbn; [done|]. unfold is_separator at 1. rewrite negb_orb.
  intros [[Hx _]%andb_true_iff Hc]%andb_true_iff. apply negb_true_iff in Hx. rewrite Hx. by apply IH.
Qed.
Lemma ancestors_child p c : is_component c -> ancestors [] (p ++ 47 :: c) = ancestors [] p ++ [p].
Proof.
  intros (_ & _ & Hc & _). rewrite ancestors_app. cbn. by rewrite (ancestors_plain c).
Qed.
Lemma tree_all w l : forallb (fun q => tree_has q w) l = true <-> forall q, q ∈ l -> q ∈ w.
Proof.
  rewrite forallb_forall. unfold tree_has. split; intros Hl q Hq.
  - apply list_elem_of_In in Hq. by apply Hl, bool_decide_eq_true in Hq.
  - apply bool_decide_eq_true, Hl, list_elem_of_In, Hq.
Qed.
Lemma tree_stat_spec p w : tree_stat p w = true <-> p ∈ w /\ forall q, q ∈ ancestors [] p -> q ∈ w.
Proof. unfold tree_stat. rewrite andb_true_iff, tree_all. unfold tree_has. by rewrite bool_decide_eq_true. Qed.
Lemma tree_mkdir (p : list Z) (m : Z) (w : gset (list Z)) : (mkdir p m w = (-1, w)) \/
  (p ∉ w /\ (forall q, q ∈ ancestors [] p -> q ∈ w) /\ mkdir p m w = (0, {[p]} ∪ filter (fun q => p ∉ ancestors [] q) w)).
Proof.
  unfold mkdir, tree_fs. destruct (negb (tree_has p w) && _) eqn:E; [right|by left].
  apply andb_true_iff in E as [Ep Ea]. pose proof (proj1 (tree_all w _) Ea). apply negb_true_iff, bool_decide_eq_false in Ep. done.
Qed.
Lemma elem_of_ancestors q s : forall dn, q ∈ ancestors dn s <-> exists x y, s = x ++ 47 :: y /\ q = dn ++ x.
Proof.
  induction s as [|c s IH]; intros dn; cbn.
  - split; [by intros ?%elem_of_nil|]. by intros ([|??] & ? & ? & ?).
  - assert ((exists x y, s = x ++ 47 :: y /\ q = (dn ++ [c]) ++ x) -> exists x y, c :: s = x ++ 47 :: y /\ q = dn ++ x) as Hr.
    { intros (x & y & -> & ->). exists (c :: x), y. by rewrite <- app_assoc. }
    assert (forall x y, c :: s = x ++ 47 :: y -> q = dn ++ x -> (c = 47 /\ q = dn) \/ exists x y, s = x ++ 47 :: y /\ q = (dn ++ [c]) ++ x) as Hl.
    { intros [|x0 x] y; cbn; intros [= -> ->] ->; [left; by rewrite app_nil_r|right; exists x, y; by rewrite <- app_assoc]. }
    destruct (Z.eqb_spec c 47) as [->|Hc]; [rewrite elem_of_cons|]; rewrite IH; split.
    + intros [->|Hq]; [exists [], s; by rewrite app_nil_r|by apply Hr].
    + intros (x & y & E & Eq). destruct (Hl x y E Eq) as [[_ ->]|?]; [by left|by right].
    + apply Hr.
    + intros (x & y & E & Eq). by destruct (Hl x y E Eq) as [[? _]|?].
Qed.
Lemma ancestor_trans p q s : p ∈ ancestors [] q -> q ∈ ancestors [] s -> p ∈ ancestors [] s.
Proof.
  rewrite !elem_of_ancestors. intros (x & y & -> & ->) (x' & y' & -> & E). cbn in *. subst x'.
  eexists _, _. split; [by rewrite <- app_assoc|done].
Qed.
Lemma ancestor_irrefl p : p ∉ ancestors [] p.
Proof.
  rewrite elem_of_ancestors. intros (x & y & E & ->). cbn in E. apply (f_equal length) in E. rewrite length_app in E. cbn in E. lia.
Qed.
Lemma ancestor_child p c : p ∈ ancestors [] (p ++ 47 :: c).
Proof. apply elem_of_ancestors. by exists p, c. Qed.
Lemma tree_made (p : list Z) (m : Z) (w : gset (list Z)) : (mkdir p m w).1 = 0 -> stat p (mkdir p m w).2 = true.
Proof.
  destruct (tree_mkdir p m w) as [->|(Hp & Ha & ->)]; [done|]. intros _. apply tree_stat_spec.
  cbn [snd]. split; [set_solver|]. intros q Hq. apply elem_of_union_r, elem_of_filter. split; [|by apply Ha].
  intros Hp'. by apply (ancestor_irrefl p), (ancestor_trans p q p).
Qed.
Lemma tree_keeps (p : list Z) (m : Z) (w : gset (list Z)) (q : list Z) : stat q w = true -> stat q (mkdir p m w).2 = true.
Proof.
  intros (Hq & Ha)%tree_stat_spec. destruct (tree_mkdir p m w) as [->|(Hp & _ & ->)]; cbn [snd];
    [by apply tree_stat_spec|].
  assert (p ∉ ancestors [] q) as Hpq by (intros ?%Ha; done).
  apply tree_stat_spec. split; [set_solver|].
  intros q' Hq'. apply elem_of_union_r, elem_of_filter. split; [|by apply Ha].
  intros Hp'. by apply Hpq, (ancestor_trans p q' q).
Qed.
#[export] Instance tree_laws : FileSystemLaws (gset (list Z)).
Proof.
  refine {| open_dir := fun p w => stat p w = true; refused := fun _ _ _ => False; umask := fun _ => 18;
            mkdir_made := tree_made; mkdir_keeps := tree_keeps; mkdir_open := tree_keeps |}; [done|done|..].
  - intros p m w H0 _. by apply tree_made.
  - intros p m w c H0 Hc. destruct (tree_mkdir p m w) as [E|(Hp & Ha & E)]; [by rewrite E in H0|]. rewrite E. cbn [snd].
    apply not_true_iff_false. intros (Hin & _)%tree_stat_spec.
    apply elem_of_union in Hin as [Hin%elem_of_singleton|Hin%elem_of_filter]; [|by apply Hin, ancestor_child].
    apply (f_equal length) in Hin. rewrite length_app in Hin. cbn in Hin. lia.
  - intros p m w H0. by destruct (tree_mkdir p m w) as [E|(_ & _ & E)]; [|rewrite E in H0].
  - intros p c m w (Hp & Ha)%tree_stat_spec Hc Hn _.
    destruct (tree_mkdir (p ++ 47 :: c) m w) as [E|(_ & _ & E)]; [|by rewrite E]. exfalso.
    unfold mkdir, tree_fs in E. unfold tree_has at 1 in E. revert E. apply not_true_iff_false in Hn. rewrite tree_stat_spec, ancestors_child in Hn by done.
    assert (forallb (fun q => tree_has q w) (ancestors [] (p ++ 47 :: c)) = true) as ->.
    { apply tree_all. rewrite ancestors_child by done. set_solver. }
    rewrite andb_true_r. case_bool_decide as Hin; [|done]. intros _. apply Hn. split; [done|]. set_solver.
  - intros p c w _ (_ & Ha)%tree_stat_spec. apply tree_stat_spec. split; [apply Ha, ancestor_child|].
    intros q Hq. apply Ha. by apply (ancestor_trans q p), ancestor_child.
Defined.

Lemma create_directory_makes_witness :
  let w : gset (list Z) := {[ [97]; [97; 47; 98] ]} in let dir := [97; 47; 98; 47; 99; 47; 100] in
  (exists rv w', mkdir_ex true true (Some []) (dir ++ 0 :: []) 511 true w = Ok (rv, w') /\
     (forall k, stat ([97] ++ rel (take k [[98]; [99]; [100]])) w' = true) /\ (stat dir w = false -> rv = 0)) /\
  (exists w', create_directory_if_not_exists true true (Some []) (Some (dir ++ 0 :: [])) w = Ok (1, w') /\
     stat dir w' = true).
Proof.
  intros w dir. apply (create_directory_makes [] [] 97 [] [[98]; [99]; [100]]);
    try done; [by intros k ?|by repeat split; intros []|by repeat constructor|].
  unfold is_component, no_nul. by repeat constructor.
Defined.
