(* ===== verification/ErrorLogger.v ===== *)
(** The error logger, [source/ErrorLogger.c]: a JSON object for every error,
    one to a line, appended to a file that is truncated when it has grown too
    large.  The state of an operation is the logger and the disk.  What json-c
    prints for an object, the clock, and what the system grants are arguments
    ([answers]); a mutex that another thread holds is the number of times that
    [pthread_mutex_trylock] finds it locked. *)
From stdpp Require Import gmap.
From S2P Require Import Prelude Memory Effects AlibString Stdio AlibFile.
Open Scope Z_scope.

Notation text := (list Z) (only parsing).   (* a C string without its NUL *)
Definition DEFAULT_MAX_ELOGGER_SIZE : Z := 1024 * 1024.
Definition ELTO_NO_TIME : Z := 0.
Definition ELTO_RUN_TIME : Z := 1.
Definition ELTO_CURRENT_TIME : Z := 2.

(** A callback: NULL, the library's own, or a client's. *)
Inductive callback := NoCallback | DefaultCallback | ClientCallback (n : Z).
Record ErrorLogger := mkErrorLogger {
  file_path : option text; app_name : option text; time_option : Z; startup_time : Z; log_count : Z;
  file : option Z; timeout : Z; locked : bool; max_file_size : Z;
  truncate_cb : callback; truncate_ready_cb : callback }.
Definition set_path (p : option text) (l : ErrorLogger) := mkErrorLogger p (app_name l) (time_option l)
  (startup_time l) (log_count l) (file l) (timeout l) (locked l) (max_file_size l) (truncate_cb l) (truncate_ready_cb l).
Definition set_name (n : option text) (l : ErrorLogger) := mkErrorLogger (file_path l) n (time_option l)
  (startup_time l) (log_count l) (file l) (timeout l) (locked l) (max_file_size l) (truncate_cb l) (truncate_ready_cb l).
Definition set_option (o : Z) (l : ErrorLogger) := mkErrorLogger (file_path l) (app_name l) o
  (startup_time l) (log_count l) (file l) (timeout l) (locked l) (max_file_size l) (truncate_cb l) (truncate_ready_cb l).
Definition set_startup (t : Z) (l : ErrorLogger) := mkErrorLogger (file_path l) (app_name l) (time_option l)
  t (log_count l) (file l) (timeout l) (locked l) (max_file_size l) (truncate_cb l) (truncate_ready_cb l).
Definition set_count (n : Z) (l : ErrorLogger) := mkErrorLogger (file_path l) (app_name l) (time_option l)
  (startup_time l) n (file l) (timeout l) (locked l) (max_file_size l) (truncate_cb l) (truncate_ready_cb l).
Definition set_file (f : option Z) (l : ErrorLogger) := mkErrorLogger (file_path l) (app_name l) (time_option l)
  (startup_time l) (log_count l) f (timeout l) (locked l) (max_file_size l) (truncate_cb l) (truncate_ready_cb l).
Definition set_timeout (t : Z) (l : ErrorLogger) := mkErrorLogger (file_path l) (app_name l) (time_option l)
  (startup_time l) (log_count l) (file l) t (locked l) (max_file_size l) (truncate_cb l) (truncate_ready_cb l).
Definition set_locked (b : bool) (l : ErrorLogger) := mkErrorLogger (file_path l) (app_name l) (time_option l)
  (startup_time l) (log_count l) (file l) (timeout l) b (max_file_size l) (truncate_cb l) (truncate_ready_cb l).
Definition set_max (n : Z) (l : ErrorLogger) := mkErrorLogger (file_path l) (app_name l) (time_option l)
  (startup_time l) (log_count l) (file l) (timeout l) (locked l) n (truncate_cb l) (truncate_ready_cb l).
Definition set_truncate (c : callback) (l : ErrorLogger) := mkErrorLogger (file_path l) (app_name l) (time_option l)
  (startup_time l) (log_count l) (file l) (timeout l) (locked l) (max_file_size l) c (truncate_ready_cb l).
Definition set_ready (c : callback) (l : ErrorLogger) := mkErrorLogger (file_path l) (app_name l) (time_option l)
  (startup_time l) (log_count l) (file l) (timeout l) (locked l) (max_file_size l) (truncate_cb l) c.

Definition world : Type := ErrorLogger * disk.
Definition on_disk {A} (m : M disk A) : M world A := fun w => '(a, d, t) ← m w.2; Ok (a, (w.1, d), t).
Definition of_logger {A} (f : ErrorLogger -> A) : M world A := gets (fun w => f w.1).
Definition update (f : ErrorLogger -> ErrorLogger) : M world unit := modify (fun w => (f w.1, w.2)).

(** What the system answers while an error is logged: how often the mutex is
    found locked by another thread, the time, the outcomes of the [fopen]s (of
    the log, and of the truncation), the [malloc] and the devices. *)
Record answers := mkAnswers {
  busy : nat; now : Z; log_opens : bool; log_room : Z;
  t_opens : bool; t_mallocs : bool; t_reopens : bool; t_room : Z }.

(** * Truncation *)

(** [for(..; *it != '}' && *it != '{' && it != end_it; ++it);] *)
Fixpoint find_brace (fuel : nat) (b : list Z) (it end_it : Z) : res Z :=
  match fuel with
  | O => Diverges
  | S n => c ← blk_load b it;
           if negb (c =? 125) && negb (c =? 123) && negb (it =? end_it) then find_brace n b (it + 1) end_it else Ok it
  end.
(** The part of the buffer that is written back, [None] when nothing is.  The
    pointer [find_next_non_whitespace] returns is not checked. *)
Definition kept_part (b : list Z) : res (option (list Z)) :=
  let end_it := blen b in
  it ← find_brace (S (S (length b))) b 0 end_it;
  if it =? end_it then Ok None else
  c ← blk_load b it;
  it ← (if c =? 125 then r ← find_next_non_whitespace b (Some (it + 1)); deref r else Ok it);
  d ← blk_read b it (u64 (s32 (end_it - it))); Ok (Some d).
Definition ErrorLogger_default_truncate_size (a : answers) (logger : option ErrorLogger) (f_size : Z) : M disk unit :=
  match logger with
  | None => mret tt
  | Some l =>
      match file_path l with
      | None => mret tt
      | Some p =>
          file ← fopen (t_opens a) p ForReading;
          match file with
          | None => mret tt
          | Some h =>
              f_size ← (if f_size =? 0 then file_size (Some h) else mret f_size);
              let half := f_size / 2 in
              fseek h (if negb (f_size mod 2 =? 0) then half + 1 else half) SEEK_SET;;
              if half =? 0 then
                fclose h;; file ← fopen (t_reopens a) p ForUpdate; h ← lift (deref file); fclose h
              else if negb (t_mallocs a) then fclose h else
                '(r, buff) ← fread h half (replicate (Z.to_nat half) None) 0;
                if negb (r =? half) then fclose h else
                b ← lift (buffer_bytes buff);
                kept ← lift (kept_part b);
                match kept with
                | None => fclose h
                | Some d => freopen (t_reopens a) p ForUpdate h;; fwrite (t_room a) h d;; fclose h
                end
          end
      end
  end.
Definition ErrorLogger_default_truncate_size_ready (logger : option ErrorLogger) (f_size : Z) : M disk bool :=
  match logger with
  | None => mret false
  | Some l =>
      match file l with
      | None => mret false
      | Some h =>
          f_size ← (if f_size =? 0 then file_size (Some h) else mret f_size);
          mret (negb (f_size <? max_file_size l))
      end
  end.

(** * Logging *)

(** The members of the JSON object, in the order they are added. *)
Inductive member :=
| RunTime (t : Z) | CurrentTime (t : text) | AppName (n : text) | Location (l : text) | ErrCode (c : Z) | ErrMsg (m : text).

(** [while(trylock){ usleep(1000); if(!(--timeout)) break; }]: the timeout that
    is left, and whether the mutex was locked.  [mine]: this logger's own lock
    was never released. *)
Fixpoint lock_loop (fuel : nat) (mine : bool) (busy : nat) (timeout : Z) : res (Z * bool) :=
  match fuel with
  | O => Diverges
  | S n =>
      if negb mine && (busy =? 0)%nat then Ok (timeout, true)
      else if timeout =? - 2 ^ 31 then UB SignedOverflow
      else if timeout - 1 =? 0 then Ok (0, false)
      else lock_loop n mine (Nat.pred busy) (timeout - 1)
  end.

Section logging.
(** json-c's text of an object, [ctime], and the client's callbacks. *)
Context (json_text : list member -> text) (ctime : Z -> text).
Context (client_truncate : Z -> Z -> M world unit) (client_ready : Z -> Z -> M world bool).

Definition members (l : ErrorLogger) (now : Z) (loc : option text) (err_code : Z) (err_msg : option text) : list member :=
  (if negb (time_option l =? ELTO_NO_TIME) then
     (if Z.testbit (time_option l) 0 then [RunTime (now - startup_time l)] else []) ++
     (if Z.testbit (time_option l) 1 then [CurrentTime (ctime now)] else [])
   else []) ++
  match app_name l with Some n => [AppName n] | None => [] end ++
  match loc with Some x => [Location x] | None => [] end ++
  [ErrCode err_code] ++
  match err_msg with Some m => [ErrMsg m] | None => [] end.
Definition call_ready (cb : callback) (f_size : Z) : M world bool :=
  match cb with
  | NoCallback => lift (UB NullDeref)
  | DefaultCallback => l ← of_logger id; on_disk (ErrorLogger_default_truncate_size_ready (Some l) f_size)
  | ClientCallback n => client_ready n f_size
  end.
Definition call_truncate (a : answers) (cb : callback) (f_size : Z) : M world unit :=
  match cb with
  | NoCallback => lift (UB NullDeref)
  | DefaultCallback => l ← of_logger id; on_disk (ErrorLogger_default_truncate_size a (Some l) f_size)
  | ClientCallback n => client_truncate n f_size
  end.

Definition ErrorLogger_log_error (fuel : nat) (a : answers) (loc : option text) (err_code : Z) (err_msg : option text)
    : M world Z :=
  timeout ← of_logger timeout; mine ← of_logger locked;
  '(timeout, got) ← lift (lock_loop fuel mine (busy a) timeout);
  when got (update (set_locked true);; emit EvLock);;
  if timeout =? 0 then mret ALIB_MUTEX_ERR else
  path ← of_logger file_path; path ← lift (deref path);
  f ← on_disk (fopen (log_opens a) path ForAppending); update (set_file f);;
  match f with
  | None => mret ALIB_FILE_OPEN_ERR
  | Some _ =>
      l ← of_logger id; let obj := members l (now a) loc err_code err_msg in
      cb ← of_logger truncate_ready_cb; ready ← call_ready cb 0;
      when ready (cb ← of_logger truncate_cb; call_truncate a cb 0);;
      f ← of_logger file; h ← lift (deref f);
      on_disk (fwrite (log_room a) h (json_text obj ++ [10]));;
      on_disk (fclose h);; update (set_file None);;
      c ← of_logger log_count; update (set_count (u64 (c + 1)));;
      update (set_locked false);; emit EvUnlock;;
      mret ALIB_OK
  end.
(** [if(!logger)return(ALIB_BAD_ARG);] *)
Definition log_error_checked (fuel : nat) (a : answers) (logger : option world) (loc : option text) (err_code : Z)
    (err_msg : option text) : res (Z * option world * list event) :=
  match logger with
  | None => Ok (ALIB_BAD_ARG, None, [])
  | Some w => '(r, w, t) ← ErrorLogger_log_error fuel a loc err_code err_msg w; Ok (r, Some w, t)
  end.
End logging.

(** * Getters *)
Definition ErrorLogger_get_file_path : M world (option text) := of_logger file_path.
Definition ErrorLogger_get_app_name : M world (option text) := of_logger app_name.
Definition ErrorLogger_get_time_option : M world Z := of_logger time_option.
Definition ErrorLogger_get_startup_time : M world Z := of_logger startup_time.
Definition ErrorLogger_get_log_count : M world Z := of_logger log_count.
Definition ErrorLogger_get_timeout : M world Z := of_logger timeout.
Definition ErrorLogger_get_max_file_size : M world Z := of_logger max_file_size.

(** * Setters *)
(** [pthread_mutex_lock] of a mutex that is never released does not return. *)
Definition wait_forever : M world unit := fun _ => Diverges.
Definition lock_logger : M world unit :=
  b ← of_logger locked; if b : bool then wait_forever else update (set_locked true);; emit EvLock.
Definition unlock_logger : M world unit := update (set_locked false);; emit EvUnlock.
Definition ErrorLogger_set_startup_time (t : Z) : M world unit := update (set_startup t).
(** [ok]: the allocation of the copy, whose failure [strcpy_alloc] does not notice. *)
Definition copy_text (ok : bool) (s : text) : res text := if ok then Ok s else UB NullDeref.
Definition ErrorLogger_set_file_path (ok : bool) (path : option text) : M world unit :=
  match path with
  | None => mret tt
  | Some p => lock_logger;; update (set_path None);; s ← lift (copy_text ok p); update (set_path (Some s));; unlock_logger
  end.
(** The path is set to NULL, not the name. *)
Definition ErrorLogger_set_app_name (ok : bool) (name : option text) : M world unit :=
  match name with
  | None => mret tt
  | Some n => lock_logger;; update (set_path None);; s ← lift (copy_text ok n); update (set_name (Some s));; unlock_logger
  end.
Definition ErrorLogger_set_time_option (o : Z) : M world unit := update (set_option o).
Definition ErrorLogger_set_timeout (t : Z) : M world unit := update (set_timeout t).
Definition ErrorLogger_set_max_file_size (n : Z) : M world unit := update (set_max n).
Definition ErrorLogger_use_default_truncate_size_cb : M world unit :=
  update (set_truncate DefaultCallback);; update (set_ready DefaultCallback).
Definition ErrorLogger_set_truncate_cb (c : callback) : M world unit := update (set_truncate c).
Definition ErrorLogger_set_truncate_ready_cb (c : callback) : M world unit := update (set_ready c).

(** * Construction and destruction *)
Definition delErrorLogger (logger : option ErrorLogger) : M disk (option ErrorLogger) :=
  match logger with
  | None => mret None
  | Some l => match file l with Some h => fclose h | None => mret tt end;; mret None
  end.
Definition newErrorLogger (ok ok_path ok_name : bool) (now : Z) (path : option text) (option_ : Z) (name : option text)
    : M disk (option ErrorLogger) :=
  match path with
  | None => mret None
  | Some p =>
      if negb ok then mret None else
      p ← lift (copy_text ok_path p);
      n ← match name with Some n => n ← lift (copy_text ok_name n); mret (Some n) | None => mret None end;
      let logger := Some (mkErrorLogger (Some p) n option_ now 0 None 500 false DEFAULT_MAX_ELOGGER_SIZE
                                        DefaultCallback DefaultCallback) in
      match n with None => delErrorLogger logger | Some _ => mret logger end
  end.
