(* ===== verification/ErrorLoggerSpec.v ===== *)
(** What the error logger does: every logged error is one more line at the end
    of the file, whose older half is dropped first when it has grown too large;
    the failures that leave the logger's mutex locked; and the callers of the
    setters that lose the path. *)
From stdpp Require Import gmap.
From S2P Require Import Prelude Memory Effects Heap AlibString Stdio StdioSpec AlibFile AlibFileSpec ErrorLogger.
Open Scope Z_scope.

(** * Lifting to the logger and the disk *)
Lemma on_disk_ok {A} (m : M disk A) l d a d' t : m d = Ok (a, d', t) -> on_disk m (l, d) = Ok (a, (l, d'), t).
Proof. intros H. unfold on_disk. cbn. by rewrite H. Qed.
Lemma on_disk_UB {A} (m : M disk A) l d f : m d = UB f -> on_disk m (l, d) = UB f.
Proof. intros H. unfold on_disk. cbn. by rewrite H. Qed.
Lemma bind_of_logger {A B} (f : ErrorLogger -> A) (k : A -> M world B) l d : mbind k (of_logger f) (l, d) = k (f l) (l, d).
Proof. by apply bind_quiet. Qed.
Lemma bind_set_logger {B} f (k : unit -> M world B) l d : mbind k (update f) (l, d) = k tt (f l, d).
Proof. by apply bind_quiet. Qed.
Lemma bind_on_disk {A B} (m : M disk A) (k : A -> M world B) l d a d' :
  m d = Ok (a, d', []) -> mbind k (on_disk m) (l, d) = k a (l, d').
Proof. intros H. apply bind_quiet. by apply on_disk_ok. Qed.
Lemma bind_emit {S B} e (k : unit -> M S B) s : mbind k (emit e) s = '(b, s2, t) ← k tt s; Ok (b, s2, e :: t).
Proof. by rewrite (bind_Ok _ _ _ _ _ _ (eq_refl : emit e s = Ok (tt, s, [e]))). Qed.

(** * Truncation *)
Definition no_brace (s : list Z) : bool := forallb (fun c => negb (c =? 125) && negb (c =? 123)) s.
Definition blank (s : list Z) : bool := forallb (fun c => is_white c || (c =? 0)) s.
Definition no_blank (c : Z) : bool := negb (is_white c || (c =? 0)).

Lemma find_brace_stop pre x rest : forall fuel dn, no_brace pre = true -> (x = 125 \/ x = 123) -> (length pre < fuel)%nat ->
  find_brace fuel (dn ++ pre ++ x :: rest) (blen dn) (blen (dn ++ pre ++ x :: rest)) = Ok (blen (dn ++ pre)).
Proof.
  induction pre as [|c pre IH]; intros fuel dn Hp Hx Hf; (destruct fuel as [|fuel]; [cbn in Hf; lia|]); cbn [find_brace app].
  - rewrite blk_load_middle, app_nil_r. rstep. by destruct Hx as [-> | ->].
  - cbn in Hp. apply andb_true_iff in Hp as [Hc Hp]. rewrite blk_load_middle. rstep. rewrite Hc. cbn [andb].
    rewrite (proj2 (Z.eqb_neq (blen dn) _)); [|rewrite blen_app, blen_cons; pose proof (blen_nonneg (pre ++ x :: rest)); lia].
    cbn [negb]. rewrite <- (blen_snoc dn c).
    replace (dn ++ c :: pre ++ x :: rest) with ((dn ++ [c]) ++ pre ++ x :: rest) by (by rewrite <- app_assoc).
    rewrite IH by (done || (cbn in Hf; lia)). by rewrite <- app_assoc.
Qed.
Lemma find_brace_runs_off pre : forall fuel dn, no_brace pre = true -> (length pre < fuel)%nat ->
  find_brace fuel (dn ++ pre) (blen dn) (blen (dn ++ pre)) = UB OutOfBounds.
Proof.
  induction pre as [|c pre IH]; intros fuel dn Hp Hf; (destruct fuel as [|fuel]; [cbn in Hf; lia|]); cbn [find_brace].
  - rewrite app_nil_r, blk_load_oob by lia. done.
  - cbn in Hp. apply andb_true_iff in Hp as [Hc Hp]. rewrite blk_load_middle. rstep. rewrite Hc. cbn [andb].
    rewrite (proj2 (Z.eqb_neq (blen dn) _)); [|rewrite blen_app, blen_cons; pose proof (blen_nonneg pre); lia].
    cbn [negb]. rewrite <- (blen_snoc dn c). replace (dn ++ c :: pre) with ((dn ++ [c]) ++ pre) by (by rewrite <- app_assoc).
    apply IH; [done|cbn in Hf; lia].
Qed.
Lemma skip_while_stop ws x rest : forall fuel dn p, forallb p ws = true -> p x = false -> (length ws < fuel)%nat ->
  skip_while fuel p (dn ++ ws ++ x :: rest) (blen dn) = Ok (blen (dn ++ ws)).
Proof.
  induction ws as [|c ws IH]; intros fuel dn p Hp Hx Hf; (destruct fuel as [|fuel]; [cbn in Hf; lia|]); cbn [skip_while app].
  - rewrite blk_load_middle, app_nil_r. rstep. by rewrite Hx.
  - cbn in Hp. apply andb_true_iff in Hp as [Hc Hp]. rewrite blk_load_middle. rstep. rewrite Hc. rewrite <- (blen_snoc dn c).
    replace (dn ++ c :: ws ++ x :: rest) with ((dn ++ [c]) ++ ws ++ x :: rest) by (by rewrite <- app_assoc).
    rewrite IH by (done || (cbn in Hf; lia)). by rewrite <- app_assoc.
Qed.

(** What is read back to the end of the buffer. *)
Lemma read_rest (s r : list Z) : blen (s ++ r) < 2 ^ 31 ->
  blk_read (s ++ r) (blen s) (u64 (s32 (blen (s ++ r) - blen s))) = Ok r.
Proof.
  intros H. pose proof (blen_nonneg s). pose proof (blen_nonneg r). rewrite blen_app in *.
  replace (blen s + blen r - blen s) with (blen r) by lia. rewrite s32_small, u64_small by lia.
  rewrite blk_read_ok by (rewrite ?blen_app; lia). unfold slice, blen. by rewrite !Nat2Z.id, drop_app_length, firstn_all.
Qed.

(** The part that is kept begins with the first object that begins in the newer half. *)
Lemma kept_part_spec b : blen b < 2 ^ 31 ->
  (forall pre rest, b = pre ++ 123 :: rest -> no_brace pre = true -> kept_part b = Ok (Some (123 :: rest))) /\
  (forall pre ws x rest, b = pre ++ 125 :: ws ++ x :: rest -> no_brace pre = true -> blank ws = true -> no_blank x = true ->
     kept_part b = Ok (Some (x :: rest))) /\
  (forall pre ws, b = pre ++ 125 :: ws -> no_brace pre = true -> blank ws = true -> kept_part b = UB OutOfBounds) /\
  (no_brace b = true -> kept_part b = UB OutOfBounds).
Proof.
  intros Hb. unfold kept_part. pose proof (blen_nonneg b).
  assert (forall pre x rest, b = pre ++ x :: rest -> no_brace pre = true -> x = 125 \/ x = 123 ->
    find_brace (S (S (length b))) b 0 (blen b) = Ok (blen pre) /\ (blen pre =? blen b) = false /\ blk_load b (blen pre) = Ok x) as Hf.
  { intros pre x rest -> Hp Hx. split; [apply (find_brace_stop pre x rest _ []); [done..|rewrite length_app; lia]|].
    split; [apply Z.eqb_neq; rewrite blen_app, blen_cons; pose proof (blen_nonneg rest); lia|apply blk_load_middle]. }
  split; [|split; [|split]].
  - intros pre rest E Hp. destruct (Hf pre 123 rest E Hp ltac:(by right)) as (-> & H2 & H3). rstep. rewrite H2, H3. rstep.
    rewrite (proj2 (Z.eqb_neq 123 125)) by done. rstep. subst b. by rewrite read_rest.
  - intros pre ws x rest E Hp Hw Hx. destruct (Hf pre 125 _ E Hp ltac:(by left)) as (-> & H2 & H3). rstep. rewrite H2, H3. rstep.
    rewrite Z.eqb_refl. unfold find_next_non_whitespace. rewrite <- (blen_snoc pre 125).
    assert (b = (pre ++ [125]) ++ ws ++ x :: rest) as Eb by (by rewrite E, <- app_assoc). rewrite Eb.
    apply negb_true_iff in Hx.
    rewrite skip_while_stop; [|done|done|rewrite !length_app; cbn; lia]. rstep.
    assert (blk_load ((pre ++ [125]) ++ ws ++ x :: rest) (blen ((pre ++ [125]) ++ ws)) = Ok x) as Hl.
    { rewrite app_assoc. apply blk_load_middle. }
    rewrite Hl. rstep. apply orb_false_iff in Hx as [_ ->]. cbn [deref]. rstep.
    rewrite app_assoc. rewrite read_rest; [done|]. by rewrite <- app_assoc, <- Eb.
  - intros pre ws E Hp Hw. destruct (Hf pre 125 _ E Hp ltac:(by left)) as (-> & H2 & H3). rstep. rewrite H2, H3. rstep.
    rewrite Z.eqb_refl. unfold find_next_non_whitespace. rewrite <- (blen_snoc pre 125).
    assert (b = (pre ++ [125]) ++ ws) as -> by (by rewrite E, <- app_assoc).
    rewrite skip_while_oob; [done| |rewrite !length_app; cbn; lia].
    apply List.Forall_forall. intros c Hc. unfold blank in Hw. rewrite forallb_forall in Hw. by apply Hw.
  - intros Hn. pose proof (find_brace_runs_off b (S (S (length b))) [] Hn ltac:(lia)) as E. cbn [app] in E.
    change (@blen Z []) with 0 in E. by rewrite E.
Qed.

(** The newer half of a file. *)
Definition newer_half (c : list Z) : list Z := slice c (blen c - blen c / 2) (blen c / 2).
Lemma half_bounds (c : list Z) : 0 <= blen c / 2 <= blen c /\ 2 * (blen c / 2) <= blen c.
Proof.
  pose proof (blen_nonneg c). pose proof (Z.div_mod (blen c) 2 ltac:(lia)). pose proof (Z.mod_pos_bound (blen c) 2 ltac:(lia)). lia.
Qed.
Lemma blen_newer c : blen (newer_half c) = blen c / 2.
Proof. pose proof (half_bounds c). apply blen_slice; lia. Qed.

Section truncation.
Context (a : answers) (l : ErrorLogger) (p : path) (c : list Z) (d : disk).
Hypothesis (Hpath : file_path l = Some p) (Hc : files d !! p = Some c) (Hl : blen c <= LONG_MAX).
Hypothesis (Hopen : t_opens a = true) (Hmem : t_mallocs a = true).

(** Up to the choice of what is kept. *)
Lemma truncate_reads : 2 <= blen c -> let h := new_handle d in
  ErrorLogger_default_truncate_size a (Some l) 0 d =
    (kept ← lift (kept_part (newer_half c));
     match kept with
     | None => fclose h
     | Some k => freopen (t_reopens a) p ForUpdate h;; fwrite (t_room a) h k;; fclose h
     end) (with_stream h p ForReading (blen c) d).
Proof.
  intros H2 h. unfold ErrorLogger_default_truncate_size. rewrite Hpath, Hopen. unfold LONG_MAX in Hl.
  rewrite (bind_quiet _ _ _ _ _ (fopen_reading d p c Hc)). change (0 =? 0) with true. cbn iota. fold h.
  pose proof (file_size_with h p ForReading 0 d ltac:(unfold LONG_MAX; lia)) as E. rewrite (file_at_some p c d Hc) in E.
  rewrite (bind_quiet _ _ _ _ _ (E Hl)). cbv zeta.
  pose proof (Z.div_mod (blen c) 2 ltac:(lia)) as Hd. pose proof (Z.mod_pos_bound (blen c) 2 ltac:(lia)) as Hm.
  assert ((if negb (blen c mod 2 =? 0) then blen c / 2 + 1 else blen c / 2) = blen c - blen c / 2) as ->.
  { destruct (Z.eqb_spec (blen c mod 2) 0); cbn [negb]; lia. }
  rewrite (bind_quiet _ _ _ _ _ (fseek_set_with h p ForReading 0 d (blen c - blen c / 2) ltac:(unfold LONG_MAX; lia))).
  rewrite (proj2 (Z.eqb_neq (blen c / 2) 0)) by lia. rewrite Hmem. cbn [negb].
  pose proof (fill_front (newer_half c) (blen c / 2) ltac:(rewrite blen_newer; lia)) as Hfill.
  rewrite blen_newer, Z.sub_diag in Hfill. cbn [Z.to_nat replicate] in Hfill. rewrite app_nil_r in Hfill.
  erewrite bind_quiet; [|apply (fread_with h p ForReading (blen c - blen c / 2) d (blen c / 2));
    [done|lia|lia|rewrite (file_at_some p c d Hc); lia|rewrite (file_at_some p c d Hc); exact Hfill]].
  cbv beta iota. rewrite Z.eqb_refl. cbn [negb]. rewrite buffer_bytes_some. rewrite (bind_lift (Ok _) (newer_half c)) by done.
  by replace (blen c - blen c / 2 + blen c / 2) with (blen c) by lia.
Qed.
Lemma truncate_keeps k : 2 <= blen c -> kept_part (newer_half c) = Ok (Some k) -> t_reopens a = true -> blen k <= t_room a ->
  ErrorLogger_default_truncate_size a (Some l) 0 d = Ok (tt, set_files (<[p := k]> (files d)) d, []).
Proof.
  intros H2 Hk Hre Hroom. rewrite truncate_reads by done. cbv zeta. rewrite (bind_lift _ _ _ _ Hk). rewrite Hre.
  set (h := new_handle d). set (d2 := set_files (<[p := []]> (files d)) d). pose proof (new_handle_free d) as Hh. fold h in Hh.
  assert (freopen true p ForUpdate h (with_stream h p ForReading (blen c) d) = Ok (Some h, with_stream h p ForUpdate 0 d2, [])) as E.
  { unfold freopen. by rewrite (bind_quiet _ _ _ _ _ (fclose_with _ _ _ (blen c) d Hh)). }
  rewrite (bind_quiet _ _ _ _ _ E).
  rewrite (bind_quiet _ _ _ _ _ (fwrite_with (t_room a) h p ForUpdate 0 d2 k ltac:(done))).
  assert (file_at p d2 = []) as -> by apply file_at_insert. rewrite overwrite_empty.
  unfold d2. rewrite set_files_twice. cbn [files set_files]. rewrite insert_insert_eq.
  rewrite take_ge by (unfold blen in *; lia). by apply fclose_with.
Qed.
Lemma truncate_faults f : 2 <= blen c -> kept_part (newer_half c) = UB f ->
  ErrorLogger_default_truncate_size a (Some l) 0 d = UB f.
Proof. intros H2 Hk. rewrite truncate_reads by done. cbv zeta. rewrite Hk. done. Qed.
End truncation.

(** Truncation of a file: the newer half is searched for the first brace.  An opening one starts what is kept;
    behind a closing one it is the next character that is not white.  What is kept is at most half of the
    file, and its end.  A half without a brace, and one whose first brace closes the last object of the file, are
    read past the end of the buffer. *)
Theorem truncate_size_spec (a : answers) (l : ErrorLogger) (p : path) (c older newer : list Z) (d : disk) :
  file_path l = Some p -> files d !! p = Some c -> c = older ++ newer -> blen newer = blen c / 2 -> 2 <= blen c < 2 ^ 31 ->
  t_opens a = true -> t_mallocs a = true -> t_reopens a = true -> blen c <= t_room a ->
  let run := ErrorLogger_default_truncate_size a (Some l) 0 d in
  let keeps k := run = Ok (tt, set_files (<[p := k]> (files d)) d, []) /\ 2 * blen k <= blen c in
  (forall pre rest, newer = pre ++ 123 :: rest -> no_brace pre = true -> keeps (123 :: rest)) /\
  (forall pre ws x rest, newer = pre ++ 125 :: ws ++ x :: rest -> no_brace pre = true -> blank ws = true -> no_blank x = true ->
     keeps (x :: rest)) /\
  (forall pre ws, newer = pre ++ 125 :: ws -> no_brace pre = true -> blank ws = true -> run = UB OutOfBounds) /\
  (no_brace newer = true -> run = UB OutOfBounds).
Proof.
  intros Hp Hc -> Hhalf Hb Ho Hm Hr Hroom run keeps. pose proof (half_bounds (older ++ newer)) as Hh.
  assert (newer_half (older ++ newer) = newer) as Hn.
  { unfold newer_half, slice. rewrite <- Hhalf, blen_app. replace (blen older + blen newer - blen newer) with (blen older) by lia.
    unfold blen. by rewrite !Nat2Z.id, drop_app_length, firstn_all. }
  assert (forall k, kept_part newer = Ok (Some k) -> blen k <= blen newer -> keeps k) as Hk.
  { intros k E Hle. split; [|lia]. apply (truncate_keeps a l p (older ++ newer) d); rewrite ?Hn;
      done || (unfold LONG_MAX; lia) || lia. }
  assert (forall f, kept_part newer = UB f -> run = UB f) as Hf.
  { intros f E. apply (truncate_faults a l p (older ++ newer) d); rewrite ?Hn; done || (unfold LONG_MAX; lia) || lia. }
  destruct (kept_part_spec newer ltac:(lia)) as (H1 & H2 & H3 & H4). split; [|split; [|split]].
  - intros pre rest E Hpre. apply Hk; [by apply (H1 pre)|]. rewrite E, blen_app. pose proof (blen_nonneg pre). lia.
  - intros pre ws x rest E Hpre Hws Hx. apply Hk; [by apply (H2 pre ws)|].
    rewrite E. repeat (rewrite blen_app || rewrite blen_cons). pose proof (blen_nonneg pre). pose proof (blen_nonneg ws). lia.
  - intros pre ws E Hpre Hws. apply Hf. by apply (H3 pre ws).
  - intros Hnb. by apply Hf, H4.
Qed.
Definition sample_logger : ErrorLogger :=
  mkErrorLogger (Some [108]) (Some [97]) ELTO_NO_TIME 0 0 None 500 false 4 DefaultCallback DefaultCallback.
Definition sample_answers : answers := mkAnswers 2 0 true 100 true true true 100.
Lemma truncate_size_spec_witness :
  let d := mkDisk {[ [108] := [123; 125; 10; 123; 125; 10] ]} ∅ in
  let run := ErrorLogger_default_truncate_size sample_answers (Some sample_logger) 0 d in
  run = Ok (tt, set_files (<[ [108] := [123; 125; 10] ]> (files d)) d, []) /\ 2 * blen [123; 125; 10] <= 6.
Proof.
  intros d. refine (proj1 (truncate_size_spec sample_answers sample_logger [108] [123; 125; 10; 123; 125; 10]
    [123; 125; 10] [123; 125; 10] d _ _ _ _ _ _ _ _ _) [] [125; 10] _ _); done.
Defined.

(** * Logging *)
Lemma lock_loop_ok : forall busy fuel timeout, (busy < fuel)%nat -> Z.of_nat busy < timeout ->
  lock_loop fuel false busy timeout = Ok (timeout - Z.of_nat busy, true).
Proof.
  induction busy as [|busy IH]; intros fuel timeout Hf Ht; (destruct fuel as [|fuel]; [lia|]); cbn [lock_loop negb andb].
  - cbn. do 2 f_equal. lia.
  - rewrite (proj2 (Z.eqb_neq timeout (- 2 ^ 31))), (proj2 (Z.eqb_neq (timeout - 1) 0)) by lia.
    cbn [Nat.eqb Nat.pred]. rewrite IH by lia. do 2 f_equal. lia.
Qed.
(** A mutex that is never released, for as long as the timeout says. *)
Lemma lock_loop_expires n : forall fuel mine busy timeout, timeout = Z.of_nat (S n) -> (n < fuel)%nat ->
  mine = true \/ (n < busy)%nat -> lock_loop fuel mine busy timeout = Ok (0, false).
Proof.
  induction n as [|n IH]; intros fuel mine busy timeout -> Hf Hb; (destruct fuel as [|fuel]; [lia|]); cbn [lock_loop].
  - assert (negb mine && (busy =? 0)%nat = false) as -> by (destruct Hb as [-> |Hb]; [done|]; destruct mine, busy; (done || lia)).
    done.
  - assert (negb mine && (busy =? 0)%nat = false) as -> by (destruct Hb as [-> |Hb]; [done|]; destruct mine, busy; (done || lia)).
    rewrite (proj2 (Z.eqb_neq _ (- 2 ^ 31))), (proj2 (Z.eqb_neq (_ - 1) 0)) by lia.
    apply IH; [lia|lia|]. destruct Hb as [?|?]; [by left|right; lia].
Qed.

Section logging.
Context (json_text : list member -> list Z) (ctime : Z -> list Z).
Context (client_truncate : Z -> Z -> M world unit) (client_ready : Z -> Z -> M world bool).
Notation log_error := (ErrorLogger_log_error json_text ctime client_truncate client_ready).

(** The first part of every call: the mutex is locked, the file open for appending. *)
Lemma log_error_opens fuel a l d loc code msg p :
  locked l = false -> (busy a < fuel)%nat -> Z.of_nat (busy a) < timeout l -> file_path l = Some p ->
  log_error fuel a loc code msg (l, d) =
    '(r, s, t) ←
      (f ← on_disk (fopen (log_opens a) p ForAppending); update (set_file f);;
       match f with
       | None => mret ALIB_FILE_OPEN_ERR
       | Some _ =>
           l ← of_logger id; let obj := members ctime l (now a) loc code msg in
           cb ← of_logger truncate_ready_cb; ready ← call_ready client_ready cb 0;
           when ready (cb ← of_logger truncate_cb; call_truncate client_truncate a cb 0);;
           f ← of_logger file; h ← lift (deref f);
           on_disk (fwrite (log_room a) h (json_text obj ++ [10]));;
           on_disk (fclose h);; update (set_file None);;
           c ← of_logger log_count; update (set_count (u64 (c + 1)));;
           update (set_locked false);; emit EvUnlock;; mret ALIB_OK
       end) (set_locked true l, d);
    Ok (r, s, EvLock :: t).
Proof.
  intros Hk Hf Ht Hp. unfold ErrorLogger_log_error. rewrite !bind_of_logger, Hk.
  rewrite (bind_lift _ _ _ _ (lock_loop_ok (busy a) fuel (timeout l) Hf Ht)). cbn [when]. rewrite bind_bind, bind_set_logger, bind_emit.
  rewrite (proj2 (Z.eqb_neq (timeout l - Z.of_nat (busy a)) 0)) by lia. rewrite bind_of_logger. cbn [file_path set_locked].
  rewrite Hp. cbn [deref]. by rewrite (bind_lift (Ok p) p) by done.
Qed.
Lemma log_error_checked_NULL fuel a loc code msg :
  log_error_checked json_text ctime client_truncate client_ready fuel a None loc code msg = Ok (ALIB_BAD_ARG, None, []).
Proof. done. Qed.

(** C30: logging an error with the default callbacks, when no other thread holds the mutex for as long as the
    timeout, the file can be opened (when it cannot, the mutex stays locked, [log_error_keeps_lock]), and the
    device takes the new line: the file is what it was, or what a truncation left when it had reached its
    maximum, and behind it one more line with the JSON text of the error; the logger counts the error, and mutex
    and file are released. A file that has reached its maximum has at least two bytes, a newer half in which the
    truncation finds where the first error it keeps begins without reading past it ([kept_part]), and the
    truncation's file, its second opening and its memory are available and the device takes what is kept. The
    file has at most LONG_MAX bytes, and the logger is not locked and has no open file at the start. *)
Theorem log_error_spec (fuel : nat) (a : answers) (l : ErrorLogger) (d : disk) (p : path) (c kept : list Z)
    (loc msg : option (list Z)) (code : Z) :
  locked l = false -> file l = None -> (busy a < fuel)%nat -> Z.of_nat (busy a) < timeout l -> file_path l = Some p ->
  truncate_cb l = DefaultCallback -> truncate_ready_cb l = DefaultCallback ->
  log_opens a = true -> t_opens a = true -> t_mallocs a = true -> t_reopens a = true ->
  file_at p d = c -> blen c <= LONG_MAX -> blen kept <= t_room a ->
  (blen c < max_file_size l /\ kept = c) \/
  (2 <= blen c /\ max_file_size l <= blen c /\ kept_part (newer_half c) = Ok (Some kept)) ->
  let line := json_text (members ctime (set_locked true l) (now a) loc code msg) ++ [10] in
  blen line <= log_room a ->
  log_error fuel a loc code msg (l, d) =
    Ok (ALIB_OK, (set_count (u64 (log_count l + 1)) l, set_files (<[p := kept ++ line]> (files d)) d), [EvLock; EvUnlock]).
Proof.
  intros Hk Hf Hfuel Ht Hp Hcb Hrcb Ho Hto Htm Htr Hc Hl Hroom Hcase line Hline.
  rewrite (log_error_opens fuel a l d loc code msg p Hk Hfuel Ht Hp), Ho.
  set (h := new_handle d). set (d1 := set_files (<[p := c]> (files d)) d).
  assert (fopen true p ForAppending d = Ok (Some h, with_stream h p ForAppending 0 d1, [])) as E.
  { rewrite fopen_append. by rewrite Hc. }
  rewrite (bind_on_disk _ _ _ _ _ _ E), bind_set_logger. cbv beta iota. rewrite !bind_of_logger. cbv zeta. cbn [id].
  set (l1 := set_file (Some h) (set_locked true l)). set (dh := with_stream h p ForAppending 0 d1).
  assert (streams d1 !! h = None) as Hh by exact (new_handle_free d).
  assert (call_ready client_ready (truncate_ready_cb l1) 0 (l1, dh) = Ok (negb (blen c <? max_file_size l), (l1, dh), [])) as Er.
  { cbn [truncate_ready_cb l1 set_file set_locked]. rewrite Hrcb. unfold call_ready. rewrite bind_of_logger. apply on_disk_ok.
    unfold ErrorLogger_default_truncate_size_ready. cbn [file id l1 set_file]. change (0 =? 0) with true. cbn iota.
    pose proof (file_size_with h p ForAppending 0 d1 ltac:(unfold LONG_MAX; lia)) as Es.
    assert (file_at p d1 = c) as Ef by apply file_at_insert. rewrite Ef in Es. by rewrite (bind_quiet _ _ _ _ _ (Es Hl)). }
  rewrite (bind_quiet _ _ _ _ _ Er).
  assert (when (negb (blen c <? max_file_size l)) (cb ← of_logger truncate_cb; call_truncate client_truncate a cb 0) (l1, dh)
    = Ok (tt, (l1, with_stream h p ForAppending 0 (set_files (<[p := kept]> (files d)) d)), [])) as Et.
  { destruct Hcase as [[Hlt ->]|(H2 & Hge & Hkept)].
    - by rewrite (proj2 (Z.ltb_lt _ _)).
    - rewrite (proj2 (Z.ltb_ge _ _)) by done. cbn [negb when]. rewrite bind_of_logger.
      cbn [truncate_cb l1 set_file set_locked]. rewrite Hcb. unfold call_truncate. rewrite bind_of_logger. apply on_disk_ok.
      rewrite (truncate_keeps a (id l1) p c dh) with (k := kept); [|done|by apply lookup_insert_eq|done..].
      unfold dh, with_stream, d1, set_files, set_streams. cbn. by rewrite insert_insert_eq. }
  rewrite (bind_quiet _ _ _ _ _ Et). set (d2 := set_files (<[p := kept]> (files d)) d).
  rewrite bind_of_logger. cbn [file l1 set_file deref]. rewrite (bind_lift (Ok h) h) by done.
  change (members ctime l1 (now a) loc code msg) with (members ctime (set_locked true l) (now a) loc code msg). fold line.
  pose proof (fwrite_with (log_room a) h p ForAppending 0 d2 line ltac:(done)) as Ew. cbv zeta in Ew.
  rewrite take_ge in Ew by (unfold blen in *; lia).
  assert (file_at p d2 = kept) as Ef by apply file_at_insert. rewrite Ef, overwrite_end in Ew.
  rewrite (bind_on_disk _ _ _ _ _ _ Ew). unfold d2. rewrite set_files_twice. cbn [files set_files]. rewrite insert_insert_eq.
  erewrite bind_on_disk; [|by apply fclose_with]. rewrite bind_set_logger, bind_of_logger, !bind_set_logger, bind_emit.
  unfold mret, M_ret. unfold l1. clear - Hk Hf. clearbody line. destruct l. cbn in *. by rewrite Hk, Hf.
Qed.

(** A call on a logger whose own lock was never released. *)
Lemma log_error_locked fuel a l d loc code msg :
  locked l = true -> 0 < timeout l -> (Z.to_nat (timeout l) <= fuel)%nat ->
  log_error fuel a loc code msg (l, d) = Ok (ALIB_MUTEX_ERR, (l, d), []).
Proof.
  intros Hk Ht Hf. unfold ErrorLogger_log_error. rewrite !bind_of_logger, Hk.
  rewrite (bind_lift _ (0, false)); [done|].
  apply (lock_loop_expires (Z.to_nat (timeout l) - 1)); [lia|lia|by left].
Qed.

(** A call that cannot open the file, and a call with the timeout 0 on a mutex that is free, return with the
    mutex locked.  From then on nothing is logged: every later call gives up when its timeout is over, and a
    change of the path, or of the application's name, never returns. *)
Theorem log_error_keeps_lock (fuel : nat) (a : answers) (l : ErrorLogger) (d : disk) (p : path)
    (loc msg : option (list Z)) (code : Z) :
  locked l = false -> file l = None -> file_path l = Some p -> (busy a < fuel)%nat ->
  (log_opens a = false /\ Z.of_nat (busy a) < timeout l) \/ (timeout l = 0 /\ busy a = 0%nat) ->
  exists r, log_error fuel a loc code msg (l, d) = Ok (r, (set_locked true l, d), [EvLock]) /\
    r = (if timeout l =? 0 then ALIB_MUTEX_ERR else ALIB_FILE_OPEN_ERR) /\
    (forall a' t fuel' loc' code' msg', 0 < t -> (Z.to_nat t <= fuel')%nat ->
       log_error fuel' a' loc' code' msg' (set_timeout t (set_locked true l), d)
       = Ok (ALIB_MUTEX_ERR, (set_timeout t (set_locked true l), d), [])) /\
    (forall ok s, ErrorLogger_set_file_path ok (Some s) (set_locked true l, d) = Diverges /\
                  ErrorLogger_set_app_name ok (Some s) (set_locked true l, d) = Diverges).
Proof.
  intros Hk Hf Hp Hfuel Hcase. exists (if timeout l =? 0 then ALIB_MUTEX_ERR else ALIB_FILE_OPEN_ERR). split; [|split; [done|split]].
  - destruct Hcase as [[Ho Ht]|[Ht Hb]].
    + rewrite (log_error_opens fuel a l d loc code msg p Hk Hfuel Ht Hp), Ho.
      rewrite (bind_on_disk _ _ _ _ _ _ (fopen_refused d p ForAppending)), bind_set_logger.
      rewrite (proj2 (Z.eqb_neq (timeout l) 0)) by lia. unfold mret, M_ret. clear - Hf. destruct l. cbn in *. by rewrite Hf.
    + unfold ErrorLogger_log_error. rewrite !bind_of_logger, Hk, Hb, Ht. destruct fuel as [|fuel]; [lia|]. done.
  - intros a' t fuel' loc' code' msg' Ht Hf'. by apply log_error_locked.
  - intros ok s. by split.
Qed.

(** Setting the name of the application drops the path: the next logged error opens a NULL path. *)
Theorem set_app_name_loses_path (fuel : nat) (a : answers) (l : ErrorLogger) (d : disk) (name : list Z)
    (loc msg : option (list Z)) (code : Z) :
  locked l = false -> (busy a < fuel)%nat -> Z.of_nat (busy a) < timeout l ->
  exists l', ErrorLogger_set_app_name true (Some name) (l, d) = Ok (tt, (l', d), [EvLock; EvUnlock]) /\
    app_name l' = Some name /\ file_path l' = None /\
    log_error fuel a loc code msg (l', d) = UB NullDeref.
Proof.
  intros Hk Hfuel Ht. exists (set_locked false (set_name (Some name) (set_path None (set_locked true l)))). split; [|split; [done|split; [done|]]].
  - unfold ErrorLogger_set_app_name, lock_logger. rewrite bind_bind, bind_of_logger, Hk, bind_bind, bind_set_logger, bind_emit, bind_set_logger.
    cbn [copy_text]. rewrite (bind_lift (Ok name) name), bind_set_logger by done. unfold unlock_logger. by rewrite bind_set_logger.
  - unfold ErrorLogger_log_error. rewrite !bind_of_logger. cbn [locked set_locked].
    rewrite (bind_lift _ _ _ _ (lock_loop_ok (busy a) fuel (timeout l) Hfuel Ht)). cbn [when]. rewrite bind_bind, bind_set_logger, bind_emit.
    by rewrite (proj2 (Z.eqb_neq (timeout l - Z.of_nat (busy a)) 0)) by lia.
Qed.
End logging.

Definition sample_text (ms : list member) : list Z := [123; 125].
Definition no_truncate (n f_size : Z) : M world unit := mret tt.
Definition never_ready (n f_size : Z) : M world bool := mret false.
Notation sample_log := (ErrorLogger_log_error sample_text (fun _ => []) no_truncate never_ready).
Lemma log_error_spec_witness :
  let d := mkDisk {[ [108] := [123; 125; 10; 123; 125; 10] ]} ∅ in
  sample_log 3 sample_answers None 7 None (sample_logger, d)
  = Ok (ALIB_OK, (set_count 1 sample_logger, mkDisk {[ [108] := [123; 125; 10; 123; 125; 10] ]} ∅), [EvLock; EvUnlock]).
Proof.
  intros d.
  refine (eq_trans (log_error_spec sample_text (fun _ => []) no_truncate never_ready 3 sample_answers sample_logger d [108]
    [123; 125; 10; 123; 125; 10] [123; 125; 10] None None 7 _ _ _ _ _ _ _ _ _ _ _ _ _ _ _ _) _);
    try done; [cbn; lia|by vm_compute..|].
  right. repeat split; by vm_compute.
Defined.
Lemma log_error_keeps_lock_witness :
  let a := mkAnswers 0 0 false 100 true true true 100 in let d := mkDisk ∅ ∅ in let l := sample_logger in
  exists r, sample_log 1 a None 7 None (l, d) = Ok (r, (set_locked true l, d), [EvLock]) /\
    r = (if timeout l =? 0 then ALIB_MUTEX_ERR else ALIB_FILE_OPEN_ERR) /\
    (forall a' t fuel' loc' code' msg', 0 < t -> (Z.to_nat t <= fuel')%nat ->
       sample_log fuel' a' loc' code' msg' (set_timeout t (set_locked true l), d)
       = Ok (ALIB_MUTEX_ERR, (set_timeout t (set_locked true l), d), [])) /\
    (forall ok s, ErrorLogger_set_file_path ok (Some s) (set_locked true l, d) = Diverges /\
                  ErrorLogger_set_app_name ok (Some s) (set_locked true l, d) = Diverges).
Proof. intros a d l. apply (log_error_keeps_lock _ _ _ _ 1 a l d [108]); try done; [cbn; lia|by left]. Defined.
Lemma set_app_name_loses_path_witness :
  exists l', ErrorLogger_set_app_name true (Some [98]) (sample_logger, mkDisk ∅ ∅) = Ok (tt, (l', mkDisk ∅ ∅), [EvLock; EvUnlock]) /\
    app_name l' = Some [98] /\ file_path l' = None /\
    sample_log 3 sample_answers None 7 None (l', mkDisk ∅ ∅) = UB NullDeref.
Proof. apply set_app_name_loses_path; try done. cbn. lia. Defined.

(** Without a name the new logger is deleted again: NULL is returned whatever the path. *)
Lemma newErrorLogger_no_name now path option_ d :
  newErrorLogger true true true now (Some path) option_ None d = Ok (None, d, []).
Proof. done. Qed.
