(* ===== verification/Registry.v ===== *)
(** Lists of registered callbacks, as [source/proc_waiter.c] and
    [source/signal_handler.c] keep them: an [ArrayList] of pointers, and loops
    over its items that call them and may take them out while they run.  The
    loops end when they have seen as many items as the list counts at that
    moment, so that an item taken out brings the end one item nearer. *)
From S2P Require Import Prelude Memory Effects Heap ArrayList.
Open Scope Z_scope.

(** [for(it = list, n = 0; n < ArrayList_get_count(list); ++it) if( *it ){ ++n; ... }]
    [act v]: the calls made for the item; [gone v]: whether it is taken out,
    with [remove].  The callbacks leave the list alone. *)
Fixpoint visit_loop (remove : option Z -> M (option ArrayList) unit) (act : ptr -> Datatypes.list event)
    (gone : ptr -> bool) (fuel : nat) (it n : Z) : M ArrayList unit :=
  match fuel with
  | O => lift Diverges
  | S k =>
      c ← gets count;
      if n <? c then
        v ← slot_load it;
        if v =? NULL then visit_loop remove act gone k (it + 1) n
        else emits (act v);; when (gone v) (here (remove (Some it)));;
             visit_loop remove act gone k (it + 1) (n + 1)
      else mret tt
  end.
Definition visit_items remove act gone : M ArrayList unit :=
  f ← gets array_fuel; visit_loop remove act gone f 0 0.

(** The loop on the items alone: what it leaves, and its calls.  [n] items were
    seen, [c] are counted. *)
Fixpoint sweep (act : ptr -> Datatypes.list event) (gone : ptr -> bool) (taken : ptr -> Datatypes.list event)
    (n c : Z) (xs : Datatypes.list ptr) : Datatypes.list ptr * Datatypes.list event :=
  match xs with
  | [] => ([], [])
  | x :: xs' =>
      if n <? c then
        let '(ys, t) := sweep act gone taken (n + 1) (if gone x then c - 1 else c) xs' in
        (if gone x then ys else x :: ys, act x ++ (if gone x then taken x else []) ++ t)
      else (xs, [])
  end.

Section sweep.
Context (act : ptr -> Datatypes.list event) (gone : ptr -> bool) (taken : ptr -> Datatypes.list event).

(** Nothing is taken out: every item is called, in order. *)
Lemma sweep_keeps xs : forall n c, n + blen xs <= c -> Forall (fun x => gone x = false) xs ->
  sweep act gone taken n c xs = (xs, concat (act <$> xs)).
Proof.
  induction xs as [|x xs IH]; intros n c Hc Hg; [done|]. inversion_clear Hg as [|? ? Hx Hxs].
  rewrite blen_cons in Hc. pose proof (blen_nonneg xs). cbn [sweep]. rewrite (proj2 (Z.ltb_lt _ _)) by lia.
  rewrite Hx, IH by (done || lia). done.
Qed.
(** What is left when [k] items fewer are looked at than there are: the last [k] stay. *)
Lemma sweep_skips xs : forall n c, c <= n -> sweep act gone taken n c xs = (xs, []).
Proof. intros n c H. destruct xs; cbn; [done|]. by rewrite (proj2 (Z.ltb_ge _ _)). Qed.
(** One item is taken out: the others stay. *)
Lemma sweep_one pre x post : forall n c, n + blen (pre ++ x :: post) <= c ->
  Forall (fun y => gone y = false) (pre ++ post) -> gone x = true ->
  (sweep act gone taken n c (pre ++ x :: post)).1 = pre ++ post.
Proof.
  assert (forall xs n c, Forall (fun y => gone y = false) xs -> (sweep act gone taken n c xs).1 = xs) as Hall.
  { induction xs as [|y xs IH]; intros n c Hg; [done|]. inversion_clear Hg as [|? ? Hy Hxs]. cbn [sweep].
    destruct (n <? c); [|done]. rewrite Hy. specialize (IH (n + 1) c Hxs). destruct (sweep _ _ _ _ _ _). cbn in *. by rewrite IH. }
  pose proof (blen_nonneg post).
  induction pre as [|y pre IH]; intros n c Hc Hg Hx; cbn [app sweep] in *; rewrite blen_cons in Hc.
  - rewrite (proj2 (Z.ltb_lt _ _)), Hx by lia. specialize (Hall post (n + 1) (c - 1) Hg).
    by destruct (sweep _ _ _ _ _ _).
  - rewrite blen_app, blen_cons in Hc. pose proof (blen_nonneg pre).
    inversion_clear Hg as [|? ? Hy Hg']. rewrite (proj2 (Z.ltb_lt _ _)), Hy by lia.
    specialize (IH (n + 1) c). rewrite blen_app, blen_cons in IH. specialize (IH ltac:(lia) Hg' Hx).
    destruct (sweep _ _ _ _ _ _). cbn in *. by rewrite IH.
Qed.
(** Every item is to go: half of them, rounded up, does. *)
Lemma sweep_all xs : forall n c, 0 <= c - n <= blen xs -> Forall (fun x => gone x = true) xs ->
  (sweep act gone taken n c xs).1 = drop (Z.to_nat ((c - n + 1) / 2)) xs.
Proof.
  induction xs as [|x xs IH]; intros n c Hc Hg; [by rewrite drop_nil|]. inversion_clear Hg as [|? ? Hx Hxs].
  rewrite blen_cons in Hc. cbn [sweep]. destruct (Z.ltb_spec n c) as [Hlt|Hge].
  - rewrite Hx. assert ((sweep act gone taken (n + 1) (c - 1) xs).1 = drop (Z.to_nat ((c - n - 1) / 2)) xs) as E.
    { destruct (decide (c - n = 1)) as [E1|Hn1]; [rewrite sweep_skips by lia; by rewrite E1|].
      rewrite IH by (done || lia). do 3 f_equal. lia. }
    replace (c - n + 1) with (c - n - 1 + 1 * 2) by lia. rewrite Z.div_add by lia.
    rewrite Z2Nat.inj_add by (try apply Z.div_pos; lia). rewrite Nat.add_comm. cbn [Z.to_nat Pos.to_nat Pos.iter_op Nat.add drop].
    destruct (sweep _ _ _ _ _ _). exact E.
  - by replace (c - n) with 0 by lia.
Qed.
End sweep.

Section visits.
Context (l : ArrayList) (remove : option Z -> M (option ArrayList) unit) (act : ptr -> Datatypes.list event) (gone : ptr -> bool)
  (taken : ptr -> Datatypes.list event).
(** [remove] empties the slot and counts one item less. *)
Hypothesis remove_ok : forall a v b c, 0 < c < 2 ^ 64 ->
  here (remove (Some (blen a))) (st l (a ++ v :: b) c) = Ok (tt, st l (a ++ NULL :: b) (c - 1), taken v).

(** From the slot behind [pre]: [n] items were seen, and of the items of [pre] some stayed. *)
Lemma visit_loop_ok cells : forall fuel pre n,
  (length cells < fuel)%nat -> blen (items_of pre) <= n -> blen (pre ++ cells) < 2 ^ 64 ->
  exists cells', visit_loop remove act gone fuel (blen pre) n (st l (pre ++ cells) (blen (items_of (pre ++ cells))))
      = Ok (tt, st l (pre ++ cells') (blen (items_of (pre ++ cells'))),
            (sweep act gone taken n (blen (items_of (pre ++ cells))) (items_of cells)).2) /\
    blen cells' = blen cells /\
    items_of cells' = (sweep act gone taken n (blen (items_of (pre ++ cells))) (items_of cells)).1.
Proof.
  induction cells as [|v cells IH]; intros fuel pre n Hf Hn Hb; (destruct fuel as [|fuel]; [cbn in Hf; lia|]); cbn [visit_loop].
  - exists []. rewrite app_nil_r in *. rewrite bind_gets. cbn [count st set_count]. rewrite (proj2 (Z.ltb_ge _ _)) by lia. done.
  - cbn in Hf. rewrite bind_gets. cbn [count st set_count]. set (c := blen (items_of (pre ++ v :: cells))).
    change (set_count c (set_list (Some (pre ++ v :: cells)) l)) with (st l (pre ++ v :: cells) c).
    pose proof (items_of_len (pre ++ v :: cells)) as Hlen. fold c in Hlen.
    assert (c = blen (items_of pre) + blen (items_of (v :: cells))) as Hc by (unfold c; by rewrite items_of_app, blen_app).
    destruct (Z.ltb_spec n c) as [Hlt|Hge].
    + rewrite (bind_quiet _ _ _ _ _ (slot_load_middle l pre v cells c)).
      specialize (IH fuel). rewrite items_of_cons in Hc |- *. destruct (Z.eqb_spec v NULL) as [->|Hv].
      * specialize (IH (pre ++ [NULL]) n ltac:(lia)). rewrite items_of_app, items_of_cons in IH. cbn in IH.
        rewrite app_nil_r, <- app_assoc, blen_snoc in IH. destruct (IH Hn Hb) as (cells' & E & Hl & Hi). fold c in E, Hi.
        rewrite <- app_assoc in E. exists (NULL :: cells'). rewrite !blen_cons, items_of_cons. cbn. split; [done|]. split; [lia|done].
      * cbn [sweep]. rewrite (proj2 (Z.ltb_lt _ _)) by lia.
        pose proof (blen_nonneg (items_of pre)).
        rewrite (bind_Ok _ _ _ tt (st l (pre ++ v :: cells) c) (act v)) by done. destruct (gone v) eqn:Hg; cbn [when].
        -- rewrite (bind_Ok _ _ _ _ _ _ (remove_ok pre v cells c ltac:(lia))).
           specialize (IH (pre ++ [NULL]) (n + 1) ltac:(lia)).
           rewrite <- app_assoc, blen_snoc in IH. rewrite !items_of_app, items_of_cons in IH. cbn in IH. rewrite app_nil_r in IH.
           assert (blen (items_of pre ++ items_of cells) = c - 1) as Ec by (rewrite blen_app; rewrite blen_cons in Hc; lia).
           rewrite Ec in IH. destruct IH as (cells' & E & Hl & Hi); [lia|by rewrite blen_app, blen_cons in *|].
           destruct (sweep act gone taken (n + 1) (c - 1) (items_of cells)) as [ys t]. cbn in Hi, E. rewrite E.
           exists (NULL :: cells'). rewrite <- app_assoc. cbn [app].
           rewrite !blen_cons, items_of_cons. split; [done|]. split; [lia|exact Hi].
        -- rewrite bind_mret. specialize (IH (pre ++ [v]) (n + 1) ltac:(lia)).
           rewrite <- app_assoc, blen_snoc in IH. cbn [app] in IH. fold c in IH.
           assert (items_of (pre ++ [v]) = items_of pre ++ [v]) as Ev
             by (rewrite items_of_app, items_of_cons, (proj2 (Z.eqb_neq v NULL)); done).
           rewrite Ev, blen_snoc in IH. destruct IH as (cells' & E & Hl & Hi); [lia|done|].
           destruct (sweep act gone taken (n + 1) c (items_of cells)) as [ys t]. cbn in Hi, E. rewrite E.
           exists (v :: cells'). rewrite <- app_assoc. cbn [app].
           rewrite !blen_cons, (items_of_cons v cells'), (proj2 (Z.eqb_neq v NULL)) by done.
           split; [done|]. split; [lia|]. cbn. by rewrite Hi.
    + exists (v :: cells). rewrite sweep_skips by lia. done.
Qed.
(** Where nothing is taken out the list is as before. *)
Lemma visit_loop_keeps cells c : forall fuel pre,
  Forall (fun v => gone v = false) (items_of cells) -> (length cells < fuel)%nat -> c = blen (items_of (pre ++ cells)) ->
  visit_loop remove act gone fuel (blen pre) (blen (items_of pre)) (st l (pre ++ cells) c)
  = Ok (tt, st l (pre ++ cells) c, concat (act <$> items_of cells)).
Proof.
  induction cells as [|v cells IH]; intros fuel pre Hg Hf Hc; (destruct fuel as [|fuel]; [cbn in Hf; lia|]); cbn [visit_loop];
    rewrite bind_gets; cbn [count st set_count].
  - rewrite app_nil_r in *. by rewrite (proj2 (Z.ltb_ge _ _)) by lia.
  - cbn in Hf. change (set_count c (set_list (Some (pre ++ v :: cells)) l)) with (st l (pre ++ v :: cells) c).
    specialize (IH fuel (pre ++ [v])). rewrite <- app_assoc, blen_snoc, !items_of_app, (items_of_cons v []) in IH. cbn [app] in IH.
    rewrite items_of_app, items_of_cons in Hc. rewrite items_of_cons in Hg |- *.
    pose proof (blen_nonneg (items_of cells)). change (items_of []) with (@nil ptr) in IH.
    destruct (Z.eqb_spec v NULL) as [->|Hv]; cbn [app] in IH.
    + rewrite app_nil_r in IH. rewrite blen_app in Hc. case_cmp.
      * rewrite (bind_quiet _ _ _ _ _ (slot_load_middle l pre NULL cells c)). cbn. apply IH; [done|lia|by rewrite blen_app].
      * destruct (items_of cells) as [|x xs]; [done|]. rewrite blen_cons in Hc. pose proof (blen_nonneg xs). lia.
    + inversion_clear Hg as [|? ? Hx Hxs]. rewrite blen_app, blen_cons in Hc. rewrite (proj2 (Z.ltb_lt _ _)) by lia.
      rewrite (bind_quiet _ _ _ _ _ (slot_load_middle l pre v cells c)). rewrite (proj2 (Z.eqb_neq v NULL)) by done.
      rewrite (bind_Ok _ _ _ tt (st l (pre ++ v :: cells) c) (act v)) by done. rewrite Hx. cbn [when]. rewrite bind_mret.
      rewrite blen_snoc in IH. rewrite IH; [done|done|lia|]. rewrite blen_app, blen_cons. lia.
Qed.
Lemma visit_items_keep : wf l -> Forall (fun v => gone v = false) (items l) ->
  visit_items remove act gone l = Ok (tt, l, concat (act <$> items l)).
Proof.
  intros Hwf Hg. unfold visit_items. rewrite bind_gets.
  destruct (wf_cases l Hwf) as [(Hl & Hcap & Hc)|(cells & Hl & Hs & Hb & Hp & Hc)].
  - unfold items, slots, array_fuel. rewrite Hl. cbn [visit_loop]. by rewrite bind_gets, Hc.
  - unfold items in *. rewrite Hs in *. unfold array_fuel. rewrite Hl.
    pose proof (visit_loop_keeps cells (count l) (S (S (length cells))) [] Hg ltac:(lia) Hc) as E.
    cbn [app] in E. by rewrite <- (st_id l cells Hl) in E.
Qed.
(** The loop over a well-formed list is the one over its items. *)
Lemma visit_items_ok : wf l ->
  let '(xs, t) := sweep act gone taken 0 (count l) (items l) in
  exists l', visit_items remove act gone l = Ok (tt, l', t) /\ wf l' /\ items l' = xs /\ capacity l' = capacity l /\
    max_cap l' = max_cap l /\ free_item l' = free_item l /\ use_mutex l' = use_mutex l /\ mutex_held l' = mutex_held l.
Proof.
  intros Hwf. pose proof Hwf as [_ _ Hct [Hm Hx]]. unfold ULONG_MAX in Hx. unfold visit_items. rewrite bind_gets.
  destruct (wf_cases l Hwf) as [(Hl & Hcap & Hc)|(cells & Hl & Hs & Hb & Hp & Hc)].
  - unfold items, slots, array_fuel. rewrite Hl, Hc. exists l. rewrite Hl. split; [|done]. cbn [visit_loop]. by rewrite bind_gets, Hc.
  - pose proof (visit_loop_ok cells (S (S (length cells))) [] 0) as E. cbn [app] in E.
    change (@blen ptr []) with 0 in E. change (items_of []) with (@nil ptr) in E. change (@blen ptr []) with 0 in E.
    destruct E as (cells' & E & Hlen & Hi); [lia|lia|lia|].
    assert (items l = items_of cells) as Hit by (unfold items; by rewrite Hs). rewrite Hct, Hit.
    assert (l = st l cells (blen (items_of cells))) as El by (rewrite <- Hc; by apply st_id).
    destruct (sweep act gone taken 0 (blen (items_of cells)) (items_of cells)) as [xs t].
    exists (st l cells' (blen (items_of cells'))). unfold array_fuel. rewrite Hl. rewrite El at 1. split; [exact E|].
    split; [apply st_wf; [lia|lia|unfold ULONG_MAX; lia|done]|]. done.
Qed.
End visits.

(** * What a loop leaves and what it takes out *)
Definition freed_ptrs (t : Datatypes.list event) : Datatypes.list ptr :=
  omap (fun e => match e with EvFree p => Some p | _ => None end) t.
Lemma freed_ptrs_app t u : freed_ptrs (t ++ u) = freed_ptrs t ++ freed_ptrs u.
Proof. unfold freed_ptrs. by rewrite omap_app. Qed.
Section freed.
Context (act : ptr -> Datatypes.list event) (gone : ptr -> bool).
Hypothesis act_frees : forall v, freed_ptrs (act v) = [].
Notation sweep := (sweep act gone (fun v => [EvFree v])).

(** Every item is left or freed, and only once. *)
Lemma sweep_partition xs : forall n c, (sweep n c xs).1 ++ freed_ptrs (sweep n c xs).2 ≡ₚ xs.
Proof.
  induction xs as [|x xs IH]; intros n c; cbn [Registry.sweep]; [done|].
  destruct (n <? c); [|cbn [fst snd]; by rewrite app_nil_r]. specialize (IH (n + 1) (if gone x then c - 1 else c)).
  destruct (sweep _ _ xs) as [ys t]. cbn [fst snd] in *. rewrite !freed_ptrs_app, act_frees.
  destruct (gone x).
  - change (freed_ptrs [EvFree x]) with [x]. cbn [app]. by rewrite <- Permutation_middle, IH.
  - change (freed_ptrs []) with (@nil ptr). cbn [app]. by rewrite IH.
Qed.
(** The item before the last one is taken out: the last one is not looked at. *)
Lemma sweep_last_skipped pre x y : Forall (fun v => gone v = false) pre -> gone x = true ->
  sweep 0 (blen (pre ++ [x; y])) (pre ++ [x; y]) = (pre ++ [y], concat (act <$> pre) ++ act x ++ [EvFree x]).
Proof.
  intros Hpre Hx. assert (forall n c, c - n = blen (pre ++ [x; y]) ->
    sweep n c (pre ++ [x; y]) = (pre ++ [y], concat (act <$> pre) ++ act x ++ [EvFree x])) as H; [|apply H; lia].
  induction Hpre as [|v pre Hv _ IH]; intros n c Hc; cbn [app] in *; rewrite !blen_cons in Hc.
  - change (@blen ptr []) with 0 in Hc. cbn [Registry.sweep]. rewrite (proj2 (Z.ltb_lt n c)), Hx by lia.
    rewrite (proj2 (Z.ltb_ge (n + 1) (c - 1))) by lia. by rewrite app_nil_r.
  - pose proof (blen_nonneg (pre ++ [x; y])). cbn [Registry.sweep]. rewrite (proj2 (Z.ltb_lt n c)), Hv by lia. rewrite IH by lia.
    cbn. by rewrite <- app_assoc.
Qed.
End freed.
