(* ===== verification/ProcWaiter.v ===== *)
(** The process waiter, [source/proc_waiter.c]: a thread that waits for child
    processes and calls what is registered for them.  The state is the file's
    globals and the registered records on the heap.  What the system decides is
    an argument: the allocations, whether a thread is created, joined or
    cancelled, and what [wait()] returns.  The thread is a state machine whose
    states are the loop's guard, [wait()], and the waits for the condition. *)
From stdpp Require Import gmap.
From S2P Require Import Prelude Memory Effects Heap AlibTime AlibTypes ArrayList Registry.
Open Scope Z_scope.

Record proc_waiter := mkWaiter { pid : Z; cb : ptr; user_data : ptr }.
Definition THREAD_CREATED : Z := 1.
Definition THREAD_IS_RUNNING : Z := 2.
Definition THREAD_STOP : Z := 4.
(** [PROC_WAITER_THREAD], [_T_COND] and [_MUTEX]: whether they are allocated. *)
Record world := mkWorld {
  cb_list : option ArrayList; thread : bool; t_cond : bool; mutex : bool; mutex_locked : bool;
  pole : Z; sleep_time : Z; waiters : gmap ptr proc_waiter }.
Definition initial (sleep : Z) : world := mkWorld None false false false false 0 sleep ∅.
Definition set_cb_list l w := mkWorld l (thread w) (t_cond w) (mutex w) (mutex_locked w) (pole w) (sleep_time w) (waiters w).
Definition set_thread b w := mkWorld (cb_list w) b (t_cond w) (mutex w) (mutex_locked w) (pole w) (sleep_time w) (waiters w).
Definition set_cond b w := mkWorld (cb_list w) (thread w) b (mutex w) (mutex_locked w) (pole w) (sleep_time w) (waiters w).
Definition set_mutex b w := mkWorld (cb_list w) (thread w) (t_cond w) b (mutex_locked w) (pole w) (sleep_time w) (waiters w).
Definition set_mutex_locked b w := mkWorld (cb_list w) (thread w) (t_cond w) (mutex w) b (pole w) (sleep_time w) (waiters w).
Definition set_pole p w := mkWorld (cb_list w) (thread w) (t_cond w) (mutex w) (mutex_locked w) p (sleep_time w) (waiters w).
Definition set_sleep s w := mkWorld (cb_list w) (thread w) (t_cond w) (mutex w) (mutex_locked w) (pole w) s (waiters w).
Definition set_waiters m w := mkWorld (cb_list w) (thread w) (t_cond w) (mutex w) (mutex_locked w) (pole w) (sleep_time w) m.

Definition raised (flag : Z) : M world bool := p ← gets pole; mret (negb (Z.land p flag =? 0)).
Definition raise (flag : Z) : M world unit := modify (fun w => set_pole (flag_raise (pole w) flag) w).
Definition lower (flag : Z) : M world unit := modify (fun w => set_pole (flag_lower (pole w) flag) w).
(** [pthread_mutex_lock(PROC_WAITER_MUTEX)]; it is not recursive. *)
Definition lock_mutex : M world unit := fun w =>
  if negb (mutex w) then UB NullDeref else if mutex_locked w then Diverges else Ok (tt, set_mutex_locked true w, [EvLock]).
Definition unlock_mutex : M world unit := fun w =>
  if negb (mutex w) then UB NullDeref else Ok (tt, set_mutex_locked false w, [EvUnlock]).

(** A call on the list; the records that its free callback is given are released. *)
Definition on_list {A} (m : M (option ArrayList) A) : M world A := fun w =>
  '(a, l, t) ← m (cb_list w);
  Ok (a, set_waiters (foldr delete (waiters w) (freed_ptrs t)) (set_cb_list l w), t).

Definition proc_waiter_is_initialized : M world bool :=
  gets (fun w => mutex w && thread w && t_cond w && match cb_list w with Some _ => true | None => false end).

(** * Allocation *)
Record grants := mkGrants { g_list : bool; g_thread : bool; g_mutex : bool; g_cond : bool }.
Definition allocate_list (g : grants) : M world Z :=
  l ← gets cb_list;
  match l with
  | Some _ => mret ALIB_OK
  | None => '(l, t) ← lift (newArrayList_ex (g_list g) true true 0 0 true);
            modify (set_cb_list l);; emits t;;
            mret (match l with None => ALIB_MEM_ERR | Some _ => ALIB_OK end)
  end.
Definition allocate_one (have : world -> bool) (ok : bool) (set : bool -> world -> world) (init : M world unit) : M world Z :=
  b ← gets have;
  if b : bool then mret ALIB_OK else
  if negb ok then mret ALIB_MEM_ERR else modify (set true);; init;; mret ALIB_OK.
Definition allocate_globals (g : grants) : M world Z :=
  e ← allocate_list g; if negb (e =? ALIB_OK) then mret e else
  e ← allocate_one thread (g_thread g) set_thread (mret tt); if negb (e =? ALIB_OK) then mret e else
  e ← allocate_one mutex (g_mutex g) set_mutex (emit EvMutexInit); if negb (e =? ALIB_OK) then mret e else
  allocate_one t_cond (g_cond g) set_cond (mret tt).

(** * The thread *)

(** Where the thread is: at the loop's guard, blocked in [wait()], in one of its
    waits for the condition, or over. *)
Inductive thread_state :=
| AtGuard
| InWait                           (* until a child exits, or there is none *)
| WaitEmpty                        (* until something is registered or it is stopped *)
| WaitWakeup                       (* until the condition is broadcast *)
| WaitUntil (t : timespec)         (* or until a time *)
| Over.
(** What the thread does with a process that exited. *)
Definition matches (p : Z) (ws : gmap ptr proc_waiter) (v : ptr) : bool :=
  match ws !! v with Some w => (pid w <? 0) || (pid w =? p) | None => false end.
Definition calls (p status : Z) (ws : gmap ptr proc_waiter) (v : ptr) : Datatypes.list event :=
  match ws !! v with
  | Some w => if matches p ws v && negb (cb w =? NULL) then [EvCall (cb w) [p; status; user_data w]] else []
  | None => []
  end.
Definition leaves (p : Z) (ws : gmap ptr proc_waiter) (v : ptr) : bool :=
  match ws !! v with Some w => matches p ws v && (pid w >? -1) | None => false end.
(** Every item of the list has a record. *)
Definition known (l : option ArrayList) (ws : gmap ptr proc_waiter) : bool :=
  match l with Some l => forallb (fun v => bool_decide (is_Some (ws !! v))) (items l) | None => true end.
Definition check_items : M world unit :=
  l ← gets cb_list; ws ← gets waiters; lift (if known l ws then Ok tt else UB Dangling).
Definition dispatch (p status : Z) : M world unit :=
  on_list ArrayList_lock;;
  check_items;; ws ← gets waiters;
  on_list (no_guard (visit_items ArrayList_remove_by_ptr (calls p status ws) (leaves p ws)));;
  on_list ArrayList_unlock.

Definition stopping : M world bool := raised THREAD_STOP.
(** [pthread_cond_broadcast(PROC_WAITER_T_COND)]. *)
Definition broadcast : M world unit := c ← gets t_cond; if c : bool then emit EvBroadcast else lift (UB NullDeref).
Definition exit_thread : M world thread_state := lower THREAD_IS_RUNNING;; broadcast;; mret Over.
(** A wait for the condition begins with the mutex released, and ends with it locked. *)
Definition cond_wait (s : thread_state) : M world thread_state := unlock_mutex;; mret s.
(** [now]: the clock; the sleep time is added to the nanoseconds. *)
Definition wait_for_children (now : timespec) : M world thread_state :=
  l ← gets cb_list;
  match l with
  | None => unlock_mutex;; exit_thread
  | Some _ =>
      c ← on_list ArrayList_get_count;
      if c =? 0 then (stop ← stopping; if stop : bool then unlock_mutex;; mret AtGuard else cond_wait WaitEmpty)
      else s ← gets sleep_time;
           if s <? 0 then cond_wait WaitWakeup
           else n ← lift (slong (tv_nsec now + s)); '(_, t) ← lift (timespec_fix_values (mkTimespec (tv_sec now) n)); cond_wait (WaitUntil t)
  end.
Definition at_guard : M world thread_state :=
  l ← gets cb_list; stop ← stopping;
  if (match l with None => true | Some _ => false end) || stop then exit_thread else mret InWait.
(** [wait()] returns [waited]: a pid and a status, a pid below 0 when there are no children. *)
Definition wait_returns (now : timespec) (waited : Z * Z) : M world thread_state :=
  let '(p, status) := waited in
  if p <? 0 then lock_mutex;; wait_for_children now else dispatch p status;; mret AtGuard.
(** A step of the thread.  [woken]: the condition has been broadcast since the
    wait for it began; a wait that is not over goes on. *)
Definition thread_step (now : timespec) (waited : Z * Z) (woken : bool) (s : thread_state) : M world thread_state :=
  match s with
  | AtGuard => at_guard
  | InWait => wait_returns now waited
  | WaitEmpty =>
      if negb woken then mret s else
      lock_mutex;;
      l ← gets cb_list; c ← (match l with Some _ => on_list ArrayList_get_count | None => mret 0 end); stop ← stopping;
      if (match l with None => false | Some _ => true end) && (c =? 0) && negb stop then cond_wait WaitEmpty
      else unlock_mutex;; mret AtGuard
  | WaitWakeup => if negb woken then mret s else lock_mutex;; unlock_mutex;; mret AtGuard
  | WaitUntil t => if negb (woken || (total t <=? total now)) then mret s else lock_mutex;; unlock_mutex;; mret AtGuard
  | Over => mret Over
  end.
(** The beginning of [thread_proc]. *)
Definition thread_start : M world thread_state :=
  b ← proc_waiter_is_initialized; if negb b then mret Over else raise THREAD_IS_RUNNING;; mret AtGuard.

(** * Stopping and starting *)
Definition proc_waiter_stop : M world unit :=
  b ← proc_waiter_is_initialized; if negb b then mret tt else raise THREAD_STOP;; broadcast.
(** [joined]: whether [pthread_join] succeeds. *)
Definition proc_waiter_stop_wait (joined : bool) : M world unit :=
  b ← proc_waiter_is_initialized; if negb b then mret tt else
  proc_waiter_stop;;
  created ← raised THREAD_CREATED;
  when created (when joined (lower THREAD_IS_RUNNING));;
  lower THREAD_CREATED.
Definition proc_waiter_stop_now (cancelled : bool) : M world unit :=
  proc_waiter_stop;;
  created ← raised THREAD_CREATED;
  when created (when cancelled (lower THREAD_IS_RUNNING);; lower THREAD_CREATED).
(** [created]: whether [pthread_create] succeeds. *)
Definition proc_waiter_start (g : grants) (cancelled created : bool) : M world Z :=
  err ← allocate_globals g;
  if negb (err =? ALIB_OK) then mret err else
  lock_mutex;;
  lower THREAD_STOP;;
  running ← raised THREAD_IS_RUNNING; have ← raised THREAD_CREATED;
  if running && have then unlock_mutex;; mret ALIB_OK else
  when running (proc_waiter_stop_now cancelled);;
  raise (Z.lor THREAD_IS_RUNNING THREAD_CREATED);;
  (if created : bool then unlock_mutex;; mret ALIB_OK
   else lower (Z.lor THREAD_IS_RUNNING THREAD_CREATED);; unlock_mutex;; mret ALIB_THREAD_ERR).
Definition proc_waiter_wakeup : M world unit := c ← gets t_cond; when c broadcast.

(** * Registering *)

(** [p]: the memory of the new record, NULL when [malloc] fails; [grow]: the
    list's own allocation. *)
Definition proc_waiter_register_no_start (g : grants) (p : ptr) (grow : bool) (wpid : Z) (proc_exited data : ptr)
    : M world Z :=
  b ← proc_waiter_is_initialized;
  if negb b then mret ALIB_STATE_ERR else
  if p =? NULL then mret ALIB_MEM_ERR else
  modify (fun w => set_waiters (<[p := mkWaiter wpid proc_exited data]> (waiters w)) w);;
  err ← allocate_globals g;
  if negb (err =? ALIB_OK) then modify (fun w => set_waiters (delete p (waiters w)) w);; mret err else
  r ← on_list (ArrayList_add grow p);
  if r =? 0 then modify (fun w => set_waiters (delete p (waiters w)) w);; mret ALIB_MEM_ERR
  else broadcast;; mret ALIB_OK.
Definition proc_waiter_register (g : grants) (p : ptr) (grow cancelled created : bool) (wpid : Z) (proc_exited data : ptr)
    : M world Z :=
  err ← proc_waiter_register_no_start g p grow wpid proc_exited data;
  if negb (err =? ALIB_OK) then mret err else proc_waiter_start g cancelled created.

(** The waiters that the arguments name: those below 0, or NULL, name all. *)
Definition named (wpid : Z) (proc_exited data : ptr) (ws : gmap ptr proc_waiter) (v : ptr) : bool :=
  match ws !! v with
  | Some w => ((wpid <? 0) || (pid w =? wpid)) && ((proc_exited =? NULL) || (cb w =? proc_exited))
              && ((data =? NULL) || (user_data w =? data))
  | None => false
  end.
Definition proc_waiter_deregister (wpid : Z) (proc_exited data : ptr) : M world unit :=
  b ← proc_waiter_is_initialized; if negb b then mret tt else
  check_items;; ws ← gets waiters;
  on_list (no_guard (visit_items ArrayList_remove_by_ptr (fun _ => []) (named wpid proc_exited data ws)));;
  broadcast.
Definition proc_waiter_deregister_all (grow : bool) : M world unit :=
  b ← proc_waiter_is_initialized; if negb b then mret tt else on_list (ArrayList_resize grow 0);; broadcast.

Definition free_proc_waiter (cancelled joined : bool) : M world unit :=
  proc_waiter_stop_now cancelled;; proc_waiter_stop_wait joined;;
  on_list delArrayList;;
  modify (set_thread false);; modify (set_cond false);;
  m ← gets mutex; when m (emit EvMutexDestroy;; modify (set_mutex false));;
  modify (set_pole 0).

(** * Thread-safe functions *)
Definition proc_waiter_register_no_start_tsafe g p grow wpid proc_exited data : M world Z :=
  allocate_globals g;; on_list ArrayList_lock;;
  err ← proc_waiter_register_no_start g p grow wpid proc_exited data; on_list ArrayList_unlock;; mret err.
Definition proc_waiter_register_tsafe g p grow cancelled created wpid proc_exited data : M world Z :=
  allocate_globals g;; on_list ArrayList_lock;;
  err ← proc_waiter_register g p grow cancelled created wpid proc_exited data; on_list ArrayList_unlock;; mret err.
Definition proc_waiter_deregister_tsafe wpid proc_exited data : M world unit :=
  l ← gets cb_list;
  match l with
  | None => mret tt
  | Some _ => on_list ArrayList_lock;; proc_waiter_deregister wpid proc_exited data;; on_list ArrayList_unlock
  end.
Definition proc_waiter_deregister_all_tsafe grow : M world unit :=
  l ← gets cb_list;
  match l with
  | None => mret tt
  | Some _ => on_list ArrayList_lock;; proc_waiter_deregister_all grow;; on_list ArrayList_unlock
  end.

(** * Getters and setters *)
Definition proc_waiter_is_running : M world bool := raised THREAD_IS_RUNNING.
Definition proc_waiter_get_sleep_time : M world Z := gets sleep_time.
Definition proc_waiter_set_sleep_time (s : Z) : M world unit := modify (set_sleep s).
