(* ===== verification/ProcWaiterSpec.v ===== *)
(** What the process waiter does: which callbacks an exited process calls and
    which are forgotten, when its thread ends once it is told to stop, what
    registering needs, and what freeing it leaves. *)
From stdpp Require Import gmap.
From S2P Require Import Prelude Memory Effects Heap AlibTime AlibTypes ArrayList ArrayListSpec Registry ProcWaiter.
Open Scope Z_scope.

(** * The registered waiters *)

(** Each item of the list is a different record on the heap. *)
Record registry (w : world) (l : ArrayList) : Prop := {
  rg_list : cb_list w = Some l;
  rg_wf : wf l;
  rg_free : free_item l = true;
  rg_mutex : use_mutex l = true;
  rg_items : NoDup (items l);
  rg_known : forall v, v ∈ items l -> is_Some (waiters w !! v) }.

Lemma bind_on_list {A B} (m : M (option ArrayList) A) (k : A -> M world B) w a l t :
  m (cb_list w) = Ok (a, l, t) ->
  mbind k (on_list m) w = ('(b, w', t') ← k a (set_waiters (foldr delete (waiters w) (freed_ptrs t)) (set_cb_list l w)); Ok (b, w', t ++ t')).
Proof. intros H. apply bind_Ok. unfold on_list. by rewrite H. Qed.
Lemma on_cb_list_ok {A} (m : M (option ArrayList) A) w a l t :
  m (cb_list w) = Ok (a, l, t) ->
  on_list m w = Ok (a, set_waiters (foldr delete (waiters w) (freed_ptrs t)) (set_cb_list l w), t).
Proof. intros H. unfold on_list. by rewrite H. Qed.
Lemma no_guard_ok {A} (m : M ArrayList A) l a l' t : m l = Ok (a, l', t) -> no_guard m (Some l) = Ok (a, Some l', t).
Proof. intros H. unfold no_guard. cbn. by rewrite H. Qed.

Lemma lookup_foldr_delete (ws : gmap ptr proc_waiter) ps v : v ∉ ps -> foldr delete ws ps !! v = ws !! v.
Proof.
  induction ps as [|p ps IH]; intros Hv; cbn; [done|]. apply not_elem_of_cons in Hv as [Hp Hv].
  by rewrite lookup_delete_ne, IH.
Qed.
Lemma foldr_delete_none (ws : gmap ptr proc_waiter) ps v : v ∈ ps -> foldr delete ws ps !! v = None.
Proof.
  induction ps as [|p ps IH]; [by intros ?%elem_of_nil|]. cbn. intros [->|Hv]%elem_of_cons; [apply lookup_delete_eq|].
  destruct (decide (v = p)) as [->|Hne]; [apply lookup_delete_eq|]. rewrite lookup_delete_ne by done. by apply IH.
Qed.
Lemma check_items_ok w l : registry w l -> check_items w = Ok (tt, w, []).
Proof.
  intros [Hl _ _ _ _ Hk]. unfold check_items. rewrite !bind_gets. unfold known. rewrite Hl.
  assert (forallb (fun v => bool_decide (is_Some (waiters w !! v))) (items l) = true) as ->; [|done].
  apply forallb_forall. intros v Hv. apply bool_decide_eq_true, Hk, list_elem_of_In, Hv.
Qed.

(** A loop over the items that takes out [gone], and what is left of the registry. *)
Lemma visit_registry w l act gone : registry w l -> (forall v, freed_ptrs (act v) = []) ->
  let '(xs, t) := sweep act gone (fun v => [EvFree v]) 0 (count l) (items l) in
  exists l', visit_items ArrayList_remove_by_ptr act gone l = Ok (tt, l', t) /\ items l' = xs /\
    let w' := set_waiters (foldr delete (waiters w) (freed_ptrs t)) (set_cb_list (Some l') w) in
    registry w' l' /\ mutex_held l' = mutex_held l /\ forall v, v ∈ xs -> waiters w' !! v = waiters w !! v.
Proof.
  intros [Hl Hwf Hf Hu Hnd Hk] Hact. pose proof (sweep_partition act gone Hact (items l) 0 (count l)) as Hp.
  pose proof (visit_items_ok l ArrayList_remove_by_ptr act gone (fun v => [EvFree v])) as Hv.
  destruct (sweep act gone _ 0 (count l) (items l)) as [xs t]. cbn [fst snd] in Hp.
  destruct Hv as (l' & E & Hwf' & Hi & _ & _ & Hf' & Hu' & Hm'); [|done|].
  { intros a v b c Hc. by rewrite remove_by_ptr_middle, Hf. }
  exists l'. split; [done|]. split; [done|]. cbv zeta.
  rewrite <- Hp in Hnd. apply list.NoDup_app in Hnd as (Hnx & Hdis & _).
  assert (forall v, v ∈ xs -> foldr delete (waiters w) (freed_ptrs t) !! v = waiters w !! v) as Hsame.
  { intros v Hv. apply lookup_foldr_delete. by apply Hdis. }
  split; [|by rewrite Hm']. split; cbn; try done; [congruence|congruence|by rewrite Hi|].
  intros v Hv. rewrite Hi in Hv. rewrite Hsame by done. apply Hk. rewrite <- Hp. by apply elem_of_app; left.
Qed.
Lemma set_lists_twice a b w ws ws' :
  set_waiters ws (set_cb_list a (set_waiters ws' (set_cb_list b w))) = set_waiters ws (set_cb_list a w).
Proof. done. Qed.

Lemma calls_free p status ws v : freed_ptrs (calls p status ws v) = [].
Proof. unfold calls. destruct (ws !! v) as [w|]; [|done]. by destruct (_ && _). Qed.

Lemma lock_list l : use_mutex l = true -> mutex_held l = false ->
  ArrayList_lock (Some l) = Ok (tt, Some (set_mutex_held true l), [EvLock]) /\
  ArrayList_unlock (Some (set_mutex_held true l)) = Ok (tt, Some l, [EvUnlock]).
Proof.
  intros Hu Hm. unfold ArrayList_lock, ArrayList_unlock, mutex_lock, mutex_unlock. mstep. cbn. rewrite Hu, Hm. cbn.
  split; [done|]. do 3 f_equal. destruct l. cbn in *. by subst.
Qed.
Lemma registry_held w l b : registry w l -> registry (set_cb_list (Some (set_mutex_held b l)) w) (set_mutex_held b l).
Proof. intros [Hl Hwf Hf Hu Hnd Hk]. split; try done. by destruct Hwf; split. Qed.
Lemma registry_same w w' l : cb_list w' = cb_list w -> waiters w' = waiters w -> registry w l -> registry w' l.
Proof. intros Hl Hw [? ? ? ? ? Hk]. split; try done; [congruence|by rewrite Hw]. Qed.

(** The callbacks' part of a dispatch: what stays and what is called. *)
Definition dispatched (p status : Z) (w : world) (l : ArrayList) : Datatypes.list ptr * Datatypes.list event :=
  sweep (calls p status (waiters w)) (leaves p (waiters w)) (fun v => [EvFree v]) 0 (count l) (items l).

(** A process that exited: between one lock and one unlock of the list the callbacks registered for it, and those
    for any process, are called in the list's order with its pid, its status and their own data, and those
    registered for its pid are taken out and freed; the others keep their records. *)
Lemma dispatch_ok (w : world) (l : ArrayList) (p status : Z) :
  registry w l -> mutex_held l = false ->
  let '(xs, t) := dispatched p status w l in
  exists l', dispatch p status w = Ok (tt, set_waiters (foldr delete (waiters w) (freed_ptrs t)) (set_cb_list (Some l') w),
                                       EvLock :: t ++ [EvUnlock]) /\
    items l' = xs /\ mutex_held l' = false /\
    let w' := set_waiters (foldr delete (waiters w) (freed_ptrs t)) (set_cb_list (Some l') w) in
    registry w' l' /\ (forall v, v ∈ xs -> waiters w' !! v = waiters w !! v) /\ xs ++ freed_ptrs t ≡ₚ items l.
Proof.
  intros Hr Hm. pose proof Hr as [Hl _ _ Hu _ _]. unfold dispatched.
  pose proof (sweep_partition (calls p status (waiters w)) (leaves p (waiters w)) (calls_free p status (waiters w)) (items l) 0 (count l)) as Hp.
  pose proof (visit_registry _ _ (calls p status (waiters w)) (leaves p (waiters w)) (registry_held w l true Hr)
    (calls_free p status (waiters w))) as Hv.
  change (count (set_mutex_held true l)) with (count l) in Hv. change (items (set_mutex_held true l)) with (items l) in Hv.
  destruct (sweep _ _ _ 0 (count l) (items l)) as [xs t]. cbn [fst snd] in Hp.
  destruct Hv as (l1 & E & Hi & Hr1 & Hm1 & Hsame). exists (set_mutex_held false l1).
  destruct (lock_list l Hu Hm) as [El _].
  assert (dispatch p status w = Ok (tt, set_waiters (foldr delete (waiters w) (freed_ptrs t)) (set_cb_list (Some (set_mutex_held false l1)) w),
                                       EvLock :: t ++ [EvUnlock])) as Ed.
  { unfold dispatch. erewrite bind_on_list by (rewrite Hl; exact El). cbn [freed_ptrs omap foldr].
    pose proof (check_items_ok _ _ (registry_same _ (set_waiters (waiters w) (set_cb_list (Some (set_mutex_held true l)) w)) _ eq_refl eq_refl
      (registry_held w l true Hr))) as Ec.
    rewrite (bind_quiet _ _ _ _ _ Ec), bind_gets. cbn [waiters set_waiters].
    erewrite bind_on_list by (cbn [cb_list set_waiters set_cb_list]; apply no_guard_ok; exact E). cbn [waiters set_waiters set_cb_list].
    destruct Hr1 as [_ _ _ Hu1 _ _]. cbn in Hm1.
    assert (ArrayList_unlock (Some l1) = Ok (tt, Some (set_mutex_held false l1), [EvUnlock])) as Eu.
    { destruct (lock_list (set_mutex_held false l1) Hu1 eq_refl) as [_ Eu]. rewrite <- Eu. do 2 f_equal. destruct l1. cbn in *. by subst. }
    erewrite on_cb_list_ok by exact Eu. done. }
  split; [exact Ed|]. split; [done|]. split; [done|]. cbv zeta. split; [|by split].
  apply (registry_held _ l1 false) in Hr1. eapply registry_same; [..|exact Hr1]; done.
Qed.

(** C37: a process [p] exits.  Where no waiter is registered for exactly this process, the callbacks for any process are all called,
    in the list's order.  A waiter that alone is registered for it is taken out, its record freed, and every other one stays.  But the end of
    the loop moves with the removal: a waiter for [p] that stands last but one is called, and the last waiter is
    not, even when it is registered for any process. *)
Theorem dispatch_calls (w : world) (l : ArrayList) (p status : Z) :
  registry w l -> mutex_held l = false ->
  let ws := waiters w in
  (Forall (fun v => leaves p ws v = false) (items l) ->
   exists l' w', dispatch p status w = Ok (tt, w', EvLock :: concat (calls p status ws <$> items l) ++ [EvUnlock]) /\
     registry w' l' /\ items l' = items l) /\
  (forall pre x post, items l = pre ++ x :: post -> leaves p ws x = true ->
     Forall (fun v => leaves p ws v = false) (pre ++ post) ->
     exists l' w' t, dispatch p status w = Ok (tt, w', t) /\ registry w' l' /\ items l' = pre ++ post /\ waiters w' !! x = None) /\
  (forall pre x y, items l = pre ++ [x; y] -> leaves p ws x = true -> Forall (fun v => leaves p ws v = false) pre ->
     exists l' w', dispatch p status w
       = Ok (tt, w', EvLock :: (concat (calls p status ws <$> pre) ++ calls p status ws x ++ [EvFree x]) ++ [EvUnlock]) /\
     registry w' l' /\ items l' = pre ++ [y]).
Proof.
  intros Hr Hm ws. pose proof (dispatch_ok w l p status Hr Hm) as Hd. unfold dispatched in Hd. fold ws in Hd.
  pose proof Hr as [_ [_ _ Hct _] _ _ Hnd _].
  split; [|split].
  - intros Hall. rewrite sweep_keeps in Hd by (rewrite ?Hct; done || lia). destruct Hd as (l' & E & Hi & _ & Hr' & _).
    by eexists _, _.
  - intros pre x post Hi Hx Hrest. pose proof (sweep_one (calls p status ws) (leaves p ws) (fun v => [EvFree v]) pre x post 0 (count l)) as Hs.
    rewrite <- Hi in Hs. specialize (Hs ltac:(lia) Hrest Hx). destruct (sweep _ _ _ 0 (count l) (items l)) as [xs t]. cbn in Hs. subst xs.
    destruct Hd as (l' & E & Hi' & _ & Hr' & _ & Hp). eexists l', _, _. split; [exact E|]. split; [done|]. split; [done|].
    cbn. apply foldr_delete_none. rewrite Hi in Hp, Hnd. rewrite <- Permutation_middle in Hp, Hnd.
    assert (x ∈ (pre ++ post) ++ freed_ptrs t) as Hin by (rewrite Hp; apply elem_of_cons; by left).
    apply elem_of_app in Hin as [Hin|Hin]; [|done]. by apply NoDup_cons in Hnd as [? _].
  - intros pre x y Hi Hx Hpre. rewrite Hct, Hi in Hd.
    rewrite (sweep_last_skipped (calls p status ws) (leaves p ws) pre x y Hpre Hx) in Hd.
    destruct Hd as (l' & E & Hi' & _ & Hr' & _). by eexists _, _.
Qed.

(** * Taking out by name *)
Definition initialized (w : world) : Prop := mutex w = true /\ thread w = true /\ t_cond w = true.
Lemma initialized_ok w l : initialized w -> cb_list w = Some l -> proc_waiter_is_initialized w = Ok (true, w, []).
Proof. intros (H1 & H2 & H3) Hl. unfold proc_waiter_is_initialized, gets. by rewrite H1, H2, H3, Hl. Qed.

(** Taking out the waiters that the arguments name: a single one goes and the others stay; where all are named, as by the
    arguments -1, NULL and NULL, only the first half of them goes, rounded up. *)
Theorem deregister_takes (w : world) (l : ArrayList) (wpid : Z) (proc_exited data : ptr) :
  registry w l -> initialized w ->
  let gone := named wpid proc_exited data (waiters w) in
  (forall pre x post, items l = pre ++ x :: post -> gone x = true -> Forall (fun v => gone v = false) (pre ++ post) ->
     exists l' w' t, proc_waiter_deregister wpid proc_exited data w = Ok (tt, w', t) /\ registry w' l' /\ items l' = pre ++ post) /\
  (Forall (fun v => gone v = true) (items l) ->
     exists l' w' t, proc_waiter_deregister wpid proc_exited data w = Ok (tt, w', t) /\ registry w' l' /\
       items l' = drop (Z.to_nat ((count l + 1) / 2)) (items l)).
Proof.
  intros Hr Hin gone. pose proof Hr as [Hl [_ _ Hct _] _ _ _ _].
  pose proof (visit_registry w l (fun _ => []) gone Hr ltac:(done)) as Hv.
  assert (let '(xs, t) := sweep (fun _ => []) gone (fun v => [EvFree v]) 0 (count l) (items l) in
    exists l' w', proc_waiter_deregister wpid proc_exited data w = Ok (tt, w', t ++ [EvBroadcast]) /\ registry w' l' /\ items l' = xs) as Hd.
  { destruct (sweep _ _ _ 0 (count l) (items l)) as [xs t]. destruct Hv as (l' & E & Hi & Hr' & _).
    eexists l', _. split; [|by split]. unfold proc_waiter_deregister.
    rewrite (bind_quiet _ _ _ _ _ (initialized_ok w l Hin Hl)). cbn [negb].
    rewrite (bind_quiet _ _ _ _ _ (check_items_ok w l Hr)), bind_gets.
    erewrite bind_on_list by (rewrite Hl; apply no_guard_ok; exact E).
    unfold broadcast. rewrite bind_gets. cbn [t_cond set_waiters set_cb_list]. destruct Hin as (_ & _ & ->). done. }
  split.
  - intros pre x post Hi Hx Hrest. pose proof (sweep_one (fun _ => []) gone (fun v => [EvFree v]) pre x post 0 (count l)) as Hs.
    rewrite <- Hi in Hs. specialize (Hs ltac:(lia) Hrest Hx). destruct (sweep _ _ _ 0 (count l) (items l)) as [xs t]. cbn in Hs. subst xs.
    destruct Hd as (l' & w' & ? & ? & ?). by exists l', w', (t ++ [EvBroadcast]).
  - intros Hall. pose proof (blen_nonneg (items l)).
    pose proof (sweep_all (fun _ => []) gone (fun v => [EvFree v]) (items l) 0 (count l) ltac:(lia) Hall) as Hs.
    destruct (sweep _ _ _ 0 (count l) (items l)) as [xs t]. cbn [fst] in Hs. subst xs. rewrite Z.sub_0_r in Hd.
    destruct Hd as (l' & w' & ? & ? & ?). by exists l', w', (t ++ [EvBroadcast]).
Qed.

(** * Starting *)

(** On a program's first call nothing is allocated, and registering, which could allocate, refuses. *)
Lemma first_register_fails g p grow cancelled created wpid f data sleep :
  proc_waiter_register g p grow cancelled created wpid f data (initial sleep) = Ok (ALIB_STATE_ERR, initial sleep, []).
Proof. done. Qed.

Definition all_granted : grants := mkGrants true true true true.
Definition empty_list (cap : Z) : ArrayList := mkArrayList None 0 cap ULONG_MAX true true false.
Definition started (sleep : Z) : world :=
  mkWorld (Some (empty_list 0)) true true true false (Z.lor THREAD_IS_RUNNING THREAD_CREATED) sleep ∅.
Definition one_item (p : ptr) : ArrayList := mkArrayList (Some [p]) 1 1 ULONG_MAX true true false.
Lemma add_first p : p <> NULL -> ArrayList_add true p (Some (empty_list 0)) = Ok (1, Some (one_item p), []).
Proof. intros Hp. unfold ArrayList_add, on_obj. rewrite (proj2 (Z.eqb_neq p NULL)) by done. by vm_compute. Qed.
Definition registered (sleep : Z) (p : ptr) (x : proc_waiter) : world :=
  mkWorld (Some (one_item p)) true true true false (Z.lor THREAD_IS_RUNNING THREAD_CREATED) sleep {[p := x]}.
Lemma registered_registry sleep p x : p <> NULL -> registry (registered sleep p x) (one_item p) /\ items (one_item p) = [p].
Proof.
  intros Hp. assert (items (one_item p) = [p]) as E.
  { unfold items, slots, one_item. cbn [list default id]. by rewrite items_of_cons, (proj2 (Z.eqb_neq p NULL)). }
  split; [|done]. split; try done.
  - split; [done|done|by rewrite E|done].
  - rewrite E. apply NoDup_singleton.
  - rewrite E. intros v ->%list_elem_of_singleton. cbn. by rewrite lookup_singleton_eq.
Qed.
(** The order of calls that works: start, then register.  A callback that is registered for a process is called once when
    the process exits, with its pid, its status and the given data; then its record is freed and the list is empty. *)
Theorem start_register_exit (sleep : Z) (p f data : ptr) (wpid status : Z) (cancelled : bool) :
  p <> NULL -> f <> NULL -> 0 <= wpid ->
  proc_waiter_start all_granted cancelled true (initial sleep) = Ok (ALIB_OK, started sleep, [EvMutexInit; EvMutexInit; EvLock; EvUnlock]) /\
  exists w1 w2,
    proc_waiter_register all_granted p true cancelled true wpid f data (started sleep) = Ok (ALIB_OK, w1, [EvBroadcast; EvLock; EvUnlock]) /\
    waiters w1 = {[p := mkWaiter wpid f data]} /\
    wait_returns (mkTimespec 0 0) (wpid, status) w1 = Ok (AtGuard, w2, [EvLock; EvCall f [wpid; status; data]; EvFree p; EvUnlock]) /\
    waiters w2 = ∅ /\ exists l, cb_list w2 = Some l /\ items l = [].
Proof.
  intros Hp Hf Hpid. split; [done|].
  set (x := mkWaiter wpid f data). destruct (registered_registry sleep p x Hp) as [Hr Hi].
  exists (registered sleep p x).
  pose proof (dispatch_ok _ _ wpid status Hr eq_refl) as Hd. unfold dispatched in Hd. rewrite Hi in Hd.
  assert (matches wpid {[p := x]} p = true) as Hmt.
  { unfold matches. rewrite lookup_singleton_eq. cbn. by rewrite Z.eqb_refl, orb_true_r. }
  assert (calls wpid status {[p := x]} p = [EvCall f [wpid; status; data]]) as Ecalls.
  { unfold calls. rewrite Hmt, lookup_singleton_eq. cbn. by rewrite (proj2 (Z.eqb_neq f NULL)). }
  assert (leaves wpid {[p := x]} p = true) as Eleaves.
  { unfold leaves. rewrite Hmt, lookup_singleton_eq. cbn. rewrite Z.gtb_ltb. apply Z.ltb_lt. lia. }
  cbn [sweep count one_item waiters registered] in Hd. change (0 <? 1) with true in Hd. cbn iota in Hd.
  rewrite Ecalls, Eleaves in Hd. cbn [app] in Hd. destruct Hd as (l' & E & Hi' & _ & Hr' & _).
  eexists. split; [|split; [done|split; [|split]]].
  - unfold proc_waiter_register, proc_waiter_register_no_start. rewrite bind_bind.
    rewrite (bind_quiet _ _ (started sleep) true (started sleep)) by done. cbn [negb].
    rewrite (proj2 (Z.eqb_neq p NULL)) by done. rewrite bind_bind, bind_modify, bind_bind.
    set (w0 := set_waiters _ (started sleep)).
    rewrite (bind_quiet (allocate_globals all_granted) _ w0 ALIB_OK w0) by done. change (negb (ALIB_OK =? ALIB_OK)) with false. cbn iota.
    rewrite bind_bind. erewrite bind_on_list by exact (add_first p Hp). done.
  - unfold wait_returns. rewrite (proj2 (Z.ltb_ge wpid 0)) by lia. erewrite bind_Ok by exact E. done.
  - cbn. apply delete_singleton_eq.
  - by exists l'.
Qed.
Lemma start_register_exit_witness :
  proc_waiter_start all_granted true true (initial 5) = Ok (ALIB_OK, started 5, [EvMutexInit; EvMutexInit; EvLock; EvUnlock]) /\
  exists w1 w2,
    proc_waiter_register all_granted 8 true true true 7 16 24 (started 5) = Ok (ALIB_OK, w1, [EvBroadcast; EvLock; EvUnlock]) /\
    waiters w1 = {[8 := mkWaiter 7 16 24]} /\
    wait_returns (mkTimespec 0 0) (7, 1) w1 = Ok (AtGuard, w2, [EvLock; EvCall 16 [7; 1; 24]; EvFree 8; EvUnlock]) /\
    waiters w2 = ∅ /\ exists l, cb_list w2 = Some l /\ items l = [].
Proof. by apply (start_register_exit 5 8 16 24 7 1 true). Defined.

(** * Stopping *)
Lemma raised_after p f : f <> 0 -> negb (Z.land (flag_raise p f) f =? 0) = true.
Proof.
  intros Hf. unfold flag_raise. rewrite Z.land_lor_distr_l, Z.land_diag.
  apply negb_true_iff, Z.eqb_neq. intros H%Z.lor_eq_0_iff. by destruct H.
Qed.
Lemma waiter_count_ok w l : cb_list w = Some l -> on_list ArrayList_get_count w = Ok (count l, w, []).
Proof. intros Hl. unfold on_list. rewrite Hl. cbn. unfold set_waiters, set_cb_list. cbn. rewrite <- Hl. by destruct w. Qed.
Lemma some_items l : wf l -> (count l =? 0) = bool_decide (items l = []).
Proof.
  intros [_ _ Hct _]. rewrite Hct. destruct (items l) as [|x xs]; [done|]. rewrite blen_cons. pose proof (blen_nonneg xs).
  rewrite bool_decide_false by done. apply Z.eqb_neq. lia.
Qed.
Lemma unlocked w : mutex_locked w = false -> set_mutex_locked false (set_mutex_locked true w) = w.
Proof. destruct w. cbn. by intros ->. Qed.
Lemma waiter_lock_ok w : mutex w = true -> mutex_locked w = false -> lock_mutex w = Ok (tt, set_mutex_locked true w, [EvLock]).
Proof. intros Hm Hf. unfold lock_mutex. by rewrite Hm, Hf. Qed.
Lemma waiter_unlock_ok {A} (k : unit -> M world A) w : mutex w = true -> mutex_locked w = false ->
  mbind k unlock_mutex (set_mutex_locked true w) = ('(a, w', t) ← k tt w; Ok (a, w', EvUnlock :: t)).
Proof.
  intros Hm Hf. rewrite (bind_Ok _ _ _ tt w [EvUnlock]); [done|].
  unfold unlock_mutex. cbn [mutex set_mutex_locked]. by rewrite Hm, unlocked.
Qed.

(** [wait()] says that there are no children. *)
Lemma none_left w l now p status : initialized w -> cb_list w = Some l -> wf l -> mutex_locked w = false -> p < 0 ->
  wait_returns now (p, status) w =
    if bool_decide (items l = [])
    then Ok (if negb (Z.land (pole w) THREAD_STOP =? 0) then AtGuard else WaitEmpty, w, [EvLock; EvUnlock])
    else if sleep_time w <? 0 then Ok (WaitWakeup, w, [EvLock; EvUnlock])
    else n ← slong (tv_nsec now + sleep_time w); '(_, t) ← timespec_fix_values (mkTimespec (tv_sec now) n);
         Ok (WaitUntil t, w, [EvLock; EvUnlock]).
Proof.
  intros (H1 & _ & _) Hl Hwf Hm Hp. unfold wait_returns. rewrite (proj2 (Z.ltb_lt p 0)) by done.
  rewrite (bind_Ok _ _ _ _ _ _ (waiter_lock_ok w H1 Hm)). unfold wait_for_children. rewrite bind_gets. cbn [cb_list set_mutex_locked]. rewrite Hl.
  rewrite (bind_quiet _ _ _ _ _ (waiter_count_ok (set_mutex_locked true w) l Hl)), (some_items l Hwf). case_bool_decide.
  - rewrite (bind_quiet stopping _ _ (negb (Z.land (pole w) THREAD_STOP =? 0)) (set_mutex_locked true w)) by done.
    destruct (negb _); [|unfold cond_wait]; by rewrite waiter_unlock_ok.
  - rewrite bind_gets. cbn [sleep_time set_mutex_locked]. destruct (sleep_time w <? 0); [unfold cond_wait; by rewrite waiter_unlock_ok|].
    destruct (slong _) as [n| |]; [|done..]. rewrite (bind_lift (Ok n) n) by done. cbn [mbind res_bind].
    destruct (timespec_fix_values _) as [[u t]| |]; [|done..]. rewrite (bind_lift (Ok (u, t)) (u, t)) by done. cbn [mbind res_bind].
    unfold cond_wait. by rewrite waiter_unlock_ok.
Qed.
(** The guard of a thread that was told to stop. *)
Lemma guard_over w l : cb_list w = Some l -> t_cond w = true -> negb (Z.land (pole w) THREAD_STOP =? 0) = true ->
  at_guard w = Ok (Over, set_pole (flag_lower (pole w) THREAD_IS_RUNNING) w, [EvBroadcast]).
Proof.
  intros Hl Hc Hp. unfold at_guard. rewrite bind_gets, Hl.
  rewrite (bind_quiet stopping _ _ true w) by (unfold stopping, raised; rewrite bind_gets, Hp; done). cbn [orb].
  unfold exit_thread, lower, broadcast. rewrite bind_modify, bind_bind, bind_gets. cbn [t_cond set_pole]. by rewrite Hc.
Qed.
(** A wait for the condition that is over. *)
Lemma wait_over w l now waited s : mutex w = true -> cb_list w = Some l -> mutex_locked w = false ->
  negb (Z.land (pole w) THREAD_STOP =? 0) = true -> s = WaitEmpty \/ s = WaitWakeup \/ (exists t, s = WaitUntil t) ->
  thread_step now waited true s w = Ok (AtGuard, w, [EvLock; EvUnlock]).
Proof.
  intros Hm Hl Hf Hp [-> | [-> | [t ->]]]; cbn [thread_step negb orb]; rewrite (bind_Ok _ _ _ _ _ _ (waiter_lock_ok w Hm Hf)).
  - rewrite bind_gets. cbn [cb_list set_mutex_locked]. rewrite Hl, (bind_quiet _ _ _ _ _ (waiter_count_ok (set_mutex_locked true w) l Hl)).
    rewrite (bind_quiet stopping _ _ true (set_mutex_locked true w)); [|unfold stopping, raised; rewrite bind_gets; cbn; by rewrite Hp].
    by rewrite andb_false_r, waiter_unlock_ok.
  - by rewrite waiter_unlock_ok.
  - by rewrite waiter_unlock_ok.
Qed.
(** The sleep time, documented in microseconds, is added to nanoseconds. *)
Lemma sleeps_nanoseconds w l now p status s :
  initialized w -> registry w l -> mutex_locked w = false -> items l <> [] -> p < 0 ->
  sleep_time w = s -> 0 <= s <= 2 ^ 60 -> 0 <= tv_nsec now < NANOS_PER_SECOND -> 0 <= tv_sec now <= 2 ^ 60 ->
  exists t, wait_returns now (p, status) w = Ok (WaitUntil t, w, [EvLock; EvUnlock]) /\ total t = total now + s.
Proof.
  intros Hin [Hl Hwf _ _ _ _] Hm Hne Hp Hs Hsr Hn Hsec.
  assert (NANOS_PER_SECOND = 1000000000) as HN by done.
  destruct (fix_values_ok (mkTimespec (tv_sec now) (tv_nsec now + s))) as (t & E & _ & Ht & _); [cbn; lia..|].
  exists t. split; [|rewrite Ht; unfold total; cbn; lia].
  rewrite (none_left w l now p status Hin Hl Hwf Hm Hp), bool_decide_false by done.
  rewrite Hs, (proj2 (Z.ltb_ge s 0)) by lia. rewrite slong_ok by (unfold LONG_MIN, LONG_MAX; lia). cbn [mbind res_bind]. by rewrite E.
Qed.

(** C38: [proc_waiter_stop] raises the flag and broadcasts.  A thread that is at its guard then ends; one that waits for the condition wakes
    up, comes to its guard and ends.  One that is blocked in [wait()] stays there.  When a child exits it first does for it all that
    [dispatch] does, and then ends; when there are no children and nothing is registered, it ends; but when there are no children and something is
    registered, it begins a wait for the condition without looking at the flag again: with a sleep time of 0 or more it ends when
    that time is over, and with a negative one, the default, it stays until somebody broadcasts again.  A thread that ends says that it does not
    run any more, broadcasts, and leaves the mutex free. *)
Theorem thread_stops (w : world) (l : ArrayList) (s : thread_state) (now : timespec) (waited : Z * Z) :
  initialized w -> registry w l -> mutex_held l = false -> mutex_locked w = false ->
  exists w1, proc_waiter_stop w = Ok (tt, w1, [EvBroadcast]) /\
    let over w' := exists w2, thread_step now waited true AtGuard w' = Ok (Over, w2, [EvBroadcast]) /\
      Z.testbit (pole w2) 1 = false /\ mutex_locked w2 = false /\ cb_list w2 = cb_list w' /\ waiters w2 = waiters w' in
    match s with
    | AtGuard => over w1
    | WaitEmpty | WaitWakeup | WaitUntil _ => thread_step now waited true s w1 = Ok (AtGuard, w1, [EvLock; EvUnlock]) /\ over w1
    | InWait =>
        (0 <= waited.1 -> exists w' t, dispatch waited.1 waited.2 w1 = Ok (tt, w', t) /\
           thread_step now waited true InWait w1 = Ok (AtGuard, w', t) /\ over w') /\
        (waited.1 < 0 -> items l = [] -> thread_step now waited true InWait w1 = Ok (AtGuard, w1, [EvLock; EvUnlock]) /\ over w1) /\
        (waited.1 < 0 -> items l <> [] -> sleep_time w < 0 ->
           thread_step now waited true InWait w1 = Ok (WaitWakeup, w1, [EvLock; EvUnlock]) /\
           forall now' waited', thread_step now' waited' false WaitWakeup w1 = Ok (WaitWakeup, w1, [])) /\
        (waited.1 < 0 -> items l <> [] -> 0 <= sleep_time w <= 2 ^ 60 -> 0 <= tv_nsec now < NANOS_PER_SECOND -> 0 <= tv_sec now <= 2 ^ 60 ->
           exists t, total t = total now + sleep_time w /\ thread_step now waited true InWait w1 = Ok (WaitUntil t, w1, [EvLock; EvUnlock]) /\
             (forall now' waited', total t <= total now' ->
                thread_step now' waited' false (WaitUntil t) w1 = Ok (AtGuard, w1, [EvLock; EvUnlock])) /\ over w1)
    | Over => True
    end.
Proof.
  intros Hin Hr Hh Hm. pose proof Hr as [Hl Hwf _ _ _ _]. pose proof Hin as (H1 & _ & H3).
  set (w1 := set_pole (flag_raise (pole w) THREAD_STOP) w). exists w1. split.
  { unfold proc_waiter_stop. rewrite (bind_quiet _ _ _ _ _ (initialized_ok w l Hin Hl)). cbn [negb]. unfold raise. rewrite bind_modify.
    fold w1. unfold broadcast. rewrite bind_gets. cbn [t_cond w1 set_pole]. by rewrite H3. }
  assert (registry w1 l) as Hr1 by (by apply (registry_same w)).
  assert (negb (Z.land (pole w1) THREAD_STOP =? 0) = true) as Hp by (by apply raised_after).
  cbv zeta. assert (forall w' l', pole w' = pole w1 -> cb_list w' = Some l' -> t_cond w' = true -> mutex_locked w' = false ->
    exists w2, thread_step now waited true AtGuard w' = Ok (Over, w2, [EvBroadcast]) /\
      Z.testbit (pole w2) 1 = false /\ mutex_locked w2 = false /\ cb_list w2 = cb_list w' /\ waiters w2 = waiters w') as Hover.
  { intros w' l' Hp' Hl' Hc' Hm'. eexists. split; [cbn [thread_step]; apply (guard_over w' l'); [done..|by rewrite Hp']|]. split; [|done].
    cbn [pole set_pole]. rewrite flag_lower_bit by lia. by rewrite andb_false_r. }
  specialize (Hover w1 l eq_refl Hl H3 Hm) as Hover1.
  assert (thread_step now waited true s w1 = Ok (AtGuard, w1, [EvLock; EvUnlock]) \/ ~ (s = WaitEmpty \/ s = WaitWakeup \/ exists t, s = WaitUntil t)) as Hw.
  { destruct s as [| | | |t|]; try by right; intros [|[|[? ?]]]. all: left; apply (wait_over w1 l); eauto. }
  destruct s as [| | | |t|]; [done| | | | |done]; try by destruct Hw as [?|[]]; eauto.
  clear Hw. destruct waited as [p status]. cbn [fst snd thread_step].
  split; [|split; [|split]].
  - intros Hpos. unfold wait_returns. rewrite (proj2 (Z.ltb_ge p 0)) by done. pose proof (dispatch_ok w1 l p status Hr1 Hh) as Hd.
    destruct (dispatched p status w1 l) as [xs t]. destruct Hd as (l' & E & _). eexists _, _. split; [exact E|]. split; [|by eapply Hover].
    rewrite (bind_Ok _ _ _ _ _ _ E). unfold mret, M_ret. cbn [mbind res_bind]. by rewrite app_nil_r.
  - intros Hneg Hi. by rewrite (none_left w1 l), bool_decide_true, Hp.
  - intros Hneg Hi Hs. by rewrite (none_left w1 l), bool_decide_false, (proj2 (Z.ltb_lt (sleep_time w1) 0)).
  - intros Hneg Hi Hs Hn Hsec. destruct (sleeps_nanoseconds w1 l now p status (sleep_time w)) as (t & E & Ht); try done.
    exists t. split; [done|]. split; [done|]. split; [|done]. intros now' waited' Ht'. rewrite (proj2 (Z.leb_le _ _)) by done. cbn [orb negb].
    rewrite (bind_Ok _ _ _ _ _ _ (waiter_lock_ok w1 H1 Hm)). by rewrite waiter_unlock_ok.
Qed.
Lemma thread_stops_witness :
  let w := registered 0 8 (mkWaiter 7 16 24) in let w' := set_sleep (-1) w in
  exists w1, proc_waiter_stop w' = Ok (tt, w1, [EvBroadcast]) /\
    (thread_step (mkTimespec 0 0) (-1, 0) true InWait w1 = Ok (WaitWakeup, w1, [EvLock; EvUnlock]) /\
     forall now' waited', thread_step now' waited' false WaitWakeup w1 = Ok (WaitWakeup, w1, [])).
Proof.
  intros w w'. destruct (thread_stops w' (one_item 8) InWait (mkTimespec 0 0) (-1, 0)) as (w1 & E & _ & _ & H & _); [done| |done|done|].
  - apply (registry_same w); [done|done|]. by apply registered_registry.
  - exists w1. split; [exact E|]. by apply H.
Defined.

(** A thread that could not be joined or cancelled is left behind with its running flag up and its created flag down.
    Starting again from there raises the stop flag behind the line that lowers it: the new thread ends at its first
    guard, and the caller is told that all is well. *)
Lemma restart_stops_at_once w l cancelled g :
  initialized w -> cb_list w = Some l -> mutex_locked w = false -> pole w = THREAD_IS_RUNNING ->
  exists w1 w2, proc_waiter_start g cancelled true w = Ok (ALIB_OK, w1, [EvLock; EvBroadcast; EvUnlock]) /\
    at_guard w1 = Ok (Over, w2, [EvBroadcast]).
Proof.
  intros (H1 & H2 & H3) Hl Hm Hp. destruct w. cbn in *. subst. by eexists _, _.
Qed.

(** * The end *)
Lemma freed_free ps : freed_ptrs (EvFree <$> ps) = ps.
Proof. induction ps as [|p ps IH]; [done|]. cbn. by f_equal. Qed.
(** Stopping moves flags only, and frees nothing. *)
Definition only_flags (w : world) (m : M world unit) : Prop :=
  forall p, exists q t, m (set_pole p w) = Ok (tt, set_pole q w, t) /\ freed_ptrs t = [].
Section flags.
Context (w : world).
Lemma flags_ret : only_flags w (mret tt).
Proof. intros p. by exists p, []. Qed.
Lemma flags_raise f : only_flags w (raise f).
Proof. intros p. by eexists _, []. Qed.
Lemma flags_lower f : only_flags w (lower f).
Proof. intros p. by eexists _, []. Qed.
Lemma flags_broadcast : t_cond w = true -> only_flags w broadcast.
Proof. intros Hc p. exists p, [EvBroadcast]. unfold broadcast. rewrite bind_gets. cbn. by rewrite Hc. Qed.
Lemma flags_when b m : only_flags w m -> only_flags w (when b m).
Proof. intros Hm. destruct b; [done|apply flags_ret]. Qed.
Lemma flags_seq m k : only_flags w m -> only_flags w k -> only_flags w (m;; k).
Proof.
  intros Hm Hk p. destruct (Hm p) as (q & t & E & F). destruct (Hk q) as (r & u & E' & F'). exists r, (t ++ u).
  rewrite (bind_Ok _ _ _ _ _ _ E), E'. cbn. by rewrite freed_ptrs_app, F, F'.
Qed.
Lemma flags_raised f k : (forall b, only_flags w (k b)) -> only_flags w (b ← raised f; k b).
Proof.
  intros Hk p. destruct (Hk (negb (Z.land p f =? 0)) p) as (q & t & E & F). exists q, t.
  by rewrite (bind_quiet (raised f) _ _ (negb (Z.land p f =? 0)) (set_pole p w)).
Qed.
Lemma flags_guard k : initialized w -> is_Some (cb_list w) -> only_flags w k ->
  only_flags w (b ← proc_waiter_is_initialized; if negb b then mret tt else k).
Proof.
  intros Hin [l Hl] Hk p. assert (proc_waiter_is_initialized (set_pole p w) = Ok (true, set_pole p w, [])) as E
    by (by apply (initialized_ok _ l)).
  rewrite (bind_quiet _ _ _ _ _ E). apply Hk.
Qed.
Lemma flags_stop : initialized w -> is_Some (cb_list w) -> only_flags w proc_waiter_stop.
Proof. intros. apply flags_guard; [done..|]. apply flags_seq; [apply flags_raise|]. by apply flags_broadcast; destruct H as (_ & _ & ?). Qed.
Lemma flags_stop_all c j : initialized w -> is_Some (cb_list w) ->
  only_flags w (proc_waiter_stop_now c;; proc_waiter_stop_wait j).
Proof.
  intros Hin Hl. apply flags_seq.
  - apply flags_seq; [by apply flags_stop|]. apply flags_raised. intros b.
    apply flags_when, flags_seq; [apply flags_when|]; apply flags_lower.
  - apply flags_guard; [done..|]. apply flags_seq; [by apply flags_stop|]. apply flags_raised. intros b.
    apply flags_seq; [apply flags_when, flags_when|]; apply flags_lower.
Qed.
End flags.
(** Freeing the waiter releases the record of everything that is still registered, and leaves the globals as they were
    before the first call. *)
Theorem free_proc_waiter_resets (w : world) (l : ArrayList) (cancelled joined : bool) :
  initialized w -> registry w l -> mutex_locked w = false ->
  exists t, free_proc_waiter cancelled joined w = Ok (tt, set_waiters (foldr delete (waiters w) (items l)) (initial (sleep_time w)), t) /\
    freed_ptrs t = items l /\
    ((forall v, is_Some (waiters w !! v) -> v ∈ items l) -> set_waiters (foldr delete (waiters w) (items l)) (initial (sleep_time w)) = initial (sleep_time w)).
Proof.
  intros Hin Hr Hm. pose proof Hr as [Hl Hwf Hf Hu _ _]. destruct (flags_stop_all w cancelled joined Hin ltac:(by exists l) (pole w)) as (q & u & Eq & Fq).
  exists (u ++ (EvFree <$> items l) ++ [EvMutexDestroy; EvMutexDestroy]).
  split; [|split].
  - assert (set_pole (pole w) w = w) as Ew by (by destruct w). rewrite Ew in Eq.
    assert (delArrayList (Some l) = Ok (tt, None, (EvFree <$> items l) ++ [EvMutexDestroy])) as Ed.
    { destruct (clear_ok l Hwf) as (l' & Ec & _).
      pose proof (ignores_clear l false tt l' _ (here_Some _ _ _ _ _ Ec)) as (_ & Hu' & _). cbn in Hu'.
      unfold delArrayList. rewrite Ec. cbn. rewrite Hu', Hu. unfold freed. by rewrite Hf. }
    unfold free_proc_waiter. rewrite <- (bind_bind (proc_waiter_stop_now cancelled) (fun _ => proc_waiter_stop_wait joined)).
    rewrite (bind_Ok _ _ _ _ _ _ Eq). erewrite bind_on_list by (cbn [cb_list set_pole]; rewrite Hl; exact Ed).
    rewrite freed_ptrs_app, freed_free, app_nil_r, !bind_modify, bind_gets.
    destruct Hin as (H1 & _ & _). cbn [mutex set_cond set_thread set_waiters set_cb_list set_pole]. rewrite H1. cbn [when].
    rewrite bind_bind. rewrite (bind_Ok (emit EvMutexDestroy) _ _ tt _ [EvMutexDestroy]) by done. rewrite bind_modify.
    cbn. rewrite <- app_assoc. unfold initial. cbn. clear - Hm. destruct w. cbn in *. by subst.
  - by rewrite !freed_ptrs_app, Fq, freed_free, app_nil_r.
  - intros Hall. unfold initial, set_waiters. cbn. f_equal. apply map_eq. intros v. rewrite lookup_empty.
    destruct (decide (v ∈ items l)) as [Hv|Hv]; [by apply foldr_delete_none|]. rewrite lookup_foldr_delete by done.
    destruct (waiters w !! v) eqn:E; [|done]. by destruct Hv; apply Hall.
Qed.
Lemma free_proc_waiter_resets_witness :
  let w := registered 5 8 (mkWaiter 7 16 24) in
  exists t, free_proc_waiter true true w = Ok (tt, set_waiters (foldr delete (waiters w) (items (one_item 8))) (initial 5), t) /\
    freed_ptrs t = items (one_item 8) /\
    ((forall v, is_Some (waiters w !! v) -> v ∈ items (one_item 8)) ->
     set_waiters (foldr delete (waiters w) (items (one_item 8))) (initial 5) = initial 5).
Proof. intros w. apply free_proc_waiter_resets; [done| |done]. by apply registered_registry. Defined.

(** Witnesses for the loops over two waiters: 8 waits for the process 7, 16 for any process. *)
Definition two_items : ArrayList := mkArrayList (Some [8; 16]) 2 2 ULONG_MAX true true false.
Definition two_waiters : world :=
  mkWorld (Some two_items) true true true false 3 5 (<[8 := mkWaiter 7 32 0]> {[16 := mkWaiter (-1) 40 0]}).
Lemma two_registry : registry two_waiters two_items.
Proof.
  split; try done.
  - apply (bool_decide_unpack _). by vm_compute.
  - intros v Hv. assert (v = 8 \/ v = 16) as [-> | ->]; [|by eexists..].
    change (items two_items) with [8; 16] in Hv. set_solver.
Qed.
Lemma dispatch_calls_witness :
  exists l' w', dispatch 7 1 two_waiters = Ok (tt, w', EvLock :: (concat (calls 7 1 (waiters two_waiters) <$> []) ++
      calls 7 1 (waiters two_waiters) 8 ++ [EvFree 8]) ++ [EvUnlock]) /\
    registry w' l' /\ items l' = [16].
Proof.
  exact (proj2 (proj2 (dispatch_calls two_waiters two_items 7 1 two_registry eq_refl)) [] 8 16 eq_refl eq_refl (List.Forall_nil _)).
Defined.
Lemma deregister_takes_witness :
  exists l' w' t, proc_waiter_deregister (-1) NULL NULL two_waiters = Ok (tt, w', t) /\ registry w' l' /\
    items l' = drop (Z.to_nat ((count two_items + 1) / 2)) (items two_items).
Proof.
  apply (proj2 (deregister_takes two_waiters two_items (-1) NULL NULL two_registry ltac:(done))).
  by repeat constructor.
Defined.
