(* ===== verification/SignalHandler.v ===== *)
(** Callbacks for signals, [source/signal_handler.c]: a list of handlers, one
    for each signal, with the list of what is called for it.  The state is the
    file's global, the handlers and the records on the heap, and the actions the
    process has set.  The allocations, what the memory of a new handler holds,
    and whether [sigaction] succeeds are arguments; a handler in the list is
    never freed, since nothing takes it out. *)
From stdpp Require Import gmap.
From S2P Require Import Prelude Memory Effects Heap ArrayList Registry.
Open Scope Z_scope.

Record signal_data := mkSignalData { cb : ptr; user_data : ptr }.
(** [struct sigaction]; [sa_handler] is always [signal_handler_proc].  A member
    that was never written is [None]. *)
Record sigaction := mkSigaction { sa_flags : option Z; sa_mask : option (gset Z) }.
Record signal_handler := mkSignalHandler { sig : Z; sd_list : option ArrayList; sa : sigaction }.
Record world := mkWorld {
  handler_list : option ArrayList;        (* SIGNAL_HANDLER_LIST *)
  handlers : gmap ptr signal_handler;
  datas : gmap ptr signal_data;
  actions : gmap Z (Z * gset Z) }.        (* the signals whose action is [signal_handler_proc], with its flags and mask *)
Definition initial : world := mkWorld None ∅ ∅ ∅.
Definition set_handler_list l w := mkWorld l (handlers w) (datas w) (actions w).
Definition set_handlers m w := mkWorld (handler_list w) m (datas w) (actions w).
Definition set_datas m w := mkWorld (handler_list w) (handlers w) m (actions w).
Definition set_actions s w := mkWorld (handler_list w) (handlers w) (datas w) s.

Definition on_handlers {A} (m : M (option ArrayList) A) : M world A := fun w =>
  '(a, l, t) ← m (handler_list w); Ok (a, set_handler_list l w, t).
Definition handler_at (h : ptr) : M world signal_handler := fun w =>
  match handlers w !! h with Some x => Ok (x, w, []) | None => UB Dangling end.
(** A call on a handler's own list; the records it frees are released. *)
Definition on_datas {A} (h : ptr) (m : M (option ArrayList) A) : M world A :=
  x ← handler_at h;
  '(a, l, t) ← lift (m (sd_list x));
  modify (fun w => set_datas (foldr delete (datas w) (freed_ptrs t))
                     (set_handlers (<[h := mkSignalHandler (sig x) l (sa x)]> (handlers w)) w));;
  emits t;; mret a.

(** [compare_int_ptr] of the signal and the handler's first member. *)
Definition compare_signal (signum : Z) (hs : gmap ptr signal_handler) (h : ptr) : Z :=
  match hs !! h with Some x => signum - sig x | None => -1 end.
Definition find_handler (signum : Z) : M world ptr :=
  hs ← gets handlers; on_handlers (ArrayList_find_item_by_value_tsafe (Some (compare_signal signum hs))).

(** * A signal *)
Definition data_calls (signum : Z) (ds : gmap ptr signal_data) (v : ptr) : Datatypes.list event :=
  match ds !! v with
  | Some d => if negb (cb d =? NULL) then [EvCall (cb d) [signum; user_data d]] else []
  | None => []
  end.
Definition check_datas (l : ArrayList) : M world unit :=
  ds ← gets datas;
  lift (if forallb (fun v => bool_decide (is_Some (ds !! v))) (items l) then Ok tt else UB Dangling).
Definition signal_handler_proc (signum : Z) : M world unit :=
  hl ← gets handler_list;
  match hl with
  | None => mret tt
  | Some _ =>
      sh ← find_handler signum;
      if sh =? NULL then mret tt else
      x ← handler_at sh;
      match sd_list x with
      | None => mret tt
      | Some l =>
          check_datas l;; ds ← gets datas;
          on_datas sh (no_guard (visit_items ArrayList_remove_by_ptr (data_calls signum ds) (fun _ => false)))
      end
  end.

(** The system gives a signal to the process, as [sigaction(2)] has it: a signal
    whose action was not set is not seen by this code, and with [SA_RESETHAND]
    the action is gone before the handler runs. *)
Definition SA_RESETHAND : Z := 2 ^ 31.
Definition resets (flags : Z) : bool := negb (Z.land flags SA_RESETHAND =? 0).
Definition take_signal (signum : Z) : M world unit :=
  a ← gets actions;
  match a !! signum with
  | None => mret tt
  | Some (flags, _) => when (resets flags) (modify (fun w => set_actions (delete signum (actions w)) w));; signal_handler_proc signum
  end.

(** * Registering *)

(** The memory of the new record and of a new handler, NULL when [malloc]
    fails; what the latter holds where [sa] lies; whether the lists are made and
    can grow; whether [sigaction] succeeds. *)
Record grants := mkGrants { g_data : ptr; g_handler : ptr; g_found : sigaction; g_list : bool; g_sds : bool; g_sds2 : bool; g_grow1 : bool; g_grow2 : bool; g_action : bool }.
Definition free_data (p : ptr) : M world unit := modify (fun w => set_datas (delete p (datas w)) w).
Definition new_list (ok : bool) : M world (option ArrayList) := '(l, t) ← lift (newArrayList ok ok true); emits t;; mret l.
Definition free_signal_handler (h : ptr) : M world unit :=
  on_datas h delArrayList;; modify (fun w => set_handlers (delete h (handlers w)) w).

(** [sigaction(handler->sig, &handler->sa, NULL)] reads the whole struct. *)
Definition read_action (a : sigaction) : res (Z * gset Z) :=
  match sa_flags a, sa_mask a with Some f, Some m => Ok (f, m) | _, _ => UB Indeterminate end.
(** "If no handler was found, then we need to create a new handler." *)
Definition make_handler (g : grants) (signum : Z) : M world (ptr * Z) :=
  let h := g_handler g in
  if h =? NULL then mret (NULL, ALIB_MEM_ERR) else
  l ← new_list (g_sds g);
  modify (fun w => set_handlers (<[h := mkSignalHandler signum l (g_found g)]> (handlers w)) w);;
  action ← lift (read_action (g_found g));
  if negb (g_action g) then free_signal_handler h;; mret (NULL, ALIB_UNKNOWN_ERR) else
  modify (fun w => set_actions (<[signum := action]> (actions w)) w);;
  on_handlers (ArrayList_add_tsafe (g_grow1 g) h);;
  mret (h, ALIB_OK).
(** "Ensure we have an 'sd_list'." *)
Definition ensure_list (g : grants) (h : ptr) : M world Z :=
  x ← handler_at h;
  match sd_list x with
  | Some _ => mret ALIB_OK
  | None =>
      l ← new_list (g_sds2 g);
      modify (fun w => set_handlers (<[h := mkSignalHandler (sig x) l (sa x)]> (handlers w)) w);;
      mret (match l with None => ALIB_MEM_ERR | Some _ => ALIB_OK end)
  end.
(** The handler that is in the list, NULL when there is none, and whether the
    list itself is there. *)
Definition look_up (g : grants) (signum : Z) : M world (ptr * Z) :=
  hl ← gets handler_list;
  match hl with
  | Some _ => h ← find_handler signum; mret (h, ALIB_OK)
  | None => l ← new_list (g_list g); modify (set_handler_list l);;
            mret (NULL, match l with None => ALIB_MEM_ERR | Some _ => ALIB_OK end)
  end.
Definition signal_handler_register (g : grants) (signum : Z) (f data : ptr) : M world Z :=
  let sd := g_data g in
  if sd =? NULL then mret ALIB_MEM_ERR else
  modify (fun w => set_datas (<[sd := mkSignalData f data]> (datas w)) w);;
  '(handler, err) ← look_up g signum;
  if negb (err =? ALIB_OK) then free_data sd;; mret err else
  '(handler, err) ← (if handler =? NULL then make_handler g signum else mret (handler, ALIB_OK));
  if negb (err =? ALIB_OK) then free_data sd;; mret err else
  err ← ensure_list g handler;
  if negb (err =? ALIB_OK) then free_data sd;; mret err else
  r ← on_datas handler (ArrayList_add_tsafe (g_grow2 g) sd);
  if r =? 0 then free_data sd;; mret ALIB_MEM_ERR else mret ALIB_OK.

(** * Deregistering *)
Definition data_named (f data : ptr) (ds : gmap ptr signal_data) (v : ptr) : bool :=
  match ds !! v with
  | Some d => ((user_data d =? data) || (data =? NULL)) && ((cb d =? f) || (f =? NULL))
  | None => false
  end.
(** The counts that decide about shrinking are those of the list of handlers. *)
Definition signal_handler_deregister (grow : bool) (signum : Z) (f data : ptr) : M world unit :=
  hl ← gets handler_list;
  match hl with
  | None => mret tt
  | Some _ =>
      handler ← find_handler signum;
      if handler =? NULL then mret tt else
      x ← handler_at handler;
      match sd_list x with
      | None => mret tt
      | Some l =>
          match list l with
          | None => mret tt
          | Some _ =>
              check_datas l;; ds ← gets datas;
              on_datas handler (no_guard (visit_items ArrayList_remove_by_ptr_tsafe (fun _ => []) (data_named f data ds)));;
              c ← on_handlers ArrayList_get_count; cap ← on_handlers ArrayList_get_capacity;
              if negb (c =? cap) then on_datas handler (ArrayList_shrink_tsafe grow);; mret tt else mret tt
          end
      end
  end.
(** The loop counts slots, not items. *)
Fixpoint delete_lists (fuel : nat) (it n : Z) : M world unit :=
  match fuel with
  | O => lift Diverges
  | S k =>
      c ← on_handlers ArrayList_get_count;
      if n <? c then
        h ← on_handlers (no_guard (slot_load it));
        (if h =? NULL then mret tt else on_datas h delArrayList);;
        delete_lists k (it + 1) (n + 1)
      else mret tt
  end.
Definition signal_handler_deregister_all : M world unit :=
  hl ← gets handler_list;
  match hl with
  | None => mret tt
  | Some l => delete_lists (array_fuel l) 0 0
  end.
