(* ===== verification/SignalHandlerSpec.v ===== *)
(** What the signal handler does: a signal calls exactly what is registered for
    it; registering adds to the handler of the signal, which the first
    registration makes, with an action of which the code writes the handler only; deregistering by name forgets half of what it
    should take out. *)
From stdpp Require Import gmap.
From S2P Require Import Prelude Memory Effects Heap ArrayList ArrayListSpec Registry SignalHandler.
Open Scope Z_scope.

(** * The handlers *)
Record handlers_ok (w : world) (hl : ArrayList) : Prop := {
  ho_list : handler_list w = Some hl;
  ho_wf : wf hl;
  ho_mutex : use_mutex hl = true /\ mutex_held hl = false;
  ho_known : forall h, h ∈ items hl -> is_Some (handlers w !! h);
  ho_unique : forall h h' x x', h ∈ items hl -> h' ∈ items hl -> handlers w !! h = Some x -> handlers w !! h' = Some x' ->
    sig x = sig x' -> h = h' }.
(** The handler of a signal, with its list of records. *)
Record handles (w : world) (hl : ArrayList) (signum : Z) (h : ptr) (a : sigaction) (l : ArrayList) : Prop := {
  hd_item : h ∈ items hl;
  hd_at : handlers w !! h = Some (mkSignalHandler signum (Some l) a);
  hd_wf : wf l;
  hd_free : free_item l = true;
  hd_mutex : use_mutex l = true /\ mutex_held l = false;
  hd_known : forall v, v ∈ items l -> is_Some (datas w !! v) }.

Lemma items_nonnull l v : v ∈ items l -> v <> NULL.
Proof. intros Hv. pose proof (items_of_nonnull (slots l)) as H. rewrite List.Forall_forall in H. by apply H, list_elem_of_In. Qed.
Lemma head_filter_unique (P : ptr -> Prop) `{!forall x, Decision (P x)} (xs : Datatypes.list ptr) x :
  x ∈ xs -> P x -> (forall y, y ∈ xs -> P y -> y = x) -> head (filter P xs) = Some x.
Proof.
  induction xs as [|y xs IH]; [by intros ?%elem_of_nil|]. intros Hx Px Hu.
  destruct (decide (P y)) as [Py|Hny].
  - rewrite filter_cons_True by done. cbn. f_equal. by apply Hu; [apply elem_of_cons; left|].
  - rewrite filter_cons_False by done. apply IH; [|done|intros; apply Hu; [by apply elem_of_cons; right|done]].
    apply elem_of_cons in Hx as [->|?]; [done|done].
Qed.
Lemma filter_none (P : ptr -> Prop) `{!forall x, Decision (P x)} (xs : Datatypes.list ptr) :
  (forall y, y ∈ xs -> ~ P y) -> filter P xs = [].
Proof.
  induction xs as [|y xs IH]; intros Hn; [done|].
  rewrite filter_cons_False by (apply Hn; apply elem_of_cons; by left). apply IH. intros z Hz. apply Hn. by apply elem_of_cons; right.
Qed.
Lemma find_handler_ok w hl signum h a l : handlers_ok w hl -> handles w hl signum h a l ->
  find_handler signum w = Ok (h, w, [EvLock; EvUnlock]).
Proof.
  intros [Hl Hwf [Hu Hm] Hk Hun] [Hi Ha _ _ _ _]. unfold find_handler. rewrite bind_gets. unfold on_handlers. rewrite Hl.
  unfold ArrayList_find_item_by_value_tsafe.
  rewrite (tsafe_bracket _ _ _ _ _ _ (ignores_find _) Hm (find_item_ok hl _ Hwf)).
  rewrite (head_filter_unique _ (items hl) h Hi).
  - cbn. unfold bracket. rewrite Hu. unfold set_handler_list. rewrite <- Hl. by destruct w.
  - unfold compare_signal. rewrite Ha. cbn. lia.
  - intros y Hy Hc. destruct (Hk y Hy) as [x Hx]. unfold compare_signal in Hc. rewrite Hx in Hc.
    apply (Hun y h x _ Hy Hi Hx Ha). cbn. lia.
Qed.
Lemma find_handler_none w hl signum : handlers_ok w hl ->
  (forall h x, h ∈ items hl -> handlers w !! h = Some x -> sig x <> signum) ->
  find_handler signum w = Ok (NULL, w, [EvLock; EvUnlock]).
Proof.
  intros [Hl Hwf [Hu Hm] Hk _] Hno. unfold find_handler. rewrite bind_gets. unfold on_handlers. rewrite Hl.
  unfold ArrayList_find_item_by_value_tsafe.
  rewrite (tsafe_bracket _ _ _ _ _ _ (ignores_find _) Hm (find_item_ok hl _ Hwf)).
  assert (filter (fun p => compare_signal signum (handlers w) p = 0) (items hl) = []) as ->.
  { apply filter_none. intros y Hy. destruct (Hk y Hy) as [x Hx]. unfold compare_signal. rewrite Hx.
    specialize (Hno y x Hy Hx). lia. }
  cbn. unfold bracket. rewrite Hu. unfold set_handler_list. rewrite <- Hl. by destruct w.
Qed.
Lemma check_datas_ok w l : (forall v, v ∈ items l -> is_Some (datas w !! v)) -> check_datas l w = Ok (tt, w, []).
Proof.
  intros Hk. unfold check_datas. rewrite bind_gets.
  assert (forallb (fun v => bool_decide (is_Some (datas w !! v))) (items l) = true) as ->; [|done].
  apply forallb_forall. intros v Hv. apply bool_decide_eq_true, Hk, list_elem_of_In, Hv.
Qed.
(** A call on a handler's list. *)
Lemma on_datas_ok {A} (m : M (option ArrayList) A) w hl signum h sa0 l a l' t :
  handles w hl signum h sa0 l -> m (Some l) = Ok (a, l', t) ->
  on_datas h m w = Ok (a, set_datas (foldr delete (datas w) (freed_ptrs t))
                            (set_handlers (<[h := mkSignalHandler signum l' sa0]> (handlers w)) w), t).
Proof.
  intros [_ Ha _ _ _ _] Hm. unfold on_datas, handler_at. rewrite (bind_quiet _ _ w (mkSignalHandler signum (Some l) sa0) w) by (by rewrite Ha).
  cbn [sd_list sig]. rewrite Hm. rewrite (bind_lift (Ok _) (a, l', t)) by done. rewrite bind_modify.
  unfold mbind, M_bind, emits, mret, M_ret. cbn. by rewrite app_nil_r.
Qed.

Lemma signal_proc_calls w hl signum h a l : handlers_ok w hl -> handles w hl signum h a l ->
  signal_handler_proc signum w = Ok (tt, w, [EvLock; EvUnlock] ++ concat (data_calls signum (datas w) <$> items l)).
Proof.
  intros Ho Hh. pose proof Ho as [Hl _ _ _ _]. pose proof Hh as [Hi Ha Hwf _ _ Hk]. unfold signal_handler_proc. rewrite bind_gets, Hl.
  rewrite (bind_Ok _ _ _ _ _ _ (find_handler_ok w hl signum h a l Ho Hh)).
  rewrite (proj2 (Z.eqb_neq h NULL)) by (by eapply items_nonnull).
  rewrite (bind_quiet (handler_at h) _ w (mkSignalHandler signum (Some l) a) w) by (unfold handler_at; by rewrite Ha).
  cbn [sd_list]. rewrite (bind_quiet _ _ _ _ _ (check_datas_ok w l Hk)), bind_gets.
  assert (Forall (fun _ : ptr => false = false) (items l)) as Hg by (by apply List.Forall_forall).
  pose proof (visit_items_keep l ArrayList_remove_by_ptr (data_calls signum (datas w)) (fun _ => false) Hwf Hg) as E.
  erewrite on_datas_ok; [|exact Hh|unfold no_guard; cbn; by rewrite E].
  assert (freed_ptrs (concat (data_calls signum (datas w) <$> items l)) = []) as ->.
  { clear. induction (items l) as [|v vs IH]; [done|]. cbn. rewrite freed_ptrs_app, IH, app_nil_r. unfold data_calls.
    destruct (datas w !! v) as [d|]; [|done]. by destruct (negb _). }
  cbn. do 3 f_equal. unfold set_datas, set_handlers. cbn. rewrite insert_id by done. by destruct w.
Qed.
Lemma signal_proc_none w hl signum : handlers_ok w hl ->
  (forall h x, h ∈ items hl -> handlers w !! h = Some x -> sig x <> signum) ->
  signal_handler_proc signum w = Ok (tt, w, [EvLock; EvUnlock]).
Proof.
  intros Ho Hno. pose proof Ho as [Hl _ _ _ _]. unfold signal_handler_proc. rewrite bind_gets, Hl.
  by rewrite (bind_Ok _ _ _ _ _ _ (find_handler_none w hl signum Ho Hno)).
Qed.

(** A signal calls every callback registered for it, in the order of its handler's list, with the signal and the data given
    when it was registered; nothing else is called and nothing changes.  A signal without a handler does nothing. *)
Theorem signal_calls (w : world) (hl : ArrayList) (signum : Z) :
  handlers_ok w hl ->
  (forall h a l, handles w hl signum h a l ->
     signal_handler_proc signum w = Ok (tt, w, [EvLock; EvUnlock] ++ concat (data_calls signum (datas w) <$> items l))) /\
  ((forall h x, h ∈ items hl -> handlers w !! h = Some x -> sig x <> signum) ->
     signal_handler_proc signum w = Ok (tt, w, [EvLock; EvUnlock])).
Proof. intros Ho. split; [intros h a l; by apply signal_proc_calls|by apply signal_proc_none]. Qed.

(** * Deregistering *)
Lemma shrink_keeps l : wf l -> mutex_held l = false -> free_item l = true ->
  exists l' c t, ArrayList_shrink_tsafe true (Some l) = Ok (c, Some l', t) /\ wf l' /\ items l' = items l /\ freed_ptrs t = [].
Proof.
  intros Hwf Hm Hf. pose proof (count_range l Hwf) as Hcr. pose proof Hwf as [Hs Hnull Hct [Hmx Hx]].
  assert (forall r l' t, ArrayList_resize true (count l) (Some l) = Ok (r, Some l', t) ->
    ArrayList_shrink_tsafe true (Some l) = Ok (r, Some l', bracket l t)) as Hgo.
  { intros r l' t E. unfold ArrayList_shrink_tsafe. apply on_obj_Ok. rewrite bind_gets. unfold ArrayList_resize_tsafe.
    apply here_Some. exact (tsafe_bracket _ _ _ _ _ _ (ignores_resize true (count l)) Hm E). }
  assert (forall t, freed_ptrs t = [] -> freed_ptrs (bracket l t) = []) as Hb.
  { intros t Ht. unfold bracket. destruct (use_mutex l); [|done]. cbn. by rewrite freed_ptrs_app, Ht. }
  destruct (decide (count l = capacity l)) as [E|Hne].
  - exists l, (count l), (bracket l []). split; [apply Hgo|by auto].
    unfold ArrayList_resize. apply on_obj_Ok. rewrite !bind_gets. by rewrite (proj2 (Z.eqb_eq _ _)).
  - destruct (decide (count l = 0)) as [E0|Hn0].
    + assert (items l = []) as Hi by (destruct (items l); [done|rewrite blen_cons in Hct; pose proof (blen_nonneg l0); lia]).
      eexists (set_capacity 0 (set_count 0 (set_list None l))), 0, (bracket l []). split; [apply Hgo|].
      * unfold ArrayList_resize. apply on_obj_Ok. rewrite !bind_gets. rewrite (proj2 (Z.eqb_neq _ _)) by done. rewrite E0.
        destruct (list l) as [cells|] eqn:El; [done|]. rewrite (proj1 Hnull eq_refl) in Hne. lia.
      * split; [|by rewrite Hi, Hb]. split; cbn; try done; lia.
    + destruct (resize_shrink l (count l) Hwf ltac:(lia)) as (cells' & E & Hl' & Hi').
      rewrite Hct in Hi' at 1. unfold blen in Hi'. rewrite Nat2Z.id, firstn_all in Hi'.
      eexists _, _, _. split; [by apply Hgo|]. rewrite Z.min_id. split; [|split; [exact Hi'|]].
      * split; cbn; [done|split; [done|intros; lia]| |lia]. change (count l = blen (items_of cells')). by rewrite Hi'.
      * apply Hb. rewrite Hct. unfold blen. rewrite Nat2Z.id, drop_all. unfold freed. by destruct (free_item l).
Qed.

Lemma remove_tsafe_middle l : use_mutex l = true -> mutex_held l = false -> free_item l = true ->
  forall a v b c, 0 < c < 2 ^ 64 ->
  here (ArrayList_remove_by_ptr_tsafe (Some (blen a))) (st l (a ++ v :: b) c)
  = Ok (tt, st l (a ++ NULL :: b) (c - 1), [EvLock; EvFree v; EvUnlock]).
Proof.
  intros Hu Hm Hf a v b c Hc. unfold ArrayList_remove_by_ptr_tsafe. rewrite here_on_obj.
  pose proof (remove_by_ptr_middle l a v b c Hc) as E. rewrite Hf in E.
  rewrite (with_mutex_ok (S:=ArrayList) _ (st l (a ++ v :: b) c) _ _ _ (ignores_remove_by_ptr _) Hm E). cbn. by rewrite Hu.
Qed.

Lemma deregister_sweeps w hl l signum h a f data : handlers_ok w hl -> handles w hl signum h a l ->
  let gone := data_named f data (datas w) in
  let xs := (sweep (fun _ => []) gone (fun v => [EvLock; EvFree v; EvUnlock]) 0 (count l) (items l)).1 in
  exists w' l' t, signal_handler_deregister true signum f data w = Ok (tt, w', t) /\
    handlers w' !! h = Some (mkSignalHandler signum (Some l') a) /\ wf l' /\ items l' = xs.
Proof.
  intros Ho Hh gone xs0. subst xs0. pose proof Ho as [Hl _ [Hu1 Hm1] _ _]. pose proof Hh as [Hi Ha Hwf Hf [Hu Hm] Hk].
  pose proof (visit_items_ok l ArrayList_remove_by_ptr_tsafe (fun _ => []) gone (fun v => [EvLock; EvFree v; EvUnlock])
    (remove_tsafe_middle l Hu Hm Hf) Hwf) as Hv.
  destruct (list l) as [cells|] eqn:El.
  2:{ assert (items l = []) as Hnil by (unfold items, slots; by rewrite El). rewrite Hnil. cbn [sweep].
      exists w, l, [EvLock; EvUnlock]. split; [|by rewrite Hnil]. unfold signal_handler_deregister. rewrite bind_gets, Hl.
      rewrite (bind_Ok _ _ _ _ _ _ (find_handler_ok w hl signum h a l Ho Hh)).
      rewrite (proj2 (Z.eqb_neq h NULL)) by (by eapply items_nonnull).
      rewrite (bind_quiet (handler_at h) _ w (mkSignalHandler signum (Some l) a) w) by (unfold handler_at; by rewrite Ha).
      cbn [sd_list]. by rewrite El. }
  destruct (sweep _ gone _ 0 (count l) (items l)) as [xs t]. destruct Hv as (l1 & E & Hwf1 & Hi1 & _ & _ & Hf1 & Hu1' & Hm1').
  set (w1 := set_datas (foldr delete (datas w) (freed_ptrs t)) (set_handlers (<[h := mkSignalHandler signum (Some l1) a]> (handlers w)) w)).
  assert (handlers w1 !! h = Some (mkSignalHandler signum (Some l1) a)) as Ha1 by apply lookup_insert_eq.
  assert (exists w' l' t', signal_handler_deregister true signum f data w = Ok (tt, w', t') /\
    handlers w' !! h = Some (mkSignalHandler signum (Some l') a) /\ wf l' /\ items l' = items l1) as (w' & l' & t' & H1 & H2 & H3 & H4);
    [|exists w', l', t'; rewrite <- Hi1; done].
  unfold signal_handler_deregister. rewrite bind_gets, Hl.
  rewrite (bind_Ok _ _ _ _ _ _ (find_handler_ok w hl signum h a l Ho Hh)).
  rewrite (proj2 (Z.eqb_neq h NULL)) by (by eapply items_nonnull).
  rewrite (bind_quiet (handler_at h) _ w (mkSignalHandler signum (Some l) a) w) by (unfold handler_at; by rewrite Ha).
  cbn [sd_list]. rewrite El, (bind_quiet _ _ _ _ _ (check_datas_ok w l Hk)), bind_gets.
  fold gone. assert (no_guard (visit_items ArrayList_remove_by_ptr_tsafe (fun _ => []) gone) (Some l) = Ok (tt, Some l1, t)) as E'
    by (unfold no_guard; cbn; by rewrite E).
  rewrite (bind_Ok _ _ _ _ _ _ (on_datas_ok _ w hl signum h a l _ _ _ Hh E')). fold w1.
  assert (on_handlers ArrayList_get_count w1 = Ok (count hl, w1, []) /\ on_handlers ArrayList_get_capacity w1 = Ok (capacity hl, w1, [])) as [Ec Ecap].
  { unfold on_handlers. cbn [handler_list w1 set_datas set_handlers]. rewrite Hl. cbn. rewrite <- Hl. by destruct w. }
  rewrite (bind_quiet _ _ _ _ _ Ec), (bind_quiet _ _ _ _ _ Ecap).
  destruct (negb (count hl =? capacity hl)).
  - destruct (shrink_keeps l1 Hwf1) as (l2 & c2 & t2 & Es & Hwf2 & Hi2 & _); [congruence..|].
    eexists _, l2, _. split; [|split; [|done]].
    + unfold on_datas, handler_at. rewrite bind_bind. rewrite (bind_quiet _ _ w1 (mkSignalHandler signum (Some l1) a) w1) by (by rewrite Ha1).
      cbn [sd_list sig]. rewrite Es. done.
    + cbn. by rewrite lookup_insert_eq.
  - eexists w1, l1, _. split; [done|]. by split.
Qed.

(** C40: deregistering the callbacks that the arguments name: one that alone is named is taken out, and the others stay; when all are
    named, half of them, rounded up, is. *)
Theorem deregister_takes_out (w : world) (hl l : ArrayList) (signum : Z) (h : ptr) (a : sigaction) (f data : ptr) :
  handlers_ok w hl -> handles w hl signum h a l ->
  let gone := data_named f data (datas w) in
  let leaves xs := exists w' l' t, signal_handler_deregister true signum f data w = Ok (tt, w', t) /\
    handlers w' !! h = Some (mkSignalHandler signum (Some l') a) /\ wf l' /\ items l' = xs in
  (forall pre x post, items l = pre ++ x :: post -> gone x = true -> Forall (fun v => gone v = false) (pre ++ post) ->
     leaves (pre ++ post)) /\
  (Forall (fun v => gone v = true) (items l) -> leaves (drop (Z.to_nat ((count l + 1) / 2)) (items l))).
Proof.
  intros Ho Hh gone leaves. pose proof Hh as [_ _ [_ _ Hct _] _ _ _]. pose proof (blen_nonneg (items l)).
  pose proof (deregister_sweeps w hl l signum h a f data Ho Hh) as Hgo. cbv zeta in Hgo. fold gone in Hgo.
  split.
  - intros pre x post E Hx Hrest. pose proof (sweep_one (fun _ => []) gone (fun v => [EvLock; EvFree v; EvUnlock]) pre x post 0 (count l)) as Hs.
    rewrite <- E in Hs. by rewrite (Hs ltac:(lia) Hrest Hx) in Hgo.
  - intros Hall. rewrite (sweep_all (fun _ => []) gone (fun v => [EvLock; EvFree v; EvUnlock]) (items l) 0 (count l) ltac:(lia) Hall) in Hgo.
    by rewrite Z.sub_0_r in Hgo.
Qed.

(** * From the start *)
(** A list that [newArrayList] makes, and the list with its first item. *)
Definition fresh_list : ArrayList := mkArrayList (Some [NULL; NULL; NULL; NULL]) 0 4 ULONG_MAX true true false.
Definition single (x : ptr) : ArrayList := mkArrayList (Some [x; NULL; NULL; NULL]) 1 4 ULONG_MAX true true false.
Lemma single_ok x : x <> NULL -> wf (single x) /\ items (single x) = [x].
Proof.
  intros Hx. assert (items (single x) = [x]) as E.
  { change (items (single x)) with (items_of [x; NULL; NULL; NULL]). by rewrite items_of_cons, (proj2 (Z.eqb_neq x NULL)). }
  split; [|done]. split; [done|done|by rewrite E|cbn; unfold ULONG_MAX; lia].
Qed.
Lemma add_fresh x : x <> NULL -> ArrayList_add_tsafe true x (Some fresh_list) = Ok (1, Some (single x), [EvLock; EvUnlock]).
Proof.
  intros Hx. unfold ArrayList_add_tsafe.
  rewrite (tsafe_bracket 0 _ fresh_list 1 (single x) [] (ignores_add _ _)); [done|done|].
  unfold ArrayList_add. apply on_obj_Ok. rewrite (proj2 (Z.eqb_neq x NULL)) by done. reflexivity.
Qed.
Lemma make_handler_ok g signum w flags mask : g_handler g <> NULL -> g_sds g = true -> g_action g = true -> g_grow1 g = true ->
  g_found g = mkSigaction (Some flags) (Some mask) -> handler_list w = Some fresh_list ->
  make_handler g signum w = Ok ((g_handler g, ALIB_OK),
    mkWorld (Some (single (g_handler g))) (<[g_handler g := mkSignalHandler signum (Some fresh_list) (g_found g)]> (handlers w)) (datas w)
      (<[signum := (flags, mask)]> (actions w)), [EvMutexInit; EvLock; EvUnlock]).
Proof.
  intros Hh H1 H2 H3 Hs Hl. unfold make_handler. rewrite (proj2 (Z.eqb_neq (g_handler g) NULL)) by done.
  rewrite H1, H2, H3. cbn [negb].
  erewrite bind_Ok by reflexivity. rewrite bind_modify, Hs. rewrite (bind_lift _ (flags, mask)) by done. rewrite bind_modify.
  erewrite bind_Ok; [|unfold on_handlers; cbn [handler_list set_handlers set_actions]; rewrite Hl, add_fresh by done; done]. done.
Qed.
Lemma first_registration signum f data d h :
  d <> NULL -> h <> NULL -> forall found,
  signal_handler_register (mkGrants d h found true true true true true true) signum f data initial =
  match read_action found with
  | Ok action => Ok (ALIB_OK, mkWorld (Some (single h)) {[h := mkSignalHandler signum (Some (single d)) found]} {[d := mkSignalData f data]}
                    {[signum := action]}, [EvMutexInit; EvMutexInit; EvLock; EvUnlock; EvLock; EvUnlock])
  | UB k => UB k
  | Diverges => Diverges
  end.
Proof.
  intros Hd Hh found. unfold signal_handler_register. cbn [g_data g_handler]. rewrite (proj2 (Z.eqb_neq d NULL)) by done. rewrite bind_modify.
  erewrite (bind_Ok (look_up _ _)) by reflexivity. cbv beta iota. change (ALIB_OK =? ALIB_OK) with true. cbn [negb].
  change (NULL =? NULL) with true. cbn iota. destruct found as [[flags|] [mask|]]; cbn [read_action sa_flags sa_mask].
  2-4: unfold make_handler; cbn [g_handler]; rewrite (proj2 (Z.eqb_neq h NULL)) by done; done.
  erewrite bind_Ok by (eapply make_handler_ok; done).
  cbn [g_handler g_found]. cbv beta iota. change (ALIB_OK =? ALIB_OK) with true. cbn [negb].
  unfold ensure_list, handler_at. rewrite bind_bind. cbn [handlers].
  rewrite (bind_quiet _ _ _ (mkSignalHandler signum (Some fresh_list) _) _) by (cbn; by rewrite lookup_insert_eq).
  cbn [sd_list]. rewrite bind_mret. change (ALIB_OK =? ALIB_OK) with true. cbn [negb].
  unfold on_datas, handler_at. rewrite !bind_bind. cbn [handlers].
  rewrite (bind_quiet _ _ _ (mkSignalHandler signum (Some fresh_list) _) _) by (cbn; by rewrite lookup_insert_eq).
  cbn [sd_list g_grow2 sig sa]. rewrite (add_fresh d Hd).
  rewrite bind_bind. rewrite (bind_lift (Ok _) (1, Some (single d), [EvLock; EvUnlock])) by done.
  rewrite bind_bind, bind_modify. cbn. unfold set_handlers, set_datas. cbn. by rewrite insert_insert_eq.
Qed.

(** C39: the first registration of a program, every allocation granted: [sigaction] is given a struct of which only the handler was written, so
    that it reads flags and a mask that are indeterminate.  Where the memory happens to hold flags and a mask, the call succeeds and the action
    of the signal is set with those: the next such signal calls the callback once, with the signal and the data, and signals whose action
    is not set are not seen.  Unless SA_RESETHAND is among the flags nothing has changed after the signal, so that all later ones
    call it as well; and if it is, the action is gone and no later one does. *)
Theorem register_then_signal (signum : Z) (f data d h : ptr) (found : sigaction) :
  f <> NULL -> d <> NULL -> h <> NULL ->
  let run := signal_handler_register (mkGrants d h found true true true true true true) signum f data initial in
  match read_action found with
  | Ok (flags, mask) => exists w' t, run = Ok (ALIB_OK, w', t) /\ actions w' = {[signum := (flags, mask)]} /\
      (forall s, s <> signum -> take_signal s w' = Ok (tt, w', [])) /\
      exists w'', take_signal signum w' = Ok (tt, w'', [EvLock; EvUnlock; EvCall f [signum; data]]) /\
        (resets flags = false -> w'' = w') /\ (resets flags = true -> take_signal signum w'' = Ok (tt, w'', []))
  | _ => run = UB Indeterminate
  end.
Proof.
  intros Hf Hd Hh run. pose proof (first_registration signum f data d h Hd Hh found) as E. fold run in E.
  destruct (read_action found) as [[flags mask]|u|] eqn:Er; [|rewrite E; destruct found as [[?|] [?|]]; cbn in Er; by simplify_eq|by destruct found as [[?|] [?|]]].
  set (w' := mkWorld _ _ _ _) in E. eexists w', _. split; [exact E|]. split; [done|]. split.
  { intros s Hs. unfold take_signal. rewrite bind_gets. cbn [actions w']. by rewrite lookup_singleton_ne. }
  destruct (single_ok h Hh) as [Hwh Hih], (single_ok d Hd) as [Hwd Hid].
  assert (forall acts, let w := set_actions acts w' in signal_handler_proc signum w = Ok (tt, w, [EvLock; EvUnlock; EvCall f [signum; data]])) as Hproc.
  { intros acts w. assert (handlers_ok w (single h)) as Ho.
    { split; try done; cbn [handlers w w' set_actions]; rewrite Hih.
      - intros y ->%list_elem_of_singleton. by rewrite lookup_singleton_eq.
      - by intros y y' x x' ->%list_elem_of_singleton ->%list_elem_of_singleton. }
    assert (handles w (single h) signum h found (single d)) as Hs.
    { split; try done; cbn [handlers datas w w' set_actions].
      - rewrite Hih. by apply list_elem_of_singleton.
      - apply lookup_singleton_eq.
      - rewrite Hid. intros y ->%list_elem_of_singleton. by rewrite lookup_singleton_eq. }
    rewrite (signal_proc_calls _ _ _ _ _ _ Ho Hs), Hid. cbn. unfold data_calls. rewrite lookup_singleton_eq. cbn.
    by rewrite (proj2 (Z.eqb_neq f NULL)). }
  exists (if resets flags then set_actions ∅ w' else w'). unfold take_signal at 1. rewrite bind_gets. cbn [actions w']. rewrite lookup_singleton_eq.
  destruct (resets flags); cbn [when]; (split; [|split; [done|]]); [|done|by rewrite bind_mret; apply (Hproc {[signum := (flags, mask)]})|done].
  rewrite bind_modify. cbn [actions w']. rewrite delete_singleton_eq. apply Hproc.
Qed.
Lemma register_then_signal_witness :
  exists w' t, signal_handler_register (mkGrants 16 32 (mkSigaction (Some SA_RESETHAND) (Some ∅)) true true true true true true) 15 8 99 initial
      = Ok (ALIB_OK, w', t) /\ actions w' = {[15 := (SA_RESETHAND, ∅)]} /\
    (forall s, s <> 15 -> take_signal s w' = Ok (tt, w', [])) /\
    exists w'', take_signal 15 w' = Ok (tt, w'', [EvLock; EvUnlock; EvCall 8 [15; 99]]) /\
      (resets SA_RESETHAND = false -> w'' = w') /\ (resets SA_RESETHAND = true -> take_signal 15 w'' = Ok (tt, w'', [])).
Proof. by apply (register_then_signal 15 8 99 16 32 (mkSigaction (Some SA_RESETHAND) (Some ∅))). Defined.

(** Signal 15 with two records, for the same data. *)
Definition no_flags : sigaction := mkSigaction (Some 0) (Some ∅).
Definition two_world : world :=
  mkWorld (Some (single 32)) {[32 := mkSignalHandler 15 (Some (mkArrayList (Some [16; NULL; 24; NULL]) 2 4 ULONG_MAX true true false)) no_flags]}
    {[16 := mkSignalData 8 99; 24 := mkSignalData 9 99]} {[15 := (0, ∅)]}.
Lemma two_world_ok : handlers_ok two_world (single 32) /\
  handles two_world (single 32) 15 32 no_flags (mkArrayList (Some [16; NULL; 24; NULL]) 2 4 ULONG_MAX true true false).
Proof.
  destruct (single_ok 32) as [Hw Hi]; [done|]. split; split; try done; rewrite ?Hi.
  - intros y ->%list_elem_of_singleton. by eexists.
  - by intros y y' x x' ->%list_elem_of_singleton ->%list_elem_of_singleton.
  - by apply list_elem_of_singleton.
  - intros v Hv. change (v ∈ [16; 24]) in Hv. apply elem_of_cons in Hv as [->|Hv]; [|apply list_elem_of_singleton in Hv as ->]; by eexists.
Qed.
Lemma signal_calls_witness :
  signal_handler_proc 15 two_world = Ok (tt, two_world, [EvLock; EvUnlock; EvCall 8 [15; 99]; EvCall 9 [15; 99]]) /\
  signal_handler_proc 2 two_world = Ok (tt, two_world, [EvLock; EvUnlock]).
Proof.
  destruct two_world_ok as [Ho Hh]. split.
  - exact (proj1 (signal_calls _ _ 15 Ho) _ _ _ Hh).
  - apply (proj2 (signal_calls _ _ 2 Ho)). intros h x Hh'. destruct (single_ok 32) as [_ Hi]; [done|]. rewrite Hi in Hh'.
    apply list_elem_of_singleton in Hh' as ->. by intros [= <-].
Defined.
(** Both callbacks have the data: one of them is left. *)
Lemma deregister_takes_out_witness : exists w' l' t,
  signal_handler_deregister true 15 NULL 99 two_world = Ok (tt, w', t) /\
  handlers w' !! 32 = Some (mkSignalHandler 15 (Some l') no_flags) /\ wf l' /\ items l' = [24].
Proof.
  destruct two_world_ok as [Ho Hh]. apply (proj2 (deregister_takes_out _ _ _ 15 32 no_flags NULL 99 Ho Hh)).
  by repeat constructor.
Defined.
