(* ===== verification/ThreadedTimerEvent.v ===== *)
(** A timer event with a thread of its own, [source/ThreadedTimerEvent.c]: it
    inherits from [TimerEvent], whose check the thread calls again and again,
    and whose deletion it takes part in through [freeInheritor].  The world
    holds the events, their timers and, for each event, its mutex and its
    condition.  Other threads act where the mutex is free: what they do there
    is an argument ([others]); [join] is what the event's thread does until it
    is over. *)
From S2P Require Import Prelude Effects Heap AlibTypes AlibTime TimerEvent.
Open Scope Z_scope.

(** The functions an event may point to. *)
Inductive callback := UserCb (f : Z) | FreeThreaded.
Notation event_obj := (TimerEvent callback).
(** [made]: the mutex and the condition are initialized and not destroyed;
    [broadcasts]: how often the condition was broadcast. *)
Record sync := mkSync { made : bool; held : bool; broadcasts : Z }.
Record world := mkWorld { events : gmap Z event_obj; timers : gmap Z Timer; syncs : gmap Z sync }.
#[export] Instance events_store : Store world event_obj := {|
  objs := events; put m w := mkWorld m (timers w) (syncs w);
  objs_put _ _ := eq_refl; put_put _ _ _ := eq_refl; put_objs w := match w with mkWorld _ _ _ => eq_refl end |}.
#[export] Instance timers_store : Store world Timer := {|
  objs := timers; put m w := mkWorld (events w) m (syncs w);
  objs_put _ _ := eq_refl; put_put _ _ _ := eq_refl; put_objs w := match w with mkWorld _ _ _ => eq_refl end |}.

(** The members of the event itself: they are there as long as it is. *)
Definition sync_of (event : ptr) : M world sync := fun w =>
  match syncs w !! event with
  | Some s => if made s then Ok (s, w, []) else UB Dangling
  | None => UB Indeterminate
  end.
Definition set_sync (event : ptr) (s : sync) (w : world) : world := mkWorld (events w) (timers w) (<[event := s]> (syncs w)).
Definition load_sync (event : ptr) : M world sync := load_event (C := callback) event;; sync_of event.
Definition broadcast (event : ptr) : M world unit :=
  s ← load_sync event; modify (set_sync event (mkSync (made s) (held s) (broadcasts s + 1))).
Definition lock (event : ptr) : M world unit :=
  s ← load_sync event;
  if held s then lift Diverges else modify (set_sync event (mkSync (made s) true (broadcasts s)));; emit EvLock.
Definition unlock (event : ptr) : M world unit :=
  s ← load_sync event; modify (set_sync event (mkSync (made s) false (broadcasts s)));; emit EvUnlock.
(** A wait for the condition; the mutex must be held. *)
Definition cond_wait (event : ptr) (others : M world unit) : M world unit :=
  s ← load_sync event;
  if negb (held s) then lift (UB Indeterminate) else unlock event;; others;; lock event.
Definition has_flag (event : ptr) (flag : Z) : M world bool :=
  e ← load_event (C := callback) event; mret (raised (fp e) flag).
Notation raise := (raise_flag (C := callback)).
Notation lower := (lower_flag (C := callback)).
Definition timer_of (event : ptr) : M world ptr := e ← load_event (C := callback) event; mret (timer e).

Section threaded.
Context (join : ptr -> M world unit).

(** * Stopping *)
Definition ThreadedTimerEvent_stop_async (event : ptr) : M world unit :=
  if event =? NULL then mret tt else
  created ← has_flag event THREAD_CREATED;
  when created (raise event THREAD_STOP;; broadcast event;; lower event THREAD_CREATED).
Definition ThreadedTimerEvent_stop (event : ptr) : M world unit :=
  if event =? NULL then mret tt else
  called ← has_flag event OBJECT_CALLBACK_STATE;
  if called : bool then ThreadedTimerEvent_stop_async event else
  created ← has_flag event THREAD_CREATED;
  when created (raise event THREAD_STOP;; broadcast event;; join event;; lower event THREAD_CREATED).

(** * Destruction *)
Definition destroy_sync (event : ptr) : M world unit :=
  s ← load_sync event; modify (set_sync event (mkSync false (held s) (broadcasts s)));; emit EvMutexDestroy.
(** [call]: how the deletion of the base calls the functions it finds. *)
Definition freeThreadedTimerEvent (call : callback -> ptr -> M world unit) (event : ptr) : M world unit :=
  if event =? NULL then mret tt else
  raise event OBJECT_DELETE_STATE;;
  ThreadedTimerEvent_stop event;;
  destroy_sync event;;
  store_event event (set_free_inheritor None);;
  freeTimerEvent call event.
Definition delThreadedTimerEvent (call : callback -> ptr -> M world unit) (event : option ptr) : M world (option ptr) :=
  match event with None => mret None | Some e => freeThreadedTimerEvent call e;; mret (Some NULL) end.

(** The functions of an event; [user] runs the client's.  The fuel is for the
    deletions inside of deletions, of which there is one. *)
Context (user : Z -> ptr -> M world unit).
Fixpoint call (fuel : nat) (c : callback) (event : ptr) : M world unit :=
  match fuel with
  | O => lift Diverges
  | S k => match c with UserCb f => user f event | FreeThreaded => freeThreadedTimerEvent (call k) event end
  end.

(** * The thread *)

(** A turn: the readings of the check and of the restart, whether the mutex can
    be locked, the two clocks, and what the other threads do while this one
    waits for the end time. *)
Record turn := mkTurn {
  t_now : option timespec; t_restart : option timespec; t_lock : bool;
  t_mono : timespec; t_real : timespec; t_others : M world unit }.
Definition rung_state (event : ptr) : M world Z :=
  t ← timer_of event; on_timer t (fun o => r ← Timer_get_rung_state o; Ok (r, o)).
Definition loop_turn (fuel : nat) (event : ptr) (t : turn) : M world unit :=
  TimerEvent_check (call fuel) (t_now t) (t_restart t) event;;
  rung ← rung_state event;
  when (negb (rung =? 0)) (broadcast event);;
  (if t_lock t then lock event else raise event THREAD_STOP);;
  tm ← timer_of event;
  on_timer tm (fun o => end_time ← Timer_get_end_time_real_time (t_mono t) (t_real t) o; Ok (end_time, o));;
  cond_wait event (t_others t);;
  unlock event.
(** The result says whether the loop has ended. *)
Fixpoint loop_turns (fuel : nat) (event : ptr) (ts : list turn) : M world bool :=
  stop ← has_flag event THREAD_STOP;
  if stop : bool then mret true else
  match ts with
  | [] => mret false
  | t :: ts => loop_turn fuel event t;; loop_turns fuel event ts
  end.
Definition timer_loop (fuel : nat) (event : ptr) (ts : list turn) : M world bool :=
  if event =? NULL then mret true else
  raise event THREAD_IS_RUNNING;;
  over ← loop_turns fuel event ts;
  if over : bool then lower event THREAD_IS_RUNNING;; broadcast event;; broadcast event;; mret true else mret false.

(** * Starting *)

(** [while((fp & THREAD_IS_RUNNING) && (fp & THREAD_STOP)) pthread_cond_wait(...)]:
    what the other threads do in each wait. *)
Fixpoint wait_returned (event : ptr) (waits : list (M world unit)) : M world unit :=
  running ← has_flag event THREAD_IS_RUNNING; stop ← has_flag event THREAD_STOP;
  if running && stop then
    match waits with
    | [] => lift Diverges
    | others :: waits => cond_wait event others;; wait_returned event waits
    end
  else mret tt.
Definition start_thread (now : option timespec) (created : bool) (event : ptr) : M world Z :=
  t ← timer_of event; begin_timer now t;;
  lower event THREAD_STOP;;
  raise event THREAD_CREATED;;
  if created then mret ALIB_OK else lower event THREAD_CREATED;; mret ALIB_THREAD_ERR.
(** [created]: whether [pthread_create] succeeds. *)
Definition ThreadedTimerEvent_start (now : option timespec) (locks created : bool) (waits : list (M world unit))
    (event : ptr) : M world Z :=
  if event =? NULL then mret ALIB_BAD_ARG else
  running ← has_flag event THREAD_IS_RUNNING; stop ← has_flag event THREAD_STOP;
  if running && negb stop then mret ALIB_OK else
  have ← has_flag event THREAD_CREATED;
  if have : bool then ThreadedTimerEvent_stop event;; start_thread now created event else
  if negb locks then mret ALIB_MUTEX_ERR else
  lock event;; wait_returned event waits;; unlock event;; start_thread now created event.

Definition ThreadedTimerEvent_wait (locks : bool) (others : M world unit) (event : ptr) : M world unit :=
  running ← has_flag event THREAD_IS_RUNNING;
  when (running && locks) (lock event;; cond_wait event others;; unlock event).
Definition ThreadedTimerEvent_is_running (event : ptr) : M world bool := has_flag event THREAD_IS_RUNNING.

(** * Construction *)
Definition initThreadedTimerEvent (fuel : nat) (event : option ptr) (t : ptr) (refTimer : bool)
    (rang_cb : option callback) (exData : ptr) (freeExData : bool) : M world (option ptr) :=
  match event with
  | None => mret None
  | Some _ =>
      r ← initTimerEvent (call fuel) event t refTimer rang_cb exData freeExData;
      p ← lift (deref r);
      load_event (C := callback) p;;
      modify (set_sync p (mkSync true false 0));;
      store_event p (set_free_inheritor (Some FreeThreaded));; mret r
  end.
Definition newThreadedTimerEvent_ex (fuel : nat) (k : option ptr) (raw : event_obj) (t : ptr) (refTimer : bool)
    (rang_cb : option callback) (exData : ptr) (freeExData : bool) : M world ptr :=
  event ← alloc k raw;
  r ← initThreadedTimerEvent fuel (Some event) t refTimer rang_cb exData freeExData; lift (deref r).
Definition newThreadedTimerEvent (fuel : nat) (k kt : option ptr) (raw : event_obj) (o : Timer) (sec nsec : Z)
    (rang_cb : option callback) (exData : ptr) (freeExData : bool) : M world ptr :=
  t ← new_timer kt o sec nsec;
  newThreadedTimerEvent_ex fuel k raw t false rang_cb exData freeExData.
End threaded.
