(* ===== verification/ThreadedTimerEventSpec.v ===== *)
(** What the thread of a timer event does: it rings at its times and tells
    nobody that it has rung; and what deleting the event does to it. *)
From S2P Require Import Prelude Effects Heap AlibTypes AlibTime TimerEvent ThreadedTimerEvent.
Open Scope Z_scope.

(** * The state of one event *)
Section event.
Context (ev : ptr) (e : event_obj) (evs : gmap Z event_obj) (tms : gmap Z Timer) (ss : gmap Z sync).
Hypothesis Hev : ev <> NULL.
Hypothesis Htm : timer e <> NULL.
(** The event with the flags [n], its timer, and its mutex and condition. *)
Definition world_with (n : Z) (tm : Timer) (s : sync) : world :=
  mkWorld (<[ev := set_fp n e]> evs) (<[timer e := tm]> tms) (<[ev := s]> ss).
Notation st := world_with.

Lemma bind_event_st {B} (k : event_obj -> M world B) n tm s :
  mbind k (load_event ev) (st n tm s) = k (set_fp n e) (st n tm s).
Proof. apply (bind_load (H := events_store)); [done|apply lookup_insert_eq]. Qed.
Lemma bind_flags {B} (k : unit -> M world B) (f : Z -> Z) n tm s :
  mbind k (store_event ev (fun e => set_fp (f (fp e)) e)) (st n tm s) = k tt (st (f n) tm s).
Proof.
  unfold store_event. rewrite (bind_update (H := events_store) ev _ _ _ (set_fp n e) Hev) by apply lookup_insert_eq.
  unfold st. cbn. by rewrite insert_insert_eq.
Qed.
Lemma bind_has_flag {B} (k : bool -> M world B) flag n tm s :
  mbind k (has_flag ev flag) (st n tm s) = k (raised n flag) (st n tm s).
Proof. unfold has_flag. by rewrite bind_bind, bind_event_st, bind_mret. Qed.
Lemma bind_sync {B} (k : sync -> M world B) n tm s : made s = true ->
  mbind k (load_sync ev) (st n tm s) = k s (st n tm s).
Proof.
  intros Hs. unfold load_sync. rewrite bind_bind, bind_event_st. apply bind_quiet. unfold sync_of. cbn.
  by rewrite lookup_insert_eq, Hs.
Qed.
Lemma set_sync_st n tm s s' : set_sync ev s' (st n tm s) = st n tm s'.
Proof. unfold set_sync, st. cbn. by rewrite insert_insert_eq. Qed.
Lemma broadcast_ok n tm h b : broadcast ev (st n tm (mkSync true h b)) = Ok (tt, st n tm (mkSync true h (b + 1)), []).
Proof. unfold broadcast. rewrite bind_sync by done. unfold modify. by rewrite set_sync_st. Qed.
Lemma lock_event_ok n tm b : lock ev (st n tm (mkSync true false b)) = Ok (tt, st n tm (mkSync true true b), [EvLock]).
Proof. unfold lock. rewrite bind_sync by done. cbn [held]. rewrite bind_modify. unfold emit. by rewrite set_sync_st. Qed.
Lemma unlock_event_ok n tm h b : unlock ev (st n tm (mkSync true h b)) = Ok (tt, st n tm (mkSync true false b), [EvUnlock]).
Proof. unfold unlock. rewrite bind_sync by done. rewrite bind_modify. unfold emit. by rewrite set_sync_st. Qed.
Lemma cond_wait_ok n m tm b b' others t :
  others (st n tm (mkSync true false b)) = Ok (tt, st m tm (mkSync true false b'), t) ->
  cond_wait ev others (st n tm (mkSync true true b)) = Ok (tt, st m tm (mkSync true true b'), EvUnlock :: t ++ [EvLock]).
Proof.
  intros E. unfold cond_wait. rewrite bind_sync by done. cbn [held negb].
  rewrite (bind_Ok _ _ _ _ _ _ (unlock_event_ok _ _ _ _)), (bind_Ok _ _ _ _ _ _ E), lock_event_ok. done.
Qed.
Lemma on_timer_st {A} n tm s (f : option Timer -> res (A * option Timer)) a tm' :
  f (Some tm) = Ok (a, Some tm') -> on_timer (timer e) f (st n tm s) = Ok (a, st n tm' s, []).
Proof.
  intros Hf. unfold on_timer. rewrite (proj2 (Z.eqb_neq (timer e) NULL) Htm).
  rewrite (bind_load (H := timers_store) (timer e) _ _ tm Htm) by apply lookup_insert_eq.
  rewrite (bind_lift _ _ _ _ Hf), (bind_lift _ tm') by done.
  rewrite (bind_update (H := timers_store) (timer e) _ _ _ tm Htm) by apply lookup_insert_eq.
  unfold st. cbn. by rewrite insert_insert_eq.
Qed.
End event.

(** * The check of the thread *)
(** Readings of a clock and run times of less than 2^50 seconds. *)
Definition small (t : timespec) : Prop := 0 <= tv_sec t <= 2 ^ 50 /\ 0 <= tv_nsec t < NANOS_PER_SECOND.
(** The end times that come from them. *)
Definition settled (t : timespec) : Prop :=
  Z.abs (tv_nsec t) <= NANOS_PER_SECOND /\ 0 <= total t <= 2 ^ 52 * NANOS_PER_SECOND.
Lemma settled_modest t : settled t -> modest t.
Proof. unfold settled, modest, total, NANOS_PER_SECOND. lia. Qed.
Lemma small_modest t : small t -> modest t.
Proof. unfold small, modest, NANOS_PER_SECOND. lia. Qed.

Definition RUNNING : Z := Z.lor THREAD_CREATED THREAD_IS_RUNNING.

(** The check of a timer that is due, up to the call of the client: it has rung, and is restarted as if it had been looked at in time,
    but for what passes until the clock is read again. *)
Lemma check_due_then (ev f : ptr) (e : event_obj) evs tms ss : ev <> NULL -> timer e <> NULL ->
  rang_cb e = Some (UserCb f) -> rang_parent_cb e = None -> forall now now' tm s,
  settled (end_time tm) -> small now -> small now' -> total now <= total now' -> small (run_time tm) -> total (end_time tm) <= total now ->
  exists tm', (rang tm' = 0 /\ run_time tm' = run_time tm /\ settled (end_time tm') /\
    total (end_time tm') = total (end_time tm) + total (run_time tm) + (total now' - total now)) /\
    forall call, TimerEvent_check call (Some now) (Some now') ev (world_with ev e evs tms ss RUNNING tm s)
      = (call (UserCb f) ev;; lower_flag ev OBJECT_CALLBACK_STATE;;
         e ← load_event ev;
         if raised (fp e) OBJECT_DELETE_STATE then freeTimerEvent call ev;; mret (mkTimespec 0 0, Some 1)
         else e ← load_event ev; t ← end_time_of (timer e); mret (t, Some 1))
        (world_with ev e evs tms ss (flag_raise RUNNING OBJECT_CALLBACK_STATE) tm' s).
Proof.
  intros Hev Htm Hcb Hparent now now' tm s He Hn Hn' Hnn Hr Hle.
  destruct (time_status_ok tm now true true) as (rT & oT & Es & _ & HoT & Hz);
    [by apply modest_moderate, settled_modest|by apply modest_moderate, small_modest|].
  rewrite (proj2 (Z.leb_le _ 0)) in Es by lia. destruct Hz as [-> HoTn]; [lia|].
  destruct (begin_before_ok (mkTimer 1 (run_time tm) (end_time tm)) now' oT) as (e' & Eb & Ht & Hnb).
  { by apply small_modest. } { by apply small_modest. }
  { unfold settled, small, moderate, total, NANOS_PER_SECOND in *. lia. }
  cbn [run_time] in Ht, Eb. exists (mkTimer 0 (run_time tm) e'). cbn [rang run_time end_time].
  split. { split; [done|]. split; [done|]. unfold settled, small, total, NANOS_PER_SECOND in *. lia. }
  intros call. unfold TimerEvent_check. rewrite bind_event_st by done. cbn [timer set_fp].
  erewrite bind_quiet; [|apply (on_timer_st ev e evs tms ss Htm _ tm _ _ _ (mkTimer 1 (run_time tm) (end_time tm))); by rewrite Es].
  cbn [ALIB_OK Z.eqb negb]. rewrite bind_lift with (a := mkTimespec 0 0) by done. cbn [tv_nsec tv_sec Z.eqb negb orb].
  erewrite bind_quiet; [|apply (on_timer_st ev e evs tms ss Htm); by rewrite Eb].
  rewrite bind_event_st by done. cbn [rang_parent_cb rang_cb set_fp]. rewrite Hparent, Hcb.
  unfold raise_flag at 1. by rewrite (bind_flags ev e evs tms ss Hev _ (fun n => flag_raise n OBJECT_CALLBACK_STATE)).
Qed.

Section rings.
Context (ev f : ptr) (e : event_obj) (evs : gmap Z event_obj) (tms : gmap Z Timer) (ss : gmap Z sync).
Context (join : ptr -> M world unit) (user : Z -> ptr -> M world unit).
Hypothesis Hev : ev <> NULL.
Hypothesis Htm : timer e <> NULL.
Hypothesis Hcb : rang_cb e = Some (UserCb f).
Hypothesis Hparent : rang_parent_cb e = None.
(** The client's callback does nothing to the event. *)
Hypothesis Huser : forall w, user f ev w = Ok (tt, w, [EvCall f [ev]]).
Notation st := (world_with ev e evs tms ss).
Notation check := (TimerEvent_check (call join user 1)).

(** The timer is not due. *)
Lemma check_early now now' tm s :
  settled (end_time tm) -> small now -> total now < total (end_time tm) ->
  check (Some now) now' ev (st RUNNING tm s) = Ok ((end_time tm, Some 0), st RUNNING tm s, []).
Proof.
  intros He Hn Hlt.
  destruct (time_status_ok tm now true true) as (rT & oT & Es & HrT & _);
    [by apply modest_moderate, settled_modest|by apply modest_moderate, small_modest|].
  rewrite (proj2 (Z.leb_gt _ 0)) in Es by lia.
  unfold TimerEvent_check. rewrite bind_event_st by done. cbn [timer set_fp].
  erewrite bind_quiet; [|apply (on_timer_st ev e evs tms ss Htm _ tm _ _ _ (mkTimer (rang tm) (run_time tm) (end_time tm))); by rewrite Es].
  replace (mkTimer _ _ _) with tm by (by destruct tm).
  cbn [ALIB_OK Z.eqb negb]. rewrite bind_lift with (a := rT) by done.
  assert (negb (tv_nsec rT =? 0) || negb (tv_sec rT =? 0) = true) as ->.
  { destruct (Z.eqb_spec (tv_nsec rT) 0), (Z.eqb_spec (tv_sec rT) 0); try done. unfold total, NANOS_PER_SECOND in *. lia. }
  rewrite bind_event_st by done. cbn [timer set_fp].
  erewrite bind_quiet; [|by apply (on_timer_st ev e evs tms ss Htm _ tm _ _ (end_time tm) tm)]. done.
Qed.
(** The timer is due: it rings, and is restarted as if it had been looked at in time. *)
Lemma check_rings now now' tm s :
  settled (end_time tm) -> small now -> small now' -> total now <= total now' -> small (run_time tm) -> total (end_time tm) <= total now ->
  exists tm', check (Some now) (Some now') ev (st RUNNING tm s) = Ok ((end_time tm', Some 1), st RUNNING tm' s, [EvCall f [ev]]) /\
    rang tm' = 0 /\ run_time tm' = run_time tm /\ settled (end_time tm') /\
    total (end_time tm') = total (end_time tm) + total (run_time tm) + (total now' - total now).
Proof.
  intros He Hn Hn' Hnn Hr Hle.
  destruct (check_due_then ev f e evs tms ss Hev Htm Hcb Hparent now now' tm s He Hn Hn' Hnn Hr Hle) as (tm' & Hall & E).
  exists tm'. split; [|done]. rewrite E. eapply bind_loud; [by apply Huser|]. unfold lower_flag.
  rewrite (bind_flags ev e evs tms ss Hev _ (fun n => flag_lower n OBJECT_CALLBACK_STATE)), bind_event_st by done.
  cbn [fp set_fp]. change (flag_lower (flag_raise RUNNING OBJECT_CALLBACK_STATE) OBJECT_CALLBACK_STATE) with RUNNING.
  change (raised RUNNING OBJECT_DELETE_STATE) with false. cbv iota.
  rewrite bind_event_st by done. cbn [timer set_fp].
  by erewrite bind_quiet; [|by apply (on_timer_st ev e evs tms ss Htm)].
Qed.

(** What a turn reads: the clock in the check, the clock at the restart, which is not earlier, and the two clocks before the wait. *)
Record reading := mkReading { at_check : timespec; at_restart : timespec; at_mono : timespec; at_real : timespec }.
Definition sound (r : reading) : Prop :=
  small (at_check r) /\ small (at_restart r) /\ small (at_mono r) /\ small (at_real r) /\ total (at_check r) <= total (at_restart r).
Definition same_reading (now : timespec) : reading := mkReading now now now now.
(** The next end time is one run time after the last one, and what passes between the two readings later. *)
Definition next_end (run end_ : Z) (r : reading) : Z := end_ + run + (total (at_restart r) - total (at_check r)).
(** What is called at each turn, for a timer that ends at [end_]. *)
Fixpoint ring_calls (run end_ : Z) (rs : list reading) : list (list event) :=
  match rs with
  | [] => []
  | r :: rs =>
      if end_ <=? total (at_check r) then [EvCall f [ev]] :: ring_calls run (next_end run end_ r) rs
      else [] :: ring_calls run end_ rs
  end.
(** A turn in whose wait the other threads do [others]; its mutex can be locked. *)
Definition turn_of (others : M world unit) (r : reading) : turn :=
  mkTurn (Some (at_check r)) (Some (at_restart r)) true (at_mono r) (at_real r) others.
Definition turn_at (others : M world unit) (now : timespec) : turn := turn_of others (same_reading now).
Definition waiting (t : list event) : list event := [EvLock; EvUnlock] ++ t ++ [EvLock; EvUnlock].

Lemma loop_turn_ok r tm b b' others m t :
  settled (end_time tm) -> sound r -> small (run_time tm) -> rang tm = 0 ->
  (forall tm, others (st RUNNING tm (mkSync true false b)) = Ok (tt, st m tm (mkSync true false b'), t)) ->
  exists tm', loop_turn join user 1 ev (turn_of others r) (st RUNNING tm (mkSync true false b))
      = Ok (tt, st m tm' (mkSync true false b'),
            (if total (end_time tm) <=? total (at_check r) then [EvCall f [ev]] else []) ++ waiting t) /\
    settled (end_time tm') /\ rang tm' = 0 /\ run_time tm' = run_time tm /\
    total (end_time tm') = (if total (end_time tm) <=? total (at_check r) then next_end (total (run_time tm)) (total (end_time tm)) r else total (end_time tm)).
Proof.
  intros He (Hn & Hn' & Hm & Hrl & Hnn) Hr H0 Ho.
  assert (exists tm' q c, check (Some (at_check r)) (Some (at_restart r)) ev (st RUNNING tm (mkSync true false b))
      = Ok (q, st RUNNING tm' (mkSync true false b), c) /\
    c = (if total (end_time tm) <=? total (at_check r) then [EvCall f [ev]] else []) /\
    settled (end_time tm') /\ rang tm' = 0 /\ run_time tm' = run_time tm /\
    total (end_time tm') = (if total (end_time tm) <=? total (at_check r) then next_end (total (run_time tm)) (total (end_time tm)) r else total (end_time tm)))
    as (tm' & q & c & Ec & Hc & He' & H0' & Hr' & Ht').
  { destruct (Z.leb_spec (total (end_time tm)) (total (at_check r))) as [Hle|Hlt].
    - destruct (check_rings (at_check r) (at_restart r) tm (mkSync true false b)) as (tm' & Ec & ? & ? & ? & ?); [done..|]. by eexists tm', _, _.
    - eexists tm, _, []. by split; [by apply check_early|]. }
  exists tm'. split; [|done]. rewrite <- Hc.
  unfold loop_turn. cbn [turn_of t_now t_restart t_lock t_mono t_real t_others].
  rewrite (bind_Ok _ _ _ _ _ _ Ec).
  assert (rung_state ev (st RUNNING tm' (mkSync true false b)) = Ok (0, st RUNNING tm' (mkSync true false b), [])) as Erung.
  { unfold rung_state, timer_of. rewrite bind_bind, bind_event_st by done. rewrite bind_mret. cbn [timer set_fp].
    apply (on_timer_st ev e evs tms ss Htm). cbn. by rewrite H0'. }
  rewrite (bind_quiet _ _ _ _ _ Erung). cbn [Z.eqb negb when]. rewrite bind_mret.
  rewrite (bind_Ok _ _ _ _ _ _ (lock_event_ok ev e evs tms ss Hev _ _ _)).
  unfold timer_of. rewrite bind_bind, bind_event_st, bind_mret by done. cbn [timer set_fp].
  assert (exists rt, Timer_get_end_time_real_time (at_mono r) (at_real r) (Some tm') = Ok rt) as [rt Ert].
  { unfold Timer_get_end_time_real_time.
    destruct (subtract_ok (end_time tm') (at_mono r)) as (d & -> & Hd & Hb & _);
      [by apply modest_moderate, settled_modest|by apply modest_moderate, small_modest|]. rstep.
    destruct (add_ts_ok (at_real r) d) as (r' & -> & _); [by apply modest_moderate, small_modest| |by eexists].
    unfold settled, small, moderate, total, NANOS_PER_SECOND in *. lia. }
  erewrite bind_quiet; [|apply (on_timer_st ev e evs tms ss Htm _ tm'); by rewrite Ert].
  rewrite (bind_Ok _ _ _ _ _ _ (cond_wait_ok ev e evs tms ss Hev _ _ _ _ _ _ _ (Ho tm'))), unlock_event_ok by done.
  cbn. by rewrite <- !app_assoc.
Qed.
(** What [ThreadedTimerEvent_stop] does before it joins the thread. *)
Definition stop_request : M world unit := raise_flag (C := callback) ev THREAD_STOP;; broadcast ev.
Lemma stop_request_ok tm b : stop_request (st RUNNING tm (mkSync true false b))
  = Ok (tt, st (flag_raise RUNNING THREAD_STOP) tm (mkSync true false (b + 1)), []).
Proof.
  unfold stop_request, raise_flag. rewrite (bind_flags ev e evs tms ss Hev _ (fun n => flag_raise n THREAD_STOP)).
  by apply broadcast_ok.
Qed.
Lemma turns_ok rs last : forall tm b, Forall sound (rs ++ [last]) ->
  settled (end_time tm) -> small (run_time tm) -> rang tm = 0 ->
  exists tm', loop_turns join user 1 ev ((turn_of (mret tt) <$> rs) ++ [turn_of stop_request last]) (st RUNNING tm (mkSync true false b))
    = Ok (true, st (flag_raise RUNNING THREAD_STOP) tm' (mkSync true false (b + 1)),
          concat ((fun c => c ++ waiting []) <$> ring_calls (total (run_time tm)) (total (end_time tm)) (rs ++ [last]))).
Proof.
  induction rs as [|r rs IH]; intros tm b Hs He Hr H0; cbn [app fmap list_fmap ring_calls loop_turns] in *; inversion_clear Hs as [|? ? Hn Hs'].
  - rewrite bind_has_flag by done. change (raised RUNNING THREAD_STOP) with false. cbv iota.
    destruct (loop_turn_ok last tm b (b + 1) stop_request (flag_raise RUNNING THREAD_STOP) []) as (tm' & E & _);
      [done..|by intros; apply stop_request_ok|].
    exists tm'. rewrite (bind_Ok _ _ _ _ _ _ E), bind_has_flag by done.
    change (raised (flag_raise RUNNING THREAD_STOP) THREAD_STOP) with true. cbv iota. cbn. destruct (_ <=? _); cbn; done.
  - rewrite bind_has_flag by done. change (raised RUNNING THREAD_STOP) with false. cbv iota.
    destruct (loop_turn_ok r tm b b (mret tt : M world unit) RUNNING []) as (tm' & E & He' & H0' & Hr' & Ht'); [done..|].
    destruct (IH tm' b) as (tm2 & E2); [done|done|by rewrite Hr'|done|].
    exists tm2. rewrite (bind_Ok _ _ _ _ _ _ E), E2, Hr', Ht'.
    destruct (Z.leb_spec (total (end_time tm)) (total (at_check r))); done.
Qed.

(** C20: where the callback leaves the event alone, the clocks do not go back within a turn, and the mutex of the event can be locked, the thread calls back at every turn that
    finds the end time reached, once in a turn however much later it is, and then takes as end time one run time more than the last one, and
    what passed between the turn's two readings of the clock; it ends after it is asked to stop.  That it has rung it tells nobody: the condition that [ThreadedTimerEvent_wait] waits for is
    broadcast by whoever stops the thread and twice when the thread ends, and at no ring. *)
Theorem loop_rings_quietly (rs : list reading) (last : reading) (tm : Timer) (b : Z) :
  Forall sound (rs ++ [last]) -> settled (end_time tm) -> small (run_time tm) -> rang tm = 0 ->
  exists tm', timer_loop join user 1 ev ((turn_of (mret tt) <$> rs) ++ [turn_of stop_request last])
      (st THREAD_CREATED tm (mkSync true false b))
    = Ok (true, st (Z.lor THREAD_CREATED THREAD_STOP) tm' (mkSync true false (b + 1 + 2)),
          concat ((fun c => c ++ waiting []) <$> ring_calls (total (run_time tm)) (total (end_time tm)) (rs ++ [last]))).
Proof.
  intros Hs He Hr H0. destruct (turns_ok rs last tm b Hs He Hr H0) as [tm' E]. exists tm'.
  unfold timer_loop. rewrite (proj2 (Z.eqb_neq ev NULL) Hev). unfold raise_flag, lower_flag.
  rewrite (bind_flags ev e evs tms ss Hev _ (fun n => flag_raise n THREAD_IS_RUNNING)).
  change (flag_raise THREAD_CREATED THREAD_IS_RUNNING) with RUNNING. eapply bind_loud; [exact E|]. cbv beta iota.
  rewrite (bind_flags ev e evs tms ss Hev _ (fun n => flag_lower n THREAD_IS_RUNNING)).
  rewrite (bind_quiet _ _ _ _ _ (broadcast_ok ev e evs tms ss Hev _ _ _ _)).
  rewrite (bind_quiet _ _ _ _ _ (broadcast_ok ev e evs tms ss Hev _ _ _ _)).
  by replace (b + 1 + 2) with (b + 1 + 1 + 1) by lia.
Qed.
End rings.


(** An event of ten seconds, whose thread looks three times and is then stopped. *)
Definition ten_seconds : event_obj := mkTimerEvent 32 false NULL false (Some (UserCb 7)) None None NULL (Some FreeThreaded) THREAD_CREATED.
Definition logging_user : Z -> ptr -> M world unit := fun f ev => emit (EvCall f [ev]).
Lemma loop_rings_quietly_witness :
  let late := mkReading (mkTimespec 111 0) (mkTimespec 111 5) (mkTimespec 111 6) (mkTimespec 9 0) in exists tm',
  timer_loop (fun _ => mret tt) logging_user 1 16
    (map (turn_of (mret tt)) [same_reading (mkTimespec 105 0); late; same_reading (mkTimespec 120 4); same_reading (mkTimespec 120 5)]
       ++ [turn_of (stop_request 16) (same_reading (mkTimespec 121 0))])
    (world_with 16 ten_seconds ∅ ∅ ∅ THREAD_CREATED (mkTimer 0 (mkTimespec 10 0) (mkTimespec 110 0)) (mkSync true false 0))
  = Ok (true, world_with 16 ten_seconds ∅ ∅ ∅ (Z.lor THREAD_CREATED THREAD_STOP) tm' (mkSync true false 3),
        waiting [] ++ (EvCall 7 [16] :: waiting []) ++ waiting [] ++ (EvCall 7 [16] :: waiting []) ++ waiting []).
Proof.
  intros late. destruct (loop_rings_quietly 16 7 ten_seconds ∅ ∅ ∅ (fun _ => mret tt) logging_user ltac:(done) ltac:(done) eq_refl eq_refl ltac:(done)
    [same_reading (mkTimespec 105 0); late; same_reading (mkTimespec 120 4); same_reading (mkTimespec 120 5)] (same_reading (mkTimespec 121 0))
    (mkTimer 0 (mkTimespec 10 0) (mkTimespec 110 0)) 0) as [tm' E]; [..|exists tm'; exact E].
  - repeat constructor; unfold total; cbn; lia.
  - unfold settled, total, NANOS_PER_SECOND. cbn. lia.
  - repeat constructor; cbn; lia.
  - done.
Defined.

(** * Deleting an event *)
Section deletion.
Context (ev : ptr) (e : event_obj) (evs : gmap Z event_obj) (tms : gmap Z Timer) (ss : gmap Z sync).
Context (user : Z -> ptr -> M world unit).
Hypothesis Hev : ev <> NULL.
Hypothesis Htm : timer e <> NULL.
Hypothesis Hown : refTimer e = false.
Hypothesis Hprep : prep_free_cb e = None.
Hypothesis Hdata : exData e = NULL.
Notation st e := (world_with ev e evs tms ss).
Notation orphan := (set_free_inheritor None e).
(** The event and its timer are gone; what is left says that the mutex was destroyed. *)
Definition gone (b : Z) : world := mkWorld (delete ev evs) (delete (timer e) tms) (<[ev := mkSync false false b]> ss).

(** The thread that is joined: it looks at its flags and ends. *)
Definition thread_rest (ev : ptr) : M world unit := timer_loop (fun _ => mret tt) user 1 ev [];; mret tt.
Lemma thread_rest_ok n tm b : raised (flag_raise n THREAD_IS_RUNNING) THREAD_STOP = true ->
  thread_rest ev (st e n tm (mkSync true false b))
  = Ok (tt, st e (flag_lower (flag_raise n THREAD_IS_RUNNING) THREAD_IS_RUNNING) tm (mkSync true false (b + 1 + 1)), []).
Proof.
  intros Hn. unfold thread_rest, timer_loop. rewrite (proj2 (Z.eqb_neq ev NULL) Hev). unfold raise_flag, lower_flag.
  rewrite bind_bind, (bind_flags ev e evs tms ss Hev _ (fun n => flag_raise n THREAD_IS_RUNNING)).
  cbn [loop_turns]. rewrite !bind_bind, bind_has_flag, Hn, bind_mret by done. cbv iota.
  rewrite bind_bind, (bind_flags ev e evs tms ss Hev _ (fun n => flag_lower n THREAD_IS_RUNNING)).
  rewrite bind_bind, (bind_quiet _ _ _ _ _ (broadcast_ok ev e evs tms ss Hev _ _ _ _)).
  by rewrite bind_bind, (bind_quiet _ _ _ _ _ (broadcast_ok ev e evs tms ss Hev _ _ _ _)).
Qed.
Lemma destroy_ok e' n tm b : destroy_sync ev (st e' n tm (mkSync true false b)) = Ok (tt, st e' n tm (mkSync false false b), [EvMutexDestroy]).
Proof. unfold destroy_sync. rewrite bind_sync by done. rewrite bind_modify. unfold emit. by rewrite set_sync_st. Qed.
Lemma bind_orphan {B} (k : unit -> M world B) n tm s :
  mbind k (store_event ev (set_free_inheritor None)) (st e n tm s) = k tt (st orphan n tm s).
Proof.
  unfold store_event. rewrite (bind_update (H := events_store) ev _ _ _ (set_fp n e) Hev) by apply lookup_insert_eq.
  unfold world_with. cbn. by rewrite insert_insert_eq.
Qed.
(** The end of the base's deletion. *)
Lemma free_base_tail n tm b :
  (lower_flag ev OBJECT_CALLBACK_STATE;;
   e ← load_event (C := callback) ev;
   (if refTimer e then mret tt else freeTimer (timer e));;
   when (negb (exData e =? NULL) && freeExData e) (emit (EvFree (exData e)));;
   release (A := event_obj) ev) (st orphan n tm (mkSync false false b)) = Ok (tt, gone b, []).
Proof.
  unfold lower_flag. rewrite (bind_flags ev orphan evs tms ss Hev _ (fun n => flag_lower n OBJECT_CALLBACK_STATE)), bind_event_st by done.
  cbn [refTimer exData timer set_fp set_free_inheritor]. rewrite Hown, Hdata. unfold freeTimer.
  rewrite (proj2 (Z.eqb_neq (timer e) NULL) Htm).
  erewrite bind_quiet; [|apply (release_ok (H := timers_store) (timer e) _ tm); [done|apply lookup_insert_eq]].
  cbn [Z.eqb NULL negb andb when]. rewrite bind_mret.
  erewrite release_ok; [|done|apply lookup_insert_eq]. unfold gone. cbn. by rewrite !delete_insert_eq.
Qed.
(** The base deletes what no callback is running for and nothing inherits from. *)
Lemma free_base_orphan call n tm b :
  raised (flag_raise n OBJECT_DELETE_STATE) OBJECT_CALLBACK_STATE = false ->
  freeTimerEvent call ev (st orphan n tm (mkSync false false b)) = Ok (tt, gone b, []).
Proof.
  intros Hn. unfold freeTimerEvent. rewrite (proj2 (Z.eqb_neq ev NULL) Hev). unfold raise_flag.
  rewrite (bind_flags ev orphan evs tms ss Hev _ (fun n => flag_raise n OBJECT_DELETE_STATE)), bind_event_st by done.
  cbn [fp set_fp]. rewrite Hn. cbv iota.
  rewrite (bind_flags ev orphan evs tms ss Hev _ (fun n => flag_raise n OBJECT_CALLBACK_STATE)).
  cbn [prep_free_cb set_fp set_free_inheritor]. rewrite Hprep. cbn [call_if]. rewrite bind_mret, bind_event_st by done.
  cbn [freeInheritor set_fp set_free_inheritor call_if]. rewrite bind_mret. apply free_base_tail.
Qed.
Lemma free_rest_ok call n tm b :
  raised (flag_raise n OBJECT_DELETE_STATE) OBJECT_CALLBACK_STATE = false ->
  (destroy_sync ev;; store_event ev (set_free_inheritor None);; freeTimerEvent call ev) (st e n tm (mkSync true false b))
  = Ok (tt, gone b, [EvMutexDestroy]).
Proof. intros Hn. rewrite (bind_Ok _ _ _ _ _ _ (destroy_ok _ _ _ _)), bind_orphan, free_base_orphan by done. done. Qed.

(** Deleting an event whose callback is not running, whether its thread was started, runs, or not: the thread is asked to stop and
    joined, the mutex and the condition are destroyed, and the event and its timer released. *)
Theorem free_joins_and_releases (n : Z) (tm : Timer) (b : Z) (call : callback -> ptr -> M world unit) :
  n ∈ [FLAG_INIT; THREAD_CREATED; Z.lor THREAD_CREATED THREAD_IS_RUNNING] ->
  freeThreadedTimerEvent thread_rest call ev (st e n tm (mkSync true false b))
  = Ok (tt, gone (if n =? FLAG_INIT then b else b + 1 + 1 + 1), [EvMutexDestroy]).
Proof.
  intros Hn. unfold freeThreadedTimerEvent, ThreadedTimerEvent_stop. rewrite (proj2 (Z.eqb_neq ev NULL) Hev).
  unfold raise_flag, lower_flag. rewrite (bind_flags ev e evs tms ss Hev _ (fun n => flag_raise n OBJECT_DELETE_STATE)).
  rewrite !bind_bind, bind_has_flag by done.
  assert (raised (flag_raise n OBJECT_DELETE_STATE) OBJECT_CALLBACK_STATE = false) as -> by set_solver.
  rewrite bind_bind, bind_has_flag by done.
  assert (n = FLAG_INIT \/ raised (flag_raise n OBJECT_DELETE_STATE) THREAD_CREATED = true /\
    (n =? FLAG_INIT) = false /\
    raised (flag_raise (flag_raise (flag_raise n OBJECT_DELETE_STATE) THREAD_STOP) THREAD_IS_RUNNING) THREAD_STOP = true /\
    raised (flag_raise (flag_lower (flag_lower (flag_raise (flag_raise (flag_raise n OBJECT_DELETE_STATE) THREAD_STOP)
      THREAD_IS_RUNNING) THREAD_IS_RUNNING) THREAD_CREATED) OBJECT_DELETE_STATE) OBJECT_CALLBACK_STATE = false)
    as [->|(-> & -> & Hs & Hd)] by set_solver.
  - change (raised (flag_raise FLAG_INIT OBJECT_DELETE_STATE) THREAD_CREATED) with false. cbn [when]. rewrite bind_mret. by apply free_rest_ok.
  - cbn [when]. rewrite bind_bind, (bind_flags ev e evs tms ss Hev _ (fun n => flag_raise n THREAD_STOP)).
    rewrite bind_bind, (bind_quiet _ _ _ _ _ (broadcast_ok ev e evs tms ss Hev _ _ _ _)).
    rewrite bind_bind, (bind_quiet _ _ _ _ _ (thread_rest_ok _ _ _ Hs)).
    rewrite (bind_flags ev e evs tms ss Hev _ (fun n => flag_lower n THREAD_CREATED)). by apply free_rest_ok.
Qed.

(** The same in its callback: the thread is detached, the mutex and the condition are destroyed, the rest waits. *)
Notation in_callback := (flag_raise RUNNING OBJECT_CALLBACK_STATE).
Notation deferred := (Z.lor (Z.lor THREAD_IS_RUNNING THREAD_STOP) (Z.lor OBJECT_DELETE_STATE OBJECT_CALLBACK_STATE)).
Lemma free_in_callback join call n tm b : flag_raise n OBJECT_DELETE_STATE = flag_raise in_callback OBJECT_DELETE_STATE ->
  freeThreadedTimerEvent join call ev (st e n tm (mkSync true false b))
  = Ok (tt, st orphan deferred tm (mkSync false false (b + 1)), [EvMutexDestroy]).
Proof.
  intros Hn. unfold freeThreadedTimerEvent, ThreadedTimerEvent_stop, ThreadedTimerEvent_stop_async.
  rewrite (proj2 (Z.eqb_neq ev NULL) Hev). unfold raise_flag, lower_flag.
  rewrite (bind_flags ev e evs tms ss Hev _ (fun n => flag_raise n OBJECT_DELETE_STATE)), Hn.
  rewrite !bind_bind, bind_has_flag by done.
  change (raised (flag_raise in_callback OBJECT_DELETE_STATE) OBJECT_CALLBACK_STATE) with true. cbv iota.
  rewrite !bind_bind, bind_has_flag by done.
  change (raised (flag_raise in_callback OBJECT_DELETE_STATE) THREAD_CREATED) with true. cbn [when].
  rewrite bind_bind, (bind_flags ev e evs tms ss Hev _ (fun n => flag_raise n THREAD_STOP)).
  rewrite bind_bind, (bind_quiet _ _ _ _ _ (broadcast_ok ev e evs tms ss Hev _ _ _ _)).
  rewrite (bind_flags ev e evs tms ss Hev _ (fun n => flag_lower n THREAD_CREATED)).
  rewrite (bind_Ok _ _ _ _ _ _ (destroy_ok _ _ _ _)), bind_orphan. unfold freeTimerEvent.
  rewrite (proj2 (Z.eqb_neq ev NULL) Hev). unfold raise_flag.
  rewrite (bind_flags ev orphan evs tms ss Hev _ (fun n => flag_raise n OBJECT_DELETE_STATE)), bind_event_st by done. done.
Qed.

(** An event that is deleted in its own callback, the thread being the one that runs the callback: the deletion waits until the
    callback has returned, the check then releases the event, and the thread goes on with the event that is gone. *)
Theorem own_deletion_faults (f : Z) (tm : Timer) (b : Z) (now : timespec) (others : M world unit)
    (join : ptr -> M world unit) (call' : callback -> ptr -> M world unit) :
  rang_cb e = Some (UserCb f) -> rang_parent_cb e = None ->
  (forall w, user f ev w = freeThreadedTimerEvent join call' ev w) ->
  settled (end_time tm) -> small now -> small (run_time tm) -> total (end_time tm) <= total now ->
  (exists r, TimerEvent_check (call join user 1) (Some now) (Some now) ev (st e RUNNING tm (mkSync true false b))
     = Ok (r, gone (b + 1), [EvMutexDestroy])) /\
  loop_turn join user 1 ev (turn_at others now) (st e RUNNING tm (mkSync true false b)) = UB Dangling.
Proof.
  intros Hcb Hparent Hu He Hn Hr Hle.
  assert (exists r, TimerEvent_check (call join user 1) (Some now) (Some now) ev (st e RUNNING tm (mkSync true false b))
     = Ok (r, gone (b + 1), [EvMutexDestroy])) as [r E].
  2:{ split; [by exists r|]. unfold loop_turn. cbn [turn_at turn_of same_reading at_check at_restart t_now t_restart]. rewrite (bind_Ok _ _ _ _ _ _ E).
      unfold rung_state, timer_of, load_event. rewrite !bind_bind. unfold load.
      rewrite (proj2 (Z.eqb_neq ev NULL) Hev). unfold mbind, M_bind. cbn. by rewrite lookup_delete_eq. }
  destruct (check_due_then ev f e evs tms ss Hev Htm Hcb Hparent now now tm (mkSync true false b) He Hn Hn ltac:(lia) Hr Hle) as (tm' & _ & E).
  eexists. rewrite E. cbn [call]. rewrite (bind_Ok _ _ _ _ _ _ (eq_trans (Hu _) (free_in_callback _ _ _ _ _ eq_refl))).
  unfold lower_flag. rewrite (bind_flags ev orphan evs tms ss Hev _ (fun n => flag_lower n OBJECT_CALLBACK_STATE)), bind_event_st by done.
  cbn [fp set_fp]. change (raised (flag_lower deferred OBJECT_CALLBACK_STATE) OBJECT_DELETE_STATE) with true. cbv iota.
  by erewrite bind_quiet by (by apply free_base_orphan).
Qed.
End deletion.

(** The event of ten seconds again; its callback deletes it. *)
Definition deleting_user : Z -> ptr -> M world unit := fun _ => freeThreadedTimerEvent (fun _ => mret tt) (fun _ _ => mret tt).
Lemma own_deletion_faults_witness :
  let w := world_with 16 ten_seconds ∅ ∅ ∅ RUNNING (mkTimer 0 (mkTimespec 10 0) (mkTimespec 110 0)) (mkSync true false 0) in
  (exists r, TimerEvent_check (call (fun _ => mret tt) deleting_user 1) (Some (mkTimespec 111 0)) (Some (mkTimespec 111 0)) 16 w
     = Ok (r, gone 16 ten_seconds ∅ ∅ ∅ 1, [EvMutexDestroy])) /\
  loop_turn (fun _ => mret tt) deleting_user 1 16 (turn_at (mret tt) (mkTimespec 111 0)) w = UB Dangling.
Proof.
  apply (own_deletion_faults 16 ten_seconds ∅ ∅ ∅ deleting_user ltac:(done) ltac:(done) eq_refl eq_refl eq_refl 7
    (mkTimer 0 (mkTimespec 10 0) (mkTimespec 110 0)) 0 (mkTimespec 111 0) (mret tt) (fun _ => mret tt) (fun _ _ => mret tt) eq_refl eq_refl
    (fun _ => eq_refl)); unfold small, settled, total, NANOS_PER_SECOND; cbn; lia.
Defined.

(** Deleted through its base, as any [TimerEvent], a running event is not joined: its thread is detached, because the base has raised
    the callback flag when it calls [freeInheritor], and the event is released while the thread waits. *)
Lemma free_base_detaches ev e evs tms ss join user tm b :
  ev <> NULL -> timer e <> NULL -> refTimer e = false -> prep_free_cb e = None -> exData e = NULL ->
  freeInheritor e = Some FreeThreaded ->
  freeTimerEvent (call join user 2) ev (world_with ev e evs tms ss RUNNING tm (mkSync true false b))
    = Ok (tt, gone ev e evs tms ss (b + 1), [EvMutexDestroy]) /\
  has_flag ev THREAD_STOP (gone ev e evs tms ss (b + 1)) = UB Dangling.
Proof.
  intros Hev Htm Hown Hprep Hdata Hinh. split.
  - unfold freeTimerEvent at 1. rewrite (proj2 (Z.eqb_neq ev NULL) Hev). unfold raise_flag, lower_flag.
    rewrite (bind_flags ev e evs tms ss Hev _ (fun n => flag_raise n OBJECT_DELETE_STATE)), bind_event_st by done.
    change (raised (fp (set_fp (flag_raise RUNNING OBJECT_DELETE_STATE) e)) OBJECT_CALLBACK_STATE) with false. cbv iota.
    rewrite (bind_flags ev e evs tms ss Hev _ (fun n => flag_raise n OBJECT_CALLBACK_STATE)).
    cbn [prep_free_cb set_fp]. rewrite Hprep. cbn [call_if]. rewrite bind_mret, bind_event_st by done.
    cbn [freeInheritor set_fp]. rewrite Hinh. cbn [call_if call].
    rewrite (bind_Ok _ _ _ _ _ _ (free_in_callback ev e evs tms ss Hev join (call join user 1)
      (flag_raise (flag_raise RUNNING OBJECT_DELETE_STATE) OBJECT_CALLBACK_STATE) tm b eq_refl)).
    by rewrite (free_base_tail ev e evs tms ss).
  - unfold has_flag, load_event, load. rewrite (proj2 (Z.eqb_neq ev NULL) Hev). unfold mbind, M_bind. cbn. by rewrite lookup_delete_eq.
Qed.
(** A time of zero makes no timer: the base deletes the event, and the constructor goes on with it. *)
Lemma zero_time_faults join user k o raw cb data w : k <> NULL ->
  newThreadedTimerEvent join user 2 (Some k) None raw o 0 0 cb data false w = UB NullDeref.
Proof.
  intros Hk. unfold newThreadedTimerEvent, newThreadedTimerEvent_ex, new_timer. cbn [newTimer Z.eqb andb].
  rewrite bind_bind, (bind_lift _ None), bind_mret by done.
  rewrite (bind_alloc (H := events_store)). unfold initThreadedTimerEvent. rewrite !bind_bind.
  unfold initTimerEvent. rewrite bind_bind. unfold store_event.
  rewrite (bind_update (H := events_store) k _ _ _ raw Hk) by (cbn; apply lookup_insert_eq). cbn [objs put events_store events timers syncs].
  rewrite insert_insert_eq. set (e0 := mkTimerEvent _ _ _ _ _ _ _ _ _ _).
  cbn [Z.eqb NULL]. unfold delTimerEvent. rewrite bind_bind.
  assert (freeTimerEvent (call join user 2) k (mkWorld (<[k := e0]> (events w)) (timers w) (syncs w))
    = Ok (tt, mkWorld (delete k (events w)) (timers w) (syncs w), [])) as Efree.
  { unfold freeTimerEvent. rewrite (proj2 (Z.eqb_neq k NULL) Hk). unfold raise_flag, lower_flag, store_event, load_event.
    repeat first
      [ rewrite (bind_update (H := events_store) k _ _ _ _ Hk) by (cbn; apply lookup_insert_eq);
        cbn [objs put events_store events timers syncs]; rewrite insert_insert_eq
      | rewrite (bind_load (H := events_store) k _ _ _ Hk) by (cbn; apply lookup_insert_eq)
      | progress cbn [fp set_fp prep_free_cb freeInheritor call_if e0 refTimer exData freeExData timer]
      | rewrite bind_mret | progress change (raised _ _) with false; cbv iota ].
    change (freeTimer (S := world) NULL) with (mret tt : M world unit). rewrite bind_mret, andb_false_r. cbn [when]. rewrite bind_mret.
    erewrite release_ok; [|done|apply lookup_insert_eq]. cbn. by rewrite delete_insert_eq. }
  rewrite (bind_quiet _ _ _ _ _ Efree), bind_mret. done.
Qed.
