(* ===== verification/AlibProc.v ===== *)
(** Searching for processes by name, [source/alib_proc.c]: the directories of
    /proc are listed, and the command line of each process is compared with
    the names.  The two listings, the outcomes of the allocations and of the
    [fopen]s are arguments; the state is that of the streams. *)
From stdpp Require Import gmap.
From S2P Require Import Prelude Memory Effects AlibString BinaryBuffer CString Stdio AlibFile.
Open Scope Z_scope.

(** What the system grants for one process: the allocations of the path's
    string, the [fopen], and the allocation for each name that matches. *)
Record file_grants := mkFileGrants {
  k_set1 : option Z; k_set2 : option Z; k_num1 : option Z; k_num2 : option Z; k_cat1 : option Z; k_cat2 : option Z;
  opened : bool; k_pid : Z -> option Z }.
(** The listing, and the two objects. *)
Record grants := mkGrants {
  g_calloc : bool; g_name : Z -> bool; g_pids : bool; g_pids_block : option Z; g_path : bool; g_path_block : option Z;
  g_file : Z -> file_grants }.

(** "/proc/" and "/cmdline" *)
Definition PROC : list Z := [47; 112; 114; 111; 99; 47].
Definition CMDLINE : list Z := [47; 99; 109; 100; 108; 105; 110; 101].
Definition c_literal (s : list Z) : option (list cell) := Some (Some <$> s ++ [0]).
(** [atoi]: the value of [strtol], as an [int]. *)
Definition atoi (s : list Z) : Z := s32 (strtoll s).
(** The bytes of an [int] in memory. *)
Definition int_bytes (n : Z) : list cell := (fun i => Some (n / 2 ^ (8 * i) mod 256)) <$> [0; 1; 2; 3].
Definition FBUFF : Z := 8 * 1024.

(** The path of the command line; the string object is used again for every process. *)
Definition make_path (g : file_grants) (dirNum : Z) : M (option String) (option (list cell)) :=
  String_set (k_set1 g) (k_set2 g) (c_literal PROC);;
  String_append_int (k_num1 g) (k_num2 g) dirNum;;
  String_append (k_cat1 g) (k_cat2 g) (c_literal CMDLINE);;
  b ← String_get_c_string; mret (snd <$> b).

(** The loop over the names.  [names]: the array; [fbuff]: the bytes read. *)
Fixpoint match_names (fuel : nat) (k : Z -> option Z) (names : list (list Z)) (procNameCount i : Z) (fbuff : list Z)
    (readCount dirNum : Z) (pidBuff : option BinaryBuffer) : res (option BinaryBuffer) :=
  match fuel with
  | O => Diverges
  | S n =>
      if i <? procNameCount then
        name ← blk_load names i;
        c ← blk_load fbuff (readCount - 1);
        let readCount := if c =? 0 then readCount - 1 else readCount in
        l1 ← strlen fbuff 0; l2 ← strlen name 0;
        m ← str_match (Some fbuff) l1 (Some name) l2;
        pidBuff ← (if m =? 0 then '(_, b, _) ← BinaryBuffer_append (k i) (Some (int_bytes dirNum)) 4 pidBuff; Ok b
                   else Ok pidBuff);
        match_names n k names procNameCount (i + 1) fbuff readCount dirNum pidBuff
      else Ok pidBuff
  end.
(** [fbuff] keeps what was read for the processes before. *)
Notation state := (option BinaryBuffer * option String * list cell)%type (only parsing).
Definition look_at (g : file_grants) (names : list (list Z)) (procNameCount dirNum : Z) (s : state) : M disk state :=
  let '(pidBuff, fnameParser, fbuff) := s in
  '(p, fnameParser, _) ← lift (make_path g dirNum fnameParser);
  cells ← lift (deref p); path ← lift (c_string cells 0);
  cmdline ← fopen (opened g) path ForReading;
  match cmdline with
  | None => mret (pidBuff, fnameParser, fbuff)
  | Some h =>
      '(readCount, fbuff) ← fread h FBUFF fbuff 0;
      pidBuff ← (if readCount >? 0 then
                   bytes ← lift (buffer_bytes fbuff);
                   lift (match_names (S (Z.to_nat procNameCount)) (k_pid g) names procNameCount 0 bytes readCount dirNum pidBuff)
                 else mret pidBuff);
      fclose h;; mret (pidBuff, fnameParser, fbuff)
  end.
(** The loop over the names of the directories. *)
Fixpoint scan_dirs (fuel : nat) (g : Z -> file_grants) (names : list (list Z)) (procNameCount : Z)
    (dirNames : list (option (list Z))) (it itCount : Z) (s : state) : M disk state :=
  match fuel with
  | O => lift Diverges
  | S n =>
      if itCount >? 0 then
        e ← lift (blk_load dirNames it);
        match e with
        | None => scan_dirs n g names procNameCount dirNames (it + 1) (itCount - 1) s
        | Some name =>
            let dirNum := atoi name in
            s ← (if dirNum >? 0 then look_at (g it) names procNameCount dirNum s else mret s);
            scan_dirs n g names procNameCount dirNames (it + 1) (itCount - 1) s
        end
      else mret s
  end.

(** [procNames]: [None] for NULL; [pids]: whether the pointer is not NULL.  The
    second result is what is stored there, [None] when nothing is. *)
Definition get_proc_pids (d1 d2 : option (list dirent)) (g : grants) (procNames : option (list (list Z)))
    (procNameCount : Z) (pids : bool) : M disk (Z * option (option (Z * list cell))) :=
  match procNames with
  | None => mret (ALIB_BAD_ARG, None)
  | Some names =>
      if negb pids then mret (ALIB_BAD_ARG, None) else
      pidBuff ← lift (newBinaryBuffer (g_pids g) (g_pids_block g));
      '(fileCount, dirNames) ← lift (get_all_file_names (Some PROC) d1 d2 (g_calloc g) (g_name g) (Some None) true false);
      fnameParser ← lift (newString (g_path g) (g_path_block g));
      if fileCount =? 0 then mret (ALIB_UNKNOWN_ERR, None) else
      match pidBuff, fnameParser with
      | Some _, Some _ =>
          let arr := default [] (default None dirNames) in
          '(pidBuff, _, _) ← scan_dirs (S (length arr)) (g_file g) names procNameCount arr 0 fileCount
                               (pidBuff, fnameParser, replicate (Z.to_nat FBUFF) (Some 0));
          n ← lift ('(n, _, _) ← BinaryBuffer_get_length pidBuff; Ok n);
          b ← lift ('(b, _, _) ← BinaryBuffer_extract_buffer pidBuff; Ok b);
          mret (s32 (n / 4), Some b)
      | _, _ => mret (ALIB_MEM_ERR, None)
      end
  end.
