(* ===== verification/AlibProcSpec.v ===== *)
(** What the search for processes does: the path of a command line is built by
    appending to a string, which loses the terminator; so the first process
    that is listed makes the search read memory that was never written. *)
From stdpp Require Import gmap.
From S2P Require Import Prelude Memory Effects Heap AlibString BinaryBuffer CString Stdio AlibFile AlibFileSpec AlibProc.
Open Scope Z_scope.

(** * The path *)

(** Appending to a string that is not empty writes over its NUL and behind it. *)
Lemma append_over_nul i pre x rest cap mn mx k1 k2 t more :
  0 < blen pre -> cap = blen (pre ++ x :: rest) -> cap < 2 ^ 64 -> blen pre + 1 + blen t <= cap -> 0 < blen t ->
  String_append_count k1 k2 (Some ((Some <$> t) ++ more)) (blen t) (Some (mkBinaryBuffer (Some (i, pre ++ x :: rest)) cap (blen pre + 1) mn mx))
  = Ok (ALIB_OK, Some (mkBinaryBuffer (Some (i, pre ++ (Some <$> t) ++ drop (length t) (x :: rest))) cap (blen pre + 1 + blen t) mn mx), []).
Proof.
  intros Hp Hcap Hc Hfit Ht. unfold String_append_count. apply on_obj_Ok. rewrite bind_gets. cbn [len].
  rewrite Z.gtb_ltb, (proj2 (Z.ltb_lt _ _)) by lia. apply here_Some.
  unfold BinaryBuffer_insert. apply on_obj_Ok. rewrite !bind_gets. cbn [len capacity].
  unwrap. rewrite Z.gtb_ltb, (proj2 (Z.ltb_ge _ _)) by lia. rewrite Z.gtb_ltb, (proj2 (Z.ltb_ge _ _)) by (unfold ULONG_MAX; lia).
  rewrite (proj2 (Z.ltb_ge _ _)) by lia. rewrite bind_mret. cbn [negb Z.eqb ALIB_OK].
  unfold pointer. rewrite bind_bind, bind_gets, bind_mret. cbn [buff fst fmap option_fmap option_map].
  rewrite (proj2 (Z.eqb_eq (blen pre + 1 - (blen pre + 1 - 1 + 1)) 0)), orb_true_r by lia. rewrite bind_mret.
  replace (blen pre + 1 - 1) with (blen pre) by lia. unfold write_at. rewrite bind_bind, bind_gets. cbn [buff].
  rewrite (proj2 (Z.eqb_neq (blen t) 0)) by lia. rewrite bind_bind, (bind_lift _ (i, pre ++ x :: rest)) by done.
  pose proof (blen_nonneg pre). pose proof (blen_nonneg more).
  rewrite blk_copy_ok by (rewrite ?(blen_app (_ <$> _)), ?blen_fmap; lia). rewrite bind_bind, (bind_lift (Ok _) _ _ _ eq_refl).
  rewrite !bind_modify. unfold set_buff, set_len, mret, M_ret. cbn. do 5 f_equal.
  unfold splice. rewrite take_blen_app, <- (blen_fmap t), slice_prefix, blen_fmap.
  replace (Z.to_nat (blen pre + blen t)) with (length pre + length t)%nat by (unfold blen; lia). by rewrite drop_app_add.
Qed.

(** A string object that was just made, and the one that holds "/proc/". *)
Definition new_string (i : Z) : String := mkBinaryBuffer (Some (i, replicate 64 None)) 64 0 64 (1024 * 1024).
Definition string_of (i n : Z) (s : list Z) (free : nat) : String :=
  mkBinaryBuffer (Some (i, (Some <$> s) ++ replicate free None)) 64 n 64 (1024 * 1024).
Lemma set_proc i k1 k2 :
  String_set k1 k2 (c_literal PROC) (Some (new_string i)) = Ok (ALIB_OK, Some (string_of i 7 (PROC ++ [0]) 57), []).
Proof. by vm_compute. Qed.
Lemma print_dec_positive n : 0 < n <= INT32_MAX -> no_nul (print_dec n) /\ 0 < blen (print_dec n) <= 20.
Proof.
  unfold INT32_MAX. intros Hn. destruct (print_dec_spec n) as (Hv & Hs & Hl); [unfold LONG_MIN, ULONG_MAX; lia|].
  split; [done|]. split; [|done]. destruct (print_dec n) as [|c s]; [cbn in Hv; lia|]. rewrite blen_cons. pose proof (blen_nonneg s). lia.
Qed.
Lemma append_text i pre x free k1 k2 t more :
  0 < blen pre -> blen pre + 1 + Z.of_nat free = 64 -> 0 < blen t <= Z.of_nat free -> no_nul t ->
  String_append k1 k2 (Some ((Some <$> t) ++ Some 0 :: more))
    (Some (mkBinaryBuffer (Some (i, (Some <$> pre) ++ x :: replicate free None)) 64 (blen pre + 1) 64 (1024 * 1024)))
  = Ok (ALIB_OK, Some (string_of i (blen pre + 1 + blen t) (pre ++ t) (S free - length t)), []).
Proof.
  intros Hp Hf Ht Hn. unfold String_append. cbn [deref]. erewrite bind_lift by reflexivity.
  unfold c_strlen. erewrite bind_lift by (by rewrite c_string_ok).
  pose proof (append_over_nul i (Some <$> pre) x (replicate free None) 64 64 (1024 * 1024) k1 k2 t (Some 0 :: more)) as E.
  rewrite blen_app, blen_cons, !blen_fmap in E. rewrite E; [|done|unfold blen in *; rewrite length_replicate; lia|lia..].
  unfold string_of. do 5 f_equal. rewrite fmap_app, <- app_assoc. do 2 f_equal.
  destruct t as [|c t]; [unfold blen in Ht; cbn in Ht; lia|]. cbn [length drop]. rewrite drop_replicate. done.
Qed.
(** The bytes of the path are written, and its terminator is not. *)
Lemma make_path_ok g i n : 0 < n <= INT32_MAX ->
  exists free, make_path g n (Some (new_string i))
    = Ok (Some (cells (string_of i 0 (PROC ++ print_dec n ++ CMDLINE) (S free))),
          Some (string_of i (15 + blen (print_dec n)) (PROC ++ print_dec n ++ CMDLINE) (S free)), []).
Proof.
  intros Hn. destruct (print_dec_positive n Hn) as (Hnn & Hp & Hl). set (t := print_dec n) in *.
  exists (64 - 14 - length t - 1)%nat. unfold make_path.
  rewrite (bind_quiet _ _ _ _ _ (set_proc i _ _)).
  assert (String_append_int (k_num1 g) (k_num2 g) n (Some (string_of i 7 (PROC ++ [0]) 57))
    = Ok (ALIB_OK, Some (string_of i (7 + blen t) (PROC ++ t) (58 - length t)), [])) as E1.
  { unfold String_append_int, sprintf_dec. fold t. rewrite blen_snoc, (proj2 (Z.leb_le _ _)) by (unfold LLONG_MAX_CHAR_LEN; lia).
    erewrite bind_lift by reflexivity. rewrite fmap_app.
    apply (append_text i PROC (Some 0) 57 (k_num1 g) (k_num2 g) t []); [done|done|lia|done]. }
  rewrite (bind_quiet _ _ _ _ _ E1). unfold c_literal. rewrite fmap_app.
  assert (exists m, 58 - length t = S m)%nat as [m Em] by (exists (57 - length t)%nat; unfold blen in *; lia).
  pose proof (append_text i (PROC ++ t) None m (k_cat1 g) (k_cat2 g) CMDLINE []) as E2.
  rewrite blen_app in E2. change (blen PROC) with 6 in E2. change (blen CMDLINE) with 8 in E2.
  replace (6 + blen t + 1) with (7 + blen t) in E2 by lia.
  unfold string_of at 1. rewrite Em. cbn [replicate].
  rewrite (bind_quiet _ _ _ _ _ (E2 ltac:(unfold blen in *; lia) ltac:(unfold blen in *; lia) ltac:(unfold blen in *; lia) ltac:(repeat constructor; done))).
  rewrite <- (app_assoc PROC). replace (S m - length CMDLINE)%nat with (S (64 - 14 - length t - 1)) by (unfold blen in *; cbn [length CMDLINE]; lia).
  by replace (7 + blen t + 8) with (15 + blen t) by lia.
Qed.
Lemma look_at_faults g names cnt n i pidBuff fbuff d : 0 < n <= INT32_MAX ->
  look_at g names cnt n (pidBuff, Some (new_string i), fbuff) d = UB Indeterminate.
Proof.
  intros Hn. destruct (make_path_ok g i n Hn) as [free E]. unfold look_at. rewrite (bind_lift _ _ _ _ E). cbn [deref].
  erewrite bind_lift by reflexivity. apply bind_UB. unfold lift, c_string.
  destruct (print_dec_positive n Hn) as (Hnn & _).
  pose proof (c_string_indeterminate (S (length (cells (string_of i 0 (PROC ++ print_dec n ++ CMDLINE) (S free))))) []
    (PROC ++ print_dec n ++ CMDLINE) (replicate free None)) as Ec.
  unfold cells, string_of in *. cbn [buff replicate app] in *. change (blen (@nil (option Z))) with 0 in Ec. rewrite Ec; [done| |].
  - apply Forall_app. split; [by repeat constructor|]. apply Forall_app. split; [done|by repeat constructor].
  - rewrite (length_app (_ <$> _)), length_fmap. lia.
Qed.
(** The entries that do not begin with a positive number are passed over. *)
Definition no_process (e : option (list Z)) : Prop := match e with Some s => atoi s <= 0 | None => True end.
Lemma scan_passes g names cnt arr s d : forall pre fuel rest, Forall no_process arr ->
  (length arr < fuel)%nat ->
  scan_dirs fuel g names cnt (pre ++ arr ++ rest) (blen pre) (blen arr + blen rest) s d
  = scan_dirs (fuel - length arr) g names cnt (pre ++ arr ++ rest) (blen pre + blen arr) (blen rest) s d.
Proof.
  induction arr as [|e arr IH]; intros pre fuel rest Ha Hf.
  - cbn [length app]. change (blen (@nil (option (list Z)))) with 0. by rewrite Nat.sub_0_r, Z.add_0_r.
  - destruct fuel as [|fuel]; [lia|]. inversion_clear Ha as [|? ? He Ha']. cbn in Hf.
    pose proof (blen_nonneg arr). pose proof (blen_nonneg rest). cbn [scan_dirs length Nat.sub]. rewrite blen_cons.
    rewrite Z.gtb_ltb, (proj2 (Z.ltb_lt _ _)) by lia. cbn [app]. rewrite blk_load_middle. erewrite bind_lift by reflexivity.
    specialize (IH (pre ++ [e]) fuel rest Ha' ltac:(lia)). rewrite blen_snoc, <- !app_assoc in IH. cbn [app] in IH.
    replace (1 + blen arr + blen rest - 1) with (blen arr + blen rest) by lia.
    replace (blen pre + (1 + blen arr)) with (blen pre + 1 + blen arr) by lia.
    destruct e as [name|]; [|exact IH]. cbn in He. rewrite Z.gtb_ltb, (proj2 (Z.ltb_ge 0 (atoi name))) by lia.
    rewrite bind_mret. exact IH.
Qed.

(** A listing that succeeds: what is left is the loop over the names. *)
Definition listed (free : nat) (ns : list (list Z)) : list (option (list Z)) := (Some <$> ns) ++ replicate free None.
Lemma get_proc_pids_scan l g names cnt i j d :
  let ns := names_of true false l in let n := count_of (is_counted true false) l in
  0 < n -> 2 * n < INT32_MAX ->
  g_calloc g = true -> (forall k, g_name g k = true) -> g_pids g = true -> g_pids_block g = Some i -> g_path g = true -> g_path_block g = Some j ->
  exists free, n = blen (listed free ns) /\
  get_proc_pids (Some l) (Some l) g (Some names) cnt true d
  = ('(pidBuff, _, _) ← scan_dirs (S (length (listed free ns))) (g_file g) names cnt (listed free ns) 0 n
                          (Some (new_string i), Some (new_string j), replicate (Z.to_nat FBUFF) (Some 0));
     n ← lift ('(n, _, _) ← BinaryBuffer_get_length pidBuff; Ok n);
     b ← lift ('(b, _, _) ← BinaryBuffer_extract_buffer pidBuff; Ok b);
     mret (s32 (n / 4), Some b)) d.
Proof.
  intros ns n Hn0 Hn Hc Hg H1 H2 H3 H4. pose proof (names_le_counted true false l) as Hle. fold n ns in Hle.
  pose proof (get_all_file_names_ok PROC l None (g_name g) true false Hn Hg) as E. cbv zeta in E. fold n ns in E.
  rewrite (proj2 (Z.eqb_neq n 0)) in E by lia.
  exists (Z.to_nat (n - blen ns)). fold (listed (Z.to_nat (n - blen ns)) ns) in E. split.
  { unfold listed. rewrite blen_app. unfold blen in *. rewrite length_fmap, length_replicate. lia. }
  unfold get_proc_pids. cbn [negb]. rewrite H1, H2, H3, H4, Hc.
  rewrite (bind_lift _ (Some (new_string i))) by done. rewrite (bind_lift _ _ _ _ E).
  rewrite (bind_lift _ (Some (new_string j))) by done. rewrite (proj2 (Z.eqb_neq n 0)) by lia. done.
Qed.

(** A search of /proc whose allocations succeed.  Where no listed name begins with a positive number the answer is 0 and nothing
    is opened.  The first that does is a process: the path of its command line has no terminator, since every append to the string
    overwrites it, and [fopen] reads bytes that were never written; no search that meets a process ends well. *)
Theorem get_proc_pids_indeterminate (l : list dirent) (g : grants) (names : list (list Z)) (cnt : Z) (i j : Z) (d : disk) :
  let ns := names_of true false l in let n := count_of (is_counted true false) l in
  0 < n -> 2 * n < INT32_MAX ->
  g_calloc g = true -> (forall k, g_name g k = true) -> g_pids g = true -> g_pids_block g = Some i -> g_path g = true -> g_path_block g = Some j ->
  (Forall (fun s => atoi s <= 0) ns ->
     exists b, get_proc_pids (Some l) (Some l) g (Some names) cnt true d = Ok ((0, Some b), d, [])) /\
  (forall pre s post, ns = pre ++ s :: post -> Forall (fun s => atoi s <= 0) pre -> 0 < atoi s ->
     get_proc_pids (Some l) (Some l) g (Some names) cnt true d = UB Indeterminate).
Proof.
  intros ns n Hn0 Hn Hc Hg H1 H2 H3 H4.
  destruct (get_proc_pids_scan l g names cnt i j d Hn0 Hn Hc Hg H1 H2 H3 H4) as (free & Hb & ->). fold ns n in Hb |- *.
  split.
  - intros Hall.
    assert (Forall no_process (listed free ns)) as Hp.
    { apply Forall_app. split; [by apply Forall_fmap|]. apply Forall_replicate. done. }
    pose proof (scan_passes (g_file g) names cnt _ (Some (new_string i), Some (new_string j), replicate (Z.to_nat FBUFF) (Some 0)) d
      [] (S (length (listed free ns))) [] Hp ltac:(lia)) as E.
    rewrite app_nil_r in E. cbn [app] in E. change (@blen (option (list Z)) []) with 0 in E. rewrite Z.add_0_r, <- Hb in E.
    rewrite Nat.sub_succ_l, Nat.sub_diag in E by lia. cbn [scan_dirs] in E.
    eexists. rewrite (bind_quiet _ _ _ _ _ E). done.
  - intros pre s post Ens Hpre Hs. unfold listed in *. rewrite Ens, fmap_app in *. cbn [fmap list_fmap] in *.
    rewrite <- app_assoc in *. cbn [app] in *.
    assert (Forall no_process (Some <$> pre)) as Hp by (by apply Forall_fmap).
    set (rest := (Some <$> post) ++ replicate free None) in *.
    pose proof (scan_passes (g_file g) names cnt _ (Some (new_string i), Some (new_string j), replicate (Z.to_nat FBUFF) (Some 0)) d
      [] (S (length ((Some <$> pre) ++ Some s :: rest))) (Some s :: rest) Hp ltac:(rewrite length_app; lia)) as E.
    cbn [app] in E. change (@blen (option (list Z)) []) with 0 in E. rewrite Z.add_0_l, <- blen_app, <- Hb in E.
    apply bind_UB. rewrite E.
    destruct (S (length ((Some <$> pre) ++ Some s :: rest)) - length (Some <$> pre))%nat as [|fuel] eqn:Ef; [rewrite length_app in Ef; cbn in Ef; lia|].
    cbn [scan_dirs]. rewrite blen_cons, Z.gtb_ltb. pose proof (blen_nonneg rest). rewrite (proj2 (Z.ltb_lt _ _)) by lia.
    rewrite blk_load_middle. erewrite bind_lift by reflexivity. cbv iota beta zeta. rewrite Z.gtb_ltb, (proj2 (Z.ltb_lt 0 (atoi s))) by lia.
    apply bind_UB, look_at_faults. split; [lia|]. unfold atoi, s32, INT32_MAX. pose proof (Z.mod_pos_bound (strtoll s) (2 ^ 32) ltac:(lia)). case_cmp; lia.
Qed.
Definition all_granted : grants :=
  mkGrants true (fun _ => true) true (Some 1) true (Some 2)
    (fun _ => mkFileGrants (Some 3) (Some 3) (Some 3) (Some 3) (Some 3) (Some 3) true (fun _ => Some 3)).
(** The process 7 of a system with "self" in /proc. *)
Lemma get_proc_pids_indeterminate_witness :
  get_proc_pids (Some [mkDirent DT_DIR [46]; mkDirent DT_DIR [115; 101; 108; 102]; mkDirent DT_DIR [55]])
    (Some [mkDirent DT_DIR [46]; mkDirent DT_DIR [115; 101; 108; 102]; mkDirent DT_DIR [55]])
    all_granted (Some [[115; 104; 0]]) 1 true (mkDisk ∅ ∅) = UB Indeterminate.
Proof.
  refine (proj2 (get_proc_pids_indeterminate [mkDirent DT_DIR [46]; mkDirent DT_DIR [115; 101; 108; 102]; mkDirent DT_DIR [55]]
    all_granted [[115; 104; 0]] 1 1 2 (mkDisk ∅ ∅) _ _ eq_refl (fun _ => eq_refl) eq_refl eq_refl eq_refl eq_refl)
    [[115; 101; 108; 102]] [55] [] eq_refl _ _).
  - done.
  - done.
  - by repeat constructor.
  - done.
Defined.
