(* ===== verification/EventServer.v ===== *)
(** The server on libevent, [source/EventServer.c].

    libevent is not part of the repository: [Libevent] lists the calls the code
    makes of it, and [LibeventLaws] what the code relies on, namely which
    connections ([bufferevent]s) call back, and with which argument.  The loop
    of [event_base_dispatch] asks for one occurrence after another and runs the
    callback that is registered for it.

    [C] are the code pointers of the client's callbacks, which the parameters
    named after the fields run.  [self] is the address of the server, which the
    packages of its clients hold.  A field that [malloc] leaves indeterminate is
    [None] until it is written. *)
From S2P Require Import Prelude Memory Effects Heap AlibString ArrayList Posix ServerState.
Open Scope Z_scope.

(** * libevent *)
(** What the loop reports: a client on a listener, with its descriptor; data
    and other events of a connection, with the argument of its callbacks; a
    signal. *)
Inductive occurrence :=
| Accepted (fd : Z)
| Readable (bev user_data : ptr)
| Occurred (bev : ptr) (events : Z) (user_data : ptr)
| Signalled (sig events : Z).

Class Libevent (K : Type) := {
  event_base_new : K -> ptr * K;
  event_base_free : ptr -> K -> K;
  event_base_loopexit : ptr -> K -> K;
  event_base_loopbreak : ptr -> K -> K;
  event_base_next : ptr -> K -> option occurrence * K;        (* [None]: [event_base_dispatch] returns *)
  evconnlistener_new_bind : ptr -> Z -> K -> ptr * K;         (* base, port in network byte order *)
  evconnlistener_free : ptr -> K -> K;
  evsignal_new : ptr -> K -> ptr * K;
  event_add : ptr -> K -> K;
  event_free : ptr -> K -> K;
  bufferevent_socket_new : ptr -> Z -> K -> ptr * K;          (* base, descriptor *)
  bufferevent_free : ptr -> K -> K;
  bufferevent_setcb : ptr -> bool -> ptr -> K -> K;           (* whether there is a read callback; the argument *)
  bufferevent_enable : ptr -> Z -> K -> K;
  evbuffer_get_length : ptr -> K -> Z * K;                    (* of the connection's input *)
  evbuffer_remove : ptr -> Z -> K -> Datatypes.list Z * K }.

(** [calling]: the connections that are set up and not freed, with the
    argument of their callbacks. *)
Class LibeventLaws (K : Type) `{Libevent K} := {
  calling : K -> gmap ptr ptr;
  base_new_calling k : calling (event_base_new k).2 = calling k;
  base_free_calling b k : calling (event_base_free b k) = calling k;
  loopexit_calling b k : calling (event_base_loopexit b k) = calling k;
  loopbreak_calling b k : calling (event_base_loopbreak b k) = calling k;
  next_calling b k : calling (event_base_next b k).2 = calling k;
  next_reports b k : match (event_base_next b k).1 with
                     | Some (Readable bev p) | Some (Occurred bev _ p) => calling k !! bev = Some p
                     | _ => True
                     end;
  listener_calling b port k : calling (evconnlistener_new_bind b port k).2 = calling k;
  listener_free_calling l k : calling (evconnlistener_free l k) = calling k;
  evsignal_calling b k : calling (evsignal_new b k).2 = calling k;
  event_add_calling e k : calling (event_add e k) = calling k;
  event_free_calling e k : calling (event_free e k) = calling k;
  socket_new_calling b fd k : calling (bufferevent_socket_new b fd k).2 = calling k;
  socket_new_fresh b fd k : calling k !! (bufferevent_socket_new b fd k).1 = None;
  bufferevent_free_calling bev k : calling (bufferevent_free bev k) = delete bev (calling k);
  setcb_calling bev r p k : calling (bufferevent_setcb bev r p k) = <[bev := p]> (calling k);
  enable_calling bev ev k : calling (bufferevent_enable bev ev k) = calling k;
  length_calling bev k : calling (evbuffer_get_length bev k).2 = calling k;
  length_range bev k : 0 <= (evbuffer_get_length bev k).1 < 2 ^ 31;
  remove_calling bev n k : calling (evbuffer_remove bev n k).2 = calling k;
  remove_all bev k : let '(n, k') := evbuffer_get_length bev k in blen (evbuffer_remove bev n k').1 = n }.

(** * The server *)
Definition ESCB_CONTINUE : Z := 0.
Definition ESCB_CLIENT_CLOSE : Z := 1.
Definition ESCB_SERVER_SHUTDOWN : Z := 2.
Definition BEV_EVENT_CONNECTED : Z := 128.
Definition EV_READ : Z := 2.
Definition EV_WRITE : Z := 4.
(** ".quit" *)
Definition DEFAULT_QUIT_COMMAND : Datatypes.list Z := [46; 113; 117; 105; 116; 0].

Record escb_package := mkEscbPackage { server : ptr; data : option ptr; free_data_proc : option bool }.
Definition set_package_data v p := mkEscbPackage (server p) (Some v) (free_data_proc p).

(** [packages_set]: whether [callback_packages] was written. *)
Record EventServer (C : Type) := mkEventServer {
  base : ptr; sin_port : Z; listener : ptr; signal_event : ptr; is_running : bool;
  client_con_cb : option C; data_in_cb : option C; client_discon_cb : option C; sig_cb : option C;
  handle_quit_command : bool; quit_command : option (Datatypes.list Z); quit_command_len : Z;
  extended_data : ptr; free_extended_data : bool;
  callback_packages : option ArrayList; packages_set : bool }.
Arguments mkEventServer {C}. Arguments base {C}. Arguments sin_port {C}. Arguments listener {C}. Arguments signal_event {C}.
Arguments is_running {C}. Arguments client_con_cb {C}. Arguments data_in_cb {C}. Arguments client_discon_cb {C}.
Arguments sig_cb {C}. Arguments handle_quit_command {C}. Arguments quit_command {C}. Arguments quit_command_len {C}.
Arguments extended_data {C}. Arguments free_extended_data {C}. Arguments callback_packages {C}. Arguments packages_set {C}.

Section fields.
Context {C : Type}.
Implicit Types s : EventServer C.
Definition set_running v s := mkEventServer (base s) (sin_port s) (listener s) (signal_event s) v (client_con_cb s) (data_in_cb s)
  (client_discon_cb s) (sig_cb s) (handle_quit_command s) (quit_command s) (quit_command_len s) (extended_data s)
  (free_extended_data s) (callback_packages s) (packages_set s).
Definition set_callbacks (c i d g : option C) s := mkEventServer (base s) (sin_port s) (listener s) (signal_event s) (is_running s)
  c i d g (handle_quit_command s) (quit_command s) (quit_command_len s) (extended_data s) (free_extended_data s)
  (callback_packages s) (packages_set s).
Definition set_quit h q n s := mkEventServer (base s) (sin_port s) (listener s) (signal_event s) (is_running s) (client_con_cb s)
  (data_in_cb s) (client_discon_cb s) (sig_cb s) h q n (extended_data s) (free_extended_data s) (callback_packages s) (packages_set s).
Definition set_extended v f s := mkEventServer (base s) (sin_port s) (listener s) (signal_event s) (is_running s) (client_con_cb s)
  (data_in_cb s) (client_discon_cb s) (sig_cb s) (handle_quit_command s) (quit_command s) (quit_command_len s) v f
  (callback_packages s) (packages_set s).
Definition set_packages v s := mkEventServer (base s) (sin_port s) (listener s) (signal_event s) (is_running s) (client_con_cb s)
  (data_in_cb s) (client_discon_cb s) (sig_cb s) (handle_quit_command s) (quit_command s) (quit_command_len s) (extended_data s)
  (free_extended_data s) v (packages_set s).
#[export] Instance EventServer_clients : HasClients (EventServer C) := {|
  clients := callback_packages; set_clients := set_packages; clients_set := fun _ _ => eq_refl;
  set_clients_set := fun _ _ _ => eq_refl; set_clients_id := ltac:(by intros []) |}.
End fields.

Definition determined {A} (v : option A) : res A := match v with Some a => Ok a | None => UB Indeterminate end.

Section server.
Context {K U C : Type} `{Libevent K}.
Notation W := (world K (EventServer C) escb_package U).
Context (self : ptr).
Context (client_con : C -> ptr -> Z -> ptr -> M W Z).           (* bufferevent, descriptor, package *)
Context (data_in : C -> Datatypes.list Z -> Z -> ptr -> M W Z).
Context (client_discon : C -> ptr -> Z -> ptr -> M W Z).
Context (sig_proc : C -> Z -> Z -> M W Z).
Context (malloc : W -> option ptr) (room grow : W -> bool).

Definition on_lib (f : K -> K) : M W unit := sys (fun k => (tt, f k)).
(** [package->free_data_proc && package->data], and the call. *)
Definition free_package_data (package : ptr) : M W unit :=
  p ← load (A := escb_package) package;
  f ← lift (determined (free_data_proc p));
  if negb f then mret tt else
  d ← lift (determined (data p)); when (negb (d =? NULL)) (emit (EvFree d)).
Definition free_callback_package (void_package : ptr) : M W unit :=
  if void_package =? NULL then mret tt else
  free_package_data void_package;; release (A := escb_package) void_package.
(** [ArrayList_add], [ArrayList_remove] and [delArrayList] of [server->callback_packages]. *)
Definition on_packages {A} (m : M (option ArrayList) A) : M W A :=
  s ← this;
  if packages_set s then on_list free_callback_package m else lift (UB Indeterminate).

(** * Starting and stopping *)
Definition EventServer_stop : M W unit :=
  on_this tt (b ← get base; on_lib (event_base_loopexit b);; set (set_running false)).

(** * Callbacks of the loop *)
(** [package->server] *)
Definition server_of (package : ptr) : M W escb_package :=
  p ← load (A := escb_package) package;
  if server p =? self then mret p else lift (UB Dangling).
(** The buffer holds what was received, without a terminator; [room]: whether
    [malloc] gives one. *)
Definition receive (bev : ptr) : M W (Z * option (Datatypes.list Z)) :=
  n ← sys (evbuffer_get_length bev);
  let recv_data_len := s32 n in
  ok ← gets room;
  bytes ← sys (evbuffer_remove bev (u64 recv_data_len));
  if ok && (0 <=? recv_data_len) then mret (recv_data_len, Some bytes)
  else if blen bytes =? 0 then mret (recv_data_len, None) else lift (UB NullDeref).
Definition is_quit_command (s : EventServer C) (recv_data_len : Z) (recv_data : option (Datatypes.list Z)) : res bool :=
  if handle_quit_command s && (quit_command_len s <=? u64 recv_data_len)
  then d ← str_match recv_data 0 (Some (match quit_command s with Some q => q | None => DEFAULT_QUIT_COMMAND end)) 0;
       Ok (d =? 0)
  else Ok false.
Definition conn_readcb (bev user_data : ptr) : M W unit :=
  package ← server_of user_data;
  '(recv_data_len, recv_data) ← receive bev;
  s ← this;
  quit ← lift (is_quit_command s recv_data_len recv_data);
  if quit : bool then on_lib (event_base_loopexit (base s)) else
  match data_in_cb s with
  | None => mret tt
  | Some cb =>
      d ← lift (determined (data package));
      r_val ← data_in cb (default [] recv_data) (u64 recv_data_len) d;
      when (negb (Z.land r_val ESCB_CLIENT_CLOSE =? 0))
        (on_packages (ArrayList_remove user_data);; on_lib (bufferevent_free bev));;
      when (negb (Z.land r_val ESCB_SERVER_SHUTDOWN =? 0)) EventServer_stop
  end.
Definition conn_eventcb (bev : ptr) (events : Z) (user_data : ptr) : M W unit :=
  package ← server_of user_data;
  if negb (Z.land events BEV_EVENT_CONNECTED =? 0) then mret tt else
  cb ← get client_discon_cb;
  match cb with
  | Some cb =>
      d ← lift (determined (data package));
      r_val ← client_discon cb bev events d;
      when (negb (Z.land r_val ESCB_CLIENT_CLOSE =? 0))
        (on_packages (ArrayList_remove user_data);; on_lib (bufferevent_free bev));;
      when (negb (Z.land r_val ESCB_SERVER_SHUTDOWN =? 0)) EventServer_stop
  | None => on_lib (bufferevent_free bev)
  end.
(** "We have a new package that will have to be freed later on": the rest of
    [listener_cb]. *)
Definition set_up (bev package : ptr) : M W unit :=
  p ← load (A := escb_package) package;
  f ← lift (determined (free_data_proc p));
  when f (g ← gets grow; on_packages (ArrayList_add g package);; mret tt);;
  s ← this;
  let reads := match data_in_cb s with Some _ => true | None => handle_quit_command s end in
  on_lib (bufferevent_setcb bev reads package);;
  on_lib (bufferevent_enable bev EV_WRITE);;
  on_lib (bufferevent_enable bev EV_READ).
Definition listener_cb (fd : Z) : M W unit :=
  k ← gets malloc;
  package ← alloc (A := escb_package) k (mkEscbPackage self None None);
  if package =? NULL then mret tt else
  b ← get base;
  bev ← sys (bufferevent_socket_new b fd);
  if bev =? NULL then on_lib (event_base_loopbreak b) else
  cb ← get client_con_cb;
  match cb with
  | Some cb =>
      r_val ← client_con cb bev fd package;
      if negb (Z.land r_val ESCB_CLIENT_CLOSE =? 0) then
        on_lib (bufferevent_free bev);; free_package_data package
      else if negb (Z.land r_val ESCB_SERVER_SHUTDOWN =? 0) then
        on_lib (bufferevent_free bev);; EventServer_stop;; free_package_data package
      else set_up bev package
  | None => update (A := escb_package) package (set_package_data self);; set_up bev package
  end.
Definition signal_cb (sig events : Z) : M W unit :=
  cb ← get sig_cb;
  match cb with
  | Some cb =>
      r_val ← sig_proc cb sig events;
      when (negb (Z.land r_val ESCB_SERVER_SHUTDOWN =? 0)) EventServer_stop
  | None => EventServer_stop
  end.

Definition handle (o : occurrence) : M W unit :=
  match o with
  | Accepted fd => listener_cb fd
  | Readable bev p => conn_readcb bev p
  | Occurred bev events p => conn_eventcb bev events p
  | Signalled sig events => signal_cb sig events
  end.
(** [event_base_dispatch] *)
Fixpoint dispatch (fuel : nat) (b : ptr) : M W unit :=
  match fuel with
  | O => lift Diverges
  | S n => o ← sys (event_base_next b);
           match o with None => mret tt | Some o => handle o;; dispatch n b end
  end.
Definition EventServer_start (fuel : nat) : M W unit :=
  on_this tt (set (set_running true);; b ← get base; dispatch fuel b).

(** * The rest of the interface *)
Definition EventServer_get_base : M W ptr := get base.
Definition EventServer_get_sin : M W Z := get sin_port.
Definition EventServer_get_listener : M W ptr := get listener.
Definition EventServer_get_signal_event : M W ptr := get signal_event.
Definition EventServer_is_running : M W bool := get is_running.
Definition EventServer_get_client_con_cb : M W (option C) := get client_con_cb.
Definition EventServer_get_data_in_cb : M W (option C) := get data_in_cb.
Definition EventServer_get_client_discon_cb : M W (option C) := get client_discon_cb.
Definition EventServer_get_sig_cb : M W (option C) := get sig_cb.
Definition EventServer_will_handle_quit_command : M W bool := get handle_quit_command.
Definition EventServer_get_quit_command : M W (Datatypes.list Z) :=
  q ← get quit_command; mret (match q with None => DEFAULT_QUIT_COMMAND | Some q => q end).
Definition EventServer_get_extended_data : M W ptr := get extended_data.
Definition EventServer_get_free_extended_data_proc : M W bool := get free_extended_data.
Definition EventServer_set_client_con_cb (cb : option C) : M W unit :=
  set (fun s => set_callbacks cb (data_in_cb s) (client_discon_cb s) (sig_cb s) s).
Definition EventServer_set_data_in_cb (cb : option C) : M W unit :=
  set (fun s => set_callbacks (client_con_cb s) cb (client_discon_cb s) (sig_cb s) s).
Definition EventServer_set_client_discon_cb (cb : option C) : M W unit :=
  set (fun s => set_callbacks (client_con_cb s) (data_in_cb s) cb (sig_cb s) s).
Definition EventServer_set_sig_cb (cb : option C) : M W unit :=
  set (fun s => set_callbacks (client_con_cb s) (data_in_cb s) (client_discon_cb s) cb s).
Definition EventServer_handle_quit_command (h : bool) : M W unit :=
  set (fun s => set_quit h (quit_command s) (quit_command_len s) s).
(** [quit]: the caller's string, [None] for NULL; [ok]: whether it can be copied. *)
Definition EventServer_set_quit_command (ok : bool) (quit : option (Datatypes.list Z)) : M W unit :=
  s ← this;
  match quit with
  | Some q =>
      n ← lift (strlen q 0);
      c ← lift (strncpy_alloc ok (Some (quit_command s)) (Some q) n);
      set (set_quit (handle_quit_command s) c n)
  | None => set (set_quit (handle_quit_command s) None (quit_command_len s))
  end.
Definition EventServer_set_extended_data (v : ptr) : M W unit := set (fun s => set_extended v (free_extended_data s) s).
Definition EventServer_set_free_extended_data_proc (f : bool) : M W unit := set (fun s => set_extended (extended_data s) f s).

(** * Deleting and making *)
Definition delEventServer (given : bool) : M W unit :=
  if negb given then mret tt else
  on_this tt (
    s ← this;
    when (negb (listener s =? NULL)) (on_lib (evconnlistener_free (listener s)));;
    when (negb (signal_event s =? NULL)) (on_lib (event_free (signal_event s)));;
    when (negb (base s =? NULL)) (on_lib (event_base_free (base s)));;
    when (free_extended_data s) (emit (EvFree (extended_data s)));;
    on_packages delArrayList;;
    modify (set_object None)).
(** [ok], [kl]: the outcomes of the allocations of the server and of its list.
    [event_add] reads the event it is given. *)
Definition newEventServer (out_given ok kl : bool) (port : Z) (con in_ discon sig : option C) (ext : ptr) (free_ext handle_quit : bool)
    : M W Z :=
  if negb out_given then mret ALIB_BAD_ARG else
  if negb ok then modify (set_object None);; mret ALIB_MEM_ERR else
  b ← sys event_base_new;
  if b =? NULL then modify (set_object None);; mret ALIB_MEM_ERR else
  l ← sys (evconnlistener_new_bind b (htons port));
  e ← sys (evsignal_new b);
  (if e =? NULL then lift (UB NullDeref) else on_lib (event_add e));;
  if (l =? NULL) || (e =? NULL) then
    modify (set_object (Some (mkEventServer b (htons port) l e false None None None None handle_quit None 5 NULL false None false)));;
    delEventServer true;;
    mret (if l =? NULL then ALIB_PORT_IN_USE else ALIB_UNKNOWN_ERR)
  else
    '(cl, t) ← lift (newArrayList_ex kl true true 0 ULONG_MAX false); emits t;;
    modify (set_object (Some (mkEventServer b (htons port) l e false con in_ discon sig handle_quit None 5 ext free_ext cl true)));;
    mret ALIB_OK.
End server.
