(* ===== verification/EventServerSpec.v ===== *)
(** What the server on libevent does: over its loop every connection keeps a
    package that is there, and the packages that own data are in the server's
    list, so that deleting the server frees each of them once; deleting closes
    no connection; and where the server reads what was never written, or past
    what it received. *)
From stdpp Require Import gmap.
From S2P Require Import Prelude Memory Effects Heap AlibString ArrayList ArrayListSpec Posix ServerState ServerSpec EventServer.
Open Scope Z_scope.

Section spec.
Context {K U C : Type} `{LibeventLaws K}.
Notation W := (world K (EventServer C) escb_package U).
Context (self : ptr).

(** * The list of packages *)
Record package_list (l : ArrayList) : Prop := {
  pl_wf : wf l;
  pl_free : free_item l = true;
  pl_mutex : use_mutex l = false;
  pl_cap : capacity l <= 2 ^ 49;
  pl_max : max_cap l = ULONG_MAX }.
Lemma add_package l p : package_list l -> p <> NULL -> blen (items l) < 2 ^ 48 -> exists l',
  ArrayList_add true p (Some l) = Ok (1, Some l', []) /\ package_list l' /\ items l' ≡ₚ p :: items l.
Proof.
  intros [Hwf Hf Hmu Hcap Hmax] Hp Hlen. pose proof (count_range l Hwf). pose proof (wf_count _ Hwf) as Hct.
  unfold ULONG_MAX in Hmax. destruct (decide (count l < capacity l)) as [Hlt|Hge].
  - destruct (add_free_slot l p Hwf Hp Hlt) as (cells & E & Hw & Hi). eexists. split; [exact E|]. split; [by split|done].
  - destruct (add_expand l p Hwf Hp) as (l' & E & Hw & Hi & _ & Hc); [lia..|]. exists l'. split; [done|].
    split; [|by rewrite Hi, Permutation_app_comm].
    assert (max_cap l' = max_cap l /\ free_item l' = free_item l) as [Em Ef].
    { revert E. unfold ArrayList_add, on_obj. rewrite (proj2 (Z.eqb_neq p NULL)), !bind_gets by done.
      rewrite (proj2 (Z.ltb_ge _ _)), (proj2 (Z.eqb_neq _ _)) by lia.
      rewrite (bind_quiet _ _ _ _ _ (here_Some _ _ _ _ _ (expand_grow l Hwf ltac:(lia) ltac:(lia)))).
      unfold slot_store, incr_count. mstep. simpl. destruct (blk_store _ _ _); [|done|done]. simpl. by intros [= <-]. }
    destruct (keeps_mutex _ _ _ _ _ (ignores_add true p) E) as [_ Eu].
    split; [done|congruence|congruence|rewrite Hc; unfold next_cap; destruct (capacity l =? 0); lia|unfold ULONG_MAX; congruence].
Qed.
Lemma remove_package l p : package_list l -> p <> NULL -> exists l',
  ArrayList_remove p (Some l) = Ok (tt, Some l', if decide (p ∈ items l) then [EvFree p] else []) /\
  package_list l' /\ items l ≡ₚ items l' ++ (if decide (p ∈ items l) then [p] else []).
Proof.
  intros [Hwf Hf Hmu Hcap Hmax] Hp. destruct (remove_ok l Hwf p) as (l' & E & _ & Hw & Hm & Hf' & Hi).
  rewrite (proj2 (Z.eqb_neq p NULL)) in Hi by done. exists l'.
  assert (capacity l' = capacity l) as Hc by (by eapply remove_capacity).
  destruct (keeps_mutex _ _ _ _ _ (ignores_remove p) E) as [_ Eu].
  destruct (decide (p ∈ items l)) as [Hin|Hin].
  - rewrite decide_True in E by done. unfold freed in E. rewrite Hf in E. split; [done|].
    split; [split; congruence || lia|]. rewrite (remove_first_perm p) at 1 by done. rewrite Hi. by rewrite Permutation_app_comm.
  - rewrite decide_False in E by naive_solver. split; [done|]. split; [split; congruence || lia|].
    by rewrite Hi, remove_first_notin, app_nil_r.
Qed.

(** * The invariant *)
Definition package (d : ptr) (f : bool) : escb_package := mkEscbPackage self (Some d) (Some f).
Definition owned (w : W) (p : ptr) : Prop := exists d, packs w !! p = Some (package d true).
Record serves (s : EventServer C) (l : ArrayList) : Prop := {
  sv_set : packages_set s = true;
  sv_list : callback_packages s = Some l;
  sv_con : client_con_cb s <> None;
  sv_quit : handle_quit_command s = false }.
Record inv (l : ArrayList) (w : W) : Prop := {
  in_server : exists s, object w = Some s /\ serves s l;
  in_list : package_list l;
  in_nodup : NoDup (items l);
  in_owned : forall p, p ∈ items l -> owned w p;
  in_calling : forall bev p, calling (kern w) !! bev = Some p ->
    exists d f, packs w !! p = Some (package d f) /\ (f = true -> p ∈ items l);
  in_apart : forall bev bev' p, calling (kern w) !! bev = Some p -> calling (kern w) !! bev' = Some p -> bev = bev';
  in_heap : forall p, is_Some (packs w !! p) -> 0 < p < 2 ^ 48 }.

Lemma in_few l w : inv l w -> blen (items l) < 2 ^ 48.
Proof.
  intros Hi. assert (items l ⊆+ (Z.of_nat <$> seq 1 (Z.to_nat (2 ^ 48 - 1)))) as Hs.
  { apply NoDup_submseteq; [apply Hi|]. intros p Hp. destruct (in_owned _ _ Hi p Hp) as [d Hd].
    pose proof (in_heap _ _ Hi p (ex_intro _ _ Hd)). apply list_elem_of_fmap. exists (Z.to_nat p).
    split; [lia|]. apply elem_of_seq. lia. }
  apply submseteq_length in Hs. rewrite length_fmap, length_seq in Hs. unfold blen. lia.
Qed.
Lemma in_nonnull l w p : inv l w -> is_Some (packs w !! p) -> p <> NULL.
Proof. intros Hi Hp. pose proof (in_heap _ _ Hi p Hp). unfold NULL. lia. Qed.
(** Neither the connections nor the packages change. *)
Lemma ev_inv_kern l w k : inv l w -> calling k = calling (kern w) -> inv l (set_kern k w).
Proof. intros [] E. split; cbn [set_kern object packs kern]; rewrite ?E; done. Qed.
Lemma inv_object l w s s' : inv l w -> object w = Some s -> packages_set s' = packages_set s ->
  callback_packages s' = callback_packages s -> client_con_cb s' = client_con_cb s -> handle_quit_command s' = handle_quit_command s ->
  inv l (set_object (Some s') w).
Proof.
  intros [(s0 & Ho & [H1 H2 H3 H4]) ? ? ? ? ? ?] Hs E1 E2 E3 E4. rewrite Hs in Ho. injection Ho as <-.
  split; cbn [set_object object packs kern]; try done. exists s'. split; [done|]. split; congruence.
Qed.
(** A connection that is freed calls no more. *)
Lemma inv_freed l w bev : inv l w -> inv l (set_kern (bufferevent_free bev (kern w)) w).
Proof.
  intros [? ? ? ? Hc Ha ?]. split; cbn [set_kern object packs kern]; rewrite ?bufferevent_free_calling; try done.
  - intros b p [_ Hb]%lookup_delete_Some. eauto.
  - intros b b' p [_ Hb]%lookup_delete_Some [_ Hb']%lookup_delete_Some. eauto.
Qed.

(** * Packages *)
Lemma free_package_ok w p d (Q : unit -> W -> Prop) : p <> NULL -> packs w !! p = Some (package d true) ->
  Q tt (set_packs (delete p (packs w)) w) -> post (free_callback_package p) Q w.
Proof.
  intros Hn Hp HQ. unfold free_callback_package. rewrite (proj2 (Z.eqb_neq p NULL)) by done.
  apply post_bind. unfold free_package_data. apply post_bind. eapply post_load; [done..|].
  apply post_bind. eapply post_lift; [done|]. cbn [negb]. apply post_bind. eapply post_lift; [done|].
  apply post_when; intros _; [apply post_emit|]; eapply post_release; done.
Qed.
(** What is left of a heap when the packages [ps] are freed. *)
Definition without {A} (ps : Datatypes.list ptr) (m : gmap ptr A) : gmap ptr A := foldr delete m ps.
Lemma lookup_without {A} ps (m : gmap ptr A) p : without ps m !! p = if decide (p ∈ ps) then None else m !! p.
Proof.
  unfold without. induction ps as [|q ps IH]; [by rewrite decide_False by apply not_elem_of_nil|]. cbn [foldr].
  destruct (decide (q = p)) as [->|Hne].
  - rewrite lookup_delete_eq. by rewrite decide_True by (by apply elem_of_cons; left).
  - rewrite lookup_delete_ne, IH by done. destruct (decide (p ∈ ps)) as [Hin|Hin].
    + by rewrite decide_True by (by apply elem_of_cons; right).
    + rewrite decide_False; [done|]. intros [->|?]%elem_of_cons; done.
Qed.
Lemma perform_frees ps : forall w (Q : unit -> W -> Prop), NoDup ps -> (forall p, p ∈ ps -> p <> NULL /\ owned w p) ->
  (forall m, (forall p, m !! p = without ps (packs w) !! p) -> Q tt (set_packs m w)) ->
  post (perform free_callback_package (EvFree <$> ps)) Q w.
Proof.
  induction ps as [|p ps IH]; intros w Q Hnd Hps HQ.
  - apply post_ret. specialize (HQ (packs w)). destruct w. by apply HQ.
  - apply NoDup_cons in Hnd as [Hni Hnd]. destruct (Hps p) as [Hn (d & Hd)]; [by apply elem_of_cons; left|].
    cbn. apply post_bind. eapply free_package_ok; [done|exact Hd|]. apply IH; [done| |].
    + intros q Hq. destruct (Hps q) as [Hqn (d' & Hd')]; [by apply elem_of_cons; right|]. split; [done|]. exists d'.
      cbn [set_packs packs]. rewrite lookup_delete_ne; [done|]. by intros ->.
    + intros m Hm. cbn [set_packs kern object user]. apply (HQ m). intros q. rewrite Hm. cbn [set_packs packs].
      rewrite !lookup_without. destruct (decide (q ∈ ps)) as [Hin|Hin].
      * by rewrite decide_True by (by apply elem_of_cons; right).
      * destruct (decide (q = p)) as [->|Hne]; [rewrite lookup_delete_eq, decide_True by (by apply elem_of_cons; left); done|].
        rewrite lookup_delete_ne by done. rewrite decide_False; [done|]. by intros [->|?]%elem_of_cons.
Qed.

(** A call on the server's list. *)
Lemma on_packages_ok {A} (m : M (option ArrayList) A) (a : A) l l' ps w s (Q : A -> W -> Prop) : inv l w -> object w = Some s ->
  m (Some l) = Ok (a, l', EvFree <$> ps) -> NoDup ps -> (forall p, p ∈ ps -> p ∈ items l) ->
  (forall m', (forall p, m' !! p = without ps (packs w) !! p) -> Q a (set_packs m' (set_object (Some (set_packages l' s)) w))) ->
  post (on_packages m) Q w.
Proof.
  intros Hi Ho Hm Hnd Hin HQ. destruct (in_server _ _ Hi) as (s0 & Hs0 & [H1 H2 _ _]). rewrite Ho in Hs0. injection Hs0 as <-.
  unfold on_packages. apply post_bind. eapply post_this; [done|]. rewrite H1. unfold on_list. apply post_bind.
  eapply post_get; [done|]. apply post_bind. change (clients s) with (callback_packages s). rewrite H2, Hm.
  eapply post_lift; [done|]. apply post_bind. eapply post_set; [done|]. apply post_bind.
  apply perform_frees; [done| |].
  - intros p Hp. destruct (in_owned _ _ Hi p (Hin p Hp)) as [d Hd]. split; [|by exists d]. eapply in_nonnull; [done|by eexists].
  - intros m' Hm'. apply post_ret. by apply HQ.
Qed.

Definition fine (w : W) : Prop := exists l, inv l w.
Lemma post_on_lib (f : K -> K) (Q : unit -> W -> Prop) w : Q tt (set_kern (f (kern w)) w) -> post (on_lib f) Q w.
Proof. intros HQ. by apply post_sys. Qed.

(** * Stopping and closing *)
Lemma ev_stop_ok l w (Q : unit -> W -> Prop) : inv l w ->
  (forall w', inv l w' -> packs w' = packs w -> calling (kern w') = calling (kern w) -> Q tt w') -> post EventServer_stop Q w.
Proof.
  intros Hi HQ. destruct (in_server _ _ Hi) as (s & Ho & Hs). eapply post_on_this; [done|]. apply post_bind.
  eapply post_get; [done|]. apply post_bind, post_on_lib. eapply post_set; [done|].
  apply HQ; [|done|cbn; apply loopexit_calling]. apply inv_object with s; try done. by apply ev_inv_kern, loopexit_calling.
Qed.
(** The connection is closed, and its package freed if it owns its data. *)
Lemma ev_close_ok l w bev p (Q : unit -> W -> Prop) : inv l w -> calling (kern w) !! bev = Some p ->
  (forall l' w', inv l' w' -> Q tt w') ->
  post (on_packages (ArrayList_remove p);; on_lib (bufferevent_free bev)) Q w.
Proof.
  intros Hi Hbev HQ. destruct (in_server _ _ Hi) as (s & Ho & Hs). destruct (in_calling _ _ Hi _ _ Hbev) as (d & f & Hp & Hf).
  assert (p <> NULL) as Hn by (eapply in_nonnull; [done|by eexists]).
  destruct (remove_package l p (in_list _ _ Hi) Hn) as (l' & E & Hl' & Hit). apply post_bind.
  set (ps := if decide (p ∈ items l) then [p] else []) in *.
  apply (on_packages_ok _ tt l (Some l') ps w s); try done.
  - rewrite E. unfold ps. by destruct (decide _).
  - unfold ps. destruct (decide _); [apply NoDup_singleton|apply NoDup_nil_2].
  - intros q. unfold ps. destruct (decide _) as [Hin|]; [by intros ->%list_elem_of_singleton|by intros ?%elem_of_nil].
  - intros m Hm. apply post_on_lib, (HQ l').
    pose proof Hi as [_ _ Hnd Hown Hcal Hap Hheap].
    assert (forall q, q <> p -> m !! q = packs w !! q) as Hother.
    { intros q Hq. rewrite Hm, lookup_without. unfold ps. destruct (decide (p ∈ items l)) as [Hin|Hin].
      - by rewrite decide_False by (by intros ->%list_elem_of_singleton).
      - by rewrite decide_False by apply not_elem_of_nil. }
    assert (forall q, q ∈ items l <-> q ∈ items l' \/ (q = p /\ p ∈ items l)) as Hmem.
    { intros q. rewrite Hit at 1. rewrite elem_of_app. unfold ps. destruct (decide (p ∈ items l)) as [Hin|Hin].
      - rewrite list_elem_of_singleton. naive_solver.
      - rewrite elem_of_nil. naive_solver. }
    assert (NoDup (items l') /\ p ∉ items l') as [Hnd' Hout].
    { rewrite Hit in Hnd. apply NoDup_app in Hnd as (Hnd & Hdis & _). split; [done|]. intros Hp'.
      pose proof (Hdis p Hp') as Hno. assert (p ∈ items l) as Hin by (apply Hmem; by left).
      apply Hno. unfold ps. rewrite decide_True by done. by apply list_elem_of_singleton. }
    split; cbn [set_kern set_packs set_object object packs kern]; rewrite ?bufferevent_free_calling; try done.
    + exists (set_packages (Some l') s). split; [done|]. destruct Hs. by split.
    + intros q Hq. destruct (Hown q) as [d' Hd']; [apply Hmem; by left|]. exists d'. cbn.
      rewrite Hother; [done|]. by intros ->.
    + intros b q [Hb Hcq]%lookup_delete_Some. destruct (Hcal b q Hcq) as (d' & f' & Hd' & Hf').
      assert (q <> p) as Hqp by (intros ->; apply Hb; by eapply Hap).
      exists d', f'. rewrite Hother by done. split; [done|]. intros Ht. specialize (Hf' Ht). apply Hmem in Hf' as [?|[? _]]; done.
    + intros b b' q [_ Hb]%lookup_delete_Some [_ Hb']%lookup_delete_Some. eauto.
    + intros q Hq. rewrite Hm, lookup_without in Hq. destruct (decide (q ∈ ps)); [by destruct Hq|]. by apply Hheap.
Qed.

(** * The client's code

    It returns, leaves the packages, the connections and the handling of the quit command alone, and a client's first
    callback says what its data is and whether to free it. *)
Context (client_con : C -> ptr -> Z -> ptr -> M W Z) (data_in : C -> Datatypes.list Z -> Z -> ptr -> M W Z)
  (client_discon : C -> ptr -> Z -> ptr -> M W Z) (sig_proc : C -> Z -> Z -> M W Z)
  (malloc : W -> option ptr) (room grow : W -> bool).
Definition leaves (l : ArrayList) (w w' : W) : Prop := inv l w' /\ calling (kern w') = calling (kern w).
Record client_code : Prop := {
  con_ok c bev fd p l w : inv l w -> packs w !! p = Some (mkEscbPackage self None None) ->
    post (client_con c bev fd p) (fun _ w' => leaves l w w' /\ exists d f, packs w' !! p = Some (package d f)) w;
  data_in_ok c bytes n d l w : inv l w -> post (data_in c bytes n d) (fun _ w' => leaves l w w') w;
  discon_ok c bev events d l w : inv l w -> post (client_discon c bev events d) (fun _ w' => leaves l w w') w;
  sig_ok c sig events l w : inv l w -> post (sig_proc c sig events) (fun _ w' => leaves l w w') w;
  malloc_ok w p : malloc w = Some p -> 0 < p < 2 ^ 48 /\ packs w !! p = None;
  room_ok w : room w = true;
  grow_ok w : grow w = true }.
Hypothesis Hcode : client_code.

Lemma stop_fine l w : inv l w -> post EventServer_stop (fun _ => fine) w.
Proof. intros Hi. eapply ev_stop_ok; [done|]. intros w' Hi' _ _. by exists l. Qed.
(** What a callback's result asks for. *)
Lemma asked_ok l w bev p r : inv l w -> calling (kern w) !! bev = Some p ->
  post (when (negb (Z.land r ESCB_CLIENT_CLOSE =? 0)) (on_packages (ArrayList_remove p);; on_lib (bufferevent_free bev));;
        when (negb (Z.land r ESCB_SERVER_SHUTDOWN =? 0)) EventServer_stop) (fun _ => fine) w.
Proof.
  intros Hi Hbev. apply post_bind, post_when; intros _.
  - eapply ev_close_ok; [done..|]. intros l' w' Hi'. apply post_when; intros _; [by eapply stop_fine|by exists l'].
  - apply post_when; intros _; [by eapply stop_fine|by exists l].
Qed.
Lemma server_of_ok l w bev p (Q : escb_package -> W -> Prop) : inv l w -> calling (kern w) !! bev = Some p ->
  (forall d f, Q (package d f) w) -> post (server_of self p) Q w.
Proof.
  intros Hi Hbev HQ. destruct (in_calling _ _ Hi _ _ Hbev) as (d & f & Hp & _). apply post_bind.
  eapply post_load; [eapply in_nonnull; [done|by eexists]|done|]. cbn [package server]. rewrite Z.eqb_refl. by apply post_ret.
Qed.
Lemma conn_eventcb_ok l w bev events p : inv l w -> calling (kern w) !! bev = Some p ->
  post (conn_eventcb self client_discon bev events p) (fun _ => fine) w.
Proof.
  intros Hi Hbev. apply post_bind. eapply server_of_ok; [done..|]. intros d f. apply post_if; intros _.
  { apply post_ret. by exists l. }
  destruct (in_server _ _ Hi) as (s & Ho & Hs). apply post_bind. eapply post_get; [done|].
  destruct (client_discon_cb s) as [c|].
  - apply post_bind. eapply post_lift; [done|]. apply post_bind.
    eapply post_mono; [by apply (discon_ok Hcode)|]. intros r w' (Hi' & Hc'). eapply asked_ok; [done|by rewrite Hc'].
  - apply post_on_lib. exists l. by apply inv_freed.
Qed.
Lemma ev_receive_ok l w bev (Q : Z * option (Datatypes.list Z) -> W -> Prop) : inv l w ->
  (forall n bytes w', 0 <= n < 2 ^ 31 -> inv l w' -> calling (kern w') = calling (kern w) -> object w' = object w -> Q (n, bytes) w') ->
  post (receive room bev) Q w.
Proof.
  intros Hi HQ. apply post_bind, post_sys. pose proof (length_range bev (kern w)) as Hr.
  pose proof (length_calling bev (kern w)) as Hc. destruct (evbuffer_get_length bev (kern w)) as [n k]. cbn [fst snd] in *.
  rewrite (s32_small n) by lia. apply post_bind, post_gets. rewrite (room_ok Hcode). apply post_bind, post_sys.
  rewrite (proj2 (Z.leb_le 0 n)) by lia. apply post_ret. apply HQ; [done| |cbn|done].
  - apply ev_inv_kern; [by apply ev_inv_kern|]. cbn. apply remove_calling.
  - by rewrite remove_calling.
Qed.
Lemma conn_readcb_ok l w bev p : inv l w -> calling (kern w) !! bev = Some p ->
  post (conn_readcb self data_in room bev p) (fun _ => fine) w.
Proof.
  intros Hi Hbev. apply post_bind. eapply server_of_ok; [done..|]. intros d f. apply post_bind.
  eapply ev_receive_ok; [done|]. intros n bytes w1 Hn Hi1 Hc1 _. destruct (in_server _ _ Hi1) as (s & Ho & Hs).
  apply post_bind. eapply post_this; [done|]. apply post_bind. eapply post_lift.
  { unfold is_quit_command. rewrite (sv_quit _ _ Hs). done. }
  destruct (data_in_cb s) as [c|]; [|apply post_ret; by exists l].
  apply post_bind. eapply post_lift; [done|]. apply post_bind.
  eapply post_mono; [by apply (data_in_ok Hcode)|]. intros r w2 (Hi2 & Hc2). eapply asked_ok; [done|]. by rewrite Hc2, Hc1.
Qed.
Lemma signal_cb_ok l w sig events : inv l w -> post (signal_cb sig_proc sig events) (fun _ => fine) w.
Proof.
  intros Hi. destruct (in_server _ _ Hi) as (s & Ho & Hs). apply post_bind. eapply post_get; [done|].
  destruct (sig_cb s) as [c|]; [|by eapply stop_fine]. apply post_bind.
  eapply post_mono; [by apply (sig_ok Hcode)|]. intros r w' (Hi' & _).
  apply post_when; intros _; [by eapply stop_fine|by exists l].
Qed.

(** * A new client *)
Lemma inv_packs l w m : inv l w -> (forall q, is_Some (m !! q) -> 0 < q < 2 ^ 48) ->
  (forall q d f, packs w !! q = Some (package d f) -> m !! q = Some (package d f)) -> inv l (set_packs m w).
Proof.
  intros [] Hh Hm. split; cbn [set_packs object packs kern]; try done.
  - intros q Hq. destruct (in_owned0 q Hq) as [d Hd]. exists d. by apply Hm.
  - intros bev q Hb. destruct (in_calling0 bev q Hb) as (d & f & Hd & Hf). exists d, f. split; [by apply Hm|done].
Qed.
Lemma free_data_ok w p d f (Q : unit -> W -> Prop) : p <> NULL -> packs w !! p = Some (package d f) -> Q tt w ->
  post (free_package_data p) Q w.
Proof.
  intros Hn Hp HQ. apply post_bind. eapply post_load; [done..|]. apply post_bind. eapply post_lift; [done|].
  cbn [package free_data_proc]. apply post_if; intros _; [by apply post_ret|]. apply post_bind. eapply post_lift; [done|].
  apply post_when; intros _; [by apply post_emit|done].
Qed.
(** A package that no connection has yet. *)
Record newcomer (l : ArrayList) (w : W) (p : ptr) : Prop := {
  nc_calling : forall bev, calling (kern w) !! bev <> Some p;
  nc_items : p ∉ items l }.
Lemma set_up_ok l w bev p d f : inv l w -> packs w !! p = Some (package d f) -> newcomer l w p ->
  post (set_up grow bev p) (fun _ => fine) w.
Proof.
  intros Hi Hp [Hnc Hni]. assert (p <> NULL) as Hn by (eapply in_nonnull; [done|by eexists]).
  assert (forall l1 w1, inv l1 w1 -> packs w1 !! p = Some (package d f) -> (f = true -> p ∈ items l1) ->
    calling (kern w1) = calling (kern w) ->
    post (s ← this;
      on_lib (bufferevent_setcb bev (match data_in_cb s with Some _ => true | None => handle_quit_command s end) p);;
      on_lib (bufferevent_enable bev EV_WRITE);; on_lib (bufferevent_enable bev EV_READ)) (fun _ => fine) w1) as Hrest.
  { intros l1 w1 Hi1 Hp1 Hf1 Hc1. destruct (in_server _ _ Hi1) as (s & Ho & Hs). apply post_bind.
    eapply post_this; [done|]. apply post_bind, post_on_lib, post_bind, post_on_lib, post_on_lib. exists l1.
    cbn [set_kern kern]. apply ev_inv_kern; [|apply enable_calling]. apply ev_inv_kern; [|apply enable_calling].
    destruct Hi1 as [? ? ? ? Hcal Hap ?]. rewrite Hc1 in Hcal, Hap.
    split; cbn [set_kern object packs kern]; rewrite ?setcb_calling, ?Hc1; try done.
    - intros b q Hb. destruct (decide (b = bev)) as [->|Hne].
      + rewrite lookup_insert_eq in Hb. injection Hb as <-. by exists d, f.
      + rewrite lookup_insert_ne in Hb by done. by apply Hcal with b.
    - intros b b' q [[<- <-]|[? Hb]]%lookup_insert_Some [[<- ?]|[? Hb']]%lookup_insert_Some; subst; try done;
        [by edestruct Hnc..|by eapply Hap]. }
  apply post_bind. eapply post_load; [done..|]. apply post_bind. eapply post_lift; [done|]. cbn [package free_data_proc].
  apply post_bind, post_when; intros Ef; subst f; [|by apply (Hrest l w)].
  apply post_bind, post_gets. rewrite (grow_ok Hcode). apply post_bind.
  destruct (add_package l p (in_list _ _ Hi) Hn (in_few _ _ Hi)) as (l' & E & Hl' & Hit).
  destruct (in_server _ _ Hi) as (s & Ho & [S1 S2 S3 S4]).
  apply (on_packages_ok _ 1 l (Some l') [] w s); try done; [apply NoDup_nil_2|by intros q ?%elem_of_nil|].
  intros m Hm. apply post_ret. destruct Hi as [? ? Hnd Hown Hcal Hap Hheap].
  assert (forall q, m !! q = packs w !! q) as Hsame.
  { intros q. rewrite Hm, lookup_without. by rewrite decide_False by apply not_elem_of_nil. }
  apply (Hrest l'); [|by cbn; rewrite Hsame|intros _; rewrite Hit; by apply elem_of_cons; left|done].
  split; cbn [set_packs set_object object packs kern]; try done.
  - exists (set_packages (Some l') s). split; [done|]. by split.
  - rewrite Hit. by apply NoDup_cons.
  - intros q. rewrite Hit. intros [->|Hq]%elem_of_cons; [by exists d; cbn; rewrite Hsame|].
    destruct (Hown q Hq) as [d' Hd']. exists d'. cbn. by rewrite Hsame.
  - intros b q Hb. destruct (Hcal b q Hb) as (d' & f' & Hd' & Hf'). exists d', f'. rewrite Hsame. split; [done|].
    intros Ht. rewrite Hit. apply elem_of_cons. right. by apply Hf'.
  - intros q. rewrite Hsame. apply Hheap.
Qed.
Lemma listener_cb_ok l w fd : inv l w -> post (listener_cb self client_con malloc grow fd) (fun _ => fine) w.
Proof.
  intros Hi. apply post_bind, post_gets, post_bind. destruct (malloc w) as [p|] eqn:Em.
  2: { apply post_ret. cbn [Z.eqb NULL]. apply post_ret. by exists l. }
  destruct (malloc_ok Hcode _ _ Em) as [Hr Hfree]. cbn [alloc]. apply post_bind, post_modify, post_ret.
  assert (p <> NULL) as Hn by (unfold NULL; lia). rewrite (proj2 (Z.eqb_neq p NULL)) by done.
  set (w1 := put _ w). change w1 with (set_packs (<[p := mkEscbPackage self None None]> (packs w)) w) in *. clear w1.
  assert (inv l (set_packs (<[p := mkEscbPackage self None None]> (packs w)) w)) as Hi1.
  { apply inv_packs; [done| |].
    - intros q Hq. destruct (decide (q = p)) as [->|Hne]; [done|]. rewrite lookup_insert_ne in Hq by done. by apply (in_heap _ _ Hi).
    - intros q d f Hq. rewrite lookup_insert_ne; [done|]. intros ->. congruence. }
  assert (newcomer l w p) as [Hnc Hni].
  { split.
    - intros bev Hb. destruct (in_calling _ _ Hi _ _ Hb) as (d & f & Hp & _). congruence.
    - intros Hp. destruct (in_owned _ _ Hi _ Hp). congruence. }
  destruct (in_server _ _ Hi1) as (s & Ho & Hs). apply post_bind. eapply post_get; [done|]. apply post_bind, post_sys. cbn [kern set_packs].
  pose proof (socket_new_calling (base s) fd (kern w)) as Hc.
  destruct (bufferevent_socket_new (base s) fd (kern w)) as [bev k]. cbn [fst snd] in *.
  set (w2 := set_kern k _). assert (inv l w2) as Hi2 by by apply ev_inv_kern.
  assert (packs w2 !! p = Some (mkEscbPackage self None None)) as Hp2 by apply lookup_insert_eq.
  assert (calling (kern w2) = calling (kern w)) as Hc2 by exact Hc. assert (object w2 = Some s) as Ho2 by exact Ho.
  clearbody w2. clear Hi1. apply post_if; intros _.
  { apply post_on_lib. exists l. by apply ev_inv_kern, loopbreak_calling. }
  apply post_bind. eapply post_get; [done|]. destruct (client_con_cb s) as [c|] eqn:Ec; [|by destruct (sv_con _ _ Hs)].
  apply post_bind. eapply post_mono; [by apply (con_ok Hcode)|]. cbv beta. intros r w3 ((Hi3 & Hc3) & d & f & Hp3).
  apply post_if; intros _; [|apply post_if; intros _].
  - apply post_bind, post_on_lib. eapply free_data_ok; [done|exact Hp3|]. exists l. by apply inv_freed.
  - apply post_bind, post_on_lib, post_bind. eapply ev_stop_ok; [by apply inv_freed|]. intros w4 Hi4 Hp4 _.
    eapply free_data_ok; [done|rewrite Hp4; exact Hp3|]. by exists l.
  - eapply set_up_ok; [done..|]. split; [|done]. intros b. rewrite Hc3, Hc2. apply Hnc.
Qed.

(** * The loop *)
(** Between two occurrences the invariant holds: the loop never reads a package that is freed, whatever libevent reports and
    however long it runs. *)
Lemma ev_dispatch_ok fuel b : forall l w, inv l w ->
  safe (dispatch self client_con data_in client_discon sig_proc malloc room grow fuel b) (fun _ => fine) w.
Proof.
  induction fuel as [|fuel IH]; intros l w Hi; cbn [dispatch]; [done|]. apply safe_bind. unfold safe at 1, sys.
  pose proof (next_calling b (kern w)) as Hc. pose proof (next_reports b (kern w)) as Hrep.
  destruct (event_base_next b (kern w)) as [o k]. cbn [fst snd] in *.
  assert (inv l (set_kern k w)) as Hi1 by by apply ev_inv_kern. destruct o as [o|]; [|by exists l].
  apply safe_bind. assert (post (handle self client_con data_in client_discon sig_proc malloc room grow o) (fun _ => fine) (set_kern k w)) as Hh.
  { destruct o as [fd|bev p|bev events p|sig events]; cbn [handle] in *.
    - by apply listener_cb_ok with l.
    - apply conn_readcb_ok with l; [done|]. cbn. by rewrite Hc.
    - apply conn_eventcb_ok with l; [done|]. cbn. by rewrite Hc.
    - by apply signal_cb_ok with l. }
  apply post_safe in Hh. eapply safe_mono; [exact Hh|]. cbv beta. intros _ w' (l' & Hi'). by apply (IH l').
Qed.

(** * Deleting *)
Lemma ev_delete_ok l w : inv l w -> post (delEventServer true) (fun _ w' => object w' = None /\
  calling (kern w') = calling (kern w) /\ forall p, packs w' !! p = if decide (p ∈ items l) then None else packs w !! p) w.
Proof.
  intros Hi. destruct (in_server _ _ Hi) as (s & Ho & Hs). pose proof (in_list _ _ Hi) as [Hwf Hf Hmu _ _].
  cbn [delEventServer negb]. eapply post_on_this; [done|]. apply post_bind. eapply post_this; [done|].
  assert (forall (f : K -> K) b w1 (m : M W unit) Q, (forall k, calling (f k) = calling k) ->
    (forall k, calling k = calling (kern w1) -> post m Q (set_kern k w1)) -> post (when b (on_lib f);; m) Q w1) as Hlib.
  { intros f b w1 m Q Hk Hm. apply post_bind, post_when; intros _; [apply post_on_lib, Hm, Hk|].
    specialize (Hm (kern w1) eq_refl). by destruct w1. }
  apply Hlib; [intros; apply listener_free_calling|]. intros k1 H1.
  apply Hlib; [intros; apply event_free_calling|]. intros k2 H2.
  apply Hlib; [intros; apply base_free_calling|]. intros k3 H3. cbn [kern set_kern] in *.
  set (w1 := set_kern k3 _). assert (inv l w1) as Hi1 by (do 3 (apply ev_inv_kern; [|cbn; congruence]); done).
  assert (object w1 = Some s /\ packs w1 = packs w /\ calling (kern w1) = calling (kern w)) as (Ho1 & Hp1 & Hc1)
    by (split; [done|]; split; [done|]; cbn; congruence). clearbody w1. clear H1 H2 H3 k1 k2 k3.
  assert (post (on_packages delArrayList;; modify (set_object None)) (fun _ w' => object w' = None /\
    calling (kern w') = calling (kern w) /\ forall p, packs w' !! p = if decide (p ∈ items l) then None else packs w !! p) w1) as Hend.
  { destruct (clear_ok l Hwf) as (l' & E & Hw & Hm & Hf' & Hit & Hc). unfold freed in E. rewrite Hf in E.
    destruct (keeps_mutex _ _ _ _ _ ignores_clear E) as [_ Eu]. apply post_bind.
    apply (on_packages_ok _ tt l None (items l) w1 s); [done..| |apply Hi|done|].
    - unfold delArrayList. rewrite E. cbn. rewrite Eu, Hmu, app_nil_r. done.
    - intros m Hm'. apply post_modify. cbn. split; [done|]. split; [done|]. intros p. by rewrite Hm', lookup_without, Hp1. }
  apply post_bind, post_when; intros _; [apply post_emit|]; exact Hend.
Qed.
(** ** A whole session *)
Hypothesis binds : forall b port k, (evconnlistener_new_bind b port k).1 <> NULL.
Hypothesis catches : forall b k, (evsignal_new b k).1 <> NULL.
Lemma ev_new_ok ok port c in_ discon sig ext free_ext w : calling (kern w) = ∅ -> (forall p, is_Some (packs w !! p) -> 0 < p < 2 ^ 48) ->
  post (newEventServer true ok true port (Some c) in_ discon sig ext free_ext false)
    (fun _ w' => (object w' = None /\ calling (kern w') = ∅) \/ inv (mkArrayList None 0 0 ULONG_MAX true false false) w') w.
Proof.
  intros Hc Hh. unfold newEventServer. cbn [negb]. destruct ok; cbn [negb]; [|apply post_bind, post_modify, post_ret; by left].
  apply post_bind, post_sys. pose proof (base_new_calling (kern w)) as Hb.
  destruct (event_base_new (kern w)) as [b k]. cbn [fst snd] in *. apply post_if; intros _.
  { apply post_bind, post_modify, post_ret. left. split; [done|]. cbn. congruence. }
  apply post_bind, post_sys. pose proof (binds b (htons port) k) as Hl. pose proof (listener_calling b (htons port) k) as Hlc.
  cbn [kern set_kern]. destruct (evconnlistener_new_bind b (htons port) k) as [li k1]. cbn [fst snd] in *.
  apply post_bind, post_sys. pose proof (catches b k1) as He. pose proof (evsignal_calling b k1) as Hec.
  cbn [kern set_kern]. destruct (evsignal_new b k1) as [e k2]. cbn [fst snd] in *.
  rewrite (proj2 (Z.eqb_neq li NULL)), (proj2 (Z.eqb_neq e NULL)) by done. cbn [orb].
  apply post_bind, post_on_lib. cbn [kern set_kern]. apply post_bind. eapply post_lift; [done|]. cbn [app].
  apply post_bind. exists tt, (set_kern (event_add e k2) (set_kern k2 (set_kern k1 (set_kern k w)))), []. split; [done|].
  apply post_bind, post_modify, post_ret. right.
  assert (calling (event_add e k2) = ∅) as E by (rewrite event_add_calling; congruence).
  split; cbn [set_object set_kern object packs kern]; rewrite ?E; try done.
  - eexists. split; [done|]. by split.
  - by apply NoDup_nil_2.
  - by intros p ?%elem_of_nil.
Qed.

(** C35: from a server that is made to one that is deleted, nothing is read that is freed or indeterminate,
    however long the loop runs and whatever events libevent reports, and when the server is deleted every client
    that is still connected has had its package freed, or has one that owns no data. The conditions: the port is
    not refused and the event for signals can be made (with a refused port the half-made server reads an
    indeterminate pointer, [refused_port_faults]); there is a callback for new clients, which the header calls
    optional (without it an indeterminate member is read, [no_connect_callback_faults]); the quit command is not
    handled (see [quit_command_faults]); the server's list, its growth and the memory for the received bytes can
    be allocated, and the packages and the server itself are allocated at fresh addresses below 2^48 or not at
    all; no connection has callbacks at the start; and the client's code returns, leaves the packages and
    connections alone, and its first callback fills in the package ([client_code]). *)
Theorem EventServer_session_frees (fuel : nat) (ok : bool) (port : Z) (c : C) (in_ discon sig : option C) (ext : ptr) (free_ext : bool) (w : W) :
  calling (kern w) = ∅ -> (forall p, is_Some (packs w !! p) -> 0 < p < 2 ^ 48) ->
  safe (newEventServer true ok true port (Some c) in_ discon sig ext free_ext false;;
        EventServer_start self client_con data_in client_discon sig_proc malloc room grow fuel;;
        delEventServer true)
    (fun _ w' => object w' = None /\ forall bev p, calling (kern w') !! bev = Some p ->
       packs w' !! p = None \/ exists d, packs w' !! p = Some (package d false)) w.
Proof.
  intros Hc Hh. apply safe_bind. eapply safe_mono; [eapply post_safe, ev_new_ok; [exact Hc|exact Hh]|]. cbv beta.
  intros _ w1 [[Ho Hc1]|Hi].
  - apply post_safe. unfold EventServer_start, delEventServer, on_this. apply post_bind, post_bind, post_gets. rewrite Ho.
    apply post_ret. cbn [negb]. apply post_bind, post_gets. rewrite Ho. apply post_ret. split; [done|]. intros bev p. by rewrite Hc1.
  - set (l0 := mkArrayList _ _ _ _ _ _ _) in Hi. clearbody l0. apply safe_bind.
    apply safe_mono with (P := fun _ => fine).
    + destruct (in_server _ _ Hi) as (s & Ho & Hs). unfold EventServer_start, on_this. apply safe_bind.
      eapply safe_mono; [apply post_safe, (post_gets object (fun o w' => o = Some s /\ w' = w1)); by split|]. cbv beta.
      intros _ _ [-> ->]. apply safe_bind.
      eapply safe_mono; [eapply post_safe, (post_set _ (fun _ w' => inv l0 w')); [exact Ho|by eapply inv_object]|]. cbv beta.
      intros _ w2 Hi2. destruct (in_server _ _ Hi2) as (s2 & Ho2 & _). apply safe_bind.
      eapply safe_mono; [eapply post_safe, (post_get base (fun _ w' => inv l0 w')); [exact Ho2|exact Hi2]|]. cbv beta.
      intros b w3 Hi3. by apply ev_dispatch_ok with l0.
    + intros _ w2 (l & Hi2). eapply safe_mono; [eapply post_safe, ev_delete_ok; exact Hi2|]. cbv beta.
      intros _ w3 (Ho3 & Hc3 & Hp3). split; [done|]. intros bev p. rewrite Hc3. intros Hb.
      destruct (in_calling _ _ Hi2 _ _ Hb) as (d & f & Hp & Hf). rewrite Hp3.
      destruct (decide (p ∈ items l)) as [Hin|Hin]; [by left|]. right. exists d. rewrite Hp. by destruct f; [destruct Hin; apply Hf|].
Qed.
End spec.

(** * Where the server faults *)
Lemma strlen_runs_off b off n fuel : no_nul b -> 0 <= off <= blen b -> (Z.to_nat (blen b - off) < fuel)%nat ->
  strlen_from fuel b off n = UB OutOfBounds.
Proof.
  intros Hb. revert off n. induction fuel as [|fuel IH]; intros off n Hoff Hf; [lia|]. cbn [strlen_from].
  destruct (decide (off = blen b)) as [->|Hne].
  - by rewrite blk_load_oob by lia.
  - destruct (lookup_lt_is_Some_2 b (Z.to_nat off)) as [c Hc]; [unfold blen in *; lia|].
    rewrite (blk_load_ok b off c) by (done || lia). cbn [mbind res_bind].
    assert (c <> 0) as Hc0 by (eapply Forall_lookup_1 in Hb; [|exact Hc]; done).
    rewrite (proj2 (Z.eqb_neq c 0)) by done. apply IH; unfold blen in *; lia.
Qed.
Lemma strlen_prefix t rest : no_nul t -> strlen (t ++ 0 :: rest) 0 = Ok (blen t).
Proof. intros Ht. exact (strlen_ok [] t rest Ht). Qed.
(** The first word of a block that is too short for one. *)
Lemma load_word_short b : blen b < 8 -> load_word b 0 = UB OutOfBounds.
Proof. intros Hb. unfold load_word. by rewrite blk_read_oob by lia. Qed.

(** C36: with the quit command ".quit" no message is ever taken for it: a message without a terminator is read past its end, one of the
    command's length makes the comparison read eight bytes where the command has six, and every other is different. *)
Theorem quit_command_faults {C} (s : EventServer C) (bytes : Datatypes.list Z) :
  handle_quit_command s = true -> quit_command s = None -> quit_command_len s = 5 -> blen bytes < 2 ^ 31 ->
  (blen bytes < 5 -> is_quit_command s (blen bytes) (Some bytes) = Ok false) /\
  (5 <= blen bytes -> no_nul bytes -> is_quit_command s (blen bytes) (Some bytes) = UB OutOfBounds) /\
  (forall t rest, 5 <= blen bytes -> bytes = t ++ 0 :: rest -> no_nul t ->
     is_quit_command s (blen bytes) (Some bytes) = if blen t =? 5 then UB OutOfBounds else Ok false).
Proof.
  intros Hh Hq Hl Hb. pose proof (blen_nonneg bytes). unfold is_quit_command. rewrite Hh, Hq, Hl.
  assert (u64 (blen bytes) = blen bytes) as -> by (unwrap; done). cbn [andb].
  split; [|split].
  - intros Hlt. by rewrite (proj2 (Z.leb_gt _ _)).
  - intros Hge Hn. rewrite (proj2 (Z.leb_le _ _)) by done. unfold str_match. cbn [Z.eqb]. unfold strlen.
    rewrite (strlen_runs_off bytes); [done|done|lia|unfold blen; lia].
  - intros t rest Hge -> Ht. rewrite (proj2 (Z.leb_le _ _)) by done. unfold str_match. cbn [Z.eqb].
    rewrite strlen_prefix by done. cbn [mbind res_bind]. change (strlen DEFAULT_QUIT_COMMAND 0) with (@Ok Z 5). cbn [mbind res_bind].
    destruct (Z.eqb_spec (blen t) 5) as [->|Hne].
    + cbn [Z.ltb Z.gtb Z.compare Pos.compare Pos.compare_cont match_words].
      destruct (Z.lt_ge_cases (blen (t ++ 0 :: rest)) 8) as [Hs|Hs]; [by rewrite (load_word_short _ Hs)|].
      rewrite (load_word_ok (t ++ 0 :: rest) 0) by lia. cbn [mbind res_bind]. by rewrite (load_word_short DEFAULT_QUIT_COMMAND).
    + destruct (Z.ltb_spec (blen t) 5); [done|]. rewrite Z.gtb_ltb, (proj2 (Z.ltb_lt _ _)) by lia. done.
Qed.

Section faults.
Context {K U C : Type} `{Libevent K}.
Notation W := (world K (EventServer C) escb_package U).
Context (self : ptr) (client_con : C -> ptr -> Z -> ptr -> M W Z) (malloc : W -> option ptr) (grow : W -> bool).
(** The callback for a new client is optional: without it the first client makes the server read whether to free its data, which
    nothing has written. *)
Theorem no_connect_callback_faults (s : EventServer C) (p : ptr) (fd : Z) (w : W) : object w = Some s -> client_con_cb s = None ->
  malloc w = Some p -> p <> NULL -> (bufferevent_socket_new (base s) fd (kern w)).1 <> NULL ->
  listener_cb self client_con malloc grow fd w = UB Indeterminate.
Proof.
  intros Ho Hc Hm Hp Hb. unfold listener_cb. rewrite bind_gets, Hm. rewrite bind_alloc. rewrite (proj2 (Z.eqb_neq p NULL)) by done.
  set (w1 := put _ w). assert (packs w1 = <[p := mkEscbPackage self None None]> (packs w) /\ object w1 = Some s /\ kern w1 = kern w)
    as (Hp1 & Ho1 & Hk1) by done. clearbody w1.
  assert (forall (B : Type) (f : EventServer C -> B) (w2 : W), object w2 = Some s -> get f w2 = Ok (f s, w2, [])) as Hget.
  { intros B f w2 Ho2. unfold get, this. by rewrite bind_bind, bind_gets, Ho2, (bind_lift _ s). }
  rewrite (bind_quiet _ _ _ _ _ (Hget _ _ _ Ho1)), bind_sys, Hk1.
  destruct (bufferevent_socket_new (base s) fd (kern w)) as [bev k]. cbn [fst snd] in *. rewrite (proj2 (Z.eqb_neq bev NULL)) by done.
  rewrite (bind_quiet _ _ _ _ _ (Hget _ client_con_cb (set_kern k w1) Ho1)), Hc.
  rewrite (bind_update (A := escb_package) p _ _ _ (mkEscbPackage self None None)); [|done|by cbn; rewrite Hp1, lookup_insert_eq].
  unfold set_up. erewrite bind_load; [|done|cbn; by rewrite lookup_insert_eq]. done.
Qed.
(** A port that is in use: the error is found, but deleting the half-made server reads the list of packages, which nothing has
    written. *)
Theorem refused_port_faults (kl : bool) (port : Z) (con in_ discon sig : option C) (ext : ptr) (free_ext h : bool) (w : W) :
  (event_base_new (kern w)).1 <> NULL ->
  (forall b k, (evconnlistener_new_bind b (htons port) k).1 = NULL) -> (forall b k, (evsignal_new b k).1 <> NULL) ->
  newEventServer true true kl port con in_ discon sig ext free_ext h w = UB Indeterminate.
Proof.
  intros Hb Hl He. unfold newEventServer. cbn [negb]. rewrite bind_sys. destruct (event_base_new (kern w)) as [b k].
  cbn [fst snd] in *. rewrite (proj2 (Z.eqb_neq b NULL)) by done. rewrite bind_sys. cbn [kern set_kern]. specialize (Hl b k).
  destruct (evconnlistener_new_bind b (htons port) k) as [li k1]. cbn [fst snd] in *. subst li. rewrite bind_sys. cbn [kern set_kern].
  specialize (He b k1). destruct (evsignal_new b k1) as [e k2]. cbn [fst snd] in *. rewrite (proj2 (Z.eqb_neq e NULL)) by done.
  unfold on_lib. rewrite bind_sys. cbn [fst snd Z.eqb NULL orb]. rewrite bind_modify.
  apply bind_UB. cbn [delEventServer negb]. unfold on_this. rewrite bind_gets. cbn [object set_object].
  unfold this. rewrite bind_bind, bind_gets. cbn [object set_object]. rewrite (bind_lift _ (mkEventServer b (htons port) NULL e false None None None None h None 5 NULL false None false)) by done.
  cbn [listener signal_event base free_extended_data Z.eqb NULL negb when]. rewrite bind_mret.
  rewrite (proj2 (Z.eqb_neq e NULL)), (proj2 (Z.eqb_neq b NULL)) by done. cbn [negb when]. unfold on_lib.
  rewrite bind_sys, bind_sys, bind_mret. cbn [fst snd]. apply bind_UB. done.
Qed.
End faults.

(** * A libevent that follows a script *)
Record stage := mkStage { up : gmap ptr ptr; next_bev : ptr; shows : Datatypes.list occurrence; inputs : Datatypes.list (Datatypes.list Z) }.
Definition stage_next (k : stage) : option occurrence * stage :=
  match shows k with
  | [] => (None, k)
  | o :: os =>
      let k := mkStage (up k) (next_bev k) os (inputs k) in
      match o with
      | Readable bev p | Occurred bev _ p => (if bool_decide (up k !! bev = Some p) then Some o else None, k)
      | _ => (Some o, k)
      end
  end.
Definition stage_socket (k : stage) : ptr * stage :=
  if bool_decide (up k !! next_bev k = None)
  then (next_bev k, mkStage (up k) (next_bev k + 1) (shows k) (inputs k)) else (fresh (dom (up k)), k).
Definition set_up_map (m : gmap ptr ptr) (k : stage) : stage := mkStage m (next_bev k) (shows k) (inputs k).
Definition stage_input (k : stage) : Datatypes.list Z :=
  match inputs k with b :: _ => if blen b <? 2 ^ 31 then b else [] | [] => [] end.
#[export] Instance staged : Libevent stage := {|
  event_base_new := fun k => (1, k); event_base_free := fun _ k => k; event_base_loopexit := fun _ k => k;
  event_base_loopbreak := fun _ k => k; event_base_next := fun _ => stage_next;
  evconnlistener_new_bind := fun _ _ k => (2, k); evconnlistener_free := fun _ k => k; evsignal_new := fun _ k => (3, k);
  event_add := fun _ k => k; event_free := fun _ k => k; bufferevent_socket_new := fun _ _ => stage_socket;
  bufferevent_free := fun bev k => set_up_map (delete bev (up k)) k;
  bufferevent_setcb := fun bev _ p k => set_up_map (<[bev := p]> (up k)) k; bufferevent_enable := fun _ _ k => k;
  evbuffer_get_length := fun _ k => (blen (stage_input k), k);
  evbuffer_remove := fun _ n k => (take (Z.to_nat n) (stage_input k), mkStage (up k) (next_bev k) (shows k) (tail (inputs k))) |}.
#[export] Instance staged_laws : LibeventLaws stage.
Proof.
  refine {| calling := up |}; cbn; try done.
  - intros ? k; cbn. unfold stage_next. destruct (shows k) as [|[] ?]; cbn; try done; by case_bool_decide.
  - intros ? k; cbn. unfold stage_next. destruct (shows k) as [|[] ?]; cbn; try done; by case_bool_decide.
  - intros ? ? k; cbn. unfold stage_socket. by case_bool_decide.
  - intros ? ? k; cbn. unfold stage_socket. case_bool_decide as Hn; cbn; [done|]. apply not_elem_of_dom, is_fresh.
  - intros ? k; cbn. unfold stage_input. destruct (inputs k) as [|b ?]; [done|]. case_cmp; [|done]. pose proof (blen_nonneg b). lia.
  - intros ? k; cbn. unfold blen. rewrite Nat2Z.id. by rewrite take_ge.
Defined.

(** A client's code: the data of every client is at 77 and to be freed, data closes the connection. *)
Notation W := (world stage (EventServer unit) escb_package unit).
Definition con_77 (_ : unit) (bev : ptr) (fd : Z) (p : ptr) : M W Z :=
  update (A := escb_package) p (fun pk => mkEscbPackage (server pk) (Some 77) (Some true));; mret ESCB_CONTINUE.
Definition malloc_next (w : W) : option ptr :=
  let p := 1000 + Z.of_nat (size (packs w)) in
  if bool_decide (p < 2 ^ 48 /\ packs w !! p = None) then Some p else None.
Definition close_all (_ : unit) (_ : Datatypes.list Z) (_ : Z) (_ : ptr) : M W Z := mret ESCB_CLIENT_CLOSE.
Lemma code_77 : client_code 9 con_77 close_all (fun _ _ _ _ => mret 0) (fun _ _ _ => mret 0) malloc_next (fun _ => true) (fun _ => true).
Proof.
  split; try done.
  - intros c bev fd p l w Hi Hp. assert (p <> NULL) as Hn by (eapply in_nonnull; [done|by eexists]).
    apply post_bind. eexists tt, _, []. split; [exact (update_ok (A := escb_package) p _ w _ Hn Hp)|]. apply post_ret.
    change (put (<[p := mkEscbPackage 9 (Some 77) (Some true)]> (packs w)) w) with
      (set_packs (<[p := mkEscbPackage 9 (Some 77) (Some true)]> (packs w)) w).
    split; [split; [|done]|].
    + apply inv_packs; [done| |].
      * intros q Hq. destruct (decide (q = p)) as [->|Hne]; [by apply (in_heap _ _ _ Hi); eexists|].
        rewrite lookup_insert_ne in Hq by done. by apply (in_heap _ _ _ Hi).
      * intros q d f Hq. rewrite lookup_insert_ne; [done|]. intros ->. unfold package in Hq; congruence.
    + exists 77, true. apply lookup_insert_eq.
  - intros ? bytes n d l w Hi. apply post_ret. by split.
  - intros ? bev events d l w Hi. apply post_ret. by split.
  - intros ? sig events l w Hi. apply post_ret. by split.
  - intros w p. unfold malloc_next. case_bool_decide as Hb; [|done]. intros [= <-]. destruct Hb. split; [lia|done].
Qed.
(** Three clients come; one sends data and is closed, one goes by itself. *)
Definition three_clients : W := mkWorld (mkStage ∅ 50 [Accepted 5; Accepted 6; Accepted 7; Readable 50 1000; Occurred 51 16 1001; Signalled 2 0] [[104; 105]])
  None ∅ tt.
Definition three_session : M W unit :=
  newEventServer true true true 80 (Some tt) (Some tt) None None NULL false false;;
  EventServer_start 9 con_77 close_all (fun _ _ _ _ => mret 0) (fun _ _ _ => mret 0) malloc_next (fun _ => true) (fun _ => true) 20;;
  delEventServer true.
Example three_freed : match three_session three_clients with
  | Ok (_, w, t) => (t, map_to_list (packs w), map_to_list (up (kern w))) = ([EvFree 77; EvFree 77; EvFree 77], [], [(52, 1002)])
  | _ => False end.
Proof. by vm_compute. Qed.
Lemma EventServer_session_frees_witness :
  safe three_session (fun _ w' => object w' = None /\ forall bev p, calling (kern w') !! bev = Some p ->
    packs w' !! p = None \/ exists d, packs w' !! p = Some (package 9 d false)) three_clients.
Proof.
  apply (EventServer_session_frees 9 con_77 close_all (fun _ _ _ _ => mret 0) (fun _ _ _ => mret 0) malloc_next (fun _ => true)
    (fun _ => true) code_77); [done|done|done|]. intros p [x Hx]. done.
Defined.
(** The command itself, terminated and not. *)
Definition quitting : EventServer unit := mkEventServer 1 80 2 3 true None None None None true None 5 NULL false None true.
Lemma quit_command_faults_witness :
  is_quit_command quitting 5 (Some [46; 113; 117; 105; 116]) = UB OutOfBounds /\
  is_quit_command quitting 6 (Some [46; 113; 117; 105; 116; 0]) = UB OutOfBounds.
Proof.
  split.
  - apply (proj1 (proj2 (quit_command_faults quitting [46; 113; 117; 105; 116] eq_refl eq_refl eq_refl eq_refl))); [done|].
    unfold no_nul. repeat constructor; done.
  - apply (proj2 (proj2 (quit_command_faults quitting [46; 113; 117; 105; 116; 0] eq_refl eq_refl eq_refl eq_refl)) [46; 113; 117; 105; 116] []);
      [done|done|unfold no_nul; repeat constructor; done].
Defined.
