(* ===== verification/Zip.v ===== *)
(** Deflating and inflating, [source/zip.c], and the iterator of
    [source/ZipFileIter.c].

    zlib is not part of the repository: [Zlib] lists the calls the code makes of
    it, over the state that zlib keeps behind a [z_stream], and [ZlibLaws] says
    what the code relies on.  A call is given the bytes that are available and
    the room for output, and returns its code, how many bytes it took, and the
    bytes it put out.

    A function runs on a [world]: the files and streams, its local [z_stream],
    and its local output buffer, which is [None] when the pointer is NULL. *)
From stdpp Require Import gmap.
From S2P Require Import Prelude Memory Effects BinaryBuffer Stdio AlibFile.
Open Scope Z_scope.

(** * zlib *)
Definition Z_OK : Z := 0.
Definition Z_STREAM_END : Z := 1.
Definition Z_NEED_DICT : Z := 2.
Definition Z_ERRNO : Z := -1.
Definition Z_STREAM_ERROR : Z := -2.
Definition Z_DATA_ERROR : Z := -3.
Definition Z_MEM_ERROR : Z := -4.
Definition Z_BUF_ERROR : Z := -5.
Definition Z_NO_FLUSH : Z := 0.
Definition Z_FINISH : Z := 4.
Definition Z_DEFLATED : Z := 8.
Definition Z_DEFAULT_STRATEGY : Z := 0.
Definition MAX_WBITS : Z := 15.

Class Zlib (S : Type) := {
  unused : S;                                   (* a stream that no init function was called on *)
  deflateInit : Z -> Z * S;                     (* level *)
  deflateInit2 : Z -> Z -> Z -> Z -> Z -> Z * S;
  inflateInit : Z * S;
  deflate : Z -> list Z -> Z -> S -> Z * Z * list Z * S;     (* flush, available bytes, room *)
  inflate : list Z -> Z -> S -> Z * Z * list Z * S }.

(** What zlib documents of a stream that was initialised: [taken] and [put] are
    all bytes it took and put out.  [deflating f inp s]: the rules let [s] be
    called with the flush [f] and the input [inp]: once [Z_FINISH] was given,
    only again with [Z_FINISH] and the input that was left.  [zcode c d]: the
    bytes [c] are a complete stream of the data [d].  A call goes on until the input is used up or the
    room is; there is memory for the window of [inflate]. *)
Class ZlibLaws (S : Type) `{Zlib S} := {
  taken : S -> list Z;
  put : S -> list Z;
  deflating : Z -> list Z -> S -> Prop;
  inflating : S -> Prop;
  zcode : list Z -> list Z -> Prop;
  deflate_bound : Z -> Z;
  deflateInit_starts level s : deflateInit level = (Z_OK, s) -> (forall f inp, deflating f inp s) /\ taken s = [] /\ put s = [];
  inflateInit_starts s : inflateInit = (Z_OK, s) -> inflating s /\ taken s = [] /\ put s = [];
  deflate_takes f inp room s : deflating f inp s -> 0 < room -> let '(r, n, o, s') := deflate f inp room s in
    0 <= n <= blen inp /\ blen o <= room /\ taken s' = taken s ++ take (Z.to_nat n) inp /\ put s' = put s ++ o /\
    (f = Z_FINISH -> deflating f (drop (Z.to_nat n) inp) s') /\ (f = Z_NO_FLUSH -> forall f' inp', deflating f' inp' s');
  deflate_goes_on f inp room s : deflating f inp s -> 0 < room -> f = Z_NO_FLUSH \/ f = Z_FINISH -> let '(r, n, o, s') := deflate f inp room s in
    r <> Z_STREAM_ERROR /\ (blen o < room -> n = blen inp /\ (f = Z_FINISH -> r = Z_STREAM_END));
  deflate_codes inp room s : deflating Z_FINISH inp s -> 0 < room -> let '(r, n, o, s') := deflate Z_FINISH inp room s in
    r = Z_STREAM_END -> zcode (put s') (taken s');
  deflate_bounded f inp s : deflating f inp s -> blen (put s) <= deflate_bound (blen (taken s));
  zcode_nonempty c d : zcode c d -> c <> [];
  deflate_bound_mono n m : n <= m -> deflate_bound n <= deflate_bound m;
  inflate_takes inp room s : inflating s -> 0 < room -> let '(r, n, o, s') := inflate inp room s in
    inflating s' /\ 0 <= n <= blen inp /\ blen o <= room /\ taken s' = taken s ++ take (Z.to_nat n) inp /\ put s' = put s ++ o;
  inflate_follows inp room s c d rest : inflating s -> 0 < room -> zcode c d -> c = taken s ++ inp ++ rest ->
    let '(r, n, o, s') := inflate inp room s in
    (r = Z_OK \/ r = Z_BUF_ERROR \/ r = Z_STREAM_END) /\ (exists more, d = put s' ++ more) /\
    (r = Z_STREAM_END -> taken s' = c /\ put s' = d) /\
    (blen o < room -> n = blen inp /\ (rest = [] -> r = Z_STREAM_END)) /\
    (0 < n -> r <> Z_BUF_ERROR) }.

(** * The world *)
Definition ZIP_CHUNK : Z := 64 * 1024.

Record z_stream (S : Type) := mkZStream { next_in : list cell; avail_in : Z; avail_out : Z; internal : S }.
Arguments mkZStream {S}. Arguments next_in {S}. Arguments avail_in {S}. Arguments avail_out {S}. Arguments internal {S}.
Record world (S : Type) := mkWorld { dsk : disk; strm : z_stream S; out : option BinaryBuffer }.
Arguments mkWorld {S}. Arguments dsk {S}. Arguments strm {S}. Arguments out {S}.

Section zip.
Context {S : Type} `{Zlib S}.
Notation W := (world S).
(** [ok]: whether [malloc] gives a buffer object; [alloc n]: the block that
    [realloc] gives for [n] bytes; [room]: the bytes the device takes; [failed]:
    whether [ferror] says that a stream has failed. *)
Context (ok : bool) (alloc : Z -> option Z) (room : disk -> Z) (failed : Z -> disk -> bool).

Definition on_disk {A} (m : M disk A) : M W A := fun w =>
  '(a, d, t) ← m (dsk w); Ok (a, mkWorld d (strm w) (out w), t).
Definition on_out {A} (m : M (option BinaryBuffer) A) : M W A := fun w =>
  '(a, o, t) ← m (out w); Ok (a, mkWorld (dsk w) (strm w) o, t).
Definition set_strm (z : z_stream S) : M W unit := modify (fun w => mkWorld (dsk w) z (out w)).
Definition set_out (o : option BinaryBuffer) : M W unit := modify (fun w => mkWorld (dsk w) (strm w) o).
Definition give_input (b : list cell) (n : Z) : M W unit :=
  z ← gets strm; set_strm (mkZStream b n (avail_out z) (internal z)).
Definition give_room : M W unit :=
  z ← gets strm; set_strm (mkZStream (next_in z) (avail_in z) ZIP_CHUNK (internal z)).

(** ** The streams *)
(** The members that [strm] has without its [zalloc], [zfree] and [opaque]. *)
Definition init_deflate_stream (given : bool) (level : Z) : M W Z :=
  if negb given then mret ALIB_BAD_ARG else
  let '(r, s) := deflateInit level in
  z ← gets strm; set_strm (mkZStream (next_in z) (avail_in z) (avail_out z) s);; mret r.
Definition init_gzip_deflate (given : bool) (level : Z) : M W Z :=
  if negb given then mret ALIB_BAD_ARG else
  let '(r, s) := deflateInit2 level Z_DEFLATED (MAX_WBITS + 16) 8 Z_DEFAULT_STRATEGY in
  set_strm (mkZStream [] 0 0 s);; mret r.
Definition init_inflate_stream (given : bool) : M W Z :=
  if negb given then mret ALIB_BAD_ARG else
  let '(r, s) := inflateInit in
  z ← gets strm; set_strm (mkZStream [] 0 (avail_out z) s);; mret r.
(** [deflateEnd] and [inflateEnd]: the stream is not used again. *)
Definition end_stream : M W unit := z ← gets strm; set_strm (mkZStream (next_in z) (avail_in z) (avail_out z) unused).

(** A call of zlib: the bytes at [next_in] are read, and the members moved on. *)
Definition call (f : list Z -> Z -> S -> Z * Z * list Z * S) : M W (Z * list Z) :=
  z ← gets strm;
  inp ← lift (if avail_in z <=? blen (next_in z) then buffer_bytes (take (Z.to_nat (avail_in z)) (next_in z)) else UB OutOfBounds);
  let '(r, n, o, s) := f inp (avail_out z) (internal z) in
  set_strm (mkZStream (drop (Z.to_nat n) (next_in z)) (avail_in z - n) (avail_out z - blen o) s);; mret (r, o).
(** What [inflate] returns that ends the work; [Z_NEED_DICT] is turned into an error. *)
Definition inflate_error (rval : Z) : option Z :=
  if rval =? Z_STREAM_ERROR then Some rval else
  if rval =? Z_NEED_DICT then Some Z_DATA_ERROR else
  if (rval =? Z_DATA_ERROR) || (rval =? Z_MEM_ERROR) then Some rval else None.
Definition deflate_error (rval : Z) : option Z := if rval =? Z_STREAM_ERROR then Some rval else None.

(** ** One turn of the inner loops *)

(** The result: [inl]: the code to leave with, [inr]: the code of the call. *)
Definition chunk_to_buffer (error : Z -> option Z) (f : list Z -> Z -> S -> Z * Z * list Z * S) : M W (Z + Z) :=
  l ← on_out BinaryBuffer_get_length;
  on_out (BinaryBuffer_hard_resize (alloc (u64 (l + ZIP_CHUNK))) (u64 (l + ZIP_CHUNK)));;
  give_room;;
  raw ← on_out BinaryBuffer_get_raw_buff;
  match raw with
  | None => if l =? 0 then mret (inl Z_STREAM_ERROR)      (* [next_out] is NULL *)
            else lift (UB NullDeref)
  | Some _ =>
      '(rval, o) ← call f;
      on_out (no_guard (write_at l (Some <$> o) (blen o)));;
      match error rval with
      | Some e => mret (inl e)
      | None => z ← gets strm; on_out (no_guard (modify (set_len (u64 (l + (ZIP_CHUNK - avail_out z))))));; mret (inr rval)
      end
  end.
(** [fwrite(out, 1, have, dest) != have || ferror(dest)] *)
Definition chunk_to_file (error : Z -> option Z) (f : list Z -> Z -> S -> Z * Z * list Z * S) (dest : Z) : M W (Z + Z) :=
  give_room;;
  '(rval, o) ← call f;
  match error rval with
  | Some e => mret (inl e)
  | None =>
      z ← gets strm;
      let have := ZIP_CHUNK - avail_out z in
      r ← gets (fun w => room (dsk w)); n ← on_disk (fwrite r dest o);
      bad ← gets (fun w => failed dest (dsk w));
      if negb (n =? have) || bad then mret (inl Z_ERRNO) else mret (inr rval)
  end.
(** [do { .. } while(strm.avail_out == 0);] *)
Fixpoint while_full (fuel : nat) (turn : M W (Z + Z)) : M W (Z + Z) :=
  match fuel with
  | O => lift Diverges
  | Datatypes.S k =>
      r ← turn;
      match r with
      | inl _ => mret r
      | inr _ => z ← gets strm; if avail_out z =? 0 then while_full k turn else mret r
      end
  end.

(** ** The loops over a file *)
Definition read_chunk (source : Z) (in_ : list cell) : M W (Z * list cell) := on_disk (fread source ZIP_CHUNK in_ 0).
(** [feof]: the read came short. *)
Fixpoint deflate_file (fuel : nat) (turn : Z -> M W (Z + Z)) (source : Z) (in_ : list cell) : M W (Z + Z) :=
  match fuel with
  | O => lift Diverges
  | Datatypes.S k =>
      '(n, in_) ← read_chunk source in_;
      bad ← gets (fun w => failed source (dsk w));
      if bad : bool then mret (inl Z_ERRNO) else
      let flush := if n <? ZIP_CHUNK then Z_FINISH else Z_NO_FLUSH in
      give_input in_ n;;
      r ← while_full fuel (turn flush);
      match r with
      | inl _ => mret r
      | inr _ => if negb (flush =? Z_FINISH) then deflate_file k turn source in_ else mret r
      end
  end.
Fixpoint inflate_file (fuel : nat) (turn : M W (Z + Z)) (source : Z) (in_ : list cell) (rval : Z) : M W (Z + Z) :=
  match fuel with
  | O => lift Diverges
  | Datatypes.S k =>
      '(n, in_) ← read_chunk source in_;
      bad ← gets (fun w => failed source (dsk w));
      if bad : bool then mret (inl Z_ERRNO) else
      if n =? 0 then mret (inr rval) else
      give_input in_ n;;
      r ← while_full fuel turn;
      match r with
      | inl _ => mret r
      | inr rval => if negb (rval =? Z_STREAM_END) then inflate_file k turn source in_ rval else mret r
      end
  end.

(** ** How the functions end *)
Definition ended (rval : Z) : Z := if rval =? Z_STREAM_END then Z_OK else rval.
Definition local_chunk : list cell := replicate (Z.to_nat ZIP_CHUNK) None.
(** The result of a function that puts out a buffer: the code, and [*out_buff]
    with [*out_buff_len] when they were set. *)
Notation put_out := (Z * option (Z * option (Z * list cell)))%type.
(** "Set the output parameters": the buffer is shrunk and given away. *)
Definition hand_out (rval : Z) : M W put_out :=
  l ← on_out BinaryBuffer_get_length; on_out (BinaryBuffer_shrink_to_fit (alloc l));;
  n ← on_out BinaryBuffer_get_length; b ← on_out BinaryBuffer_extract_buffer;
  mret (ended rval, Some (n, b)).
Definition finish_buffer (r : Z + Z) : M W put_out :=
  p ← match r with inl e => mret (e, None) | inr rval => hand_out rval end;
  set_out None;; end_stream;; mret p.
Definition finish_file (r : Z + Z) : M W Z :=
  end_stream;; mret (match r with inl e => e | inr rval => ended rval end).
Definition new_out : M W bool :=
  b ← lift (newBinaryBuffer_ex ok None None 0 0 0 0); set_out b;; mret (bool_decide (is_Some b)).

(** * Deflating *)
(** [buff]: the caller's array, [None] for NULL; [outs]: neither [out_buff] nor
    [out_buff_len] is NULL.  [avail_in] is an [unsigned int]. *)
Definition u32 (z : Z) : Z := z mod 2 ^ 32.
Definition deflate_btb (fuel : nat) (buff : option (list Z)) (buff_len : Z) (outs : bool) (level : Z) : M W put_out :=
  match buff with
  | Some b =>
      if negb outs || (buff_len =? 0) then mret (Z_BUF_ERROR, None) else
      made ← new_out;
      if negb made then mret (Z_MEM_ERROR, None) else
      rval ← init_deflate_stream true level;
      if negb (rval =? 0) then mret (rval, None) else
      give_input (Some <$> b) (u32 buff_len);;
      r ← while_full fuel (chunk_to_buffer deflate_error (deflate Z_FINISH)); finish_buffer r
  | None => mret (Z_BUF_ERROR, None)
  end.
Definition deflate_ftb (fuel : nat) (source : option Z) (outs : bool) (level : Z) : M W put_out :=
  match source with
  | Some source =>
      if negb outs then mret (Z_BUF_ERROR, None) else
      made ← new_out;
      if negb made then mret (Z_MEM_ERROR, None) else
      rval ← init_deflate_stream true level;
      if negb (rval =? 0) then mret (rval, None) else
      r ← deflate_file fuel (fun flush => chunk_to_buffer deflate_error (deflate flush)) source local_chunk; finish_buffer r
  | None => mret (Z_BUF_ERROR, None)
  end.
Definition deflate_btf (fuel : nat) (buff : option (list Z)) (buff_len : Z) (dest : option Z) (level : Z) : M W Z :=
  match buff, dest with
  | Some b, Some dest =>
      if buff_len =? 0 then mret Z_BUF_ERROR else
      rval ← init_deflate_stream true level;
      if negb (rval =? 0) then mret rval else
      give_input (Some <$> b) (u32 buff_len);;
      r ← while_full fuel (chunk_to_file deflate_error (deflate Z_FINISH) dest); finish_file r
  | _, _ => mret Z_BUF_ERROR
  end.
Definition deflate_ftf (fuel : nat) (source dest : option Z) (level : Z) : M W Z :=
  match source, dest with
  | Some source, Some dest =>
      rval ← init_deflate_stream true level;
      if negb (rval =? 0) then mret rval else
      r ← deflate_file fuel (fun flush => chunk_to_file deflate_error (deflate flush) dest) source local_chunk; finish_file r
  | _, _ => mret Z_BUF_ERROR
  end.

(** * Inflating *)
Definition inflate_btb (fuel : nat) (buff : option (list Z)) (buff_len : Z) (outs : bool) : M W put_out :=
  match buff with
  | Some b =>
      if negb outs || (buff_len =? 0) then mret (Z_DATA_ERROR, None) else
      made ← new_out;
      if negb made then mret (Z_MEM_ERROR, None) else
      rval ← init_inflate_stream true;
      if negb (rval =? 0) then mret (rval, None) else
      give_input (Some <$> b) (u32 buff_len);;
      r ← while_full fuel (chunk_to_buffer inflate_error inflate); finish_buffer r
  | None => mret (Z_DATA_ERROR, None)
  end.
Definition inflate_ftb (fuel : nat) (source : option Z) (outs : bool) : M W put_out :=
  match source with
  | Some source =>
      if negb outs then mret (Z_DATA_ERROR, None) else
      made ← new_out;
      if negb made then mret (Z_MEM_ERROR, None) else
      rval ← init_inflate_stream true;
      if negb (rval =? 0) then mret (rval, None) else
      r ← inflate_file fuel (chunk_to_buffer inflate_error inflate) source local_chunk rval; finish_buffer r
  | None => mret (Z_DATA_ERROR, None)
  end.
Definition inflate_btf (fuel : nat) (buff : option (list Z)) (buff_len : Z) (dest : option Z) : M W Z :=
  match buff, dest with
  | Some b, Some dest =>
      if buff_len =? 0 then mret Z_DATA_ERROR else
      rval ← init_inflate_stream true;
      if negb (rval =? 0) then mret rval else
      give_input (Some <$> b) (u32 buff_len);;
      r ← while_full fuel (chunk_to_file inflate_error inflate dest); finish_file r
  | _, _ => mret Z_DATA_ERROR
  end.
Definition inflate_ftf (fuel : nat) (src dest : option Z) : M W Z :=
  match src, dest with
  | Some src, Some dest =>
      rval ← init_inflate_stream true;
      if negb (rval =? 0) then mret rval else
      r ← inflate_file fuel (chunk_to_file inflate_error inflate dest) src local_chunk rval; finish_file r
  | _, _ => mret Z_DATA_ERROR
  end.
End zip.

(** * The iterator of a file to deflate *)
Record ZipFileIter (S : Type) := mkZipFileIter { zfi_strm : S; file : Z; to_pos : Z }.
Arguments mkZipFileIter {S}. Arguments zfi_strm {S}. Arguments file {S}. Arguments to_pos {S}.
Section iter.
Context {S : Type} `{Zlib S}.
(** The iterator ends with the function; [close_file] closes its file. *)
Definition freeZipFileIter_deflate_ex (zfi : option (ZipFileIter S)) (close_file : bool) : M disk unit :=
  match zfi with None => mret tt | Some z => when close_file (fclose (file z)) end.
Definition freeZipFileIter_deflate (zfi : option (ZipFileIter S)) : M disk unit := freeZipFileIter_deflate_ex zfi true.
(** [zfi]: the double pointer, [None] for NULL; the result is its target. *)
Definition delZipFileIter_deflate_ex (zfi : option (option (ZipFileIter S))) (close_file : bool)
    : M disk (option (option (ZipFileIter S))) :=
  match zfi with
  | Some (Some z) => freeZipFileIter_deflate_ex (Some z) close_file;; mret (Some None)
  | _ => mret zfi
  end.
Definition delZipFileIter_deflate (zfi : option (option (ZipFileIter S))) := delZipFileIter_deflate_ex zfi true.
Definition freeZipFileIter_deflate_cb_close_file (zfi : option (ZipFileIter S)) : M disk unit := freeZipFileIter_deflate_ex zfi true.
Definition freeZipFileIter_deflate_cb (zfi : option (ZipFileIter S)) : M disk unit := freeZipFileIter_deflate_ex zfi false.
Definition newZipFileIter_deflate (ok : bool) (level : Z) (file : option Z) (to_pos : Z) : M disk (option (ZipFileIter S)) :=
  match file with
  | None => mret None
  | Some f =>
      if negb ok then mret None else
      let '(r, s) := deflateInit level in
      let zfi := mkZipFileIter s f (if to_pos =? 0 then ULONG_MAX else to_pos) in
      if negb (r =? Z_OK)
      then o ← delZipFileIter_deflate_ex (Some (Some zfi)) false; mret (match o with Some z => z | None => None end)
      else mret (Some zfi)
  end.
End iter.
