(* ===== verification/ZipStored.v ===== *)
(** An implementation of the [Zlib] of [Zip], for which [ZlibLaws] hold: a codec
    that only stores.  Every byte [b] is coded as the bytes 1 and [b], and the end
    as 0.  The witnesses of [ZipSpec] use it. *)
From S2P Require Import Prelude Memory Zip.
Open Scope Z_scope.

Module Stored.
Record state := mkState { tk : list Z; pt : list Z; pending : list Z; fin : bool }.
Definition encode (d : list Z) : list Z := flat_map (fun b => [1; b]) d.
Fixpoint decode (c : list Z) : list Z * bool :=
  match c with
  | [] => ([], false)
  | 1 :: c => match c with [] => ([], false) | b :: c => let '(d, e) := decode c in (b :: d, e) end
  | 0 :: _ => ([], true)
  | _ => ([], false)
  end.
Definition step_deflate (f : Z) (inp : list Z) (room : Z) (s : state) : Z * Z * list Z * state :=
  let last := bool_decide (f = Z_FINISH) in
  let all := pending s ++ encode inp ++ (if last && negb (fin s) then [0] else []) in
  let o := take (Z.to_nat room) all in let p := drop (Z.to_nat room) all in
  (if last && bool_decide (p = []) then Z_STREAM_END else Z_OK, blen inp, o, mkState (tk s ++ inp) (pt s ++ o) p (fin s || last)).
Definition step_inflate (inp : list Z) (room : Z) (s : state) : Z * Z * list Z * state :=
  let '(d, e) := decode (tk s ++ inp) in
  let o := take (Z.to_nat room) (drop (length (pt s)) d) in
  (if e && bool_decide (pt s ++ o = d) then Z_STREAM_END else if bool_decide (inp = []) && bool_decide (o = []) then Z_BUF_ERROR else Z_OK,
   blen inp, o, mkState (tk s ++ inp) (pt s ++ o) [] false).
#[global] Instance stored : Zlib state := {
  unused := mkState [] [] [] false;
  deflateInit _ := (Z_OK, mkState [] [] [] false);
  deflateInit2 _ _ _ _ _ := (Z_OK, mkState [] [] [] false);
  inflateInit := (Z_OK, mkState [] [] [] false);
  deflate := step_deflate;
  inflate := step_inflate }.

Definition can_deflate (f : Z) (inp : list Z) (s : state) : Prop :=
  pt s ++ pending s = encode (tk s) ++ (if fin s then [0] else []) /\ (fin s = true -> f = Z_FINISH /\ inp = []).
Definition can_inflate (s : state) : Prop := exists more, (decode (tk s)).1 = pt s ++ more.
Lemma encode_app x y : encode (x ++ y) = encode x ++ encode y.
Proof. apply flat_map_app. Qed.
Lemma blen_encode d : blen (encode d) = 2 * blen d.
Proof. induction d as [|a d IH]; [done|]. change (encode (a :: d)) with (1 :: a :: encode d). rewrite !blen_cons. lia. Qed.
(** More input never takes back what was decoded. *)
Lemma decode_app : forall n x y, (length x <= n)%nat -> exists more, (decode (x ++ y)).1 = (decode x).1 ++ more.
Proof.
  induction n as [|n IH]; intros x y Hn; [destruct x; [by eexists|cbn in Hn; lia]|].
  destruct x as [|a x]; [by eexists|]. cbn in Hn.
  destruct a as [|[p|p|]|p]; try by exists [].
  destruct x as [|b x]; [by eexists|]. cbn in Hn. cbn [app decode].
  destruct (IH x y ltac:(lia)) as [more E]. exists more. cbn [decode]. destruct (decode (x ++ y)), (decode x). cbn in *. by rewrite E.
Qed.
(** The beginnings of a stream. *)
Lemma decode_prefix d : forall p rest, encode d ++ [0] = p ++ rest ->
  (exists more, d = (decode p).1 ++ more) /\ ((decode p).2 = true -> rest = [] /\ (decode p).1 = d) /\ (rest = [] -> decode p = (d, true)).
Proof.
  induction d as [|a d IH]; intros p rest E.
  - destruct p as [|x p]; [split; [by exists []|]; split; [done|by intros ->]|]. injection E as <- E.
    symmetry in E. apply app_eq_nil in E as [-> ->]. split; [by exists []|done].
  - change (encode (a :: d) ++ [0]) with (1 :: a :: (encode d ++ [0])) in E.
    destruct p as [|x [|y p]].
    + split; [by exists (a :: d)|]. split; [done|by intros ->].
    + injection E as <- E. split; [by exists (a :: d)|]. split; [done|by intros ->].
    + injection E as <- <- E. destruct (IH _ _ E) as ((more & Hm) & H2 & H3). cbn [decode]. destruct (decode p) as [dp e]. cbn in *.
      split; [exists more; by rewrite Hm at 1|]. split; [intros He; destruct (H2 He) as [-> ->]; done|]. intros Hr. by injection (H3 Hr) as -> ->.
Qed.
Lemma taken_all (inp : list Z) : take (Z.to_nat (blen inp)) inp = inp /\ drop (Z.to_nat (blen inp)) inp = [].
Proof. unfold blen. rewrite Nat2Z.id. split; [by apply take_ge|by apply drop_ge]. Qed.
Lemma blen_take_le (n : Z) (l : list Z) : 0 < n -> blen (take (Z.to_nat n) l) <= n.
Proof. unfold blen. rewrite length_take. lia. Qed.
Lemma short_take (n : Z) (l : list Z) : blen (take (Z.to_nat n) l) < n -> drop (Z.to_nat n) l = [].
Proof. unfold blen. rewrite length_take. intros. apply drop_ge. lia. Qed.
Lemma step_deflate_inv f inp room s : can_deflate f inp s -> let '(r, n, o, s') := step_deflate f inp room s in
  pt s' ++ pending s' = encode (tk s') ++ (if fin s' then [0] else []) /\ fin s' = fin s || bool_decide (f = Z_FINISH).
Proof.
  intros [E Hf]. unfold step_deflate. cbn [pt tk pending fin]. split; [|done]. rewrite <- app_assoc, take_drop, app_assoc, E, encode_app, <- !app_assoc.
  f_equal. destruct (fin s) eqn:Es; [|by destruct (bool_decide _)]. destruct (Hf eq_refl) as [-> ->]. done.
Qed.
#[global] Instance stored_laws : ZlibLaws state.
Proof.
  refine {| taken := tk; put := pt; deflating := can_deflate; inflating := can_inflate; zcode := fun c d => c = encode d ++ [0];
            deflate_bound := fun n => 2 * n + 1 |}.
  - intros level s Hs. injection Hs as <-. by split.
  - intros s Hs. injection Hs as <-. split; [by exists []|done].
  - intros f inp room s Hc Hroom. pose proof (step_deflate_inv f inp room s Hc) as Hi. cbn [deflate stored]. unfold step_deflate in *.
    destruct Hi as [Hi Hfin]. cbn [tk pt fin pending] in *. destruct (taken_all inp) as [Et Ed]. rewrite Et, Ed. pose proof (blen_nonneg inp).
    split; [lia|]. split; [by apply blen_take_le|]. split; [done|]. split; [done|]. split.
    + intros ->. by split.
    + intros -> f' inp'. split; [done|]. cbn [fin]. destruct (fin s) eqn:Es; [|done]. by destruct (proj2 Hc Es).
  - intros f inp room s Hc Hroom Hf. cbn [deflate stored]. unfold step_deflate. split; [by case_match|]. intros Ho. split; [done|].
    intros ->. by rewrite (short_take _ _ Ho).
  - intros inp room s Hc Hroom. pose proof (step_deflate_inv Z_FINISH inp room s Hc) as Hi. cbn [deflate stored]. unfold step_deflate in *.
    rewrite (bool_decide_true (Z_FINISH = Z_FINISH)) in * by done. cbn [tk pt fin pending andb] in *. rewrite orb_true_r in Hi. destruct Hi as [Hi _].
    case_bool_decide as Hp; [|done]. intros _. by rewrite Hp, app_nil_r in Hi.
  - intros f inp s [E _]. apply (f_equal blen) in E. rewrite !blen_app, blen_encode in E. pose proof (blen_nonneg (pending s)).
    destruct (fin s); [change (blen [0]) with 1 in E|change (blen (@nil Z)) with 0 in E]; lia.
  - intros c d -> Hnil. by destruct (encode d).
  - intros n m Hnm. lia.
  - intros inp room s [more Hc] Hroom. cbn [inflate stored]. unfold step_inflate.
    destruct (decode_app (length (tk s)) (tk s) inp ltac:(lia)) as [more2 E2]. destruct (decode (tk s ++ inp)) as [d e] eqn:Ed. cbn [fst] in E2.
    rewrite Hc, <- app_assoc in E2. subst d. rewrite drop_app_length. destruct (taken_all inp) as [Et _]. pose proof (blen_nonneg inp).
    cbn [tk pt]. rewrite Et. split; [|split; [lia|split; [by apply blen_take_le|done]]].
    exists (drop (Z.to_nat room) (more ++ more2)). cbn [tk pt]. by rewrite Ed, <- app_assoc, take_drop.
  - intros inp room s c d rest [more Hc] Hroom -> Hd. cbn [inflate stored]. unfold step_inflate.
    destruct (decode_app (length (tk s)) (tk s) inp ltac:(lia)) as [more2 E2].
    rewrite app_assoc in Hd. destruct (decode_prefix d _ _ Hd) as ((more3 & H1) & H2 & H3).
    destruct (decode (tk s ++ inp)) as [dp e] eqn:Ed. cbn [fst snd] in *. rewrite Hc, <- app_assoc in E2. subst dp.
    rewrite drop_app_length. set (all := more ++ more2) in *. set (o := take (Z.to_nat room) all) in *. cbn [tk pt].
    split; [case_match; [auto|case_match; auto]|]. split.
    { exists (drop (Z.to_nat room) all ++ more3). rewrite H1 at 1. unfold o. by rewrite <- !app_assoc, (app_assoc (take _ _)), take_drop. }
    split.
    { destruct e; cbn [andb]; [|by case_match]. case_bool_decide as Hall; [|by case_match]. intros _. destruct (H2 eq_refl) as [-> <-].
      by rewrite Hd, app_nil_r. }
    split.
    { intros Ho. split; [done|]. intros Hr. injection (H3 Hr) as Ha He. rewrite He. cbn [andb].
      rewrite bool_decide_true; [done|]. f_equal. rewrite <- (take_drop (Z.to_nat room) all). unfold o. by rewrite (short_take _ _ Ho), app_nil_r at 1. }
    intros Hn. case_match; [done|]. rewrite bool_decide_false; [done|]. by intros ->.
Defined.
End Stored.
