(* ===== verification/ZipSpec.v ===== *)
(** What deflating and inflating do: from a buffer or a file, into a buffer or a
    file, and however the data falls into chunks, what is put out is a complete
    stream of the data, and inflating such a stream gives the data back; and
    what becomes of a stream that is cut short, and of a buffer that an
    [unsigned int] cannot count. *)
From stdpp Require Import gmap.
From S2P Require Import Prelude Memory Effects BinaryBuffer Stdio StdioSpec AlibFile AlibFileSpec Posix Zip ZipStored.
Open Scope Z_scope.

Lemma chunk_pos : 0 < ZIP_CHUNK <= 2 ^ 17.
Proof. by vm_compute. Qed.
#[local] Opaque ZIP_CHUNK.
Lemma take_fmap_some (x : list Z) (b : list cell) n : take (Z.to_nat n) b = Some <$> x -> 0 <= n <= blen b -> blen x = n.
Proof. intros E Hn. apply (f_equal blen) in E. unfold blen in *. rewrite length_take, length_fmap in E. lia. Qed.

(** * Streams of the world *)
Lemma fread_at h p m pos d n (buff : list cell) c :
  streams d !! h = Some (mkStream p m pos) -> m <> ForAppending -> file_at p d = c -> 0 <= pos <= blen c -> blen buff = n ->
  let r := slice c pos (Z.min n (blen c - pos)) in
  fread h n buff 0 d = Ok ((blen r, (Some <$> r) ++ drop (length r) buff), set_streams (<[h := mkStream p m (pos + blen r)]> (streams d)) d, []).
Proof.
  intros Hs Hm Hc Hp Hb r. pose proof (blen_nonneg buff).
  assert (d = with_stream h p m pos d) as Ed by (unfold with_stream; rewrite insert_id by done; by destruct d).
  unfold fread. pose proof (read_stream_with h p m pos d n Hm ltac:(by rewrite Hc) ltac:(lia)) as E. cbv zeta in E.
  rewrite Hc, slice_min in E by lia. fold r in E. rewrite <- Ed in E. rewrite (bind_quiet _ _ _ _ _ E).
  assert (blen r <= n) as Hr by (unfold r; rewrite blen_slice; lia).
  assert (blk_write buff 0 (Some <$> r) = Ok ((Some <$> r) ++ drop (length r) buff)) as Ew.
    { rewrite blk_write_ok by (rewrite ?blen_fmap_some; lia). unfold splice. rewrite blen_fmap_some. cbn [Z.to_nat take app].
      unfold blen. by rewrite Z.add_0_l, Nat2Z.id. }
  rewrite Ew. done.
Qed.
Lemma fwrite_at h p m pos d data c room :
  streams d !! h = Some (mkStream p m pos) -> m = ForAppending \/ m = ForUpdate /\ pos = blen c -> file_at p d = c -> blen data <= room ->
  exists pos', fwrite room h data d = Ok (blen data, set_streams (<[h := mkStream p m pos']> (streams d))
    (set_files (<[p := c ++ data]> (files d)) d), []) /\ (m = ForAppending \/ m = ForUpdate /\ pos' = blen (c ++ data)).
Proof.
  intros Hs Hm Hc Hr. pose proof (blen_nonneg data).
  assert (d = with_stream h p m pos d) as Ed by (unfold with_stream; rewrite insert_id by done; by destruct d).
  assert (m <> ForReading) as Hnr by (destruct Hm as [->|[-> _]]; done).
  pose proof (fwrite_with room h p m pos d data Hnr) as E. cbv zeta in E. rewrite <- Ed in E.
  assert (take (Z.to_nat room) data = data) as Et by (apply take_ge; unfold blen in *; lia). rewrite Et, Hc in E.
  assert (match m with ForAppending => blen c | _ => pos end = blen c) as Ep by (by destruct Hm as [->|[-> ->]]). rewrite Ep in E.
  rewrite overwrite_end in E. exists (blen c + blen data). split; [exact E|].
  destruct Hm as [->|[-> _]]; [by left|right]. by rewrite blen_app.
Qed.

Section spec.
Context {S : Type} `{ZlibLaws S}.
Notation W := (world S).
Context (alloc : Z -> option Z) (room : disk -> Z) (failed : Z -> disk -> bool).
(** Memory and the device never run out, and no stream fails. *)
Hypothesis has_memory : forall n, is_Some (alloc n).
Hypothesis has_room : forall d, 2 ^ 17 <= room d.
Hypothesis no_failure : forall h d, failed h d = false.

(** * A call of zlib *)
Record supplies (w : W) (inp : list Z) : Prop := {
  su_avail : avail_in (strm w) = blen inp;
  su_bytes : exists more, next_in (strm w) = (Some <$> inp) ++ more }.
Lemma zlib_call_ok f w inp r n o s (Q : Z * list Z -> W -> Prop) : supplies w inp -> f inp (avail_out (strm w)) (internal (strm w)) = (r, n, o, s) ->
  Q (r, o) (mkWorld (dsk w) (mkZStream (drop (Z.to_nat n) (next_in (strm w))) (avail_in (strm w) - n) (avail_out (strm w) - blen o) s) (out w)) ->
  post (call f) Q w.
Proof.
  intros [Ha (more & Hn)] Hf HQ. pose proof (blen_nonneg more). unfold call. apply post_bind, post_gets, post_bind.
  eapply post_lift.
  { rewrite Ha, Hn, blen_app, blen_fmap_some. rewrite (proj2 (Z.leb_le _ _)) by lia.
    rewrite <- (blen_fmap_some inp), take_blen_app, buffer_bytes_some. done. }
  rewrite Hf. apply post_bind. unfold set_strm. by apply post_modify, post_ret.
Qed.
Lemma supplies_rest w inp n d z o : supplies w inp -> 0 <= n <= blen inp -> next_in z = drop (Z.to_nat n) (next_in (strm w)) ->
  avail_in z = avail_in (strm w) - n -> supplies (mkWorld d z o) (drop (Z.to_nat n) inp).
Proof.
  intros [Ha (more & Hn)] Hr E1 E2. split; cbn [strm].
  - rewrite E2, Ha. unfold blen in *. rewrite length_drop. lia.
  - exists more. rewrite E1, Hn. rewrite drop_app_le by (rewrite length_fmap; unfold blen in *; lia). by rewrite fmap_drop.
Qed.

(** * Where the output goes *)

(** [I e w]: what has been put out is [e].  [R]: what a turn leaves alone. *)
Record sink (lim : Z) (I : list Z -> W -> Prop) (R : W -> W -> Prop)
    (chunk : (Z -> option Z) -> (list Z -> Z -> S -> Z * Z * list Z * S) -> M W (Z + Z)) : Prop := {
  sk_strm e w z : I e w -> I e (mkWorld (dsk w) z (out w));
  sk_store error f e w inp r n o s : I e w -> supplies w inp -> f inp ZIP_CHUNK (internal (strm w)) = (r, n, o, s) -> error r = None ->
    blen o <= ZIP_CHUNK -> blen (e ++ o) <= lim -> 0 <= n <= blen inp ->
    post (chunk error f) (fun a w' => a = inr r /\ I (e ++ o) w' /\ R w w' /\ supplies w' (drop (Z.to_nat n) inp) /\
      internal (strm w') = s /\ avail_out (strm w') = ZIP_CHUNK - blen o) w }.

(** ** A buffer *)
Definition in_buffer (e : list Z) (w : W) : Prop := exists b, out w = Some b /\ wf b /\ content b = Some <$> e.
Lemma post_on_out {A} (m : M BinaryBuffer A) w b a b' (Q : A -> W -> Prop) : out w = Some b -> m b = Ok (a, b', []) ->
  Q a (mkWorld (dsk w) (strm w) (Some b')) -> post (on_out (no_guard m)) Q w.
Proof.
  intros Ho Hm HQ. eexists a, _, []. split; [|exact HQ]. unfold on_out, no_guard. rewrite Ho. cbn [deref]. mstep. by rewrite Hm.
Qed.
Lemma buffer_sink lim : lim + ZIP_CHUNK <= ULONG_MAX ->
  sink lim in_buffer (fun w w' => dsk w' = dsk w) (chunk_to_buffer alloc).
Proof.
  intros Hlim. pose proof chunk_pos as Hch. split; [done|].
  intros error f e w inp r n o s (b & Ho & Hwf & Hcont) Hsu Hf Her Hole Hfit Hn. pose proof (blen_nonneg o). pose proof (blen_nonneg e).
  assert (len b = blen e) as Hlen by (rewrite <- blen_content, Hcont, blen_fmap_some by done; done).
  rewrite blen_app in Hfit. unfold chunk_to_buffer. apply post_bind. eapply (post_on_out (gets len)); [done..|]. rewrite Hlen.
  unfold ULONG_MAX in Hlim. assert (u64 (blen e + ZIP_CHUNK) = blen e + ZIP_CHUNK) as -> by (rewrite u64_small; lia).
  destruct (has_memory (blen e + ZIP_CHUNK)) as [id Hid]. rewrite Hid.
  destruct (hard_resize_ok b id (blen e + ZIP_CHUNK) Hwf ltac:(unfold ULONG_MAX; lia)) as (b1 & E1 & Hwf1 & _ & Hcap & Hcont1).
  rewrite take_content in Hcont1 by lia.
  apply post_bind. exists ALIB_OK, (mkWorld (dsk w) (strm w) (Some b1)), []. split.
  { unfold on_out. cbn [out dsk strm]. by rewrite E1. }
  apply post_bind. unfold give_room. apply post_bind, post_gets. unfold set_strm. apply post_modify. cbn [dsk strm out].
  apply post_bind. eapply (post_on_out (gets buff)); [done..|]. cbn [dsk strm out].
  destruct (wf_cells b1 Hwf1 ltac:(lia)) as [i Hi]. rewrite Hi.
  assert (len b1 = blen e) as Hlen1 by (rewrite <- blen_content, Hcont1, Hcont, blen_fmap_some by done; done).
  apply post_bind. eapply zlib_call_ok; [|exact Hf|]; [destruct Hsu; by split|]. cbn [dsk strm out next_in avail_in avail_out].
  pose proof (write_at_ok b1 (blen e) (Some <$> o) (blen o) Hwf1 ltac:(lia) ltac:(lia) ltac:(lia) ltac:(rewrite blen_fmap_some; lia)) as Ew.
  rewrite <- (blen_fmap_some o), slice_all in Ew. rewrite blen_fmap_some in Ew.
  set (c := splice (cells b1) (blen e) (Some <$> o)) in *.
  assert (blen c = capacity b1) as Hc by (unfold c; rewrite blen_splice; rewrite ?(wf_block b1 Hwf1), ?blen_fmap_some; lia).
  apply post_bind. eapply post_on_out; [done|exact Ew|]. cbn [dsk strm out]. rewrite Her.
  apply post_bind, post_gets. apply post_bind. cbn [strm avail_out].
  replace (ZIP_CHUNK - (ZIP_CHUNK - blen o)) with (blen o) by lia.
  assert (u64 (blen e + blen o) = blen e + blen o) as -> by (rewrite u64_small; lia).
  eapply (post_on_out (modify _)); [done..|]. apply post_ret. split; [done|]. split; [|split; [done|split; [|done]]].
  - eexists. split; [done|]. split; [apply with_cells_wf; done || lia|].
    unfold content at 1. rewrite cells_with_cells by done. cbn [len set_len]. unfold c.
    rewrite <- (blen_fmap_some o), splice_append by (rewrite ?(wf_block b1 Hwf1), ?blen_fmap_some; lia).
    rewrite fmap_app. f_equal. rewrite <- Hcont, <- Hcont1. unfold content. by rewrite Hlen1.
  - by eapply supplies_rest.
Qed.

(** ** A file *)
Context (dest : Z) (dpath : path) (base : list Z).
Definition in_file (e : list Z) (w : W) : Prop := exists m pos, streams (dsk w) !! dest = Some (mkStream dpath m pos) /\
  (m = ForAppending \/ m = ForUpdate /\ pos = blen (base ++ e)) /\ file_at dpath (dsk w) = base ++ e.
(** The other streams and files. *)
Definition elsewhere (w w' : W) : Prop := out w' = out w /\
  (forall h, h <> dest -> streams (dsk w') !! h = streams (dsk w) !! h) /\ forall p, p <> dpath -> file_at p (dsk w') = file_at p (dsk w).
Lemma file_sink lim : sink lim in_file elsewhere (fun error f => chunk_to_file room failed error f dest).
Proof.
  pose proof chunk_pos as Hch. split; [done|].
  intros error f e w inp r n o s (m & pos & Hs & Hm & Hc) Hsu Hf Her Hole _ Hn. pose proof (blen_nonneg o).
  unfold chunk_to_file, give_room. apply post_bind, post_bind, post_gets. unfold set_strm. apply post_modify. cbn [dsk strm out].
  apply post_bind. eapply zlib_call_ok; [|exact Hf|]; [destruct Hsu; by split|]. cbn [dsk strm out next_in avail_in avail_out]. rewrite Her.
  apply post_bind, post_gets, post_bind, post_gets, post_bind. cbn [dsk strm out avail_out].
  destruct (fwrite_at dest dpath m pos (dsk w) o (base ++ e) (room (dsk w)) Hs Hm Hc) as (pos' & Ew & Hm').
  { pose proof (has_room (dsk w)). lia. }
  eexists _, _, []. split; [unfold on_disk; cbn [dsk strm out]; by rewrite Ew|]. apply post_bind, post_gets.
  rewrite no_failure. replace (ZIP_CHUNK - (ZIP_CHUNK - blen o)) with (blen o) by lia. rewrite Z.eqb_refl. cbn [negb orb].
  apply post_ret. split; [done|]. split; [|split; [|split; [by eapply supplies_rest|done]]].
  - exists m, pos'. cbn [dsk]. split; [cbn; by rewrite lookup_insert_eq|]. rewrite app_assoc. split; [done|].
    unfold file_at. cbn. by rewrite lookup_insert_eq.
  - split; [done|]. cbn [dsk]. split.
    + intros h Hh. cbn. by rewrite lookup_insert_ne.
    + intros p Hp. unfold file_at. cbn. by rewrite lookup_insert_ne.
Qed.

(** * The inner loops *)
Section loops.
Context (lim : Z) (I : list Z -> W -> Prop) (R : W -> W -> Prop) `{!PreOrder R}
  (chunk : (Z -> option Z) -> (list Z -> Z -> S -> Z * Z * list Z * S) -> M W (Z + Z)) (Hsink : sink lim I R chunk).

(** All the input is taken; with [Z_FINISH] what was put out is a complete stream. *)
Definition deflated (f : Z) (s : S) (inp : list Z) (w : W) (a : Z + Z) (w' : W) : Prop := exists s' r, a = inr r /\
  internal (strm w') = s' /\ (f = Z_NO_FLUSH -> forall f' inp', deflating f' inp' s') /\ taken s' = taken s ++ inp /\ I (put s') w' /\ R w w' /\
  blen (put s) <= blen (put s') <= deflate_bound (blen (taken s')) /\ (f = Z_FINISH -> r = Z_STREAM_END /\ zcode (put s') (taken s')).
Lemma deflate_all f : f = Z_NO_FLUSH \/ f = Z_FINISH -> forall fuel w inp s, I (put s) w -> supplies w inp -> internal (strm w) = s ->
  deflating f inp s -> deflate_bound (blen (taken s ++ inp)) <= lim -> lim - blen (put s) < ZIP_CHUNK * Z.of_nat fuel ->
  post (while_full fuel (chunk deflate_error (deflate f))) (deflated f s inp w) w.
Proof.
  intros Hf. pose proof chunk_pos as Hch. induction fuel as [|fuel IH]; intros w inp s HI Hsu Hs Hd Hb Hfuel.
  { pose proof (deflate_bounded f inp s Hd). pose proof (deflate_bound_mono (blen (taken s)) (blen (taken s ++ inp))) as Hmono.
    rewrite blen_app in Hmono at 1. pose proof (blen_nonneg inp). lia. }
  pose proof (deflate_takes f inp ZIP_CHUNK s Hd ltac:(lia)) as Ht. pose proof (deflate_goes_on f inp ZIP_CHUNK s Hd ltac:(lia) Hf) as Hg.
  assert (f = Z_FINISH -> let '(r, n, o, s') := deflate f inp ZIP_CHUNK s in r = Z_STREAM_END -> zcode (put s') (taken s')) as Hcode
    by (intros Ef; rewrite Ef in *; apply deflate_codes; done || lia).
  destruct (deflate f inp ZIP_CHUNK s) as [[[r n] o] s'] eqn:E. destruct Ht as (Hn & Ho & Ht & Hp & Hdf & Hdn). destruct Hg as (Hr & Hg).
  pose proof (blen_nonneg o) as Ho0.
  assert (taken s' ++ drop (Z.to_nat n) inp = taken s ++ inp) as Hall by (by rewrite Ht, <- app_assoc, take_drop).
  assert (deflate_bound (blen (taken s')) <= deflate_bound (blen (taken s ++ inp))) as Hmono.
  { apply deflate_bound_mono. rewrite <- Hall, blen_app. pose proof (blen_nonneg (drop (Z.to_nat n) inp)). lia. }
  assert (deflating f (drop (Z.to_nat n) inp) s') as Hd' by (destruct Hf; auto). pose proof (deflate_bounded _ _ s' Hd') as Hb'. cbn [while_full]. apply post_bind. eapply post_mono.
  { eapply (sk_store _ _ _ _ Hsink); [exact HI|exact Hsu|rewrite Hs; exact E| |lia| |lia].
    - unfold deflate_error. by rewrite (proj2 (Z.eqb_neq r _)).
    - rewrite <- Hp. lia. }
  cbv beta. intros a w1 (-> & HI1 & HR1 & Hsu1 & Hs1 & Hav). rewrite <- Hp in HI1. apply post_bind, post_gets. rewrite Hav.
  assert (blen (put s') = blen (put s) + blen o) as Hlen by (by rewrite Hp, blen_app).
  destruct (Z.eqb_spec (ZIP_CHUNK - blen o) 0) as [Hfull|Hroom].
  - eapply post_mono; [apply (IH w1 (drop (Z.to_nat n) inp) s'); try done; [by rewrite Hall; lia|nia]|]. cbv beta.
    intros a w2 (s2 & r2 & -> & Hs2 & Hd2 & Ht2 & HI2 & HR2 & Hmo & Hfin). exists s2, r2.
    split; [done|]. split; [done|]. split; [done|]. split; [by rewrite Ht2, Hall|]. split; [done|].
    split; [by etrans|]. split; [lia|done].
  - apply post_ret. exists s', r. destruct (Hg ltac:(lia)) as [-> Hend]. split; [done|]. split; [done|]. split; [done|].
    split; [rewrite Ht; f_equal; apply take_ge; unfold blen; lia|]. split; [done|]. split; [done|]. split; [lia|].
    intros Hfin. specialize (Hend Hfin). split; [done|by apply Hcode].
Qed.

(** What was put out is a beginning of the data, all of it when the stream is complete. *)
Definition inflated (d : list Z) (s : S) (inp rest : list Z) (w : W) (a : Z + Z) (w' : W) : Prop := exists s' r, a = inr r /\
  internal (strm w') = s' /\ inflating s' /\ taken s' = taken s ++ inp /\ I (put s') w' /\ R w w' /\ blen (put s) <= blen (put s') /\
  (exists more, d = put s' ++ more) /\ (r = Z_OK \/ r = Z_BUF_ERROR \/ r = Z_STREAM_END) /\
  (rest = [] -> r = Z_STREAM_END) /\ (r = Z_STREAM_END -> rest = [] /\ put s' = d).
Lemma inflate_error_none r : r = Z_OK \/ r = Z_BUF_ERROR \/ r = Z_STREAM_END -> inflate_error r = None.
Proof. by intros [-> | [-> | ->]]. Qed.
Lemma inflate_all c d : zcode c d -> forall fuel w inp rest s, I (put s) w -> supplies w inp -> internal (strm w) = s ->
  inflating s -> c = taken s ++ inp ++ rest -> blen d <= lim -> blen (put s) <= blen d -> lim - blen (put s) < ZIP_CHUNK * Z.of_nat fuel ->
  post (while_full fuel (chunk inflate_error inflate)) (inflated d s inp rest w) w.
Proof.
  intros Hcd. pose proof chunk_pos as Hch. induction fuel as [|fuel IH]; intros w inp rest s HI Hsu Hs Hd Hc Hb Hpre Hfuel; [lia|].
  pose proof (inflate_takes inp ZIP_CHUNK s Hd ltac:(lia)) as Ht. pose proof (inflate_follows inp ZIP_CHUNK s c d rest Hd ltac:(lia) Hcd Hc) as Hg.
  destruct (inflate inp ZIP_CHUNK s) as [[[r n] o] s'] eqn:E. destruct Ht as (Hd' & Hn & Ho & Ht & Hp).
  destruct Hg as (Hr & (more & Hmore) & Hend & Hroom & _). pose proof (blen_nonneg o) as Ho0.
  assert (blen d = blen (put s) + blen o + blen more) as Hbd by (rewrite Hmore, Hp, !blen_app; lia). pose proof (blen_nonneg more).
  assert (blen (put s') = blen (put s) + blen o) as Hlen by (by rewrite Hp, blen_app).
  assert (taken s' ++ drop (Z.to_nat n) inp = taken s ++ inp) as Hall by (by rewrite Ht, <- app_assoc, take_drop).
  cbn [while_full]. apply post_bind. eapply post_mono.
  { eapply (sk_store _ _ _ _ Hsink); [exact HI|exact Hsu|rewrite Hs; exact E|by apply inflate_error_none|lia| |lia].
    rewrite <- Hp. lia. }
  cbv beta. intros a w1 (-> & HI1 & HR1 & Hsu1 & Hs1 & Hav). rewrite <- Hp in HI1. apply post_bind, post_gets. rewrite Hav.
  destruct (Z.eqb_spec (ZIP_CHUNK - blen o) 0) as [Hfull|Hleft].
  - eapply post_mono; [apply (IH w1 (drop (Z.to_nat n) inp) rest s'); try done; [by rewrite Hc, app_assoc, <- Hall, <- app_assoc|lia|nia]|]. cbv beta.
    intros a w2 (s2 & r2 & -> & Hs2 & Hd2 & Ht2 & HI2 & HR2 & Hmo & Hm2 & Hr2 & Hx2 & Hy2). exists s2, r2.
    split; [done|]. split; [done|]. split; [done|]. split; [by rewrite Ht2, Hall|]. split; [done|]. split; [by etrans|]. split; [lia|done].
  - apply post_ret. exists s', r. destruct (Hroom ltac:(lia)) as [-> Hx]. split; [done|]. split; [done|]. split; [done|].
    assert (taken s' = taken s ++ inp) as Et by (rewrite Ht; f_equal; apply take_ge; unfold blen; lia).
    split; [done|]. split; [done|]. split; [done|]. split; [lia|]. split; [by exists more|]. split; [done|]. split; [done|].
    intros HE. destruct (Hend HE) as [Et' Ep]. split; [|done]. rewrite Et, Hc, app_assoc in Et'.
    rewrite <- (app_nil_r (taken s ++ inp)) in Et' at 1. by apply app_inv_head in Et'.
Qed.

(** * The loops over a file *)
Context (source : Z) (sp : path) (data : list Z).
Record reads (pos : Z) (w : W) : Prop := {
  rd_stream : exists m, streams (dsk w) !! source = Some (mkStream sp m pos) /\ m <> ForAppending;
  rd_file : file_at sp (dsk w) = data;
  rd_pos : 0 <= pos <= blen data }.
Hypothesis R_reads : forall pos w w', R w w' -> reads pos w -> reads pos w'.
Hypothesis I_reads : forall e w st, I e w -> I e (mkWorld (set_streams (<[source := st]> (streams (dsk w))) (dsk w)) (strm w) (out w)).

(** Reading a chunk and giving it to zlib. *)
Lemma read_chunk_ok w pos in_ e (Q : Z * list cell -> W -> Prop) : I e w -> reads pos w -> blen in_ = ZIP_CHUNK ->
  (forall in' d', let inp := take (Z.to_nat ZIP_CHUNK) (drop (Z.to_nat pos) data) in let w' := mkWorld d' (strm w) (out w) in
     I e w' -> reads (pos + blen inp) w' -> blen in' = ZIP_CHUNK -> (exists more, in' = (Some <$> inp) ++ more) -> Q (blen inp, in') w') ->
  post (read_chunk source in_) Q w.
Proof.
  intros HI [(m & Hs & Hm) Hf Hp] Hin HQ. pose proof chunk_pos as Hch.
  pose proof (fread_at source sp m pos (dsk w) ZIP_CHUNK in_ data Hs Hm Hf Hp Hin) as E. cbv zeta in E.
  assert (slice data pos (Z.min ZIP_CHUNK (blen data - pos)) = take (Z.to_nat ZIP_CHUNK) (drop (Z.to_nat pos) data)) as Er.
  { unfold slice. destruct (Z.le_gt_cases ZIP_CHUNK (blen data - pos)); [by rewrite Z.min_l by lia|]. rewrite Z.min_r by lia.
    unfold blen in *. rewrite !take_ge; [done|rewrite length_drop; lia..]. }
  rewrite Er in E. set (inp := take _ _) in *. eexists _, _, []. split; [unfold read_chunk, on_disk; by rewrite E|].
  assert (blen inp = Z.min ZIP_CHUNK (blen data - pos)) as Hl.
  { unfold inp, blen in *. rewrite length_take, length_drop. lia. }
  apply HQ; [by apply I_reads| | |by eexists].
  - split; cbn [dsk]; [|done|lia]. exists m. cbn. by rewrite lookup_insert_eq.
  - rewrite blen_app, blen_fmap_some. unfold blen in *. rewrite length_drop. lia.
Qed.
Lemma give_input_ok w in' inp more (Q : unit -> W -> Prop) : in' = (Some <$> inp) ++ more ->
  (forall z, supplies (mkWorld (dsk w) z (out w)) inp -> internal z = internal (strm w) -> Q tt (mkWorld (dsk w) z (out w))) ->
  post (give_input in' (blen inp)) Q w.
Proof. intros -> HQ. apply post_bind, post_gets. apply post_modify. apply HQ; [split; [done|by exists more]|done]. Qed.

Lemma deflate_file_ok : forall fuel w s pos in_, I (put s) w -> reads pos w -> blen in_ = ZIP_CHUNK -> internal (strm w) = s -> (forall f inp, deflating f inp s) ->
  let rest := drop (Z.to_nat pos) data in
  deflate_bound (blen (taken s ++ rest)) <= lim -> lim - blen (put s) + blen rest < ZIP_CHUNK * Z.of_nat fuel ->
  post (deflate_file failed fuel (fun flush => chunk deflate_error (deflate flush)) source in_) (fun a w' => exists s',
    a = inr Z_STREAM_END /\ taken s' = taken s ++ rest /\ I (put s') w' /\ zcode (put s') (taken s')) w.
Proof.
  pose proof chunk_pos as Hch. induction fuel as [|fuel IH]; intros w s pos in_ HI Hrd Hin Hs Hd rest Hb Hfuel; pose proof (blen_nonneg rest).
  { pose proof (deflate_bounded 0 [] s (Hd _ _)). pose proof (deflate_bound_mono (blen (taken s)) (blen (taken s ++ rest))) as Hmono.
    rewrite blen_app in Hmono at 1. lia. }
  cbn [deflate_file]. apply post_bind. eapply read_chunk_ok; [done..|]. fold rest. intros in' d' inp w1 HI1 Hrd1 Hin' (more & Hmore).
  assert (blen inp = Z.min ZIP_CHUNK (blen rest)) as Hl by (unfold inp, blen; rewrite length_take; lia).
  apply post_bind, post_gets. rewrite no_failure. apply post_bind. eapply give_input_ok; [exact Hmore|]. intros z Hsu Hz. cbn [w1 dsk out strm] in *.
  set (w2 := mkWorld d' z (out w)) in *.
  assert (I (put s) w2) as HI2 by exact (sk_strm _ _ _ _ Hsink _ _ z HI1).
  assert (reads (pos + blen inp) w2) as Hrd2 by (destruct Hrd1; by split).
  assert (internal (strm w2) = s) as Hs2 by (cbn; congruence). clearbody w2.
  assert (deflate_bound (blen (taken s ++ inp)) <= deflate_bound (blen (taken s ++ rest))) as Hmono.
  { apply deflate_bound_mono. rewrite !blen_app. lia. }
  destruct (Z.ltb_spec (blen inp) ZIP_CHUNK) as [Hshort|Hfull]; apply post_bind.
  - assert (inp = rest) as Er by (apply take_ge; unfold blen in *; lia).
    eapply post_mono; [apply (deflate_all Z_FINISH ltac:(by right) _ w2 inp s); try done; lia|]. cbv beta.
    intros a w3 (s' & r & -> & Hs3 & Hd3 & Ht3 & HI3 & _ & _ & Hfin). destruct (Hfin eq_refl) as [-> Hz3]. cbn [Z.eqb Z_FINISH negb].
    apply post_ret. exists s'. rewrite Ht3, Er. split; [done|]. split; [done|]. split; [done|]. by rewrite <- Er, <- Ht3.
  - eapply post_mono; [apply (deflate_all Z_NO_FLUSH ltac:(by left) _ w2 inp s); try done; lia|]. cbv beta.
    intros a w3 (s' & r & -> & Hs3 & Hd3 & Ht3 & HI3 & HR3 & Hmo3 & _). cbn [Z.eqb Z_NO_FLUSH Z_FINISH negb].
    assert (drop (Z.to_nat (pos + blen inp)) data = drop (Z.to_nat ZIP_CHUNK) rest) as Er.
    { unfold rest. rewrite drop_drop. f_equal. pose proof (rd_pos _ _ Hrd). lia. }
    assert (taken s' ++ drop (Z.to_nat ZIP_CHUNK) rest = taken s ++ rest) as Et.
    { rewrite Ht3, <- app_assoc. f_equal. unfold inp. apply take_drop. }
    assert (blen (drop (Z.to_nat ZIP_CHUNK) rest) = blen rest - ZIP_CHUNK) as El.
    { unfold blen in *. rewrite length_drop. lia. }
    eapply post_mono; [apply (IH w3 s' (pos + blen inp) in'); try done; [by apply (R_reads _ w2)|exact (Hd3 eq_refl)|by rewrite Er, Et|rewrite Er; lia]|]. cbv beta.
    intros a w4 (s4 & -> & Ht4 & HI4 & Hz4). exists s4. split; [done|]. split; [by rewrite Ht4, Er, Et|done].
Qed.
Lemma inflate_file_ok c d : zcode c d -> forall fuel w s pos in_ rval, I (put s) w -> reads pos w -> blen in_ = ZIP_CHUNK ->
  internal (strm w) = s -> inflating s -> let rest := drop (Z.to_nat pos) data in
  c = taken s ++ rest -> rest <> [] -> blen d <= lim -> blen (put s) <= blen d -> lim - blen (put s) + blen rest < ZIP_CHUNK * Z.of_nat fuel ->
  post (inflate_file failed fuel (chunk inflate_error inflate) source in_ rval) (fun a w' => a = inr Z_STREAM_END /\ I d w') w.
Proof.
  intros Hcd. pose proof chunk_pos as Hch. induction fuel as [|fuel IH]; intros w s pos in_ rval HI Hrd Hin Hs Hd rest Hc Hne Hb Hpre Hfuel;
    pose proof (blen_nonneg rest); [lia|].
  cbn [inflate_file]. apply post_bind. eapply read_chunk_ok; [done..|]. fold rest. intros in' d' inp w1 HI1 Hrd1 Hin' (more & Hmore).
  assert (blen inp = Z.min ZIP_CHUNK (blen rest)) as Hl by (unfold inp, blen; rewrite length_take; lia).
  apply post_bind, post_gets. rewrite no_failure. assert (0 < blen rest) as Hpos by (destruct rest; [done|rewrite blen_cons; pose proof (blen_nonneg rest); lia]).
  rewrite (proj2 (Z.eqb_neq (blen inp) 0)) by lia.
  apply post_bind. eapply give_input_ok; [exact Hmore|]. intros z Hsu Hz. cbn [w1 dsk out strm] in *.
  set (w2 := mkWorld d' z (out w)) in *.
  assert (I (put s) w2) as HI2 by exact (sk_strm _ _ _ _ Hsink _ _ z HI1).
  assert (reads (pos + blen inp) w2) as Hrd2 by (destruct Hrd1; by split).
  assert (internal (strm w2) = s) as Hs2 by (cbn; congruence). clearbody w2.
  apply post_bind. eapply post_mono.
  { apply (inflate_all c d Hcd _ w2 inp (drop (Z.to_nat ZIP_CHUNK) rest) s); try done; [|lia].
    rewrite Hc. f_equal. symmetry. apply take_drop. }
  cbv beta. intros a w3 (s' & r & -> & Hs3 & Hd3 & Ht3 & HI3 & HR3 & Hmo3 & (more3 & Hm3) & Hr3 & Hx3 & Hy3).
  destruct (Z.eqb_spec r Z_STREAM_END) as [->|Hne3]; cbn [negb].
  - apply post_ret. split; [done|]. destruct (Hy3 eq_refl) as [_ <-]. done.
  - assert (drop (Z.to_nat ZIP_CHUNK) rest <> []) as Hne' by auto.
    assert (ZIP_CHUNK < blen rest) as Hlong.
    { destruct (Z.lt_ge_cases ZIP_CHUNK (blen rest)); [done|]. destruct Hne'. apply drop_ge. unfold blen in *. lia. }
    assert (drop (Z.to_nat (pos + blen inp)) data = drop (Z.to_nat ZIP_CHUNK) rest) as Er.
    { unfold rest. rewrite drop_drop. f_equal. pose proof (rd_pos _ _ Hrd). lia. }
    assert (blen (drop (Z.to_nat ZIP_CHUNK) rest) = blen rest - ZIP_CHUNK) as El by (unfold blen in *; rewrite length_drop; lia).
    apply (IH w3 s' (pos + blen inp) in'); try done; [by apply (R_reads _ w2)|..]; rewrite ?Er; try done.
    + rewrite Hc, Ht3, <- app_assoc. f_equal. symmetry. apply take_drop.
    + rewrite Hm3, blen_app. pose proof (blen_nonneg more3). lia.
    + lia.
Qed.
End loops.

(** * Beginning and ending *)
#[local] Instance same_disk_preorder : PreOrder (fun w w' : W => dsk w' = dsk w).
Proof. split; [by intros w|intros x y z; congruence]. Qed.
#[local] Instance elsewhere_preorder : PreOrder elsewhere.
Proof.
  split; [by intros w|]. intros x y z (H1 & H2 & H3) (H4 & H5 & H6). split; [congruence|].
  split; [intros h Hh; by rewrite H5, H2|intros p Hp; by rewrite H6, H3].
Qed.
Lemma new_out_ok w (Q : bool -> W -> Prop) :
  (forall w', in_buffer [] w' -> dsk w' = dsk w -> strm w' = strm w -> Q true w') -> post (new_out true) Q w.
Proof.
  intros HQ. unfold new_out. apply post_bind. eapply post_lift; [done|]. apply post_bind. unfold set_out. apply post_modify, post_ret.
  apply HQ; [|done|done]. eexists. split; [done|]. split; [|done]. split; cbn; unfold ULONG_MAX; done || lia.
Qed.
Lemma init_deflate_ok w level s (Q : Z -> W -> Prop) : deflateInit level = (Z_OK, s) ->
  (forall z, internal z = s -> Q Z_OK (mkWorld (dsk w) z (out w))) -> post (init_deflate_stream true level) Q w.
Proof. intros E HQ. unfold init_deflate_stream. cbn [negb]. rewrite E. apply post_bind, post_gets, post_bind. unfold set_strm. apply post_modify, post_ret. by apply HQ. Qed.
Lemma init_inflate_ok w s (Q : Z -> W -> Prop) : inflateInit = (Z_OK, s) ->
  (forall z, internal z = s -> Q Z_OK (mkWorld (dsk w) z (out w))) -> post (init_inflate_stream true) Q w.
Proof. intros E HQ. unfold init_inflate_stream. cbn [negb]. rewrite E. apply post_bind, post_gets, post_bind. unfold set_strm. apply post_modify, post_ret. by apply HQ. Qed.

(** The bytes of a block that was given away. *)
Definition block_cells (b : option (Z * list cell)) : list cell := match b with Some (_, c) => c | None => [] end.
(** [p]: the code [rval], and the bytes [e]. *)
Definition gives (rval : Z) (e : list Z) (p : Z * option (Z * option (Z * list cell))) : Prop :=
  exists blk, p = (rval, Some (blen e, blk)) /\ block_cells blk = Some <$> e.
Lemma finish_buffer_ok w rval e (Q : Z * option (Z * option (Z * list cell)) -> W -> Prop) : in_buffer e w ->
  (forall p w', gives (ended rval) e p -> out w' = None -> dsk w' = dsk w -> Q p w') -> post (finish_buffer alloc (inr rval)) Q w.
Proof.
  intros (b & Ho & Hwf & Hc) HQ. unfold finish_buffer, hand_out.
  assert (len b = blen e) as Hlen by (rewrite <- blen_content, Hc, blen_fmap_some by done; done).
  pose proof (wf_len b Hwf). pose proof (wf_capacity b Hwf). pose proof (blen_nonneg e).
  apply post_bind, post_bind. eapply (post_on_out (gets len)); [done..|]. apply post_bind. rewrite Hlen.
  destruct (has_memory (blen e)) as [id Hid]. rewrite Hid.
  destruct (hard_resize_ok b id (blen e) Hwf ltac:(lia)) as (b1 & E1 & Hwf1 & _ & Hcap & Hc1). rewrite take_content in Hc1 by lia.
  eapply (post_on_out _ _ _ tt b1); [done| |].
  { rewrite bind_gets, Hlen. by rewrite (bind_quiet _ _ _ _ _ (here_Some _ _ _ _ _ E1)). }
  assert (len b1 = blen e) as Hlen1 by (rewrite <- blen_content, Hc1, Hc, blen_fmap_some by done; done).
  apply post_bind. eapply (post_on_out (gets len)); [done..|]. rewrite Hlen1. apply post_bind. cbn [dsk strm out].
  eexists (buff b1), (mkWorld (dsk w) (strm w) _), []. split; [unfold on_out, BinaryBuffer_extract_buffer, on_obj; cbn [out dsk strm]; mstep; done|].
  apply post_ret. apply post_bind. unfold set_out. apply post_modify. apply post_bind. apply post_bind, post_gets. unfold set_strm. apply post_modify, post_ret.
  apply HQ; [|done|done]. eexists. split; [done|]. change (block_cells (buff b1)) with (cells b1).
  rewrite <- Hc, <- Hc1. unfold content. symmetry. apply take_ge. pose proof (wf_block b1 Hwf1). unfold blen in *. lia.
Qed.
Lemma finish_file_ok w rval e (Q : Z -> W -> Prop) : in_file e w -> (forall w', in_file e w' -> Q (ended rval) w') -> post (finish_file (inr rval)) Q w.
Proof.
  intros HI HQ. unfold finish_file. apply post_bind. apply post_bind, post_gets. unfold set_strm. apply post_modify, post_ret. by apply HQ.
Qed.
(** The first [buff_len] bytes of an array, as far as an [unsigned int] counts them. *)
Definition counted (b : list Z) (buff_len : Z) : list Z := take (Z.to_nat (u32 buff_len)) b.
Lemma give_buffer_ok w b n (Q : unit -> W -> Prop) : 0 <= n <= blen b ->
  (forall z, supplies (mkWorld (dsk w) z (out w)) (counted b n) -> internal z = internal (strm w) -> Q tt (mkWorld (dsk w) z (out w))) ->
  post (give_input (Some <$> b) (u32 n)) Q w.
Proof.
  intros Hn HQ. assert (0 <= u32 n <= n) as Hu by (unfold u32; split; [apply Z.mod_pos_bound; lia|apply Z.mod_le; lia]).
  assert (blen (counted b n) = u32 n) as E by (unfold counted, blen in *; rewrite length_take; lia). rewrite <- E.
  eapply give_input_ok; [|exact HQ]. unfold counted. rewrite <- (take_drop (Z.to_nat (u32 n)) b) at 1. apply fmap_app.
Qed.
Lemma local_chunk_len : blen local_chunk = ZIP_CHUNK.
Proof. unfold local_chunk. apply blen_none. pose proof chunk_pos. lia. Qed.

(** * The functions that read a buffer *)
Section buffers.
Context (fuel : nat) (b : list Z) (n lim : Z).
Hypothesis Hn : 0 < n <= blen b.
Hypothesis Hfuel : lim < ZIP_CHUNK * Z.of_nat fuel.
Section deflate.
Context (level : Z) (s : S) (Hinit : deflateInit level = (Z_OK, s)) (Hlim : deflate_bound (blen (counted b n)) <= lim).
Lemma deflate_btb_ok w : lim + ZIP_CHUNK <= ULONG_MAX ->
  post (deflate_btb true alloc fuel (Some b) n true level) (fun p w' => out w' = None /\ dsk w' = dsk w /\
    exists c, gives Z_OK c p /\ zcode c (counted b n) /\ blen c <= deflate_bound (blen (counted b n))) w.
Proof.
  intros Hmax. destruct (deflateInit_starts level s Hinit) as (Hd & Ht & Hp). cbn [deflate_btb negb orb].
  rewrite (proj2 (Z.eqb_neq n 0)) by lia. apply post_bind, new_out_ok. intros w1 HI1 Hk1 _. cbn [negb]. apply post_bind.
  eapply init_deflate_ok; [done|]. intros z Hz. cbn [Z.eqb Z_OK negb]. apply post_bind, give_buffer_ok; [lia|]. cbn [dsk strm out].
  intros z2 Hsu Hz2. set (w2 := mkWorld _ z2 _) in *. assert (in_buffer [] w2) as HI2 by exact HI1. rewrite <- Hp in HI2.
  apply post_bind. eapply post_mono.
  { apply (deflate_all lim in_buffer _ _ (buffer_sink lim Hmax) Z_FINISH ltac:(by right) fuel w2 (counted b n) s); try done; cbn; [congruence|by rewrite Ht|].
    rewrite Hp. change (blen []) with 0. lia. }
  cbv beta. intros a w3 (s3 & r & -> & _ & _ & Ht3 & HI3 & HR3 & Hb3 & Hfin). destruct (Hfin eq_refl) as [-> Hzc].
  eapply finish_buffer_ok; [exact HI3|]. intros p w4 Hg Ho Hk. split; [done|]. split; [by rewrite Hk, HR3|].
  exists (put s3). split; [exact Hg|]. rewrite Ht3, Ht in Hzc, Hb3. split; [done|apply Hb3].
Qed.
Lemma deflate_btf_ok w : in_file [] w ->
  post (deflate_btf room failed fuel (Some b) n (Some dest) level) (fun r w' => r = Z_OK /\ exists c, in_file c w' /\ zcode c (counted b n)) w.
Proof.
  intros HI. destruct (deflateInit_starts level s Hinit) as (Hd & Ht & Hp). cbn [deflate_btf]. rewrite (proj2 (Z.eqb_neq n 0)) by lia.
  apply post_bind. eapply init_deflate_ok; [done|]. intros z Hz. cbn [Z.eqb Z_OK negb]. apply post_bind, give_buffer_ok; [lia|]. cbn [dsk strm out].
  intros z2 Hsu Hz2. set (w2 := mkWorld _ z2 _) in *. assert (in_file [] w2) as HI2 by exact HI. rewrite <- Hp in HI2.
  apply post_bind. eapply post_mono.
  { apply (deflate_all lim in_file _ _ (file_sink lim) Z_FINISH ltac:(by right) fuel w2 (counted b n) s); try done; cbn; [congruence|by rewrite Ht|].
    rewrite Hp. change (blen []) with 0. lia. }
  cbv beta. intros a w3 (s3 & r & -> & _ & _ & Ht3 & HI3 & HR3 & _ & Hfin). destruct (Hfin eq_refl) as [-> Hzc].
  eapply finish_file_ok; [exact HI3|]. intros w4 HI4. split; [done|]. exists (put s3). split; [done|]. by rewrite Ht3, Ht in Hzc.
Qed.
End deflate.
Section inflate.
Context (s : S) (Hinit : inflateInit = (Z_OK, s)) (d : list Z) (Hcode : zcode (counted b n) d) (Hlim : blen d <= lim).
Lemma inflate_btb_ok w : lim + ZIP_CHUNK <= ULONG_MAX ->
  post (inflate_btb true alloc fuel (Some b) n true) (fun p w' => out w' = None /\ dsk w' = dsk w /\ gives Z_OK d p) w.
Proof.
  intros Hmax. destruct (inflateInit_starts s Hinit) as (Hd & Ht & Hp). cbn [inflate_btb negb orb]. pose proof (blen_nonneg d).
  rewrite (proj2 (Z.eqb_neq n 0)) by lia. apply post_bind, new_out_ok. intros w1 HI1 Hk1 _. cbn [negb]. apply post_bind.
  eapply init_inflate_ok; [done|]. intros z Hz. cbn [Z.eqb Z_OK negb]. apply post_bind, give_buffer_ok; [lia|]. cbn [dsk strm out].
  intros z2 Hsu Hz2. set (w2 := mkWorld _ z2 _) in *. assert (in_buffer [] w2) as HI2 by exact HI1. rewrite <- Hp in HI2.
  apply post_bind. eapply post_mono.
  { apply (inflate_all lim in_buffer _ _ (buffer_sink lim Hmax) _ d Hcode fuel w2 (counted b n) [] s); try done; cbn;
      [congruence|by rewrite Ht, app_nil_r|rewrite Hp; change (blen []) with 0; lia..]. }
  cbv beta. intros a w3 (s3 & r & -> & _ & _ & Ht3 & HI3 & HR3 & _ & _ & _ & Hx & Hy). rewrite (Hx eq_refl).
  destruct (Hy (Hx eq_refl)) as [_ Ed]. rewrite Ed in HI3.
  eapply finish_buffer_ok; [exact HI3|]. intros p w4 Hg Ho Hk. split; [done|]. split; [by rewrite Hk, HR3|exact Hg].
Qed.
Lemma inflate_btf_ok w : in_file [] w ->
  post (inflate_btf room failed fuel (Some b) n (Some dest)) (fun r w' => r = Z_OK /\ in_file d w') w.
Proof.
  intros HI. destruct (inflateInit_starts s Hinit) as (Hd & Ht & Hp). cbn [inflate_btf]. pose proof (blen_nonneg d).
  rewrite (proj2 (Z.eqb_neq n 0)) by lia.
  apply post_bind. eapply init_inflate_ok; [done|]. intros z Hz. cbn [Z.eqb Z_OK negb]. apply post_bind, give_buffer_ok; [lia|]. cbn [dsk strm out].
  intros z2 Hsu Hz2. set (w2 := mkWorld _ z2 _) in *. assert (in_file [] w2) as HI2 by exact HI. rewrite <- Hp in HI2.
  apply post_bind. eapply post_mono.
  { apply (inflate_all lim in_file _ _ (file_sink lim) _ d Hcode fuel w2 (counted b n) [] s); try done; cbn;
      [congruence|by rewrite Ht, app_nil_r|rewrite Hp; change (blen []) with 0; lia..]. }
  cbv beta. intros a w3 (s3 & r & -> & _ & _ & Ht3 & HI3 & HR3 & _ & _ & _ & Hx & Hy). rewrite (Hx eq_refl).
  destruct (Hy (Hx eq_refl)) as [_ Ed]. rewrite Ed in HI3.
  eapply finish_file_ok; [exact HI3|]. by intros w4 HI4.
Qed.
End inflate.
End buffers.

#[local] Opaque local_chunk.
(** * The functions that read a file *)
Section files.
Context (fuel : nat) (source : Z) (sp : path) (data : list Z) (pos lim : Z).
Definition unread : list Z := drop (Z.to_nat pos) data.
Hypothesis Hfuel : lim + blen unread < ZIP_CHUNK * Z.of_nat fuel.
Lemma buffer_reads q (w w' : W) : dsk w' = dsk w -> reads source sp data q w -> reads source sp data q w'.
Proof. intros E []. by split; rewrite ?E. Qed.
Section other.
Hypothesis Hother : source <> dest /\ sp <> dpath.
Lemma file_reads q (w w' : W) : elsewhere w w' -> reads source sp data q w -> reads source sp data q w'.
Proof. intros (_ & E1 & E2) []. destruct Hother. by split; rewrite ?E1, ?E2. Qed.
Lemma file_read_source e (w : W) st : in_file e w -> in_file e (mkWorld (set_streams (<[source := st]> (streams (dsk w))) (dsk w)) (strm w) (out w)).
Proof. intros (m & q & Hs & Hm & Hf). destruct Hother. exists m, q. split; [|done]. cbn. by rewrite lookup_insert_ne. Qed.
End other.
Section deflate.
Context (level : Z) (s : S) (Hinit : deflateInit level = (Z_OK, s)) (Hlim : deflate_bound (blen unread) <= lim).
Lemma deflate_ftb_ok w : reads source sp data pos w -> lim + ZIP_CHUNK <= ULONG_MAX ->
  post (deflate_ftb true alloc failed fuel (Some source) true level) (fun p w' => out w' = None /\
    exists c, gives Z_OK c p /\ zcode c unread) w.
Proof.
  intros Hrd Hmax. destruct (deflateInit_starts level s Hinit) as (Hd & Ht & Hp). cbn [deflate_ftb negb].
  apply post_bind, new_out_ok. intros w1 HI1 Hk1 _. cbn [negb]. apply post_bind.
  eapply init_deflate_ok; [done|]. intros z Hz. cbn [Z.eqb Z_OK negb]. set (w2 := mkWorld _ z _) in *.
  assert (in_buffer [] w2) as HI2 by exact HI1. rewrite <- Hp in HI2.
  apply post_bind. eapply post_mono.
  { apply (deflate_file_ok lim in_buffer _ _ (buffer_sink lim Hmax) source sp data buffer_reads ltac:(done) fuel w2 s pos);
      [exact HI2|by apply (buffer_reads _ w)|apply local_chunk_len|exact Hz|exact Hd|by rewrite Ht|].
    rewrite Hp. change (blen []) with 0. fold unread. lia. }
  cbv beta. intros a w3 (s3 & -> & Ht3 & HI3 & Hz3). eapply finish_buffer_ok; [exact HI3|]. intros p w4 Hg Ho _. split; [done|].
  exists (put s3). split; [exact Hg|]. by rewrite Ht3, Ht in Hz3.
Qed.
Lemma deflate_ftf_ok w : reads source sp data pos w -> source <> dest /\ sp <> dpath -> in_file [] w ->
  post (deflate_ftf room failed fuel (Some source) (Some dest) level) (fun r w' => r = Z_OK /\ exists c, in_file c w' /\ zcode c unread) w.
Proof.
  intros Hrd Ho HI. destruct (deflateInit_starts level s Hinit) as (Hd & Ht & Hp). cbn [deflate_ftf].
  apply post_bind. eapply init_deflate_ok; [done|]. intros z Hz. cbn [Z.eqb Z_OK negb]. set (w2 := mkWorld _ z _) in *.
  assert (in_file [] w2) as HI2 by exact HI. rewrite <- Hp in HI2.
  apply post_bind. eapply post_mono.
  { apply (deflate_file_ok lim in_file _ _ (file_sink lim) source sp data (file_reads Ho) (file_read_source Ho) fuel w2 s pos);
      [exact HI2|by destruct Hrd|apply local_chunk_len|exact Hz|exact Hd|by rewrite Ht|].
    rewrite Hp. change (blen []) with 0. fold unread. lia. }
  cbv beta. intros a w3 (s3 & -> & Ht3 & HI3 & Hz3). eapply finish_file_ok; [exact HI3|]. intros w4 HI4. split; [done|].
  exists (put s3). split; [done|]. by rewrite Ht3, Ht in Hz3.
Qed.
End deflate.
Section inflate.
Context (s : S) (Hinit : inflateInit = (Z_OK, s)) (d : list Z) (Hcode : zcode unread d) (Hleft : unread <> []) (Hlim : blen d <= lim).
Lemma inflate_ftb_ok w : reads source sp data pos w -> lim + ZIP_CHUNK <= ULONG_MAX ->
  post (inflate_ftb true alloc failed fuel (Some source) true) (fun p w' => out w' = None /\ gives Z_OK d p) w.
Proof.
  intros Hrd Hmax. destruct (inflateInit_starts s Hinit) as (Hd & Ht & Hp). cbn [inflate_ftb negb]. pose proof (blen_nonneg d).
  apply post_bind, new_out_ok. intros w1 HI1 Hk1 _. cbn [negb]. apply post_bind.
  eapply init_inflate_ok; [done|]. intros z Hz. cbn [Z.eqb Z_OK negb]. set (w2 := mkWorld _ z _) in *.
  assert (in_buffer [] w2) as HI2 by exact HI1. rewrite <- Hp in HI2.
  apply post_bind. eapply post_mono.
  { apply (inflate_file_ok lim in_buffer _ _ (buffer_sink lim Hmax) source sp data buffer_reads ltac:(done) _ d Hcode fuel w2 s pos);
      [exact HI2|by apply (buffer_reads _ w)|apply local_chunk_len|exact Hz|exact Hd|by rewrite Ht|exact Hleft|exact Hlim|rewrite Hp; change (blen []) with 0; fold unread; lia..]. }
  cbv beta. intros a w3 (-> & HI3). eapply finish_buffer_ok; [exact HI3|]. intros p w4 Hg Ho _. by split.
Qed.
Lemma inflate_ftf_ok w : reads source sp data pos w -> source <> dest /\ sp <> dpath -> in_file [] w ->
  post (inflate_ftf room failed fuel (Some source) (Some dest)) (fun r w' => r = Z_OK /\ in_file d w') w.
Proof.
  intros Hrd Ho HI. destruct (inflateInit_starts s Hinit) as (Hd & Ht & Hp). cbn [inflate_ftf]. pose proof (blen_nonneg d).
  apply post_bind. eapply init_inflate_ok; [done|]. intros z Hz. cbn [Z.eqb Z_OK negb]. set (w2 := mkWorld _ z _) in *.
  assert (in_file [] w2) as HI2 by exact HI. rewrite <- Hp in HI2.
  apply post_bind. eapply post_mono.
  { apply (inflate_file_ok lim in_file _ _ (file_sink lim) source sp data (file_reads Ho) (file_read_source Ho) _ d Hcode fuel w2 s pos);
      [exact HI2|by destruct Hrd|apply local_chunk_len|exact Hz|exact Hd|by rewrite Ht|exact Hleft|exact Hlim|rewrite Hp; change (blen []) with 0; fold unread; lia..]. }
  cbv beta. intros a w3 (-> & HI3). eapply finish_file_ok; [exact HI3|]. by intros w4 HI4.
Qed.
End inflate.
End files.

(** * What the functions promise *)

(** Reading back what [deflate_btb] or [deflate_ftb] gave away. *)
Definition inflate_block (fuel : nat) (p : Z * option (Z * option (Z * list cell))) : M W (Z * option (Z * option (Z * list cell))) :=
  match p with
  | (_, Some (m, blk)) => c ← lift (buffer_bytes (block_cells blk)); inflate_btb true alloc fuel (Some c) m true
  | _ => mret p
  end.
Lemma counted_small b n : 0 <= n < 2 ^ 32 -> counted b n = take (Z.to_nat n) b.
Proof. intros Hn. unfold counted, u32. by rewrite Z.mod_small. Qed.
Lemma counted_all c : blen c < 2 ^ 32 -> counted c (blen c) = c.
Proof. intros Hc. pose proof (blen_nonneg c). rewrite counted_small by lia. apply take_ge. unfold blen. lia. Qed.
Lemma inflate_block_ok fuel c d p w si : gives Z_OK c p -> inflateInit = (Z_OK, si) -> zcode c d -> blen c < 2 ^ 32 -> blen d < 2 ^ 32 ->
  blen d < ZIP_CHUNK * Z.of_nat fuel ->
  post (inflate_block fuel p) (fun p w' => out w' = None /\ dsk w' = dsk w /\ gives Z_OK d p) w.
Proof.
  intros (blk & -> & Hblk) Hi Hz Hc Hd Hf. pose proof chunk_pos. cbn [inflate_block]. apply post_bind.
  eapply post_lift; [rewrite Hblk; apply buffer_bytes_some|].
  assert (0 < blen c) as Hpos by (pose proof (zcode_nonempty c d Hz); destruct c; [done|rewrite blen_cons; pose proof (blen_nonneg c); lia]).
  eapply (inflate_btb_ok fuel c (blen c) (blen d)); [lia|done|exact Hi|by rewrite counted_all|lia|unfold ULONG_MAX; lia].
Qed.

(** C31: what [deflate_btb] makes of the first [n] bytes of an array,
    [inflate_btb] turns back into those bytes: both return Z_OK, whatever the
    turns of their loops that fill the 64 KiB of room, the second gives away a
    block of exactly the data, neither keeps a buffer, and no file is touched. *)
Theorem zip_buffer_roundtrip fuel fuel' b n level sd si w : 0 < n <= blen b -> n < 2 ^ 32 ->
  deflateInit level = (Z_OK, sd) -> inflateInit = (Z_OK, si) -> deflate_bound n < 2 ^ 32 ->
  deflate_bound n < ZIP_CHUNK * Z.of_nat fuel -> n < ZIP_CHUNK * Z.of_nat fuel' ->
  post (p ← deflate_btb true alloc fuel (Some b) n true level; inflate_block fuel' p)
    (fun p w' => out w' = None /\ dsk w' = dsk w /\ gives Z_OK (take (Z.to_nat n) b) p) w.
Proof.
  intros Hn Hn32 Hd Hi Hb Hf Hf'. pose proof chunk_pos.
  assert (blen (take (Z.to_nat n) b) = n) as Hl by (unfold blen in *; rewrite length_take; lia).
  apply post_bind. eapply post_mono.
  { eapply (deflate_btb_ok fuel b n (deflate_bound n)); [done..| |unfold ULONG_MAX; lia]. by rewrite counted_small, Hl by lia. }
  cbv beta. rewrite counted_small, Hl by lia. intros p w1 (Ho & Hk & c & Hg & Hz & Hc).
  eapply post_mono; [apply (inflate_block_ok _ c _ p w1 si Hg Hi Hz); lia|]. cbv beta. intros p2 w2 (Ho2 & Hk2 & Hg2). by rewrite Hk2, Hk.
Qed.

End spec.

Section promises.
Context {S : Type} `{ZlibLaws S} (room : disk -> Z) (failed : Z -> disk -> bool).
Hypothesis has_room : forall d, 2 ^ 17 <= room d.
Hypothesis no_failure : forall h d, failed h d = false.

(** C32: [deflate_ftf] returns Z_OK and writes to the destination, that was
    empty, a stream of what the source had left to read; and in whatever later
    world in which that file is the source, [inflate_ftf] returns Z_OK and
    adds exactly those bytes to what its own destination held.  The chunks of
    64 KiB that the files are read in need not agree with those of the output. *)
Theorem zip_file_roundtrip fuel source sp data pos dest dpath level sd si (w : world S) : reads source sp data pos w -> in_file dest dpath [] [] w ->
  source <> dest /\ sp <> dpath -> deflateInit level = (Z_OK, sd) -> inflateInit = (Z_OK, si) ->
  let d := unread data pos in deflate_bound (blen d) + blen d < ZIP_CHUNK * Z.of_nat fuel ->
  post (deflate_ftf room failed fuel (Some source) (Some dest) level) (fun r w' => r = Z_OK /\ exists c, file_at dpath (dsk w') = c /\
    forall fuel' source' dest' dpath' base' w2, reads source' dpath c 0 w2 -> in_file dest' dpath' base' [] w2 ->
      source' <> dest' /\ dpath <> dpath' -> blen d + blen c < ZIP_CHUNK * Z.of_nat fuel' ->
      post (inflate_ftf room failed fuel' (Some source') (Some dest')) (fun r w3 => r = Z_OK /\ file_at dpath' (dsk w3) = base' ++ d) w2) w.
Proof.
  intros Hrd HI Hne Hd Hi d Hf.
  eapply post_mono; [by eapply (deflate_ftf_ok room failed has_room no_failure dest dpath [] fuel source sp data pos (deflate_bound (blen d)))|]. cbv beta.
  intros r w1 (-> & c & (m & q & _ & _ & Hfile) & Hz). split; [done|]. exists c. split; [done|].
  intros fuel' src' dest' dp' base' w2 Hrd2 HI2 Hne2 Hf2. assert (unread c 0 = c) as Eu by done.
  eapply post_mono.
  { eapply (inflate_ftf_ok room failed has_room no_failure dest' dp' base' fuel' src' dpath c 0 (blen d)); try done. rewrite Eu. by eapply zcode_nonempty. }
  cbv beta. by intros r w3 (-> & m3 & q3 & _ & _ & ->).
Qed.

(** ** Input that is cut short *)

(** One turn is enough when all of the output fits. *)
Lemma inflate_once lim I R chunk fuel (w : world S) c d inp rest s : sink lim I R chunk -> zcode c d -> I (put s) w ->
  supplies w inp -> internal (strm w) = s -> inflating s -> c = taken s ++ inp ++ rest -> blen d <= lim -> blen d < ZIP_CHUNK -> inp <> [] -> rest <> [] ->
  post (while_full (Datatypes.S fuel) (chunk inflate_error inflate)) (fun a w' => exists e more, a = inr Z_OK /\ d = put s ++ e ++ more /\ I (put s ++ e) w') w.
Proof.
  intros Hsink Hcd HI Hsu Hs Hd Hc Hlim Hfit Hne Hrest. pose proof chunk_pos as Hch.
  pose proof (inflate_takes inp ZIP_CHUNK s Hd ltac:(lia)) as Ht. pose proof (inflate_follows inp ZIP_CHUNK s c d rest Hd ltac:(lia) Hcd Hc) as Hg.
  destruct (inflate inp ZIP_CHUNK s) as [[[r n] o] s'] eqn:E. destruct Ht as (_ & Hn & Ho & Ht & Hp).
  destruct Hg as (Hr & (more & Hmore) & Hend & Hroom & Hbuf).
  assert (blen d = blen (put s) + blen o + blen more) as Hbd by (rewrite Hmore, Hp, !blen_app; lia).
  pose proof (blen_nonneg more). pose proof (blen_nonneg o). pose proof (blen_nonneg (put s)).
  destruct (Hroom ltac:(lia)) as [-> _].
  assert (0 < blen inp) as Hpos by (destruct inp; [done|rewrite blen_cons; pose proof (blen_nonneg inp); lia]).
  cbn [while_full]. apply post_bind. eapply post_mono.
  { eapply (sk_store _ _ _ _ Hsink); [exact HI|exact Hsu|rewrite Hs; exact E|by apply inflate_error_none|lia| |lia]. rewrite blen_app. lia. }
  cbv beta. intros a w1 (-> & HI1 & _ & _ & _ & Hav). apply post_bind, post_gets. rewrite Hav.
  rewrite (proj2 (Z.eqb_neq _ 0)) by lia. apply post_ret. exists o, more.
  assert (r = Z_OK) as ->.
  { destruct Hr as [->|[->|Er]]; [done|by destruct (Hbuf Hpos)|]. destruct (Hend Er) as [Et _]. exfalso. apply Hrest.
    rewrite Ht, take_ge, Hc in Et by (unfold blen; lia). rewrite app_assoc, <- (app_nil_r (taken s ++ inp)) in Et at 1.
    by apply app_inv_head in Et. }
  split; [done|]. split; [by rewrite Hmore, Hp, <- app_assoc|done].
Qed.

(** C34: [inflate_btb] does not report a stream that is cut short: given the first
    bytes of a stream whose data is less than 64 KiB, it returns Z_OK with a
    beginning of the data, as it does for a complete stream. *)
Theorem inflate_btb_truncated (alloc : Z -> option Z) fuel c d b rest si (w : world S) : (forall n, is_Some (alloc n)) -> zcode c d -> c = b ++ rest -> b <> [] -> rest <> [] ->
  blen b < 2 ^ 32 -> blen d < ZIP_CHUNK -> inflateInit = (Z_OK, si) ->
  post (inflate_btb true alloc (Datatypes.S fuel) (Some b) (blen b) true) (fun p w' => exists e more, gives Z_OK e p /\ d = e ++ more) w.
Proof.
  intros Hmem Hz Hc Hne Hrest H32 Hfit Hi. pose proof chunk_pos. destruct (inflateInit_starts si Hi) as (Hd & Ht & Hp). cbn [inflate_btb negb orb].
  assert (0 < blen b) as Hpos by (destruct b; [done|rewrite blen_cons; pose proof (blen_nonneg b); lia]).
  rewrite (proj2 (Z.eqb_neq (blen b) 0)) by lia. apply post_bind, new_out_ok. intros w1 HI1 _ _. cbn [negb]. apply post_bind.
  eapply init_inflate_ok; [done|]. intros z Hz2. cbn [Z.eqb Z_OK negb]. apply post_bind, give_buffer_ok; [lia|]. cbn [dsk strm out].
  intros z2 Hsu Hz3. rewrite counted_all in Hsu by done. set (w2 := mkWorld _ z2 _) in *. assert (in_buffer [] w2) as HI2 by exact HI1. rewrite <- Hp in HI2.
  apply post_bind. eapply post_mono.
  { eapply (inflate_once (blen d) in_buffer _ _ fuel w2 c d b rest si); try done; [apply (buffer_sink alloc Hmem); unfold ULONG_MAX; lia|cbn; congruence|by rewrite Ht]. }
  cbv beta. intros a w3 (e & more & -> & Hdm & HI3). rewrite Hp in Hdm, HI3.
  eapply (finish_buffer_ok alloc Hmem); [exact HI3|]. intros p w4 Hg _ _. by exists e, more.
Qed.

(** ** Lengths and failures *)

(** C33: [deflate_btb] counts its input in the [unsigned int] [avail_in]: of an
    array of [n] bytes it deflates only the first [n] modulo 2^32, and returns
    Z_OK.  Of 4 GiB it puts out a stream of no data. *)
Theorem deflate_btb_counts (alloc : Z -> option Z) fuel b n level sd (w : world S) : (forall n, is_Some (alloc n)) -> 0 < n <= blen b ->
  deflateInit level = (Z_OK, sd) -> let k := n mod 2 ^ 32 in deflate_bound k + ZIP_CHUNK <= ULONG_MAX -> deflate_bound k < ZIP_CHUNK * Z.of_nat fuel ->
  post (deflate_btb true alloc fuel (Some b) n true level) (fun p w' => out w' = None /\ dsk w' = dsk w /\
    exists c, gives Z_OK c p /\ zcode c (take (Z.to_nat k) b)) w.
Proof.
  intros Hmem Hn Hd k Hmax Hf.
  assert (blen (counted b n) = k) as Hk.
  { assert (0 <= k <= n) by (unfold k; split; [apply Z.mod_pos_bound; lia|apply Z.mod_le; lia]).
    unfold counted, u32. fold k. unfold blen in *. rewrite length_take. lia. }
  eapply post_mono; [eapply (deflate_btb_ok alloc Hmem fuel b n (deflate_bound k)); try done; by rewrite Hk|].
  cbv beta. intros p w' (Ho & Hdk & c & Hg & Hz & _). split; [done|]. split; [done|]. by exists c.
Qed.

(** When zlib cannot start, the buffer that was made for the output is lost. *)
Theorem deflate_btb_init_leaks (alloc : Z -> option Z) fuel b n level r sd (w : world S) : n <> 0 -> deflateInit level = (r, sd) -> r <> 0 ->
  post (deflate_btb true alloc fuel (Some b) n true level) (fun p w' => p = (r, None) /\ is_Some (out w')) w.
Proof.
  intros Hn Hd Hr. cbn [deflate_btb negb orb]. rewrite (proj2 (Z.eqb_neq n 0)) by done.
  apply post_bind, new_out_ok. intros w1 (o & Ho & _) _ _. cbn [negb]. apply post_bind.
  unfold init_deflate_stream. cbn [negb]. rewrite Hd. apply post_bind, post_gets, post_bind. unfold set_strm. apply post_modify, post_ret.
  rewrite (proj2 (Z.eqb_neq r 0)) by done. apply post_ret. split; [done|]. cbn. by rewrite Ho.
Qed.
End promises.

(** * The promises at work *)
Definition idle (d : disk) : world Stored.state := mkWorld d (mkZStream [] 0 0 unused) None.
#[local] Notation fresh := (Stored.mkState [] [] [] false).
Lemma below_chunk n k : n < 2 ^ 16 -> n < ZIP_CHUNK * Z.of_nat (Datatypes.S k).
Proof. change ZIP_CHUNK with (2 ^ 16). lia. Qed.
Lemma zip_buffer_roundtrip_witness :
  post (p ← deflate_btb true (fun _ => Some 1) 1 (Some [104; 105; 33]) 2 true (-1); inflate_block (fun _ => Some 1) 1 p)
    (fun p w' => out w' = None /\ dsk w' = mkDisk ∅ ∅ /\ gives Z_OK (take (Z.to_nat 2) [104; 105; 33]) p) (idle (mkDisk ∅ ∅)).
Proof.
  apply (zip_buffer_roundtrip (fun _ => Some 1) ltac:(by eexists) 1 1 [104; 105; 33] 2 (-1) fresh fresh (idle (mkDisk ∅ ∅)));
    [done|done|done|done|done|by apply below_chunk|by apply below_chunk].
Defined.
Lemma zip_file_roundtrip_witness : let d := mkDisk {[ [97] := [1; 104; 105] ]} {[ 3 := mkStream [97] ForReading 1; 4 := mkStream [98] ForAppending 0 ]} in
  post (deflate_ftf (fun _ => 2 ^ 17) (fun _ _ => false) 1 (Some 3) (Some 4) 6) (fun r w' => r = Z_OK /\ exists c, file_at [98] (dsk w') = c /\
    forall fuel' source' dest' dpath' base' w2, reads source' [98] c 0 w2 -> in_file dest' dpath' base' [] w2 ->
      source' <> dest' /\ [98] <> dpath' -> blen (unread [1; 104; 105] 1) + blen c < ZIP_CHUNK * Z.of_nat fuel' ->
      post (inflate_ftf (fun _ => 2 ^ 17) (fun _ _ => false) fuel' (Some source') (Some dest'))
        (fun r w3 => r = Z_OK /\ file_at dpath' (dsk w3) = base' ++ unread [1; 104; 105] 1) w2) (idle d).
Proof.
  intros d. apply (zip_file_roundtrip (fun _ => 2 ^ 17) (fun _ _ => false) ltac:(done) ltac:(done) 1 3 [97] [1; 104; 105] 1 4 [98] 6 fresh fresh (idle d));
    [|exists ForAppending, 0; auto|done|done|done|by apply below_chunk].
  split; [by exists ForReading|done|done].
Defined.
Lemma inflate_btb_truncated_witness :
  post (inflate_btb true (fun _ => Some 1) 1 (Some [1; 104; 1]) 3 true) (fun p w' => exists e more, gives Z_OK e p /\ [104; 105] = e ++ more) (idle (mkDisk ∅ ∅)).
Proof.
  apply (inflate_btb_truncated (fun _ => Some 1) 0 [1; 104; 1; 105; 0] [104; 105] [1; 104; 1] [105; 0] fresh (idle (mkDisk ∅ ∅)));
    [by eexists|done..].
Defined.
Lemma deflate_btb_counts_witness : let b := replicate (Z.to_nat (2 ^ 32)) 7 in
  post (deflate_btb true (fun _ => Some 1) 1 (Some b) (2 ^ 32) true 9) (fun p w' => out w' = None /\ dsk w' = mkDisk ∅ ∅ /\
    exists c, gives Z_OK c p /\ zcode c (take (Z.to_nat (2 ^ 32 mod 2 ^ 32)) b)) (idle (mkDisk ∅ ∅)).
Proof.
  intros b. apply (deflate_btb_counts (fun _ => Some 1) 1 b (2 ^ 32) 9 fresh (idle (mkDisk ∅ ∅))); [by eexists| |done|done|by apply below_chunk].
  unfold b, blen. rewrite length_replicate. lia.
Defined.
